(* ===== verification/_CoqProject ===== *)
-Q . S2P
Prelude.v
RustString.v
Bytes.v
Packet.v
PacketProps.v
TransportCrypto.v
TransportCryptoProps.v
SecureChannel.v
SecureChannelProps.v
Sql.v
Flow.v
OrchDb.v
OrchSpec.v
OrchInv.v
OrchRefine.v
OrchReports.v
OrchProps.v
OrchEvidence.v
OperatorEscrow.v
OperatorProps.v
ActionToken.v
TokenIssuer.v
TokenVerifier.v
TokenProps.v
TokenLimiter.v
Json.v
Wire.v
Admission.v
Trust.v
TrustProps.v
TrustFiles.v
Vault.v
VaultProps.v
Bootstrap.v
BootstrapProps.v
SignerConfig.v
SignerConfigProps.v
Snapshot.v
XmrAddress.v
Escrow.v
EscrowRefine.v
EscrowProps.v
FeePolicy.v
Bridge.v
Mailbox.v
MailboxInv.v
MailboxProps.v
MailboxLimiter.v
MailboxConfig.v
MailboxApi.v
SignerDb.v
SignerInv.v
SignerProps.v
SignerMetrics.v
AgentSupport.v
AgentState.v
OrchBridge.v
AgentFlows.v
AgentMail.v
AgentPending.v
AgentProps.v
AgentMailProps.v
AgentPendingProps.v
AgentRuns.v
AgentAuth.v
AgentCache.v
AgentDemo.v
SignerStart.v
SignerStartProps.v
SignerCli.v
Digest.v
WalletRpc.v
WalletRpcProps.v
WalletAgent.v
CoreRpc.v
CoreRpcProps.v
CoreRuntime.v
CoreRuntimeProps.v
WorkerHttp.v
PeerTool.v
