(* ===== verification/Prelude.v ===== *)
(** * Nexum Core / NXMS: verification library

    Nexum Core is the backend of a two-of-three multisig escrow for Monero.
    An orchestrator runs escrow workflows and issues action tokens; signers
    hold the wallets, verify tokens and contract snapshots and sign; messages
    travel end-to-end encrypted through mailboxes; a contract object tracks
    the rounds of the multisig set-up, the funding, the dispute and the
    settlement.  This library models the Rust crates that decide all this.
    Definitions keep the names of the sources; every operation is executable.

    ** Shared files

    - [Prelude]: machine integers as [Z] with the conversions and saturating
      operations of Rust, [result], the state monad [M] in which what was
      written before an early return stays written, SQLite transactions
      ([transaction], [commit]), preservation of invariants, [wp], and bounds on
      the requests a computation sends ([sends]).
    - [RustString]: bytes, [trim], hexadecimal, lower-casing.
    - [Bytes]: little- and big-endian integers and slices of byte strings; a
      file system as a map from paths, every operation of which may fail.
    - [Sql]: tables as lists of rows in the order of insertion; [INSERT] with
      UNIQUE and CHECK constraints, AUTOINCREMENT, upserts, ORDER BY.
    - [Json]: [serde_json::Value] and its canonical form; orders as a class,
      for sorting keys.

    ** The orchestrator, [crates/nxms-escrow-orchestrator]

    - [Flow]: [flow.rs], the workflow automaton and the idempotency keys.
    - [OrchDb]: [db.rs], the tables and every [*_sync] operation as one
      transaction.  [OrchSpec] states the abstract transition relation of the
      database, [OrchInv] the invariant over all tables, [OrchRefine] that
      every call is one guarded write of the specification or no change.
      [OrchReports] has the integrity check, the delivery report, the metrics
      and alerts.  [OrchProps] and [OrchEvidence] hold the theorems: reachable
      databases are well formed, workflows move along legal transitions only,
      a step is accepted once, inbox numbers are never replayed, retries end
      in one dead letter, submit bundles need two matching proofs, failing
      calls are atomic.
    - [OperatorEscrow], [OperatorProps]: [operator_escrow.rs]; the hashes of a
      snapshot and a proposal determine their fields, and a bundle holds the
      first approval of each signer index.
    - [ActionToken], [TokenIssuer]: [action_token.rs], [config.rs] and
      [tx_profile.rs], the issuing of action tokens.

    ** The signer, [crates/nxms-signer]

    - [TokenVerifier], [TokenProps], [TokenLimiter]: [action_token.rs]; what
      an accepted token binds, tokens of the issuer are accepted, the attempt
      limiter is exact and its memory bounded.
    - [Snapshot]: [snapshot.rs]; canonical hashes, signatures, and the policy
      check of a transfer, equal to its declarative reading.
    - [SignerDb], [SignerInv], [SignerProps]: [db.rs] and [audit_event.rs], the
      tables and every operation, the invariant over all tables, and what holds
      over any sequence of writes: sequence numbers and token ids are used
      once, a request id follows its automaton and its answer is final, sign
      events and the audit log only grow, a snapshot in force has its quorum.
    - [SignerMetrics]: the classification of audit rows, the dashboard and the
      alert report, equal to direct counts.
    - [AgentSupport]: [agent_support.rs]; redaction of log details, hex and
      transaction data, proposals from a snapshot; message bodies of [wire.rs].
    - [AgentState]: the agent's state (database, attempt limiter, log of calls
      to the outside), the classes [AgentLib] and [AgentEnv] of what the agent
      relies on, and the computations [AG].  Before every access to the
      database any writes of other tasks may happen ([env_others]), and the
      answers of wallet, mailbox and orchestrator depend on all calls so far.
    - [OrchBridge]: [orchestrator_bridge.rs]; storing and fetching proofs
      through the orchestrator's command, secrets and production requirements.
    - [AgentFlows]: [agent/flow_ops.rs]; signing, proposing and submitting.
      The two flows share [prepare] and [token_gate] where the source repeats
      the text.  [AgentMail]: [agent/transport.rs] and the mailbox loop.
      [AgentPending]: [agent/pending.rs].  [AgentAuth]: auth events of [agent.rs].
    - [AgentProps], [AgentPendingProps], [AgentRuns]: the wallet signs and
      submits only what the policy allows and a fresh token was spent on, at
      most once per token over any run of the agent.  Opening the wallet, and
      building a transfer for a proposal, need no action token.  [AgentCache]: completed requests
      never reach the wallet again.  [AgentMailProps]: an envelope counts once.
      Staged answers are sent as staged.  [AgentDemo]: a
      concrete signer, the witnesses, and what becomes of a proof that could
      not be stored.
    - [SignerConfig], [SignerConfigProps]: [config.rs] with the parser
      of IP addresses it uses; what an accepted configuration reaches and where
      its secrets come from.  [SignerStart], [SignerStartProps]:
      the construction of the agent in [agent.rs] and the
      provisioning of a wallet; a hardened agent starts from a verified bundle
      and a finished multisig wallet.  [SignerCli]: the commands of [main.rs]
      that activate snapshots and write evidence bundles.
    - [Digest]: HTTP digest authentication, which both wallet clients share; a
      challenge is read as it was written and an answer says what it has to.
      [WalletRpc], [WalletRpcProps]: [wallet_rpc.rs]; a call sends at most four
      requests, counts of a nonce never repeat under any interleaving, and the
      summary of a transaction set is exact.  [WalletAgent] implements the
      wallet of [AgentEnv] with this client: what the policy check accepts holds
      of every transaction in the wallet's answer.
    - [WorkerHttp]: [worker_http.rs]; the handlers of the worker API over the
      agent's flows, behind the service token.  A request without it changes
      nothing and learns nothing, each route has only the effects listed for it
      (signing and submitting on two of them), and no error carries a token back.

    ** The transport, [crates/nxms-transport]

    - [Wire]: [wire.rs] and [security.rs]; envelopes, payloads, comparison of
      secrets.
    - [Admission]: [admission.rs]; an admitted escrow carries the signatures
      of both guard roles.
    - [Packet], [PacketProps]: the packet format of [native/nxms_ms_transport.c]
      over FrodoKEM, Falcon and SHAKE-256 as parameters; the authenticated data
      and the signed message determine all they are made of, a packet opens to
      what was sealed.  A buffer that [malloc] refuses is a failing site.  These
      are the values; the memory of the same functions is in the next file.
    - [TransportCrypto], [TransportCryptoProps]: [crypto.rs]; keys, secret
      files, and sealing and opening with the native heap.  The C functions
      of [nxms_ms_transport.c] and [pqc_kem.c] allocate, write, read and free on
      this heap, each failing path with its frees, and compute the values of
      [Packet]: what they allocate is freed exactly once on every path.  A
      message that opens was sealed by its sender, a secret file is private
      throughout its writing.
    - [SecureChannel], [SecureChannelProps]: [tor_net.rs], [p2p.rs] and the
      node ([src/lib.rs], [src/main.rs]); frames over a byte stream; what is sent
      arrives in order, what is accepted was sealed by the peer for its position
      and type, in this session or (sessions share names and numbers) in an
      earlier one.
    - [Vault], [VaultProps]: [host_vault.rs], [action_token_issuer_vault.rs],
      [action_token_issuer.rs]; one file format with two magics; its header is
      read exactly as written, and vaults open to what was stored.
    - [Trust], [TrustProps], [TrustFiles]: [trust.rs], [host_identity.rs],
      [peers.rs], the projection part of [bootstrap.rs], and the signer's
      [trust.rs].  A bundle verifies only with both guards' signatures over its
      digest, which does not depend on the order of the peers; files are
      replaced as a whole or not at all; what is materialised passes the
      projection check, and a signer starts only with such a projection.
    - [Bootstrap], [BootstrapProps]: [bootstrap.rs]; the commands of the set-up
      ceremony on a file system, which ends in a bundle that verifies.

    ** The escrow, [crates/nxms-monero-core]

    - [XmrAddress], [FeePolicy]: [xmr_address.rs], [fee_policy.rs],
      [limits.rs].
    - [Escrow], [EscrowRefine], [EscrowProps]: [multisig/state.rs], the
      transitions of the protocol document as a relation with its guards, and
      that every call of a party takes one of them or one of two listed
      deviations (funding without the fee reserve, round 1 begun without the
      arbiter); settlement needs two parties, nothing set is ever replaced,
      the cooperating run completes.  The restoring imports of a stored contract
      are operations of their own ([EscrowImport]): they trust their argument,
      and these theorems are about the calls of the parties.
    - [Bridge]: [bridge.rs]; the stateless requests simulate the contract.
    - [CoreRpc], [CoreRpcProps]: [rpc/wallet_rpc.rs]; the client,
      the opening of a wallet with its retries and the flows.  Opening ends
      within its bounds and has seen the wallet it names, strict mode never asks
      for the experimental bootstrap, a returned signature has been stored.
    - [CoreRuntime], [CoreRuntimeProps]: [rpc/wallet_runtime.rs], the engine
      [crypto/multisig.rs] and the requests of [bridge.rs] that are one wallet
      call; cached clients belong to their escrow, the cache is bounded, failures
      up to the threshold open the circuit, and an open circuit keeps operations
      from running.  These are about calls that run one after the other;
      concurrent calls are followed only through the two interleavings in which
      an operation runs on the wallet of another escrow
      ([opened_outside_lock], [signed_by_other_wallet]).

    ** The mailbox, [crates/nxms-mailbox]

    - [Mailbox], [MailboxInv], [MailboxProps]: [db.rs]; the table invariant,
      quotas (in characters, as the queries count), exclusive leases, no loss,
      push-pull-acknowledge.
    - [MailboxLimiter]: [lib.rs]; the window limiter is a counter per key.
    - [MailboxConfig]: [config.rs]; accepted configurations keep their tokens
      apart, the class [TokensSeparate] on which [MailboxApi] relies.
    - [MailboxApi]: [api.rs]; handlers are confined to what the token opens.

    ** The peer, [crates/nxms-peer] and [crates/nxms-mailbox-client]

    - [PeerTool]: the client of the mailbox and the tool that asks a signer for a
      signature; an outcome comes from the signer that was asked, sequence
      numbers are never reused whatever fails, a round trip ends with its
      deadline; and how a late answer is taken for that of the next request.

    ** Conventions

    Code outside the repository is a parameter: hash functions, Falcon
    signatures, base64, the JWT library, the printer and parser of
    [serde_json] where the theorem does not need its text, HTTP, files and the
    environment.  Where a theorem needs a fact about them, it is a law of a
    class or a named hypothesis, and the witness of the theorem instantiates
    it.  Clocks, random receipts and the traversal order of hash maps are
    arguments, so a theorem holds for all of them.  SQLite statements fail on
    constraints only.  Loops run over lists and recursion is structural,
    with three exceptions that take the length of their input as fuel, which
    is enough because every round consumes a byte: [split_on], [pem_lines]
    ([pem_lines_filter]) and [xor_blocks] ([xor_blocks_exact]).  The peer's
    polling takes the number of rounds until its deadline ([round_trip_ends]).  The retries of
    a wallet are bounded by their configured number.

    ** Not modelled

    Of the signer's [main.rs] only the two commands above; the HTTP framework
    and the mailbox's server process are around the modelled handlers.  The
    command lines of the orchestrator and of the host set-up parse arguments
    and print.  [multisig/wallet.rs] forwards to
    the modelled engine.  Sockets, the Tor proxy and the process start-up are
    input and output; the primitives of the native library, the iOS application
    and the dashboard are other languages. *)

From stdpp Require Export base decidable list gmap strings pretty sets.
From Stdlib Require Export ZArith Lia Bool Ascii Wf_nat.

Declare Scope nexum_scope.
Delimit Scope nexum_scope with nexum.
Open Scope string_scope.
Open Scope list_scope.
Open Scope Z_scope.
Open Scope nexum_scope.

(** ** Machine integers

    Every width that occurs in the code is a [Z] kept in range by the
    conversions and saturating operations of the Rust standard library. *)

Definition U64_MAX : Z := 18446744073709551615.
Definition I64_MAX : Z := 9223372036854775807.
Definition I64_MIN : Z := -9223372036854775808.
Definition U32_MAX : Z := 4294967295.
Definition U128_MAX : Z := 340282366920938463463374607431768211455.

Definition is_u64 (n : Z) : Prop := 0 <= n <= U64_MAX.
Definition is_i64 (n : Z) : Prop := I64_MIN <= n <= I64_MAX.
Definition is_u32 (n : Z) : Prop := 0 <= n <= U32_MAX.

(** [i64::try_from(n).unwrap_or(d)] on an unsigned [n]. *)
Definition i64_try_from_or (d n : Z) : Z := if n <=? I64_MAX then n else d.
(** [i64::try_from(n).unwrap_or(i64::MAX)]. *)
Definition to_i64 (n : Z) : Z := i64_try_from_or I64_MAX n.
(** [u64::try_from(n).unwrap_or(0)] on an [i64]. *)
Definition to_u64 (n : Z) : Z := if 0 <=? n then n else 0.
(** [u32::try_from(n).unwrap_or(d)] on an [i64]. *)
Definition u32_try_from_or (d n : Z) : Z :=
  if (0 <=? n) && (n <=? U32_MAX) then n else d.

Definition sat_add_i64 (a b : Z) : Z := Z.max I64_MIN (Z.min I64_MAX (a + b)).
Definition sat_add_u64 (a b : Z) : Z := Z.min U64_MAX (a + b).
Definition sat_sub_u64 (a b : Z) : Z := Z.max 0 (a - b).
Definition sat_mul_u64 (a b : Z) : Z := Z.min U64_MAX (a * b).
Definition sat_add_u32 (a b : Z) : Z := Z.min U32_MAX (a + b).
Definition sat_add_u128 (a b : Z) : Z := Z.min U128_MAX (a + b).

(** Unfolds the machine-integer vocabulary and calls [lia]. *)
Ltac ints :=
  unfold is_u64, is_i64, is_u32, to_i64, i64_try_from_or, to_u64, u32_try_from_or,
    sat_add_i64, sat_add_u64, sat_sub_u64, sat_mul_u64, sat_add_u32, sat_add_u128,
    U64_MAX, I64_MAX, I64_MIN, U32_MAX, U128_MAX in *.
Ltac mlia :=
  ints;
  repeat match goal with
    | |- context [if ?b then _ else _] => destruct b eqn:?
    | H : context [if ?b then _ else _] |- _ => destruct b eqn:?
    end; lia.

Lemma to_i64_range n : 0 <= n -> 0 <= to_i64 n <= I64_MAX.
Proof. mlia. Qed.

Lemma to_i64_id n : n <= I64_MAX -> to_i64 n = n.
Proof. mlia. Qed.

Lemma to_i64_mono n m : n <= m -> to_i64 n <= to_i64 m.
Proof. mlia. Qed.

Lemma sat_sub_u64_range a b : is_u64 a -> 0 <= b -> is_u64 (sat_sub_u64 a b).
Proof. mlia. Qed.

(** ** Results

    [Result<A, E>] of the Rust sources. *)

Inductive result (E A : Type) : Type :=
| Ok (a : A)
| Err (e : E).
Arguments Ok {E A} a.
Arguments Err {E A} e.

Definition rbind {E A B} (m : result E A) (k : A -> result E B) : result E B :=
  match m with Ok a => k a | Err e => Err e end.
(** [opt.ok_or_else(..)?] *)
Definition ok_or {E A} (o : option A) (e : E) : result E A :=
  match o with Some a => Ok a | None => Err e end.
(** [if b { return Err(e) }] *)
Definition fail_if {E} (b : bool) (e : E) : result E unit :=
  if b then Err e else Ok tt.
(** [r.map_err(f)?] *)
Definition map_err {E E' A} (f : E -> E') (m : result E A) : result E' A :=
  match m with Ok a => Ok a | Err e => Err (f e) end.
Definition is_ok {E A} (m : result E A) : bool :=
  match m with Ok _ => true | Err _ => false end.
Definition is_err {E A} (m : result E A) : bool := negb (is_ok m).

Notation "'let?' x := m 'in' k" := (rbind m (fun x => k))
  (at level 10, x pattern, m at level 100, k at level 200) : nexum_scope.

Lemma rbind_ok {E A B} (m : result E A) (k : A -> result E B) b :
  rbind m k = Ok b <-> exists a, m = Ok a /\ k a = Ok b.
Proof. destruct m; simpl; naive_solver. Qed.

Lemma fail_if_ok {E} b (e : E) u : fail_if b e = Ok u <-> b = false.
Proof. destruct b, u; simpl; naive_solver. Qed.

Lemma seq_ok {E} (m : result E unit) (k : result E unit) :
  rbind m (fun _ => k) = Ok tt <-> m = Ok tt /\ k = Ok tt.
Proof. rewrite rbind_ok. split; [intros ([] & ? & ?)|intros [? ?]; exists tt]; done. Qed.

Lemma ok_or_ok {E A} (o : option A) (e : E) a : ok_or o e = Ok a <-> o = Some a.
Proof. destruct o; simpl; naive_solver. Qed.

Lemma map_err_ok {E E' A} (f : E -> E') (m : result E A) a :
  map_err f m = Ok a <-> m = Ok a.
Proof. destruct m; simpl; naive_solver. Qed.

(** Decomposes a hypothesis [.. = Ok ..] about a chain of fallible steps into
    the success of each step. *)
Ltac rok_step :=
  match goal with
  | H : rbind _ _ = Ok _ |- _ =>
      let a := fresh "v" in let H1 := fresh "H" in
      apply rbind_ok in H; destruct H as (a & H1 & H)
  | H : fail_if _ _ = Ok _ |- _ => apply fail_if_ok in H
  | H : ok_or _ _ = Ok _ |- _ => apply ok_or_ok in H
  | H : map_err _ _ = Ok _ |- _ => apply map_err_ok in H
  | H : Ok _ = Ok _ |- _ => injection H as H; subst
  | H : Err _ = Ok _ |- _ => discriminate H
  end.
Ltac rok := repeat rok_step.

(** Splits a conjunction without unfolding a definition that hides one. *)
Ltac splits := repeat match goal with |- _ /\ _ => apply conj end.

(** ** State with errors

    [M S E A] is a computation over a mutable [S] that fails with an [E]; as
    in Rust, what was written before an early return stays written. *)

Definition M (S E A : Type) : Type := S -> S * result E A.

Definition sret {S E A} (a : A) : M S E A := fun s => (s, Ok a).
Definition sfail {S E A} (e : E) : M S E A := fun s => (s, Err e).
Definition sbind {S E A B} (m : M S E A) (k : A -> M S E B) : M S E B :=
  fun s => match m s with
           | (s', Ok a) => k a s'
           | (s', Err e) => (s', Err e)
           end.
Definition slift {S E A} (r : result E A) : M S E A := fun s => (s, r).
Definition sget {S E A} (f : S -> A) : M S E A := fun s => (s, Ok (f s)).
Definition smodify {S E} (f : S -> S) : M S E unit := fun s => (f s, Ok tt).
(** A statement that either fails without effect or replaces the state. *)
Definition sexec {S E A} (f : S -> result E (S * A)) : M S E A :=
  fun s => match f s with Ok (s', a) => (s', Ok a) | Err e => (s, Err e) end.

Notation "'let*' x := m 'in' k" := (sbind m (fun x => k))
  (at level 10, x pattern, m at level 100, k at level 200) : nexum_scope.

(** The errors of a callee become errors of its caller. *)
Definition smap_err {S E E' A} (g : E -> E') (m : M S E A) : M S E' A := fun s => let '(s', r) := m s in (s', map_err g r).
Lemma smap_err_ok {S E E' A} (g : E -> E') (m : M S E A) s s' a : smap_err g m s = (s', Ok a) -> m s = (s', Ok a).
Proof. unfold smap_err. destruct (m s) as [s1 [x|e]]; intros [= -> ?]; by subst. Qed.

Lemma sbind_ok {S E A B} (m : M S E A) (k : A -> M S E B) s s' b :
  sbind m k s = (s', Ok b) <-> exists s1 a, m s = (s1, Ok a) /\ k a s1 = (s', Ok b).
Proof.
  unfold sbind. destruct (m s) as [s1 [a|e]]; naive_solver.
Qed.

Lemma sbind_run {S E A B} (m : M S E A) (k : A -> M S E B) s :
  sbind m k s = match m s with (s', Ok a) => k a s' | (s', Err e) => (s', Err e) end.
Proof. done. Qed.

(** ** SQLite transactions

    A write transaction works on a copy: [tx_committed] is what the database
    file holds, [tx_working] what the open transaction sees.  Dropping the
    transaction without [commit] leaves the file as the last commit left it. *)

Record txn (S : Type) : Type := Txn { tx_committed : S; tx_working : S }.
Arguments Txn {S} _ _.
Arguments tx_committed {S} _.
Arguments tx_working {S} _.

(** [conn.transaction_with_behavior(TransactionBehavior::Immediate)?] around [body]. *)
Definition transaction {S E A} (body : M (txn S) E A) : M S E A :=
  fun s => match body (Txn s s) with (t, r) => (tx_committed t, r) end.
(** [tx.commit()?] *)
Definition commit {S E} : M (txn S) E unit :=
  fun t => (Txn (tx_working t) (tx_working t), Ok tt).
(** A statement executed inside the transaction. *)
Definition in_tx {S E A} (m : M S E A) : M (txn S) E A :=
  fun t => match m (tx_working t) with (s', r) => (Txn (tx_committed t) s', r) end.

(** ** Preservation of invariants

    [preserves I m]: whatever [m] returns, error or value, it leaves a state
    that satisfies [I] when it starts in one.  [both I] is the transaction
    counterpart. *)

Definition preserves {S E A} (I : S -> Prop) (m : M S E A) : Prop :=
  forall s, I s -> I (m s).1.
Definition both {S} (I : S -> Prop) (t : txn S) : Prop :=
  I (tx_committed t) /\ I (tx_working t).

Create HintDb preserve.

Lemma preserves_ret {S E A} (I : S -> Prop) (a : A) : preserves I (@sret S E A a).
Proof. by intros s Hs. Qed.

Lemma preserves_fail {S E A} (I : S -> Prop) (e : E) : preserves I (@sfail S E A e).
Proof. by intros s Hs. Qed.

Lemma preserves_lift {S E A} (I : S -> Prop) (r : result E A) : preserves I (@slift S E A r).
Proof. by intros s Hs. Qed.

Lemma preserves_get {S E A} (I : S -> Prop) (f : S -> A) : preserves I (@sget S E A f).
Proof. by intros s Hs. Qed.

Lemma preserves_bind {S E A B} (I : S -> Prop) (m : M S E A) (k : A -> M S E B) :
  preserves I m -> (forall a, preserves I (k a)) -> preserves I (sbind m k).
Proof.
  intros Hm Hk s Hs. unfold sbind. specialize (Hm s Hs).
  destruct (m s) as [s' [a|e]]; simpl in *; [by apply Hk|done].
Qed.

Lemma preserves_lift_bind {S E A B} (I : S -> Prop) (r : result E A) (k : A -> M S E B) :
  (forall a, r = Ok a -> preserves I (k a)) -> preserves I (sbind (slift r) k).
Proof.
  intros Hk s Hs. unfold sbind, slift. destruct r as [a|e]; [by apply Hk|done].
Qed.

Lemma preserves_transaction {S E A} (I : S -> Prop) (body : M (txn S) E A) :
  preserves (both I) body -> preserves I (transaction body).
Proof.
  intros Hb s Hs. unfold transaction. specialize (Hb (Txn s s) (conj Hs Hs)).
  destruct (body (Txn s s)) as [t r]. apply Hb.
Qed.

Lemma preserves_commit {S E} (I : S -> Prop) : preserves (both I) (@commit S E).
Proof. intros t [_ Ht]. by split. Qed.

Lemma preserves_in_tx {S E A} (I : S -> Prop) (m : M S E A) :
  preserves I m -> preserves (both I) (in_tx m).
Proof.
  intros Hm t [Hc Hw]. unfold in_tx. specialize (Hm _ Hw).
  destruct (m (tx_working t)) as [s' r]. by split.
Qed.

#[export] Hint Resolve preserves_ret preserves_fail preserves_lift preserves_get
  preserves_commit preserves_in_tx preserves_transaction : preserve.

(** Unfolds a stateful computation down to the results it branches on. *)
Ltac run_m :=
  unfold transaction, commit, in_tx, sbind, slift, sget, smodify, sexec, sret, sfail,
    fail_if, ok_or, map_err, rbind;
  cbn [tx_committed tx_working fst snd].

(** ** What a computation leaves and returns

    [wp m s Q]: started in [s], the computation [m] ends in a state and with a
    result that [Q] relates, whether it returns or fails. *)

Definition wp {S E A} (m : M S E A) (s : S) (Q : S -> result E A -> Prop) : Prop :=
  Q (m s).1 (m s).2.

Section wp.
Context {S E : Type}.
Implicit Types s : S.

Lemma wp_lift {A B} (r : result E A) (k : A -> M S E B) s Q :
  (forall a, r = Ok a -> wp (k a) s Q) -> (forall e, r = Err e -> Q s (Err e)) ->
  wp (sbind (slift r) k) s Q.
Proof. intros Ho He. unfold wp, sbind, slift. destruct r; [by apply Ho|by apply He]. Qed.

Lemma wp_guard {B} b (e : E) (k : unit -> M S E B) s Q :
  (b = false -> wp (k tt) s Q) -> (b = true -> Q s (Err e)) ->
  wp (sbind (slift (fail_if b e)) k) s Q.
Proof. intros Ho He. unfold wp, sbind, slift. destruct b; [by apply He|by apply Ho]. Qed.

Lemma wp_get {A B} (f : S -> A) (k : A -> M S E B) s Q :
  wp (k (f s)) s Q -> wp (sbind (sget f) k) s Q.
Proof. done. Qed.

Lemma wp_modify {B} (f : S -> S) (k : unit -> M S E B) s Q :
  wp (k tt) (f s) Q -> wp (sbind (smodify f) k) s Q.
Proof. done. Qed.

Lemma wp_ret {A B} (a : A) (k : A -> M S E B) s Q : wp (k a) s Q -> wp (sbind (sret a) k) s Q.
Proof. done. Qed.

Lemma wp_fail {A B} (e : E) (k : A -> M S E B) s Q : Q s (Err e) -> wp (sbind (sfail e) k) s Q.
Proof. done. Qed.

Lemma wp_assoc {A B C} (m : M S E A) (k : A -> M S E B) (k' : B -> M S E C) s Q :
  wp (sbind m (fun a => sbind (k a) k')) s Q -> wp (sbind (sbind m k) k') s Q.
Proof. unfold wp, sbind. by destruct (m s) as [s' [a|e]]. Qed.
End wp.

(** * Counting requests

    How many requests a computation sends, and what they all have in common:
    a lower and an upper bound that compose along [sbind].  Both wallet clients
    use these lemmas; [log] reads the requests off their states. *)

Section requests.
Context {S R : Type} (log : S -> list R).

(** The requests [m] adds are between [lo] and [hi] many, and all satisfy [P]. *)
Definition sends {E A} (lo hi : nat) (P : R -> Prop) (m : M S E A) : Prop := forall w,
  exists l, log (m w).1 = log w ++ l /\ (lo <= length l <= hi)%nat /\ Forall P l.

Lemma sends_none {E A} P (m : M S E A) : (forall w, log (m w).1 = log w) -> sends 0 0 P m.
Proof. intros Hm w. exists []. rewrite Hm, app_nil_r. by split. Qed.

Lemma sends_lift {E A} P (r : result E A) : sends 0 0 P (slift r).
Proof. by apply sends_none. Qed.

Lemma sends_ret {E A} P (a : A) : sends 0 0 P (@sret S E A a).
Proof. by apply sends_none. Qed.

Lemma sends_fail {E A} P (e : E) : sends 0 0 P (@sfail S E A e).
Proof. by apply sends_none. Qed.

Lemma sends_bind {E A B} lo1 hi1 hi2 P (m : M S E A) (k : A -> M S E B) :
  sends lo1 hi1 P m -> (forall a, sends 0 hi2 P (k a)) -> sends lo1 (hi1 + hi2) P (sbind m k).
Proof.
  intros Hm Hk w. destruct (Hm w) as (l & Hl & Hn & Hp). unfold sbind. destruct (m w) as [w1 [a|e]]; simpl in *.
  - destruct (Hk a w1) as (l' & Hl' & Hn' & Hp'). exists (l ++ l'). rewrite Hl', Hl, app_assoc, length_app.
    split; [done|]. split; [lia|]. by apply Forall_app.
  - exists l. split; [done|]. split; [lia|done].
Qed.

Lemma sends_weaken {E A} lo lo' hi hi' P (m : M S E A) : sends lo hi P m -> (lo' <= lo)%nat -> (hi <= hi')%nat -> sends lo' hi' P m.
Proof. intros Hm Hl Hh w. destruct (Hm w) as (l & ? & ? & ?). exists l. split; [done|]. split; [lia|done]. Qed.

Lemma sends_impl {E A} lo hi (P Q : R -> Prop) (m : M S E A) : (forall r, P r -> Q r) -> sends lo hi P m -> sends lo hi Q m.
Proof. intros HPQ Hm w. destruct (Hm w) as (l & ? & ? & ?). exists l. split; [done|]. split; [done|]. by eapply Forall_impl. Qed.
End requests.
Arguments sends_none {S R log E A} P m _.
Arguments sends_lift {S R log E A} P r.
Arguments sends_ret {S R log E A} P a.
Arguments sends_fail {S R log E A} P e.
Arguments sends_bind {S R log E A B} lo1 hi1 hi2 P m k _ _.
Arguments sends_weaken {S R log E A} lo lo' hi hi' P m _ _ _.
Arguments sends_impl {S R log E A} lo hi P Q m _ _.
