(* ===== verification/RustString.v ===== *)
(** * Strings of the Rust sources

    A Rust [String] is the byte string of its UTF-8 encoding.  This file holds
    the standard-library operations the crates use on strings ([trim],
    [to_ascii_lowercase], [is_ascii_hexdigit], [len], [hex::encode], ...) and
    the lemmas the normalising helpers of every crate rest on. *)

From S2P Require Import Prelude.

(** ** Bytes *)

Definition byte_of (c : ascii) : Z := Z.of_N (Ascii.N_of_ascii c).
Definition in_range (lo hi : Z) (c : ascii) : bool :=
  (lo <=? byte_of c) && (byte_of c <=? hi).

Definition is_ascii_digit : ascii -> bool := in_range 48 57.
Definition is_ascii_upper : ascii -> bool := in_range 65 90.
Definition is_ascii_lower : ascii -> bool := in_range 97 122.
Definition is_ascii_alphanumeric (c : ascii) : bool :=
  is_ascii_digit c || is_ascii_upper c || is_ascii_lower c.
Definition is_ascii_hexdigit (c : ascii) : bool :=
  is_ascii_digit c || in_range 65 70 c || in_range 97 102 c.
Definition is_ascii_byte (c : ascii) : bool := in_range 0 127 c.

Definition ascii_lower (c : ascii) : ascii :=
  if is_ascii_upper c then Ascii.ascii_of_N (Ascii.N_of_ascii c + 32) else c.
Definition ascii_upper (c : ascii) : ascii :=
  if is_ascii_lower c then Ascii.ascii_of_N (Ascii.N_of_ascii c - 32) else c.

(** ** Whole strings *)

Fixpoint smap (f : ascii -> ascii) (s : string) : string :=
  match s with EmptyString => EmptyString | String c s' => String (f c) (smap f s') end.
Fixpoint sall (p : ascii -> bool) (s : string) : bool :=
  match s with EmptyString => true | String c s' => p c && sall p s' end.

Definition to_ascii_lowercase : string -> string := smap ascii_lower.
Definition to_ascii_uppercase : string -> string := smap ascii_upper.
Definition is_empty (s : string) : bool := match s with EmptyString => true | _ => false end.
(** [s.len()]: the number of bytes. *)
Definition len (s : string) : Z := Z.of_nat (String.length s).
Definition eq_ignore_ascii_case (a b : string) : bool :=
  (to_ascii_lowercase a =? to_ascii_lowercase b)%string.

(** [char::is_whitespace] on the UTF-8 encoding: the code points with the
    Unicode property White_Space, of one, two and three bytes. *)
Definition ws1 (a : ascii) : bool := in_range 9 13 a || (byte_of a =? 32).
Definition ws2 (a b : ascii) : bool :=
  (byte_of a =? 194) && ((byte_of b =? 133) || (byte_of b =? 160)).
Definition ws3 (a b c : ascii) : bool :=
  ((byte_of a =? 225) && (byte_of b =? 154) && (byte_of c =? 128))
  || ((byte_of a =? 226) && (byte_of b =? 128)
      && (in_range 128 138 c || (byte_of c =? 168) || (byte_of c =? 169) || (byte_of c =? 175)))
  || ((byte_of a =? 226) && (byte_of b =? 129) && (byte_of c =? 159))
  || ((byte_of a =? 227) && (byte_of b =? 128) && (byte_of c =? 128)).

(** Drops the leading whitespace of a byte sequence, given how the bytes of a
    one-, two- and three-byte whitespace character follow each other. *)
Fixpoint strip_ws (w2 : ascii -> ascii -> bool) (w3 : ascii -> ascii -> ascii -> bool)
    (l : list ascii) : list ascii :=
  match l with
  | a :: l1 =>
      if ws1 a then strip_ws w2 w3 l1 else
      match l1 with
      | b :: l2 =>
          if w2 a b then strip_ws w2 w3 l2 else
          match l2 with
          | c :: l3 => if w3 a b c then strip_ws w2 w3 l3 else l
          | [] => l
          end
      | [] => l
      end
  | [] => []
  end.

Definition bytes_of : string -> list ascii := String.list_ascii_of_string.
Definition of_bytes : list ascii -> string := String.string_of_list_ascii.

Definition trim_start_bytes : list ascii -> list ascii := strip_ws ws2 ws3.
(** From the end the bytes of a whitespace character come in reverse. *)
Definition trim_end_bytes (l : list ascii) : list ascii :=
  rev (strip_ws (fun a b => ws2 b a) (fun a b c => ws3 c b a) (rev l)).

(** [s.trim()] *)
Definition trim (s : string) : string :=
  of_bytes (trim_end_bytes (trim_start_bytes (bytes_of s))).

(** [String::from_utf8], [read_to_string]: the sequences of bytes that are UTF-8,
    without overlong forms and surrogates. *)
Definition utf8_tail : ascii -> bool := in_range 128 191.
Definition utf8_second (a b : ascii) : bool :=
  let n := byte_of a in
  if n =? 224 then in_range 160 191 b else if n =? 237 then in_range 128 159 b
  else if n =? 240 then in_range 144 191 b else if n =? 244 then in_range 128 143 b else utf8_tail b.
Fixpoint utf8_bytes (l : list ascii) : bool :=
  match l with
  | [] => true
  | a :: l1 =>
      if in_range 0 127 a then utf8_bytes l1 else
      match l1 with
      | b :: l2 =>
          if in_range 194 223 a then utf8_tail b && utf8_bytes l2 else
          match l2 with
          | c :: l3 =>
              if in_range 224 239 a then utf8_second a b && utf8_tail c && utf8_bytes l3 else
              match l3 with
              | d :: l4 => in_range 240 244 a && utf8_second a b && utf8_tail c && utf8_tail d && utf8_bytes l4
              | [] => false
              end
          | [] => false
          end
      | [] => false
      end
  end.
Definition utf8_valid (s : string) : bool := utf8_bytes (bytes_of s).

(** [haystack.contains(needle)] *)
Definition contains (needle haystack : string) : bool :=
  match String.index 0 needle haystack with Some _ => true | None => false end.

(** [s.strip_prefix(p)] *)
Definition strip_prefix (p s : string) : option string :=
  if String.prefix p s then Some (String.substring (String.length p) (String.length s - String.length p) s)
  else None.

(** [s.ends_with(suffix)] *)
Definition ends_with (suffix s : string) : bool :=
  String.prefix (of_bytes (rev (bytes_of suffix))) (of_bytes (rev (bytes_of s))).

(** [s.split_once(c)] *)
Fixpoint split_once (c : ascii) (s : string) : option (string * string) :=
  match s with
  | EmptyString => None
  | String a s' =>
      if (a =? c)%char then Some (EmptyString, s')
      else match split_once c s' with Some (x, y) => Some (String a x, y) | None => None end
  end.

(** [format!("{}", n)] on an unsigned integer. *)
Definition dec (n : Z) : string := pretty (Z.to_N n).

(** One lower-case hexadecimal digit. *)
Definition hex_digit (n : N) : ascii :=
  match n with
  | 0 => "0" | 1 => "1" | 2 => "2" | 3 => "3" | 4 => "4" | 5 => "5" | 6 => "6" | 7 => "7"
  | 8 => "8" | 9 => "9" | 10 => "a" | 11 => "b" | 12 => "c" | 13 => "d" | 14 => "e" | _ => "f"
  end%char%N.
(** [hex::encode(bytes)] *)
Fixpoint hex_encode (s : string) : string :=
  match s with
  | EmptyString => EmptyString
  | String c s' =>
      let n := Ascii.N_of_ascii c in
      String (hex_digit (n / 16)) (String (hex_digit (n mod 16)) (hex_encode s'))
  end.

(** A lower-case hexadecimal string of [n] digits, the normal form the crates
    store. *)
Definition is_lower_hex (c : ascii) : bool := is_ascii_digit c || in_range 97 102 c.
Definition hex_norm (n : Z) (s : string) : Prop := len s = n /\ sall is_lower_hex s = true.
(** A byte that is printable and no space. *)
Definition is_graphic (c : ascii) : bool := in_range 33 126 c.
(** A string [trim] leaves alone and which is not empty. *)
Definition trimmed (s : string) : Prop := trim s = s /\ is_empty s = false.

(** ** [trim] *)

Section strip.
Context (w2 : ascii -> ascii -> bool) (w3 : ascii -> ascii -> ascii -> bool).

(** No whitespace character at the front. *)
Definition no_front_ws (l : list ascii) : bool :=
  match l with
  | a :: l1 =>
      negb (ws1 a) &&
      match l1 with
      | b :: l2 => negb (w2 a b) && match l2 with c :: _ => negb (w3 a b c) | [] => true end
      | [] => true
      end
  | [] => true
  end.

Lemma strip_ws_front l : no_front_ws (strip_ws w2 w3 l) = true.
Proof.
  induction l as [l IH] using (induction_ltof1 _ length). unfold ltof in IH.
  destruct l as [|a [|b [|c l3]]]; simpl; [done|..];
    repeat case_match; try (apply IH; simpl; lia); simpl;
    repeat match goal with H : _ = false |- _ => rewrite H; clear H end; done.
Qed.

Lemma strip_ws_id l : no_front_ws l = true -> strip_ws w2 w3 l = l.
Proof.
  intros Hl. destruct l as [|a [|b [|c l3]]]; simpl in *; [done|..];
    repeat case_match; simpl in *; congruence.
Qed.

Lemma no_front_ws_prefix l k : no_front_ws (l ++ k) = true -> no_front_ws l = true.
Proof.
  destruct l as [|a [|b [|c l3]]]; simpl; rewrite ?andb_true_iff; naive_solver.
Qed.

(** [strip_ws] drops a prefix. *)
Lemma strip_ws_suffix l : strip_ws w2 w3 l `suffix_of` l.
Proof.
  induction l as [l IH] using (induction_ltof1 _ length). unfold ltof in IH.
  destruct l as [|a l1]; simpl; [done|].
  destruct (ws1 a); [apply suffix_cons_r, IH; simpl; lia|].
  destruct l1 as [|b l2]; [done|].
  destruct (w2 a b); [apply suffix_cons_r, suffix_cons_r, IH; simpl; lia|].
  destruct l2 as [|c l3]; [done|].
  destruct (w3 a b c); [|done].
  apply suffix_cons_r, suffix_cons_r, suffix_cons_r, IH; simpl; lia.
Qed.
End strip.

Lemma of_bytes_of s : of_bytes (bytes_of s) = s.
Proof. apply String.string_of_list_ascii_of_string. Qed.

Lemma length_bytes s : length (bytes_of s) = String.length s.
Proof. unfold bytes_of. induction s; simpl; congruence. Qed.

Lemma bytes_of_of l : bytes_of (of_bytes l) = l.
Proof. apply String.list_ascii_of_string_of_list_ascii. Qed.

Lemma trim_end_prefix l : exists k, l = trim_end_bytes l ++ k.
Proof.
  unfold trim_end_bytes. destruct (strip_ws_suffix (fun a b => ws2 b a) (fun a b c => ws3 c b a) (rev l))
    as [p Hp].
  exists (rev p). apply (f_equal (@rev _)) in Hp. by rewrite rev_involutive, rev_app_distr in Hp.
Qed.

(** Trimming twice is trimming once. *)
Lemma trim_idem s : trim (trim s) = trim s.
Proof.
  unfold trim. rewrite bytes_of_of. f_equal.
  set (l := trim_start_bytes (bytes_of s)).
  assert (trim_start_bytes (trim_end_bytes l) = trim_end_bytes l) as ->.
  { apply strip_ws_id. destruct (trim_end_prefix l) as [k Hk].
    apply (no_front_ws_prefix _ _ _ k). rewrite <- Hk. apply strip_ws_front. }
  unfold trim_end_bytes. rewrite rev_involutive. f_equal. apply strip_ws_id, strip_ws_front.
Qed.

(** ** Predicates on all bytes *)

Lemma sall_bytes p s : sall p s = forallb p (bytes_of s).
Proof. induction s as [|c s IH]; simpl; [done|by rewrite IH]. Qed.

Lemma sall_impl (p q : ascii -> bool) s :
  (forall c, p c = true -> q c = true) -> sall p s = true -> sall q s = true.
Proof.
  intros Hpq. induction s as [|c s IH]; simpl; [done|]. rewrite !andb_true_iff. naive_solver.
Qed.

Lemma sall_smap p f s : sall p (smap f s) = sall (fun c => p (f c)) s.
Proof. induction s as [|c s IH]; simpl; [done|by rewrite IH]. Qed.

Lemma sall_app p s t : sall p (s +:+ t) = sall p s && sall p t.
Proof. induction s as [|c s IH]; simpl; [done|by rewrite IH, andb_assoc]. Qed.

(** Facts about a single byte, checked on all 256 of them. *)
Lemma byte_forall (P : ascii -> bool) :
  forallb (fun n => P (Ascii.ascii_of_nat n)) (seq 0 256) = true -> forall c, P c = true.
Proof.
  intros H c. rewrite forallb_forall in H. specialize (H (Ascii.nat_of_ascii c)).
  rewrite Ascii.ascii_nat_embedding in H. apply H, in_seq.
  pose proof (Ascii.nat_ascii_bounded c). lia.
Qed.

Ltac byte_impl :=
  let c := fresh "c" in let H := fresh "H" in
  intros c H;
  match type of H with
  | ?p = true =>
    match goal with
    | |- ?q = true =>
      let P := eval pattern c in (implb p q) in
      match P with
      | ?f _ =>
        let K := fresh "K" in
        pose proof (byte_forall f ltac:(vm_compute; reflexivity) c) as K;
        cbv beta in K; rewrite H in K; exact K
      end
    end
  end.

Lemma is_empty_false s : is_empty s = false <-> s <> ""%string.
Proof. by destruct s. Qed.

Lemma hexdigit_graphic : forall c, is_ascii_hexdigit c = true -> is_graphic c = true.
Proof. byte_impl. Qed.

Lemma lower_hex_hexdigit : forall c, is_lower_hex c = true -> is_ascii_hexdigit c = true.
Proof. byte_impl. Qed.

Lemma hexdigit_lower : forall c, is_ascii_hexdigit c = true -> is_lower_hex (ascii_lower c) = true.
Proof. byte_impl. Qed.

Lemma graphic_not_ws : forall c, is_graphic c = true -> negb (ws1 c) && (byte_of c <? 128) = true.
Proof. byte_impl. Qed.

Lemma lower_hex_fixed c : is_lower_hex c = true -> ascii_lower c = c.
Proof.
  intros H. unfold ascii_lower. destruct (is_ascii_upper c) eqn:E; [|done].
  unfold is_lower_hex, is_ascii_digit, is_ascii_upper, in_range in *. lia.
Qed.

(** ** Case conversion *)

Lemma len_nonneg s : 0 <= len s.
Proof. unfold len. lia. Qed.

Lemma length_smap f s : String.length (smap f s) = String.length s.
Proof. induction s as [|c s IH]; simpl; [done|by rewrite IH]. Qed.

Lemma len_lower s : len (to_ascii_lowercase s) = len s.
Proof. unfold len, to_ascii_lowercase. by rewrite length_smap. Qed.

Lemma lower_hex_id s : sall is_lower_hex s = true -> to_ascii_lowercase s = s.
Proof.
  unfold to_ascii_lowercase. induction s as [|c s IH]; simpl; [done|].
  rewrite andb_true_iff. intros [Hc Hs]. by rewrite lower_hex_fixed, IH.
Qed.

Lemma hex_lower_norm s : sall is_ascii_hexdigit s = true ->
  sall is_lower_hex (to_ascii_lowercase s) = true.
Proof.
  intros Hs. unfold to_ascii_lowercase. rewrite sall_smap.
  eapply sall_impl; [|exact Hs]. apply hexdigit_lower.
Qed.

Lemma len_zero s : len s = 0 <-> s = EmptyString.
Proof. unfold len. destruct s; simpl; split; intros; [done..|lia|done]. Qed.

(** ** Strings [trim] leaves alone *)

Lemma graphic_no_front w2 w3 (l : list ascii) :
  (forall a b, byte_of a <? 128 = true -> byte_of b <? 128 = true -> w2 a b = false) ->
  (forall a b c, byte_of a <? 128 = true -> byte_of b <? 128 = true -> byte_of c <? 128 = true ->
     w3 a b c = false) ->
  forallb is_graphic l = true -> no_front_ws w2 w3 l = true.
Proof.
  intros H2 H3 Hl.
  destruct l as [|a [|b [|c l]]]; simpl in *; rewrite ?andb_true_iff in Hl; [done|..];
    destruct_and?;
    repeat match goal with H : is_graphic _ = true |- _ => apply graphic_not_ws in H end;
    rewrite ?andb_true_iff in *; destruct_and?; repeat split; try done;
    by rewrite ?H2, ?H3.
Qed.

Lemma trim_graphic s : sall is_graphic s = true -> trim s = s.
Proof.
  rewrite sall_bytes. intros Hs. unfold trim, trim_start_bytes, trim_end_bytes.
  assert (forall a b, byte_of a <? 128 = true -> ws2 a b = false) as A2
    by (unfold ws2; intros; lia).
  assert (forall a b c, byte_of a <? 128 = true -> ws3 a b c = false) as A3
    by (unfold ws3; intros; lia).
  rewrite (strip_ws_id ws2 ws3) by (apply graphic_no_front; auto).
  rewrite (strip_ws_id (fun a b => ws2 b a) (fun a b c => ws3 c b a)).
  { by rewrite rev_involutive, of_bytes_of. }
  apply graphic_no_front; auto.
  rewrite forallb_forall in *. intros c Hc. apply Hs. by apply in_rev.
Qed.

Lemma hex_norm_trim n s : hex_norm n s -> trim s = s.
Proof.
  intros [_ Hs]. apply trim_graphic. eapply sall_impl; [|exact Hs].
  intros c Hc. by apply hexdigit_graphic, lower_hex_hexdigit.
Qed.

Lemma trim_trimmed s : is_empty (trim s) = false -> trimmed (trim s).
Proof. split; [apply trim_idem|done]. Qed.

Lemma hex_norm_trimmed n s : 0 < n -> hex_norm n s -> trimmed s.
Proof.
  intros Hn Hs. split; [by eapply hex_norm_trim|].
  apply is_empty_false. intros ->. destruct Hs as [Hl _]. unfold len in Hl. simpl in Hl. lia.
Qed.

(** ** [hex::encode] *)

Lemma hex_digit_lower n : is_lower_hex (hex_digit n) = true.
Proof. destruct n as [|p]; [done|]. by do 4 (destruct p; try done). Qed.

Lemma hex_digit_inj n m : (n < 16)%N -> (m < 16)%N -> hex_digit n = hex_digit m -> n = m.
Proof.
  intros Hn Hm. assert (In n (map N.of_nat (seq 0 16)) /\ In m (map N.of_nat (seq 0 16))) as [A B].
  { split; apply in_map_iff; [exists (N.to_nat n)|exists (N.to_nat m)]; rewrite in_seq; lia. }
  simpl in A, B. intuition subst; done.
Qed.

Lemma hex_encode_lower s : sall is_lower_hex (hex_encode s) = true.
Proof. induction s as [|c s IH]; [done|]. cbn -[hex_digit is_lower_hex]. by rewrite !hex_digit_lower. Qed.

Lemma len_hex_encode s : len (hex_encode s) = 2 * len s.
Proof. unfold len. induction s as [|c s IH]; cbn -[hex_digit]; lia. Qed.

Lemma hex_encode_norm s : hex_norm (2 * len s) (hex_encode s).
Proof. split; [apply len_hex_encode|apply hex_encode_lower]. Qed.

#[global] Instance hex_encode_inj : Inj (=) (=) hex_encode.
Proof.
  intros s. induction s as [|c s IH]; intros [|d t]; cbn -[hex_digit N.div N.modulo];
    intros H; try done.
  injection H as H1 H2 H3. apply IH in H3 as ->. f_equal.
  pose proof (Ascii.N_ascii_bounded c). pose proof (Ascii.N_ascii_bounded d).
  apply hex_digit_inj in H1; [|apply N.Div0.div_lt_upper_bound; lia..].
  apply hex_digit_inj in H2; [|apply N.mod_lt; lia..].
  rewrite <- (Ascii.ascii_N_embedding c), <- (Ascii.ascii_N_embedding d). f_equal.
  rewrite (N.div_mod (Ascii.N_of_ascii c) 16), (N.div_mod (Ascii.N_of_ascii d) 16); lia.
Qed.

(** ** Decimal numbers and separators *)

Lemma pretty_go_digits x s :
  sall is_ascii_digit s = true -> sall is_ascii_digit (pretty_N_go x s) = true.
Proof.
  revert s. induction (N.lt_wf_0 x) as [x _ IH]; intros s Hs.
  assert (x = 0 \/ 0 < x)%N as [->|?] by lia; [by rewrite pretty_N_go_0|].
  rewrite pretty_N_go_step by done. apply IH; [by apply N.div_lt|].
  simpl. rewrite Hs, andb_true_r. unfold pretty_N_char. by repeat case_match.
Qed.

Lemma dec_digits n : sall is_ascii_digit (dec n) = true.
Proof.
  unfold dec, pretty, pretty_N. case_decide; [done|]. by apply pretty_go_digits.
Qed.

Lemma dec_inj n m : 0 <= n -> 0 <= m -> dec n = dec m -> n = m.
Proof. unfold dec. intros Hn Hm H%(inj pretty). lia. Qed.

(** The string holds no byte [c]. *)
Definition free_of (c : ascii) (s : string) : Prop :=
  sall (fun d => negb (Ascii.eqb d c)) s = true.

Lemma free_of_impl (p : ascii -> bool) c s :
  (forall d, p d = true -> negb (Ascii.eqb d c) = true) -> sall p s = true -> free_of c s.
Proof. intros H. by apply sall_impl. Qed.

Lemma sep_first c a b x y :
  free_of c a -> free_of c b -> a +:+ String c x = b +:+ String c y -> a = b /\ x = y.
Proof.
  unfold free_of. revert b. induction a as [|d a IH]; intros [|e b]; simpl;
    rewrite ?andb_true_iff; intros Ha Hb H; simplify_eq; destruct_and?;
    rewrite ?Ascii.eqb_refl in *; try done.
  destruct (IH b) as [-> ->]; done.
Qed.

Lemma app_fixed a b x y :
  len a = len b -> a +:+ x = b +:+ y -> a = b /\ x = y.
Proof.
  unfold len. revert b. induction a as [|d a IH]; intros [|e b]; simpl; intros Hl H;
    simplify_eq; try lia; try done.
  destruct (IH b) as [-> ->]; done || lia.
Qed.

Lemma sapp_cons c s t : String c s +:+ t = String c (s +:+ t).
Proof. reflexivity. Qed.

Lemma sapp_nil_r s : s +:+ EmptyString = s.
Proof. induction s as [|c s IH]; [done|]. by rewrite sapp_cons, IH. Qed.

Lemma sep_last c a b x y :
  free_of c x -> free_of c y -> a +:+ String c x = b +:+ String c y -> a = b /\ x = y.
Proof.
  unfold free_of. revert b. induction a as [|d a IH]; intros [|e b]; simpl; intros Hx Hy H;
    simplify_eq; [done|..].
  - exfalso. rewrite sall_app in Hx. simpl in Hx.
    rewrite Ascii.eqb_refl, andb_false_r in Hx. done.
  - exfalso. rewrite sall_app in Hy. simpl in Hy.
    rewrite Ascii.eqb_refl, andb_false_r in Hy. done.
  - destruct (IH b) as [-> ->]; done.
Qed.

(** The witness strings of the development: [n] times the byte [c]. *)
Fixpoint repeat_byte (c : ascii) (n : nat) : string :=
  match n with O => EmptyString | S n' => String c (repeat_byte c n') end.

(** ** The checks that recur in the crates *)

(** [let t = v.trim(); if t.len() != n || !t.bytes().all(hexdigit) { bail }
    t.to_ascii_lowercase()] *)
Definition hex_exact (n : Z) (value : string) : option string :=
  let trimmed := trim value in
  if negb (len trimmed =? n) || negb (sall is_ascii_hexdigit trimmed) then None
  else Some (to_ascii_lowercase trimmed).
(** [Some(v.trim()).filter(|v| !v.is_empty())] *)
Definition non_blank (value : string) : option string :=
  let trimmed := trim value in if is_empty trimmed then None else Some trimmed.

Lemma hex_exact_norm n v s : hex_exact n v = Some s -> hex_norm n s.
Proof.
  unfold hex_exact, hex_norm. intros H. destruct (Z.eqb_spec (len (trim v)) n); [|done].
  destruct (sall is_ascii_hexdigit (trim v)) eqn:E; simplify_eq/=.
  split; [apply len_lower|by apply hex_lower_norm].
Qed.

Lemma hex_exact_id n s : hex_norm n s -> hex_exact n s = Some s.
Proof.
  intros Hs. unfold hex_exact. rewrite (hex_norm_trim _ _ Hs). destruct Hs as [Hl Hs].
  rewrite Hl, Z.eqb_refl, lower_hex_id by done.
  rewrite (sall_impl _ is_ascii_hexdigit s lower_hex_hexdigit Hs). done.
Qed.

Lemma non_blank_trimmed v s : non_blank v = Some s -> trimmed s.
Proof.
  unfold non_blank. intros H. destruct (is_empty (trim v)) eqn:E; simplify_eq. by apply trim_trimmed.
Qed.

Lemma non_blank_id s : trimmed s -> non_blank s = Some s.
Proof. unfold non_blank. intros [-> ->]. done. Qed.

(** ** Lengths of printed numbers *)

Lemma len_app s t : len (s +:+ t) = len s + len t.
Proof.
  unfold len. induction s as [|c s IH]; [done|]. rewrite sapp_cons. simpl. lia.
Qed.

Lemma pretty_go_len k x s :
  (x < 10 ^ N.of_nat k)%N -> (String.length (pretty_N_go x s) <= k + String.length s)%nat.
Proof.
  revert x s. induction k as [|k IH]; intros x s Hx.
  { simpl in Hx. assert (x = 0)%N as -> by lia. by rewrite pretty_N_go_0. }
  destruct (N.eq_0_gt_0_cases x) as [->|Hp]; [rewrite pretty_N_go_0; lia|].
  rewrite pretty_N_go_step by done.
  assert (x `div` 10 < 10 ^ N.of_nat k)%N as Hd.
  { apply N.Div0.div_lt_upper_bound. replace (N.of_nat (S k)) with (N.succ (N.of_nat k)) in Hx by lia.
    by rewrite N.pow_succ_r' in Hx. }
  etrans; [by apply IH|]. simpl. lia.
Qed.

Lemma dec_len_u64 n : n <= U64_MAX -> len (dec n) <= 20.
Proof.
  intros Hn. unfold dec, len, pretty, pretty_N. case_decide; [done|].
  assert (Z.to_N n < 10 ^ N.of_nat 20)%N as Hlt.
  { change (10 ^ N.of_nat 20)%N with 100000000000000000000%N. unfold U64_MAX in Hn. lia. }
  pose proof (pretty_go_len 20 (Z.to_N n) EmptyString Hlt). simpl in *. lia.
Qed.

Lemma split_once_app c s t :
  free_of c s -> split_once c (s +:+ String c t) = Some (s, t).
Proof.
  unfold free_of. induction s as [|a s IH]; intros Hs.
  - simpl. by rewrite Ascii.eqb_refl.
  - rewrite sapp_cons. simpl in *. apply andb_true_iff in Hs as [Ha Hs].
    apply negb_true_iff in Ha. by rewrite Ha, IH.
Qed.

(** ** Prefixes *)

Lemma prefix_app p s : String.prefix p (p +:+ s) = true.
Proof. induction p as [|c p IH]; simpl; [by destruct s|]. by destruct (ascii_dec c c). Qed.

Lemma index_prefix p s : String.prefix p s = true -> String.index 0 p s = Some 0%nat.
Proof. intros Hp. destruct s as [|c s]; simpl in *; [by destruct p|]. by rewrite Hp. Qed.

Lemma contains_prefix p s : contains p (p +:+ s) = true.
Proof. unfold contains. by rewrite index_prefix by apply prefix_app. Qed.

Lemma smap_app f a b : smap f (a +:+ b) = smap f a +:+ smap f b.
Proof. induction a as [|c a IH]; [done|]. rewrite sapp_cons. simpl. by rewrite IH. Qed.

Lemma lowercase_app a b : to_ascii_lowercase (a +:+ b) = to_ascii_lowercase a +:+ to_ascii_lowercase b.
Proof. apply smap_app. Qed.

(** ** Numbers in decimal *)

(** [u64::try_from] and [checked_add]. *)
Definition u64_try_from (n : Z) : option Z := if U64_MAX <? n then None else Some n.
Definition checked_add_u64 (a b : Z) : option Z := u64_try_from (a + b).

(** [str::parse::<u64>]: decimal digits after an optional plus sign. *)
Definition parse_u64 (s : string) : option Z :=
  let digits := match bytes_of s with
                | c :: ((_ :: _) as l) => if byte_of c =? 43 then l else c :: l
                | l => l
                end in
  match digits with
  | [] => None
  | _ =>
      if forallb is_ascii_digit digits
      then u64_try_from (foldl (fun n c => n * 10 + (byte_of c - 48)) 0 digits)
      else None
  end.

Lemma u64_try_from_some n m : u64_try_from n = Some m <-> n = m /\ n <= U64_MAX.
Proof. unfold u64_try_from. destruct (Z.ltb_spec U64_MAX n); [naive_solver lia|naive_solver]. Qed.

Lemma foldl_digits_nonneg l n :
  0 <= n -> forallb is_ascii_digit l = true -> 0 <= foldl (fun n c => n * 10 + (byte_of c - 48)) n l.
Proof.
  revert n. induction l as [|c l IH]; intros n Hn H; simpl in *; [done|].
  apply andb_true_iff in H as [Hc Hl]. apply IH; [|done].
  unfold is_ascii_digit, in_range in Hc. lia.
Qed.

Lemma parse_u64_range s n : parse_u64 s = Some n -> is_u64 n.
Proof.
  unfold parse_u64. cbv zeta. set (ds := match bytes_of s with [] => _ | _ => _ end).
  destruct ds as [|c l]; [done|]. destruct (forallb is_ascii_digit (c :: l)) eqn:E; [|done].
  intros [<- H]%u64_try_from_some. split; [by apply foldl_digits_nonneg|done].
Qed.

(** ** Appended strings *)

Lemma length_sapp s t : String.length (s +:+ t) = (String.length s + String.length t)%nat.
Proof. pose proof (len_app s t). unfold len in *. lia. Qed.
Lemma bytes_app s t : bytes_of (s +:+ t) = bytes_of s ++ bytes_of t.
Proof. induction s as [|c s IH]; [done|]. rewrite sapp_cons. cbn [bytes_of String.list_ascii_of_string app]. f_equal. exact IH. Qed.
Lemma of_bytes_app l k : of_bytes (l ++ k) = of_bytes l +:+ of_bytes k.
Proof. induction l as [|c l IH]; [done|]. cbn. rewrite sapp_cons. f_equal. exact IH. Qed.
Lemma ends_with_app s suffix : ends_with suffix (s +:+ suffix) = true.
Proof. unfold ends_with. rewrite bytes_app, rev_app_distr, of_bytes_app. apply prefix_app. Qed.
Lemma substring_all s : String.substring 0 (String.length s) s = s.
Proof. induction s as [|c s IH]; [done|]. cbn. by rewrite IH. Qed.
Lemma strip_prefix_app p s : strip_prefix p (p +:+ s) = Some s.
Proof.
  unfold strip_prefix. rewrite prefix_app, length_sapp, Nat.add_comm, Nat.add_sub. f_equal.
  induction p as [|c p IH]; [apply substring_all|]. rewrite sapp_cons. cbn. exact IH.
Qed.
Lemma prefix_split p : forall s, String.prefix p s = true -> exists m, s = p +:+ m.
Proof.
  induction p as [|c p IH]; intros s H; [by exists s|]. destruct s as [|d s]; [done|]. cbn in H.
  destruct (Ascii.ascii_dec c d) as [->|]; [|done]. destruct (IH s H) as [m ->]. exists m. by rewrite sapp_cons.
Qed.
Lemma ends_split suffix s : ends_with suffix s = true -> exists m, s = m +:+ suffix.
Proof.
  unfold ends_with. intros H. apply prefix_split in H as [m Hm]. apply (f_equal bytes_of) in Hm. rewrite bytes_app, !bytes_of_of in Hm.
  apply (f_equal (@rev _)) in Hm. rewrite rev_app_distr, !rev_involutive in Hm. exists (of_bytes (rev (bytes_of m))).
  by rewrite <- (of_bytes_of s), Hm, of_bytes_app, of_bytes_of.
Qed.
