(* ===== verification/Bytes.v ===== *)
(** * Byte strings

    Integers as bytes in both orders, slices, and exclusive or; shared by the
    hashes, the packets, the frames and the vault files. *)

From S2P Require Import Prelude RustString.

(** ** Integers *)

Definition le_byte (n k : Z) : ascii := Ascii.ascii_of_N (Z.to_N (n / 256 ^ k mod 256)).
(** [to_le_bytes] of an integer of [width] bytes. *)
Fixpoint le_bytes_from (width : nat) (k n : Z) : string :=
  match width with O => EmptyString | S w => String (le_byte n k) (le_bytes_from w (k + 1) n) end.
Definition u32_le (n : Z) : string := le_bytes_from 4 0 n.
Definition u64_le (n : Z) : string := le_bytes_from 8 0 n.
(** [from_le_bytes] *)
Fixpoint le_value (s : string) : Z :=
  match s with EmptyString => 0 | String c s' => byte_of c + 256 * le_value s' end.

Definition srev (s : string) : string := of_bytes (rev (bytes_of s)).
(** [to_be_bytes], [from_be_bytes] *)
Definition u32_be (n : Z) : string := srev (u32_le n).
Definition u64_be (n : Z) : string := srev (u64_le n).
Definition be_value (s : string) : Z := le_value (srev s).

(** ** Slices *)

(** The first [n] bytes and the rest, [&s[..n]] and [&s[n..]]. *)
Fixpoint stake (n : nat) (s : string) : string :=
  match n, s with S n', String c s' => String c (stake n' s') | _, _ => EmptyString end.
Fixpoint sdrop (n : nat) (s : string) : string :=
  match n, s with S n', String _ s' => sdrop n' s' | _, _ => s end.
(** [&s[i..j]] *)
Definition slice (i j : nat) (s : string) : string := stake (j - i) (sdrop i s).

(** ** Exclusive or *)

Definition xor_byte (a b : ascii) : ascii := Ascii.ascii_of_N (N.lxor (Ascii.N_of_ascii a) (Ascii.N_of_ascii b)).
(** In place, over the length of the first. *)
Fixpoint xor_bytes (a b : string) : string :=
  match a, b with
  | String x a', String y b' => String (xor_byte x y) (xor_bytes a' b')
  | _, _ => a
  end.

(** ** Lemmas *)

Lemma sapp_assoc s t u : (s +:+ t) +:+ u = s +:+ (t +:+ u).
Proof. induction s as [|c s IH]; [done|]. by rewrite !sapp_cons, IH. Qed.

Lemma byte_of_le n k : byte_of (le_byte n k) = n / 256 ^ k mod 256.
Proof.
  unfold byte_of, le_byte. assert (0 <= n / 256 ^ k mod 256 < 256) by (apply Z.mod_pos_bound; lia).
  rewrite Ascii.N_ascii_embedding by lia. lia.
Qed.

Lemma le_value_bytes w : forall k n, 0 <= k -> le_value (le_bytes_from w k n) = n / 256 ^ k mod 256 ^ Z.of_nat w.
Proof.
  induction w as [|w IH]; intros k n Hk.
  - simpl. by rewrite Z.mod_1_r.
  - cbn [le_bytes_from le_value]. rewrite byte_of_le, (IH (k + 1)) by lia.
    rewrite Nat2Z.inj_succ, Z.pow_succ_r, Z.pow_add_r, <- Z.div_div by (lia || apply Z.pow_nonzero; lia).
    change (256 ^ 1) with 256.
    rewrite Z.rem_mul_r by (lia || apply Z.pow_nonzero; lia). lia.
Qed.

Lemma length_le_bytes w : forall k n, String.length (le_bytes_from w k n) = w.
Proof. induction w as [|w IH]; intros k n; [done|]. cbn [le_bytes_from String.length]. by rewrite IH. Qed.
Lemma len_le_bytes w k n : len (le_bytes_from w k n) = Z.of_nat w.
Proof. unfold len. by rewrite length_le_bytes. Qed.

Lemma le_value_le w n : 0 <= n < 256 ^ Z.of_nat w -> le_value (le_bytes_from w 0 n) = n.
Proof. intros Hn. rewrite le_value_bytes, Z.div_1_r, Z.mod_small by lia. done. Qed.

Lemma le_bytes_inj w n m :
  0 <= n < 256 ^ Z.of_nat w -> 0 <= m < 256 ^ Z.of_nat w -> le_bytes_from w 0 n = le_bytes_from w 0 m -> n = m.
Proof. intros Hn Hm H%(f_equal le_value). by rewrite !le_value_le in H. Qed.

Lemma le_value_bound s : 0 <= le_value s < 256 ^ len s.
Proof.
  induction s as [|c s IH]; [done|]. cbn [le_value]. change (len (String c s)) with (Z.of_nat (S (String.length s))).
  unfold len in IH. rewrite Nat2Z.inj_succ, Z.pow_succ_r by lia.
  assert (0 <= byte_of c < 256) by (unfold byte_of; pose proof (Ascii.N_ascii_bounded c); lia). nia.
Qed.

(** What was read is what these bytes encode. *)
Lemma le_bytes_value s : forall k n, 0 <= k -> 0 <= n -> n / 256 ^ k mod 256 ^ len s = le_value s ->
  le_bytes_from (String.length s) k n = s.
Proof.
  induction s as [|c s IH]; intros k n Hk Hn H; [done|]. cbn [String.length le_bytes_from].
  cbn [le_value] in H. change (len (String c s)) with (Z.of_nat (S (String.length s))) in H.
  assert (Hb : 0 <= byte_of c < 256) by (unfold byte_of; pose proof (Ascii.N_ascii_bounded c); lia).
  pose proof (le_value_bound s) as Hs. unfold len in Hs.
  rewrite Nat2Z.inj_succ, Z.pow_succ_r, Z.rem_mul_r in H by (lia || apply Z.pow_nonzero; lia).
  assert (0 <= n / 256 ^ k mod 256 < 256) by (apply Z.mod_pos_bound; lia).
  assert (E : n / 256 ^ k mod 256 = byte_of c /\ n / 256 ^ k / 256 mod 256 ^ Z.of_nat (String.length s) = le_value s) by lia.
  destruct E as [E1 E2]. f_equal.
  - unfold le_byte. rewrite E1. unfold byte_of. rewrite N2Z.id. apply Ascii.ascii_N_embedding.
  - apply IH; [lia|done|]. rewrite Z.pow_add_r, <- Z.div_div by (lia || apply Z.pow_nonzero; lia). exact E2.
Qed.

Lemma le_of_value w s : len s = Z.of_nat w -> le_bytes_from w 0 (le_value s) = s.
Proof.
  intros H. assert (w = String.length s) as -> by (unfold len in H; lia). pose proof (le_value_bound s).
  apply le_bytes_value; [lia|lia|]. by rewrite Z.div_1_r, Z.mod_small.
Qed.

Lemma srev_srev s : srev (srev s) = s.
Proof. unfold srev. by rewrite bytes_of_of, rev_involutive, of_bytes_of. Qed.
Lemma len_srev s : len (srev s) = len s.
Proof. unfold srev, len. rewrite <- !length_bytes, bytes_of_of, length_rev. done. Qed.
Lemma be_value_u32 n : 0 <= n < 2 ^ 32 -> be_value (u32_be n) = n.
Proof. intros Hn. unfold be_value, u32_be. rewrite srev_srev. by apply (le_value_le 4). Qed.
Lemma be_value_u64 n : 0 <= n < 2 ^ 64 -> be_value (u64_be n) = n.
Proof. intros Hn. unfold be_value, u64_be. rewrite srev_srev. by apply (le_value_le 8). Qed.
Lemma len_u32_be n : len (u32_be n) = 4.
Proof. unfold u32_be. rewrite len_srev. apply len_le_bytes. Qed.
Lemma len_u64_be n : len (u64_be n) = 8.
Proof. unfold u64_be. rewrite len_srev. apply len_le_bytes. Qed.

Lemma stake_app n s t : String.length s = n -> stake n (s +:+ t) = s.
Proof.
  revert n. induction s as [|c s IH]; intros n <-; [by destruct t|].
  rewrite sapp_cons. cbn [String.length stake]. by rewrite IH.
Qed.
Lemma sdrop_app n s t : String.length s = n -> sdrop n (s +:+ t) = t.
Proof.
  revert n. induction s as [|c s IH]; intros n <-; [by destruct t|].
  rewrite sapp_cons. cbn [String.length sdrop]. by rewrite IH.
Qed.
Lemma stake_sdrop n : forall s, stake n s +:+ sdrop n s = s.
Proof.
  induction n as [|n IH]; intros [|c s]; [done..|]. cbn [stake sdrop]. by rewrite sapp_cons, IH.
Qed.
Lemma length_stake n : forall s, String.length (stake n s) = (n `min` String.length s)%nat.
Proof. induction n as [|n IH]; intros [|c s]; [done..|]. cbn [stake String.length]. by rewrite IH. Qed.
Lemma length_sdrop n : forall s, String.length (sdrop n s) = (String.length s - n)%nat.
Proof. induction n as [|n IH]; intros [|c s]; [done..|]. cbn [sdrop String.length]. by rewrite IH. Qed.
Lemma sdrop_sdrop n : forall m s, sdrop n (sdrop m s) = sdrop (m + n) s.
Proof.
  intros m. induction m as [|m IH]; intros s; [done|]. destruct s as [|c s]; [by destruct n|]. apply IH.
Qed.
Lemma len_length s n : len s = Z.of_nat n <-> String.length s = n.
Proof. unfold len. lia. Qed.

Lemma xor_byte_involutive a b : xor_byte (xor_byte a b) b = a.
Proof.
  unfold xor_byte. pose proof (Ascii.N_ascii_bounded a). pose proof (Ascii.N_ascii_bounded b).
  rewrite Ascii.N_ascii_embedding.
  - by rewrite N.lxor_assoc, N.lxor_nilpotent, N.lxor_0_r, Ascii.ascii_N_embedding.
  - set (x := Ascii.N_of_ascii a) in *. set (y := Ascii.N_of_ascii b) in *.
    destruct (decide (N.lxor x y = 0%N)) as [->|Hn]; [done|].
    apply N.log2_lt_pow2 with (b := 8%N); [lia|].
    eapply N.le_lt_trans; [apply N.log2_lxor|].
    apply N.max_lub_lt; [destruct (decide (x = 0%N)) as [->|]|destruct (decide (y = 0%N)) as [->|]]; try done;
      apply N.log2_lt_pow2; lia.
Qed.

Lemma xor_bytes_involutive a : forall b, xor_bytes (xor_bytes a b) b = a.
Proof.
  induction a as [|x a IH]; intros [|y b]; [done..|]. cbn [xor_bytes]. by rewrite xor_byte_involutive, IH.
Qed.
Lemma length_xor_bytes a : forall b, String.length (xor_bytes a b) = String.length a.
Proof. induction a as [|x a IH]; intros [|y b]; [done..|]. cbn [xor_bytes String.length]. by rewrite IH. Qed.
Lemma xor_bytes_app a b x y : String.length a = String.length x -> xor_bytes (a +:+ b) (x +:+ y) = xor_bytes a x +:+ xor_bytes b y.
Proof.
  revert x. induction a as [|c a IH]; intros [|d x] H; [done..|]. rewrite !sapp_cons. cbn [xor_bytes].
  rewrite sapp_cons, IH; [done|]. by injection H.
Qed.

(** * A file system

    Files with a mode and contents by path; every operation may fail, and a
    write that fails leaves a part of its data.  Directories are not files here:
    creating one and setting its mode either succeed or fail. *)

Record file : Type := File { f_regular : bool; f_mode : Z; f_bytes : string }.
Notation fs := (gmap string file).
Inductive io_op : Type := IoMkdir | IoWrite | IoChmod | IoRename | IoOpen | IoCreate | IoSync | IoRemove.

(** The error of a failed operation on a path. *)
Class IoError (E : Type) : Type := io_error : string -> E.

(** ** Paths *)

(** [Path::parent] is [None] for the empty path and for the root. *)
Definition has_parent (path : string) : bool := negb (sall (fun c => byte_of c =? 47) path).

(** The parent is there and not the empty path. *)
Definition has_dir (path : string) : bool := has_parent path && negb (sall (fun c => negb (byte_of c =? 47)) path).

(** The part up to and including the last [c], and the rest. *)
Fixpoint split_last (c : ascii) (l : list ascii) : list ascii * list ascii :=
  match l with
  | [] => ([], [])
  | a :: l' =>
      let '(front, back) := split_last c l' in
      match front with
      | [] => if (a =? c)%char then ([a], back) else ([], a :: back)
      | _ => (a :: front, back)
      end
  end.
(** [with_extension], for a path that does not end in a slash: the extension of
    the last component is replaced; a leading dot starts no extension, and [..]
    has none to replace. *)
Definition with_extension (ext path : string) : string :=
  let '(dir, name) := split_last "/" (bytes_of path) in
  let '(front, old) := split_last "." name in
  let stem := match rev front with [] | [_] => name | _ :: s => rev s end in
  if bool_decide (of_bytes name = "..") then path else of_bytes (dir ++ stem) +:+ "." +:+ ext.
Definition tmp_path : string -> string := with_extension "tmp".

Example tmp_paths : map tmp_path ["/run/nxms/peers.json"; "conf.d/peers"; ".hidden"; "a/.x.pem"]
  = ["/run/nxms/peers.tmp"; "conf.d/peers.tmp"; ".hidden.tmp"; "a/.x.tmp"]%string.
Proof. vm_compute. reflexivity. Qed.

(** ** Operations *)

Section operations.
(** Which operations succeed, what a failed write leaves, the mode of a new file. *)
Context {E : Type} `{!IoError E} (io : io_op -> string -> bool) (partial : string -> string) (umask_mode : Z).

Definition must (op : io_op) (path : string) : M fs E unit := slift (fail_if (negb (io op path)) (io_error path)).
(** [std::fs::write] truncates and then writes. *)
Definition fs_write (path value : string) : M fs E unit :=
  let* old := sget (fun f => f !! path) in
  let mode := match old with Some o => f_mode o | None => umask_mode end in
  if io IoWrite path then smodify (<[path := File true mode value]>)
  else let* _ := smodify (<[path := File true mode (partial value)]>) in sfail (io_error path).
Definition fs_chmod (path : string) (mode : Z) : M fs E unit :=
  let* _ := must IoChmod path in
  smodify (alter (fun f => File (f_regular f) mode (f_bytes f)) path).
Definition fs_rename (from to : string) : M fs E unit :=
  let* _ := must IoRename to in
  smodify (fun f => match f !! from with Some x => <[to := x]> (delete from f) | None => f end).
Definition fs_read (path : string) : M fs E file :=
  let* found := sget (fun f => f !! path) in
  let* _ := must IoOpen path in
  slift (ok_or found (io_error path)).
(** [Path::exists] *)
Definition fs_exists (path : string) : M fs E bool := sget (fun f => bool_decide (is_Some (f !! path))).

(** Reading does not write. *)
Lemma fs_read_run path f : exists r, fs_read path f = (f, r).
Proof. unfold fs_read, must, sbind, sget, slift, fail_if. destruct (io IoOpen path); by eexists. Qed.
End operations.
