(* ===== verification/Packet.v ===== *)
(** * Packets of the transport

    [crates/nxms-transport/native/nxms_ms_transport.c] with [ff_shake256_kdf] of
    [pqc_falcon.c]: a packet is a KEM ciphertext, a nonce, the payload under a
    SHAKE-256 key stream, a keyed tag and a Falcon signature over all of it.
    SHAKE-256, FrodoKEM and Falcon are parameters; so is whether [malloc] and the
    system's random source succeed.  A result of [None] is the return code -1,
    with every output reset.  This file has the values the functions compute; the
    blocks they allocate, write and free on every path are in [TransportCrypto].
    The sums of lengths [add_sz] guards are over lengths
    that were bounded before and cannot overflow. *)

From S2P Require Import Prelude RustString Bytes.

Definition NXMS_KEM_ID : string := "FrodoKEM-640-SHAKE".
Definition NXMS_SIG_ID : string := "Falcon-1024-CT".
Definition NXMS_ESCROW_ID_LEN : nat := 16.
Definition NXMS_NONCE_LEN : Z := 24.
Definition NXMS_TAG_LEN : nat := 32.
Definition NXMS_MAX_PAYLOAD : Z := 16 * 1024 * 1024.
Definition NXMS_MAX_ID_LEN : nat := 128.
Definition NXMS_MIN_KEM_BYTES : Z := 64.
Definition NXMS_MAX_KEM_PK_LEN : Z := 32768.
Definition NXMS_MAX_KEM_CT_LEN : Z := 32768.
Definition NXMS_MAX_KEM_SK_LEN : Z := 65536.
Definition NXMS_MAX_SIG_SK_LEN : Z := 65536.
Definition NXMS_MAX_SIG_PK_LEN : Z := 65536.
Definition FF_FALCON_SIG_MAX : Z := 4096.

Definition AAD_PREFIX : string := "NXMS-AAD-v1".
Definition SIG_PREFIX : string := "NXMS-SIG-v1".
Definition CTHASH_PREFIX : string := "NXMS-CTHASH-v1".
Definition KDF_PREFIX : string := "NXMS-KDF-v1".
Definition TAG_PREFIX : string := "NXMS-TAG-v1".

Record Packet : Type := MkPacket {
  pk_kem_ct : string; pk_nonce : string; pk_ciphertext : string; pk_tag : string; pk_sig : string }.

(** What a packet is addressed by. *)
Record PacketContext : Type := MkContext {
  px_sender : string; px_to : string; px_msg_type : string; px_escrow : string; px_seq : Z }.

(** Where memory is allocated. *)
Inductive site : Type := SDerive | SNonce | SCtext | SAad | STag | SSigMsg | SSig | SPlain.

(** What the random sources gave; the system source gives the 24 bytes of a nonce
    or fails. *)
Record Coins : Type := MkCoins { co_kem : string; co_nonce : option string; co_sig : string }.

Definition need (b : bool) : option unit := if b then Some tt else None.
Notation "'let!' x := m 'in' k" := (match m with Some x => k | None => None end)
  (at level 200, x pattern, right associativity).

Definition nul : ascii := Ascii.ascii_of_N 0.

(** The length up to a NUL, at most [max]. *)
Fixpoint nxms_strnlen (s : string) (max : nat) : nat :=
  match max, s with
  | S m, String c s' => if (c =? nul)%char then O else S (nxms_strnlen s' m)
  | _, _ => O
  end.
(** The part of a name that is copied. *)
Definition cname (s : string) : string := stake (nxms_strnlen s (S NXMS_MAX_ID_LEN)) s.
Definition name_ok (s : string) : bool :=
  let n := nxms_strnlen s (S NXMS_MAX_ID_LEN) in negb (n =? 0)%nat && (n <=? NXMS_MAX_ID_LEN)%nat.
Definition names_ok (x : PacketContext) : bool := name_ok (px_sender x) && name_ok (px_to x) && name_ok (px_msg_type x).
Definition between (lo hi n : Z) : bool := (lo <=? n) && (n <=? hi).

Section packet.
(** The bytes SHAKE-256 gives after absorbing a string. *)
Context (shake : string -> nat -> ascii).
Context (kem_encaps : string -> string -> option (string * string)) (kem_decaps : string -> string -> option string).
Context (falcon_sign : string -> string -> string -> option string) (falcon_verify : string -> string -> string -> bool).

(** [n] bytes of the output from position [off] on. *)
Fixpoint extract (seed : string) (off n : nat) : string :=
  match n with O => EmptyString | S n' => String (shake seed off) (extract seed (S off) n') end.

(** One block after the other, as the loop over [block[4096]]. *)
Fixpoint xor_blocks (fuel : nat) (seed : string) (off : nat) (buf : string) : string :=
  match fuel with
  | O => buf
  | S fuel' =>
      match buf with
      | EmptyString => EmptyString
      | _ =>
          let n := Nat.min (String.length buf) 4096 in
          xor_bytes (stake n buf) (extract seed off n) +:+ xor_blocks fuel' seed (off + n) (sdrop n buf)
      end
  end.
Definition xor_shake_keystream (buf ke nonce : string) : string :=
  xor_blocks (String.length buf) (ke +:+ nonce) 0 buf.

Definition shake_hash32 (ct : string) : string := extract (CTHASH_PREFIX +:+ ct) 0 32.
Definition ff_shake256_kdf (input ctx : string) : string := extract (ctx +:+ input) 0 32.

Definition aad_bytes (x : PacketContext) (ct : string) : string :=
  AAD_PREFIX +:+ String nul (cname (px_sender x) +:+ String nul (cname (px_to x) +:+ String nul (NXMS_KEM_ID +:+
    String nul (NXMS_SIG_ID +:+ String nul (cname (px_msg_type x) +:+ String nul (px_escrow x +:+
    String nul (u64_be (px_seq x) +:+ String nul (shake_hash32 ct)))))))).
Definition build_aad (malloc : site -> bool) (x : PacketContext) (ct : string) : option string :=
  let! _ := need (between NXMS_MIN_KEM_BYTES NXMS_MAX_KEM_CT_LEN (len ct)) in
  let! _ := need (names_ok x) in
  let! _ := need (malloc SAad) in
  Some (aad_bytes x ct).

Definition derive_keys (malloc : site -> bool) (ss escrow : string) : option (string * string) :=
  let! _ := need (negb (is_empty ss)) in
  let! _ := need (malloc SDerive) in
  Some (ff_shake256_kdf (ss +:+ escrow +:+ "ms-ke") KDF_PREFIX, ff_shake256_kdf (ss +:+ escrow +:+ "ms-km") KDF_PREFIX).

Definition compute_tag (km aad nonce ciphertext : string) : option string :=
  let! _ := need (len nonce =? NXMS_NONCE_LEN) in
  Some (extract (TAG_PREFIX +:+ km +:+ String nul (aad +:+ String nul (nonce +:+ String nul ciphertext))) 0 NXMS_TAG_LEN).

Definition sig_bytes (aad nonce ciphertext tag : string) : string :=
  SIG_PREFIX +:+ String nul (aad +:+ String nul (nonce +:+ String nul (ciphertext +:+ String nul tag))).
Definition build_sig_message (malloc : site -> bool) (aad nonce ciphertext tag : string) : option string :=
  let! _ := need (len nonce =? NXMS_NONCE_LEN) in
  let! _ := need (malloc SSigMsg) in
  Some (sig_bytes aad nonce ciphertext tag).

Definition nxms_ms_encrypt_packet (malloc : site -> bool) (coins : Coins) (x : PacketContext)
    (recipient_pk_kem sender_sk_sig plaintext : string) : option Packet :=
  let! _ := need (negb (px_seq x =? 0)) in
  let! _ := need (len plaintext <=? NXMS_MAX_PAYLOAD) in
  let! _ := need (between NXMS_MIN_KEM_BYTES NXMS_MAX_KEM_PK_LEN (len recipient_pk_kem)) in
  let! _ := need (between 1 NXMS_MAX_SIG_SK_LEN (len sender_sk_sig)) in
  let! _ := need (names_ok x) in
  let! (ct, ss) := kem_encaps recipient_pk_kem (co_kem coins) in
  let! _ := need (between NXMS_MIN_KEM_BYTES NXMS_MAX_KEM_CT_LEN (len ct)) in
  let! _ := need (negb (is_empty ss)) in
  let! (ke, km) := derive_keys malloc ss (px_escrow x) in
  let! _ := need (malloc SNonce) in
  let! nonce := co_nonce coins in
  let! _ := need (malloc SCtext) in
  let ciphertext := xor_shake_keystream plaintext ke nonce in
  let! aad := build_aad malloc x ct in
  let! tag := compute_tag km aad nonce ciphertext in
  let! _ := need (malloc STag) in
  let! sig_msg := build_sig_message malloc aad nonce ciphertext tag in
  let! _ := need (malloc SSig) in
  let! sig := falcon_sign sender_sk_sig sig_msg (co_sig coins) in
  let! _ := need (len sig <=? FF_FALCON_SIG_MAX) in
  Some (MkPacket ct nonce ciphertext tag sig).

Definition nxms_ms_verify_decrypt (malloc : site -> bool) (x : PacketContext) (p : Packet)
    (recipient_sk_kem sender_pk_sig : string) : option string :=
  let! _ := need (negb (px_seq x =? 0)) in
  let! _ := need (len (pk_nonce p) =? NXMS_NONCE_LEN) in
  let! _ := need (len (pk_tag p) =? Z.of_nat NXMS_TAG_LEN) in
  let! _ := need (len (pk_ciphertext p) <=? NXMS_MAX_PAYLOAD) in
  let! _ := need (between NXMS_MIN_KEM_BYTES NXMS_MAX_KEM_CT_LEN (len (pk_kem_ct p))) in
  let! _ := need (between 1 FF_FALCON_SIG_MAX (len (pk_sig p))) in
  let! _ := need (between NXMS_MIN_KEM_BYTES NXMS_MAX_KEM_SK_LEN (len recipient_sk_kem)) in
  let! _ := need (between 1 NXMS_MAX_SIG_PK_LEN (len sender_pk_sig)) in
  let! _ := need (names_ok x) in
  let! ss := kem_decaps recipient_sk_kem (pk_kem_ct p) in
  let! _ := need (negb (is_empty ss)) in
  let! (ke, km) := derive_keys malloc ss (px_escrow x) in
  let! aad := build_aad malloc x (pk_kem_ct p) in
  let! tag_exp := compute_tag km aad (pk_nonce p) (pk_ciphertext p) in
  let! _ := need (tag_exp =? pk_tag p)%string in
  let! sig_msg := build_sig_message malloc aad (pk_nonce p) (pk_ciphertext p) (pk_tag p) in
  let! _ := need (falcon_verify sender_pk_sig sig_msg (pk_sig p)) in
  let! _ := need (malloc SPlain) in
  Some (xor_shake_keystream (pk_ciphertext p) ke (pk_nonce p)).
End packet.
