(* ===== verification/PacketProps.v ===== *)
(** * Properties of packets

    The key stream applied block by block is the key stream applied at once; the
    signed bytes of a packet determine its context; a packet opens to what was
    sealed, and only what the sender sealed under this context opens. *)

From S2P Require Import Prelude RustString Bytes Packet.

Lemma need_some b u : need b = Some u -> b = true.
Proof. by destruct b. Qed.

(** Take the next step of a computation that came to an end. *)
Ltac step H :=
  match type of H with
  | match ?m with Some _ => _ | None => None end = Some _ =>
      let E := fresh "E" in destruct m as [?|] eqn:E; [|discriminate H];
      try (apply need_some in E);
      repeat match goal with q : (_ * _)%type |- _ => destruct q end
  end.
Ltac steps H := repeat step H.

Section stream.
Context (shake : string -> nat -> ascii).

Lemma length_extract seed n : forall off, String.length (extract shake seed off n) = n.
Proof. induction n as [|n IH]; intros off; [done|]. cbn [extract String.length]. by rewrite IH. Qed.

Lemma extract_app seed n m : forall off, extract shake seed off (n + m) = extract shake seed off n +:+ extract shake seed (off + n) m.
Proof.
  induction n as [|n IH]; intros off.
  - by rewrite Nat.add_0_r.
  - cbn [Nat.add extract]. rewrite sapp_cons, IH. do 3 f_equal. lia.
Qed.

Lemma xor_blocks_exact seed fuel : forall off buf, (String.length buf <= fuel)%nat ->
  xor_blocks shake fuel seed off buf = xor_bytes buf (extract shake seed off (String.length buf)).
Proof.
  induction fuel as [|fuel IH]; intros off buf Hf.
  - destruct buf; [done|]. cbn in Hf. lia.
  - destruct buf as [|c buf]; [done|]. set (b := String c buf) in *. cbn [xor_blocks]. unfold b at 1.
    set (n := Nat.min (String.length b) 4096).
    assert (Hn : (0 < n <= String.length b)%nat) by (subst n b; cbn [String.length]; lia).
    rewrite IH by (rewrite length_sdrop; lia).
    rewrite length_sdrop. rewrite <- (stake_sdrop n b) at 4.
    replace (String.length b) with (n + (String.length b - n))%nat at 2 by lia.
    rewrite extract_app, xor_bytes_app; [done|].
    rewrite length_stake, length_extract. lia.
Qed.

(** The key stream applied in blocks of 4096 bytes is the whole key stream. *)
Lemma keystream_exact buf ke nonce :
  xor_shake_keystream shake buf ke nonce = xor_bytes buf (extract shake (ke +:+ nonce) 0 (String.length buf)).
Proof. by apply xor_blocks_exact. Qed.

Lemma length_keystream buf ke nonce : String.length (xor_shake_keystream shake buf ke nonce) = String.length buf.
Proof. rewrite keystream_exact. apply length_xor_bytes. Qed.
Lemma len_keystream buf ke nonce : len (xor_shake_keystream shake buf ke nonce) = len buf.
Proof. unfold len. by rewrite length_keystream. Qed.

Lemma keystream_twice buf ke nonce :
  xor_shake_keystream shake (xor_shake_keystream shake buf ke nonce) ke nonce = buf.
Proof. rewrite (keystream_exact (xor_shake_keystream _ _ _ _)), length_keystream, keystream_exact. apply xor_bytes_involutive. Qed.
End stream.

(** ** The signed bytes *)

Lemma scons_inj c s t : String c s = String c t -> s = t.
Proof. by intros [= ->]. Qed.

Definition nul_free (s : string) : Prop := free_of nul s.

Lemma strnlen_free s : forall n, nul_free (stake (nxms_strnlen s n) s).
Proof.
  unfold nul_free, free_of. induction s as [|c s IH]; intros [|n]; [done..|]. cbn [nxms_strnlen].
  destruct (c =? nul)%char eqn:E; [done|]. cbn [stake sall]. rewrite E. apply IH.
Qed.
Lemma cname_free s : nul_free (cname s).
Proof. apply strnlen_free. Qed.

(** A name without NUL of a legal length is copied as it is. *)
Lemma strnlen_full s : forall n, nul_free s -> (nxms_strnlen s (S n) <= n)%nat -> nxms_strnlen s (S n) = String.length s.
Proof.
  unfold nul_free, free_of. induction s as [|c s IH]; intros n Hf Hn; [done|].
  cbn [sall] in Hf. apply andb_true_iff in Hf as [Hc Hf]. apply negb_true_iff in Hc.
  cbn [nxms_strnlen] in *. rewrite Hc in *. destruct n as [|n]; [lia|]. cbn [String.length]. f_equal. apply IH; [done|]. lia.
Qed.
Lemma stake_all s n : String.length s = n -> stake n s = s.
Proof. intros H. rewrite <- (sapp_nil_r s) at 1. by apply stake_app. Qed.
Lemma cname_id s : nul_free s -> name_ok s = true -> cname s = s.
Proof.
  intros Hf Hok. apply andb_true_iff in Hok as [_ Hok]. apply Nat.leb_le in Hok. unfold cname.
  apply stake_all. symmetry. by apply strnlen_full.
Qed.

Definition context_ok (x : PacketContext) : Prop :=
  nul_free (px_sender x) /\ nul_free (px_to x) /\ nul_free (px_msg_type x) /\ len (px_escrow x) = 16 /\ 0 <= px_seq x < 2 ^ 64.

Section bound.
Context (shake : string -> nat -> ascii).

Lemma len_extract seed off n : len (extract shake seed off n) = Z.of_nat n.
Proof. unfold len. by rewrite length_extract. Qed.

Lemma aad_inj x y c d e f :
  context_ok x -> context_ok y -> names_ok x = true -> names_ok y = true ->
  aad_bytes shake x c +:+ e = aad_bytes shake y d +:+ f -> x = y /\ shake_hash32 shake c = shake_hash32 shake d /\ e = f.
Proof.
  intros (Hx1 & Hx2 & Hx3 & Hx4 & Hx5) (Hy1 & Hy2 & Hy3 & Hy4 & Hy5) Nx Ny H.
  unfold names_ok in *. repeat match goal with E : _ && _ = true |- _ => apply andb_true_iff in E as [? ?] end.
  unfold aad_bytes in H. repeat (rewrite sapp_assoc in H || rewrite sapp_cons in H).
  apply (app_fixed AAD_PREFIX AAD_PREFIX) in H as [_ H]; [|done]. apply scons_inj in H.
  apply sep_first in H as [E1 H]; [|apply cname_free..].
  apply sep_first in H as [E2 H]; [|apply cname_free..].
  apply (app_fixed NXMS_KEM_ID NXMS_KEM_ID) in H as [_ H]; [|done]. apply scons_inj in H.
  apply (app_fixed NXMS_SIG_ID NXMS_SIG_ID) in H as [_ H]; [|done]. apply scons_inj in H.
  apply sep_first in H as [E3 H]; [|apply cname_free..].
  apply app_fixed in H as [E4 H]; [|by rewrite Hx4, Hy4]. apply scons_inj in H.
  apply app_fixed in H as [E5 H]; [|by rewrite !len_u64_be]. apply scons_inj in H.
  apply app_fixed in H as [E6 H]; [|unfold shake_hash32; by rewrite !len_extract].
  rewrite !cname_id in E1, E2, E3 by done.
  assert (E7 : px_seq x = px_seq y) by (rewrite <- (be_value_u64 (px_seq x)), E5, be_value_u64; done).
  destruct x, y. simpl in *. by subst.
Qed.

Lemma sig_bytes_inj x y c d n1 n2 t1 t2 g1 g2 :
  context_ok x -> context_ok y -> names_ok x = true -> names_ok y = true -> len n1 = 24 -> len n2 = 24 ->
  len g1 = 32 -> len g2 = 32 ->
  sig_bytes (aad_bytes shake x c) n1 t1 g1 = sig_bytes (aad_bytes shake y d) n2 t2 g2 ->
  x = y /\ shake_hash32 shake c = shake_hash32 shake d /\ n1 = n2 /\ t1 = t2 /\ g1 = g2.
Proof.
  intros Hx Hy Nx Ny Hn1 Hn2 Hg1 Hg2 H. unfold sig_bytes in H.
  apply (app_fixed SIG_PREFIX SIG_PREFIX) in H as [_ H]; [|done]. apply scons_inj in H.
  apply aad_inj in H as (-> & Hh & H); [|done..]. apply scons_inj in H.
  apply app_fixed in H as [-> H]; [|by rewrite Hn1, Hn2]. apply scons_inj in H.
  assert (Hl : len t1 = len t2).
  { apply (f_equal len) in H. rewrite !len_app in H. unfold len in *. cbn [String.length] in H. lia. }
  apply app_fixed in H as [-> H]; [|done]. apply scons_inj in H as ->. done.
Qed.
End bound.

(** ** Sealing and opening *)

Section theorems.
Context (shake : string -> nat -> ascii).
Context (kem_encaps : string -> string -> option (string * string)) (kem_decaps : string -> string -> option string).
Context (falcon_sign : string -> string -> string -> option string) (falcon_verify : string -> string -> string -> bool).

Notation seal := (nxms_ms_encrypt_packet shake kem_encaps falcon_sign).
Notation open := (nxms_ms_verify_decrypt shake kem_decaps falcon_verify).

(** What a sealed packet is made of. *)
Record sealed (x : PacketContext) (pk sk plaintext : string) (coins : Coins) (p : Packet) (ss ke km : string) : Prop := Sealed {
  se_seq : px_seq x <> 0;
  se_len : len plaintext <= NXMS_MAX_PAYLOAD;
  se_names : names_ok x = true;
  se_kem : kem_encaps pk (co_kem coins) = Some (pk_kem_ct p, ss);
  se_ct : between NXMS_MIN_KEM_BYTES NXMS_MAX_KEM_CT_LEN (len (pk_kem_ct p)) = true;
  se_ss : is_empty ss = false;
  se_keys : forall malloc, malloc SDerive = true -> derive_keys shake malloc ss (px_escrow x) = Some (ke, km);
  se_nonce : len (pk_nonce p) = 24;
  se_cipher : pk_ciphertext p = xor_shake_keystream shake plaintext ke (pk_nonce p);
  se_tag : compute_tag shake km (aad_bytes shake x (pk_kem_ct p)) (pk_nonce p) (pk_ciphertext p) = Some (pk_tag p);
  se_sig : falcon_sign sk (sig_bytes (aad_bytes shake x (pk_kem_ct p)) (pk_nonce p) (pk_ciphertext p) (pk_tag p)) (co_sig coins)
           = Some (pk_sig p);
  se_sig_len : len (pk_sig p) <= FF_FALCON_SIG_MAX;
}.

Lemma seal_inv malloc coins x pk sk plaintext p :
  seal malloc coins x pk sk plaintext = Some p -> exists ss ke km, sealed x pk sk plaintext coins p ss ke km.
Proof.
  unfold nxms_ms_encrypt_packet. intros H. steps H. apply (inj Some) in H as <-.
  unfold build_aad, build_sig_message, compute_tag, derive_keys in *.
  repeat match goal with E : match _ with Some _ => _ | None => None end = Some _ |- _ => step E end.
  simplify_eq. eexists _, _, _.
  constructor; cbn [pk_kem_ct pk_nonce pk_ciphertext pk_tag pk_sig]; try done.
  - by apply negb_true_iff, Z.eqb_neq in E.
  - by apply Z.leb_le.
  - by apply negb_true_iff.
  - intros m Hm. unfold derive_keys. rewrite E6. simpl. by rewrite Hm.
  - by apply Z.eqb_eq.
  - unfold compute_tag. by rewrite E18.
  - by apply Z.leb_le.
Qed.

Lemma len_tag km aad nonce ct tag : compute_tag shake km aad nonce ct = Some tag -> len tag = 32.
Proof. unfold compute_tag. intros H. steps H. apply (inj Some) in H as <-. apply len_extract. Qed.

Lemma build_aad_some malloc x ct aad : build_aad shake malloc x ct = Some aad -> aad = aad_bytes shake x ct.
Proof. unfold build_aad. intros H. steps H. by apply (inj Some) in H as <-. Qed.
Lemma build_sig_some malloc aad nonce ct tag m :
  build_sig_message malloc aad nonce ct tag = Some m -> m = sig_bytes aad nonce ct tag.
Proof. unfold build_sig_message. intros H. steps H. by apply (inj Some) in H as <-. Qed.

(** What an opened packet passed. *)
Record opened (x : PacketContext) (p : Packet) (rsk spk m ss ke km : string) : Prop := Opened {
  op_names : names_ok x = true;
  op_nonce : len (pk_nonce p) = 24;
  op_tag_len : len (pk_tag p) = 32;
  op_ss : kem_decaps rsk (pk_kem_ct p) = Some ss;
  op_keys : exists malloc, derive_keys shake malloc ss (px_escrow x) = Some (ke, km);
  op_tag : compute_tag shake km (aad_bytes shake x (pk_kem_ct p)) (pk_nonce p) (pk_ciphertext p) = Some (pk_tag p);
  op_sig : falcon_verify spk (sig_bytes (aad_bytes shake x (pk_kem_ct p)) (pk_nonce p) (pk_ciphertext p) (pk_tag p)) (pk_sig p)
           = true;
  op_plain : m = xor_shake_keystream shake (pk_ciphertext p) ke (pk_nonce p);
}.

Lemma open_inv malloc x p rsk spk m :
  open malloc x p rsk spk = Some m -> exists ss ke km, opened x p rsk spk m ss ke km.
Proof.
  unfold nxms_ms_verify_decrypt. intros H. steps H. apply (inj Some) in H as <-.
  repeat match goal with
  | E : build_aad _ _ _ _ = Some _ |- _ => apply build_aad_some in E as ->
  | E : build_sig_message _ _ _ _ _ = Some _ |- _ => apply build_sig_some in E as ->
  | E : (_ =? _)%string = true |- _ => apply String.eqb_eq in E as ->
  | E : (_ =? _) = true |- _ => apply Z.eqb_eq in E
  end.
  eexists _, _, _. constructor; try done. by eexists.
Qed.

Lemma derive_keys_same m1 m2 ss esc k1 k2 :
  derive_keys shake m1 ss esc = Some k1 -> derive_keys shake m2 ss esc = Some k2 -> k1 = k2.
Proof. unfold derive_keys. intros H1 H2. steps H1. steps H2. congruence. Qed.

(** A sealed packet opens to its payload under the same context with the
    recipient's secret key and the sender's public key. *)
Theorem packet_roundtrip malloc malloc' coins x pk sk plaintext p rsk spk
    (Hm : forall s, malloc' s = true)
    (Hrsk : between NXMS_MIN_KEM_BYTES NXMS_MAX_KEM_SK_LEN (len rsk) = true)
    (Hspk : between 1 NXMS_MAX_SIG_PK_LEN (len spk) = true)
    (Hkem : forall r ct ss, kem_encaps pk r = Some (ct, ss) -> kem_decaps rsk ct = Some ss)
    (Hsig : forall msg r sig, falcon_sign sk msg r = Some sig -> falcon_verify spk msg sig = true /\ sig <> EmptyString)
    (Hseal : seal malloc coins x pk sk plaintext = Some p) :
  open malloc' x p rsk spk = Some plaintext.
Proof.
  apply seal_inv in Hseal as (ss & ke & km & S). destruct S.
  apply Hsig in se_sig0 as [Hv Hne]. apply Hkem in se_kem0.
  assert (Hct : len (pk_ciphertext p) = len plaintext) by (rewrite se_cipher0; apply len_keystream).
  pose proof (len_tag _ _ _ _ _ se_tag0) as Htag.
  assert (Hsl : 1 <= len (pk_sig p)).
  { pose proof (len_nonneg (pk_sig p)). pose proof (len_zero (pk_sig p)). destruct (decide (len (pk_sig p) = 0)); [tauto|lia]. }
  unfold nxms_ms_verify_decrypt, build_aad, build_sig_message.
  rewrite se_nonce0, Htag, Hct, se_ct0, se_names0, Hrsk, Hspk, se_kem0, se_ss0, !Hm. cbn [need negb].
  rewrite (se_keys0 _ (Hm _)). cbn [need].
  unfold between. rewrite !(proj2 (Z.leb_le _ _)) by done. rewrite (proj2 (Z.eqb_neq _ _) se_seq0). cbn [need negb andb].
  change (24 =? NXMS_NONCE_LEN) with true. change (32 =? Z.of_nat NXMS_TAG_LEN) with true. cbn [need].
  rewrite se_tag0, String.eqb_refl, Hv. cbn [need]. by rewrite se_cipher0, keystream_twice.
Qed.

(** A call of the sealing function and what it gave. *)
Record Call : Type := MkCall { ca_context : PacketContext; ca_pk : string; ca_plaintext : string; ca_packet : Packet }.
Definition sealed_call (sk : string) (c : Call) : Prop :=
  exists malloc coins, seal malloc coins (ca_context c) (ca_pk c) sk (ca_plaintext c) = Some (ca_packet c).
Definition call_message (c : Call) : string :=
  let p := ca_packet c in
  sig_bytes (aad_bytes shake (ca_context c) (pk_kem_ct p)) (pk_nonce p) (pk_ciphertext p) (pk_tag p).

(** A packet sealed for somebody else whose tag also verifies under the keys this
    receiver derives: decapsulating its KEM ciphertext with [rsk] gives another
    secret than the sealing had, and the two secrets' MAC keys agree on the tag. *)
Definition tag_clash (rsk rpk : string) (c : Call) : Prop :=
  let p := ca_packet c in let x := ca_context c in let aad := aad_bytes shake x (pk_kem_ct p) in
  ca_pk c <> rpk /\ exists ss ss' ke km ke' km' coins malloc malloc',
    kem_decaps rsk (pk_kem_ct p) = Some ss /\ kem_encaps (ca_pk c) coins = Some (pk_kem_ct p, ss') /\ ss <> ss' /\
    derive_keys shake malloc ss (px_escrow x) = Some (ke, km) /\ derive_keys shake malloc' ss' (px_escrow x) = Some (ke', km') /\
    compute_tag shake km aad (pk_nonce p) (pk_ciphertext p) = Some (pk_tag p) /\
    compute_tag shake km' aad (pk_nonce p) (pk_ciphertext p) = Some (pk_tag p).

(** Only what the owner of the signing key sealed opens: when every message
    that verifies under its public key was signed in one of its calls, to whomever
    they were addressed, a packet that opens has the context, the nonce, the
    ciphertext and the tag of one of these calls, and opens to the payload of that
    call, unless the hash of the KEM ciphertext collides, or the call was for
    another recipient and its tag verifies under this one's keys all the same. *)
Theorem packet_authentic malloc x p rsk spk sk rpk (calls : list Call) m
    (Hx : context_ok x) (Hcalls : forall c, c ∈ calls -> context_ok (ca_context c) /\ sealed_call sk c)
    (Hforge : forall msg sig, falcon_verify spk msg sig = true -> exists c, c ∈ calls /\ call_message c = msg)
    (Hkem : forall r ct ss, kem_encaps rpk r = Some (ct, ss) -> kem_decaps rsk ct = Some ss)
    (Hopen : open malloc x p rsk spk = Some m) :
  exists c, c ∈ calls /\ ca_context c = x /\ pk_nonce p = pk_nonce (ca_packet c)
    /\ pk_ciphertext p = pk_ciphertext (ca_packet c) /\ pk_tag p = pk_tag (ca_packet c)
    /\ ((pk_kem_ct p = pk_kem_ct (ca_packet c) /\ m = ca_plaintext c)
        \/ (pk_kem_ct p <> pk_kem_ct (ca_packet c)
            /\ shake_hash32 shake (pk_kem_ct p) = shake_hash32 shake (pk_kem_ct (ca_packet c)))
        \/ tag_clash rsk rpk c).
Proof.
  apply open_inv in Hopen as (ss & ke & km & O). destruct O as [On Ono Ot Os Ok_ Otag Osig ->].
  destruct (Hforge _ _ Osig) as (c & Hc & Hmsg). destruct (Hcalls c Hc) as (Hxc & malloc' & coins & Hseal).
  apply seal_inv in Hseal as (ss' & ke' & km' & S). destruct S.
  apply sig_bytes_inj in Hmsg as (Ex & Eh & En & Et & Eg); try done; [|by eapply len_tag].
  exists c. split_and!; try done.
  destruct (decide (pk_kem_ct p = pk_kem_ct (ca_packet c))) as [Ek|Ek]; [|right; by left].
  destruct Ok_ as [malloc1 Hk]. specialize (se_keys0 (fun _ => true) eq_refl). destruct (decide (ss = ss')) as [<-|Hne].
  - left. split; [done|]. rewrite Ex in se_keys0.
    pose proof (derive_keys_same _ _ _ _ _ _ Hk se_keys0) as [= -> ->]. rewrite <- Et, <- En, se_cipher0. apply keystream_twice.
  - right. right. split.
    + intros Epk. rewrite Epk in se_kem0. apply Hkem in se_kem0. congruence.
    + exists ss, ss', ke, km, ke', km', (co_kem coins), malloc1, (fun _ => true). rewrite <- En, <- Et, <- Eg, Ek in Otag. rewrite Ek in Os.
      rewrite Ex in *. split_and!; done.
Qed.
End theorems.

(** ** A concrete suite *)

Definition toy_shake (seed : string) (i : nat) : ascii :=
  Ascii.ascii_of_N (Z.to_N ((le_value (stake 2 (sdrop (i mod 7) seed)) + Z.of_nat i * 31) mod 256)).
Definition toy_key : string := repeat_byte "k" 64.
Definition toy_encaps (pk r : string) : option (string * string) := Some (repeat_byte "c" 64, pk +:+ r).
Definition toy_decaps (sk ct : string) : option string := Some (sk +:+ "r").
Definition toy_sign (sk msg r : string) : option string := Some ("s" +:+ msg).
Definition toy_verify (pk msg sig : string) : bool := (sig =? "s" +:+ msg)%string.
Definition toy_coins : Coins := MkCoins "r" (Some (repeat_byte "n" 24)) "".
Definition toy_context : PacketContext := MkContext "alice" "bob" "escrow" (repeat_byte "e" 16) 7.
Definition toy_seal (plaintext : string) : option Packet :=
  nxms_ms_encrypt_packet toy_shake toy_encaps toy_sign (fun _ => true) toy_coins toy_context toy_key "sk" plaintext.
Definition toy_packet : Packet := default (MkPacket "" "" "" "" "") (toy_seal "hello").
(** Only the signature of this one packet verifies. *)
Definition toy_verify_one (pk msg sig : string) : bool :=
  (msg =? call_message toy_shake (MkCall toy_context toy_key "hello" toy_packet))%string && (sig =? pk_sig toy_packet)%string.

Lemma toy_kem r ct ss : toy_encaps toy_key r = Some (ct, ss) -> r = "r"%string -> toy_decaps toy_key ct = Some ss.
Proof. unfold toy_encaps, toy_decaps. intros [= <- <-] ->. reflexivity. Qed.

(** A KEM whose coins do not matter. *)
Definition toy_encaps1 (pk _r : string) : option (string * string) := toy_encaps pk "r".
Definition toy_seal1 (plaintext : string) : option Packet :=
  nxms_ms_encrypt_packet toy_shake toy_encaps1 toy_sign (fun _ => true) toy_coins toy_context toy_key "sk" plaintext.

Lemma packet_roundtrip_witness :
  toy_seal1 "hello" = Some toy_packet
  /\ nxms_ms_verify_decrypt toy_shake toy_decaps toy_verify (fun _ => true) toy_context toy_packet toy_key "pk" = Some "hello"%string.
Proof.
  split; [vm_compute; reflexivity|].
  apply (packet_roundtrip toy_shake toy_encaps1 toy_decaps toy_sign toy_verify (fun _ => true) (fun _ => true) toy_coins
    toy_context toy_key "sk" "hello" toy_packet toy_key "pk").
  - reflexivity.
  - vm_compute; reflexivity.
  - vm_compute; reflexivity.
  - intros r ct ss H. exact (toy_kem "r" ct ss H eq_refl).
  - intros msg r sig [= <-]. split; [apply String.eqb_refl|discriminate].
  - vm_compute; reflexivity.
Defined.

Lemma packet_authentic_witness :
  nxms_ms_verify_decrypt toy_shake toy_decaps toy_verify_one (fun _ => true) toy_context toy_packet toy_key "pk" = Some "hello"%string
  /\ exists c, c ∈ [MkCall toy_context toy_key "hello" toy_packet] /\ ca_context c = toy_context.
Proof.
  split; [vm_compute; reflexivity|].
  destruct (packet_authentic toy_shake toy_encaps1 toy_decaps toy_sign toy_verify_one (fun _ => true) toy_context toy_packet
    toy_key "pk" "sk" toy_key [MkCall toy_context toy_key "hello" toy_packet] "hello") as (c & Hc & Hx & _).
  - unfold context_ok, nul_free, free_of. repeat split; try (vm_compute; reflexivity); vm_compute; discriminate.
  - intros c ->%list_elem_of_singleton. split.
    + unfold context_ok, nul_free, free_of. repeat split; try (vm_compute; reflexivity); vm_compute; discriminate.
    + exists (fun _ => true), toy_coins. vm_compute. reflexivity.
  - intros msg sig [H%String.eqb_eq _]%andb_true_iff. eexists. split; [by apply list_elem_of_singleton|]. by rewrite H.
  - intros r ct ss H. exact (toy_kem "r" ct ss H eq_refl).
  - vm_compute. reflexivity.
  - exists c. split; [exact Hc|exact Hx].
Defined.
