(* ===== verification/TransportCrypto.v ===== *)
(** * The transport's cryptography

    [crates/nxms-transport/src/crypto.rs]: key files, the calls into the native
    library and the memory it hands over, sealing and opening of messages.  The
    native heap is explicit: a block must be freed exactly once and read within
    its bounds, otherwise [h_bad] is set. *)

From S2P Require Import Prelude RustString Bytes Packet.

Inductive CryptoError : Type :=
| CIo (path : string) | CNotRegular | CUnsafeMode | CJson
| CBase64 (label : string) | CBase64TooLong (label : string) | CKeyLength (label : string)
| CPayloadTooLarge | CSeqZero | CNulInName
| CKeygenFailed | CEncryptFailed | CDecryptFailed | CSignFailed | CVerifyFailed
| CNullPointer (label : string) | CTooLong (label : string) | CLength (label : string).
#[export] Instance crypto_io_error : IoError CryptoError := CIo.

(** ** Lengths of base64 fields *)

Definition max_b64_len_for_decoded (max_decoded_len : Z) : option Z :=
  let! _ := need (max_decoded_len + 2 <=? U64_MAX) in
  let quads := (max_decoded_len + 2) / 3 in
  let! _ := need (quads * 4 <=? U64_MAX) in
  Some (quads * 4).

Definition validate_b64_input_len (value label : string) (max_decoded_len : Z) : result CryptoError unit :=
  let? max_b64_len := ok_or (max_b64_len_for_decoded max_decoded_len) (CBase64TooLong label) in
  fail_if (max_b64_len <? len value) (CBase64TooLong label).

Record Keys : Type := MkKeys { ky_kem_sk_b64 : string; ky_kem_pk_b64 : string; ky_sig_sk_b64 : string; ky_sig_pk_b64 : string }.
Record SealedPacket : Type := MkSealed {
  sp_kem_ct_b64 : string; sp_nonce_b64 : string; sp_ciphertext_b64 : string; sp_tag_b64 : string; sp_sig_b64 : string }.

Section keys.
Context (b64_decode : string -> option string).

Definition decode_key_b64 (value label : string) (min_len max_len : Z) : result CryptoError string :=
  let? _ := validate_b64_input_len value label max_len in
  let? out := ok_or (b64_decode value) (CBase64 label) in
  let? _ := fail_if (negb (between min_len max_len (len out))) (CKeyLength label) in
  Ok out.
Definition kem_pk (k : Keys) := decode_key_b64 (ky_kem_pk_b64 k) "kem_pk" NXMS_MIN_KEM_BYTES NXMS_MAX_KEM_PK_LEN.
Definition kem_sk (k : Keys) := decode_key_b64 (ky_kem_sk_b64 k) "kem_sk" NXMS_MIN_KEM_BYTES NXMS_MAX_KEM_SK_LEN.
Definition sig_pk (k : Keys) := decode_key_b64 (ky_sig_pk_b64 k) "sig_pk" 1 NXMS_MAX_SIG_PK_LEN.
Definition sig_sk (k : Keys) := decode_key_b64 (ky_sig_sk_b64 k) "sig_sk" 1 NXMS_MAX_SIG_SK_LEN.
End keys.

(** ** Secret files *)

Section secret_files.
Context (io : io_op -> string -> bool) (partial : string -> string) (umask : Z) (pid : Z).
Context (keys_to_vec : Keys -> string) (keys_from_slice : string -> option Keys).

Definition MODE_600 : Z := 384.
(** [mode & 0o077] *)
Definition group_or_other (mode : Z) : bool := negb (Z.land (Z.land mode 511) 63 =? 0).
Definition secret_temp_path (path : string) : string := with_extension ("tmp-" +:+ dec pid) path.

Definition validate_secret_file_metadata (f : file) : result CryptoError unit :=
  let? _ := fail_if (negb (f_regular f)) CNotRegular in
  fail_if (group_or_other (f_mode f)) CUnsafeMode.
Definition read_secret_file (path : string) : M fs CryptoError string :=
  let* f := fs_read io path in
  let* _ := slift (validate_secret_file_metadata f) in
  sret (f_bytes f).

(** [open] with [create_new] and mode 0600: fails when the file is there. *)
Definition fs_create_new (path : string) : M fs CryptoError unit :=
  let* there := sget (fun f => bool_decide (is_Some (f !! path))) in
  let* _ := slift (fail_if (there || negb (io IoCreate path)) (CIo path)) in
  smodify (<[path := File true (Z.land MODE_600 (Z.lnot umask)) EmptyString]>).
Definition fs_write_all (path data : string) : M fs CryptoError unit :=
  let put bytes := smodify (alter (fun f => File (f_regular f) (f_mode f) bytes) path) in
  if io IoWrite path then put data else let* _ := put (partial data) in sfail (CIo path).
Definition write_secret_file (path data : string) : M fs CryptoError unit :=
  let* _ := (if has_dir path then must io IoMkdir path else sret tt) in
  let tmp_path := secret_temp_path path in
  let* _ := smodify (fun f => if io IoRemove tmp_path then delete tmp_path f else f) in
  let* _ := fs_create_new tmp_path in
  let* _ := fs_write_all tmp_path data in
  let* _ := must io IoSync tmp_path in
  let* _ := fs_rename io tmp_path path in
  fs_chmod io path MODE_600.

Definition keys_read_json (path : string) : M fs CryptoError Keys :=
  let* data := read_secret_file path in
  slift (ok_or (keys_from_slice data) CJson).
Definition keys_write_json (keys : Keys) (path : string) : M fs CryptoError unit :=
  write_secret_file path (keys_to_vec keys).
End secret_files.

(** ** Memory of the native library *)

Record heap : Type := Heap { h_blocks : gmap Z string; h_bad : bool }.
Notation Native := (M heap CryptoError).
Definition null : Z := 0.

(** [free], [secure_free] *)
Definition native_free (ptr : Z) : Native unit :=
  smodify (fun h => match h_blocks h !! ptr with
    | Some _ => Heap (delete ptr (h_blocks h)) (h_bad h)
    | None => Heap (h_blocks h) true
    end).
Definition free_if_not_null (ptr : Z) : Native unit := if ptr =? null then sret tt else native_free ptr.
(** [slice::from_raw_parts(ptr, len).to_vec()] *)
Definition from_raw_parts (ptr : Z) (n : Z) : Native string := fun h =>
  match h_blocks h !! ptr with
  | Some b => if n <=? len b then (h, Ok (stake (Z.to_nat n) b)) else (Heap (h_blocks h) true, Ok EmptyString)
  | None => (Heap (h_blocks h) true, Ok EmptyString)
  end.

Definition take_alloc_checked (ptr : Z) (n max_len : Z) (label : string) : Native string :=
  if ptr =? null then (if n =? 0 then sret EmptyString else sfail (CNullPointer label))
  else if max_len <? n then let* _ := free_if_not_null ptr in sfail (CTooLong label)
  else if n =? 0 then let* _ := free_if_not_null ptr in sret EmptyString
  else
    let* out := from_raw_parts ptr n in
    let* _ := free_if_not_null ptr in
    sret out.

(** [match m { Ok(v) => v, Err(err) => { cleanup; return Err(err) } }] *)
Definition or_cleanup {A} (m : Native A) (cleanup : Native unit) : Native A := fun h =>
  match m h with
  | (h', Ok a) => (h', Ok a)
  | (h', Err e) => (fst (cleanup h'), Err e)
  end.
Definition free_all (ptrs : list Z) : Native unit := foldr (fun p k => let* _ := free_if_not_null p in k) (sret tt) ptrs.

(** An output of the native library: a pointer and a length. *)
Notation output := (Z * Z)%type.
Definition take_encrypt_outputs (kem_ct nonce ciphertext tag sig : output) : Native Packet :=
  let* kem_ct' := or_cleanup (take_alloc_checked kem_ct.1 kem_ct.2 NXMS_MAX_KEM_CT_LEN "kem_ct")
                    (free_all [nonce.1; ciphertext.1; tag.1; sig.1]) in
  let* nonce' := or_cleanup (take_alloc_checked nonce.1 nonce.2 NXMS_NONCE_LEN "nonce")
                   (free_all [ciphertext.1; tag.1; sig.1]) in
  let* ciphertext' := or_cleanup (take_alloc_checked ciphertext.1 ciphertext.2 NXMS_MAX_PAYLOAD "ciphertext")
                        (free_all [tag.1; sig.1]) in
  let* tag' := or_cleanup (take_alloc_checked tag.1 tag.2 (Z.of_nat NXMS_TAG_LEN) "tag") (free_all [sig.1]) in
  let* sig' := take_alloc_checked sig.1 sig.2 FF_FALCON_SIG_MAX "signature" in
  sret (MkPacket kem_ct' nonce' ciphertext' tag' sig').

Definition copy_raw_borrowed_checked (ptr : Z) (n min_len max_len : Z) (label : string) : Native string :=
  let* _ := slift (fail_if (n <? min_len) (CLength label)) in
  let* _ := slift (fail_if (max_len <? n) (CLength label)) in
  let* _ := slift (fail_if (ptr =? null) (CNullPointer label)) in
  from_raw_parts ptr n.

Section native.
(** The address [malloc] gives, and the bytes of a block nobody wrote. *)
Context (fresh : gmap Z string -> Z) (junk : nat -> string).
Context (shake : string -> nat -> ascii).
Context (kem_encaps : string -> string -> option (string * string)) (kem_decaps : string -> string -> option string).
Context (falcon_sign : string -> string -> string -> option string) (falcon_verify : string -> string -> string -> bool).
Context (kem_keygen falcon_keygen : string -> option (string * string)).
Context (b64_encode : string -> string).
Context (b64_decode : string -> option string).

(** [size] bytes nobody wrote. *)
Definition unwritten (size : nat) : string := stake size (junk size +:+ repeat_byte nul size).
(** A block of [size] bytes that starts with [value]. *)
Definition alloc (size : nat) (value : string) : Native Z := fun h =>
  let p := fresh (h_blocks h) in
  (Heap (<[p := value +:+ unwritten (size - String.length value)]> (h_blocks h)) (h_bad h), Ok p).

(** *** The functions of the native library on its heap

    [nxms_ms_transport.c] and the allocations of [pqc_kem.c]. [None] is the return
    code -1. [let# x := m freeing ptrs in k] is [if (m != 0) { free(..); return -1; }].
    A write outside a block, a read of what is not there and a second [free] are
    recorded in [h_bad]; erasing before [free] is not visible. *)

(** [memcpy(ptr, value, sizeof(value))] *)
Definition c_store (ptr : Z) (value : string) : Native unit := smodify (fun h =>
  match h_blocks h !! ptr with
  | Some b =>
      if (String.length value <=? String.length b)%nat
      then Heap (<[ptr := value +:+ sdrop (String.length value) b]> (h_blocks h)) (h_bad h) else Heap (h_blocks h) true
  | None => Heap (h_blocks h) true
  end).
Definition c_malloc (ok : bool) (size : nat) : Native (option Z) :=
  if ok then let* p := alloc size EmptyString in sret (Some p) else sret None.
Definition c_bail {A} (ptrs : list Z) : Native (option A) := let* _ := free_all ptrs in sret None.
Definition or_bail {A B} (m : Native (option A)) (ptrs : list Z) (k : A -> Native (option B)) : Native (option B) :=
  let* r := m in match r with Some a => k a | None => c_bail ptrs end.
Notation "'let#' x := m 'freeing' ptrs 'in' k" := (or_bail m ptrs (fun x => k))
  (at level 200, x name, m at level 100, ptrs at level 99, k at level 200).

(** [kem_encaps] gives nothing when liboqs fails. The path that frees most is the
    one of a failing [OQS_KEM_encaps], after both blocks were allocated; the paths
    before it free the same pointers, null where nothing was allocated. *)
Definition ff_kem_encaps (pk r : string) : Native (option (output * output)) :=
  match kem_encaps pk r with
  | Some (ct, ss) =>
      let* p := alloc (String.length ct) ct in
      let* q := alloc (String.length ss) ss in
      sret (Some ((p, len ct), (q, len ss)))
  | None =>
      let* p := alloc 1 EmptyString in
      let* q := alloc 1 EmptyString in
      c_bail [p; q]
  end.
Definition ff_kem_decaps (sk ct : string) : Native (option output) :=
  match kem_decaps sk ct with
  | Some ss => let* p := alloc (String.length ss) ss in sret (Some (p, len ss))
  | None => let* p := alloc 1 EmptyString in c_bail [p]
  end.

Definition c_derive_keys (malloc : site -> bool) (ss ss_len : Z) (escrow_id_raw : string) : Native (option (string * string)) :=
  let# _ := sret (need (negb (ss_len =? 0))) freeing [] in
  let tmp_len := (Z.to_nat ss_len + String.length escrow_id_raw + 5)%nat in
  let# tmp := c_malloc (malloc SDerive) tmp_len freeing [] in
  let* secret := from_raw_parts ss ss_len in
  let* _ := c_store tmp (secret +:+ escrow_id_raw +:+ "ms-ke") in
  let* input := from_raw_parts tmp (Z.of_nat tmp_len) in
  let ke := ff_shake256_kdf shake input KDF_PREFIX in
  let* _ := c_store tmp (secret +:+ escrow_id_raw +:+ "ms-km") in
  let* input := from_raw_parts tmp (Z.of_nat tmp_len) in
  let km := ff_shake256_kdf shake input KDF_PREFIX in
  let* _ := free_if_not_null tmp in
  sret (Some (ke, km)).

(** The sums of [add_sz]. *)
Definition aad_len (x : PacketContext) : nat :=
  let n s := nxms_strnlen s (S NXMS_MAX_ID_LEN) in
  ((String.length AAD_PREFIX + 1) + (n (px_sender x) + 1) + (n (px_to x) + 1) + (String.length NXMS_KEM_ID + 1)
   + (String.length NXMS_SIG_ID + 1) + (n (px_msg_type x) + 1) + (String.length (px_escrow x) + 1) + (8 + 1) + 32)%nat.
Definition c_build_aad (malloc : site -> bool) (x : PacketContext) (ct : string) : Native (option output) :=
  let# _ := sret (need (between NXMS_MIN_KEM_BYTES NXMS_MAX_KEM_CT_LEN (len ct))) freeing [] in
  let# _ := sret (need (names_ok x)) freeing [] in
  let# buf := c_malloc (malloc SAad) (aad_len x) freeing [] in
  let* _ := c_store buf (aad_bytes shake x ct) in
  sret (Some (buf, Z.of_nat (aad_len x))).
Definition sig_message_len (aad nonce ciphertext : string) : nat :=
  ((String.length SIG_PREFIX + 1) + (String.length aad + 1) + (String.length nonce + 1) + (String.length ciphertext + 1) + NXMS_TAG_LEN)%nat.
Definition c_build_sig_message (malloc : site -> bool) (aad nonce ciphertext tag : string) : Native (option output) :=
  let# _ := sret (need (len nonce =? NXMS_NONCE_LEN)) freeing [] in
  let# buf := c_malloc (malloc SSigMsg) (sig_message_len aad nonce ciphertext) freeing [] in
  let* _ := c_store buf (sig_bytes aad nonce ciphertext tag) in
  sret (Some (buf, Z.of_nat (sig_message_len aad nonce ciphertext))).

(** The source of randomness fills the [n] bytes or fails. *)
Definition c_rand_bytes (ptr n : Z) (source : option string) : Native (option unit) :=
  match source with
  | Some b => if len b =? n then let* _ := c_store ptr b in sret (Some tt) else sret None
  | None => sret None
  end.
(** Fails on null arguments only. *)
Definition c_xor_shake_keystream (buf n : Z) (ke nonce : string) : Native (option unit) :=
  let* b := from_raw_parts buf n in
  let* _ := c_store buf (xor_shake_keystream shake b ke nonce) in
  sret (Some tt).

Definition c_encrypt_packet (malloc : site -> bool) (coins : Coins) (x : PacketContext) (recipient_pk_kem sender_sk_sig plaintext : string)
    : Native (option (output * output * output * output * output)) :=
  let n := len plaintext in
  let# _ := sret (need (negb (px_seq x =? 0))) freeing [] in
  let# _ := sret (need (n <=? NXMS_MAX_PAYLOAD)) freeing [] in
  let# _ := sret (need (between NXMS_MIN_KEM_BYTES NXMS_MAX_KEM_PK_LEN (len recipient_pk_kem))) freeing [] in
  let# _ := sret (need (between 1 NXMS_MAX_SIG_SK_LEN (len sender_sk_sig))) freeing [] in
  let# _ := sret (need (names_ok x)) freeing [] in
  let# kem := ff_kem_encaps recipient_pk_kem (co_kem coins) freeing [] in
  let '((ct_loc, ct_loc_len), (ss, ss_len)) := kem in
  let# _ := sret (need (between NXMS_MIN_KEM_BYTES NXMS_MAX_KEM_CT_LEN ct_loc_len)) freeing [ss; ct_loc] in
  let# _ := sret (need (negb (ss_len =? 0))) freeing [ss; ct_loc] in
  let# keys := c_derive_keys malloc ss ss_len (px_escrow x) freeing [ss; ct_loc] in
  let '(ke, km) := keys in
  let* _ := free_if_not_null ss in
  let# nonce_loc := c_malloc (malloc SNonce) (Z.to_nat NXMS_NONCE_LEN) freeing [ct_loc] in
  let# _ := c_rand_bytes nonce_loc NXMS_NONCE_LEN (co_nonce coins) freeing [nonce_loc; ct_loc] in
  let# ctext_loc := c_malloc (malloc SCtext) (Nat.max 1 (String.length plaintext)) freeing [nonce_loc; ct_loc] in
  let* _ := c_store ctext_loc plaintext in
  let* nonce := from_raw_parts nonce_loc NXMS_NONCE_LEN in
  let# _ := c_xor_shake_keystream ctext_loc n ke nonce freeing [ctext_loc; nonce_loc; ct_loc] in
  let* ct := from_raw_parts ct_loc ct_loc_len in
  let# aad := c_build_aad malloc x ct freeing [ctext_loc; nonce_loc; ct_loc] in
  let* aad_bytes := from_raw_parts aad.1 aad.2 in
  let* ctext := from_raw_parts ctext_loc n in
  let# tag32 := sret (compute_tag shake km aad_bytes nonce ctext) freeing [aad.1; ctext_loc; nonce_loc; ct_loc] in
  let# tag_loc := c_malloc (malloc STag) NXMS_TAG_LEN freeing [aad.1; ctext_loc; nonce_loc; ct_loc] in
  let* _ := c_store tag_loc tag32 in
  let* tag := from_raw_parts tag_loc (Z.of_nat NXMS_TAG_LEN) in
  let# sig_msg := c_build_sig_message malloc aad_bytes nonce ctext tag freeing [tag_loc; aad.1; ctext_loc; nonce_loc; ct_loc] in
  let# sig_loc := c_malloc (malloc SSig) (Z.to_nat FF_FALCON_SIG_MAX) freeing [sig_msg.1; tag_loc; aad.1; ctext_loc; nonce_loc; ct_loc] in
  let* msg := from_raw_parts sig_msg.1 sig_msg.2 in
  let# sig := sret (falcon_sign sender_sk_sig msg (co_sig coins)) freeing [sig_loc; sig_msg.1; tag_loc; aad.1; ctext_loc; nonce_loc; ct_loc] in
  let# _ := sret (need (len sig <=? FF_FALCON_SIG_MAX)) freeing [sig_loc; sig_msg.1; tag_loc; aad.1; ctext_loc; nonce_loc; ct_loc] in
  let* _ := c_store sig_loc sig in
  let* _ := free_all [sig_msg.1; aad.1] in
  sret (Some ((ct_loc, ct_loc_len), (nonce_loc, NXMS_NONCE_LEN), (ctext_loc, n), (tag_loc, Z.of_nat NXMS_TAG_LEN), (sig_loc, len sig))).

(** The packet is in memory of the caller. *)
Definition c_verify_decrypt (malloc : site -> bool) (x : PacketContext) (p : Packet) (recipient_sk_kem sender_pk_sig : string)
    : Native (option output) :=
  let n := len (pk_ciphertext p) in
  let# _ := sret (need (negb (px_seq x =? 0))) freeing [] in
  let# _ := sret (need (len (pk_nonce p) =? NXMS_NONCE_LEN)) freeing [] in
  let# _ := sret (need (len (pk_tag p) =? Z.of_nat NXMS_TAG_LEN)) freeing [] in
  let# _ := sret (need (n <=? NXMS_MAX_PAYLOAD)) freeing [] in
  let# _ := sret (need (between NXMS_MIN_KEM_BYTES NXMS_MAX_KEM_CT_LEN (len (pk_kem_ct p)))) freeing [] in
  let# _ := sret (need (between 1 FF_FALCON_SIG_MAX (len (pk_sig p)))) freeing [] in
  let# _ := sret (need (between NXMS_MIN_KEM_BYTES NXMS_MAX_KEM_SK_LEN (len recipient_sk_kem))) freeing [] in
  let# _ := sret (need (between 1 NXMS_MAX_SIG_PK_LEN (len sender_pk_sig))) freeing [] in
  let# _ := sret (need (names_ok x)) freeing [] in
  let# kem := ff_kem_decaps recipient_sk_kem (pk_kem_ct p) freeing [] in
  let '(ss, ss_len) := kem in
  let# _ := sret (need (negb (ss_len =? 0))) freeing [ss] in
  let# keys := c_derive_keys malloc ss ss_len (px_escrow x) freeing [ss] in
  let '(ke, km) := keys in
  let* _ := free_if_not_null ss in
  let# aad := c_build_aad malloc x (pk_kem_ct p) freeing [] in
  let* aad_bytes := from_raw_parts aad.1 aad.2 in
  let# tag_exp := sret (compute_tag shake km aad_bytes (pk_nonce p) (pk_ciphertext p)) freeing [aad.1] in
  let# _ := sret (need (tag_exp =? pk_tag p)%string) freeing [aad.1] in
  let# sig_msg := c_build_sig_message malloc aad_bytes (pk_nonce p) (pk_ciphertext p) (pk_tag p) freeing [aad.1] in
  let* msg := from_raw_parts sig_msg.1 sig_msg.2 in
  let sig_ok := falcon_verify sender_pk_sig msg (pk_sig p) in
  let* _ := free_all [sig_msg.1; aad.1] in
  let# _ := sret (need sig_ok) freeing [] in
  let# plain := c_malloc (malloc SPlain) (Nat.max 1 (String.length (pk_ciphertext p))) freeing [] in
  let* _ := c_store plain (pk_ciphertext p) in
  let# _ := c_xor_shake_keystream plain n ke (pk_nonce p) freeing [plain] in
  sret (Some (plain, n)).

(** The calls through the foreign function interface. *)
Definition ffi_encrypt_packet (malloc : site -> bool) (coins : Coins) (x : PacketContext) (pk sk plaintext : string)
    : Native (output * output * output * output * output) :=
  let* r := c_encrypt_packet malloc coins x pk sk plaintext in slift (ok_or r CEncryptFailed).
Definition ffi_verify_decrypt (malloc : site -> bool) (x : PacketContext) (p : Packet) (rsk spk : string) : Native output :=
  let* r := c_verify_decrypt malloc x p rsk spk in slift (ok_or r CDecryptFailed).

(** [CString::new] *)
Definition cstring (s : string) : result CryptoError unit :=
  fail_if (negb (sall (fun c => negb (c =? nul)%char) s)) CNulInName.
Definition cstrings (x : PacketContext) : result CryptoError unit :=
  let? _ := cstring (px_sender x) in
  let? _ := cstring (px_to x) in
  cstring (px_msg_type x).

Definition encrypt (malloc : site -> bool) (coins : Coins) (x : PacketContext) (recipient_kem_pk sender_sig_sk plaintext : string)
    : Native SealedPacket :=
  let* _ := slift (fail_if (NXMS_MAX_PAYLOAD <? len plaintext) CPayloadTooLarge) in
  let* _ := slift (fail_if (px_seq x =? 0) CSeqZero) in
  let* _ := slift (cstrings x) in
  let* outputs := ffi_encrypt_packet malloc coins x recipient_kem_pk sender_sig_sk plaintext in
  let '(kem_ct, nonce, ciphertext, tag, sig) := outputs in
  let* p := take_encrypt_outputs kem_ct nonce ciphertext tag sig in
  let* _ := slift (fail_if (negb (len (pk_nonce p) =? NXMS_NONCE_LEN)) (CLength "nonce")) in
  let* _ := slift (fail_if (negb (len (pk_tag p) =? Z.of_nat NXMS_TAG_LEN)) (CLength "tag")) in
  let* _ := slift (fail_if (is_empty (pk_sig p)) (CLength "signature")) in
  sret (MkSealed (b64_encode (pk_kem_ct p)) (b64_encode (pk_nonce p)) (b64_encode (pk_ciphertext p)) (b64_encode (pk_tag p))
          (b64_encode (pk_sig p))).

Definition decode_sealed (s : SealedPacket) : result CryptoError Packet :=
  let? _ := validate_b64_input_len (sp_kem_ct_b64 s) "kem_ct" NXMS_MAX_KEM_CT_LEN in
  let? _ := validate_b64_input_len (sp_nonce_b64 s) "nonce" NXMS_NONCE_LEN in
  let? _ := validate_b64_input_len (sp_ciphertext_b64 s) "ciphertext" NXMS_MAX_PAYLOAD in
  let? _ := validate_b64_input_len (sp_tag_b64 s) "tag" (Z.of_nat NXMS_TAG_LEN) in
  let? _ := validate_b64_input_len (sp_sig_b64 s) "signature" FF_FALCON_SIG_MAX in
  let? kem_ct := ok_or (b64_decode (sp_kem_ct_b64 s)) (CBase64 "kem_ct") in
  let? nonce := ok_or (b64_decode (sp_nonce_b64 s)) (CBase64 "nonce") in
  let? ciphertext := ok_or (b64_decode (sp_ciphertext_b64 s)) (CBase64 "ciphertext") in
  let? tag := ok_or (b64_decode (sp_tag_b64 s)) (CBase64 "tag") in
  let? sig := ok_or (b64_decode (sp_sig_b64 s)) (CBase64 "signature") in
  let? _ := fail_if (negb (between NXMS_MIN_KEM_BYTES NXMS_MAX_KEM_CT_LEN (len kem_ct))) (CLength "kem_ct") in
  let? _ := fail_if (negb (len nonce =? NXMS_NONCE_LEN)) (CLength "nonce") in
  let? _ := fail_if (negb (len tag =? Z.of_nat NXMS_TAG_LEN)) (CLength "tag") in
  let? _ := fail_if (NXMS_MAX_PAYLOAD <? len ciphertext) (CLength "ciphertext") in
  let? _ := fail_if (is_empty sig || (FF_FALCON_SIG_MAX <? len sig)) (CLength "signature") in
  Ok (MkPacket kem_ct nonce ciphertext tag sig).
Definition decrypt (malloc : site -> bool) (x : PacketContext) (sealed : SealedPacket) (recipient_kem_sk sender_sig_pk : string)
    : Native string :=
  let* _ := slift (fail_if (px_seq x =? 0) CSeqZero) in
  let* _ := slift (cstrings x) in
  let* p := slift (decode_sealed sealed) in
  let* out := ffi_verify_decrypt malloc x p recipient_kem_sk sender_sig_pk in
  take_alloc_checked out.1 out.2 NXMS_MAX_PAYLOAD "plaintext".

Definition falcon_sign_ct (sk msg coins : string) : result CryptoError string :=
  let? _ := fail_if (is_empty sk || (NXMS_MAX_SIG_SK_LEN <? len sk)) (CKeyLength "Falcon secret key") in
  let? sig := ok_or (falcon_sign sk msg coins) CSignFailed in
  let? _ := fail_if (FF_FALCON_SIG_MAX <? len sig) CSignFailed in
  Ok sig.
Definition falcon_verify_checked (pk msg sig : string) : result CryptoError unit :=
  let? _ := fail_if (is_empty pk || (NXMS_MAX_SIG_PK_LEN <? len pk)) (CKeyLength "Falcon public key") in
  let? _ := fail_if (is_empty sig || (FF_FALCON_SIG_MAX <? len sig)) (CLength "Falcon signature") in
  fail_if (negb (falcon_verify pk msg sig)) CVerifyFailed.

Definition ff_kem_keygen (coins : string) : Native (option (output * output)) :=
  match kem_keygen coins with
  | Some (pk, sk) =>
      let* p := alloc (String.length pk) pk in
      let* q := alloc (String.length sk) sk in
      sret (Some ((p, len pk), (q, len sk)))
  | None =>
      let* p := alloc 1 EmptyString in
      let* q := alloc 1 EmptyString in
      c_bail [p; q]
  end.
(** [Keys::generate]; the guard frees the KEM keys on every path. *)
Definition generate (kem_coins falcon_coins : string) : Native Keys :=
  let* made := ff_kem_keygen kem_coins in
  match made with
  | None => sfail CKeygenFailed
  | Some ((pk_ptr, pk_len), (sk_ptr, sk_len)) =>
      let guard_drop := free_all [sk_ptr; pk_ptr] in
      let* keys := or_cleanup (
        let* pk' := copy_raw_borrowed_checked pk_ptr pk_len NXMS_MIN_KEM_BYTES NXMS_MAX_KEM_PK_LEN "kem pk" in
        let* sk' := copy_raw_borrowed_checked sk_ptr sk_len NXMS_MIN_KEM_BYTES NXMS_MAX_KEM_SK_LEN "kem sk" in
        let* falcon := slift (ok_or (falcon_keygen falcon_coins) CKeygenFailed) in
        sret (MkKeys (b64_encode sk') (b64_encode pk') (b64_encode falcon.1) (b64_encode falcon.2))) guard_drop in
      let* _ := guard_drop in
      sret keys
  end.
End native.
