(* ===== verification/TransportCryptoProps.v ===== *)
(** * Properties of the transport's cryptography

    The native memory is balanced on every path, secrets are written with an
    owner-only mode and as a whole, and messages open to what was sealed, only for
    the context they were sealed for. *)

From S2P Require Import Prelude RustString Bytes Packet PacketProps TransportCrypto.

(** ** Memory *)

Section memory.
Lemma take_run ptr n max label h b :
  ptr <> null -> h_blocks h !! ptr = Some b -> 0 <= n <= len b ->
  take_alloc_checked ptr n max label h
  = (Heap (delete ptr (h_blocks h)) (h_bad h), if max <? n then Err (CTooLong label) else Ok (stake (Z.to_nat n) b)).
Proof.
  intros Hp Hb Hn. unfold take_alloc_checked, free_if_not_null, native_free. rewrite (proj2 (Z.eqb_neq _ _) Hp).
  destruct (max <? n) eqn:Em; [unfold sbind, smodify; by rewrite Hb|].
  destruct (n =? 0) eqn:E0.
  - apply Z.eqb_eq in E0 as ->. unfold sbind, smodify. rewrite Hb. by destruct b.
  - unfold sbind, smodify, from_raw_parts. rewrite Hb, (proj2 (Z.leb_le _ _)) by lia. by rewrite Hb.
Qed.

Lemma free_run ptr h b :
  ptr <> null -> h_blocks h !! ptr = Some b ->
  free_if_not_null ptr h = (Heap (delete ptr (h_blocks h)) (h_bad h), Ok tt).
Proof. intros Hp Hb. unfold free_if_not_null, native_free, smodify. by rewrite (proj2 (Z.eqb_neq _ _) Hp), Hb. Qed.

(** Pointers that can be freed one after the other. *)
Definition owned (ptrs : list Z) (m : gmap Z string) : Prop :=
  NoDup ptrs /\ forall p, p ∈ ptrs -> p <> null /\ is_Some (m !! p).
Definition drop_all (ptrs : list Z) (m : gmap Z string) : gmap Z string := foldl (fun m p => delete p m) m ptrs.

Lemma owned_tail p ptrs m : owned (p :: ptrs) m -> owned ptrs (delete p m).
Proof.
  intros [Hd Ho]. apply NoDup_cons in Hd as [Hp Hd]. split; [done|]. intros q Hq.
  destruct (Ho q) as [Hn Hs]; [by apply elem_of_cons; right|]. split; [done|].
  rewrite lookup_delete_ne; [done|]. by intros ->.
Qed.
Lemma owned_head p ptrs m : owned (p :: ptrs) m -> p <> null /\ is_Some (m !! p).
Proof. intros [_ Ho]. apply Ho, elem_of_cons. by left. Qed.

Lemma free_all_run ptrs : forall h, owned ptrs (h_blocks h) ->
  free_all ptrs h = (Heap (drop_all ptrs (h_blocks h)) (h_bad h), Ok tt).
Proof.
  induction ptrs as [|p ptrs IH]; intros h Ho; [by destruct h|]. cbn [free_all foldr].
  destruct (owned_head _ _ _ Ho) as [Hp [b Hb]]. rewrite sbind_run, (free_run _ _ _ Hp Hb).
  fold (free_all ptrs). rewrite IH; [done|]. by apply owned_tail in Ho.
Qed.

(** An output that can be taken: its length is within its block. *)
Definition readable (o : Z * Z) (m : gmap Z string) : Prop := exists b, m !! o.1 = Some b /\ 0 <= o.2 <= len b.
Lemma readable_delete o p m : p <> o.1 -> readable o m -> readable o (delete p m).
Proof. intros Hp (b & Hb & Hn). exists b. by rewrite lookup_delete_ne. Qed.

(** What an output holds. *)
Definition content (m : gmap Z string) (o : Z * Z) : string := stake (Z.to_nat o.2) (default EmptyString (m !! o.1)).
Lemma content_delete m p o : p <> o.1 -> content (delete p m) o = content m o.
Proof. intros Hp. unfold content. by rewrite lookup_delete_ne. Qed.

(** Taking one output: the others are freed when it is too long. *)
Lemma take_step {B} o ptrs max label h (k : string -> Native B) :
  owned (o.1 :: ptrs) (h_blocks h) -> readable o (h_blocks h) ->
  sbind (or_cleanup (take_alloc_checked o.1 o.2 max label) (free_all ptrs)) k h
  = if max <? o.2 then (Heap (drop_all (o.1 :: ptrs) (h_blocks h)) (h_bad h), Err (CTooLong label))
    else k (content (h_blocks h) o) (Heap (delete o.1 (h_blocks h)) (h_bad h)).
Proof.
  intros Ho (b & Hb & Hn). rewrite sbind_run. unfold or_cleanup, content.
  rewrite (take_run _ _ _ _ _ _ (proj1 (owned_head _ _ _ Ho)) Hb Hn), Hb.
  destruct (max <? o.2); [|done]. rewrite free_all_run; [done|]. by apply owned_tail in Ho.
Qed.

Lemma distinct_five (a b c d e : Z) : NoDup [a; b; c; d; e] ->
  a <> b /\ a <> c /\ a <> d /\ a <> e /\ b <> c /\ b <> d /\ b <> e /\ c <> d /\ c <> e /\ d <> e.
Proof. rewrite !NoDup_cons, !not_elem_of_cons. naive_solver. Qed.

(** All five outputs are freed, whatever their lengths, and copied when they are
    within their limits. *)
Lemma take_outputs_run a b c d e h :
  owned [a.1; b.1; c.1; d.1; e.1] (h_blocks h) -> Forall (fun o => readable o (h_blocks h)) [a; b; c; d; e] ->
  exists r, take_encrypt_outputs a b c d e h = (Heap (drop_all [a.1; b.1; c.1; d.1; e.1] (h_blocks h)) (h_bad h), r)
    /\ (a.2 <= NXMS_MAX_KEM_CT_LEN -> b.2 <= NXMS_NONCE_LEN -> c.2 <= NXMS_MAX_PAYLOAD -> d.2 <= Z.of_nat NXMS_TAG_LEN ->
        e.2 <= FF_FALCON_SIG_MAX ->
        let v := content (h_blocks h) in r = Ok (MkPacket (v a) (v b) (v c) (v d) (v e))).
Proof.
  intros Ho Hr. destruct (distinct_five _ _ _ _ _ (proj1 Ho)) as (Hab & Hac & Had & Hae & Hbc & Hbd & Hbe & Hcd & Hce & Hde).
  apply Forall_cons in Hr as [Ra Hr]. apply Forall_cons in Hr as [Rb Hr]. apply Forall_cons in Hr as [Rc Hr].
  apply Forall_cons in Hr as [Rd Hr]. apply Forall_cons in Hr as [Re _].
  unfold take_encrypt_outputs. rewrite (take_step a _ _ _ _ _ Ho Ra).
  destruct (_ <? a.2) eqn:Ea; [eexists; split; [reflexivity|lia]|]. apply owned_tail in Ho.
  rewrite take_step; [|exact Ho|by apply readable_delete].
  destruct (_ <? b.2) eqn:Eb; [eexists; split; [reflexivity|lia]|]. apply owned_tail in Ho.
  rewrite take_step; [|exact Ho|by repeat apply readable_delete].
  destruct (_ <? c.2) eqn:Ec; [eexists; split; [reflexivity|lia]|]. apply owned_tail in Ho.
  rewrite take_step; [|exact Ho|by repeat apply readable_delete].
  destruct (_ <? d.2) eqn:Ed; [eexists; split; [reflexivity|lia]|]. apply owned_tail in Ho. cbn [h_blocks h_bad] in *.
  assert (Re' : readable e (delete d.1 (delete c.1 (delete b.1 (delete a.1 (h_blocks h)))))) by (by repeat apply readable_delete).
  destruct Re' as (blk & Hblk & Hlen). rewrite sbind_run.
  erewrite take_run; [|exact (proj1 (owned_head _ _ _ Ho))|exact Hblk|exact Hlen]. cbn [h_blocks h_bad].
  destruct (_ <? e.2) eqn:Ee; [eexists; split; [reflexivity|lia]|].
  eexists; split; [reflexivity|]. intros _ _ _ _ _. cbv zeta. rewrite !content_delete by done. do 2 f_equal.
  rewrite <- (content_delete _ a.1 e), <- (content_delete _ b.1 e), <- (content_delete _ c.1 e), <- (content_delete _ d.1 e) by done.
  unfold content. by rewrite Hblk.
Qed.

Context (fresh : gmap Z string -> Z) (junk : nat -> string).

(** Blocks that were just allocated. *)
Lemma alloc_run size value h :
  alloc fresh junk size value h
  = (Heap (<[fresh (h_blocks h) := value +:+ unwritten junk (size - String.length value)]> (h_blocks h)) (h_bad h), Ok (fresh (h_blocks h))).
Proof. done. Qed.

(** Outputs that are handed over: they can be read and freed, and freeing them
    gives the blocks there were before. *)
Record handed (h h' : heap) (outs : list (Z * Z)) (vals : list string) : Prop := Handed {
  hd_vals : map (content (h_blocks h')) outs = vals;
  hd_lens : map snd outs = map len vals;
  hd_owned : owned (map fst outs) (h_blocks h');
  hd_readable : Forall (fun o => readable o (h_blocks h')) outs;
  hd_drop : drop_all (map fst outs) (h_blocks h') = h_blocks h;
  hd_bad : h_bad h' = h_bad h;
}.

(** The allocator gives an address that is not in use. *)
Context (Hfresh : forall m, m !! fresh m = None /\ fresh m <> null).

(** *** Blocks of a call in progress *)

(** The native heap while a C function runs that started on [h0]: its blocks [bs],
    with their contents, beside those of [h0]. *)
Record live (h0 : heap) (bs : list (Z * string)) (h : heap) : Prop := Live {
  lv_nodup : NoDup (map fst bs);
  lv_new : forall p, p ∈ map fst bs -> p <> null /\ h_blocks h0 !! p = None;
  lv_blocks : h_blocks h = list_to_map bs ∪ h_blocks h0;
  lv_bad : h_bad h = h_bad h0;
}.

Lemma live_nil h : live h [] h.
Proof. constructor; [by apply NoDup_nil|by intros p ?%elem_of_nil|by rewrite list_to_map_nil, map_empty_union|done]. Qed.
Lemma live_done h0 h : live h0 [] h -> h = h0.
Proof. intros [_ _ Hb Hbad]. rewrite list_to_map_nil, map_empty_union in Hb. destruct h, h0; simpl in *; congruence. Qed.
Lemma live_perm h0 bs bs' h : bs ≡ₚ bs' -> live h0 bs h -> live h0 bs' h.
Proof.
  intros Hp [Hn Hnew Hb Hbad]. constructor; [by rewrite <- Hp|intros p; rewrite <- Hp; apply Hnew| |done].
  rewrite Hb. f_equal. by apply list_to_map_proper.
Qed.
Lemma live_lookup h0 bs h p b : live h0 bs h -> (p, b) ∈ bs -> h_blocks h !! p = Some b.
Proof. intros [Hn _ Hb _] Hin. rewrite Hb. apply lookup_union_Some_l, elem_of_list_to_map; done. Qed.
Lemma live_ptr h0 bs h p b : live h0 bs h -> (p, b) ∈ bs -> p <> null.
Proof. intros [_ Hnew _ _] Hin. apply Hnew. apply (list_elem_of_fmap_2 fst _ _ Hin). Qed.
Lemma live_alloc h0 bs h b : live h0 bs h ->
  live h0 ((fresh (h_blocks h), b) :: bs) (Heap (<[fresh (h_blocks h) := b]> (h_blocks h)) (h_bad h)).
Proof.
  intros [Hn Hnew Hb Hbad]. destruct (Hfresh (h_blocks h)) as [Hf Hnull]. set (p := fresh (h_blocks h)) in *.
  rewrite Hb in Hf. apply lookup_union_None in Hf as [Hf1 Hf2]. constructor; cbn [map fst h_blocks h_bad].
  - constructor; [|done]. by apply not_elem_of_list_to_map in Hf1.
  - intros q [->|Hq]%elem_of_cons; [done|by apply Hnew].
  - rewrite Hb, list_to_map_cons. by rewrite insert_union_l.
  - done.
Qed.
Lemma live_free h0 p b bs h : live h0 ((p, b) :: bs) h -> live h0 bs (Heap (delete p (h_blocks h)) (h_bad h)).
Proof.
  intros [Hn Hnew Hb Hbad]. cbn [map fst] in *. apply NoDup_cons in Hn as [Hp Hn].
  constructor; cbn [h_blocks h_bad]; [done|intros q Hq; apply Hnew; by right| |done].
  destruct (Hnew p) as [_ H0]; [by left|]. rewrite Hb, list_to_map_cons.
  rewrite delete_union, delete_insert_id by (by apply not_elem_of_list_to_map). by rewrite (delete_id (h_blocks h0)).
Qed.
Lemma live_update h0 p b b' bs h : live h0 ((p, b) :: bs) h -> live h0 ((p, b') :: bs) (Heap (<[p := b']> (h_blocks h)) (h_bad h)).
Proof.
  intros [Hn Hnew Hb Hbad]. constructor; [done|done| |done]. cbn [h_blocks]. rewrite Hb, list_to_map_cons.
  by rewrite insert_union_l, insert_insert_eq.
Qed.

(** [free] of every block, whatever order they are listed in. *)
Lemma live_free_all h0 bs ptrs h : live h0 bs h -> ptrs = map fst bs -> free_all ptrs h = (h0, Ok tt).
Proof.
  intros Hl ->. revert h Hl. induction bs as [|[p b] bs IH]; intros h Hl; [by apply live_done in Hl as ->|].
  cbn [map fst free_all foldr]. rewrite sbind_run.
  rewrite (free_run p h b) by (first [by eapply live_ptr; [done|left]|by eapply live_lookup; [done|left]]).
  fold (free_all (map fst bs)). apply live_free in Hl. by apply IH.
Qed.

Lemma length_repeat_byte c n : String.length (repeat_byte c n) = n.
Proof. induction n; simpl; congruence. Qed.
Lemma length_unwritten n : String.length (unwritten junk n) = n.
Proof. unfold unwritten. rewrite length_stake, length_sapp, length_repeat_byte. lia. Qed.

(** *** A C function and the value it computes

    [agrees h0 fin v m h]: run on [h] inside a call that started on [h0], [m]
    returns -1 with every block of the call freed when [v] is [None], and otherwise
    returns with what [fin] says. *)
Definition agrees {A B} (h0 : heap) (fin : A -> B -> heap -> Prop) (v : option A) (m : Native (option B)) (h : heap) : Prop :=
  match v with
  | None => m h = (h0, Ok None)
  | Some a => exists b h', m h = (h', Ok (Some b)) /\ fin a b h'
  end.

Section agreement.
Context {A B : Type} (h0 : heap) (fin : A -> B -> heap -> Prop).
Implicit Types (v : option A) (h : heap) (bs : list (Z * string)).

Lemma agrees_same v (m m' : Native (option B)) h h' : m h = m' h' -> agrees h0 fin v m' h' -> agrees h0 fin v m h.
Proof. intros E. unfold agrees. by rewrite E. Qed.
Lemma agrees_bail bs ptrs h : live h0 bs h -> ptrs = map fst bs -> agrees h0 fin None (c_bail ptrs) h.
Proof. intros Hl Hp. unfold agrees, c_bail. by rewrite sbind_run, (live_free_all h0 bs). Qed.
Lemma agrees_ok {C} (c : C) v ptrs (k : C -> Native (option B)) h : agrees h0 fin v (k c) h -> agrees h0 fin v (or_bail (sret (Some c)) ptrs k) h.
Proof. done. Qed.
(** A test, or a value computed on both sides. *)
Lemma agrees_step {C} (o : option C) bs ptrs (kv : C -> option A) (k : C -> Native (option B)) h :
  live h0 bs h -> ptrs = map fst bs -> (forall c, o = Some c -> agrees h0 fin (kv c) (k c) h) ->
  agrees h0 fin (match o with Some c => kv c | None => None end) (or_bail (sret o) ptrs k) h.
Proof.
  intros Hl Hp Hk. destruct o as [c|]; [by eapply agrees_same; [|by apply Hk]|].
  eapply agrees_same; [|by eapply agrees_bail]. done.
Qed.
Lemma agrees_malloc ok size bs ptrs (kv : option A) (k : Z -> Native (option B)) h :
  live h0 bs h -> (ok = false -> ptrs = map fst bs) ->
  (forall p h', live h0 ((p, unwritten junk size) :: bs) h' -> agrees h0 fin kv (k p) h') ->
  agrees h0 fin (match need ok with Some _ => kv | None => None end) (or_bail (c_malloc fresh junk ok size) ptrs k) h.
Proof.
  intros Hl Hp Hk. unfold c_malloc. destruct ok; cbn [need].
  - eapply agrees_same; [|apply Hk, live_alloc, Hl]. unfold or_bail. rewrite !sbind_run, alloc_run. cbn [String.length]. by rewrite Nat.sub_0_r.
  - eapply agrees_same; [|by eapply agrees_bail; [|apply Hp]]. done.
Qed.
Lemma agrees_read p n b bs v (k : string -> Native (option B)) h :
  live h0 bs h -> (p, b) ∈ bs -> n <= len b -> agrees h0 fin v (k (stake (Z.to_nat n) b)) h -> agrees h0 fin v (sbind (from_raw_parts p n) k) h.
Proof.
  intros Hl Hin Hn Hk. eapply agrees_same; [|exact Hk]. rewrite sbind_run. unfold from_raw_parts.
  by rewrite (live_lookup _ _ _ _ _ Hl Hin), (proj2 (Z.leb_le _ _)).
Qed.
Lemma agrees_store p value b bs v (k : unit -> Native (option B)) h :
  live h0 ((p, b) :: bs) h -> (String.length value <= String.length b)%nat ->
  (forall h', live h0 ((p, value +:+ sdrop (String.length value) b) :: bs) h' -> agrees h0 fin v (k tt) h') ->
  agrees h0 fin v (sbind (c_store p value) k) h.
Proof.
  intros Hl Hn Hk. eapply agrees_same; [|eapply Hk, live_update, Hl]. rewrite sbind_run. unfold c_store, smodify.
  rewrite (live_lookup _ _ _ p b Hl) by (by left). by rewrite (proj2 (Nat.leb_le _ _)).
Qed.
Lemma agrees_free p b bs bs' v (k : unit -> Native (option B)) h :
  live h0 bs h -> bs ≡ₚ (p, b) :: bs' -> (forall h', live h0 bs' h' -> agrees h0 fin v (k tt) h') ->
  agrees h0 fin v (sbind (free_if_not_null p) k) h.
Proof.
  intros Hl Hp Hk. apply (live_perm _ _ _ _ Hp) in Hl. eapply agrees_same; [|eapply Hk, live_free, Hl]. rewrite sbind_run.
  rewrite (free_run p h b); [done|by eapply live_ptr; [|left]|by eapply live_lookup; [|left]].
Qed.
(** A function called inside the call: it frees what it allocates when it fails. *)
Lemma agrees_call {C D} (o : option C) (m : Native (option D)) bs ptrs (kv : C -> option A) (k : D -> Native (option B)) h :
  live h0 bs h -> ptrs = map fst bs ->
  match o with
  | None => m h = (h, Ok None)
  | Some c => exists d h', m h = (h', Ok (Some d)) /\ agrees h0 fin (kv c) (k d) h'
  end -> agrees h0 fin (match o with Some c => kv c | None => None end) (or_bail m ptrs k) h.
Proof.
  intros Hl Hp Hm. destruct o as [c|].
  - destruct Hm as (d & h' & Em & Hk). eapply agrees_same; [|exact Hk]. unfold or_bail. by rewrite sbind_run, Em.
  - eapply agrees_same; [|by eapply agrees_bail]. unfold or_bail. by rewrite sbind_run, Hm.
Qed.
End agreement.

(** What is left of a call that returned its outputs is what is handed over. *)
Lemma live_handed h0 h' (l : list (Z * string * string)) :
  live h0 (map fst l) h' -> Forall (fun t => exists rest, t.1.2 = t.2 +:+ rest) l ->
  handed h0 h' (map (fun t => (t.1.1, len t.2)) l) (map snd l).
Proof.
  intros Hl Hf. assert (Hfst : map fst (map (fun t : Z * string * string => (t.1.1, len t.2)) l) = map fst (map fst l)) by (rewrite !map_map; done).
  assert (Hin : forall t, t ∈ l -> h_blocks h' !! t.1.1 = Some t.1.2).
  { intros [[p b] v] Ht. apply (live_lookup _ _ _ _ _ Hl). apply (list_elem_of_fmap_2 fst _ _ Ht). }
  assert (Hown : owned (map fst (map fst l)) (h_blocks h')).
  { split; [apply Hl|]. intros p Hp. split; [by apply (lv_new _ _ _ Hl)|]. apply list_elem_of_fmap in Hp as ([q b] & -> & Hq).
    cbn [fst]. by rewrite (live_lookup _ _ _ _ _ Hl Hq). }
  rewrite Forall_forall in Hf. constructor; rewrite ?Hfst.
  - rewrite map_map. apply map_ext_in. intros t Ht%list_elem_of_In. unfold content. cbn [fst snd]. rewrite (Hin t Ht). cbn [from_option].
    destruct (Hf t Ht) as [rest ->]. unfold id. apply stake_app. unfold len. lia.
  - by rewrite !map_map.
  - exact Hown.
  - apply Forall_forall. intros o Ho. apply list_elem_of_fmap in Ho as (t & -> & Ht). exists t.1.2. split; [by apply Hin|]. cbn [snd].
    destruct (Hf t Ht) as [rest ->]. rewrite len_app. pose proof (len_nonneg t.2). pose proof (len_nonneg rest). lia.
  - pose proof (free_all_run _ _ Hown) as E1. rewrite (live_free_all _ _ _ _ Hl eq_refl) in E1. injection E1 as E1. by rewrite E1.
  - apply Hl.
Qed.

(** Looking at a readable output changes nothing. *)
Lemma borrow_run o min max label h :
  readable o (h_blocks h) -> (copy_raw_borrowed_checked o.1 o.2 min max label h).1 = h.
Proof.
  intros (b & Hb & Hn). unfold copy_raw_borrowed_checked, sbind, slift, fail_if, from_raw_parts.
  destruct (o.2 <? min), (max <? o.2), (o.1 =? null); try done. rewrite Hb, (proj2 (Z.leb_le _ _)) by lia. done.
Qed.

(** The native memory after a computation is what it was before. *)
Definition balanced {A} (m : Native A) : Prop := forall h, (m h).1 = h.

Lemma balanced_lift {A B} (r : result CryptoError A) (k : A -> Native B) :
  (forall a, r = Ok a -> balanced (k a)) -> balanced (sbind (slift r) k).
Proof. intros Hk h. rewrite sbind_run. unfold slift. destruct r as [a|e]; [by apply Hk|done]. Qed.
End memory.

Section theorems.
Context (fresh : gmap Z string -> Z) (junk : nat -> string).
Context (shake : string -> nat -> ascii).
Context (kem_encaps : string -> string -> option (string * string)) (kem_decaps : string -> string -> option string).
Context (falcon_sign : string -> string -> string -> option string) (falcon_verify : string -> string -> string -> bool).
Context (kem_keygen falcon_keygen : string -> option (string * string)).
Context (b64_encode : string -> string) (b64_decode : string -> option string).
Context (Hfresh : forall m, m !! fresh m = None /\ fresh m <> null).

Notation seal_message := (encrypt fresh junk shake kem_encaps falcon_sign b64_encode).
Notation open_message := (decrypt fresh junk shake kem_decaps falcon_verify b64_decode).

(** *** The functions of the native library *)

Lemma stored_all v b : String.length v = String.length b -> v +:+ sdrop (String.length v) b = v.
Proof.
  intros Hv. assert (sdrop (String.length v) b = EmptyString) as ->; [|apply sapp_nil_r].
  pose proof (length_sdrop (String.length v) b) as Hl. rewrite Hv, Nat.sub_diag in Hl. rewrite Hv. by destruct (sdrop _ b).
Qed.
Lemma read_all v n : n = len v -> stake (Z.to_nat n) v = v.
Proof. intros ->. apply stake_all. unfold len. lia. Qed.
Lemma read_prefix v rest n : n = len v -> stake (Z.to_nat n) (v +:+ rest) = v.
Proof. intros ->. apply stake_app. unfold len. lia. Qed.

Lemma strnlen_le s n : (nxms_strnlen s n <= String.length s)%nat.
Proof. revert s. induction n as [|n IH]; intros [|c s]; simpl; try lia. destruct (c =? nul)%char; [lia|]. specialize (IH s). lia. Qed.
Lemma length_cname s : String.length (cname s) = nxms_strnlen s (S NXMS_MAX_ID_LEN).
Proof. unfold cname. rewrite length_stake. pose proof (strnlen_le s (S NXMS_MAX_ID_LEN)). lia. Qed.
(** The sums of lengths are the lengths of what is copied. *)
Lemma length_aad x ct : String.length (aad_bytes shake x ct) = aad_len x.
Proof.
  unfold aad_bytes, aad_len. cbv zeta. rewrite <- !length_cname. repeat (rewrite length_sapp; cbn [String.length]).
  assert (String.length (u64_be (px_seq x)) = 8%nat) as -> by (apply len_length, len_u64_be).
  assert (String.length (shake_hash32 shake ct) = 32%nat) as -> by (apply len_length, len_extract). lia.
Qed.
Lemma length_sig_message aad nonce ct tag : String.length tag = NXMS_TAG_LEN ->
  String.length (sig_bytes aad nonce ct tag) = sig_message_len aad nonce ct.
Proof.
  intros Ht. unfold sig_bytes, sig_message_len. repeat (rewrite length_sapp; cbn [String.length]). rewrite Ht. lia.
Qed.

(** A buffer that is allocated and filled. *)
Lemma buffer_run h0 bs h size v : live h0 bs h -> String.length v = size ->
  exists p h', (let* p := alloc fresh junk size EmptyString in let* _ := c_store p v in sret (Some (p, Z.of_nat size))) h
    = (h', Ok (Some (p, len v))) /\ live h0 ((p, v) :: bs) h'.
Proof.
  intros Hl Hv. pose proof (live_alloc fresh Hfresh h0 bs h (unwritten junk size) Hl) as Hl1.
  assert (String.length v = String.length (unwritten junk size)) as Hlen by (by rewrite length_unwritten).
  pose proof (live_update _ _ _ v _ _ Hl1) as Hl2. eexists _, _. split; [|exact Hl2].
  rewrite sbind_run, alloc_run. cbn [String.length]. rewrite Nat.sub_0_r, sbind_run. unfold c_store, smodify. cbn [String.append].
  rewrite (live_lookup _ _ _ _ _ Hl1) by (by left). rewrite (proj2 (Nat.leb_le _ _)) by lia. rewrite stored_all by done.
  unfold sret, len. by rewrite Hv.
Qed.

Lemma build_aad_run malloc x ct h0 bs h : live h0 bs h ->
  match build_aad shake malloc x ct with
  | None => c_build_aad fresh junk shake malloc x ct h = (h, Ok None)
  | Some v => exists p h', c_build_aad fresh junk shake malloc x ct h = (h', Ok (Some (p, len v))) /\ live h0 ((p, v) :: bs) h'
  end.
Proof.
  intros Hl. unfold build_aad, c_build_aad. destruct (between _ _ _); cbn [need]; [|done]. destruct (names_ok x); cbn [need]; [|done].
  unfold c_malloc. destruct (malloc SAad); cbn [need]; [|done].
  destruct (buffer_run h0 bs h (aad_len x) (aad_bytes shake x ct) Hl (length_aad x ct)) as (p & h' & E & Hl'). exists p, h'. split; [exact E|done].
Qed.
Lemma build_sig_run malloc aad nonce ct tag h0 bs h : live h0 bs h -> String.length tag = NXMS_TAG_LEN ->
  match build_sig_message malloc aad nonce ct tag with
  | None => c_build_sig_message fresh junk malloc aad nonce ct tag h = (h, Ok None)
  | Some v => exists p h', c_build_sig_message fresh junk malloc aad nonce ct tag h = (h', Ok (Some (p, len v))) /\ live h0 ((p, v) :: bs) h'
  end.
Proof.
  intros Hl Ht. unfold build_sig_message, c_build_sig_message. destruct (_ =? _); cbn [need]; [|done].
  unfold c_malloc. destruct (malloc SSigMsg); cbn [need]; [|done].
  destruct (buffer_run h0 bs h _ _ Hl (length_sig_message aad nonce ct tag Ht)) as (p & h' & E & Hl'). exists p, h'. split; [exact E|done].
Qed.

(** The buffer of the key derivation is freed before it returns. *)
Lemma derive_keys_run malloc ss secret escrow h0 bs h : live h0 bs h -> (ss, secret) ∈ bs ->
  match derive_keys shake malloc secret escrow with
  | None => c_derive_keys fresh junk shake malloc ss (len secret) escrow h = (h, Ok None)
  | Some keys => exists d h', c_derive_keys fresh junk shake malloc ss (len secret) escrow h = (h', Ok (Some d)) /\ d = keys /\ live h0 bs h'
  end.
Proof.
  intros Hl Hin. unfold derive_keys. destruct (is_empty secret) eqn:Ee; cbn [negb need]; [by destruct secret|].
  destruct (malloc SDerive) eqn:Em; cbn [need].
  2:{ unfold c_derive_keys, c_malloc. rewrite Em. by destruct secret. }
  match goal with |- exists d h', _ /\ d = ?K /\ _ =>
    enough (agrees h0 (fun a b h' => b = a /\ live h0 bs h') (Some K) (c_derive_keys fresh junk shake malloc ss (len secret) escrow) h) as (d & h' & ? & ? & ?) by eauto end.
  unfold c_derive_keys. assert (negb (len secret =? 0) = true) as -> by (by destruct secret). apply agrees_ok. cbv zeta. rewrite Em.
  set (n := (Z.to_nat (len secret) + String.length escrow + 5)%nat).
  apply (agrees_malloc fresh junk Hfresh h0 _ true n bs [] (Some _)); [done|done|]. intros tmp h1 Hl1.
  apply (agrees_read _ _ _ _ secret _ _ _ _ Hl1); [by right|lia|]. rewrite read_all by done.
  assert (forall label, String.length label = 5%nat -> String.length (secret +:+ escrow +:+ label) = n) as Hlen.
  { intros label Hlab. rewrite !length_sapp, Hlab. subst n. unfold len. lia. }
  eapply agrees_store; [exact Hl1|rewrite length_unwritten, Hlen by done; lia|]. intros h2 Hl2. rewrite stored_all in Hl2 by (rewrite length_unwritten; by apply Hlen).
  eapply agrees_read; [exact Hl2|by left|unfold len; by rewrite Hlen|]. rewrite read_all by (unfold len; by rewrite Hlen).
  eapply agrees_store; [exact Hl2|rewrite !Hlen by done; lia|]. intros h3 Hl3. rewrite stored_all in Hl3 by (by rewrite !Hlen).
  eapply agrees_read; [exact Hl3|by left|unfold len; by rewrite Hlen|]. rewrite read_all by (unfold len; by rewrite Hlen).
  eapply agrees_free; [exact Hl3|done|]. intros h4 Hl4. eexists _, h4. done.
Qed.

Lemma need_true b u : need b = Some u -> b = true.
Proof. by destruct b. Qed.
Lemma bail_run {A} h0 bs ptrs h : live h0 bs h -> ptrs = map fst bs -> (c_bail ptrs : Native (option A)) h = (h0, Ok None).
Proof. intros Hl Hp. unfold c_bail. by rewrite sbind_run, (live_free_all h0 bs). Qed.
Lemma kem_encaps_run pk r h0 bs h : live h0 bs h ->
  match kem_encaps pk r with
  | None => ff_kem_encaps fresh junk kem_encaps pk r h = (h, Ok None)
  | Some (ct, ss) => exists p q h', ff_kem_encaps fresh junk kem_encaps pk r h = (h', Ok (Some ((p, len ct), (q, len ss))))
      /\ live h0 ((q, ss) :: (p, ct) :: bs) h'
  end.
Proof.
  intros Hl. unfold ff_kem_encaps. destruct (kem_encaps pk r) as [[ct ss]|].
  - pose proof (live_alloc fresh Hfresh h0 bs h ct Hl) as H1. pose proof (live_alloc fresh Hfresh h0 _ _ ss H1) as H2.
    eexists _, _, _. split; [|exact H2]. rewrite sbind_run, alloc_run, sbind_run, alloc_run, !Nat.sub_diag, !sapp_nil_r. done.
  - pose proof (live_alloc fresh Hfresh h [] h (unwritten junk 1) (live_nil h)) as H1.
    pose proof (live_alloc fresh Hfresh h _ _ (unwritten junk 1) H1) as H2.
    rewrite sbind_run, alloc_run, sbind_run, alloc_run. exact (bail_run _ _ _ _ (live_perm _ _ _ _ (perm_swap _ _ _) H2) eq_refl).
Qed.
Lemma kem_decaps_run sk ct h0 bs h : live h0 bs h ->
  match kem_decaps sk ct with
  | None => ff_kem_decaps fresh junk kem_decaps sk ct h = (h, Ok None)
  | Some ss => exists p h', ff_kem_decaps fresh junk kem_decaps sk ct h = (h', Ok (Some (p, len ss))) /\ live h0 ((p, ss) :: bs) h'
  end.
Proof.
  intros Hl. unfold ff_kem_decaps. destruct (kem_decaps sk ct) as [ss|].
  - pose proof (live_alloc fresh Hfresh h0 bs h ss Hl) as H1.
    eexists _, _. split; [|exact H1]. rewrite sbind_run, alloc_run, Nat.sub_diag, sapp_nil_r. done.
  - pose proof (live_alloc fresh Hfresh h [] h (unwritten junk 1) (live_nil h)) as H1.
    rewrite sbind_run, alloc_run. exact (bail_run _ _ _ _ H1 eq_refl).
Qed.
Lemma kem_keygen_run coins h :
  match kem_keygen coins with
  | None => ff_kem_keygen fresh junk kem_keygen coins h = (h, Ok None)
  | Some (pk, sk) => exists p q h', ff_kem_keygen fresh junk kem_keygen coins h = (h', Ok (Some ((p, len pk), (q, len sk))))
      /\ handed h h' [(p, len pk); (q, len sk)] [pk; sk]
  end.
Proof.
  unfold ff_kem_keygen. destruct (kem_keygen coins) as [[pk sk]|].
  - pose proof (live_alloc fresh Hfresh h [] h pk (live_nil h)) as H1. pose proof (live_alloc fresh Hfresh h _ _ sk H1) as H2.
    eexists _, _, _. split; [rewrite sbind_run, alloc_run, sbind_run, alloc_run, !Nat.sub_diag, !sapp_nil_r; reflexivity|].
    apply (live_perm _ _ _ _ (perm_swap _ _ _)) in H2. apply (live_handed _ _ [(_, pk, pk); (_, sk, sk)] H2).
    repeat (apply Forall_cons; split); [exists EmptyString; by rewrite sapp_nil_r..|by apply Forall_nil].
  - pose proof (live_alloc fresh Hfresh h [] h (unwritten junk 1) (live_nil h)) as H1.
    pose proof (live_alloc fresh Hfresh h _ _ (unwritten junk 1) H1) as H2.
    rewrite sbind_run, alloc_run, sbind_run, alloc_run. exact (bail_run _ _ _ _ (live_perm _ _ _ _ (perm_swap _ _ _) H2) eq_refl).
Qed.

Section steps.
Context {A B : Type} (h0 : heap) (fin : A -> B -> heap -> Prop).
Lemma agrees_rand p source bs ptrs (kv : string -> option A) (k : unit -> Native (option B)) h :
  live h0 ((p, unwritten junk (Z.to_nat NXMS_NONCE_LEN)) :: bs) h -> ptrs = p :: map fst bs ->
  (forall nonce, len nonce <> 24 -> kv nonce = None) ->
  (forall nonce h', len nonce = 24 -> live h0 ((p, nonce) :: bs) h' -> agrees h0 fin (kv nonce) (k tt) h') ->
  agrees h0 fin (match source with Some nonce => kv nonce | None => None end) (or_bail (c_rand_bytes p NXMS_NONCE_LEN source) ptrs k) h.
Proof.
  intros Hl Hp Hbad Hk. destruct source as [nonce|]; [|eapply agrees_same; [|by eapply agrees_bail]; done].
  unfold c_rand_bytes. destruct (Z.eqb_spec (len nonce) NXMS_NONCE_LEN) as [Hn|Hn].
  2:{ rewrite Hbad by done. eapply agrees_same; [|by eapply agrees_bail]. done. }
  assert (String.length nonce = Z.to_nat NXMS_NONCE_LEN) as Hlen by (unfold len in Hn; lia).
  apply (agrees_same _ _ _ _ (let* _ := c_store p nonce in k tt) _ h); [unfold or_bail; rewrite !sbind_run; by destruct (c_store p nonce h) as [? [[]|]]|].
  eapply agrees_store; [exact Hl|rewrite length_unwritten; lia|]. intros h' Hl'. rewrite stored_all in Hl' by (by rewrite length_unwritten).
  by apply Hk.
Qed.
Lemma agrees_xor p v rest n ke nonce bs pv ptrs (k : unit -> Native (option B)) h :
  live h0 ((p, v +:+ rest) :: bs) h -> n = len v ->
  (forall h', live h0 ((p, xor_shake_keystream shake v ke nonce +:+ rest) :: bs) h' -> agrees h0 fin pv (k tt) h') ->
  agrees h0 fin pv (or_bail (c_xor_shake_keystream shake p n ke nonce) ptrs k) h.
Proof.
  intros Hl -> Hk. assert (String.length (xor_shake_keystream shake v ke nonce) = String.length v) as Hx
    by (pose proof (len_keystream shake v ke nonce); unfold len in *; lia).
  apply (agrees_same _ _ _ _ (let* b := from_raw_parts p (len v) in let* _ := c_store p (xor_shake_keystream shake b ke nonce) in k tt) _ h).
  { unfold or_bail, c_xor_shake_keystream. rewrite !sbind_run. destruct (from_raw_parts p (len v) h) as [? [b|]]; [|done]. rewrite !sbind_run.
    by destruct (c_store p _ _) as [? [[]|]]. }
  eapply agrees_read; [exact Hl|by left|rewrite len_app; pose proof (len_nonneg rest); lia|]. rewrite read_prefix by done.
  eapply agrees_store; [exact Hl|rewrite Hx, length_sapp; lia|]. intros h' Hl'. rewrite Hx, sdrop_app in Hl' by done. by apply Hk.
Qed.
Lemma agrees_free_two p b q c bs bs' v (k : unit -> Native (option B)) h :
  live h0 bs h -> bs ≡ₚ (p, b) :: (q, c) :: bs' -> (forall h', live h0 bs' h' -> agrees h0 fin v (k tt) h') ->
  agrees h0 fin v (sbind (free_all [p; q]) k) h.
Proof.
  intros Hl Hp Hk. apply (agrees_same _ _ _ _ (let* _ := free_if_not_null p in let* _ := free_if_not_null q in k tt) _ h).
  - cbn [free_all foldr]. rewrite !sbind_run. destruct (free_if_not_null p h) as [? [[]|]]; [|done]. rewrite !sbind_run.
    by destruct (free_if_not_null q _) as [? [[]|]].
  - eapply agrees_free; [exact Hl|exact Hp|]. intros h1 Hl1. eapply agrees_free; [exact Hl1|reflexivity|exact Hk].
Qed.
End steps.

Lemma permuted_outputs (ct nonce ctext tag sig : Z * string) : [sig; tag; ctext; nonce; ct] ≡ₚ [ct; nonce; ctext; tag; sig].
Proof. change [sig; tag; ctext; nonce; ct] with (rev [ct; nonce; ctext; tag; sig]). symmetry. apply Permutation_rev. Qed.

Lemma free_message_then_aad (sig msg tag aad : Z * string) bs : sig :: msg :: tag :: aad :: bs ≡ₚ msg :: aad :: sig :: tag :: bs.
Proof. etrans; [apply perm_swap|]. apply perm_skip. symmetry. apply (Permutation_middle [sig; tag]). Qed.

(** Sealing on the heap computes the packet of [nxms_ms_encrypt_packet]: every
    failing path frees what the call allocated, and the outputs are what is left of
    it otherwise. *)
Lemma encrypt_agrees malloc coins x pk sk plaintext h :
  agrees h (fun p (outs : (Z * Z) * (Z * Z) * (Z * Z) * (Z * Z) * (Z * Z)) h' => let '(a, b, c, d, e) := outs in
      handed h h' [a; b; c; d; e] [pk_kem_ct p; pk_nonce p; pk_ciphertext p; pk_tag p; pk_sig p])
    (nxms_ms_encrypt_packet shake kem_encaps falcon_sign malloc coins x pk sk plaintext)
    (c_encrypt_packet fresh junk shake kem_encaps falcon_sign malloc coins x pk sk plaintext) h.
Proof.
  unfold nxms_ms_encrypt_packet, c_encrypt_packet. cbv zeta. pose proof (live_nil h) as Hl.
  do 5 (eapply agrees_step; [exact Hl|reflexivity|intros _ _]).
  eapply agrees_call; [exact Hl|reflexivity|]. pose proof (kem_encaps_run pk (co_kem coins) h [] h Hl) as Hk.
  destruct (kem_encaps pk (co_kem coins)) as [[ct ss]|]; [|exact Hk]. destruct Hk as (ct_loc & ss_loc & h1 & E1 & Hl1).
  eexists _, _. split; [exact E1|]. cbv beta iota. clear E1.
  eapply agrees_step; [exact Hl1|reflexivity|intros _ _].
  assert ((len ss =? 0) = is_empty ss) as -> by (by destruct ss).
  eapply agrees_step; [exact Hl1|reflexivity|intros _ _].
  eapply agrees_call; [exact Hl1|reflexivity|]. pose proof (derive_keys_run malloc ss_loc ss (px_escrow x) h _ _ Hl1 ltac:(by left)) as Hd.
  destruct (derive_keys shake malloc ss (px_escrow x)) as [[ke km]|]; [|exact Hd]. destruct Hd as (d & h2 & E2 & -> & Hl2).
  eexists _, _. split; [exact E2|]. cbv beta iota. clear E2 Hl1.
  eapply agrees_free; [exact Hl2|reflexivity|]. intros h3 Hl3. clear Hl2.
  eapply agrees_malloc; [exact Hfresh|exact Hl3|reflexivity|]. intros nonce_loc h4 Hl4. clear Hl3.
  eapply agrees_rand; [exact Hl4|reflexivity| |].
  { intros nonce Hn. destruct (need _); [|done]. destruct (build_aad _ _ _ _) as [aad|]; [|done]. unfold compute_tag.
    change (len nonce =? NXMS_NONCE_LEN) with (len nonce =? 24). by rewrite (proj2 (Z.eqb_neq _ _) Hn). }
  intros nonce h5 Hn Hl5. clear Hl4.
  eapply agrees_malloc; [exact Hfresh|exact Hl5|reflexivity|]. intros ctext_loc h6 Hl6. clear Hl5.
  eapply agrees_store; [exact Hl6|rewrite length_unwritten; lia|]. intros h7 Hl7. clear Hl6.
  match type of Hl7 with live _ ((_, _ +:+ ?r) :: _) _ => set (rest := r) in * end.
  eapply agrees_read; [exact Hl7|by right; left|by rewrite Hn|]. rewrite read_all by (by rewrite Hn).
  eapply agrees_xor; [exact Hl7|done|]. intros h8 Hl8. clear Hl7.
  set (ctext := xor_shake_keystream shake plaintext ke nonce) in *.
  eapply agrees_read; [exact Hl8|by right; right; left|done|]. rewrite read_all by done.
  eapply agrees_call; [exact Hl8|reflexivity|]. pose proof (build_aad_run malloc x ct h _ _ Hl8) as Ha.
  destruct (build_aad shake malloc x ct) as [aad|]; [|exact Ha]. destruct Ha as (aad_loc & h9 & E9 & Hl9).
  eexists _, _. split; [exact E9|]. cbn [fst snd]. clear E9 Hl8.
  eapply agrees_read; [exact Hl9|by left|done|]. rewrite read_all by done.
  assert (len plaintext = len ctext) as Hct by (unfold ctext; by rewrite len_keystream).
  eapply agrees_read; [exact Hl9|by right; left|rewrite len_app, Hct; pose proof (len_nonneg rest); lia|]. rewrite read_prefix by done.
  eapply agrees_step; [exact Hl9|reflexivity|]. intros tag32 Htag.
  assert (String.length tag32 = NXMS_TAG_LEN) as Htl by (apply len_length, (len_tag _ _ _ _ _ _ Htag)).
  eapply agrees_malloc; [exact Hfresh|exact Hl9|reflexivity|]. intros tag_loc h10 Hl10. clear Hl9.
  eapply agrees_store; [exact Hl10|rewrite length_unwritten; lia|]. intros h11 Hl11. clear Hl10.
  rewrite stored_all in Hl11 by (by rewrite length_unwritten).
  eapply agrees_read; [exact Hl11|by left|unfold len; lia|]. rewrite read_all by (unfold len; lia).
  eapply agrees_call; [exact Hl11|reflexivity|]. pose proof (build_sig_run malloc aad nonce ctext tag32 h _ _ Hl11 Htl) as Hs.
  destruct (build_sig_message malloc aad nonce ctext tag32) as [msg|]; [|exact Hs]. destruct Hs as (msg_loc & h12 & E12 & Hl12).
  eexists _, _. split; [exact E12|]. cbn [fst snd]. clear E12 Hl11.
  eapply agrees_malloc; [exact Hfresh|exact Hl12|reflexivity|]. intros sig_loc h13 Hl13. clear Hl12.
  eapply agrees_read; [exact Hl13|by right; left|done|]. rewrite read_all by done.
  eapply agrees_step; [exact Hl13|reflexivity|]. intros sig _. eapply agrees_step; [exact Hl13|reflexivity|].
  intros _ Hsl%need_true%Z.leb_le.
  eapply agrees_store; [exact Hl13|rewrite length_unwritten; unfold len, FF_FALCON_SIG_MAX in *; lia|]. intros h14 Hl14. clear Hl13.
  match type of Hl14 with live _ ((_, _ +:+ ?r) :: _) _ => set (rest' := r) in * end.
  eapply agrees_free_two; [exact Hl14|apply free_message_then_aad|]. intros h16 Hl16.
  eexists _, h16. split; [reflexivity|]. cbv beta iota. apply (live_perm _ _ _ _ (permuted_outputs _ _ _ _ _)) in Hl16.
  assert (NXMS_NONCE_LEN = len nonce) as -> by done. assert (Z.of_nat NXMS_TAG_LEN = len tag32) as -> by (unfold len; lia). rewrite Hct.
  apply (live_handed h h16 [(ct_loc, ct, ct); (nonce_loc, nonce, nonce); (ctext_loc, ctext +:+ rest, ctext); (tag_loc, tag32, tag32);
    (sig_loc, sig +:+ rest', sig)]); [exact Hl16|].
  repeat (apply Forall_cons; split); try by apply Forall_nil.
  all: cbn [fst snd]; first [exists EmptyString; by rewrite sapp_nil_r|exists rest; done|exists rest'; done].
Qed.

(** So does opening: the plaintext of [nxms_ms_verify_decrypt] is the only block
    left. *)
Lemma decrypt_agrees malloc x p rsk spk h :
  agrees h (fun m out h' => handed h h' [out] [m]) (nxms_ms_verify_decrypt shake kem_decaps falcon_verify malloc x p rsk spk)
    (c_verify_decrypt fresh junk shake kem_decaps falcon_verify malloc x p rsk spk) h.
Proof.
  unfold nxms_ms_verify_decrypt, c_verify_decrypt. cbv zeta. pose proof (live_nil h) as Hl.
  do 2 (eapply agrees_step; [exact Hl|reflexivity|intros _ _]).
  eapply agrees_step; [exact Hl|reflexivity|]. intros _ Htl%need_true%Z.eqb_eq.
  assert (String.length (pk_tag p) = NXMS_TAG_LEN) as Htag by (unfold len in Htl; lia).
  do 6 (eapply agrees_step; [exact Hl|reflexivity|intros _ _]).
  eapply agrees_call; [exact Hl|reflexivity|]. pose proof (kem_decaps_run rsk (pk_kem_ct p) h [] h Hl) as Hk.
  destruct (kem_decaps rsk (pk_kem_ct p)) as [ss|]; [|exact Hk]. destruct Hk as (ss_loc & h1 & E1 & Hl1).
  eexists _, _. split; [exact E1|]. cbv beta iota. clear E1.
  assert ((len ss =? 0) = is_empty ss) as -> by (by destruct ss).
  eapply agrees_step; [exact Hl1|reflexivity|intros _ _].
  eapply agrees_call; [exact Hl1|reflexivity|]. pose proof (derive_keys_run malloc ss_loc ss (px_escrow x) h _ _ Hl1 ltac:(by left)) as Hd.
  destruct (derive_keys shake malloc ss (px_escrow x)) as [[ke km]|]; [|exact Hd]. destruct Hd as (d & h2 & E2 & -> & Hl2).
  eexists _, _. split; [exact E2|]. cbv beta iota. clear E2 Hl1.
  eapply agrees_free; [exact Hl2|reflexivity|]. intros h3 Hl3. clear Hl2.
  eapply agrees_call; [exact Hl3|reflexivity|]. pose proof (build_aad_run malloc x (pk_kem_ct p) h _ _ Hl3) as Ha.
  destruct (build_aad shake malloc x (pk_kem_ct p)) as [aad|]; [|exact Ha]. destruct Ha as (aad_loc & h4 & E4 & Hl4).
  eexists _, _. split; [exact E4|]. cbn [fst snd]. clear E4 Hl3.
  eapply agrees_read; [exact Hl4|by left|done|]. rewrite read_all by done.
  eapply agrees_step; [exact Hl4|reflexivity|]. intros tag_exp _. eapply agrees_step; [exact Hl4|reflexivity|intros _ _].
  eapply agrees_call; [exact Hl4|reflexivity|]. pose proof (build_sig_run malloc aad (pk_nonce p) (pk_ciphertext p) (pk_tag p) h _ _ Hl4 Htag) as Hs.
  destruct (build_sig_message _ _ _ _ _) as [msg|]; [|exact Hs]. destruct Hs as (msg_loc & h5 & E5 & Hl5).
  eexists _, _. split; [exact E5|]. cbn [fst snd]. clear E5 Hl4.
  eapply agrees_read; [exact Hl5|by left|done|]. rewrite read_all by done.
  eapply agrees_free_two; [exact Hl5|reflexivity|]. intros h6 Hl6. clear Hl5.
  eapply agrees_step; [exact Hl6|reflexivity|intros _ _].
  eapply agrees_malloc; [exact Hfresh|exact Hl6|reflexivity|]. intros plain h7 Hl7. clear Hl6.
  eapply agrees_store; [exact Hl7|rewrite length_unwritten; lia|]. intros h8 Hl8. clear Hl7.
  match type of Hl8 with live _ ((_, _ +:+ ?r) :: _) _ => set (rest := r) in * end.
  eapply agrees_xor; [exact Hl8|done|]. intros h9 Hl9. clear Hl8. eexists _, h9. split; [reflexivity|].
  rewrite <- (len_keystream shake (pk_ciphertext p) ke (pk_nonce p)). set (m := xor_shake_keystream _ _ _ _) in *.
  apply (live_handed h h9 [(plain, m +:+ rest, m)]); [exact Hl9|]. apply Forall_cons. split; [by exists rest|by apply Forall_nil].
Qed.

(** The five outputs of the native call. *)
Lemma ffi_encrypt_run malloc coins x pk sk plaintext h :
  ffi_encrypt_packet fresh junk shake kem_encaps falcon_sign malloc coins x pk sk plaintext h = (h, Err CEncryptFailed)
  \/ exists p a b c d e h',
      nxms_ms_encrypt_packet shake kem_encaps falcon_sign malloc coins x pk sk plaintext = Some p
      /\ ffi_encrypt_packet fresh junk shake kem_encaps falcon_sign malloc coins x pk sk plaintext h = (h', Ok (a, b, c, d, e))
      /\ handed h h' [a; b; c; d; e] [pk_kem_ct p; pk_nonce p; pk_ciphertext p; pk_tag p; pk_sig p].
Proof.
  pose proof (encrypt_agrees malloc coins x pk sk plaintext h) as Hc. unfold ffi_encrypt_packet. rewrite sbind_run.
  destruct (nxms_ms_encrypt_packet _ _ _ _ _ _ _ _ _) as [p|]; unfold agrees in Hc.
  - right. destruct Hc as ([[[[a b] c] d] e] & h' & E & Hh). rewrite E. by exists p, a, b, c, d, e, h'.
  - left. by rewrite Hc.
Qed.
(** The output of opening. *)
Lemma ffi_decrypt_run malloc x p rsk spk h :
  match nxms_ms_verify_decrypt shake kem_decaps falcon_verify malloc x p rsk spk with
  | None => ffi_verify_decrypt fresh junk shake kem_decaps falcon_verify malloc x p rsk spk h = (h, Err CDecryptFailed)
  | Some m => exists q h', ffi_verify_decrypt fresh junk shake kem_decaps falcon_verify malloc x p rsk spk h = (h', Ok (q, len m))
      /\ q <> null /\ handed h h' [(q, len m)] [m]
  end.
Proof.
  pose proof (decrypt_agrees malloc x p rsk spk h) as Hc. unfold ffi_verify_decrypt. rewrite sbind_run.
  destruct (nxms_ms_verify_decrypt _ _ _ _ _ _ _ _) as [m|]; unfold agrees in Hc; [|by rewrite Hc].
  destruct Hc as ([q n] & h' & E & Hh). pose proof (hd_lens _ _ _ _ Hh) as [= ->]. exists q, h'. rewrite E. split; [done|]. split; [|done].
  apply (owned_head _ _ _ (hd_owned _ _ _ _ Hh)).
Qed.

Lemma take_handed h h' a b c d e vals :
  handed h h' [a; b; c; d; e] vals -> (take_encrypt_outputs a b c d e h').1 = h.
Proof.
  intros [_ _ Ho Hr Hd Hb]. destruct (take_outputs_run a b c d e h' Ho Hr) as (r & -> & _). cbn [map] in Hd. cbn [fst].
  rewrite Hd, Hb. by destruct h.
Qed.

Lemma encrypt_balanced malloc coins x pk sk plaintext : balanced (seal_message malloc coins x pk sk plaintext).
Proof.
  unfold encrypt. apply balanced_lift; intros _ _. apply balanced_lift; intros _ _. apply balanced_lift; intros _ _.
  intros h. rewrite sbind_run.
  destruct (ffi_encrypt_run malloc coins x pk sk plaintext h) as [->|(p & a & b & c & d & e & h' & _ & -> & Hh)]; [done|].
  rewrite sbind_run. pose proof (take_handed _ _ _ _ _ _ _ _ Hh) as Ht.
  destruct (take_encrypt_outputs a b c d e h') as [h1 [q|err]]; simpl in Ht; subst h1; [|done].
  unfold sbind, slift, fail_if, sret. by repeat (destruct (negb _) || destruct (is_empty _)).
Qed.

Lemma decrypt_balanced malloc x sealed rsk spk : balanced (open_message malloc x sealed rsk spk).
Proof.
  unfold decrypt. apply balanced_lift; intros _ _. apply balanced_lift; intros _ _. apply balanced_lift; intros p _.
  intros h. rewrite sbind_run. pose proof (ffi_decrypt_run malloc x p rsk spk h) as Hc.
  destruct (nxms_ms_verify_decrypt _ _ _ _ _ _ _ _) as [m|]; [|by rewrite Hc]. destruct Hc as (q & h' & -> & Hq & Hh).
  destruct Hh as [_ _ _ Hr Hd Hbad]. apply Forall_cons in Hr as [(b & Hb & Hn) _].
  rewrite (take_run _ _ _ _ _ _ Hq Hb Hn). cbn [map drop_all foldl fst] in *. rewrite Hd, Hbad. by destruct h.
Qed.

Lemma generate_balanced kem_coins falcon_coins :
  balanced (generate fresh junk kem_keygen falcon_keygen b64_encode kem_coins falcon_coins).
Proof.
  intros h. unfold generate. rewrite sbind_run. pose proof (kem_keygen_run kem_coins h) as Hk.
  destruct (kem_keygen kem_coins) as [[pk sk]|]; [|by rewrite Hk].
  destruct Hk as (p1 & p2 & h2 & -> & [_ _ [Hnd Ho] Hr Hd Hb]). cbn [map fst] in *. apply Forall_cons in Hr as [R1 Hr]. apply Forall_cons in Hr as [R2 _].
  assert (Hfree : free_all [p2; p1] h2 = (h, Ok tt)).
  { rewrite free_all_run.
    - cbn [drop_all foldl] in *. rewrite delete_delete, Hd, Hb. by destruct h.
    - split; [by apply (NoDup_Permutation_proper _ _ (perm_swap p1 p2 []))|].
      intros q Hq. apply Ho. apply elem_of_cons in Hq as [->| ->%list_elem_of_singleton]; rewrite !elem_of_cons; auto. }
  pose proof (borrow_run (p1, len pk) NXMS_MIN_KEM_BYTES NXMS_MAX_KEM_PK_LEN "kem pk" h2 R1) as B1.
  pose proof (borrow_run (p2, len sk) NXMS_MIN_KEM_BYTES NXMS_MAX_KEM_SK_LEN "kem sk" h2 R2) as B2.
  cbn [fst snd] in B1, B2. rewrite sbind_run. unfold or_cleanup. rewrite sbind_run.
  destruct (copy_raw_borrowed_checked p1 _ _ _ _ h2) as [h3 [pk'|e]]; simpl in B1; subst h3; [|by rewrite Hfree].
  rewrite sbind_run. destruct (copy_raw_borrowed_checked p2 _ _ _ _ h2) as [h3 [sk'|e]]; simpl in B2; subst h3; [|by rewrite Hfree].
  unfold sbind at 1, slift. destruct (ok_or _ _); unfold sret; [rewrite sbind_run|]; by rewrite Hfree.
Qed.


(** ** Messages *)

(** What sealing returns is the packet of the native library, field by field. *)
Definition packet_b64 (p : Packet) : SealedPacket :=
  MkSealed (b64_encode (pk_kem_ct p)) (b64_encode (pk_nonce p)) (b64_encode (pk_ciphertext p)) (b64_encode (pk_tag p))
    (b64_encode (pk_sig p)).

Lemma encrypt_ok malloc coins x pk sk plaintext h h' s :
  seal_message malloc coins x pk sk plaintext h = (h', Ok s) ->
  exists p, nxms_ms_encrypt_packet shake kem_encaps falcon_sign malloc coins x pk sk plaintext = Some p
    /\ cstrings x = Ok tt /\ s = packet_b64 p /\ is_empty (pk_sig p) = false.
Proof.
  unfold encrypt. intros He. do 3 (apply sbind_ok in He as (? & [] & [= <- ?] & He)).
  rewrite sbind_run in He.
  destruct (ffi_encrypt_run malloc coins x pk sk plaintext h) as [E|(p & a & b & c & d & e & h1 & Ep & E & Hh)]; rewrite E in He; [done|].
  destruct (seal_inv _ _ _ _ _ _ _ _ _ _ Ep) as (ss & ke & km & S). destruct S.
  destruct Hh as [Hv Hl Ho Hr _ _]. destruct (take_outputs_run a b c d e h1 Ho Hr) as (r & Er & Hok).
  cbn [map] in Hv, Hl. injection Hv as Va Vb Vc Vd Ve. injection Hl as La Lb Lc Ld Le.
  apply andb_true_iff in se_ct as [_ Hct%Z.leb_le].
  assert (Hp : r = Ok p).
  { rewrite Hok; [by rewrite Va, Vb, Vc, Vd, Ve; destruct p|rewrite ?La, ?Lb, ?Lc, ?Ld, ?Le..]; [done| |..].
    - by rewrite se_nonce.
    - rewrite se_cipher, len_keystream. done.
    - by rewrite (len_tag _ _ _ _ _ _ se_tag).
    - done. }
  rewrite sbind_run, Er, Hp in He. apply sbind_ok in He as (? & [] & [= <- _] & He).
  apply sbind_ok in He as (? & [] & [= <- _] & He). apply sbind_ok in He as (? & [] & [= <- Hs] & He).
  injection He as _ <-. exists p. apply fail_if_ok in Hs. done.
Qed.

(** Opening is decoding and then the native library. *)
Lemma decrypt_run malloc x s rsk spk h :
  (open_message malloc x s rsk spk h).2 =
  if px_seq x =? 0 then Err CSeqZero else
  match cstrings x with Err e => Err e | Ok _ =>
  match decode_sealed b64_decode s with Err e => Err e | Ok p =>
  match nxms_ms_verify_decrypt shake kem_decaps falcon_verify malloc x p rsk spk with
  | None => Err CDecryptFailed
  | Some m => if NXMS_MAX_PAYLOAD <? len m then Err (CTooLong "plaintext") else Ok m
  end end end.
Proof.
  unfold decrypt. rewrite sbind_run. unfold slift at 1, fail_if. destruct (px_seq x =? 0); [done|].
  rewrite sbind_run. unfold slift at 1. destruct (cstrings x) as [[]|e]; [|done].
  rewrite sbind_run. unfold slift at 1. destruct (decode_sealed b64_decode s) as [p|e]; [|done]. rewrite sbind_run.
  pose proof (ffi_decrypt_run malloc x p rsk spk h) as Hc.
  destruct (nxms_ms_verify_decrypt _ _ _ _ _ _ _ _) as [m|]; [|by rewrite Hc]. destruct Hc as (q & h' & -> & Hq & [Hv _ _ Hr _ _]).
  apply Forall_cons in Hr as [(b & Hb & Hn) _].
  rewrite (take_run _ _ _ _ _ _ Hq Hb Hn). cbn [snd fst].
  cbn [map] in Hv. unfold content in Hv. cbn [fst snd] in Hv, Hb. rewrite Hb in Hv. cbn [from_option] in Hv. unfold id in Hv.
  injection Hv as ->. done.
Qed.

Lemma cstrings_free x : cstrings x = Ok tt -> nul_free (px_sender x) /\ nul_free (px_to x) /\ nul_free (px_msg_type x).
Proof. unfold cstrings, cstring, nul_free, free_of. intros Hc. rok. by rewrite !negb_false_iff in *. Qed.

(** [escrow_id: &[u8; 16]], [seq: u64] *)
Definition context_typed (x : PacketContext) : Prop := len (px_escrow x) = 16 /\ 0 <= px_seq x < 2 ^ 64.
Lemma context_typed_ok x : context_typed x -> cstrings x = Ok tt -> context_ok x.
Proof. intros [H1 H2] (Ha & Hb & Hc)%cstrings_free. unfold context_ok. tauto. Qed.

Section base64.
Context (Hb64 : forall s, b64_decode (b64_encode s) = Some s).
Context (Hb64_len : forall s, len (b64_encode s) = (len s + 2) / 3 * 4).

Lemma b64_input_ok v label max : 0 <= max < 2 ^ 60 -> len v <= max -> validate_b64_input_len (b64_encode v) label max = Ok tt.
Proof.
  intros Hm Hv. unfold validate_b64_input_len, max_b64_len_for_decoded, need.
  assert (0 <= (max + 2) / 3 <= max + 2) by (split; [apply Z.div_pos; lia|apply Z.div_le_upper_bound; lia]).
  rewrite !(proj2 (Z.leb_le _ _)) by (unfold U64_MAX; lia). cbn [ok_or rbind]. unfold fail_if.
  rewrite Hb64_len, (proj2 (Z.ltb_ge _ _)); [done|]. apply Z.mul_le_mono_nonneg_r; [lia|]. apply Z.div_le_mono; lia.
Qed.

Lemma decode_encoded p :
  between NXMS_MIN_KEM_BYTES NXMS_MAX_KEM_CT_LEN (len (pk_kem_ct p)) = true -> len (pk_nonce p) = 24 ->
  len (pk_ciphertext p) <= NXMS_MAX_PAYLOAD -> len (pk_tag p) = 32 -> is_empty (pk_sig p) = false ->
  len (pk_sig p) <= FF_FALCON_SIG_MAX -> decode_sealed b64_decode (packet_b64 p) = Ok p.
Proof.
  intros Hk Hn Hc Ht Hs1 Hs2. pose proof Hk as Hk'. apply andb_true_iff in Hk' as [_ Hk'%Z.leb_le].
  unfold decode_sealed, packet_b64.
  cbn [sp_kem_ct_b64 sp_nonce_b64 sp_ciphertext_b64 sp_tag_b64 sp_sig_b64]. unfold NXMS_MAX_KEM_CT_LEN, NXMS_MAX_PAYLOAD,
    NXMS_NONCE_LEN, FF_FALCON_SIG_MAX in *.
  rewrite !b64_input_ok by (rewrite ?Hn, ?Ht; unfold NXMS_TAG_LEN; lia). cbn [rbind]. rewrite !Hb64. cbn [ok_or rbind].
  unfold fail_if. rewrite Hk, Hn, Ht, Hs1. cbn [negb]. rewrite !(proj2 (Z.ltb_ge _ _)) by done. cbn. by destruct p.
Qed.

Lemma message_roundtrip_aux malloc malloc' coins x pk sk plaintext rsk spk h h' h2 s
    (Hm : forall t, malloc' t = true)
    (Hrsk : between NXMS_MIN_KEM_BYTES NXMS_MAX_KEM_SK_LEN (len rsk) = true)
    (Hspk : between 1 NXMS_MAX_SIG_PK_LEN (len spk) = true)
    (Hkem : forall r ct ss, kem_encaps pk r = Some (ct, ss) -> kem_decaps rsk ct = Some ss)
    (Hsig : forall msg r sig, falcon_sign sk msg r = Some sig -> falcon_verify spk msg sig = true /\ sig <> EmptyString)
    (Hseal : seal_message malloc coins x pk sk plaintext h = (h', Ok s)) :
  open_message malloc' x s rsk spk h2 = (h2, Ok plaintext).
Proof.
  apply encrypt_ok in Hseal as (p & Hp & Hc & -> & Hs).
  pose proof (packet_roundtrip _ _ kem_decaps _ falcon_verify _ malloc' _ _ _ _ _ _ rsk spk Hm Hrsk Hspk Hkem Hsig Hp) as Hopen.
  destruct (seal_inv _ _ _ _ _ _ _ _ _ _ Hp) as (ss & ke & km & S). destruct S.
  pose proof (decrypt_balanced malloc' x (packet_b64 p) rsk spk h2) as Hb.
  pose proof (decrypt_run malloc' x (packet_b64 p) rsk spk h2) as Hr.
  destruct (open_message malloc' x (packet_b64 p) rsk spk h2) as [h3 r]. cbn [fst snd] in Hb, Hr. subst h3. f_equal. rewrite Hr.
  rewrite (proj2 (Z.eqb_neq _ _) se_seq), Hc, decode_encoded, Hopen; try done.
  - by rewrite (proj2 (Z.ltb_ge _ _)).
  - by rewrite se_cipher, len_keystream.
  - by eapply len_tag.
Qed.

(** A sealed message opens to its payload for the recipient, under the same
    context: KEM and signature are correct, base64 decodes what it encodes. *)
Theorem message_roundtrip malloc malloc' coins x pk sk plaintext rsk spk h h' h2 s
    (Hm : forall t, malloc' t = true)
    (Hrsk : between NXMS_MIN_KEM_BYTES NXMS_MAX_KEM_SK_LEN (len rsk) = true)
    (Hspk : between 1 NXMS_MAX_SIG_PK_LEN (len spk) = true)
    (Hkem : forall r ct ss, kem_encaps pk r = Some (ct, ss) -> kem_decaps rsk ct = Some ss)
    (Hsig : forall msg r sig, falcon_sign sk msg r = Some sig -> falcon_verify spk msg sig = true /\ sig <> EmptyString)
    (Hseal : seal_message malloc coins x pk sk plaintext h = (h', Ok s)) :
  open_message malloc' x s rsk spk h2 = (h2, Ok plaintext).
Proof. by eapply message_roundtrip_aux. Qed.
End base64.

Lemma message_authentic_aux malloc x s rsk spk sk rpk (calls : list Call) m h h'
    (Hx : context_typed x)
    (Hcalls : forall c, c ∈ calls -> context_typed (ca_context c) /\ cstrings (ca_context c) = Ok tt
      /\ sealed_call shake kem_encaps falcon_sign sk c)
    (Hforge : forall msg sig, falcon_verify spk msg sig = true -> exists c, c ∈ calls /\ call_message shake c = msg)
    (Hkem : forall r ct ss, kem_encaps rpk r = Some (ct, ss) -> kem_decaps rsk ct = Some ss)
    (Hopen : open_message malloc x s rsk spk h = (h', Ok m)) :
  exists c, c ∈ calls /\ ca_context c = x /\
    (m = ca_plaintext c \/ (exists p, decode_sealed b64_decode s = Ok p /\ pk_kem_ct p <> pk_kem_ct (ca_packet c)
       /\ shake_hash32 shake (pk_kem_ct p) = shake_hash32 shake (pk_kem_ct (ca_packet c))) \/ tag_clash shake kem_encaps kem_decaps rsk rpk c).
Proof.
  pose proof (decrypt_run malloc x s rsk spk h) as Hr. rewrite Hopen in Hr. cbn [snd] in Hr.
  destruct (px_seq x =? 0); [done|]. destruct (cstrings x) as [[]|] eqn:Hc; [|done].
  destruct (decode_sealed b64_decode s) as [p|]; [|done].
  destruct (nxms_ms_verify_decrypt _ _ _ _ _ _ _ _) as [m'|] eqn:Ho; [|done]. destruct (_ <? _); [done|]. injection Hr as <-.
  destruct (packet_authentic shake kem_encaps kem_decaps falcon_sign falcon_verify malloc x p rsk spk sk rpk calls m)
    as (c & Hin & Hcx & _ & _ & _ & Hor); [by apply context_typed_ok| |done..|].
  { intros c Hin. destruct (Hcalls c Hin) as (? & ? & ?). split; [by apply context_typed_ok|done]. }
  exists c. split; [done|]. split; [done|]. destruct Hor as [[_ ->]|[[Hne Hh]|Hcl]]; [by left|right; left|by right; right]. by exists p.
Qed.

(** Only what the peer sealed for this context opens: when every signature
    that verifies under its key was made in one of its calls, an opened message
    was sealed by a call with the same sender, recipient, type, escrow and
    sequence number, and it is the payload of that call, unless the hash of the
    KEM ciphertext collides or a call for another recipient has a tag that also
    verifies for this one. *)
Theorem message_authentic malloc x s rsk spk sk rpk (calls : list Call) m h h'
    (Hx : context_typed x)
    (Hcalls : forall c, c ∈ calls -> context_typed (ca_context c) /\ cstrings (ca_context c) = Ok tt
      /\ sealed_call shake kem_encaps falcon_sign sk c)
    (Hforge : forall msg sig, falcon_verify spk msg sig = true -> exists c, c ∈ calls /\ call_message shake c = msg)
    (Hkem : forall r ct ss, kem_encaps rpk r = Some (ct, ss) -> kem_decaps rsk ct = Some ss)
    (Hopen : open_message malloc x s rsk spk h = (h', Ok m)) :
  exists c, c ∈ calls /\ ca_context c = x /\
    (m = ca_plaintext c \/ (exists p, decode_sealed b64_decode s = Ok p /\ pk_kem_ct p <> pk_kem_ct (ca_packet c)
       /\ shake_hash32 shake (pk_kem_ct p) = shake_hash32 shake (pk_kem_ct (ca_packet c))) \/ tag_clash shake kem_encaps kem_decaps rsk rpk c).
Proof. by eapply message_authentic_aux. Qed.
End theorems.

(** ** Secret files *)

Section secrets.
Context (io : io_op -> string -> bool) (partial : string -> string) (umask : Z) (pid : Z).

Lemma owner_only umask' : group_or_other (Z.land MODE_600 umask') = false.
Proof.
  unfold group_or_other, MODE_600. rewrite <- !Z.land_assoc, (Z.land_comm umask'), !Z.land_assoc.
  change (Z.land (Z.land 384 511) 63) with 0. by rewrite Z.land_0_l.
Qed.

(** A file that only its owner can touch. *)
Definition private (o : option file) : Prop := match o with Some f => group_or_other (f_mode f) = false | None => True end.

(** What may be seen at any time while [path] is replaced. *)
Record writing (path tmp data : string) (f g : fs) : Prop := Writing {
  wr_path : g !! path = f !! path \/ exists m, g !! path = Some (File true m data) /\ group_or_other m = false;
  wr_tmp : g !! tmp = f !! tmp \/ private (g !! tmp);
  wr_others : forall q, q <> path -> q <> tmp -> g !! q = f !! q;
}.

Lemma writing_tmp path tmp data f g m b :
  tmp <> path -> group_or_other m = false -> writing path tmp data f g -> writing path tmp data f (<[tmp := File true m b]> g).
Proof.
  intros Ht Hm [W1 W2 W3]. constructor.
  - by rewrite lookup_insert_ne.
  - right. by rewrite lookup_insert_eq.
  - intros q H1 H2. rewrite lookup_insert_ne by done. by apply W3.
Qed.
Lemma writing_drop path tmp data f g : tmp <> path -> writing path tmp data f g -> writing path tmp data f (delete tmp g).
Proof.
  intros Ht [W1 W2 W3]. constructor.
  - by rewrite lookup_delete_ne.
  - right. by rewrite lookup_delete_eq.
  - intros q H1 H2. rewrite lookup_delete_ne by done. by apply W3.
Qed.
Lemma writing_path path tmp data f g m :
  tmp <> path -> group_or_other m = false -> writing path tmp data f g -> writing path tmp data f (<[path := File true m data]> g).
Proof.
  intros Ht Hm [W1 W2 W3]. constructor.
  - right. exists m. by rewrite lookup_insert_eq.
  - by rewrite lookup_insert_ne.
  - intros q H1 H2. rewrite lookup_insert_ne by done. by apply W3.
Qed.

Lemma write_secret_run path data f f' r :
  secret_temp_path pid path <> path -> write_secret_file io partial umask pid path data f = (f', r) ->
  writing path (secret_temp_path pid path) data f f' /\ (r = Ok tt -> f' !! path = Some (File true MODE_600 data)).
Proof.
  intros Htmp. set (tmp := secret_temp_path pid path) in *. set (m0 := Z.land MODE_600 (Z.lnot umask)).
  assert (Hm0 : group_or_other m0 = false) by apply owner_only.
  assert (W0 : writing path tmp data f f) by (constructor; auto).
  assert (Ha : forall (g : fs) b, alter (fun x => File (f_regular x) (f_mode x) b) tmp (<[tmp := File true m0 EmptyString]> g)
    = <[tmp := File true m0 b]> g).
  { intros g b. apply map_eq. intros q. destruct (decide (q = tmp)) as [->|Hq];
      [by rewrite lookup_alter_eq, !lookup_insert_eq|by rewrite lookup_alter_ne, !lookup_insert_ne]. }
  unfold write_secret_file. fold tmp. rewrite sbind_run.
  assert (exists r0, (if has_dir path then must io IoMkdir path else sret tt) f = (f, r0)) as [[[]|e] ->];
    [destruct (has_dir path); by eexists| |by intros [= <- <-]].
  rewrite sbind_run. unfold smodify at 1. set (g := if io IoRemove tmp then delete tmp f else f).
  assert (Wg : writing path tmp data f g) by (unfold g; destruct (io IoRemove tmp); [by apply writing_drop|done]).
  clearbody g. rewrite sbind_run. unfold fs_create_new at 1, sbind at 1 2, sget, slift at 1, smodify at 1, fail_if.
  destruct (bool_decide _ || _); [by intros [= <- <-]|]. fold m0. rewrite sbind_run. unfold fs_write_all.
  cbv zeta.
  destruct (io IoWrite tmp); [unfold smodify at 1; rewrite Ha|].
  2:{ rewrite sbind_run. unfold smodify at 1. rewrite Ha. intros [= <- <-]. split; [by apply writing_tmp|done]. }
  rewrite sbind_run. unfold must at 1, slift, fail_if.
  destruct (io IoSync tmp); cbn [negb]; [|intros [= <- <-]; split; [by apply writing_tmp|done]].
  rewrite sbind_run. unfold fs_rename, must, sbind at 1, slift, smodify, fail_if.
  destruct (io IoRename path); cbn [negb]; [|intros [= <- <-]; split; [by apply writing_tmp|done]].
  rewrite lookup_insert_eq.
  assert (W3 : forall m, group_or_other m = false -> writing path tmp data f (<[path := File true m data]> (delete tmp (<[tmp := File true m0 data]> g))))
    by (intros m Hm; apply writing_path; [done..|]; by apply writing_drop, writing_tmp).
  unfold fs_chmod, must, sbind, slift, smodify, fail_if.
  destruct (io IoChmod path); cbn [negb]; [|intros [= <- <-]; split; [by apply W3|done]].
  intros [= <- <-]. rewrite alter_insert_eq. cbn [f_regular f_bytes]. split; [by apply W3|]. intros _. apply lookup_insert_eq.
Qed.

Lemma secret_reads_back path data f :
  io IoOpen path = true -> f !! path = Some (File true MODE_600 data) -> read_secret_file io path f = (f, Ok data).
Proof. intros Hio Hf. unfold read_secret_file, fs_read, must, sbind, sget, slift, sret, fail_if. by rewrite Hio, Hf. Qed.

(** C31. Secrets are private and whole: whatever fails while a secret file is
    written, the file is the old one or has all of the new data and an owner-only
    mode, a temporary file that is left has an owner-only mode too, and no other
    file changes; after success the secret is there and reads back. *)
Theorem secret_write_private path data f f' r
    (Htmp : secret_temp_path pid path <> path)
    (Hw : write_secret_file io partial umask pid path data f = (f', r)) :
  (f' !! path = f !! path \/ exists m, f' !! path = Some (File true m data) /\ group_or_other m = false)
  /\ (f' !! secret_temp_path pid path = f !! secret_temp_path pid path \/ private (f' !! secret_temp_path pid path))
  /\ (forall q, q <> path -> q <> secret_temp_path pid path -> f' !! q = f !! q)
  /\ (r = Ok tt -> f' !! path = Some (File true MODE_600 data)
      /\ (io IoOpen path = true -> read_secret_file io path f' = (f', Ok data))).
Proof.
  destruct (write_secret_run _ _ _ _ _ Htmp Hw) as [[W1 W2 W3] Hok]. split_and!; [done..|].
  intros Hr. specialize (Hok Hr). split; [done|]. intros Hio. by apply secret_reads_back.
Qed.
End secrets.

(** ** Concrete runs *)

(** An allocator: one above the largest address in use. *)
Definition next_addr (m : gmap Z string) : Z := 1 + foldr Z.max 0 (map fst (map_to_list m)).
Lemma next_addr_fresh m : m !! next_addr m = None /\ next_addr m <> null.
Proof.
  assert (Hmax : forall l k, k ∈ l -> k <= foldr Z.max 0 l).
  { induction l as [|a l IH]; intros k; [by intros ?%elem_of_nil|]. cbn [foldr].
    intros [->|Hk]%elem_of_cons; [lia|]. specialize (IH k Hk). lia. }
  assert (Hpos : forall l, 0 <= foldr Z.max 0 l) by (induction l; cbn [foldr]; lia).
  unfold next_addr, null. split; [|specialize (Hpos (map fst (map_to_list m))); lia].
  destruct (m !! _) as [b|] eqn:E; [|done]. exfalso. apply elem_of_map_to_list in E.
  assert (Hk : 1 + foldr Z.max 0 (map fst (map_to_list m)) ∈ map fst (map_to_list m)).
  { apply list_elem_of_fmap. eexists (_, _). split; [|exact E]. reflexivity. }
  apply Hmax in Hk. lia.
Qed.

Definition toy_junk (n : nat) : string := repeat_byte "?" n.
(** A code with the lengths of base64: the text, padding, and how many bytes the
    last group of three lacks. *)
Definition toy_b64 (s : string) : string :=
  match s with
  | EmptyString => EmptyString
  | _ =>
      let n := String.length s in let q := ((n + 2) / 3)%nat in
      s +:+ repeat_byte "=" (4 * q - n - 1) +:+ String (Ascii.ascii_of_nat (3 * q - n)) EmptyString
  end.
Definition toy_b64_decode (t : string) : option string :=
  let q := (String.length t / 4)%nat in
  let r := match sdrop (4 * q - 1) t with String c _ => Ascii.nat_of_ascii c | EmptyString => O end in
  Some (stake (3 * q - r) t).

Lemma toy_groups n q : (1 <= n)%nat -> q = ((n + 2) / 3)%nat -> (1 <= q /\ 3 * q - 2 <= n <= 3 * q)%nat.
Proof.
  intros Hn ->. pose proof (Nat.div_mod_eq (n + 2) 3). pose proof (Nat.mod_upper_bound (n + 2) 3). lia.
Qed.
Lemma toy_b64_length s : s <> EmptyString ->
  String.length (toy_b64 s) = (4 * ((String.length s + 2) / 3))%nat.
Proof.
  intros Hs. destruct s as [|c s]; [done|]. unfold toy_b64. cbv zeta. set (n := String.length (String c s)).
  destruct (toy_groups n _ ltac:(subst n; cbn; lia) eq_refl) as [H1 H2].
  rewrite !length_sapp, length_repeat_byte. fold n. cbn [String.length]. lia.
Qed.
Lemma toy_b64_len s : len (toy_b64 s) = (len s + 2) / 3 * 4.
Proof.
  destruct s as [|c s]; [done|]. unfold len. rewrite toy_b64_length by done.
  rewrite Nat2Z.inj_mul, Nat2Z.inj_div, Nat2Z.inj_add. lia.
Qed.
Lemma toy_b64_decodes s : toy_b64_decode (toy_b64 s) = Some s.
Proof.
  destruct s as [|c s]; [done|]. unfold toy_b64_decode. rewrite toy_b64_length by done.
  rewrite (Nat.mul_comm 4), Nat.div_mul by done. unfold toy_b64. cbv zeta. set (t := String c s). set (n := String.length t).
  destruct (toy_groups n _ ltac:(subst n t; cbn; lia) eq_refl) as [H1 H2]. set (q := ((n + 2) / 3)%nat) in *.
  rewrite <- (sapp_assoc t), sdrop_app by (rewrite length_sapp, length_repeat_byte; fold n; lia).
  rewrite Ascii.nat_ascii_embedding by lia. rewrite sapp_assoc, stake_app; [done|]. fold n. lia.
Qed.

Definition empty_heap : heap := Heap ∅ false.

(** The allocation of the signature message fails while five blocks of the call are in use;
    and five outputs with a nonce that is too long, beside another block. *)
Definition no_sig_message (s : site) : bool := match s with SSigMsg => false | _ => true end.
Definition outputs_heap : heap :=
  Heap (<[1 := "ct"%string]> (<[2 := repeat_byte "n" 25]> (<[3 := "c"%string]> (<[4 := "t"%string]> (<[5 := "s"%string]> (<[6 := "other"%string]> ∅)))))) false.

Definition ok_io (_ : io_op) (_ : string) : bool := true.
Lemma secret_write_private_witness :
  let f' := (write_secret_file ok_io (fun s => s) 18 7 "vault/keys.json" "secret" ∅).1 in
  f' !! "vault/keys.json"%string = Some (File true MODE_600 "secret")
  /\ read_secret_file ok_io "vault/keys.json" f' = (f', Ok "secret"%string).
Proof.
  intros f'. assert (H := secret_write_private ok_io (fun s => s) 18 7 "vault/keys.json" "secret" ∅ f' (Ok tt)
    ltac:(vm_compute; discriminate) ltac:(vm_compute; reflexivity)).
  destruct H as (_ & _ & _ & H). destruct (H eq_refl) as [H1 H2]. split; [exact H1|apply H2; reflexivity].
Defined.

Definition demo_sealed : SealedPacket := packet_b64 toy_b64 toy_packet.

Lemma message_roundtrip_witness :
  encrypt next_addr toy_junk toy_shake toy_encaps1 toy_sign toy_b64 (fun _ => true) toy_coins toy_context toy_key "sk" "hello"
    empty_heap = (empty_heap, Ok demo_sealed)
  /\ decrypt next_addr toy_junk toy_shake toy_decaps toy_verify toy_b64_decode (fun _ => true) toy_context demo_sealed toy_key "pk"
       empty_heap = (empty_heap, Ok "hello"%string).
Proof.
  split; [vm_compute; reflexivity|].
  apply (message_roundtrip next_addr toy_junk toy_shake toy_encaps1 toy_decaps toy_sign toy_verify toy_b64 toy_b64_decode
    next_addr_fresh toy_b64_decodes toy_b64_len (fun _ => true) (fun _ => true) toy_coins toy_context toy_key "sk" "hello" toy_key "pk"
    empty_heap empty_heap empty_heap demo_sealed).
  - reflexivity.
  - vm_compute; reflexivity.
  - vm_compute; reflexivity.
  - intros r ct ss H. exact (toy_kem "r" ct ss H eq_refl).
  - intros msg r sig [= <-]. split; [apply String.eqb_refl|discriminate].
  - vm_compute; reflexivity.
Defined.

Lemma message_authentic_witness :
  exists c, c ∈ [MkCall toy_context toy_key "hello" toy_packet] /\ ca_context c = toy_context.
Proof.
  destruct (message_authentic next_addr toy_junk toy_shake toy_encaps1 toy_decaps toy_sign toy_verify_one toy_b64_decode next_addr_fresh
    (fun _ => true) toy_context demo_sealed toy_key "pk" "sk" toy_key [MkCall toy_context toy_key "hello" toy_packet] "hello"
    empty_heap empty_heap) as (c & Hc & Hx & _).
  - split; vm_compute; [reflexivity|split; [discriminate|reflexivity]].
  - intros c ->%list_elem_of_singleton. split; [split; vm_compute; [reflexivity|split; [discriminate|reflexivity]]|].
    split; [vm_compute; reflexivity|]. exists (fun _ => true), toy_coins. vm_compute. reflexivity.
  - intros msg sig [H%String.eqb_eq _]%andb_true_iff. eexists. split; [by apply list_elem_of_singleton|]. by rewrite H.
  - intros r ct ss H. exact (toy_kem "r" ct ss H eq_refl).
  - vm_compute. reflexivity.
  - exists c. split; [exact Hc|exact Hx].
Defined.
