(* ===== verification/SecureChannel.v ===== *)
(** * Secure channels and the node

    [crates/nxms-transport/src/tor_net.rs] (frames), [p2p.rs] (the channel) and
    the node of [src/lib.rs] and [src/main.rs].  A connection is the bytes still to
    be read and the bytes written; a read past the end is the end of the stream or
    a timeout.  Sealing and opening are those of [crypto.rs] on the native heap. *)

From S2P Require Import Prelude RustString Bytes Packet PacketProps TransportCrypto TransportCryptoProps.

Inductive ChannelError : Type :=
| FrameLimitZero | FrameLimitTooLarge | FrameLength (n : Z) | FrameTooLarge
| ReadFailed | WriteFailed | WireJson | PayloadJson | Crypto (e : CryptoError)
| ExpectedMessage (expected got : string) | UnknownPeer | SocksScheme | SocksUrl | SocksPort.

(** ** Frames, [tor_net.rs] *)

Definition DEFAULT_FRAME_MAX_LEN : Z := 24 * 1024 * 1024.
Definition ABSOLUTE_FRAME_MAX_LEN : Z := 64 * 1024 * 1024.

Record conn : Type := MkConn { cn_in : string; cn_out : string }.

Definition validate_frame_limit (max_len : Z) : result ChannelError Z :=
  let? _ := fail_if (max_len =? 0) FrameLimitZero in
  let? _ := fail_if (ABSOLUTE_FRAME_MAX_LEN <? max_len) FrameLimitTooLarge in
  Ok max_len.

Definition read_exact (n : nat) : M conn ChannelError string := fun c =>
  if (n <=? String.length (cn_in c))%nat then (MkConn (sdrop n (cn_in c)) (cn_out c), Ok (stake n (cn_in c)))
  else (MkConn EmptyString (cn_out c), Err ReadFailed).
Definition read_frame (max_len : Z) : M conn ChannelError string :=
  let* max_len := slift (validate_frame_limit max_len) in
  let* len_buf := read_exact 4 in
  let n := be_value len_buf in
  let* _ := slift (fail_if ((n =? 0) || (max_len <? n)) (FrameLength n)) in
  read_exact (Z.to_nat n).
Definition read_frame_default : M conn ChannelError string := read_frame DEFAULT_FRAME_MAX_LEN.

Definition parse_timeout (env : string -> option string) (key : string) (max default_secs : Z) : Z :=
  match env key with
  | Some v => match parse_u64 v with Some n => if (0 <? n) && (n <=? max) then n else default_secs | None => default_secs end
  | None => default_secs
  end.
Definition tor_connect_timeout (env : string -> option string) : Z := parse_timeout env "NXMS_TOR_CONNECT_TIMEOUT_SECS" 300 20.
Definition tor_read_timeout (env : string -> option string) : Z := parse_timeout env "NXMS_TOR_READ_TIMEOUT_SECS" 300 30.

(** [str::split(':')] *)
Fixpoint split_on (c : ascii) (fuel : nat) (s : string) : list string :=
  match fuel with
  | O => [s]
  | S f => match split_once c s with Some (a, b) => a :: split_on c f b | None => [s] end
  end.
Definition parse_socks_url (url : string) : result ChannelError (string * Z) :=
  let? url := ok_or (strip_prefix "socks5h://" (trim url)) SocksScheme in
  match split_on ":" (String.length url) url with
  | host :: port :: _ =>
      let? p := ok_or (parse_u64 port) SocksPort in
      let? _ := fail_if (65535 <? p) SocksPort in
      Ok (host, p)
  | _ => Err SocksUrl
  end.

(** ** Channels, [p2p.rs] *)

Record Channel : Type := MkChannel {
  ch_conn : conn; ch_keys : Keys; ch_peer_kem_pk : string; ch_peer_sig_pk : string; ch_send_seq : Z; ch_recv_seq : Z; ch_heap : heap }.
Definition new_channel (c : conn) (keys : Keys) (peer_kem_pk peer_sig_pk : string) (h : heap) : Channel :=
  MkChannel c keys peer_kem_pk peer_sig_pk 1 1 h.
Definition our_id : string := "local".
Definition peer_id : string := "peer".
Definition channel_escrow_id : string := repeat_byte nul 16.
Definition channel_context (msg_type : string) (seq : Z) : PacketContext := MkContext our_id peer_id msg_type channel_escrow_id seq.
Definition next_seq (n : Z) : Z := (n + 1) mod 2 ^ 64.

Section channel.
(** Which writes succeed. *)
Context (write_ok : string -> bool) (partial : string -> string).
Context (fresh : gmap Z string -> Z) (junk : nat -> string) (shake : string -> nat -> ascii).
Context (kem_encaps : string -> string -> option (string * string)) (kem_decaps : string -> string -> option string).
Context (falcon_sign : string -> string -> string -> option string) (falcon_verify : string -> string -> string -> bool).
Context (b64_encode : string -> string) (b64_decode : string -> option string).
Context (sealed_to_vec : SealedPacket -> string) (sealed_from_slice : string -> option SealedPacket).

Definition write_all (data : string) : M conn ChannelError unit :=
  if write_ok data then smodify (fun c => MkConn (cn_in c) (cn_out c +:+ data))
  else let* _ := smodify (fun c => MkConn (cn_in c) (cn_out c +:+ partial data)) in sfail WriteFailed.
Definition write_frame (msg : string) : M conn ChannelError unit :=
  let* _ := slift (fail_if (U32_MAX <? len msg) FrameTooLarge) in
  let* _ := write_all (u32_be (len msg)) in
  write_all msg.

Notation CH := (M Channel ChannelError).
Definition with_conn {A} (m : M conn ChannelError A) : CH A := fun ch =>
  let '(c, r) := m (ch_conn ch) in
  (MkChannel c (ch_keys ch) (ch_peer_kem_pk ch) (ch_peer_sig_pk ch) (ch_send_seq ch) (ch_recv_seq ch) (ch_heap ch), r).
Definition with_heap {A} (m : Native A) : CH A := fun ch =>
  let '(h, r) := m (ch_heap ch) in
  (MkChannel (ch_conn ch) (ch_keys ch) (ch_peer_kem_pk ch) (ch_peer_sig_pk ch) (ch_send_seq ch) (ch_recv_seq ch) h, map_err Crypto r).
Definition set_send_seq (n : Z) (ch : Channel) : Channel :=
  MkChannel (ch_conn ch) (ch_keys ch) (ch_peer_kem_pk ch) (ch_peer_sig_pk ch) n (ch_recv_seq ch) (ch_heap ch).
Definition set_recv_seq (n : Z) (ch : Channel) : Channel :=
  MkChannel (ch_conn ch) (ch_keys ch) (ch_peer_kem_pk ch) (ch_peer_sig_pk ch) (ch_send_seq ch) n (ch_heap ch).

(** The number is used up before the frame is written. *)
Definition send (malloc : site -> bool) (coins : Coins) (msg_type payload : string) : CH unit :=
  let* ch := sget (fun c => c) in
  let* sk := slift (map_err Crypto (sig_sk b64_decode (ch_keys ch))) in
  let* sealed := with_heap (encrypt fresh junk shake kem_encaps falcon_sign b64_encode malloc coins
                              (channel_context msg_type (ch_send_seq ch)) (ch_peer_kem_pk ch) sk payload) in
  let* _ := smodify (fun c => set_send_seq (next_seq (ch_send_seq c)) c) in
  with_conn (write_frame (sealed_to_vec sealed)).

Definition recv (malloc : site -> bool) (msg_type : string) : CH string :=
  let* wire := with_conn read_frame_default in
  let* sealed := slift (ok_or (sealed_from_slice wire) WireJson) in
  let* ch := sget (fun c => c) in
  let* sk := slift (map_err Crypto (kem_sk b64_decode (ch_keys ch))) in
  let* plaintext := with_heap (decrypt fresh junk shake kem_decaps falcon_verify b64_decode malloc
                                 (channel_context msg_type (ch_recv_seq ch)) sealed sk (ch_peer_sig_pk ch)) in
  let* _ := smodify (fun c => set_recv_seq (next_seq (ch_recv_seq c)) c) in
  sret plaintext.

(** ** The node, [src/lib.rs] *)

Record PingPayload : Type := MkPing { pp_msg : string; pp_nonce : string }.
(** [PongPayload] has the same fields. *)
Context (ping_to_vec : PingPayload -> string) (ping_from_slice : string -> option PingPayload).

Definition run_responder (malloc : site -> bool) (coins : Coins) : CH unit :=
  let* data := recv malloc "PING" in
  let* ping := slift (ok_or (ping_from_slice data) PayloadJson) in
  let* _ := slift (fail_if (negb (pp_msg ping =? "PING")%string) (ExpectedMessage "PING" (pp_msg ping))) in
  send malloc coins "PONG" (ping_to_vec (MkPing "PONG" (pp_nonce ping))).

(** The answer is the bytes that arrived between the two steps. *)
Definition secure_ping (malloc : site -> bool) (coins : Coins) : CH PingPayload :=
  let* _ := send malloc coins "PING" (ping_to_vec (MkPing "PING" "1")) in
  let* pong_data := recv malloc "PONG" in
  slift (ok_or (ping_from_slice pong_data) PayloadJson).

(** ** The node's connections, [src/main.rs] *)

Record PeerKeys : Type := MkPeerKeys { pkx_id : string; pkx_kem : string; pkx_sig : string }.
(** The first peer whose key the packet verifies under. *)
Fixpoint identify (malloc : site -> bool) (sealed : SealedPacket) (sk : string) (peers : list PeerKeys)
    : CH (option (PeerKeys * string)) :=
  match peers with
  | [] => sret None
  | p :: peers' => fun ch =>
      match with_heap (decrypt fresh junk shake kem_decaps falcon_verify b64_decode malloc (channel_context "PING" 1) sealed sk (pkx_sig p)) ch with
      | (ch', Ok data) => (ch', Ok (Some (p, data)))
      | (ch', Err _) => identify malloc sealed sk peers' ch'
      end
  end.
Context (pong_json : string -> string -> option string).

Definition handle_connection (malloc : site -> bool) (coins : Coins) (peer_pubkeys : list PeerKeys) (node_id : string) : CH string :=
  let* wire := with_conn read_frame_default in
  let* sealed := slift (ok_or (sealed_from_slice wire) WireJson) in
  let* ch := sget (fun c => c) in
  let* sk := slift (map_err Crypto (kem_sk b64_decode (ch_keys ch))) in
  let* found := identify malloc sealed sk peer_pubkeys in
  let* identified := slift (ok_or found UnknownPeer) in
  let '(peer, data) := identified in
  let* pong := slift (ok_or (pong_json node_id data) PayloadJson) in
  let* ssk := slift (map_err Crypto (sig_sk b64_decode (ch_keys ch))) in
  let* sealed_pong := with_heap (encrypt fresh junk shake kem_encaps falcon_sign b64_encode malloc coins
                                   (channel_context "PONG" 1) (pkx_kem peer) ssk pong) in
  let* _ := with_conn (write_frame (sealed_to_vec sealed_pong)) in
  sret (pkx_id peer).
End channel.

(** ** The node's key files, [src/main.rs] *)

Section node_files.
Context (io : io_op -> string -> bool) (partial : string -> string) (umask_mode : Z).
Context (keys_pretty : Keys -> string) (keys_from_str : string -> option Keys) (identity_json : string -> Keys -> string).

Definition key_path (dir : string) : string := dir +:+ "/keys.json".
Definition identity_path (dir : string) : string := dir +:+ "/identity.json".
Definition write_identity (keys : Keys) (id dir : string) : M fs CryptoError unit :=
  let* _ := must io IoMkdir dir in
  let* _ := fs_write io partial umask_mode (key_path dir) (keys_pretty keys) in
  fs_write io partial umask_mode (identity_path dir) (identity_json id keys).
(** [generated]: what [Keys::generate] gave. *)
Definition gen_identity (generated : result CryptoError Keys) (id out_dir : string) : M fs CryptoError unit :=
  let* keys := slift generated in
  write_identity keys id out_dir.
Definition load_or_generate_keys (generated : result CryptoError Keys) (vault_dir node_id : string) : M fs CryptoError Keys := fun f =>
  match fs_read (E := CryptoError) io (key_path vault_dir) f with
  | (f1, Ok data) => (f1, ok_or (keys_from_str (f_bytes data)) CJson)
  | (f1, Err _) =>
      (let* keys := slift generated in
       let* _ := write_identity keys node_id vault_dir in
       sret keys) f1
  end.
End node_files.
