(* ===== verification/SecureChannelProps.v ===== *)
(** * Properties of channels

    Frames come back whole, every sealed message fits a frame, messages arrive in
    the order of sending, and what arrives was sent by the peer under this number
    and type. *)

From S2P Require Import Prelude RustString Bytes Packet PacketProps TransportCrypto TransportCryptoProps SecureChannel.

Lemma read_exact_app s t out : read_exact (String.length s) (MkConn (s +:+ t) out) = (MkConn t out, Ok s).
Proof.
  unfold read_exact. cbn [cn_in cn_out]. rewrite length_sapp, (proj2 (Nat.leb_le _ _)) by lia.
  by rewrite sdrop_app, stake_app.
Qed.

Definition frame (msg : string) : string := u32_be (len msg) +:+ msg.

(** A frame that was written is read back, and nothing behind it. *)
Lemma read_frame_app msg t out :
  1 <= len msg <= DEFAULT_FRAME_MAX_LEN -> read_frame_default (MkConn (frame msg +:+ t) out) = (MkConn t out, Ok msg).
Proof.
  intros Hl. unfold read_frame_default, read_frame. rewrite sbind_run. change (slift (validate_frame_limit DEFAULT_FRAME_MAX_LEN))
    with (sret (S := conn) (E := ChannelError) DEFAULT_FRAME_MAX_LEN). unfold sret. rewrite sbind_run.
  unfold frame. rewrite sapp_assoc.
  assert (H4 : String.length (u32_be (len msg)) = 4%nat) by (pose proof (len_u32_be (len msg)); unfold len in *; lia).
  rewrite <- H4 at 1. rewrite read_exact_app. cbv zeta. unfold DEFAULT_FRAME_MAX_LEN in *.
  rewrite be_value_u32 by lia. rewrite sbind_run. unfold slift, fail_if.
  rewrite (proj2 (Z.eqb_neq _ _)), (proj2 (Z.ltb_ge _ _)) by lia. cbn [orb]. unfold len. rewrite Nat2Z.id. apply read_exact_app.
Qed.

(** A frame is never longer than the reader's limit, and reading stops there. *)
Lemma read_frame_bound c c' msg : read_frame_default c = (c', Ok msg) -> 1 <= len msg <= DEFAULT_FRAME_MAX_LEN.
Proof.
  unfold read_frame_default, read_frame. rewrite sbind_run. change (slift (validate_frame_limit DEFAULT_FRAME_MAX_LEN))
    with (sret (S := conn) (E := ChannelError) DEFAULT_FRAME_MAX_LEN). unfold sret.
  intros H. apply sbind_ok in H as (c1 & b & H1 & H). cbv zeta in H.
  apply sbind_ok in H as (c2 & [] & H2 & H). unfold slift in H2. injection H2 as _ H2. apply fail_if_ok in H2.
  apply orb_false_iff in H2 as [H2 H3]. apply Z.eqb_neq in H2. apply Z.ltb_ge in H3.
  unfold read_exact in H. destruct (_ <=? _)%nat eqn:E; [|done]. injection H as _ <-. apply Nat.leb_le in E.
  assert (0 <= be_value b) by (unfold be_value; pose proof (le_value_bound (srev b)); lia).
  unfold len. rewrite length_stake. lia.
Qed.

Section channel.
Context (write_ok : string -> bool) (partial : string -> string).
Context (fresh : gmap Z string -> Z) (junk : nat -> string) (shake : string -> nat -> ascii).
Context (kem_encaps : string -> string -> option (string * string)) (kem_decaps : string -> string -> option string).
Context (falcon_sign : string -> string -> string -> option string) (falcon_verify : string -> string -> string -> bool).
Context (b64_encode : string -> string) (b64_decode : string -> option string).
Context (sealed_to_vec : SealedPacket -> string) (sealed_from_slice : string -> option SealedPacket).
Context (Hfresh : forall m, m !! fresh m = None /\ fresh m <> null).
Context (Hb64 : forall s, b64_decode (b64_encode s) = Some s) (Hb64_len : forall s, len (b64_encode s) = (len s + 2) / 3 * 4).
(** A packet within the limits of the native library. *)
Definition packet_fits (p : Packet) : Prop :=
  len (pk_kem_ct p) <= NXMS_MAX_KEM_CT_LEN /\ len (pk_nonce p) <= 24 /\ len (pk_ciphertext p) <= NXMS_MAX_PAYLOAD
  /\ len (pk_tag p) <= 32 /\ len (pk_sig p) <= FF_FALCON_SIG_MAX.
Definition sealed_fields (s : SealedPacket) : Z :=
  len (sp_kem_ct_b64 s) + len (sp_nonce_b64 s) + len (sp_ciphertext_b64 s) + len (sp_tag_b64 s) + len (sp_sig_b64 s).
(** The JSON of a packet, whose fields are base64, is the five fields and the text
    around them, and reads back. *)
Context (Hjson : forall p, packet_fits p -> sealed_from_slice (sealed_to_vec (packet_b64 b64_encode p)) = Some (packet_b64 b64_encode p)).
Context (Hjson_len : forall p, packet_fits p ->
  let s := packet_b64 b64_encode p in sealed_fields s < len (sealed_to_vec s) <= sealed_fields s + 128).

Notation send_on := (send write_ok partial fresh junk shake kem_encaps falcon_sign b64_encode b64_decode sealed_to_vec).
Notation recv_on := (recv fresh junk shake kem_decaps falcon_verify b64_decode sealed_from_slice).

Lemma b64_bound s max : len s <= max -> len (b64_encode s) <= (max + 2) / 3 * 4.
Proof. intros H. rewrite Hb64_len. apply Z.mul_le_mono_nonneg_r; [lia|]. apply Z.div_le_mono; lia. Qed.

(** Every message that can be sealed fits a frame. *)
Lemma sealed_fits malloc coins x pk sk payload h h' s :
  encrypt fresh junk shake kem_encaps falcon_sign b64_encode malloc coins x pk sk payload h = (h', Ok s) ->
  1 <= len (sealed_to_vec s) <= DEFAULT_FRAME_MAX_LEN /\ sealed_from_slice (sealed_to_vec s) = Some s.
Proof.
  intros He. destruct (encrypt_ok _ _ _ _ _ _ Hfresh _ _ _ _ _ _ _ _ _ He) as (p & Hp & _ & -> & _).
  destruct (seal_inv _ _ _ _ _ _ _ _ _ _ Hp) as (ss & ke & km & S). destruct S.
  apply andb_true_iff in se_ct as [_ Hct%Z.leb_le]. pose proof (len_tag _ _ _ _ _ _ se_tag) as Ht.
  assert (Hcl : len (pk_ciphertext p) <= NXMS_MAX_PAYLOAD) by (by rewrite se_cipher, len_keystream).
  assert (Hfits : packet_fits p) by (split_and!; [done|lia|done|lia|done]).
  split; [|by apply Hjson]. pose proof (Hjson_len p Hfits) as Hj. cbv zeta in Hj. unfold sealed_fields, packet_b64 in Hj.
  cbn [sp_kem_ct_b64 sp_nonce_b64 sp_ciphertext_b64 sp_tag_b64 sp_sig_b64] in Hj.
  pose proof (b64_bound _ _ Hct) as B1. pose proof (b64_bound (pk_nonce p) 24 ltac:(lia)) as B2. pose proof (b64_bound _ _ Hcl) as B3.
  pose proof (b64_bound (pk_tag p) 32 ltac:(lia)) as B4. pose proof (b64_bound _ _ se_sig_len) as B5.
  pose proof (len_nonneg (b64_encode (pk_kem_ct p))). pose proof (len_nonneg (b64_encode (pk_nonce p))).
  pose proof (len_nonneg (b64_encode (pk_ciphertext p))). pose proof (len_nonneg (b64_encode (pk_tag p))).
  pose proof (len_nonneg (b64_encode (pk_sig p))).
  change ((NXMS_MAX_KEM_CT_LEN + 2) / 3 * 4) with 43692 in B1. change ((24 + 2) / 3 * 4) with 32 in B2.
  change ((NXMS_MAX_PAYLOAD + 2) / 3 * 4) with 22369624 in B3. change ((32 + 2) / 3 * 4) with 44 in B4.
  change ((FF_FALCON_SIG_MAX + 2) / 3 * 4) with 5464 in B5. unfold packet_b64, DEFAULT_FRAME_MAX_LEN. lia.
Qed.

(** ** One message *)

Lemma write_frame_run msg c c' r :
  write_frame write_ok partial msg c = (c', r) -> r = Ok tt -> c' = MkConn (cn_in c) (cn_out c +:+ frame msg).
Proof.
  unfold write_frame, write_all. intros H ->. apply sbind_ok in H as (c1 & [] & H1 & H). injection H1 as <- _.
  apply sbind_ok in H as (c2 & [] & H1 & H). destruct (write_ok (u32_be _)); [|done]. injection H1 as <-.
  destruct (write_ok msg); [|done]. injection H as <-. cbn [cn_in cn_out]. unfold frame. by rewrite sapp_assoc.
Qed.

Lemma send_inv malloc coins msg_type payload a a' :
  send_on malloc coins msg_type payload a = (a', Ok tt) ->
  exists sk s, sig_sk b64_decode (ch_keys a) = Ok sk
    /\ encrypt fresh junk shake kem_encaps falcon_sign b64_encode malloc coins (channel_context msg_type (ch_send_seq a))
         (ch_peer_kem_pk a) sk payload (ch_heap a) = (ch_heap a, Ok s)
    /\ a' = MkChannel (MkConn (cn_in (ch_conn a)) (cn_out (ch_conn a) +:+ frame (sealed_to_vec s))) (ch_keys a) (ch_peer_kem_pk a)
              (ch_peer_sig_pk a) (next_seq (ch_send_seq a)) (ch_recv_seq a) (ch_heap a).
Proof.
  unfold send. intros H. apply sbind_ok in H as (a0 & ch & [= <- <-] & H). apply sbind_ok in H as (a1 & sk & Hs & H).
  unfold slift in Hs. injection Hs as <- Hs. apply map_err_ok in Hs.
  apply sbind_ok in H as (a2 & s & He & H). unfold with_heap in He.
  destruct (encrypt _ _ _ _ _ _ _ _ _ _ _ _ (ch_heap a)) as [h1 r] eqn:E. injection He as <- Hr. apply map_err_ok in Hr. subst r.
  assert (h1 = ch_heap a) as ->.
  { pose proof (encrypt_balanced fresh junk shake kem_encaps falcon_sign b64_encode Hfresh malloc coins
      (channel_context msg_type (ch_send_seq a)) (ch_peer_kem_pk a) sk payload (ch_heap a)) as Hb. by rewrite E in Hb. }
  apply sbind_ok in H as (a3 & [] & H3 & H). unfold smodify in H3. injection H3 as <-.
  unfold with_conn in H. cbn [ch_conn set_send_seq] in H. destruct (write_frame _ _ _ (ch_conn a)) as [c r] eqn:Ew.
  injection H as <- ->. apply write_frame_run in Ew as ->; [|done]. exists sk, s. done.
Qed.

(** The keys of the two ends belong together: [a] sends to [b]. *)
Record linked (a b : Channel) : Prop := Linked {
  ln_kem_sk : exists rsk, kem_sk b64_decode (ch_keys b) = Ok rsk
    /\ forall r ct ss, kem_encaps (ch_peer_kem_pk a) r = Some (ct, ss) -> kem_decaps rsk ct = Some ss;
  ln_sig : forall sk, sig_sk b64_decode (ch_keys a) = Ok sk -> forall msg r sig,
    falcon_sign sk msg r = Some sig -> falcon_verify (ch_peer_sig_pk b) msg sig = true /\ sig <> EmptyString;
  ln_sig_pk : between 1 NXMS_MAX_SIG_PK_LEN (len (ch_peer_sig_pk b)) = true;
}.

Lemma decoded_key_len v label lo hi k : decode_key_b64 b64_decode v label lo hi = Ok k -> between lo hi (len k) = true.
Proof. unfold decode_key_b64. intros H. rok. by apply negb_false_iff. Qed.

Lemma send_recv malloc malloc' coins msg_type payload a a' b rest :
  linked a b -> (forall t, malloc' t = true) -> send_on malloc coins msg_type payload a = (a', Ok tt) ->
  ch_recv_seq b = ch_send_seq a -> cn_in (ch_conn b) = rest ->
  exists fr, cn_out (ch_conn a') = cn_out (ch_conn a) +:+ fr /\ ch_send_seq a' = next_seq (ch_send_seq a)
    /\ (ch_keys a' = ch_keys a /\ ch_peer_kem_pk a' = ch_peer_kem_pk a)
    /\ recv_on malloc' msg_type (MkChannel (MkConn (fr +:+ rest) (cn_out (ch_conn b))) (ch_keys b) (ch_peer_kem_pk b) (ch_peer_sig_pk b)
         (ch_send_seq b) (ch_recv_seq b) (ch_heap b))
       = (set_recv_seq (next_seq (ch_recv_seq b)) b, Ok payload).
Proof.
  intros [(rsk & Hrsk & Hkem) Hsig Hpk] Hm Hs Hseq Hin. apply send_inv in Hs as (sk & s & Hsk & He & ->).
  exists (frame (sealed_to_vec s)). cbn [ch_conn cn_out ch_send_seq]. do 3 (split; [done|]).
  unfold recv. rewrite sbind_run. unfold with_conn at 1. cbn [ch_conn].
  destruct (sealed_fits _ _ _ _ _ _ _ _ _ He) as [Hfit Hparse]. rewrite read_frame_app by done. cbn [ch_keys ch_peer_kem_pk ch_peer_sig_pk ch_send_seq ch_recv_seq ch_heap].
  rewrite sbind_run. unfold slift at 1. rewrite Hparse. cbn [ok_or]. rewrite sbind_run. unfold sget at 1. rewrite sbind_run.
  unfold slift at 1. cbn [ch_keys]. rewrite Hrsk. cbn [map_err]. rewrite sbind_run. unfold with_heap. cbn [ch_heap ch_recv_seq ch_peer_sig_pk].
  rewrite Hseq. erewrite (message_roundtrip_aux fresh junk shake kem_encaps kem_decaps falcon_sign falcon_verify b64_encode b64_decode
    Hfresh Hb64 Hb64_len malloc malloc' coins _ (ch_peer_kem_pk a) sk payload rsk (ch_peer_sig_pk b)); [|done|by eapply decoded_key_len|done|done|by apply Hsig|exact He].
  cbn [map_err]. rewrite sbind_run. unfold smodify, sret. subst rest. destruct b as [[] ? ? ? ? ? ?]. cbn in *. by subst.
Qed.

(** ** Sequences of messages *)

Record Out : Type := MkOut { o_type : string; o_payload : string; o_coins : Coins; o_malloc : site -> bool }.
Fixpoint send_all (l : list Out) : M Channel ChannelError unit :=
  match l with
  | [] => sret tt
  | m :: l' => let* _ := send_on (o_malloc m) (o_coins m) (o_type m) (o_payload m) in send_all l'
  end.
Fixpoint recv_all (malloc : site -> bool) (types : list string) : M Channel ChannelError (list string) :=
  match types with
  | [] => sret []
  | t :: types' =>
      let* m := recv_on malloc t in
      let* ms := recv_all malloc types' in
      sret (m :: ms)
  end.
Definition set_in (w : string) (b : Channel) : Channel :=
  MkChannel (MkConn w (cn_out (ch_conn b))) (ch_keys b) (ch_peer_kem_pk b) (ch_peer_sig_pk b) (ch_send_seq b) (ch_recv_seq b) (ch_heap b).

Lemma linked_sender a a' b : ch_keys a' = ch_keys a -> ch_peer_kem_pk a' = ch_peer_kem_pk a -> linked a b -> linked a' b.
Proof. intros Hk Hp [H1 H2 H3]. constructor; by rewrite ?Hk, ?Hp. Qed.
Lemma linked_receiver a b b' : ch_keys b' = ch_keys b -> ch_peer_sig_pk b' = ch_peer_sig_pk b -> linked a b -> linked a b'.
Proof. intros Hk Hp [H1 H2 H3]. constructor; by rewrite ?Hk, ?Hp. Qed.

Lemma fifo_aux malloc' l : (forall t, malloc' t = true) -> forall a a' b, linked a b -> send_all l a = (a', Ok tt) ->
  ch_recv_seq b = ch_send_seq a ->
  exists w, cn_out (ch_conn a') = cn_out (ch_conn a) +:+ w /\ forall rest,
    recv_all malloc' (map o_type l) (set_in (w +:+ rest) b)
    = (set_recv_seq (Nat.iter (length l) next_seq (ch_recv_seq b)) (set_in rest b), Ok (map o_payload l)).
Proof.
  intros Hm. induction l as [|m l IH]; intros a a' b Hl Hs Hseq.
  - injection Hs as <-. exists EmptyString. rewrite sapp_nil_r. split; [done|]. intros rest. by destruct b.
  - apply sbind_ok in Hs as (a1 & [] & H1 & Hs).
    destruct (send_recv _ malloc' _ _ _ _ _ (set_in EmptyString b) EmptyString (linked_receiver a b (set_in EmptyString b) eq_refl eq_refl Hl) Hm H1 Hseq eq_refl)
      as (fr & Eo & Es & [Ek Ep] & _).
    destruct (IH a1 a' (set_recv_seq (next_seq (ch_recv_seq b)) b)) as (w & Ew & Hr); [|done|cbn; by rewrite Es, Hseq|].
    { apply (linked_sender a); [done..|]. by apply (linked_receiver _ b). }
    exists (fr +:+ w). rewrite Ew, Eo, sapp_assoc. split; [done|]. intros rest. rewrite sapp_assoc. cbn [map recv_all].
    destruct (send_recv _ malloc' _ _ _ _ _ (set_in (w +:+ rest) b) (w +:+ rest)
      (linked_receiver a b (set_in (w +:+ rest) b) eq_refl eq_refl Hl) Hm H1 Hseq eq_refl)
      as (fr' & Eo' & _ & _ & Hrecv).
    assert (fr' = fr) as ->.
    { rewrite Eo in Eo'. apply app_fixed in Eo' as [_ ?]; [done|done]. }
    rewrite sbind_run. cbn [set_in ch_conn cn_out ch_keys ch_peer_kem_pk ch_peer_sig_pk ch_send_seq ch_recv_seq ch_heap] in Hrecv.
    unfold set_in at 1. rewrite Hrecv. rewrite sbind_run. specialize (Hr rest).
    unfold set_in, set_recv_seq in *. cbn [ch_conn cn_out ch_keys ch_peer_kem_pk ch_peer_sig_pk ch_send_seq ch_recv_seq ch_heap] in *.
    rewrite Hr. unfold sret. cbn [length]. by rewrite Nat.iter_succ_r.
Qed.

(** C32. Messages arrive in order: what one end sent, any number of messages of
    any types, the other end receives from these bytes as the same payloads in
    the same order, and the bytes behind them stay unread.  Every message that
    can be sealed fits the frame limit of the reader. *)
Theorem channel_fifo malloc' l a a' b
    (Hm : forall t, malloc' t = true) (Hl : linked a b) (Hs : send_all l a = (a', Ok tt)) (Hseq : ch_recv_seq b = ch_send_seq a) :
  exists w, cn_out (ch_conn a') = cn_out (ch_conn a) +:+ w /\ forall rest,
    recv_all malloc' (map o_type l) (set_in (w +:+ rest) b)
    = (set_recv_seq (Nat.iter (length l) next_seq (ch_recv_seq b)) (set_in rest b), Ok (map o_payload l)).
Proof. by eapply fifo_aux. Qed.
End channel.

Section receiving.
Context (fresh : gmap Z string -> Z) (junk : nat -> string) (shake : string -> nat -> ascii).
Context (kem_encaps : string -> string -> option (string * string)) (kem_decaps : string -> string -> option string).
Context (falcon_sign : string -> string -> string -> option string) (falcon_verify : string -> string -> string -> bool).
Context (b64_decode : string -> option string) (sealed_from_slice : string -> option SealedPacket).
Context (Hfresh : forall m, m !! fresh m = None /\ fresh m <> null).
Notation recv_on := (recv fresh junk shake kem_decaps falcon_verify b64_decode sealed_from_slice).

Lemma recv_inv malloc msg_type b b' m :
  recv_on malloc msg_type b = (b', Ok m) -> exists s rsk, kem_sk b64_decode (ch_keys b) = Ok rsk
    /\ decrypt fresh junk shake kem_decaps falcon_verify b64_decode malloc (channel_context msg_type (ch_recv_seq b)) s rsk
         (ch_peer_sig_pk b) (ch_heap b) = (ch_heap b, Ok m)
    /\ ch_recv_seq b' = next_seq (ch_recv_seq b).
Proof.
  unfold recv. intros H. apply sbind_ok in H as (b1 & wire & H1 & H). unfold with_conn in H1.
  destruct (read_frame_default (ch_conn b)) as [c rc]. injection H1 as <- ->.
  apply sbind_ok in H as (b2 & s & [= <- _] & H). apply sbind_ok in H as (b3 & ch & [= <- <-] & H).
  apply sbind_ok in H as (b4 & rsk & Hk & H). unfold slift in Hk. injection Hk as <- Hk. apply map_err_ok in Hk. cbn [ch_keys] in Hk.
  apply sbind_ok in H as (b5 & pt & Hd & H). unfold with_heap in Hd.
  cbn [ch_heap ch_recv_seq ch_peer_sig_pk ch_conn ch_keys ch_peer_kem_pk ch_send_seq] in Hd.
  destruct (decrypt _ _ _ _ _ _ _ _ _ _ _ (ch_heap b)) as [h1 r] eqn:E. injection Hd as <- Hr. apply map_err_ok in Hr. subst r.
  apply sbind_ok in H as (b6 & [] & [= <-] & [= <- <-]).
  assert (h1 = ch_heap b) as ->.
  { pose proof (decrypt_balanced fresh junk shake kem_decaps falcon_verify b64_decode Hfresh malloc
      (channel_context msg_type (ch_recv_seq b)) s rsk (ch_peer_sig_pk b) (ch_heap b)) as Hb. by rewrite E in Hb. }
  exists s, rsk. done.
Qed.

End receiving.

(** ** Replayed answers *)

Section replay.
Context (write_ok : string -> bool) (partial : string -> string).
Context (fresh : gmap Z string -> Z) (junk : nat -> string) (shake : string -> nat -> ascii).
Context (kem_encaps : string -> string -> option (string * string)) (kem_decaps : string -> string -> option string).
Context (falcon_sign : string -> string -> string -> option string) (falcon_verify : string -> string -> string -> bool).
Context (b64_encode : string -> string) (b64_decode : string -> option string).
Context (sealed_to_vec : SealedPacket -> string) (sealed_from_slice : string -> option SealedPacket).
Context (ping_to_vec : PingPayload -> string) (ping_from_slice : string -> option PingPayload).
Context (Hfresh : forall m, m !! fresh m = None /\ fresh m <> null).
Notation send_on := (send write_ok partial fresh junk shake kem_encaps falcon_sign b64_encode b64_decode sealed_to_vec).
Notation recv_on := (recv fresh junk shake kem_decaps falcon_verify b64_decode sealed_from_slice).
Notation ping_on := (secure_ping write_ok partial fresh junk shake kem_encaps kem_decaps falcon_sign falcon_verify b64_encode b64_decode
  sealed_to_vec sealed_from_slice ping_to_vec ping_from_slice).

(** Two channels that receive alike. *)
Definition same_receiver (a b : Channel) : Prop :=
  cn_in (ch_conn a) = cn_in (ch_conn b) /\ ch_keys a = ch_keys b /\ ch_peer_sig_pk a = ch_peer_sig_pk b
  /\ ch_recv_seq a = ch_recv_seq b /\ ch_heap a = ch_heap b.

Lemma read_exact_in n c d : cn_in c = cn_in d ->
  (read_exact n c).2 = (read_exact n d).2 /\ cn_in (read_exact n c).1 = cn_in (read_exact n d).1.
Proof. intros E. unfold read_exact. rewrite E. by destruct (_ <=? _)%nat. Qed.
Lemma read_frame_in c d : cn_in c = cn_in d -> (read_frame_default c).2 = (read_frame_default d).2.
Proof.
  intros E. unfold read_frame_default, read_frame. rewrite !sbind_run.
  change (slift (validate_frame_limit DEFAULT_FRAME_MAX_LEN)) with (sret (S := conn) (E := ChannelError) DEFAULT_FRAME_MAX_LEN).
  unfold sret. rewrite !sbind_run. destruct (read_exact_in 4 c d E) as [E1 E2].
  destruct (read_exact 4 c) as [c1 [b|e]], (read_exact 4 d) as [d1 [b'|e']]; cbn [fst snd] in *; try congruence.
  injection E1 as ->. cbv zeta. rewrite !sbind_run. unfold slift. destruct (fail_if _ _); [|done]. by apply read_exact_in.
Qed.

Lemma recv_same malloc msg_type a b : same_receiver a b -> (recv_on malloc msg_type a).2 = (recv_on malloc msg_type b).2.
Proof.
  intros (E1 & E2 & E3 & E4 & E5). unfold recv. rewrite !sbind_run. unfold with_conn. pose proof (read_frame_in _ _ E1) as Er.
  destruct (read_frame_default (ch_conn a)) as [c1 r1], (read_frame_default (ch_conn b)) as [c2 r2]. cbn [snd] in Er. subst r2.
  destruct r1 as [wire|e]; [|done]. rewrite !sbind_run. unfold slift at 1 3. destruct (ok_or _ _) as [s|e]; [|done].
  rewrite !sbind_run. unfold sget at 1 2. rewrite !sbind_run. unfold slift. cbn [ch_keys]. rewrite E2.
  destruct (map_err _ _) as [sk|e]; [|done]. rewrite !sbind_run. unfold with_heap. cbn [ch_heap ch_recv_seq ch_peer_sig_pk].
  rewrite E3, E4, E5. destruct (decrypt _ _ _ _ _ _ _ _ _ _ _ _) as [h [m|e]]; done.
Qed.

(** The answer of one session is accepted in every later one: [secure_ping]
    returns what it decodes from the bytes that arrive, and neither the number,
    which starts at 1, nor a nonce ties them to the session. *)
Lemma pong_replayed malloc coins coins' bytes out out' keys kem_pk sig_pk h ch a pong :
  ping_on malloc coins (new_channel (MkConn bytes out) keys kem_pk sig_pk h) = (ch, Ok pong) ->
  send_on malloc coins' "PING" (ping_to_vec (MkPing "PING" "1")) (new_channel (MkConn bytes out') keys kem_pk sig_pk h) = (a, Ok tt) ->
  (ping_on malloc coins' (new_channel (MkConn bytes out') keys kem_pk sig_pk h)).2 = Ok pong.
Proof.
  unfold secure_ping. intros H1 H2. rewrite sbind_run, H2. apply sbind_ok in H1 as (a1 & [] & Hs & H1).
  apply (send_inv write_ok partial fresh junk shake kem_encaps falcon_sign b64_encode b64_decode sealed_to_vec Hfresh) in Hs as (sk & s & _ & _ & ->).
  apply (send_inv write_ok partial fresh junk shake kem_encaps falcon_sign b64_encode b64_decode sealed_to_vec Hfresh) in H2 as (sk' & s' & _ & _ & ->).
  apply sbind_ok in H1 as (a2 & data & Hr & H1). rewrite sbind_run.
  match goal with |- context [recv_on malloc "PONG" ?y] => set (second := y) end.
  match type of Hr with recv_on _ _ ?x = _ => assert (Hsame : (recv_on malloc "PONG" x).2 = (recv_on malloc "PONG" second).2)
    by (apply recv_same; done) end.
  rewrite Hr in Hsame. destruct (recv_on malloc "PONG" second) as [a3 r3]. cbn [snd] in Hsame. subst r3.
  unfold slift in *. injection H1 as _ ->. done.
Qed.
End replay.

(** ** The node's key file *)

(** The node writes its secret keys with the mode of any new file; the reader of
    secret files refuses them. *)
Lemma node_keys_exposed io partial umask_mode keys_pretty identity_json keys id dir f f' :
  f !! key_path dir = None -> io IoOpen (key_path dir) = true -> group_or_other umask_mode = true ->
  key_path dir <> identity_path dir ->
  gen_identity io partial umask_mode keys_pretty identity_json (Ok keys) id dir f = (f', Ok tt) ->
  f' !! key_path dir = Some (File true umask_mode (keys_pretty keys))
  /\ read_secret_file io (key_path dir) f' = (f', Err CUnsafeMode).
Proof.
  intros Hf Hio Hmode Hne. unfold gen_identity, write_identity. intros H. apply sbind_ok in H as (f1 & k & [= <- <-] & H).
  apply sbind_ok in H as (f2 & [] & H1 & H). unfold must, slift in H1. injection H1 as <- _.
  apply sbind_ok in H as (f3 & [] & H1 & H). unfold fs_write in H1. rewrite sbind_run in H1. unfold sget in H1. rewrite Hf in H1.
  destruct (io IoWrite (key_path dir)); [|done]. unfold smodify in H1. injection H1 as <-.
  assert (E : f' !! key_path dir = Some (File true umask_mode (keys_pretty keys))).
  { unfold fs_write in H. rewrite sbind_run in H. unfold sget in H. destruct (io IoWrite (identity_path dir)); [|done].
    unfold smodify in H. injection H as <-. by rewrite lookup_insert_ne, lookup_insert_eq. }
  split; [done|]. unfold read_secret_file, fs_read, must, sbind, sget, slift, sret, fail_if. rewrite Hio, E. cbn.
  unfold validate_secret_file_metadata. cbn. by rewrite Hmode.
Qed.

(** ** Concrete channels *)

(** The fields with their lengths in front. *)
Definition toy_field (s : string) : string := u32_le (len s) +:+ s.
Definition toy_json (s : SealedPacket) : string :=
  toy_field (sp_kem_ct_b64 s) +:+ toy_field (sp_nonce_b64 s) +:+ toy_field (sp_ciphertext_b64 s) +:+ toy_field (sp_tag_b64 s)
  +:+ toy_field (sp_sig_b64 s).
Definition toy_next (t : string) : string * string :=
  let n := Z.to_nat (le_value (stake 4 t)) in (stake n (sdrop 4 t), sdrop n (sdrop 4 t)).
Definition toy_parse (t : string) : option SealedPacket :=
  let '(a, t) := toy_next t in let '(b, t) := toy_next t in let '(c, t) := toy_next t in
  let '(d, t) := toy_next t in let '(e, t) := toy_next t in Some (MkSealed a b c d e).

Lemma toy_next_app s t : len s < 2 ^ 32 -> toy_next (toy_field s +:+ t) = (s, t).
Proof.
  intros Hs. unfold toy_next, toy_field. rewrite sapp_assoc. unfold u32_le.
  rewrite stake_app, sdrop_app by apply length_le_bytes. pose proof (len_nonneg s).
  rewrite (le_value_le 4) by (change (256 ^ Z.of_nat 4) with (2 ^ 32); lia). unfold len. rewrite Nat2Z.id.
  by rewrite stake_app, sdrop_app.
Qed.
Lemma toy_b64_small s max : len s <= max -> max <= 2 ^ 25 -> len (toy_b64 s) < 2 ^ 32.
Proof.
  intros H1 H2. rewrite toy_b64_len. pose proof (len_nonneg s). assert ((len s + 2) / 3 <= len s + 2) by (apply Z.div_le_upper_bound; lia). lia.
Qed.
Lemma toy_json_reads p : packet_fits p -> toy_parse (toy_json (packet_b64 toy_b64 p)) = Some (packet_b64 toy_b64 p).
Proof.
  intros (H1 & H2 & H3 & H4 & H5). unfold NXMS_MAX_KEM_CT_LEN, NXMS_MAX_PAYLOAD, FF_FALCON_SIG_MAX in *.
  unfold toy_parse, toy_json, packet_b64. cbn [sp_kem_ct_b64 sp_nonce_b64 sp_ciphertext_b64 sp_tag_b64 sp_sig_b64].
  rewrite toy_next_app by (eapply toy_b64_small; [exact H1|lia]). rewrite toy_next_app by (eapply toy_b64_small; [exact H2|lia]).
  rewrite toy_next_app by (eapply toy_b64_small; [exact H3|lia]). rewrite toy_next_app by (eapply toy_b64_small; [exact H4|lia]).
  rewrite <- (sapp_nil_r (toy_field (toy_b64 (pk_sig p)))), toy_next_app by (eapply toy_b64_small; [exact H5|lia]). done.
Qed.
Lemma toy_json_len p : packet_fits p ->
  let s := packet_b64 toy_b64 p in sealed_fields s < len (toy_json s) <= sealed_fields s + 128.
Proof.
  intros _ s. unfold sealed_fields, toy_json, toy_field, u32_le. rewrite !len_app, !len_le_bytes. lia.
Qed.

Definition toy_keys : Keys := MkKeys (toy_b64 toy_key) (toy_b64 toy_key) (toy_b64 "sk") (toy_b64 "pk").
Definition toy_end (bytes : string) : Channel := new_channel (MkConn bytes "") toy_keys toy_key "pk" empty_heap.
Definition toy_out (msg_type payload : string) : Out := MkOut msg_type payload toy_coins (fun _ => true).
Definition toy_sends : list Out := [toy_out "PING" "first"; toy_out "DATA" ""; toy_out "PING" "third"].
Definition toy_send_all := send_all (fun _ => true) (fun s => s) next_addr toy_junk toy_shake toy_encaps1 toy_sign toy_b64 toy_b64_decode toy_json.
Definition toy_sent : Channel := (toy_send_all toy_sends (toy_end "")).1.

Lemma toy_linked : linked toy_encaps1 toy_decaps toy_sign toy_verify toy_b64_decode (toy_end "") (toy_end "").
Proof.
  constructor.
  - exists toy_key. split; [vm_compute; reflexivity|]. intros r ct ss H. exact (toy_kem "r" ct ss H eq_refl).
  - intros sk _ msg r sig [= <-]. split; [apply String.eqb_refl|discriminate].
  - vm_compute. reflexivity.
Qed.

Lemma channel_fifo_witness :
  exists w, cn_out (ch_conn toy_sent) = w /\
    (recv_all next_addr toy_junk toy_shake toy_decaps toy_verify toy_b64_decode toy_parse (fun _ => true) ["PING"; "DATA"; "PING"]%string
       (set_in (w +:+ "rest") (toy_end ""))).2 = Ok ["first"; ""; "third"]%string.
Proof.
  destruct (channel_fifo (fun _ => true) (fun s => s) next_addr toy_junk toy_shake toy_encaps1 toy_decaps toy_sign toy_verify toy_b64
    toy_b64_decode toy_json toy_parse next_addr_fresh toy_b64_decodes toy_b64_len toy_json_reads toy_json_len (fun _ => true) toy_sends
    (toy_end "") toy_sent (toy_end "")) as (w & Hw & Hr).
  - reflexivity.
  - exact toy_linked.
  - vm_compute. reflexivity.
  - reflexivity.
  - exists w. split; [exact Hw|]. cbn [map toy_sends toy_out o_type o_payload] in Hr. rewrite (Hr "rest"%string). reflexivity.
Defined.

Definition toy_call : Call :=
  MkCall (channel_context "PING" 1) toy_key "first"
    (default (MkPacket "" "" "" "" "")
       (nxms_ms_encrypt_packet toy_shake toy_encaps1 toy_sign (fun _ => true) toy_coins (channel_context "PING" 1) toy_key "sk" "first")).
(** The peer also sealed a first message for somebody else, under the same context. *)
Definition other_key : string := repeat_byte "j" 64.
Definition other_call : Call :=
  MkCall (channel_context "PING" 1) other_key "not for you"
    (default (MkPacket "" "" "" "" "")
       (nxms_ms_encrypt_packet toy_shake toy_encaps1 toy_sign (fun _ => true) toy_coins (channel_context "PING" 1) other_key "sk" "not for you")).
(** Only the signatures of these two calls verify. *)
Definition toy_verify_call (pk msg sig : string) : bool :=
  (msg =? call_message toy_shake toy_call)%string || (msg =? call_message toy_shake other_call)%string.
Definition toy_wire : string := frame (toy_json (packet_b64 toy_b64 (ca_packet toy_call))).

