(* ===== verification/Sql.v ===== *)
(** * Tables

    The SQL statements of the sources, read over lists of rows kept in the
    order of insertion: [SELECT .. WHERE] is [find] or [filter], [UPDATE] a
    conditional [map], [DELETE] a [filter], [INSERT] an append that fails when
    a UNIQUE or CHECK constraint is violated.  [AUTOINCREMENT] hands out ids
    from a counter that never goes back. *)

From S2P Require Import Prelude.
From Stdlib Require Import Sorting.Permutation Sorting.Sorted.

Inductive SqlError : Type :=
| ConstraintViolation
| DatabaseFull.

(** A table with an [INTEGER PRIMARY KEY AUTOINCREMENT] column. *)
Record table (R : Type) : Type := Table { t_seq : Z; t_rows : list R }.
Arguments Table {R} _ _.
Arguments t_seq {R} _.
Arguments t_rows {R} _.

Definition empty_table {R} : table R := Table 0 [].

Section statements.
Context {R : Type}.
Implicit Types (p : R -> bool) (l : list R).

(** [SELECT COUNT(1) .. WHERE p] *)
Definition count_rows p l : Z := Z.of_nat (length (List.filter p l)).
(** [UPDATE .. SET f WHERE p] *)
Definition update_rows p (f : R -> R) l : list R := map (fun r => if p r then f r else r) l.
(** [DELETE .. WHERE p] *)
Definition delete_rows p l : list R := List.filter (fun r => negb (p r)) l.

(** [INSERT] into a table whose rows must satisfy [check] and among which no
    two may [clash]. *)
Definition insert_row (clash : R -> R -> bool) (check : R -> bool) (r : R) l
    : result SqlError (list R) :=
  if check r && negb (existsb (clash r) l) then Ok (l ++ [r]) else Err ConstraintViolation.
(** The same on an autoincrement table; the row is built from its id. *)
Definition insert_auto (clash : R -> R -> bool) (check : R -> bool) (mk : Z -> R) (t : table R)
    : result SqlError (table R) :=
  if t_seq t <? I64_MAX then
    let id := t_seq t + 1 in
    let? rows := insert_row clash check (mk id) (t_rows t) in
    Ok (Table id rows)
  else Err DatabaseFull.
Definition update_table p f (t : table R) : table R := Table (t_seq t) (update_rows p f (t_rows t)).

(** [INSERT .. ON CONFLICT(key) DO UPDATE]: [same r] recognises the row with
    the key of [r], [merge old new] is the row after the update.  The CHECK
    constraints and the other UNIQUE constraints ([clash]) hold of the result
    or the statement fails. *)
Definition upsert_row (same clash : R -> R -> bool) (check : R -> bool) (merge : R -> R -> R)
    (r : R) l : result SqlError (list R) :=
  if negb (check r) then Err ConstraintViolation
  else if existsb (same r) l then
    if existsb (fun x => clash r x && negb (same r x)) l then Err ConstraintViolation
    else Ok (update_rows (same r) (fun old => merge old r) l)
  else if existsb (clash r) l then Err ConstraintViolation
  else Ok (l ++ [r]).

(** The same on an autoincrement table. *)
Definition upsert_auto (same clash : R -> R -> bool) (check : R -> bool) (merge : R -> R -> R)
    (mk : Z -> R) (t : table R) : result SqlError (table R) :=
  let r := mk (t_seq t + 1) in
  if existsb (same r) (t_rows t) then
    let? rows := upsert_row same clash check merge r (t_rows t) in
    Ok (Table (t_seq t) rows)
  else insert_auto (fun a b => same a b || clash a b) check mk t.

(** [INSERT OR IGNORE]: a violated UNIQUE constraint inserts nothing. *)
Definition insert_or_ignore (clash : R -> R -> bool) (mk : Z -> R) (t : table R)
    : result SqlError (table R) :=
  match insert_auto clash (fun _ => true) mk t with
  | Err ConstraintViolation => Ok t
  | r => r
  end.

(** [ORDER BY key ASC]/[DESC]: a stable sort. *)
Fixpoint insert_by (le : R -> R -> bool) (r : R) l : list R :=
  match l with
  | [] => [r]
  | x :: l' => if le r x then r :: l else x :: insert_by le r l'
  end.
Definition order_by (le : R -> R -> bool) l : list R := foldr (insert_by le) [] l.
Definition order_asc (key : R -> Z) : list R -> list R := order_by (fun a b => key a <=? key b).
Definition order_desc (key : R -> Z) : list R -> list R := order_by (fun a b => key b <=? key a).
(** [LIMIT n] *)
Definition limit (n : Z) l : list R := take (Z.to_nat n) l.
End statements.

(** [COUNT(DISTINCT key)] *)
Definition count_distinct {K} `{EqDecision K} (ks : list K) : Z := Z.of_nat (length (remove_dups ks)).
(** [SELECT COUNT(1) FROM (SELECT key .. GROUP BY key HAVING COUNT(1) > 1)] *)
Definition count_dup_groups {K} `{EqDecision K} (ks : list K) : Z :=
  Z.of_nat (length (List.filter
    (fun k => 1 <? Z.of_nat (length (List.filter (fun k' => bool_decide (k' = k)) ks)))
    (remove_dups ks))).

(** ** Lemmas *)

Section lemmas.
Context {R : Type}.
Implicit Types (p : R -> bool) (l : list R).

Lemma Forall_update (P : R -> Prop) p f l :
  Forall P l -> (forall r, P r -> p r = true -> P (f r)) -> Forall P (update_rows p f l).
Proof.
  intros Hl Hf. induction Hl as [|r l Hr Hl IH]; simpl; constructor; [|done].
  destruct (p r) eqn:E; auto.
Qed.

Lemma map_update {K} (key : R -> K) p f l :
  (forall r, p r = true -> key (f r) = key r) -> map key (update_rows p f l) = map key l.
Proof.
  intros Hk. induction l as [|r l IH]; simpl; [done|]. rewrite IH. f_equal.
  destruct (p r) eqn:E; auto.
Qed.

Lemma count_update_id p q f l :
  (forall r, q r = true -> p (f r) = p r) -> count_rows p (update_rows q f l) = count_rows p l.
Proof.
  intros Hk. unfold count_rows. induction l as [|r l IH]; simpl; [done|].
  destruct (q r) eqn:Eq; [rewrite Hk by done|]; destruct (p r); simpl; lia.
Qed.

Lemma insert_row_ok clash check r l l' :
  insert_row clash check r l = Ok l' ->
  l' = l ++ [r] /\ check r = true /\ forall x, x ∈ l -> clash r x = false.
Proof.
  unfold insert_row. intros H. destruct (check r) eqn:Ec; [|done]; simpl in H.
  destruct (existsb (clash r) l) eqn:Ex; simpl in H; [done|]. simplify_eq.
  split_and!; [done..|]. intros x Hx. apply list_elem_of_In in Hx.
  destruct (clash r x) eqn:E; [|done].
  assert (existsb (clash r) l = true) by (apply existsb_exists; eauto). congruence.
Qed.

Lemma existsb_false p l : existsb p l = false <-> forall x, x ∈ l -> p x = false.
Proof.
  split.
  - intros H x Hx%list_elem_of_In. destruct (p x) eqn:E; [|done].
    assert (existsb p l = true) by (apply existsb_exists; eauto). congruence.
  - intros H. destruct (existsb p l) eqn:E; [|done].
    apply existsb_exists in E as (x & Hx%list_elem_of_In & E). by rewrite H in E.
Qed.

(** An insert that checks a UNIQUE key keeps the keys distinct. *)
Lemma NoDup_map_snoc {K} (key : R -> K) l r :
  NoDup (map key l) -> (forall x, x ∈ l -> key x <> key r) -> NoDup (map key (l ++ [r])).
Proof.
  intros Hl Hr. rewrite map_app. apply NoDup_app. split_and!; [done| |simpl; apply NoDup_singleton].
  intros k Hk Hk'. simpl in Hk'. apply list_elem_of_singleton in Hk' as ->.
  apply list_elem_of_fmap in Hk as (x & E & Hx). by eapply Hr.
Qed.

Lemma find_some_elem p l r : List.find p l = Some r -> r ∈ l /\ p r = true.
Proof. intros H. apply List.find_some in H. by rewrite list_elem_of_In. Qed.

Lemma find_none_elem p l : List.find p l = None <-> forall x, x ∈ l -> p x = false.
Proof.
  split.
  - intros H x Hx%list_elem_of_In. by eapply List.find_none.
  - intros H. destruct (List.find p l) eqn:E; [|done].
    apply find_some_elem in E as [Hr E]. by rewrite H in E.
Qed.

Lemma find_ext p q l : (forall x, p x = q x) -> List.find p l = List.find q l.
Proof. intros Hpq. induction l as [|x l IH]; simpl; [done|]. by rewrite Hpq, IH. Qed.

Lemma find_app_fresh p l r :
  List.find p (l ++ [r]) = match List.find p l with Some x => Some x | None => if p r then Some r else None end.
Proof. induction l as [|x l IH]; simpl; [done|]. by destruct (p x). Qed.

(** A row found by its unique key is the row with that key. *)
Lemma find_unique {K} (key : R -> K) p l r :
  NoDup (map key l) -> r ∈ l -> p r = true ->
  (forall x, p x = true -> key x = key r) -> List.find p l = Some r.
Proof.
  intros Hnd Hr Hp Hk. induction l as [|x l IH]; [by apply not_elem_of_nil in Hr|].
  simpl in *. apply NoDup_cons in Hnd as [Hx Hnd]. destruct (p x) eqn:E.
  - f_equal. apply elem_of_cons in Hr as [->|Hr]; [done|].
    exfalso. apply Hx. rewrite (Hk _ E). apply list_elem_of_fmap. eauto.
  - apply elem_of_cons in Hr as [->|Hr]; [congruence|]. by apply IH.
Qed.

Lemma find_update p q f l :
  (forall r, q r = true -> p (f r) = p r) ->
  List.find p (update_rows q f l) = match List.find p l with
    | Some r => Some (if q r then f r else r) | None => None end.
Proof.
  intros Hpq. induction l as [|r l IH]; simpl; [done|].
  destruct (q r) eqn:E; [rewrite Hpq by done|]; destruct (p r); rewrite ?E; done.
Qed.

Lemma elem_of_update p f l r :
  r ∈ update_rows p f l <-> exists x, x ∈ l /\ r = if p x then f x else x.
Proof. unfold update_rows. rewrite list_elem_of_fmap. naive_solver. Qed.

Lemma elem_of_delete p l r : r ∈ delete_rows p l <-> r ∈ l /\ p r = false.
Proof.
  unfold delete_rows. rewrite !list_elem_of_In, List.filter_In, negb_true_iff. done.
Qed.

Lemma NoDup_delete {K} (key : R -> K) p l : NoDup (map key l) -> NoDup (map key (delete_rows p l)).
Proof.
  unfold delete_rows. induction l as [|r l IH]; simpl; [done|].
  intros [Hr Hl]%NoDup_cons. destruct (p r); simpl; [by apply IH|].
  constructor; [|by apply IH]. intros Hin. apply Hr.
  apply list_elem_of_fmap in Hin as (x & -> & Hx). apply elem_of_delete in Hx as [Hx _].
  apply list_elem_of_fmap. eauto.
Qed.

Lemma count_rows_nonneg p l : 0 <= count_rows p l.
Proof. unfold count_rows. lia. Qed.

Lemma count_rows_app p l k : count_rows p (l ++ k) = count_rows p l + count_rows p k.
Proof. unfold count_rows. rewrite List.filter_app, length_app. lia. Qed.

Lemma count_rows_one p r : count_rows p [r] = if p r then 1 else 0.
Proof. unfold count_rows. simpl. by destruct (p r). Qed.

Lemma count_rows_le p l : count_rows p l <= Z.of_nat (length l).
Proof. unfold count_rows. pose proof (List.filter_length_le p l). lia. Qed.

Lemma count_zero p l : count_rows p l = 0 <-> forall r, r ∈ l -> p r = false.
Proof.
  unfold count_rows. induction l as [|x l IH]; simpl.
  - split; [|done]. intros _ r Hr. by apply not_elem_of_nil in Hr.
  - destruct (p x) eqn:E; simpl.
    + split; [lia|]. intros H. rewrite H in E by set_solver. done.
    + rewrite IH. setoid_rewrite elem_of_cons. naive_solver.
Qed.

Lemma count_delete_le p q l : count_rows p (delete_rows q l) <= count_rows p l.
Proof.
  unfold count_rows, delete_rows. induction l as [|x l IH]; simpl; [lia|].
  destruct (q x), (p x) eqn:E; simpl; rewrite ?E; simpl; lia.
Qed.

(** ** Sorting *)

Lemma insert_by_perm le r l : Permutation (insert_by le r l) (r :: l).
Proof.
  induction l as [|x l IH]; simpl; [done|]. destruct (le r x); [done|].
  rewrite IH. apply perm_swap.
Qed.

Lemma order_by_perm le l : Permutation (order_by le l) l.
Proof. induction l as [|r l IH]; simpl; [done|]. by rewrite insert_by_perm, IH. Qed.

Lemma elem_of_order_by le l r : r ∈ order_by le l <-> r ∈ l.
Proof. by rewrite order_by_perm. Qed.

Lemma order_by_sorted le l :
  (forall a b, le a b = false -> le b a = true) ->
  (forall a b c, le a b = true -> le b c = true -> le a c = true) ->
  StronglySorted (fun a b => le a b = true) (order_by le l).
Proof.
  intros Htot Htr. induction l as [|r l IH]; simpl; [constructor|].
  revert IH. generalize (order_by le l). clear l. intros l Hl.
  induction Hl as [|x l Hl IH Hx]; simpl; [repeat constructor|].
  destruct (le r x) eqn:E.
  - constructor; [by constructor|]. constructor; [done|].
    eapply Forall_impl; [exact Hx|]. eauto.
  - constructor; [done|]. rewrite insert_by_perm. constructor; auto.
Qed.

End lemmas.

(** ** Upserts and relations between row lists *)

(** The rows after an upsert that succeeded. *)
Definition upserted {R} (same : R -> R -> bool) (merge : R -> R -> R) (r : R) (l : list R) : list R :=
  if existsb (same r) l then update_rows (same r) (fun old => merge old r) l else l ++ [r].
(** Every row of [l] has a [le]-successor in [l']. *)
Definition rows_le {R} (le : R -> R -> Prop) (l l' : list R) : Prop :=
  forall r, r ∈ l -> exists r', r' ∈ l' /\ le r r'.

Section upserts.
Context {R : Type}.
Implicit Types (l : list R).

Lemma upsert_row_ok (same clash : R -> R -> bool) check merge r l l' :
  upsert_row same clash check merge r l = Ok l' ->
  check r = true /\ l' = upserted same merge r l /\
  forall x, x ∈ l -> clash r x = true -> same r x = true.
Proof.
  unfold upsert_row, upserted. intros H. destruct (check r) eqn:Ec; [|done]; simpl in H.
  destruct (existsb (same r) l) eqn:Es.
  - destruct (existsb _ l) eqn:Ex in H; [done|]. simplify_eq. split_and!; [done..|].
    intros x Hx Hc. rewrite existsb_false in Ex. specialize (Ex x Hx). simpl in Ex.
    rewrite Hc in Ex. simpl in Ex. by apply negb_false_iff in Ex.
  - destruct (existsb (clash r) l) eqn:Ex; [done|]. simplify_eq. split_and!; [done..|].
    intros x Hx Hc. rewrite existsb_false in Ex. by rewrite Ex in Hc.
Qed.

Lemma Forall_upserted (P : R -> Prop) same merge r l :
  P r -> Forall P l -> (forall x, P x -> same r x = true -> P (merge x r)) ->
  Forall P (upserted same merge r l).
Proof.
  intros Hr Hl Hm. unfold upserted. case_match.
  - by apply Forall_update.
  - apply Forall_app_2; [done|by constructor].
Qed.

Lemma unique_row {K} (key : R -> K) l x y :
  NoDup (map key l) -> x ∈ l -> y ∈ l -> key x = key y -> x = y.
Proof.
  induction l as [|z l IH]; simpl; [set_solver|]. intros [Hz Hl]%NoDup_cons Hx Hy E.
  apply elem_of_cons in Hx as [->|Hx], Hy as [->|Hy]; [done|..|by apply IH].
  - exfalso. apply Hz. rewrite E. apply list_elem_of_fmap. eauto.
  - exfalso. apply Hz. rewrite <- E. apply list_elem_of_fmap. eauto.
Qed.

Lemma NoDup_upserted {K} (key : R -> K) same merge r l :
  NoDup (map key l) -> (forall x, same r x = true <-> key x = key r) ->
  (forall x, same r x = true -> key (merge x r) = key x) -> NoDup (map key (upserted same merge r l)).
Proof.
  intros Hl Hs Hm. unfold upserted. destruct (existsb (same r) l) eqn:E.
  - by rewrite map_update.
  - rewrite existsb_false in E. apply NoDup_map_snoc; [done|]. intros x Hx Hk.
    apply Hs in Hk. by rewrite E in Hk.
Qed.

(** A second unique column, overwritten by the upsert. *)
Lemma NoDup_upserted_other {K J} (key : R -> K) (col : R -> J) same merge r l :
  NoDup (map key l) -> NoDup (map col l) -> (forall x, same r x = true <-> key x = key r) ->
  (forall x, col (merge x r) = col r) -> (forall x, x ∈ l -> col x = col r -> same r x = true) ->
  NoDup (map col (upserted same merge r l)).
Proof.
  intros Hk Hc Hs Hm Hx. unfold upserted. destruct (existsb (same r) l) eqn:E.
  - clear E. induction l as [|y l IH]; simpl; [done|].
    apply NoDup_cons in Hk as [Hky Hk]. apply NoDup_cons in Hc as [Hcy Hc].
    assert (forall x, x ∈ l -> col x = col r -> same r x = true) as Hx'
      by (intros x ?; apply Hx; set_solver).
    constructor; [|by apply IH].
    rewrite list_elem_of_fmap. intros (z & Ez & Hz). apply elem_of_update in Hz as (x & Hxl & ->).
    destruct (same r y) eqn:Ey, (same r x) eqn:Exx; rewrite ?Hm in Ez.
    + apply Hs in Ey, Exx. apply Hky. rewrite Ey, <- Exx. apply list_elem_of_fmap. eauto.
    + symmetry in Ez. apply Hx' in Ez; congruence.
    + apply Hx in Ez; [congruence|set_solver].
    + apply Hcy. rewrite Ez. apply list_elem_of_fmap. eauto.
  - rewrite existsb_false in E. apply NoDup_map_snoc; [done|]. intros x Hxl Ec.
    apply Hx in Ec; [|done]. by rewrite E in Ec.
Qed.

(** A lookup by key after an upsert. *)
Lemma find_upserted_key {K} (key : R -> K) (p : R -> bool) k same merge r l :
  (forall x, p x = true <-> key x = k) -> (forall x, same r x = true <-> key x = key r) ->
  (forall x, key (merge x r) = key x) ->
  List.find p (upserted same merge r l) =
    if p r then Some (match List.find p l with Some old => merge old r | None => r end)
    else List.find p l.
Proof.
  intros Hp Hs Hm. assert (forall x, p (merge x r) = p x) as Hpm
    by (intros x; apply eq_true_iff_eq; by rewrite !Hp, Hm).
  unfold upserted. destruct (existsb (same r) l) eqn:Ex.
  - rewrite find_update by auto. destruct (List.find p l) as [y|] eqn:Ef.
    + apply find_some_elem in Ef as [_ Ey%Hp]. destruct (p r) eqn:Er.
      * apply Hp in Er. by rewrite (proj2 (Hs y)) by congruence.
      * destruct (same r y) eqn:Es; [|done]. apply Hs in Es.
        rewrite (proj2 (Hp r)) in Er by congruence. done.
    + destruct (p r) eqn:Er; [|done]. apply existsb_exists in Ex as (x & Hx%list_elem_of_In & Hsx).
      rewrite find_none_elem in Ef. apply Hs in Hsx. apply Hp in Er.
      exfalso. specialize (Ef x Hx). rewrite (proj2 (Hp x)) in Ef by congruence. done.
  - rewrite find_app_fresh. destruct (List.find p l) as [y|] eqn:Ef; [|by destruct (p r)].
    destruct (p r) eqn:Er; [|done]. exfalso. apply find_some_elem in Ef as [Hy Ey%Hp].
    apply Hp in Er. rewrite existsb_false in Ex. specialize (Ex y Hy).
    rewrite (proj2 (Hs y)) in Ex by congruence. done.
Qed.

#[global] Instance rows_le_preorder (le : R -> R -> Prop) `{!PreOrder le} : PreOrder (rows_le le).
Proof.
  split; [intros l r Hr; by exists r|].
  intros l1 l2 l3 H1 H2 r Hr. destruct (H1 r Hr) as (r2 & Hr2 & ?).
  destruct (H2 r2 Hr2) as (r3 & ? & ?). exists r3. split; [done|by etrans].
Qed.

Lemma rows_le_snoc (le : R -> R -> Prop) `{!PreOrder le} l r : rows_le le l (l ++ [r]).
Proof. intros x Hx. exists x. split; [set_solver|done]. Qed.

Lemma rows_le_update (le : R -> R -> Prop) `{!PreOrder le} p f l :
  (forall r, r ∈ l -> p r = true -> le r (f r)) -> rows_le le l (update_rows p f l).
Proof.
  intros Hf r Hr. exists (if p r then f r else r). split.
  - apply elem_of_update. eauto.
  - destruct (p r) eqn:E; [by apply Hf|done].
Qed.

Lemma rows_le_upserted (le : R -> R -> Prop) `{!PreOrder le} same merge r l :
  (forall x, x ∈ l -> same r x = true -> le x (merge x r)) ->
  rows_le le l (upserted same merge r l).
Proof.
  intros Hm. unfold upserted. case_match; [by apply rows_le_update|by apply rows_le_snoc].
Qed.
End upserts.

(** ** Autoincrement ids *)

(** Ids are handed out in order and never twice. *)
Definition ids_ok {R} (key : R -> Z) (t : table R) : Prop :=
  StronglySorted Z.lt (map key (t_rows t)) /\
  Forall (fun r => 1 <= key r <= t_seq t) (t_rows t) /\ 0 <= t_seq t <= I64_MAX.

Lemma sorted_snoc (l : list Z) x :
  StronglySorted Z.lt l -> Forall (fun y => y < x) l -> StronglySorted Z.lt (l ++ [x]).
Proof.
  induction 1 as [|y l Hl IH Hy]; simpl; intros Hx; [repeat constructor|].
  apply Forall_cons in Hx as [Hyx Hx]. constructor; [by apply IH|].
  apply Forall_app_2; [done|by constructor].
Qed.

Lemma ids_ok_empty {R} (key : R -> Z) : ids_ok key empty_table.
Proof. split_and!; simpl; [constructor..|lia|by vm_compute]. Qed.

Lemma ids_ok_snoc {R} (key : R -> Z) (t : table R) r :
  ids_ok key t -> t_seq t < I64_MAX -> key r = t_seq t + 1 ->
  ids_ok key (Table (key r) (t_rows t ++ [r])).
Proof.
  intros (Hs & Hf & Hr) Hlt Hk. split_and!; simpl; [|apply Forall_app_2|lia..].
  - rewrite map_app. simpl. apply sorted_snoc; [done|].
    apply Forall_map. eapply Forall_impl; [exact Hf|]. simpl. lia.
  - eapply Forall_impl; [exact Hf|]. simpl. lia.
  - repeat constructor; lia.
Qed.

Lemma ids_ok_update {R} (key : R -> Z) p f (t : table R) :
  ids_ok key t -> (forall r, key (f r) = key r) -> ids_ok key (update_table p f t).
Proof.
  intros (Hs & Hf & Hr) Hk. split_and!; simpl; [by rewrite map_update|..|lia|lia].
  apply Forall_update; [done|]. intros r Hr' _. by rewrite Hk.
Qed.

Lemma ids_ok_NoDup {R} (key : R -> Z) (t : table R) : ids_ok key t -> NoDup (map key (t_rows t)).
Proof.
  intros (Hs & _ & _). induction Hs as [|x l Hl IH Hx]; constructor; [|done].
  intros Hin. rewrite Forall_forall in Hx. specialize (Hx _ Hin). lia.
Qed.

Lemma insert_auto_ok {R} (clash : R -> R -> bool) check mk (t t' : table R) :
  insert_auto clash check mk t = Ok t' ->
  t_seq t < I64_MAX /\ t' = Table (t_seq t + 1) (t_rows t ++ [mk (t_seq t + 1)]) /\
  forall x, x ∈ t_rows t -> clash (mk (t_seq t + 1)) x = false.
Proof.
  unfold insert_auto. intros Hi. destruct (Z.ltb_spec (t_seq t) I64_MAX); [|done].
  apply rbind_ok in Hi as (rows & Hi & [= <-]).
  apply insert_row_ok in Hi as (-> & _ & Hc). done.
Qed.

Lemma upsert_auto_ok {R} (same clash : R -> R -> bool) check merge mk (t t' : table R) :
  upsert_auto same clash check merge mk t = Ok t' ->
  check (mk (t_seq t + 1)) = true /\
  t_rows t' = upserted same merge (mk (t_seq t + 1)) (t_rows t).
Proof.
  unfold upsert_auto, upserted. intros Hu. destruct (existsb _ (t_rows t)) eqn:Es.
  - apply rbind_ok in Hu as (rows & Hu & [= <-]). apply upsert_row_ok in Hu as (Hc & -> & _).
    unfold upserted. by rewrite Es.
  - unfold insert_auto in Hu. destruct (t_seq t <? I64_MAX); [|done].
    apply rbind_ok in Hu as (rows & Hu & [= <-]). by apply insert_row_ok in Hu as (-> & ? & _).
Qed.

Lemma ids_ok_insert {R} (key : R -> Z) clash check mk (t t' : table R) :
  ids_ok key t -> (forall n, key (mk n) = n) -> insert_auto clash check mk t = Ok t' -> ids_ok key t'.
Proof.
  intros Hi Hmk Hu. apply insert_auto_ok in Hu as (Hlt & -> & _).
  pose proof (ids_ok_snoc key t (mk (t_seq t + 1)) Hi Hlt (Hmk _)) as Hs. by rewrite Hmk in Hs.
Qed.

Lemma ids_ok_upsert {R} (key : R -> Z) same clash check merge mk (t t' : table R) :
  ids_ok key t -> (forall n, key (mk n) = n) -> (forall a b, key (merge a b) = key a) ->
  upsert_auto same clash check merge mk t = Ok t' -> ids_ok key t'.
Proof.
  intros Hi Hmk Hm Hu. unfold upsert_auto in Hu. destruct (existsb _ (t_rows t)) eqn:Es.
  - apply rbind_ok in Hu as (rows & Hu & [= <-]). apply upsert_row_ok in Hu as (_ & -> & _).
    unfold upserted. rewrite Es. apply (ids_ok_update key); [done|]. intros r. apply Hm.
  - by eapply ids_ok_insert.
Qed.
