(* ===== verification/Flow.v ===== *)
(** * The escrow workflow automaton

    [crates/nxms-escrow-orchestrator/src/flow.rs]: the states of a workflow,
    their text form in the database, the transition table, the message type a
    state expects and the idempotency keys of steps and outbox entries.
    [Sha3_256] is third-party code, a parameter of the keys. *)

From S2P Require Import Prelude RustString.

Inductive WorkflowState : Type :=
| New
| PrepareCollected
| MakeCollected
| ExchangeR1Collected
| ExchangeR2Collected
| FinalizedReady
| Funded
| TxSignPending
| TxSignedQuorum
| Submitted
| Confirmed
| FailedDeadLetter.

#[global] Instance WorkflowState_eq_dec : EqDecision WorkflowState.
Proof. solve_decision. Defined.

Definition all_states : list WorkflowState :=
  [New; PrepareCollected; MakeCollected; ExchangeR1Collected; ExchangeR2Collected;
   FinalizedReady; Funded; TxSignPending; TxSignedQuorum; Submitted; Confirmed;
   FailedDeadLetter].

Definition as_str (s : WorkflowState) : string :=
  match s with
  | New => "new"
  | PrepareCollected => "prepare_collected"
  | MakeCollected => "make_collected"
  | ExchangeR1Collected => "exchange_r1_collected"
  | ExchangeR2Collected => "exchange_r2_collected"
  | FinalizedReady => "finalized_ready"
  | Funded => "funded"
  | TxSignPending => "tx_sign_pending"
  | TxSignedQuorum => "tx_signed_quorum"
  | Submitted => "submitted"
  | Confirmed => "confirmed"
  | FailedDeadLetter => "failed_dead_letter"
  end.

Definition can_transition_to (from to : WorkflowState) : bool :=
  match from, to with
  | New, PrepareCollected
  | PrepareCollected, MakeCollected
  | MakeCollected, ExchangeR1Collected
  | ExchangeR1Collected, ExchangeR2Collected
  | ExchangeR2Collected, FinalizedReady
  | FinalizedReady, Funded
  | Funded, TxSignPending
  | TxSignPending, TxSignedQuorum
  | TxSignedQuorum, Submitted
  | Submitted, Confirmed => true
  | Confirmed, FailedDeadLetter => false
  | FailedDeadLetter, _ => false
  | _, FailedDeadLetter => true
  | _, _ => false
  end.

(** [FromStr for WorkflowState] *)
Definition state_from_str (raw : string) : option WorkflowState :=
  let s := to_ascii_lowercase (trim raw) in
  if (s =? "new")%string then Some New
  else if (s =? "prepare_collected")%string then Some PrepareCollected
  else if (s =? "make_collected")%string then Some MakeCollected
  else if (s =? "exchange_r1_collected")%string then Some ExchangeR1Collected
  else if (s =? "exchange_r2_collected")%string then Some ExchangeR2Collected
  else if (s =? "finalized_ready")%string then Some FinalizedReady
  else if (s =? "funded")%string then Some Funded
  else if (s =? "tx_sign_pending")%string then Some TxSignPending
  else if (s =? "tx_signed_quorum")%string then Some TxSignedQuorum
  else if (s =? "submitted")%string then Some Submitted
  else if (s =? "confirmed")%string then Some Confirmed
  else if (s =? "failed_dead_letter")%string then Some FailedDeadLetter
  else None.

Definition expected_msg_type_for_state (s : WorkflowState) : option string :=
  match s with
  | PrepareCollected => Some "prepare_info"
  | MakeCollected => Some "make_info"
  | ExchangeR1Collected => Some "exchange_round1"
  | ExchangeR2Collected => Some "exchange_round2"
  | Funded => Some "escrow_funded"
  | TxSignPending => Some "tx_sign_req"
  | TxSignedQuorum => Some "tx_sign_resp"
  | _ => None
  end.

(** The text that is hashed into a step's idempotency key. *)
Definition step_idem_raw (escrow_id_hex : string) (s : WorkflowState) (from_id : string) (seq : Z)
    : string :=
  escrow_id_hex +:+ ":" +:+ as_str s +:+ ":" +:+ from_id +:+ ":" +:+ dec seq.
Definition outbox_idem_raw (escrow_id_hex : string) (s : WorkflowState)
    (to_id msg_type payload_hash_hex : string) : string :=
  escrow_id_hex +:+ ":" +:+ as_str s +:+ ":" +:+ to_id +:+ ":" +:+ msg_type +:+ ":"
    +:+ payload_hash_hex.

Section keys.
Context (sha3_256 : string -> string).

Definition step_idem_key (escrow_id_hex : string) (s : WorkflowState) (from_id : string) (seq : Z)
    : string :=
  hex_encode (sha3_256 (step_idem_raw escrow_id_hex s from_id seq)).
Definition outbox_idem_key (escrow_id_hex : string) (s : WorkflowState)
    (to_id msg_type payload_hash_hex : string) : string :=
  hex_encode (sha3_256 (outbox_idem_raw escrow_id_hex s to_id msg_type payload_hash_hex)).

(** Two different texts with the same digest. *)
Definition hash_collision : Prop := exists x y, x <> y /\ sha3_256 x = sha3_256 y.
End keys.

(** ** The automaton *)

(** Position on the happy path; the dead-letter state comes last. *)
Definition state_rank (s : WorkflowState) : nat :=
  match s with
  | New => 0 | PrepareCollected => 1 | MakeCollected => 2 | ExchangeR1Collected => 3
  | ExchangeR2Collected => 4 | FinalizedReady => 5 | Funded => 6 | TxSignPending => 7
  | TxSignedQuorum => 8 | Submitted => 9 | Confirmed => 10 | FailedDeadLetter => 11
  end.
Definition terminal (s : WorkflowState) : bool :=
  match s with Confirmed | FailedDeadLetter => true | _ => false end.

(** One legal move, and a run of them that stays where it is or moves. *)
Definition moves (s t : WorkflowState) : Prop := can_transition_to s t = true.
Definition evolves : WorkflowState -> WorkflowState -> Prop := rtc moves.

(** The specification of the table: the next state of the frozen path, or the
    dead-letter state from any state that is not terminal. *)
Lemma can_transition_spec s t :
  moves s t <->
  (t <> FailedDeadLetter /\ state_rank t = S (state_rank s)) \/
  (t = FailedDeadLetter /\ terminal s = false).
Proof. unfold moves. destruct s, t; simpl; naive_solver lia. Qed.

Lemma moves_rank s t : moves s t -> (state_rank s < state_rank t)%nat.
Proof. unfold moves. destruct s, t; simpl; done || lia. Qed.

Lemma evolves_rank s t : evolves s t -> (state_rank s <= state_rank t)%nat.
Proof. induction 1 as [|x y z H _ IH]; [lia|]. apply moves_rank in H. lia. Qed.

Lemma moves_terminal s t : terminal s = true -> ~ moves s t.
Proof. unfold moves. by destruct s, t. Qed.

Lemma evolves_terminal s t : terminal s = true -> evolves s t -> t = s.
Proof. intros Hs. induction 1 as [|x y z H _ _]; [done|]. by apply moves_terminal in H. Qed.

(** A run that ends in a later state of the happy path went through every
    state in between. *)
Lemma evolves_through s t u :
  evolves s t -> t <> FailedDeadLetter -> u <> FailedDeadLetter ->
  (state_rank s <= state_rank u <= state_rank t)%nat -> evolves s u /\ evolves u t.
Proof.
  intros Hst Ht Hu. induction Hst as [s|s m t Hsm Hmt IH]; intros Hr.
  - assert (u = s) as -> by (destruct u, s; simpl in *; done || lia). by split; apply rtc_refl.
  - destruct (decide (u = s)) as [->|Hne]; [split; [apply rtc_refl|by eapply rtc_l]|].
    destruct IH as [Hmu Hut]; [done|..|split; [by eapply rtc_l|done]].
    pose proof (evolves_rank _ _ Hmt). apply can_transition_spec in Hsm as [[_ E]|[-> _]].
    + split; [|lia]. assert (state_rank u <> state_rank s) by (destruct u, s; done). lia.
    + assert (t = FailedDeadLetter) as -> by (destruct t; simpl in *; done || lia). done.
Qed.

Lemma state_roundtrip s : state_from_str (as_str s) = Some s.
Proof. by destruct s. Qed.

Lemma as_str_inj s t : as_str s = as_str t -> s = t.
Proof. intros H. apply (f_equal state_from_str) in H. rewrite !state_roundtrip in H. congruence. Qed.

Lemma as_str_free s : free_of ":" (as_str s).
Proof. by destruct s. Qed.

(** ** Idempotency keys *)

Lemma dec_free n : free_of ":" (dec n).
Proof.
  eapply free_of_impl; [|apply dec_digits]. intros d Hd.
  destruct (Ascii.eqb_spec d ":"); [subst; done|done].
Qed.

Lemma step_idem_raw_inj e1 s1 f1 q1 e2 s2 f2 q2 :
  len e1 = len e2 -> 0 <= q1 -> 0 <= q2 ->
  step_idem_raw e1 s1 f1 q1 = step_idem_raw e2 s2 f2 q2 ->
  e1 = e2 /\ s1 = s2 /\ f1 = f2 /\ q1 = q2.
Proof.
  unfold step_idem_raw. intros Hl Hq1 Hq2 H.
  apply app_fixed in H as [-> H]; [|done]. rewrite !sapp_cons in H. simplify_eq.
  apply sep_first in H as [Hs H]; [|apply as_str_free..]. apply as_str_inj in Hs as ->.
  apply sep_last in H as [-> H]; [|apply dec_free..]. apply dec_inj in H as ->; done.
Qed.

(** Distinct steps get distinct keys, unless SHA3-256 collides. *)
Lemma step_idem_key_inj sha3 e1 s1 f1 q1 e2 s2 f2 q2 :
  len e1 = len e2 -> 0 <= q1 -> 0 <= q2 ->
  step_idem_key sha3 e1 s1 f1 q1 = step_idem_key sha3 e2 s2 f2 q2 ->
  (e1 = e2 /\ s1 = s2 /\ f1 = f2 /\ q1 = q2) \/ hash_collision sha3.
Proof.
  intros Hl Hq1 Hq2 H. unfold step_idem_key in H. apply (inj hex_encode) in H.
  destruct (decide (step_idem_raw e1 s1 f1 q1 = step_idem_raw e2 s2 f2 q2)) as [E|E].
  - left. by apply step_idem_raw_inj.
  - right. by do 2 eexists.
Qed.
