(* ===== verification/OrchDb.v ===== *)
(** * The orchestrator's database

    [crates/nxms-escrow-orchestrator/src/db.rs]: one list of rows per table of
    [init_sync], one definition per [*_sync] function.  The clock is an
    argument ([now], milliseconds, a [u64]) of every operation that reads it;
    [Sha3_256] and [serde_json] are parameters ([OrchExt]).  Failures of the
    file system and a busy database are not modelled: a statement fails only
    on a constraint or an exhausted rowid counter. *)

From S2P Require Import Prelude RustString Sql Flow.

(** ** What the module takes from other crates *)

Class OrchExt : Type := {
  sha3_256 : string -> string;
  participants_to_json : list string -> string;
  participants_from_json : string -> result string (list string);
}.

(** [serde_json] reads back the list it wrote. *)
Class OrchExtLaws `{OrchExt} : Prop :=
  participants_json_roundtrip : forall l, participants_from_json (participants_to_json l) = Ok l.

(** ** Errors *)

Inductive DbError : Type :=
| MustNotBeEmpty (label : string)
| NotHex (label : string) (expected_len : Z)
| NotEvenHex (label : string)
| BadAction
| BadOutboxStatus
| BadRole
| SignRoundMismatch (sign_round role expected : string)
| TooLong (label : string)
| DuplicateParticipant (p : string)
| WorkflowNotFound (escrow_id_hex : string)
| InvalidTransition (from to : WorkflowState)
| NotAllowlisted (label id escrow_id_hex : string)
| StatePrecondition (current wanted : WorkflowState)
| UnexpectedMsgType (s : WorkflowState) (expected got : string)
| IdemConflict (escrow_id_hex from_id : string) (seq : Z)
| OutboxIdNotPositive
| OutboxNotOpen (id : Z)
| OutboxNotFound (id : Z)
| OutboxTerminal (id : Z) (status : string)
| OffsetReplay (peer_id escrow_id_hex : string) (seq current : Z)
| ProposalForbidden (s : WorkflowState)
| SnapshotHashMismatch
| QuorumProofForbidden (s : WorkflowState)
| ProofBundleForbidden (s : WorkflowState)
| MissingProof (sign_round : string)
| SameProofJti
| SameProofReqId
| Sqlite (e : SqlError).

(** [err.to_string()] of the errors [normalize_participants] returns. *)
Definition error_text (e : DbError) : string :=
  match e with
  | MustNotBeEmpty label => label +:+ " must not be empty"
  | DuplicateParticipant p => "duplicate participant '" +:+ p +:+ "'"
  | _ => EmptyString
  end.

(** ** Public data *)

Record WorkflowInstance : Type := MkWorkflowInstance {
  wi_escrow_id_hex : string;
  wi_state : WorkflowState;
  wi_snapshot_hash_hex : string;
  wi_participants : list string;
  wi_created_at_ms : Z;
  wi_updated_at_ms : Z;
}.

Record StepInput : Type := MkStepInput {
  si_escrow_id_hex : string;
  si_state : WorkflowState;
  si_from_id : string;
  si_seq : Z;
  si_msg_type : string;
  si_payload_hash_hex : string;
}.

Inductive StepOutcome : Type := Accepted | ReplayDuplicate.

Record OutboxInput : Type := MkOutboxInput {
  oi_escrow_id_hex : string;
  oi_state : WorkflowState;
  oi_to_id : string;
  oi_msg_type : string;
  oi_envelope_json : string;
}.

Record OutboxItem : Type := MkOutboxItem {
  ot_id : Z;
  ot_escrow_id_hex : string;
  ot_state : WorkflowState;
  ot_to_id : string;
  ot_msg_type : string;
  ot_envelope_json : string;
  ot_idem_key : string;
  ot_status : string;
  ot_attempts : Z;
  ot_next_attempt_at_ms : Z;
  ot_created_at_ms : Z;
  ot_updated_at_ms : Z;
}.

Record DeadLetterItem : Type := MkDeadLetterItem {
  di_id : Z;
  di_escrow_id_hex : string;
  di_stage : string;
  di_last_error_code : string;
  di_last_error_detail_redacted : string;
  di_attempts : Z;
  di_payload_hash_hex : option string;
  di_created_at_ms : Z;
}.

Record ProposalBlob : Type := MkProposalBlob {
  pb_escrow_id_hex : string;
  pb_action : string;
  pb_tx_data_hex : string;
  pb_txset_hash_hex : string;
  pb_created_at_ms : Z;
  pb_updated_at_ms : Z;
}.

Record EscrowAdmissionArtifactRow : Type := MkAdmissionRow {
  ea_escrow_id_hex : string;
  ea_snapshot_hash_hex : string;
  ea_action : string;
  ea_runtime_trust_epoch : string;
  ea_artifact_hash_hex : string;
  ea_artifact_json : string;
  ea_created_at_ms : Z;
  ea_updated_at_ms : Z;
}.

Record QuorumSignProof : Type := MkQuorumSignProof {
  qp_escrow_id_hex : string;
  qp_role : string;
  qp_sign_round : string;
  qp_txset_hash_hex : string;
  qp_jti : string;
  qp_req_id : string;
  qp_updated_at_ms : Z;
}.

Record SubmitMultisigProofBundle : Type := MkProofBundle {
  sb_escrow_id_hex : string;
  sb_txset_hash_hex : string;
  sb_proof_arbiter_jti : string;
  sb_proof_arbiter_req_id : string;
  sb_proof_seller_jti : string;
  sb_proof_seller_req_id : string;
  sb_arbiter_proof_updated_at_ms : Z;
  sb_seller_proof_updated_at_ms : Z;
  sb_generated_at_ms : Z;
}.

(** ** Tables *)

Record wf_row : Type := WfRow {
  wf_escrow_id_hex : string;
  wf_state : string;
  wf_snapshot_hash_hex : string;
  wf_participants_json : string;
  wf_created_at_ms : Z;
  wf_updated_at_ms : Z;
}.

Record step_row : Type := StepRow {
  st_id : Z;
  st_escrow_id_hex : string;
  st_state : string;
  st_from_id : string;
  st_seq : Z;
  st_msg_type : string;
  st_idem_key : string;
  st_payload_hash_hex : string;
  st_status : string;
  st_detail : option string;
  st_created_at_ms : Z;
}.

Record outbox_row : Type := OutboxRow {
  ob_id : Z;
  ob_escrow_id_hex : string;
  ob_state : string;
  ob_to_id : string;
  ob_msg_type : string;
  ob_envelope_json : string;
  ob_idem_key : string;
  ob_status : string;
  ob_attempts : Z;
  ob_next_attempt_at_ms : Z;
  ob_created_at_ms : Z;
  ob_updated_at_ms : Z;
}.

Record offset_row : Type := OffsetRow {
  io_peer_id : string;
  io_escrow_id_hex : string;
  io_last_seq : Z;
  io_updated_at_ms : Z;
}.

Record dead_letter_row : Type := DeadLetterRow {
  dl_id : Z;
  dl_escrow_id_hex : string;
  dl_stage : string;
  dl_last_error_code : string;
  dl_last_error_detail_redacted : string;
  dl_attempts : Z;
  dl_payload_hash_hex : option string;
  dl_created_at_ms : Z;
}.

(** The rows of the three remaining tables have the columns of the records
    [ProposalBlob], [EscrowAdmissionArtifactRow] and [QuorumSignProof]. *)
Record db : Type := Db {
  workflow_instances : list wf_row;
  workflow_steps : table step_row;
  outbox : table outbox_row;
  inbox_offsets : list offset_row;
  proposal_blobs : list ProposalBlob;
  escrow_admission_artifacts : list EscrowAdmissionArtifactRow;
  quorum_sign_proofs : list QuorumSignProof;
  dead_letters : table dead_letter_row;
}.

Definition set_workflow_instances (v : list wf_row) (d : db) : db :=
  Db v (workflow_steps d) (outbox d) (inbox_offsets d) (proposal_blobs d)
    (escrow_admission_artifacts d) (quorum_sign_proofs d) (dead_letters d).
Definition set_workflow_steps (v : table step_row) (d : db) : db :=
  Db (workflow_instances d) v (outbox d) (inbox_offsets d) (proposal_blobs d)
    (escrow_admission_artifacts d) (quorum_sign_proofs d) (dead_letters d).
Definition set_outbox (v : table outbox_row) (d : db) : db :=
  Db (workflow_instances d) (workflow_steps d) v (inbox_offsets d) (proposal_blobs d)
    (escrow_admission_artifacts d) (quorum_sign_proofs d) (dead_letters d).
Definition set_inbox_offsets (v : list offset_row) (d : db) : db :=
  Db (workflow_instances d) (workflow_steps d) (outbox d) v (proposal_blobs d)
    (escrow_admission_artifacts d) (quorum_sign_proofs d) (dead_letters d).
Definition set_proposal_blobs (v : list ProposalBlob) (d : db) : db :=
  Db (workflow_instances d) (workflow_steps d) (outbox d) (inbox_offsets d) v
    (escrow_admission_artifacts d) (quorum_sign_proofs d) (dead_letters d).
Definition set_admissions (v : list EscrowAdmissionArtifactRow) (d : db) : db :=
  Db (workflow_instances d) (workflow_steps d) (outbox d) (inbox_offsets d) (proposal_blobs d)
    v (quorum_sign_proofs d) (dead_letters d).
Definition set_quorum_sign_proofs (v : list QuorumSignProof) (d : db) : db :=
  Db (workflow_instances d) (workflow_steps d) (outbox d) (inbox_offsets d) (proposal_blobs d)
    (escrow_admission_artifacts d) v (dead_letters d).
Definition set_dead_letters (v : table dead_letter_row) (d : db) : db :=
  Db (workflow_instances d) (workflow_steps d) (outbox d) (inbox_offsets d) (proposal_blobs d)
    (escrow_admission_artifacts d) (quorum_sign_proofs d) v.

(** [init_sync]: [CREATE TABLE IF NOT EXISTS] makes the tables of a new file
    and leaves those of an existing one alone. *)
Definition empty_db : db := Db [] empty_table empty_table [] [] [] [] empty_table.
Definition init_sync (file : option db) : db := match file with Some d => d | None => empty_db end.

(** *** Constraints of the schema *)

Definition one_of (l : list string) (s : string) : bool := existsb (String.eqb s) l.

Definition wf_clash (a b : wf_row) : bool := (wf_escrow_id_hex a =? wf_escrow_id_hex b)%string.
Definition step_clash (a b : step_row) : bool := (st_idem_key a =? st_idem_key b)%string.
Definition step_check (r : step_row) : bool := one_of ["accepted"; "replay_duplicate"] (st_status r).
Definition outbox_clash (a b : outbox_row) : bool := (ob_idem_key a =? ob_idem_key b)%string.
Definition outbox_check (r : outbox_row) : bool :=
  one_of ["pending"; "sent"; "acked"; "dead_letter"] (ob_status r).
Definition offset_same (a b : offset_row) : bool :=
  (io_peer_id a =? io_peer_id b)%string && (io_escrow_id_hex a =? io_escrow_id_hex b)%string.
Definition proposal_same (a b : ProposalBlob) : bool :=
  (pb_escrow_id_hex a =? pb_escrow_id_hex b)%string.
Definition proposal_check (r : ProposalBlob) : bool := one_of ["release"; "refund"] (pb_action r).
Definition admission_same (a b : EscrowAdmissionArtifactRow) : bool :=
  (ea_escrow_id_hex a =? ea_escrow_id_hex b)%string.
Definition admission_check (r : EscrowAdmissionArtifactRow) : bool :=
  one_of ["release"; "refund"] (ea_action r).
Definition quorum_same (a b : QuorumSignProof) : bool :=
  (qp_escrow_id_hex a =? qp_escrow_id_hex b)%string && (qp_role a =? qp_role b)%string
  && (qp_sign_round a =? qp_sign_round b)%string
  && (qp_txset_hash_hex a =? qp_txset_hash_hex b)%string.
Definition quorum_clash (a b : QuorumSignProof) : bool := (qp_req_id a =? qp_req_id b)%string.
Definition quorum_check (r : QuorumSignProof) : bool :=
  one_of ["buyer"; "seller"; "arbiter"] (qp_role r).

(** ** Normalisation of inputs *)

Definition normalize_non_empty (value label : string) : result DbError string :=
  let trimmed := trim value in
  if is_empty trimmed then Err (MustNotBeEmpty label) else Ok trimmed.

Definition normalize_hex_exact (value : string) (expected_len : Z) (label : string)
    : result DbError string :=
  let trimmed := trim value in
  if negb (len trimmed =? expected_len) || negb (sall is_ascii_hexdigit trimmed)
  then Err (NotHex label expected_len)
  else Ok (to_ascii_lowercase trimmed).

Definition normalize_even_hex (value label : string) : result DbError string :=
  let trimmed := trim value in
  if is_empty trimmed || negb (len trimmed mod 2 =? 0) || negb (sall is_ascii_hexdigit trimmed)
  then Err (NotEvenHex label)
  else Ok (to_ascii_lowercase trimmed).

Definition normalize_action (value : string) : result DbError string :=
  let action := to_ascii_lowercase (trim value) in
  if one_of ["release"; "refund"] action then Ok action else Err BadAction.

Definition normalize_outbox_status (value : string) : result DbError string :=
  let status := to_ascii_lowercase (trim value) in
  if one_of ["pending"; "sent"; "acked"; "dead_letter"] status then Ok status
  else Err BadOutboxStatus.

Definition normalize_worker_role (value : string) : result DbError string :=
  let role := to_ascii_lowercase (trim value) in
  if one_of ["buyer"; "seller"; "arbiter"] role then Ok role else Err BadRole.

Definition normalize_quorum_sign_round_for_role (role sign_round : string)
    : result DbError string :=
  let sign_round := to_ascii_lowercase (trim sign_round) in
  let? _ := fail_if (is_empty sign_round) (MustNotBeEmpty "sign_round") in
  let? expected :=
    if (role =? "arbiter")%string then Ok "arbiter_first"
    else if (role =? "seller")%string then Ok "seller_second"
    else if (role =? "buyer")%string then Ok "buyer_second"
    else Err BadRole in
  if negb (sign_round =? expected)%string
  then Err (SignRoundMismatch sign_round role expected)
  else Ok sign_round.

Definition normalize_jti (value label : string) : result DbError string :=
  let? v := normalize_non_empty value label in
  if 256 <? len v then Err (TooLong label) else Ok v.

(** The loop of [normalize_participants]: [seen] is the set of names pushed so
    far, [out] the vector under construction. *)
Fixpoint normalize_participants_loop (seen : gset string) (out : list string) (raw : list string)
    : result DbError (list string) :=
  match raw with
  | [] => Ok out
  | r :: raw' =>
      let? p := normalize_non_empty r "participant" in
      if bool_decide (p ∈ seen) then Err (DuplicateParticipant p)
      else normalize_participants_loop ({[p]} ∪ seen) (out ++ [p]) raw'
  end.
Definition normalize_participants (participants : list string) : result DbError (list string) :=
  match participants with
  | [] => Err (MustNotBeEmpty "participants")
  | _ => normalize_participants_loop ∅ [] participants
  end.

Definition workflow_allows_quorum_proof_state (s : WorkflowState) : bool :=
  match s with Funded | TxSignPending | TxSignedQuorum | Submitted => true | _ => false end.
Definition workflow_allows_submit_multisig_proof_bundle_state (s : WorkflowState) : bool :=
  workflow_allows_quorum_proof_state s.
Definition allows_proposal_state (s : WorkflowState) : bool :=
  match s with Funded | TxSignPending | TxSignedQuorum => true | _ => false end.

(** [limit.max(1).min(5000)] of the list queries. *)
Definition clamp_limit (limit : Z) : Z := Z.min (Z.max limit 1) 5000.

Definition sql {A} (r : result SqlError A) : result DbError A := map_err Sqlite r.

Section operations.
Context `{OrchExt}.

(** [row.state.parse().unwrap_or(FailedDeadLetter)] *)
Definition parse_state_column (s : string) : WorkflowState :=
  match state_from_str s with Some st => st | None => FailedDeadLetter end.

Definition row_to_workflow (r : wf_row) : WorkflowInstance :=
  MkWorkflowInstance (wf_escrow_id_hex r) (parse_state_column (wf_state r))
    (wf_snapshot_hash_hex r)
    (match participants_from_json (wf_participants_json r) with Ok l => l | Err _ => [] end)
    (to_u64 (wf_created_at_ms r)) (to_u64 (wf_updated_at_ms r)).

Definition row_to_outbox (r : outbox_row) : OutboxItem :=
  MkOutboxItem (ob_id r) (ob_escrow_id_hex r) (parse_state_column (ob_state r)) (ob_to_id r)
    (ob_msg_type r) (ob_envelope_json r) (ob_idem_key r) (ob_status r)
    (u32_try_from_or 0 (ob_attempts r)) (to_u64 (ob_next_attempt_at_ms r))
    (to_u64 (ob_created_at_ms r)) (to_u64 (ob_updated_at_ms r)).

Definition row_to_proposal_blob (r : ProposalBlob) : ProposalBlob :=
  MkProposalBlob (pb_escrow_id_hex r) (pb_action r) (pb_tx_data_hex r) (pb_txset_hash_hex r)
    (to_u64 (pb_created_at_ms r)) (to_u64 (pb_updated_at_ms r)).

Definition row_to_quorum_sign_proof (r : QuorumSignProof) : QuorumSignProof :=
  MkQuorumSignProof (qp_escrow_id_hex r) (qp_role r) (qp_sign_round r) (qp_txset_hash_hex r)
    (qp_jti r) (qp_req_id r) (to_u64 (qp_updated_at_ms r)).

Definition get_workflow_tx (d : db) (escrow_id_hex : string) : option WorkflowInstance :=
  option_map row_to_workflow
    (List.find (fun r => wf_escrow_id_hex r =? escrow_id_hex)%string (workflow_instances d)).

Definition sha3_hex (input : string) : string := hex_encode (sha3_256 input).

(** *** Workflows *)

Definition create_workflow_sync (now : Z) (escrow_id_hex snapshot_hash_hex : string)
    (participants : list string) : M db DbError unit :=
  let* escrow_id_hex := slift (normalize_hex_exact escrow_id_hex 32 "escrow_id_hex") in
  let* snapshot_hash_hex := slift (normalize_hex_exact snapshot_hash_hex 64 "snapshot_hash_hex") in
  let* participants := slift (normalize_participants participants) in
  let now := to_i64 now in
  let row := WfRow escrow_id_hex (as_str New) snapshot_hash_hex
               (participants_to_json participants) now now in
  sexec (fun d =>
    let? rows := sql (insert_row wf_clash (fun _ => true) row (workflow_instances d)) in
    Ok (set_workflow_instances rows d, tt)).

Definition transition_workflow_sync (now : Z) (escrow_id_hex : string) (to_state : WorkflowState)
    (reason : option string) : M db DbError unit :=
  let* escrow_id_hex := slift (normalize_hex_exact escrow_id_hex 32 "escrow_id_hex") in
  transaction (
    let* wf := in_tx (sget (fun d => get_workflow_tx d escrow_id_hex)) in
    let* wf := slift (ok_or wf (WorkflowNotFound escrow_id_hex)) in
    let* _ := slift (fail_if (negb (can_transition_to (wi_state wf) to_state))
                      (InvalidTransition (wi_state wf) to_state)) in
    let now := to_i64 now in
    let* _ := in_tx (smodify (fun d =>
      set_workflow_instances
        (update_rows (fun r => wf_escrow_id_hex r =? escrow_id_hex)%string
           (fun r => WfRow (wf_escrow_id_hex r) (as_str to_state) (wf_snapshot_hash_hex r)
                       (wf_participants_json r) (wf_created_at_ms r) now)
           (workflow_instances d)) d)) in
    commit).

Definition list_workflows_sync (lim : Z) : M db DbError (list WorkflowInstance) :=
  sget (fun d => map row_to_workflow
    (limit (clamp_limit lim) (order_asc wf_updated_at_ms (workflow_instances d)))).

Definition get_workflow_sync (escrow_id_hex : string) : M db DbError (option WorkflowInstance) :=
  let* escrow_id_hex := slift (normalize_hex_exact escrow_id_hex 32 "escrow_id_hex") in
  sget (fun d => get_workflow_tx d escrow_id_hex).

(** *** Dead letters *)

Definition add_dead_letter_tx (now : Z) (escrow_id_hex stage last_error_code
    last_error_detail_redacted : string) (attempts : Z) (payload_hash_hex : option string)
    : M db DbError unit :=
  sexec (fun d =>
    let? t := sql (insert_auto (fun _ _ => false) (fun _ => true)
      (fun id => DeadLetterRow id escrow_id_hex stage last_error_code last_error_detail_redacted
                   attempts payload_hash_hex (to_i64 now)) (dead_letters d)) in
    Ok (set_dead_letters t d, tt)).

Definition add_dead_letter_sync (now : Z) (escrow_id_hex stage last_error_code
    last_error_detail_redacted : string) (attempts : Z) (payload_hash_hex : option string)
    : M db DbError unit :=
  let* escrow_id_hex := slift (normalize_hex_exact escrow_id_hex 32 "escrow_id_hex") in
  add_dead_letter_tx now escrow_id_hex stage last_error_code last_error_detail_redacted
    attempts payload_hash_hex.

Definition list_dead_letters_sync (lim : Z) : M db DbError (list DeadLetterItem) :=
  sget (fun d => map (fun r =>
      MkDeadLetterItem (dl_id r) (dl_escrow_id_hex r) (dl_stage r) (dl_last_error_code r)
        (dl_last_error_detail_redacted r) (u32_try_from_or 0 (dl_attempts r))
        (dl_payload_hash_hex r) (to_u64 (dl_created_at_ms r)))
    (limit (clamp_limit lim) (order_desc dl_id (t_rows (dead_letters d))))).

(** *** Steps *)

Definition record_step_sync (now : Z) (input : StepInput) : M db DbError StepOutcome :=
  let* escrow_id_hex := slift (normalize_hex_exact (si_escrow_id_hex input) 32 "escrow_id_hex") in
  let* from_id := slift (normalize_non_empty (si_from_id input) "from_id") in
  let* msg_type := slift (normalize_non_empty (si_msg_type input) "msg_type") in
  let* payload_hash_hex :=
    slift (normalize_hex_exact (si_payload_hash_hex input) 64 "payload_hash_hex") in
  transaction (
    let* wf := in_tx (sget (fun d => get_workflow_tx d escrow_id_hex)) in
    let* wf := slift (ok_or wf (WorkflowNotFound escrow_id_hex)) in
    let* _ := slift (fail_if (negb (existsb (fun p => p =? from_id)%string (wi_participants wf)))
                      (NotAllowlisted "from_id" from_id escrow_id_hex)) in
    let* _ := slift (fail_if (negb (bool_decide (wi_state wf = si_state input))
                              && negb (can_transition_to (wi_state wf) (si_state input)))
                      (StatePrecondition (wi_state wf) (si_state input))) in
    let* _ := slift match expected_msg_type_for_state (si_state input) with
      | Some expected => fail_if (negb (expected =? msg_type)%string)
                           (UnexpectedMsgType (si_state input) expected msg_type)
      | None => Ok tt
      end in
    let idem_key := step_idem_key sha3_256 escrow_id_hex (si_state input) from_id (si_seq input) in
    let* existing := in_tx (sget (fun d =>
      List.find (fun r => st_idem_key r =? idem_key)%string (t_rows (workflow_steps d)))) in
    match existing with
    | Some row =>
        if eq_ignore_ascii_case (st_payload_hash_hex row) payload_hash_hex then
          let* _ := commit in
          sret ReplayDuplicate
        else
          let* _ := in_tx (add_dead_letter_tx now escrow_id_hex "step_record"
            "idem_payload_conflict" "same idempotency key with different payload hash" 1
            (Some payload_hash_hex)) in
          let* _ := commit in
          sfail (IdemConflict escrow_id_hex from_id (si_seq input))
    | None =>
        let* _ := in_tx (sexec (fun d =>
          let? t := sql (insert_auto step_clash step_check
            (fun id => StepRow id escrow_id_hex (as_str (si_state input)) from_id
                         (to_i64 (si_seq input)) msg_type idem_key payload_hash_hex
                         "accepted" None (to_i64 now)) (workflow_steps d)) in
          Ok (set_workflow_steps t d, tt))) in
        let* _ := commit in
        sret Accepted
    end).

Definition step_count_for_state_sync (escrow_id_hex : string) (s : WorkflowState)
    : M db DbError Z :=
  let* escrow_id_hex := slift (normalize_hex_exact escrow_id_hex 32 "escrow_id_hex") in
  sget (fun d => to_u64 (count_distinct (map st_from_id
    (List.filter (fun r => (st_escrow_id_hex r =? escrow_id_hex)%string
                           && (st_state r =? as_str s)%string
                           && (st_status r =? "accepted")%string)
       (t_rows (workflow_steps d)))))).

(** *** Outbox *)

(** [attempts = attempts + 1] and the other updates by id. *)
Definition outbox_touch (now : Z) (status : string) (attempts : Z -> Z) (next : option Z)
    (r : outbox_row) : outbox_row :=
  OutboxRow (ob_id r) (ob_escrow_id_hex r) (ob_state r) (ob_to_id r) (ob_msg_type r)
    (ob_envelope_json r) (ob_idem_key r) status (attempts (ob_attempts r))
    (match next with Some n => n | None => ob_next_attempt_at_ms r end)
    (ob_created_at_ms r) now.
(** [id=?2 AND status IN ('pending', 'sent')] *)
Definition outbox_open (id : Z) (r : outbox_row) : bool :=
  (ob_id r =? id) && one_of ["pending"; "sent"] (ob_status r).

Definition enqueue_outbox_sync (now : Z) (input : OutboxInput) : M db DbError unit :=
  let* escrow_id_hex := slift (normalize_hex_exact (oi_escrow_id_hex input) 32 "escrow_id_hex") in
  let* to_id := slift (normalize_non_empty (oi_to_id input) "to_id") in
  let* msg_type := slift (normalize_non_empty (oi_msg_type input) "msg_type") in
  transaction (
    let* wf := in_tx (sget (fun d => get_workflow_tx d escrow_id_hex)) in
    let* wf := slift (ok_or wf (WorkflowNotFound escrow_id_hex)) in
    let* _ := slift (fail_if (negb (existsb (fun p => p =? to_id)%string (wi_participants wf)))
                      (NotAllowlisted "to_id" to_id escrow_id_hex)) in
    let* _ := slift (fail_if (negb (bool_decide (wi_state wf = oi_state input))
                              && negb (can_transition_to (wi_state wf) (oi_state input)))
                      (StatePrecondition (wi_state wf) (oi_state input))) in
    let* _ := slift match expected_msg_type_for_state (oi_state input) with
      | Some expected => fail_if (negb (expected =? msg_type)%string)
                           (UnexpectedMsgType (oi_state input) expected msg_type)
      | None => Ok tt
      end in
    let payload_hash_hex := sha3_hex (oi_envelope_json input) in
    let idem_key := outbox_idem_key sha3_256 escrow_id_hex (oi_state input) to_id msg_type
                      payload_hash_hex in
    let now := to_i64 now in
    let* insert_res := in_tx (fun d =>
      match insert_auto outbox_clash outbox_check
              (fun id => OutboxRow id escrow_id_hex (as_str (oi_state input)) to_id msg_type
                           (oi_envelope_json input) idem_key "pending" 0 now now now)
              (outbox d) with
      | Ok t => (set_outbox t d, Ok (Ok tt))
      | Err e => (d, Ok (Err e))
      end) in
    match insert_res with
    | Ok _ => commit
    | Err ConstraintViolation => commit
    | Err e => sfail (Sqlite e)
    end).

Definition list_outbox_sync (status : option string) (lim : Z) : M db DbError (list OutboxItem) :=
  let limit_i64 := clamp_limit lim in
  match status with
  | Some s =>
      if is_empty (trim s) then
        sget (fun d => map row_to_outbox (limit limit_i64 (order_desc ob_id (t_rows (outbox d)))))
      else
        let* status := slift (normalize_outbox_status (trim s)) in
        sget (fun d => map row_to_outbox (limit limit_i64 (order_desc ob_id
          (List.filter (fun r => ob_status r =? status)%string (t_rows (outbox d))))))
  | None =>
      sget (fun d => map row_to_outbox (limit limit_i64 (order_desc ob_id (t_rows (outbox d)))))
  end.

(** [UPDATE outbox SET .. WHERE p] and the number of rows it changed. *)
Definition update_outbox {E} (p : outbox_row -> bool) (f : outbox_row -> outbox_row) : M db E Z :=
  fun d => (set_outbox (update_table p f (outbox d)) d, Ok (count_rows p (t_rows (outbox d)))).

Definition mark_outbox_sent_sync (now id : Z) : M db DbError unit :=
  let* _ := slift (fail_if (id <=? 0) OutboxIdNotPositive) in
  let* n := update_outbox (outbox_open id)
              (outbox_touch (to_i64 now) "sent" (fun a => a + 1) None) in
  slift (fail_if (n =? 0) (OutboxNotOpen id)).

Definition mark_outbox_acked_sync (now id : Z) : M db DbError unit :=
  let* _ := slift (fail_if (id <=? 0) OutboxIdNotPositive) in
  let* n := update_outbox (outbox_open id)
              (outbox_touch (to_i64 now) "acked" (fun a => a) None) in
  slift (fail_if (n =? 0) (OutboxNotOpen id)).

(** [now] is read before the update, [now_dl] by [add_dead_letter_tx]. *)
Definition mark_outbox_retry_sync (now now_dl id backoff_ms : Z)
    (error_code error_detail_redacted : string) (dead_letter_after_attempts : Z)
    : M db DbError unit :=
  let* _ := slift (fail_if (id <=? 0) OutboxIdNotPositive) in
  let* error_code := slift (normalize_non_empty error_code "error_code") in
  let* error_detail_redacted :=
    slift (normalize_non_empty error_detail_redacted "error_detail_redacted") in
  let dead_letter_after_attempts := Z.max dead_letter_after_attempts 1 in
  let backoff_ms := Z.max backoff_ms 100 in
  transaction (
    let* row := in_tx (sget (fun d => List.find (fun r => ob_id r =? id) (t_rows (outbox d)))) in
    let* row := slift (ok_or row (OutboxNotFound id)) in
    let* _ := slift (fail_if (one_of ["acked"; "dead_letter"] (ob_status row))
                      (OutboxTerminal id (ob_status row))) in
    let now := to_i64 now in
    let next_attempt_at_ms := sat_add_i64 now (to_i64 backoff_ms) in
    let next_attempts := sat_add_i64 (ob_attempts row) 1 in
    let payload_hash_hex := sha3_hex (ob_envelope_json row) in
    if dead_letter_after_attempts <=? next_attempts then
      let* _ := in_tx (update_outbox (fun r => ob_id r =? id)
        (outbox_touch now "dead_letter" (fun _ => next_attempts) (Some next_attempt_at_ms))) in
      let* _ := in_tx (add_dead_letter_tx now_dl (ob_escrow_id_hex row) "outbox_delivery"
        error_code error_detail_redacted (u32_try_from_or U32_MAX next_attempts)
        (Some payload_hash_hex)) in
      commit
    else
      let* _ := in_tx (update_outbox (fun r => ob_id r =? id)
        (outbox_touch now "pending" (fun _ => next_attempts) (Some next_attempt_at_ms))) in
      commit).

(** *** Inbox offsets *)

Definition advance_inbox_offset_sync (now : Z) (peer_id escrow_id_hex : string) (seq : Z)
    : M db DbError unit :=
  let* peer_id := slift (normalize_non_empty peer_id "peer_id") in
  let* escrow_id_hex := slift (normalize_hex_exact escrow_id_hex 32 "escrow_id_hex") in
  transaction (
    let seq_i64 := to_i64 seq in
    let row := OffsetRow peer_id escrow_id_hex seq_i64 (to_i64 now) in
    let* current := in_tx (sget (fun d => List.find (offset_same row) (inbox_offsets d))) in
    let* _ := slift match current with
      | Some r => fail_if (seq_i64 <=? io_last_seq r)
                    (OffsetReplay peer_id escrow_id_hex seq_i64 (io_last_seq r))
      | None => Ok tt
      end in
    let* _ := in_tx (sexec (fun d =>
      let? rows := sql (upsert_row offset_same offset_same (fun _ => true)
        (fun _ new => new) row (inbox_offsets d)) in
      Ok (set_inbox_offsets rows d, tt))) in
    commit).

(** *** Proposals, admissions and signing proofs *)

Definition upsert_proposal_blob_sync (now : Z) (escrow_id_hex action tx_data_hex
    txset_hash_hex : string) : M db DbError unit :=
  let* escrow_id_hex := slift (normalize_hex_exact escrow_id_hex 32 "escrow_id_hex") in
  let* action := slift (normalize_action action) in
  let* tx_data_hex := slift (normalize_even_hex tx_data_hex "tx_data_hex") in
  let* txset_hash_hex := slift (normalize_hex_exact txset_hash_hex 64 "txset_hash_hex") in
  transaction (
    let* wf := in_tx (sget (fun d => get_workflow_tx d escrow_id_hex)) in
    let* wf := slift (ok_or wf (WorkflowNotFound escrow_id_hex)) in
    let* _ := slift (fail_if (negb (allows_proposal_state (wi_state wf)))
                      (ProposalForbidden (wi_state wf))) in
    let now := to_i64 now in
    let* _ := in_tx (sexec (fun d =>
      let? rows := sql (upsert_row proposal_same proposal_same proposal_check
        (fun old new => MkProposalBlob (pb_escrow_id_hex old) (pb_action new) (pb_tx_data_hex new)
           (pb_txset_hash_hex new) (pb_created_at_ms old) (pb_updated_at_ms new))
        (MkProposalBlob escrow_id_hex action tx_data_hex txset_hash_hex now now)
        (proposal_blobs d)) in
      Ok (set_proposal_blobs rows d, tt))) in
    commit).

Definition get_proposal_blob_sync (escrow_id_hex : string) : M db DbError (option ProposalBlob) :=
  let* escrow_id_hex := slift (normalize_hex_exact escrow_id_hex 32 "escrow_id_hex") in
  sget (fun d => option_map row_to_proposal_blob
    (List.find (fun r => pb_escrow_id_hex r =? escrow_id_hex)%string (proposal_blobs d))).

Definition get_proposal_blob_by_txset_hash_sync (escrow_id_hex txset_hash_hex : string)
    : M db DbError (option ProposalBlob) :=
  let* escrow_id_hex := slift (normalize_hex_exact escrow_id_hex 32 "escrow_id_hex") in
  let* txset_hash_hex := slift (normalize_hex_exact txset_hash_hex 64 "txset_hash_hex") in
  sget (fun d => option_map row_to_proposal_blob
    (List.find (fun r => (pb_escrow_id_hex r =? escrow_id_hex)%string
                         && (pb_txset_hash_hex r =? txset_hash_hex)%string) (proposal_blobs d))).

Definition upsert_escrow_admission_artifact_sync (now : Z) (row : EscrowAdmissionArtifactRow)
    : M db DbError unit :=
  let* escrow_id_hex := slift (normalize_hex_exact (ea_escrow_id_hex row) 32 "escrow_id_hex") in
  let* snapshot_hash_hex :=
    slift (normalize_hex_exact (ea_snapshot_hash_hex row) 64 "snapshot_hash_hex") in
  let* action := slift (normalize_action (ea_action row)) in
  transaction (
    let* wf := in_tx (sget (fun d => get_workflow_tx d escrow_id_hex)) in
    let* wf := slift (ok_or wf (WorkflowNotFound escrow_id_hex)) in
    let* _ := slift (fail_if (negb (wi_snapshot_hash_hex wf =? snapshot_hash_hex)%string)
                      SnapshotHashMismatch) in
    let now := to_i64 now in
    let* _ := in_tx (sexec (fun d =>
      let? rows := sql (upsert_row admission_same admission_same admission_check
        (fun old new => MkAdmissionRow (ea_escrow_id_hex old) (ea_snapshot_hash_hex new)
           (ea_action new) (ea_runtime_trust_epoch new) (ea_artifact_hash_hex new)
           (ea_artifact_json new) (ea_created_at_ms old) (ea_updated_at_ms new))
        (MkAdmissionRow escrow_id_hex snapshot_hash_hex action (ea_runtime_trust_epoch row)
           (ea_artifact_hash_hex row) (ea_artifact_json row)
           (i64_try_from_or now (ea_created_at_ms row))
           (i64_try_from_or now (ea_updated_at_ms row)))
        (escrow_admission_artifacts d)) in
      Ok (set_admissions rows d, tt))) in
    commit).

Definition get_escrow_admission_artifact_sync (escrow_id_hex : string)
    : M db DbError (option EscrowAdmissionArtifactRow) :=
  let* escrow_id_hex := slift (normalize_hex_exact escrow_id_hex 32 "escrow_id_hex") in
  sget (fun d => option_map (fun r =>
      MkAdmissionRow (ea_escrow_id_hex r) (ea_snapshot_hash_hex r) (ea_action r)
        (ea_runtime_trust_epoch r) (ea_artifact_hash_hex r) (ea_artifact_json r)
        (to_u64 (ea_created_at_ms r)) (to_u64 (ea_updated_at_ms r)))
    (List.find (fun r => ea_escrow_id_hex r =? escrow_id_hex)%string
       (escrow_admission_artifacts d))).

Definition upsert_quorum_sign_proof_sync (now : Z) (escrow_id_hex role sign_round txset_hash_hex
    jti req_id : string) : M db DbError unit :=
  let* escrow_id_hex := slift (normalize_hex_exact escrow_id_hex 32 "escrow_id_hex") in
  let* role := slift (normalize_worker_role role) in
  let* sign_round := slift (normalize_quorum_sign_round_for_role role sign_round) in
  let* txset_hash_hex := slift (normalize_hex_exact txset_hash_hex 64 "txset_hash_hex") in
  let* jti := slift (normalize_jti jti "jti") in
  let* req_id := slift (normalize_hex_exact req_id 64 "req_id") in
  transaction (
    let* wf := in_tx (sget (fun d => get_workflow_tx d escrow_id_hex)) in
    let* wf := slift (ok_or wf (WorkflowNotFound escrow_id_hex)) in
    let* _ := slift (fail_if (negb (workflow_allows_quorum_proof_state (wi_state wf)))
                      (QuorumProofForbidden (wi_state wf))) in
    let* _ := in_tx (sexec (fun d =>
      let? rows := sql (upsert_row quorum_same quorum_clash quorum_check
        (fun old new => MkQuorumSignProof (qp_escrow_id_hex old) (qp_role old)
           (qp_sign_round old) (qp_txset_hash_hex old) (qp_jti new) (qp_req_id new)
           (qp_updated_at_ms new))
        (MkQuorumSignProof escrow_id_hex role sign_round txset_hash_hex jti req_id (to_i64 now))
        (quorum_sign_proofs d)) in
      Ok (set_quorum_sign_proofs rows d, tt))) in
    commit).

Definition get_quorum_sign_proof_tx (d : db) (escrow_id_hex role sign_round
    txset_hash_hex : string) : option QuorumSignProof :=
  option_map row_to_quorum_sign_proof
    (List.find (fun r => (qp_escrow_id_hex r =? escrow_id_hex)%string
                         && (qp_role r =? role)%string && (qp_sign_round r =? sign_round)%string
                         && (qp_txset_hash_hex r =? txset_hash_hex)%string)
       (quorum_sign_proofs d)).

Definition get_quorum_sign_proof_sync (escrow_id_hex role sign_round txset_hash_hex : string)
    : M db DbError (option QuorumSignProof) :=
  let* escrow_id_hex := slift (normalize_hex_exact escrow_id_hex 32 "escrow_id_hex") in
  let* role := slift (normalize_worker_role role) in
  let* sign_round := slift (normalize_quorum_sign_round_for_role role sign_round) in
  let* txset_hash_hex := slift (normalize_hex_exact txset_hash_hex 64 "txset_hash_hex") in
  sget (fun d => get_quorum_sign_proof_tx d escrow_id_hex role sign_round txset_hash_hex).

Definition get_submit_multisig_proof_bundle_sync (now : Z) (escrow_id_hex txset_hash_hex : string)
    : M db DbError SubmitMultisigProofBundle :=
  let* escrow_id_hex := slift (normalize_hex_exact escrow_id_hex 32 "escrow_id_hex") in
  let* txset_hash_hex := slift (normalize_hex_exact txset_hash_hex 64 "txset_hash_hex") in
  let* wf := sget (fun d => get_workflow_tx d escrow_id_hex) in
  let* wf := slift (ok_or wf (WorkflowNotFound escrow_id_hex)) in
  let* _ := slift (fail_if (negb (workflow_allows_submit_multisig_proof_bundle_state (wi_state wf)))
                    (ProofBundleForbidden (wi_state wf))) in
  let* arbiter := sget (fun d =>
    get_quorum_sign_proof_tx d escrow_id_hex "arbiter" "arbiter_first" txset_hash_hex) in
  let* arbiter := slift (ok_or arbiter (MissingProof "arbiter_first")) in
  let* seller := sget (fun d =>
    get_quorum_sign_proof_tx d escrow_id_hex "seller" "seller_second" txset_hash_hex) in
  let* seller := slift (ok_or seller (MissingProof "seller_second")) in
  let* _ := slift (fail_if (qp_jti arbiter =? qp_jti seller)%string SameProofJti) in
  let* _ := slift (fail_if (qp_req_id arbiter =? qp_req_id seller)%string SameProofReqId) in
  sret (MkProofBundle escrow_id_hex txset_hash_hex (qp_jti arbiter) (qp_req_id arbiter)
          (qp_jti seller) (qp_req_id seller) (qp_updated_at_ms arbiter)
          (qp_updated_at_ms seller) now).

End operations.

(** ** Lemmas on the normalising helpers *)

Lemma one_of_spec l s : one_of l s = true <-> s ∈ l.
Proof.
  unfold one_of. rewrite existsb_exists, list_elem_of_In. split.
  - intros (x & Hx & E). apply String.eqb_eq in E. by subst.
  - intros Hs. exists s. by rewrite String.eqb_refl.
Qed.

(** A participant list as it is stored: trimmed names, no two equal. *)
Definition participants_ok (l : list string) : Prop := l <> [] /\ Forall trimmed l /\ NoDup l.
(** A non-empty hexadecimal string of even length in lower case. *)
Definition even_hex (s : string) : Prop :=
  is_empty s = false /\ len s mod 2 = 0 /\ sall is_lower_hex s = true.

Lemma normalize_non_empty_ok v label s : normalize_non_empty v label = Ok s -> trimmed s.
Proof.
  unfold normalize_non_empty. intros H. destruct (is_empty (trim v)) eqn:E; simplify_eq.
  by apply trim_trimmed.
Qed.

Lemma normalize_non_empty_id label s : trimmed s -> normalize_non_empty s label = Ok s.
Proof. unfold normalize_non_empty. intros [-> ->]. done. Qed.

Lemma normalize_hex_exact_ok v n label s : normalize_hex_exact v n label = Ok s -> hex_norm n s.
Proof.
  unfold normalize_hex_exact, hex_norm. intros H.
  destruct (Z.eqb_spec (len (trim v)) n); [|done].
  destruct (sall is_ascii_hexdigit (trim v)) eqn:E; simplify_eq/=.
  split; [apply len_lower|by apply hex_lower_norm].
Qed.

Lemma lower_hex_all s : sall is_lower_hex s = true -> sall is_ascii_hexdigit s = true.
Proof. apply sall_impl, lower_hex_hexdigit. Qed.

Lemma normalize_hex_exact_id n label s : hex_norm n s -> normalize_hex_exact s n label = Ok s.
Proof.
  intros Hs. unfold normalize_hex_exact. rewrite (hex_norm_trim _ _ Hs). destruct Hs as [Hl Hs].
  by rewrite Hl, Z.eqb_refl, (lower_hex_all _ Hs), lower_hex_id.
Qed.

Lemma normalize_even_hex_ok v label s : normalize_even_hex v label = Ok s -> even_hex s.
Proof.
  unfold normalize_even_hex, even_hex. intros H.
  destruct (is_empty (trim v)) eqn:E1; [done|].
  destruct (Z.eqb_spec (len (trim v) mod 2) 0); [|done].
  destruct (sall is_ascii_hexdigit (trim v)) eqn:E; simplify_eq/=.
  rewrite len_lower. split_and!; [|done|by apply hex_lower_norm].
  by destruct (trim v).
Qed.

Lemma normalize_even_hex_id label s : even_hex s -> normalize_even_hex s label = Ok s.
Proof.
  intros (He & Hl & Hs). unfold normalize_even_hex.
  rewrite (hex_norm_trim (len s)) by done.
  by rewrite He, Hl, (lower_hex_all _ Hs), lower_hex_id.
Qed.

Lemma normalize_action_ok v s : normalize_action v = Ok s -> s ∈ ["release"; "refund"].
Proof. unfold normalize_action. intros H. case_match eqn:E; simplify_eq. by apply one_of_spec. Qed.

Lemma normalize_worker_role_ok v s :
  normalize_worker_role v = Ok s -> s ∈ ["buyer"; "seller"; "arbiter"].
Proof. unfold normalize_worker_role. intros H. case_match eqn:E; simplify_eq. by apply one_of_spec. Qed.

(** The signing round that belongs to a role. *)
Definition round_of_role (role : string) : option string :=
  if (role =? "arbiter")%string then Some "arbiter_first"
  else if (role =? "seller")%string then Some "seller_second"
  else if (role =? "buyer")%string then Some "buyer_second"
  else None.

Lemma normalize_round_ok role v s :
  normalize_quorum_sign_round_for_role role v = Ok s -> round_of_role role = Some s.
Proof.
  unfold normalize_quorum_sign_round_for_role, round_of_role. intros H. rok.
  repeat case_match; rok; simplify_eq;
    match goal with H : negb (?a =? ?b)%string = false |- _ =>
      apply negb_false_iff, String.eqb_eq in H; rewrite H end; done.
Qed.

Lemma normalize_round_id role s :
  round_of_role role = Some s -> normalize_quorum_sign_round_for_role role s = Ok s.
Proof.
  unfold round_of_role. intros H. repeat case_match; simplify_eq;
    match goal with H : (role =? _)%string = true |- _ => apply String.eqb_eq in H end;
    by subst.
Qed.

Lemma normalize_jti_ok v label s : normalize_jti v label = Ok s -> trimmed s /\ len s <= 256.
Proof.
  unfold normalize_jti. intros H. rok. case_match eqn:E; simplify_eq.
  split; [by eapply normalize_non_empty_ok|lia].
Qed.

Lemma normalize_jti_id label s : trimmed s -> len s <= 256 -> normalize_jti s label = Ok s.
Proof.
  intros Hs Hl. unfold normalize_jti. rewrite normalize_non_empty_id by done. simpl.
  case_match eqn:E; [lia|done].
Qed.

Lemma participants_loop_ok raw : forall (seen : gset string) out l,
  normalize_participants_loop seen out raw = Ok l ->
  (forall p, p ∈ seen <-> p ∈ out) -> Forall trimmed out -> NoDup out ->
  Forall trimmed l /\ NoDup l /\ out `prefix_of` l /\ length l = (length out + length raw)%nat.
Proof.
  induction raw as [|r raw IH]; intros seen out l H Hseen Hout Hnd; simpl in H.
  { rok. rewrite Nat.add_0_r. split_and!; done. }
  rok. case_bool_decide as E; [done|].
  apply normalize_non_empty_ok in H0.
  apply IH in H as (Hl & Hn & Hp & Hlen).
  - split_and!; [done..| |].
    + etrans; [|exact Hp]. by apply prefix_app_r.
    + rewrite Hlen, length_app. simpl. lia.
  - intros p. rewrite elem_of_union, elem_of_singleton, elem_of_app, list_elem_of_singleton, Hseen.
    naive_solver.
  - apply Forall_app_2; [done|by constructor].
  - apply NoDup_app. split_and!; [done| |apply NoDup_singleton].
    intros x Hx Hv%list_elem_of_singleton. subst. by apply E, Hseen.
Qed.

Lemma normalize_participants_ok raw l : normalize_participants raw = Ok l -> participants_ok l.
Proof.
  unfold normalize_participants, participants_ok. intros H. destruct raw as [|r raw]; [done|].
  apply participants_loop_ok in H as (Hl & Hn & _ & Hlen); [|set_solver|constructor..].
  split_and!; [|done..]. by intros ->.
Qed.

Lemma participants_loop_id raw : forall (seen : gset string) out,
  Forall trimmed raw -> NoDup raw -> (forall p, p ∈ raw -> p ∉ seen) ->
  normalize_participants_loop seen out raw = Ok (out ++ raw).
Proof.
  induction raw as [|r raw IH]; intros seen out Hr Hnd Hseen; simpl; [by rewrite app_nil_r|].
  apply Forall_cons in Hr as [Hr Hraw]. apply NoDup_cons in Hnd as [Hnr Hnd].
  rewrite normalize_non_empty_id by done. simpl.
  rewrite bool_decide_eq_false_2 by (apply Hseen; set_solver).
  rewrite IH; [by rewrite <- app_assoc|done..|].
  intros p Hp. rewrite elem_of_union, elem_of_singleton. intros [->|?]; [done|].
  eapply (Hseen p); set_solver.
Qed.

(** Stored participants are a fixed point of the normalisation. *)
Lemma normalize_participants_id l : participants_ok l -> normalize_participants l = Ok l.
Proof.
  intros (Hne & Hl & Hnd). unfold normalize_participants. destruct l as [|p l]; [done|].
  rewrite participants_loop_id; [done..|set_solver].
Qed.
