(* ===== verification/OrchSpec.v ===== *)
(** * What the orchestrator's database promises

    The abstract side of [OrchDb]: the guarded writes the tables admit
    ([db_step]), the invariant they keep ([db_ok]) and the order in which the
    database may grow ([db_evolves]).  [OrchRefine] shows that every operation
    of the code is one such write or none. *)

From S2P Require Import Prelude RustString Sql Flow OrchDb.
From Stdlib Require Import Sorting.Sorted.

Section spec.
Context `{OrchExt}.

Definition row_state (w : wf_row) : WorkflowState := parse_state_column (wf_state w).
Definition row_participants (w : wf_row) : list string := wi_participants (row_to_workflow w).
Definition wf_row_of (d : db) (id : string) : option wf_row :=
  List.find (fun r => wf_escrow_id_hex r =? id)%string (workflow_instances d).
Definition wf_move (to : WorkflowState) (now : Z) (r : wf_row) : wf_row :=
  WfRow (wf_escrow_id_hex r) (as_str to) (wf_snapshot_hash_hex r) (wf_participants_json r)
    (wf_created_at_ms r) now.

(** ** Rows *)

Definition wf_row_ok (w : wf_row) : Prop :=
  hex_norm 32 (wf_escrow_id_hex w) /\ hex_norm 64 (wf_snapshot_hash_hex w) /\
  (exists s, wf_state w = as_str s) /\
  (exists ps, wf_participants_json w = participants_to_json ps /\ participants_ok ps).

(** How the state a message claims may relate to the workflow's state: when
    the row is written, and for ever after. *)
Definition at_or_next (cur s : WorkflowState) : Prop := cur = s \/ moves cur s.
Definition not_ahead (cur s : WorkflowState) : Prop :=
  s = FailedDeadLetter \/ (state_rank s <= S (state_rank cur))%nat.

Definition msg_type_ok (s : WorkflowState) (msg_type : string) : Prop :=
  forall m, expected_msg_type_for_state s = Some m -> msg_type = m.

Definition step_row_ok (fit : WorkflowState -> WorkflowState -> Prop) (w : wf_row) (r : step_row)
    : Prop :=
  exists s seq,
    st_state r = as_str s /\ fit (row_state w) s /\ msg_type_ok s (st_msg_type r) /\
    st_from_id r ∈ row_participants w /\ is_u64 seq /\ st_seq r = to_i64 seq /\
    st_idem_key r = step_idem_key sha3_256 (st_escrow_id_hex r) s (st_from_id r) seq /\
    hex_norm 64 (st_payload_hash_hex r) /\ st_status r = "accepted".

Definition outbox_row_ok (fit : WorkflowState -> WorkflowState -> Prop) (w : wf_row)
    (r : outbox_row) : Prop :=
  exists s,
    ob_state r = as_str s /\ fit (row_state w) s /\ msg_type_ok s (ob_msg_type r) /\
    ob_to_id r ∈ row_participants w /\
    ob_idem_key r = outbox_idem_key sha3_256 (ob_escrow_id_hex r) s (ob_to_id r) (ob_msg_type r)
                      (sha3_hex (ob_envelope_json r)) /\
    ob_status r ∈ ["pending"; "sent"; "acked"; "dead_letter"] /\ 0 <= ob_attempts r.

(** The dead letter that [mark_outbox_retry_sync] leaves for a message. *)
Definition dead_letter_of (r : outbox_row) (l : dead_letter_row) : Prop :=
  dl_escrow_id_hex l = ob_escrow_id_hex r /\ dl_stage l = "outbox_delivery" /\
  dl_payload_hash_hex l = Some (sha3_hex (ob_envelope_json r)).

Definition offset_row_ok (r : offset_row) : Prop :=
  trimmed (io_peer_id r) /\ hex_norm 32 (io_escrow_id_hex r) /\ 0 <= io_last_seq r <= I64_MAX.
Definition offset_key (r : offset_row) : string * string := (io_peer_id r, io_escrow_id_hex r).

(** The workflow is funded, or was before it failed. *)
Definition funded_once (w : wf_row) : Prop :=
  (state_rank Funded <= state_rank (row_state w))%nat.

Definition proposal_ok (r : ProposalBlob) : Prop :=
  pb_action r ∈ ["release"; "refund"] /\ even_hex (pb_tx_data_hex r) /\
  hex_norm 64 (pb_txset_hash_hex r).
Definition admission_ok (w : wf_row) (r : EscrowAdmissionArtifactRow) : Prop :=
  ea_action r ∈ ["release"; "refund"] /\ ea_snapshot_hash_hex r = wf_snapshot_hash_hex w.
Definition quorum_key (r : QuorumSignProof) : string * string * string * string :=
  (qp_escrow_id_hex r, qp_role r, qp_sign_round r, qp_txset_hash_hex r).
Definition quorum_ok (r : QuorumSignProof) : Prop :=
  qp_role r ∈ ["buyer"; "seller"; "arbiter"] /\ round_of_role (qp_role r) = Some (qp_sign_round r) /\
  hex_norm 64 (qp_txset_hash_hex r) /\ trimmed (qp_jti r) /\ len (qp_jti r) <= 256 /\
  hex_norm 64 (qp_req_id r).

(** ** The guarded writes *)

(** A message still under way. *)
Definition ob_open (r : outbox_row) : Prop := ob_status r = "pending" \/ ob_status r = "sent".

Definition proposal_merge (old new : ProposalBlob) : ProposalBlob :=
  MkProposalBlob (pb_escrow_id_hex old) (pb_action new) (pb_tx_data_hex new)
    (pb_txset_hash_hex new) (pb_created_at_ms old) (pb_updated_at_ms new).
Definition admission_merge (old new : EscrowAdmissionArtifactRow) : EscrowAdmissionArtifactRow :=
  MkAdmissionRow (ea_escrow_id_hex old) (ea_snapshot_hash_hex new) (ea_action new)
    (ea_runtime_trust_epoch new) (ea_artifact_hash_hex new) (ea_artifact_json new)
    (ea_created_at_ms old) (ea_updated_at_ms new).
Definition quorum_merge (old new : QuorumSignProof) : QuorumSignProof :=
  MkQuorumSignProof (qp_escrow_id_hex old) (qp_role old) (qp_sign_round old)
    (qp_txset_hash_hex old) (qp_jti new) (qp_req_id new) (qp_updated_at_ms new).

Inductive db_step (d : db) : db -> Prop :=
| DsCreate id snap ps now :
    hex_norm 32 id -> hex_norm 64 snap -> participants_ok ps -> wf_row_of d id = None ->
    db_step d (set_workflow_instances
      (workflow_instances d ++ [WfRow id (as_str New) snap (participants_to_json ps) now now]) d)
| DsTransition id w to now :
    wf_row_of d id = Some w -> moves (row_state w) to ->
    db_step d (set_workflow_instances
      (update_rows (fun r => wf_escrow_id_hex r =? id)%string (wf_move to now)
         (workflow_instances d)) d)
| DsStep w r :
    wf_row_of d (st_escrow_id_hex r) = Some w -> step_row_ok at_or_next w r ->
    st_id r = t_seq (workflow_steps d) + 1 -> t_seq (workflow_steps d) < I64_MAX ->
    (forall x, x ∈ t_rows (workflow_steps d) -> st_idem_key x <> st_idem_key r) ->
    db_step d (set_workflow_steps (Table (st_id r) (t_rows (workflow_steps d) ++ [r])) d)
| DsDeadLetter l :
    dl_id l = t_seq (dead_letters d) + 1 -> t_seq (dead_letters d) < I64_MAX ->
    db_step d (set_dead_letters (Table (dl_id l) (t_rows (dead_letters d) ++ [l])) d)
| DsEnqueue w r :
    wf_row_of d (ob_escrow_id_hex r) = Some w -> outbox_row_ok at_or_next w r ->
    ob_status r = "pending" ->
    ob_id r = t_seq (outbox d) + 1 -> t_seq (outbox d) < I64_MAX ->
    (forall x, x ∈ t_rows (outbox d) -> ob_idem_key x <> ob_idem_key r) ->
    db_step d (set_outbox (Table (ob_id r) (t_rows (outbox d) ++ [r])) d)
| DsDeliver p id now status attempts next :
    (forall r, r ∈ t_rows (outbox d) -> p r = true ->
       ob_id r = id /\ ob_open r /\ Z.min I64_MAX (ob_attempts r) <= attempts (ob_attempts r)) ->
    status ∈ ["pending"; "sent"; "acked"] ->
    db_step d (set_outbox (update_table p (outbox_touch now status attempts next) (outbox d)) d)
| DsGiveUp id now next r l :
    r ∈ t_rows (outbox d) -> ob_id r = id -> ob_open r -> dead_letter_of r l ->
    dl_id l = t_seq (dead_letters d) + 1 -> t_seq (dead_letters d) < I64_MAX ->
    db_step d (set_dead_letters (Table (dl_id l) (t_rows (dead_letters d) ++ [l]))
      (set_outbox (update_table (fun r => ob_id r =? id)
         (outbox_touch now "dead_letter" (fun _ => sat_add_i64 (ob_attempts r) 1) (Some next))
         (outbox d)) d))
| DsOffset r :
    offset_row_ok r ->
    (forall x, x ∈ inbox_offsets d -> offset_key x = offset_key r -> io_last_seq x < io_last_seq r) ->
    db_step d (set_inbox_offsets (upserted offset_same (fun _ new => new) r (inbox_offsets d)) d)
| DsProposal w r :
    wf_row_of d (pb_escrow_id_hex r) = Some w -> allows_proposal_state (row_state w) = true ->
    proposal_ok r ->
    db_step d (set_proposal_blobs (upserted proposal_same proposal_merge r (proposal_blobs d)) d)
| DsAdmission w r :
    wf_row_of d (ea_escrow_id_hex r) = Some w -> admission_ok w r ->
    db_step d (set_admissions
      (upserted admission_same admission_merge r (escrow_admission_artifacts d)) d)
| DsQuorum w r :
    wf_row_of d (qp_escrow_id_hex r) = Some w ->
    workflow_allows_quorum_proof_state (row_state w) = true -> quorum_ok r ->
    (forall x, x ∈ quorum_sign_proofs d -> qp_req_id x = qp_req_id r -> quorum_key x = quorum_key r) ->
    db_step d (set_quorum_sign_proofs
      (upserted quorum_same quorum_merge r (quorum_sign_proofs d)) d).

(** ** The invariant *)

(** The row's workflow exists and satisfies [P]. *)
Definition with_wf (ws : list wf_row) (id : string) (P : wf_row -> Prop) : Prop :=
  exists w, w ∈ ws /\ wf_escrow_id_hex w = id /\ P w.

Record db_ok (d : db) : Prop := DbOk {
  ok_wf_unique : NoDup (map wf_escrow_id_hex (workflow_instances d));
  ok_wf : Forall wf_row_ok (workflow_instances d);
  ok_step_ids : ids_ok st_id (workflow_steps d);
  ok_step_unique : NoDup (map st_idem_key (t_rows (workflow_steps d)));
  ok_steps : Forall (fun r => with_wf (workflow_instances d) (st_escrow_id_hex r)
                                (fun w => step_row_ok not_ahead w r)) (t_rows (workflow_steps d));
  ok_ob_ids : ids_ok ob_id (outbox d);
  ok_ob_unique : NoDup (map ob_idem_key (t_rows (outbox d)));
  ok_ob : Forall (fun r => with_wf (workflow_instances d) (ob_escrow_id_hex r)
                             (fun w => outbox_row_ok not_ahead w r)) (t_rows (outbox d));
  ok_ob_dead : Forall (fun r => ob_status r = "dead_letter" ->
                         exists l, l ∈ t_rows (dead_letters d) /\ dead_letter_of r l)
                 (t_rows (outbox d));
  ok_off_unique : NoDup (map offset_key (inbox_offsets d));
  ok_off : Forall offset_row_ok (inbox_offsets d);
  ok_prop_unique : NoDup (map pb_escrow_id_hex (proposal_blobs d));
  ok_prop : Forall (fun r => with_wf (workflow_instances d) (pb_escrow_id_hex r) funded_once /\
                             proposal_ok r) (proposal_blobs d);
  ok_adm_unique : NoDup (map ea_escrow_id_hex (escrow_admission_artifacts d));
  ok_adm : Forall (fun r => with_wf (workflow_instances d) (ea_escrow_id_hex r)
                              (fun w => admission_ok w r)) (escrow_admission_artifacts d);
  ok_quorum_unique : NoDup (map quorum_key (quorum_sign_proofs d));
  ok_quorum_req : NoDup (map qp_req_id (quorum_sign_proofs d));
  ok_quorum : Forall (fun r => with_wf (workflow_instances d) (qp_escrow_id_hex r) funded_once /\
                               quorum_ok r) (quorum_sign_proofs d);
  ok_dl_ids : ids_ok dl_id (dead_letters d);
}.

(** ** Growth *)

(** A workflow keeps its identity and moves along the automaton. *)
Definition wf_le (w w' : wf_row) : Prop :=
  wf_escrow_id_hex w' = wf_escrow_id_hex w /\ wf_snapshot_hash_hex w' = wf_snapshot_hash_hex w /\
  wf_participants_json w' = wf_participants_json w /\ wf_created_at_ms w' = wf_created_at_ms w /\
  evolves (row_state w) (row_state w').

Definition ob_terminal (r : outbox_row) : bool := one_of ["acked"; "dead_letter"] (ob_status r).
(** A message keeps its content, its attempts do not decrease (they saturate
    at the largest [i64]), and once it is
    acknowledged or dead it does not change at all. *)
Definition ob_le (r r' : outbox_row) : Prop :=
  ob_id r' = ob_id r /\ ob_escrow_id_hex r' = ob_escrow_id_hex r /\ ob_state r' = ob_state r /\
  ob_to_id r' = ob_to_id r /\ ob_msg_type r' = ob_msg_type r /\
  ob_envelope_json r' = ob_envelope_json r /\ ob_idem_key r' = ob_idem_key r /\
  ob_created_at_ms r' = ob_created_at_ms r /\
  Z.min I64_MAX (ob_attempts r) <= ob_attempts r' /\
  (ob_terminal r = true -> r' = r).

Definition off_le (r r' : offset_row) : Prop :=
  offset_key r' = offset_key r /\ io_last_seq r <= io_last_seq r'.

Record db_evolves (d d' : db) : Prop := DbEvolves {
  ev_wf : rows_le wf_le (workflow_instances d) (workflow_instances d');
  ev_steps : t_rows (workflow_steps d) `prefix_of` t_rows (workflow_steps d');
  ev_dl : t_rows (dead_letters d) `prefix_of` t_rows (dead_letters d');
  ev_ob : rows_le ob_le (t_rows (outbox d)) (t_rows (outbox d'));
  ev_off : rows_le off_le (inbox_offsets d) (inbox_offsets d');
}.

End spec.
