(* ===== verification/OrchInv.v ===== *)
(** * Guarded writes keep the invariant and only grow the database

    Rule by rule over [db_step]: [db_ok] is preserved ([db_step_ok]) and the
    new database is a [db_evolves]-successor of the old one
    ([db_step_evolves]). *)

From S2P Require Import Prelude RustString Sql Flow OrchDb OrchSpec.

Section inv.
Context `{OrchExt}.

#[global] Instance evolves_preorder : PreOrder evolves.
Proof. unfold evolves. apply _. Qed.

#[global] Instance wf_le_preorder : PreOrder wf_le.
Proof.
  split; [by intros w|]. intros a b c (?&?&?&?&E1) (?&?&?&?&E2). unfold wf_le.
  split_and!; try congruence. by etrans.
Qed.

#[global] Instance ob_le_preorder : PreOrder ob_le.
Proof.
  split; [intros r; unfold ob_le; split_and!; done || lia|].
  intros a b c (?&?&?&?&?&?&?&?&?&T1) (?&?&?&?&?&?&?&?&?&T2). unfold ob_le.
  split_and!; try congruence; [lia|]. intros T. rewrite T1 in T2 by done. by apply T2.
Qed.

#[global] Instance off_le_preorder : PreOrder off_le.
Proof.
  split; [by intros r|]. intros a b c [? ?] [? ?]. split; [congruence|lia].
Qed.

#[global] Instance db_evolves_preorder : PreOrder db_evolves.
Proof.
  split; [by intros d|]. intros a b c [] []. constructor; by etrans.
Qed.

(** ** Facts that survive the workflow's progress *)

Lemma with_wf_mono ws ws' id (P : wf_row -> Prop) :
  rows_le wf_le ws ws' -> (forall w w', wf_le w w' -> P w -> P w') ->
  with_wf ws id P -> with_wf ws' id P.
Proof.
  intros Hle Hmono (w & Hw & <- & HP). destruct (Hle w Hw) as (w' & Hw' & Hww).
  exists w'. split_and!; [done|by apply Hww|by eapply Hmono].
Qed.

Lemma with_wf_impl ws id (P Q : wf_row -> Prop) :
  (forall w, P w -> Q w) -> with_wf ws id P -> with_wf ws id Q.
Proof. intros HPQ (w & ? & ? & ?). exists w. auto. Qed.

Lemma row_participants_le w w' : wf_le w w' -> row_participants w' = row_participants w.
Proof. intros (_ & _ & E & _). unfold row_participants, row_to_workflow. simpl. by rewrite E. Qed.

Lemma not_ahead_mono s t u : evolves s t -> not_ahead s u -> not_ahead t u.
Proof. intros Hr%evolves_rank [?|?]; [by left|right; lia]. Qed.

Lemma at_or_next_not_ahead s t : at_or_next s t -> not_ahead s t.
Proof.
  intros [->|[[_ E]|[-> _]]%can_transition_spec]; [right; lia|right; lia|by left].
Qed.

Lemma step_row_ok_mono w w' r : wf_le w w' -> step_row_ok not_ahead w r -> step_row_ok not_ahead w' r.
Proof.
  intros Hle (s & q & Hst & Hf & Hm & Hp & Hrest). exists s, q.
  rewrite (row_participants_le _ _ Hle).
  split_and!; try done; try apply Hrest. eapply not_ahead_mono; [apply Hle|done].
Qed.

Lemma outbox_row_ok_mono w w' r :
  wf_le w w' -> outbox_row_ok not_ahead w r -> outbox_row_ok not_ahead w' r.
Proof.
  intros Hle (s & Hst & Hf & Hm & Hp & Hrest). exists s.
  rewrite (row_participants_le _ _ Hle).
  split_and!; try done; try apply Hrest. eapply not_ahead_mono; [apply Hle|done].
Qed.

Lemma funded_once_mono w w' : wf_le w w' -> funded_once w -> funded_once w'.
Proof. intros (_ & _ & _ & _ & Hr%evolves_rank). unfold funded_once. lia. Qed.

Lemma admission_ok_mono w w' r : wf_le w w' -> admission_ok w r -> admission_ok w' r.
Proof. intros (_ & Hs & _) [??]. split; congruence. Qed.

#[local] Hint Resolve step_row_ok_mono outbox_row_ok_mono funded_once_mono admission_ok_mono : core.

(** ** The workflow table *)

Lemma wf_row_of_elem d id w :
  wf_row_of d id = Some w -> w ∈ workflow_instances d /\ wf_escrow_id_hex w = id.
Proof. intros [Hw E]%find_some_elem. apply String.eqb_eq in E. done. Qed.

Lemma wf_row_of_with d id w (P : wf_row -> Prop) :
  wf_row_of d id = Some w -> P w -> with_wf (workflow_instances d) id P.
Proof. intros [Hw <-]%wf_row_of_elem HP. by exists w. Qed.

Lemma wf_row_of_unique d id w w' :
  db_ok d -> wf_row_of d id = Some w -> w' ∈ workflow_instances d ->
  wf_escrow_id_hex w' = id -> w' = w.
Proof.
  intros Hok [Hw E]%wf_row_of_elem Hw' E'. eapply unique_row; [apply Hok|done..|congruence].
Qed.

Lemma row_state_as_str id s snap ps c u : row_state (WfRow id (as_str s) snap ps c u) = s.
Proof. unfold row_state, parse_state_column. simpl. by rewrite state_roundtrip. Qed.

Lemma wf_move_le to now w : moves (row_state w) to -> wf_le w (wf_move to now w).
Proof.
  intros Hm. split_and!; try done. unfold wf_move. rewrite row_state_as_str. by apply rtc_once.
Qed.

(** Replacing the workflow table by a later version of it. *)
Lemma db_ok_workflows d ws :
  db_ok d -> rows_le wf_le (workflow_instances d) ws -> NoDup (map wf_escrow_id_hex ws) ->
  Forall wf_row_ok ws -> db_ok (set_workflow_instances ws d).
Proof.
  intros [] Hle Hnd Hws. constructor; simpl; try done.
  - eapply Forall_impl; [exact ok_steps|]. intros r. apply with_wf_mono; eauto.
  - eapply Forall_impl; [exact ok_ob|]. intros r. apply with_wf_mono; eauto.
  - eapply Forall_impl; [exact ok_prop|]. intros r [? ?]. split; [|done]. eapply with_wf_mono; eauto.
  - eapply Forall_impl; [exact ok_adm|]. intros r. apply with_wf_mono; eauto.
  - eapply Forall_impl; [exact ok_quorum|]. intros r [? ?]. split; [|done]. eapply with_wf_mono; eauto.
Qed.

Lemma transition_le d id w to now :
  db_ok d -> wf_row_of d id = Some w -> moves (row_state w) to ->
  rows_le wf_le (workflow_instances d)
    (update_rows (fun r => wf_escrow_id_hex r =? id)%string (wf_move to now) (workflow_instances d)).
Proof.
  intros Hok Hw Hm. apply rows_le_update; [apply _|]. intros r Hr E%String.eqb_eq.
  rewrite (wf_row_of_unique _ _ _ _ Hok Hw Hr E). by apply wf_move_le.
Qed.

(** ** The outbox *)

Lemma outbox_touch_row_ok w r now status attempts next :
  (0 <= ob_attempts r -> 0 <= attempts (ob_attempts r)) ->
  status ∈ ["pending"; "sent"; "acked"; "dead_letter"] ->
  outbox_row_ok not_ahead w r ->
  outbox_row_ok not_ahead w (outbox_touch now status attempts next r).
Proof.
  intros Ha Hs (s & Hst & Hf & Hm & Hp & Hi & _ & Hn). exists s. split_and!; auto.
Qed.

Lemma outbox_touch_le r now status attempts next :
  ob_open r -> Z.min I64_MAX (ob_attempts r) <= attempts (ob_attempts r) ->
  ob_le r (outbox_touch now status attempts next r).
Proof.
  intros Ho Ha. unfold ob_le. split_and!; simpl; try done.
  unfold ob_terminal. by destruct Ho as [->| ->].
Qed.

(** Replacing the outbox by a table with the same messages. *)
Lemma db_ok_touch d p now status attempts next dls :
  db_ok d -> ids_ok dl_id dls -> t_rows (dead_letters d) `prefix_of` t_rows dls ->
  (forall r, r ∈ t_rows (outbox d) -> p r = true -> 0 <= ob_attempts r ->
     0 <= attempts (ob_attempts r)) ->
  status ∈ ["pending"; "sent"; "acked"; "dead_letter"] ->
  (status = "dead_letter" -> forall r, r ∈ t_rows (outbox d) -> p r = true ->
     exists l, l ∈ t_rows dls /\ dead_letter_of r l) ->
  db_ok (set_dead_letters dls
    (set_outbox (update_table p (outbox_touch now status attempts next) (outbox d)) d)).
Proof.
  intros [] Hids [k Hpre] Ha Hs Hd. constructor; simpl; try done.
  - by apply ids_ok_update.
  - by rewrite map_update.
  - rewrite Forall_forall in ok_ob |- *. intros r (x & Hx & ->)%elem_of_update.
    destruct (p x) eqn:E; [|by apply ok_ob]. simpl. eapply with_wf_impl; [|by apply ok_ob].
    intros w Hw. apply outbox_touch_row_ok; eauto.
  - rewrite Forall_forall in ok_ob_dead |- *. intros r (x & Hx & ->)%elem_of_update.
    destruct (p x) eqn:E; simpl.
    + intros Est. destruct (Hd Est x Hx E) as (l & Hl & Hdl). by exists l.
    + intros Est. destruct (ok_ob_dead x Hx Est) as (l & Hl & Hdl). exists l.
      rewrite Hpre. set_solver.
Qed.

Lemma ob_id_unique d r x :
  db_ok d -> r ∈ t_rows (outbox d) -> x ∈ t_rows (outbox d) -> ob_id x = ob_id r -> x = r.
Proof. intros Hok Hr Hx E. eapply unique_row; [apply ids_ok_NoDup, Hok|done..]. Qed.

Lemma db_ok_dead_letters d dls :
  db_ok d -> ids_ok dl_id dls -> t_rows (dead_letters d) `prefix_of` t_rows dls ->
  db_ok (set_dead_letters dls d).
Proof.
  intros [] Hids [k Hpre]. constructor; simpl; try done.
  eapply Forall_impl; [exact ok_ob_dead|]. intros r Hr Hs. destruct (Hr Hs) as (l & Hl & ?).
  exists l. rewrite Hpre. set_solver.
Qed.

Lemma offset_same_key r x : offset_same r x = true <-> offset_key x = offset_key r.
Proof.
  unfold offset_same, offset_key. rewrite pair_equal_spec, andb_true_iff, !String.eqb_eq.
  intuition congruence.
Qed.

Lemma proposal_same_key r x : proposal_same r x = true <-> pb_escrow_id_hex x = pb_escrow_id_hex r.
Proof. unfold proposal_same. rewrite String.eqb_eq. intuition congruence. Qed.

Lemma admission_same_key r x : admission_same r x = true <-> ea_escrow_id_hex x = ea_escrow_id_hex r.
Proof. unfold admission_same. rewrite String.eqb_eq. intuition congruence. Qed.

Lemma quorum_same_key r x : quorum_same r x = true <-> quorum_key x = quorum_key r.
Proof.
  unfold quorum_same, quorum_key. rewrite !pair_equal_spec, !andb_true_iff, !String.eqb_eq.
  intuition congruence.
Qed.

Lemma allows_quorum_funded w : workflow_allows_quorum_proof_state (row_state w) = true -> funded_once w.
Proof. unfold funded_once. destruct (row_state w); simpl; done || lia. Qed.

Lemma allows_proposal_funded w : allows_proposal_state (row_state w) = true -> funded_once w.
Proof. unfold funded_once. destruct (row_state w); simpl; done || lia. Qed.

(** ** Growth *)

Lemma ob_attempts_nonneg d r : db_ok d -> r ∈ t_rows (outbox d) -> 0 <= ob_attempts r.
Proof.
  intros Hok Hr. pose proof (ok_ob _ Hok) as Hf. rewrite Forall_forall in Hf.
  destruct (Hf r Hr) as (w & _ & _ & s & _ & _ & _ & _ & _ & _ & Hn). done.
Qed.

Lemma db_step_evolves d d' : db_ok d -> db_step d d' -> db_evolves d d'.
Proof.
  intros Hok. destruct 1; constructor; simpl; try done;
    try (by apply rows_le_snoc, _); try (by apply prefix_app_r).
  - eapply transition_le; eauto.
  - apply rows_le_update; [apply _|]. intros r Hr Hp. apply outbox_touch_le; naive_solver.
  - apply rows_le_update; [apply _|]. intros x Hx E%Z.eqb_eq.
    assert (x = r) as -> by (eapply ob_id_unique; eauto; congruence).
    pose proof (ob_attempts_nonneg _ _ Hok Hx). apply outbox_touch_le; [done|mlia].
  - apply rows_le_upserted; [apply _|]. intros x Hx E%offset_same_key. split; [done|].
    match goal with K : forall x, _ |- _ => specialize (K x Hx E) end. lia.
Qed.

(** ** The invariant *)

Lemma db_ok_empty : db_ok empty_db.
Proof. constructor; simpl; try constructor; apply ids_ok_empty. Qed.

Lemma step_row_ok_now w r : step_row_ok at_or_next w r -> step_row_ok not_ahead w r.
Proof.
  intros (s & q & Hst & Hf & Hrest). exists s, q. split_and!; try done; try apply Hrest.
  by apply at_or_next_not_ahead.
Qed.

Lemma outbox_row_ok_now w r : outbox_row_ok at_or_next w r -> outbox_row_ok not_ahead w r.
Proof.
  intros (s & Hst & Hf & Hrest). exists s. split_and!; try done; try apply Hrest.
  by apply at_or_next_not_ahead.
Qed.

Lemma db_ok_create d id snap ps now :
  db_ok d -> hex_norm 32 id -> hex_norm 64 snap -> participants_ok ps -> wf_row_of d id = None ->
  db_ok (set_workflow_instances
    (workflow_instances d ++ [WfRow id (as_str New) snap (participants_to_json ps) now now]) d).
Proof.
  intros Hok Hid Hsnap Hps Hfresh. apply db_ok_workflows; [done|by apply rows_le_snoc, _|..].
  - apply NoDup_map_snoc; [apply Hok|]. intros x Hx E. simpl in E.
    unfold wf_row_of in Hfresh. rewrite find_none_elem in Hfresh. specialize (Hfresh x Hx).
    by rewrite E, String.eqb_refl in Hfresh.
  - apply Forall_app_2; [apply Hok|]. constructor; [|done]. refine (conj Hid (conj Hsnap (conj _ _))); eauto.
Qed.

Lemma db_ok_transition d id w to now :
  db_ok d -> wf_row_of d id = Some w -> moves (row_state w) to ->
  db_ok (set_workflow_instances
    (update_rows (fun r => wf_escrow_id_hex r =? id)%string (wf_move to now)
       (workflow_instances d)) d).
Proof.
  intros Hok Hw Hm. apply db_ok_workflows; [done|by eapply transition_le|..].
  - rewrite map_update; [apply Hok|done].
  - apply Forall_update; [apply Hok|]. intros r (Hi&Hs&_&Hp) _.
    refine (conj Hi (conj Hs (conj _ Hp))). by exists to.
Qed.

Lemma db_ok_step d w r :
  db_ok d -> wf_row_of d (st_escrow_id_hex r) = Some w -> step_row_ok at_or_next w r ->
  st_id r = t_seq (workflow_steps d) + 1 -> t_seq (workflow_steps d) < I64_MAX ->
  (forall x, x ∈ t_rows (workflow_steps d) -> st_idem_key x <> st_idem_key r) ->
  db_ok (set_workflow_steps (Table (st_id r) (t_rows (workflow_steps d) ++ [r])) d).
Proof.
  intros Hok Hw Hr Hid Hlt Hfresh. destruct Hok eqn:E; clear E. constructor; simpl; try done.
  - by apply ids_ok_snoc.
  - by apply NoDup_map_snoc.
  - apply Forall_app_2; [done|]. repeat constructor.
    eapply wf_row_of_with; [done|by apply step_row_ok_now].
Qed.

Lemma db_ok_enqueue d w r :
  db_ok d -> wf_row_of d (ob_escrow_id_hex r) = Some w -> outbox_row_ok at_or_next w r ->
  ob_status r = "pending" -> ob_id r = t_seq (outbox d) + 1 -> t_seq (outbox d) < I64_MAX ->
  (forall x, x ∈ t_rows (outbox d) -> ob_idem_key x <> ob_idem_key r) ->
  db_ok (set_outbox (Table (ob_id r) (t_rows (outbox d) ++ [r])) d).
Proof.
  intros Hok Hw Hr Hs Hid Hlt Hfresh. destruct Hok eqn:E; clear E. constructor; simpl; try done.
  - by apply ids_ok_snoc.
  - by apply NoDup_map_snoc.
  - apply Forall_app_2; [done|]. repeat constructor.
    eapply wf_row_of_with; [done|by apply outbox_row_ok_now].
  - apply Forall_app_2; [done|]. repeat constructor. by rewrite Hs.
Qed.

Lemma db_ok_deliver d p id now status attempts next :
  db_ok d ->
  (forall r, r ∈ t_rows (outbox d) -> p r = true ->
     ob_id r = id /\ ob_open r /\ Z.min I64_MAX (ob_attempts r) <= attempts (ob_attempts r)) ->
  status ∈ ["pending"; "sent"; "acked"] ->
  db_ok (set_outbox (update_table p (outbox_touch now status attempts next) (outbox d)) d).
Proof.
  intros Hok Hp Hs. assert (status <> "dead_letter") by set_solver.
  pose proof (db_ok_touch d p now status attempts next (dead_letters d) Hok) as K.
  apply K; clear K; [apply Hok|done|..|set_solver|done].
  intros r Hr Hpr Hn. destruct (Hp r Hr Hpr) as (_ & _ & Ha). ints. lia.
Qed.

Lemma db_ok_give_up d now next r l :
  db_ok d -> r ∈ t_rows (outbox d) -> dead_letter_of r l ->
  dl_id l = t_seq (dead_letters d) + 1 -> t_seq (dead_letters d) < I64_MAX ->
  db_ok (set_dead_letters (Table (dl_id l) (t_rows (dead_letters d) ++ [l]))
    (set_outbox (update_table (fun x => ob_id x =? ob_id r)
       (outbox_touch now "dead_letter" (fun _ => sat_add_i64 (ob_attempts r) 1) (Some next))
       (outbox d)) d)).
Proof.
  intros Hok Hr Hl Hid Hlt. apply db_ok_touch; try done.
  - apply ids_ok_snoc; [apply Hok|done..].
  - by apply prefix_app_r.
  - intros x Hx _ _. pose proof (ob_attempts_nonneg _ _ Hok Hr). mlia.
  - set_solver.
  - intros _ x Hx E%Z.eqb_eq. rewrite (ob_id_unique d r x Hok Hr Hx E).
    exists l. split; [set_solver|done].
Qed.

Lemma db_ok_offset d r :
  db_ok d -> offset_row_ok r ->
  db_ok (set_inbox_offsets (upserted offset_same (fun _ new => new) r (inbox_offsets d)) d).
Proof.
  intros [] Hr. constructor; simpl; try done; [|by apply Forall_upserted].
  unfold upserted. destruct (existsb _ _) eqn:E.
  - rewrite map_update; [done|]. intros x Hx%offset_same_key. done.
  - rewrite existsb_false in E. apply NoDup_map_snoc; [done|]. intros x Hx Hk%offset_same_key.
    by rewrite E in Hk.
Qed.

Lemma db_ok_proposal d w r :
  db_ok d -> wf_row_of d (pb_escrow_id_hex r) = Some w ->
  allows_proposal_state (row_state w) = true -> proposal_ok r ->
  db_ok (set_proposal_blobs (upserted proposal_same proposal_merge r (proposal_blobs d)) d).
Proof.
  intros [] Hw Ha Hr. constructor; simpl; try done.
  - apply NoDup_upserted; [done|apply proposal_same_key|done].
  - apply Forall_upserted; [|done|].
    + split; [eapply wf_row_of_with; [done|by apply allows_proposal_funded]|done].
    + intros x [Hx _] _. by split.
Qed.

Lemma db_ok_admission d w r :
  db_ok d -> wf_row_of d (ea_escrow_id_hex r) = Some w -> admission_ok w r ->
  db_ok (set_admissions (upserted admission_same admission_merge r (escrow_admission_artifacts d)) d).
Proof.
  intros [] Hw Hr. constructor; simpl; try done.
  - apply NoDup_upserted; [done|apply admission_same_key|done].
  - apply Forall_upserted; [by eapply wf_row_of_with|done|].
    intros x _ E%admission_same_key. simpl. rewrite E. by eapply wf_row_of_with.
Qed.

Lemma db_ok_quorum d w r :
  db_ok d -> wf_row_of d (qp_escrow_id_hex r) = Some w ->
  workflow_allows_quorum_proof_state (row_state w) = true -> quorum_ok r ->
  (forall x, x ∈ quorum_sign_proofs d -> qp_req_id x = qp_req_id r -> quorum_key x = quorum_key r) ->
  db_ok (set_quorum_sign_proofs (upserted quorum_same quorum_merge r (quorum_sign_proofs d)) d).
Proof.
  intros [] Hw Ha Hr Hreq. constructor; simpl; try done.
  - apply NoDup_upserted; [done|apply quorum_same_key|done].
  - eapply (NoDup_upserted_other quorum_key); [done..|apply quorum_same_key|done|].
    intros x Hx E. by apply quorum_same_key, Hreq.
  - apply Forall_upserted; [|done|].
    + split; [eapply wf_row_of_with; [done|by apply allows_quorum_funded]|done].
    + intros x [Hx Hq] _. split; [done|].
      destruct Hq as (?&?&?&_), Hr as (_&_&_&?&?&?). by split_and!.
Qed.

Lemma db_step_ok d d' : db_ok d -> db_step d d' -> db_ok d'.
Proof.
  intros Hok. destruct 1; subst;
    eauto using db_ok_create, db_ok_transition, db_ok_step, db_ok_enqueue, db_ok_deliver,
      db_ok_give_up, db_ok_offset, db_ok_proposal, db_ok_admission, db_ok_quorum.
  apply db_ok_dead_letters; [done|apply ids_ok_snoc; [apply Hok|done..]|by apply prefix_app_r].
Qed.
End inv.
