(* ===== verification/OrchRefine.v ===== *)
(** * The code refines the specification

    Every operation of [OrchestratorDb] that writes is one guarded write of
    [db_step] or leaves the database as it was; over any sequence of calls the
    invariant [db_ok] holds and the database evolves. *)

From S2P Require Import Prelude RustString Sql Flow OrchDb OrchSpec OrchInv.

(** ** Calls *)

(** The writing methods of [OrchestratorDb] with their arguments and the
    clock readings they take. *)
Inductive OrchOp : Type :=
| OpCreateWorkflow (now : Z) (escrow_id_hex snapshot_hash_hex : string) (participants : list string)
| OpTransitionWorkflow (now : Z) (escrow_id_hex : string) (to : WorkflowState) (reason : option string)
| OpRecordStep (now : Z) (input : StepInput)
| OpEnqueueOutbox (now : Z) (input : OutboxInput)
| OpMarkOutboxSent (now id : Z)
| OpMarkOutboxAcked (now id : Z)
| OpMarkOutboxRetry (now now_dl id backoff_ms : Z) (error_code error_detail : string) (cap : Z)
| OpAdvanceInboxOffset (now : Z) (peer_id escrow_id_hex : string) (seq : Z)
| OpAddDeadLetter (now : Z) (escrow_id_hex stage code detail : string) (attempts : Z)
    (payload_hash_hex : option string)
| OpUpsertProposalBlob (now : Z) (escrow_id_hex action tx_data_hex txset_hash_hex : string)
| OpUpsertAdmission (now : Z) (row : EscrowAdmissionArtifactRow)
| OpUpsertQuorumProof (now : Z) (escrow_id_hex role sign_round txset_hash_hex jti req_id : string).

(** The sequence numbers of a call are [u64]s. *)
Definition op_typed (op : OrchOp) : Prop :=
  match op with
  | OpRecordStep _ input => is_u64 (si_seq input)
  | OpAdvanceInboxOffset _ _ _ seq => is_u64 seq
  | _ => True
  end.

Section refine.
Context `{OrchExt}.

Definition run_op (op : OrchOp) : M db DbError unit :=
  match op with
  | OpCreateWorkflow now e s ps => create_workflow_sync now e s ps
  | OpTransitionWorkflow now e to reason => transition_workflow_sync now e to reason
  | OpRecordStep now input => let* _ := record_step_sync now input in sret tt
  | OpEnqueueOutbox now input => enqueue_outbox_sync now input
  | OpMarkOutboxSent now id => mark_outbox_sent_sync now id
  | OpMarkOutboxAcked now id => mark_outbox_acked_sync now id
  | OpMarkOutboxRetry now now_dl id b c t cap => mark_outbox_retry_sync now now_dl id b c t cap
  | OpAdvanceInboxOffset now p e q => advance_inbox_offset_sync now p e q
  | OpAddDeadLetter now e st c t a h => add_dead_letter_sync now e st c t a h
  | OpUpsertProposalBlob now e a t h => upsert_proposal_blob_sync now e a t h
  | OpUpsertAdmission now row => upsert_escrow_admission_artifact_sync now row
  | OpUpsertQuorumProof now e r s t j q => upsert_quorum_sign_proof_sync now e r s t j q
  end.
Definition apply_op (op : OrchOp) (d : db) : db := (run_op op d).1.
(** A sequence of calls, each an atomic transaction. *)
Definition run_ops (ops : list OrchOp) (d : db) : db := foldl (fun d op => apply_op op d) d ops.

(** ** One call *)

Definition stutter_or_step (d d' : db) : Prop := d' = d \/ db_step d d'.

Lemma ss_lift {A B} (r : result DbError A) (k : A -> M db DbError B) d :
  (forall a, r = Ok a -> stutter_or_step d (k a d).1) -> stutter_or_step d (sbind (slift r) k d).1.
Proof. intros Hk. run_m. destruct r; [by apply Hk|by left]. Qed.

Lemma ss_tx_lift {A B} (r : result DbError A) (k : A -> M (txn db) DbError B) d :
  (forall a, r = Ok a -> stutter_or_step d (transaction (k a) d).1) ->
  stutter_or_step d (transaction (sbind (slift r) k) d).1.
Proof. intros Hk. unfold transaction, sbind, slift. destruct r; [by apply Hk|by left]. Qed.

Lemma ss_tx_get {A B} (f : db -> A) (k : A -> M (txn db) DbError B) d :
  stutter_or_step d (transaction (k (f d)) d).1 ->
  stutter_or_step d (transaction (sbind (in_tx (sget f)) k) d).1.
Proof. done. Qed.

(** A write followed by the commit. *)
Lemma ss_tx_write {A B} (m : M db DbError A) (k : A -> M (txn db) DbError B) d :
  (forall a t, tx_committed (k a t).1 = tx_working t) ->
  (forall a, (m d).2 = Ok a -> stutter_or_step d (m d).1) ->
  stutter_or_step d (transaction (sbind (in_tx m) k) d).1.
Proof.
  intros Hk Hm. unfold transaction, sbind, in_tx. simpl. destruct (m d) as [d' [a|e]]; [|by left].
  specialize (Hk a (Txn d d')). destruct (k a (Txn d d')) as [t r]. simpl in *.
  rewrite Hk. by apply (Hm a).
Qed.

Lemma ss_exec {A} (f : db -> result DbError (db * A)) d :
  (forall d' a, f d = Ok (d', a) -> db_step d d') -> stutter_or_step d (sexec f d).1.
Proof. intros Hf. run_m. destruct (f d) as [[d' a]|e] eqn:E; [right; by eapply Hf|by left]. Qed.

Lemma get_workflow_row d id wf :
  get_workflow_tx d id = Some wf -> exists w, wf_row_of d id = Some w /\ wf = row_to_workflow w.
Proof.
  unfold get_workflow_tx, wf_row_of. destruct (List.find _ _) as [w|]; [|done].
  simpl. intros [= <-]. by exists w.
Qed.

Lemma sql_ok {A} (r : result SqlError A) a : sql r = Ok a -> r = Ok a.
Proof. apply map_err_ok. Qed.

Lemma create_refines now e s ps d : stutter_or_step d (create_workflow_sync now e s ps d).1.
Proof.
  apply ss_lift; intros e' He%normalize_hex_exact_ok.
  apply ss_lift; intros s' Hs%normalize_hex_exact_ok.
  apply ss_lift; intros ps' Hps%normalize_participants_ok.
  apply ss_exec. intros d' [] (rows & Hi & [= <-])%rbind_ok.
  apply sql_ok, insert_row_ok in Hi as (-> & _ & Hc).
  apply DsCreate; try done. apply find_none_elem. intros x Hx. specialize (Hc x Hx).
  unfold wf_clash in Hc. simpl in Hc. by rewrite String.eqb_sym.
Qed.

Lemma transition_refines now e to reason d :
  stutter_or_step d (transition_workflow_sync now e to reason d).1.
Proof.
  apply ss_lift; intros e' He. apply ss_tx_get, ss_tx_lift; intros wf Hwf.
  apply ok_or_ok, get_workflow_row in Hwf as (w & Hw & ->).
  apply ss_tx_lift; intros [] Hm%fail_if_ok%negb_false_iff.
  apply ss_tx_write; [done|]. intros [] _. right. by apply (DsTransition _ _ w).
Qed.

Lemma add_dead_letter_refines now e st c t a h d :
  stutter_or_step d (add_dead_letter_tx now e st c t a h d).1.
Proof.
  apply ss_exec. intros d' [] (rows & Hi & [= <-])%rbind_ok.
  apply sql_ok, insert_auto_ok in Hi as (Hlt & -> & _).
  by apply (DsDeadLetter _ (DeadLetterRow (t_seq (dead_letters d) + 1) e st c t a h (to_i64 now))).
Qed.

(** The guards that a step and an outbox entry share. *)
Lemma member_guard (p : string) l : negb (existsb (fun q => q =? p)%string l) = false -> p ∈ l.
Proof.
  intros (q & Hq & E%String.eqb_eq)%negb_false_iff%existsb_exists. subst. by apply list_elem_of_In.
Qed.

Lemma state_guard cur s :
  negb (bool_decide (cur = s)) && negb (can_transition_to cur s) = false -> at_or_next cur s.
Proof.
  intros [E%negb_false_iff|E%negb_false_iff]%andb_false_iff; [left|by right].
  by apply bool_decide_eq_true in E.
Qed.

Lemma msg_type_guard s m (e : string -> DbError) u :
  match expected_msg_type_for_state s with
  | Some x => fail_if (negb (x =? m)%string) (e x) | None => Ok tt end = Ok u -> msg_type_ok s m.
Proof.
  unfold msg_type_ok. intros Hg x Hx. rewrite Hx in Hg.
  by apply fail_if_ok, negb_false_iff, String.eqb_eq in Hg.
Qed.

Lemma record_step_refines now i d :
  is_u64 (si_seq i) -> stutter_or_step d (record_step_sync now i d).1.
Proof.
  intros Hseq. apply ss_lift; intros e He. apply ss_lift; intros f Hf.
  apply ss_lift; intros m Hm. apply ss_lift; intros p Hp%normalize_hex_exact_ok.
  apply ss_tx_get, ss_tx_lift; intros wf Hwf.
  apply ok_or_ok, get_workflow_row in Hwf as (w & Hw & ->).
  apply ss_tx_lift; intros [] Hmem%fail_if_ok%member_guard.
  apply ss_tx_lift; intros [] Hst%fail_if_ok%state_guard.
  apply ss_tx_lift; intros [] Hmt%msg_type_guard.
  apply ss_tx_get. destruct (List.find _ _) as [row|] eqn:Ef.
  - destruct (eq_ignore_ascii_case _ _); [by left|].
    apply ss_tx_write; [done|]. intros _ _. apply add_dead_letter_refines.
  - apply ss_tx_write; [done|]. intros _ _. apply ss_exec. intros d' [] (rows & Hi & [= <-])%rbind_ok.
    apply sql_ok, insert_auto_ok in Hi as (Hlt & -> & Hc).
    match goal with |- db_step _ (set_workflow_steps (Table _ (_ ++ [?r])) _) =>
      apply (DsStep d w r); try done end.
    + exists (si_state i), (si_seq i). split_and!; done || apply Hseq || apply Hp.
    + intros x Hx E. specialize (Hc x Hx). unfold step_clash in Hc. rewrite E in Hc.
      by rewrite String.eqb_refl in Hc.
Qed.

Lemma enqueue_refines now i d : stutter_or_step d (enqueue_outbox_sync now i d).1.
Proof.
  apply ss_lift; intros e He. apply ss_lift; intros f Hf. apply ss_lift; intros m Hm.
  apply ss_tx_get, ss_tx_lift; intros wf Hwf.
  apply ok_or_ok, get_workflow_row in Hwf as (w & Hw & ->).
  apply ss_tx_lift; intros [] Hmem%fail_if_ok%member_guard.
  apply ss_tx_lift; intros [] Hst%fail_if_ok%state_guard.
  apply ss_tx_lift; intros [] Hmt%msg_type_guard.
  unfold transaction, in_tx, sbind. simpl.
  destruct (insert_auto _ _ _ _) as [t|[]] eqn:Ei; [right|by left..].
  apply insert_auto_ok in Ei as (Hlt & -> & Hc). simpl.
  match goal with |- db_step _ (set_outbox (Table _ (_ ++ [?r])) _) =>
    apply (DsEnqueue d w r); try done end.
  - exists (oi_state i). split_and!; simpl; done || set_solver.
  - intros x Hx E. specialize (Hc x Hx). unfold outbox_clash in Hc. rewrite E in Hc.
    by rewrite String.eqb_refl in Hc.
Qed.

Lemma outbox_open_spec id r : outbox_open id r = true -> ob_id r = id /\ ob_open r.
Proof.
  unfold outbox_open, ob_open. intros [E%Z.eqb_eq Ho%one_of_spec]%andb_true_iff. set_solver.
Qed.

Lemma mark_sent_refines now id d : stutter_or_step d (mark_outbox_sent_sync now id d).1.
Proof.
  apply ss_lift; intros _ _. right. eapply (DsDeliver d); [|set_solver].
  intros r _ [? ?]%outbox_open_spec. split_and!; [done..|lia].
Qed.

Lemma mark_acked_refines now id d : stutter_or_step d (mark_outbox_acked_sync now id d).1.
Proof.
  apply ss_lift; intros _ _. right. eapply (DsDeliver d); [|set_solver].
  intros r _ [? ?]%outbox_open_spec. split_and!; [done..|lia].
Qed.

Lemma not_terminal_open d r :
  db_ok d -> r ∈ t_rows (outbox d) -> one_of ["acked"; "dead_letter"] (ob_status r) = false ->
  ob_open r.
Proof.
  intros Hok Hr Ht. pose proof (ok_ob _ Hok) as Hf. rewrite Forall_forall in Hf.
  destruct (Hf r Hr) as (w & _ & _ & s & _ & _ & _ & _ & _ & Hs & _).
  unfold ob_open. rewrite <- not_true_iff_false, one_of_spec in Ht. set_solver.
Qed.

Lemma mark_retry_refines now now_dl id b c t cap d :
  db_ok d -> stutter_or_step d (mark_outbox_retry_sync now now_dl id b c t cap d).1.
Proof.
  intros Hok. apply ss_lift; intros _ _. apply ss_lift; intros c' Hc. apply ss_lift; intros t' Ht.
  apply ss_tx_get, ss_tx_lift; intros r [Hr Hid%Z.eqb_eq]%ok_or_ok%find_some_elem.
  apply ss_tx_lift; intros [] Hopen%fail_if_ok. apply (not_terminal_open _ _ Hok Hr) in Hopen.
  pose proof (ob_attempts_nonneg _ _ Hok Hr) as Hn. subst id.
  cbv zeta. destruct (Z.max cap 1 <=? sat_add_i64 (ob_attempts r) 1).
  - unfold transaction, sbind, in_tx, update_outbox, add_dead_letter_tx, sexec, commit. simpl.
    destruct (sql _) as [dls|] eqn:E; simpl; [|by left]. right.
    apply sql_ok, insert_auto_ok in E as (Hlt & -> & _).
    match goal with |- db_step _ (set_dead_letters (Table _ (_ ++ [?l])) _) =>
      eapply (DsGiveUp d _ _ _ r l); try done end.
  - apply ss_tx_write; [done|]. intros _ _. right.
    eapply (DsDeliver d); [|set_solver]. intros x Hx E%Z.eqb_eq.
    rewrite (ob_id_unique d r x Hok Hr Hx E). split_and!; [done..|mlia].
Qed.

Lemma offset_refines now p e q d :
  db_ok d -> is_u64 q -> stutter_or_step d (advance_inbox_offset_sync now p e q d).1.
Proof.
  intros Hok Hq. apply ss_lift; intros p' Hp%normalize_non_empty_ok.
  apply ss_lift; intros e' He%normalize_hex_exact_ok. cbv zeta.
  apply ss_tx_get, ss_tx_lift; intros u Hcur.
  apply ss_tx_write; [done|]. intros _ _. apply ss_exec. intros d' [] (rows & Hi & [= <-])%rbind_ok.
  apply sql_ok, upsert_row_ok in Hi as (_ & -> & _). apply DsOffset.
  - refine (conj Hp (conj He _)). apply to_i64_range, Hq.
  - intros x Hx E. destruct (List.find _ _) as [y|] eqn:Ef.
    + apply find_some_elem in Ef as [Hy Ey%offset_same_key].
      assert (x = y) as -> by (eapply unique_row; [apply Hok|done..|congruence]).
      apply fail_if_ok in Hcur. simpl. lia.
    + rewrite find_none_elem in Ef. specialize (Ef x Hx). apply offset_same_key in E. congruence.
Qed.

Lemma proposal_refines now e a t h d : stutter_or_step d (upsert_proposal_blob_sync now e a t h d).1.
Proof.
  apply ss_lift; intros e' He. apply ss_lift; intros a' Ha%normalize_action_ok.
  apply ss_lift; intros t' Ht%normalize_even_hex_ok.
  apply ss_lift; intros h' Hh%normalize_hex_exact_ok.
  apply ss_tx_get, ss_tx_lift; intros wf Hwf.
  apply ok_or_ok, get_workflow_row in Hwf as (w & Hw & ->).
  apply ss_tx_lift; intros [] Hst%fail_if_ok%negb_false_iff.
  apply ss_tx_write; [done|]. intros _ _. apply ss_exec. intros d' [] (rows & Hi & [= <-])%rbind_ok.
  apply sql_ok, upsert_row_ok in Hi as (_ & -> & _). by apply (DsProposal d w).
Qed.

Lemma admission_refines now row d :
  stutter_or_step d (upsert_escrow_admission_artifact_sync now row d).1.
Proof.
  apply ss_lift; intros e' He. apply ss_lift; intros s' Hs.
  apply ss_lift; intros a' Ha%normalize_action_ok.
  apply ss_tx_get, ss_tx_lift; intros wf Hwf.
  apply ok_or_ok, get_workflow_row in Hwf as (w & Hw & ->).
  apply ss_tx_lift; intros [] Hst%fail_if_ok%negb_false_iff%String.eqb_eq.
  apply ss_tx_write; [done|]. intros _ _. apply ss_exec. intros d' [] (rows & Hi & [= <-])%rbind_ok.
  apply sql_ok, upsert_row_ok in Hi as (_ & -> & _). by apply (DsAdmission d w).
Qed.

Lemma quorum_refines now e r s t j q d :
  stutter_or_step d (upsert_quorum_sign_proof_sync now e r s t j q d).1.
Proof.
  apply ss_lift; intros e' He. apply ss_lift; intros r' Hr%normalize_worker_role_ok.
  apply ss_lift; intros s' Hs%normalize_round_ok.
  apply ss_lift; intros t' Ht%normalize_hex_exact_ok.
  apply ss_lift; intros j' [Hj Hlen]%normalize_jti_ok.
  apply ss_lift; intros q' Hq%normalize_hex_exact_ok.
  apply ss_tx_get, ss_tx_lift; intros wf Hwf.
  apply ok_or_ok, get_workflow_row in Hwf as (w & Hw & ->).
  apply ss_tx_lift; intros [] Hst%fail_if_ok%negb_false_iff.
  apply ss_tx_write; [done|]. intros _ _. apply ss_exec. intros d' [] (rows & Hi & [= <-])%rbind_ok.
  apply sql_ok, upsert_row_ok in Hi as (_ & -> & Hc). apply (DsQuorum d w); try done.
  intros x Hx E. apply quorum_same_key, Hc; [done|]. unfold quorum_clash. by rewrite E, String.eqb_refl.
Qed.

Lemma run_op_refines op d :
  db_ok d -> op_typed op -> stutter_or_step d (apply_op op d).
Proof.
  intros Hok Ht. unfold apply_op. destruct op; simpl.
  - apply create_refines.
  - apply transition_refines.
  - pose proof (record_step_refines now input d Ht). unfold sbind, sret.
    by destruct (record_step_sync now input d) as [d' [o|e]].
  - apply enqueue_refines.
  - apply mark_sent_refines.
  - apply mark_acked_refines.
  - by apply mark_retry_refines.
  - by apply offset_refines.
  - apply ss_lift; intros e _. apply add_dead_letter_refines.
  - apply proposal_refines.
  - apply admission_refines.
  - apply quorum_refines.
Qed.

(** ** Sequences of calls *)

Lemma apply_op_ok op d : db_ok d -> op_typed op -> db_ok (apply_op op d).
Proof.
  intros Hok Ht. destruct (run_op_refines op d Hok Ht) as [->|Hs]; [done|by eapply db_step_ok].
Qed.

Lemma apply_op_evolves op d : db_ok d -> op_typed op -> db_evolves d (apply_op op d).
Proof.
  intros Hok Ht. destruct (run_op_refines op d Hok Ht) as [->|Hs]; [done|by apply db_step_evolves].
Qed.

Lemma run_ops_ok ops d : db_ok d -> Forall op_typed ops -> db_ok (run_ops ops d).
Proof.
  intros Hok Ht. revert d Hok. induction Ht as [|op ops Hop _ IH]; intros d Hok; simpl; [done|].
  by apply IH, apply_op_ok.
Qed.

Lemma run_ops_evolves ops d : db_ok d -> Forall op_typed ops -> db_evolves d (run_ops ops d).
Proof.
  intros Hok Ht. revert d Hok. induction Ht as [|op ops Hop _ IH]; intros d Hok; simpl; [done|].
  etrans; [by apply apply_op_evolves|]. by apply IH, apply_op_ok.
Qed.

End refine.
