(* ===== verification/OrchReports.v ===== *)
(** * The orchestrator's self-checks

    The reading side of [db.rs]: [integrity_check_sync], the delivery report,
    the service-level metrics and the alerts built from them. *)

From S2P Require Import Prelude RustString Sql Flow OrchDb OrchSpec OrchInv.

(** ** Integrity check *)

Record IntegrityFinding : Type := MkIntegrityFinding {
  if_table : string;
  if_escrow_id_hex : option string;
  if_issue : string;
  if_detail : string;
}.

Definition push_integrity_finding (limit : Z) (table : string) (escrow_id_hex : option string)
    (issue detail : string) (out : list IntegrityFinding) : list IntegrityFinding :=
  if limit <=? Z.of_nat (length out) then out
  else out ++ [MkIntegrityFinding table escrow_id_hex issue detail].

(** [if b { push(..) }] *)
Definition push_when (b : bool) (push : list IntegrityFinding -> list IntegrityFinding)
    (out : list IntegrityFinding) : list IntegrityFinding := if b then push out else out.

Section reports.
Context `{OrchExt}.

Definition check_workflow_row (limit : Z) (out : list IntegrityFinding) (r : wf_row)
    : list IntegrityFinding :=
  let escrow_id_hex := wf_escrow_id_hex r in
  let push := push_integrity_finding limit "workflow_instances" (Some escrow_id_hex) in
  let out := push_when (is_err (normalize_hex_exact escrow_id_hex 32 "escrow_id_hex"))
    (push "invalid_escrow_id" "workflow escrow_id_hex is not 32 hex chars") out in
  let out := push_when (is_err (normalize_hex_exact (wf_snapshot_hash_hex r) 64 "snapshot_hash_hex"))
    (push "invalid_snapshot_hash" "snapshot_hash_hex is not 64 hex chars") out in
  match participants_from_json (wf_participants_json r) with
  | Ok participants =>
      match normalize_participants participants with
      | Ok _ => out
      | Err err => push "invalid_participants" (error_text err) out
      end
  | Err err => push "invalid_participants_json" err out
  end.

Definition check_proposal_row (limit : Z) (workflow_ids : gset string)
    (out : list IntegrityFinding) (r : ProposalBlob) : list IntegrityFinding :=
  let push := push_integrity_finding limit "proposal_blobs" (Some (pb_escrow_id_hex r)) in
  let out := push_when (negb (bool_decide (pb_escrow_id_hex r ∈ workflow_ids)))
    (push "orphan_workflow" "proposal row has no matching workflow_instances row") out in
  let out := push_when (is_err (normalize_action (pb_action r)))
    (push "invalid_action" "proposal action must be release|refund") out in
  let out := push_when (is_err (normalize_even_hex (pb_tx_data_hex r) "tx_data_hex"))
    (push "invalid_tx_data_hex" "proposal tx_data_hex is not even-length hex") out in
  push_when (is_err (normalize_hex_exact (pb_txset_hash_hex r) 64 "txset_hash_hex"))
    (push "invalid_txset_hash" "proposal txset_hash_hex is not 64 hex chars") out.

Definition check_quorum_row (limit : Z) (workflow_ids : gset string)
    (out : list IntegrityFinding) (r : QuorumSignProof) : list IntegrityFinding :=
  let push := push_integrity_finding limit "quorum_sign_proofs" (Some (qp_escrow_id_hex r)) in
  let out := push_when (negb (bool_decide (qp_escrow_id_hex r ∈ workflow_ids)))
    (push "orphan_workflow"
       ("quorum proof sign_round '" +:+ qp_sign_round r +:+ "' has no matching workflow")) out in
  let out := push_when (is_err (normalize_worker_role (qp_role r)))
    (push "invalid_role" "role must be buyer|seller|arbiter") out in
  let out :=
    match normalize_worker_role (qp_role r) with
    | Ok role_norm =>
        push_when (is_err (normalize_quorum_sign_round_for_role role_norm (qp_sign_round r)))
          (push "invalid_sign_round"
             ("sign_round '" +:+ qp_sign_round r +:+ "' does not match role '" +:+ role_norm +:+ "'"))
          out
    | Err _ => out
    end in
  let out := push_when (is_err (normalize_hex_exact (qp_txset_hash_hex r) 64 "txset_hash_hex"))
    (push "invalid_txset_hash" "txset_hash_hex is not 64 hex chars") out in
  let out := push_when (is_err (normalize_jti (qp_jti r) "jti"))
    (push "invalid_jti" "jti is empty or too long") out in
  push_when (is_err (normalize_hex_exact (qp_req_id r) 64 "req_id"))
    (push "invalid_req_id" "req_id is not 64 hex chars") out.

Definition integrity_check_sync (limit : Z) : M db DbError (list IntegrityFinding) :=
  let limit := Z.min (Z.max limit 1) 10000 in
  sget (fun d =>
    let workflow_ids : gset string := list_to_set (map wf_escrow_id_hex (workflow_instances d)) in
    let findings := foldl (check_workflow_row limit) []
      (order_desc wf_created_at_ms (workflow_instances d)) in
    let findings := foldl (check_proposal_row limit workflow_ids) findings
      (order_desc pb_updated_at_ms (proposal_blobs d)) in
    foldl (check_quorum_row limit workflow_ids) findings
      (order_desc qp_updated_at_ms (quorum_sign_proofs d))).

(** ** Delivery report *)

Record DeliveryGuaranteeReport : Type := MkDeliveryReport {
  dr_generated_at_ms : Z;
  dr_window_ms : Z;
  dr_sent_stale_ms : Z;
  dr_outbox_pending : Z;
  dr_outbox_sent : Z;
  dr_outbox_acked : Z;
  dr_outbox_dead_letter : Z;
  dr_outbox_retrying : Z;
  dr_outbox_sent_stale : Z;
  dr_step_accepted_window : Z;
  dr_step_replay_duplicate_window : Z;
  dr_idem_payload_conflict_window : Z;
  dr_duplicate_step_idem_keys : Z;
  dr_duplicate_outbox_idem_keys : Z;
  dr_inbox_offsets_total : Z;
  dr_dedup_proof_ok : bool;
  dr_findings : list string;
}.

(** [SELECT COUNT(1) FROM outbox WHERE status=..] *)
Definition outbox_with (status : string) (r : outbox_row) : bool := (ob_status r =? status)%string.
Definition outbox_retry_pending (r : outbox_row) : bool :=
  outbox_with "pending" r && (0 <? ob_attempts r).
Definition replay_since (since : Z) (r : step_row) : bool :=
  (st_status r =? "replay_duplicate")%string && (since <=? st_created_at_ms r).
Definition count_u64 {R} (p : R -> bool) (l : list R) : Z := to_u64 (count_rows p l).

Definition delivery_findings (duplicate_step duplicate_outbox sent_stale dead_letter accepted
    acked : Z) : list string :=
  (if 0 <? duplicate_step
   then ["workflow_steps duplicate idem_key entries detected: " +:+ dec duplicate_step] else [])
  ++ (if 0 <? duplicate_outbox
      then ["outbox duplicate idem_key entries detected: " +:+ dec duplicate_outbox] else [])
  ++ (if 0 <? sent_stale
      then ["sent-but-unacked outbox rows older than sent_stale_ms: " +:+ dec sent_stale] else [])
  ++ (if 0 <? dead_letter then ["outbox dead-letter rows present: " +:+ dec dead_letter] else [])
  ++ (if (0 <? accepted) && (acked =? 0)
      then ["accepted workflow steps observed in window but no outbox ack evidence"] else []).

Definition delivery_guarantee_report_sync (now window_ms sent_stale_ms : Z)
    : M db DbError DeliveryGuaranteeReport :=
  let window_ms := Z.max window_ms 1 in
  let sent_stale_ms := Z.max sent_stale_ms 1 in
  let since_i64 := to_i64 (sat_sub_u64 now window_ms) in
  let sent_stale_before_i64 := to_i64 (sat_sub_u64 now sent_stale_ms) in
  sget (fun d =>
    let ob := t_rows (outbox d) in
    let steps := t_rows (workflow_steps d) in
    let outbox_pending := count_u64 (outbox_with "pending") ob in
    let outbox_sent := count_u64 (outbox_with "sent") ob in
    let outbox_acked := count_u64 (outbox_with "acked") ob in
    let outbox_dead_letter := count_u64 (outbox_with "dead_letter") ob in
    let outbox_retrying := count_u64 outbox_retry_pending ob in
    let outbox_sent_stale := count_u64 (fun r =>
      outbox_with "sent" r && (ob_updated_at_ms r <? sent_stale_before_i64)) ob in
    let step_accepted_window := count_u64 (fun r =>
      (st_status r =? "accepted")%string && (since_i64 <=? st_created_at_ms r)) steps in
    let step_replay_duplicate_window := count_u64 (replay_since since_i64) steps in
    let idem_payload_conflict_window := count_u64 (fun r =>
      (since_i64 <=? dl_created_at_ms r)
      && (dl_last_error_code r =? "idem_payload_conflict")%string) (t_rows (dead_letters d)) in
    let duplicate_step_idem_keys := to_u64 (count_dup_groups (map st_idem_key steps)) in
    let duplicate_outbox_idem_keys := to_u64 (count_dup_groups (map ob_idem_key ob)) in
    let inbox_offsets_total := count_u64 (fun _ => true) (inbox_offsets d) in
    let findings := delivery_findings duplicate_step_idem_keys duplicate_outbox_idem_keys
      outbox_sent_stale outbox_dead_letter step_accepted_window outbox_acked in
    let dedup_proof_ok := (duplicate_step_idem_keys =? 0) && (duplicate_outbox_idem_keys =? 0) in
    MkDeliveryReport now window_ms sent_stale_ms outbox_pending outbox_sent outbox_acked
      outbox_dead_letter outbox_retrying outbox_sent_stale step_accepted_window
      step_replay_duplicate_window idem_payload_conflict_window duplicate_step_idem_keys
      duplicate_outbox_idem_keys inbox_offsets_total dedup_proof_ok findings).

(** ** Service-level metrics *)

Record StageAgg : Type := MkStageAgg { ag_count : Z; ag_age_sum : Z; ag_max_age : Z }.

Record WorkflowSloStageLatency : Type := MkStageLatency {
  sl_count : Z;
  sl_avg_age_ms : Z;
  sl_max_age_ms : Z;
}.

Record WorkflowSloMetrics : Type := MkSloMetrics {
  sm_generated_at_ms : Z;
  sm_window_ms : Z;
  sm_stuck_after_ms : Z;
  sm_workflows_total : Z;
  sm_workflows_active : Z;
  sm_workflows_stuck : Z;
  sm_active_workflow_avg_age_ms : Z;
  sm_active_workflow_max_age_ms : Z;
  sm_outbox_pending : Z;
  sm_outbox_sent_unacked : Z;
  sm_outbox_dead_letter : Z;
  sm_outbox_retrying : Z;
  sm_step_replay_duplicate_window : Z;
  sm_dead_letter_window : Z;
  sm_stage_latency : gmap string WorkflowSloStageLatency;
}.

(** The local variables of the loop over the active workflows. *)
Record SloAcc : Type := MkSloAcc {
  sa_active : Z;
  sa_stuck : Z;
  sa_age_sum : Z;
  sa_age_max : Z;
  sa_stages : gmap string StageAgg;
}.

Definition agg_add (age_ms : Z) (agg : StageAgg) : StageAgg :=
  MkStageAgg (sat_add_u64 (ag_count agg) 1) (sat_add_u128 (ag_age_sum agg) age_ms)
    (Z.max (ag_max_age agg) age_ms).

(** One round of the loop; [entry(state).or_default()] is the aggregate under
    [state] or a zero one. *)
Definition slo_row (now stuck_after_ms : Z) (acc : SloAcc) (r : wf_row) : SloAcc :=
  let age_ms := sat_sub_u64 now (to_u64 (wf_updated_at_ms r)) in
  let agg := match sa_stages acc !! wf_state r with Some a => a | None => MkStageAgg 0 0 0 end in
  MkSloAcc (sat_add_u64 (sa_active acc) 1)
    (if stuck_after_ms <? age_ms then sat_add_u64 (sa_stuck acc) 1 else sa_stuck acc)
    (sat_add_u128 (sa_age_sum acc) age_ms) (Z.max (sa_age_max acc) age_ms)
    (<[wf_state r := agg_add age_ms agg]> (sa_stages acc)).

(** [state NOT IN ('confirmed', 'failed_dead_letter')] *)
Definition wf_active (r : wf_row) : bool :=
  negb (one_of ["confirmed"; "failed_dead_letter"] (wf_state r)).

(** [u64::try_from(sum / count).unwrap_or(u64::MAX)] *)
Definition average (sum count : Z) : Z :=
  if count =? 0 then 0 else if sum / count <=? U64_MAX then sum / count else U64_MAX.

Definition slo_metrics_sync (now window_ms stuck_after_ms : Z) : M db DbError WorkflowSloMetrics :=
  let window_ms := Z.max window_ms 1 in
  let stuck_after_ms := Z.max stuck_after_ms 1 in
  let since_ms := sat_sub_u64 now window_ms in
  sget (fun d =>
    let workflows_total := count_u64 (fun _ => true) (workflow_instances d) in
    let acc := foldl (slo_row now stuck_after_ms) (MkSloAcc 0 0 0 0 ∅)
                 (List.filter wf_active (workflow_instances d)) in
    let active_workflow_avg_age_ms := average (sa_age_sum acc) (sa_active acc) in
    let stage_latency := (fun agg => MkStageLatency (ag_count agg)
      (average (ag_age_sum agg) (ag_count agg)) (ag_max_age agg)) <$> sa_stages acc in
    let ob := t_rows (outbox d) in
    let since_i64 := to_i64 since_ms in
    MkSloMetrics now window_ms stuck_after_ms workflows_total (sa_active acc) (sa_stuck acc)
      active_workflow_avg_age_ms (sa_age_max acc)
      (count_u64 (outbox_with "pending") ob) (count_u64 (outbox_with "sent") ob)
      (count_u64 (outbox_with "dead_letter") ob) (count_u64 outbox_retry_pending ob)
      (count_u64 (replay_since since_i64) (t_rows (workflow_steps d)))
      (count_u64 (fun r => since_i64 <=? dl_created_at_ms r) (t_rows (dead_letters d)))
      stage_latency).

(** ** Alerts *)

Record SloAlertThresholds : Type := MkThresholds {
  th_workflows_stuck_total : Z;
  th_active_workflow_max_age_ms : Z;
  th_outbox_pending_total : Z;
  th_outbox_sent_unacked_total : Z;
  th_dead_letter_window_total : Z;
  th_replay_duplicate_window_total : Z;
}.

Definition default_thresholds : SloAlertThresholds := MkThresholds 0 900000 250 50 0 25.

Record SloAlertItem : Type := MkAlertItem {
  ai_metric : string;
  ai_observed : Z;
  ai_threshold : Z;
  ai_severity : string;
  ai_action : string;
}.

Record SloAlertReport : Type := MkAlertReport {
  ar_generated_at_ms : Z;
  ar_metrics : WorkflowSloMetrics;
  ar_thresholds : SloAlertThresholds;
  ar_alerts : list SloAlertItem;
  ar_ok : bool;
}.

(** [if observed > threshold { alerts.push(..) }] *)
Definition alert_when (metric : string) (observed threshold : Z) (severity action : string)
    : list SloAlertItem :=
  if threshold <? observed then [MkAlertItem metric observed threshold severity action] else [].

Definition build_slo_alert_report (now : Z) (metrics : WorkflowSloMetrics)
    (thresholds : SloAlertThresholds) : SloAlertReport :=
  let alerts :=
    alert_when "workflows_stuck_total" (sm_workflows_stuck metrics)
      (th_workflows_stuck_total thresholds) "critical"
      "inspect stale workflows and unblock stage transitions immediately"
    ++ alert_when "active_workflow_max_age_ms" (sm_active_workflow_max_age_ms metrics)
      (th_active_workflow_max_age_ms thresholds) "high"
      "check orchestration worker and dependent services for stalled progress"
    ++ alert_when "outbox_pending_total" (sm_outbox_pending metrics)
      (th_outbox_pending_total thresholds) "high"
      "drain outbox backlog and verify downstream mailbox availability"
    ++ alert_when "outbox_sent_unacked_total" (sm_outbox_sent_unacked metrics)
      (th_outbox_sent_unacked_total thresholds) "high"
      "investigate acknowledgement path; possible delivery gap or mailbox lag"
    ++ alert_when "dead_letter_window_total" (sm_dead_letter_window metrics)
      (th_dead_letter_window_total thresholds) "critical"
      "triage dead letters and execute workflow recovery or rollback"
    ++ alert_when "replay_duplicate_window_total" (sm_step_replay_duplicate_window metrics)
      (th_replay_duplicate_window_total thresholds) "medium"
      "investigate replay spikes (network retries or abuse patterns)" in
  MkAlertReport now metrics thresholds alerts (match alerts with [] => true | _ => false end).

(** [slo_alert_report]: the metrics at [now], the report at [now_report]. *)
Definition slo_alert_report (now now_report window_ms stuck_after_ms : Z)
    (thresholds : SloAlertThresholds) : M db DbError SloAlertReport :=
  let* metrics := slo_metrics_sync now window_ms stuck_after_ms in
  sret (build_slo_alert_report now_report metrics thresholds).

(** ** Lemmas: the integrity check *)

(** What the check asks of a row, in terms of the normalising helpers. *)
Definition workflow_passes (r : wf_row) : Prop :=
  is_ok (normalize_hex_exact (wf_escrow_id_hex r) 32 "escrow_id_hex") = true /\
  is_ok (normalize_hex_exact (wf_snapshot_hash_hex r) 64 "snapshot_hash_hex") = true /\
  exists ps qs, participants_from_json (wf_participants_json r) = Ok ps /\
    normalize_participants ps = Ok qs.
Definition proposal_passes (ids : gset string) (r : ProposalBlob) : Prop :=
  pb_escrow_id_hex r ∈ ids /\ is_ok (normalize_action (pb_action r)) = true /\
  is_ok (normalize_even_hex (pb_tx_data_hex r) "tx_data_hex") = true /\
  is_ok (normalize_hex_exact (pb_txset_hash_hex r) 64 "txset_hash_hex") = true.
Definition quorum_passes (ids : gset string) (r : QuorumSignProof) : Prop :=
  qp_escrow_id_hex r ∈ ids /\
  (exists role, normalize_worker_role (qp_role r) = Ok role /\
     is_ok (normalize_quorum_sign_round_for_role role (qp_sign_round r)) = true) /\
  is_ok (normalize_hex_exact (qp_txset_hash_hex r) 64 "txset_hash_hex") = true /\
  is_ok (normalize_jti (qp_jti r) "jti") = true /\
  is_ok (normalize_hex_exact (qp_req_id r) 64 "req_id") = true.

Definition known_ids (d : db) : gset string :=
  list_to_set (map wf_escrow_id_hex (workflow_instances d)).
Definition integrity_clean (d : db) : Prop :=
  Forall workflow_passes (workflow_instances d) /\
  Forall (proposal_passes (known_ids d)) (proposal_blobs d) /\
  Forall (quorum_passes (known_ids d)) (quorum_sign_proofs d).

Lemma push_not_nil lim t e i x out : 1 <= lim -> push_integrity_finding lim t e i x out <> [].
Proof.
  intros Hl. unfold push_integrity_finding. destruct (Z.leb_spec lim (Z.of_nat (length out)));
    [|by destruct out].
  destruct out; [simpl in *; lia|done].
Qed.

Lemma push_when_nil b lim t e i x out :
  1 <= lim -> push_when b (push_integrity_finding lim t e i x) out = [] <-> b = false /\ out = [].
Proof.
  intros Hl. unfold push_when. destruct b; [|naive_solver].
  split; [intros E; by apply push_not_nil in E|naive_solver].
Qed.

Lemma is_err_false {E A} (r : result E A) : is_err r = false <-> is_ok r = true.
Proof. unfold is_err. apply negb_false_iff. Qed.

Lemma check_workflow_nil lim out r :
  1 <= lim -> check_workflow_row lim out r = [] <-> out = [] /\ workflow_passes r.
Proof.
  intros Hl. unfold check_workflow_row, workflow_passes.
  destruct (participants_from_json _) as [ps|e];
    [destruct (normalize_participants ps) as [qs|e] eqn:En|];
    (split; [intros E|intros (-> & E1 & E2 & ps' & qs' & E3 & E4)]);
    try (by apply push_not_nil in E); simplify_eq; try congruence.
  - apply push_when_nil in E as [E1%is_err_false E]; [|done].
    apply push_when_nil in E as [E2%is_err_false E]; [|done]. split_and!; eauto.
  - rewrite !push_when_nil, !is_err_false by done. done.
Qed.

Lemma check_proposal_nil lim ids out r :
  1 <= lim -> check_proposal_row lim ids out r = [] <-> out = [] /\ proposal_passes ids r.
Proof.
  intros Hl. unfold check_proposal_row, proposal_passes.
  rewrite !push_when_nil, !is_err_false, negb_false_iff, bool_decide_eq_true by done.
  intuition congruence.
Qed.

Lemma check_quorum_nil lim ids out r :
  1 <= lim -> check_quorum_row lim ids out r = [] <-> out = [] /\ quorum_passes ids r.
Proof.
  intros Hl. unfold check_quorum_row, quorum_passes.
  destruct (normalize_worker_role (qp_role r)) as [role|e];
    rewrite !push_when_nil, ?is_err_false, ?negb_false_iff, ?bool_decide_eq_true by done; simpl.
  - split; [intros; destruct_and?|intros (? & ? & (role' & [= <-] & ?) & ?)];
      destruct_and?; split_and!; eauto.
  - split; [naive_solver|]. intros (_ & _ & (? & ? & _) & _). done.
Qed.

Lemma fold_check_nil {R} (check : list IntegrityFinding -> R -> list IntegrityFinding)
    (P : R -> Prop) l out :
  (forall out r, check out r = [] <-> out = [] /\ P r) ->
  foldl check out l = [] <-> out = [] /\ Forall P l.
Proof.
  intros Hc. revert out. induction l as [|r l IH]; intros out; simpl.
  - rewrite Forall_nil. naive_solver.
  - rewrite IH, Hc, Forall_cons. naive_solver.
Qed.

Lemma Forall_order_by {R} (P : R -> Prop) le l : Forall P (order_by le l) <-> Forall P l.
Proof. by rewrite order_by_perm. Qed.

(** The check reports nothing exactly when every row passes. *)
Lemma integrity_check_nil lim d :
  (integrity_check_sync lim d).2 = Ok [] <-> integrity_clean d.
Proof.
  unfold integrity_check_sync, integrity_clean. cbn [sget snd].
  assert (1 <= Z.min (Z.max lim 1) 10000) as Hl by lia.
  split.
  - intros [= E].
    rewrite (fold_check_nil _ (quorum_passes (known_ids d))) in E by (intros; by apply check_quorum_nil).
    rewrite (fold_check_nil _ (proposal_passes (known_ids d))) in E
      by (intros; by apply check_proposal_nil).
    rewrite (fold_check_nil _ workflow_passes) in E by (intros; by apply check_workflow_nil).
    unfold order_desc in E. rewrite !Forall_order_by in E. naive_solver.
  - intros (Hw & Hp & Hq). f_equal.
    rewrite (fold_check_nil _ (quorum_passes (known_ids d))) by (intros; by apply check_quorum_nil).
    rewrite (fold_check_nil _ (proposal_passes (known_ids d)))
      by (intros; by apply check_proposal_nil).
    rewrite (fold_check_nil _ workflow_passes) by (intros; by apply check_workflow_nil).
    unfold order_desc. rewrite !Forall_order_by. naive_solver.
Qed.

Lemma with_wf_known d id P : with_wf (workflow_instances d) id P -> id ∈ known_ids d.
Proof.
  intros (w & Hw & <- & _). unfold known_ids. rewrite elem_of_list_to_set.
  apply list_elem_of_fmap. eauto.
Qed.

Lemma normalize_role_id s : s ∈ ["buyer"; "seller"; "arbiter"] -> normalize_worker_role s = Ok s.
Proof.
  intros Hs. rewrite !elem_of_cons in Hs. destruct Hs as [->|[->|[->|Hs]]]; [done..|].
  by apply not_elem_of_nil in Hs.
Qed.

Lemma db_ok_clean `{!OrchExtLaws} d : db_ok d -> integrity_clean d.
Proof.
  intros Hok. split_and!.
  - eapply Forall_impl; [apply (ok_wf _ Hok)|]. intros r (Hid & Hs & _ & ps & Ej & Hps).
    unfold workflow_passes. rewrite !normalize_hex_exact_id, Ej by done.
    split_and!; [done..|]. exists ps, ps.
    by rewrite participants_json_roundtrip, normalize_participants_id.
  - eapply Forall_impl; [apply (ok_prop _ Hok)|]. intros r (Hw & Ha & Ht & Hh).
    unfold proposal_passes. rewrite normalize_even_hex_id, normalize_hex_exact_id by done.
    split_and!; [by eapply with_wf_known| |done..].
    rewrite !elem_of_cons in Ha. destruct Ha as [->|[->|Ha]]; [done..|]. by apply not_elem_of_nil in Ha.
  - eapply Forall_impl; [apply (ok_quorum _ Hok)|].
    intros r (Hw & Hrole & Hround & Ht & Hj & Hlen & Hq). unfold quorum_passes.
    rewrite normalize_role_id, normalize_jti_id, !normalize_hex_exact_id by done.
    split_and!; [by eapply with_wf_known| |done..].
    exists (qp_role r). by rewrite normalize_round_id.
Qed.

(** ** Lemmas: the delivery report *)

Lemma count_u64_eq {R} (p : R -> bool) l : count_u64 p l = count_rows p l.
Proof. unfold count_u64. pose proof (count_rows_nonneg p l). mlia. Qed.

Lemma count_all {R} (l : list R) : count_rows (fun _ => true) l = Z.of_nat (length l).
Proof. unfold count_rows. f_equal. induction l; simpl; congruence. Qed.

Lemma outbox_status_partition (l : list outbox_row) :
  Forall (fun r => ob_status r ∈ ["pending"; "sent"; "acked"; "dead_letter"]) l ->
  count_rows (outbox_with "pending") l + count_rows (outbox_with "sent") l
  + count_rows (outbox_with "acked") l + count_rows (outbox_with "dead_letter") l
  = Z.of_nat (length l).
Proof.
  unfold count_rows, outbox_with. induction 1 as [|r l Hr Hl IH]; [done|]. simpl.
  rewrite !elem_of_cons in Hr. destruct Hr as [->|[->|[->|[->|Hr]]]]; simpl; try lia.
  by apply not_elem_of_nil in Hr.
Qed.

Lemma no_replay_rows d since : db_ok d -> count_rows (replay_since since) (t_rows (workflow_steps d)) = 0.
Proof.
  intros Hok. apply count_zero. intros r Hr. pose proof (ok_steps _ Hok) as Hs.
  rewrite Forall_forall in Hs. destruct (Hs r Hr) as (w & _ & _ & s & q & Hst).
  unfold replay_since. destruct Hst as (_&_&_&_&_&_&_&_&->). done.
Qed.

Lemma count_dup_NoDup {K} `{EqDecision K} (ks : list K) : NoDup ks -> count_dup_groups ks = 0.
Proof.
  intros Hnd. unfold count_dup_groups.
  assert (forall k, (length (List.filter (fun k' => bool_decide (k' = k)) ks) <= 1)%nat) as Hone.
  { intros k. induction Hnd as [|x l Hx Hl IH]; simpl; [lia|].
    case_bool_decide as E; [|done]. subst. simpl.
    assert (List.filter (fun k' => bool_decide (k' = k)) l = []) as ->; [|simpl; lia].
    clear -Hx. induction l as [|y l IH]; simpl; [done|].
    rewrite bool_decide_eq_false_2 by (intros ->; set_solver). apply IH. set_solver. }
  induction (remove_dups ks) as [|k l IH]; simpl; [done|].
  specialize (Hone k). rewrite (proj2 (Z.ltb_ge _ _)) by lia. done.
Qed.

(** ** Lemmas: the metrics loop *)

Definition row_age (now : Z) (r : wf_row) : Z := sat_sub_u64 now (to_u64 (wf_updated_at_ms r)).

(** What an aggregate over the ages [ages] satisfies. *)
Definition agg_of (ages : list Z) (count sum mx : Z) : Prop :=
  count = Z.of_nat (length ages) /\ 0 <= sum <= count * mx /\ 0 <= mx /\
  Forall (fun a => a <= mx) ages /\ mx ∈ 0 :: ages.

Lemma agg_of_nil : agg_of [] 0 0 0.
Proof. split_and!; simpl; done || lia || set_solver. Qed.

Lemma agg_of_snoc ages c s m a :
  agg_of ages c s m -> 0 <= a -> Z.of_nat (length ages) < U64_MAX ->
  agg_of (ages ++ [a]) (sat_add_u64 c 1) (sat_add_u128 s a) (Z.max m a).
Proof.
  intros (-> & Hs & Hm & Hle & Hin) Ha Hlen. unfold agg_of. rewrite length_app. simpl.
  assert (sat_add_u64 (Z.of_nat (length ages)) 1 = Z.of_nat (length ages) + 1) as -> by (ints; lia).
  assert (Z.of_nat (length ages) * m <= Z.of_nat (length ages) * Z.max m a) by nia.
  split_and!; [lia|apply Z.min_glb; [done|lia]| |lia| |].
  - rewrite Z.mul_add_distr_r. etrans; [apply Z.le_min_r|]. lia.
  - apply Forall_app_2; [|repeat constructor; lia]. eapply Forall_impl; [exact Hle|]. simpl. lia.
  - destruct (Z.max_spec m a) as [[? ->]|[? ->]]; set_solver.
Qed.

Lemma average_le ages c s m : agg_of ages c s m -> average s c <= m.
Proof.
  intros (Hc & Hs & Hm & _). unfold average. destruct (Z.eqb_spec c 0); [done|].
  assert (s / c <= m) by (apply Z.div_le_upper_bound; nia). case_match; lia.
Qed.

Lemma average_range ages c s m : agg_of ages c s m -> 0 <= average s c <= U64_MAX.
Proof.
  intros (Hc & Hs & Hm & _). unfold average. destruct (Z.eqb_spec c 0); [ints; lia|].
  assert (0 <= s / c) by (apply Z.div_pos; lia). case_match; ints; lia.
Qed.

Definition ages_in (now : Z) (p : wf_row -> bool) (l : list wf_row) : list Z :=
  map (row_age now) (List.filter p l).
Definition in_stage (s : string) (r : wf_row) : bool := (wf_state r =? s)%string.

(** The loop invariant after the rows [l]. *)
Definition slo_inv (now stuck : Z) (l : list wf_row) (acc : SloAcc) : Prop :=
  agg_of (map (row_age now) l) (sa_active acc) (sa_age_sum acc) (sa_age_max acc) /\
  sa_stuck acc = count_rows (fun r => stuck <? row_age now r) l /\
  forall s, match sa_stages acc !! s with
            | Some g => agg_of (ages_in now (in_stage s) l) (ag_count g) (ag_age_sum g) (ag_max_age g)
            | None => ages_in now (in_stage s) l = []
            end.

Lemma ages_in_snoc now p l r :
  ages_in now p (l ++ [r]) = ages_in now p l ++ (if p r then [row_age now r] else []).
Proof. unfold ages_in. rewrite List.filter_app, map_app. simpl. by destruct (p r). Qed.

Lemma slo_row_inv now stuck l acc r :
  slo_inv now stuck l acc -> Z.of_nat (length l) < U64_MAX ->
  slo_inv now stuck (l ++ [r]) (slo_row now stuck acc r).
Proof.
  intros (Ha & Hs & Hst) Hlen. assert (0 <= row_age now r) as Hage by (unfold row_age; ints; lia).
  split_and!.
  - rewrite map_app. apply agg_of_snoc; [done..|by rewrite length_map].
  - simpl. rewrite count_rows_app, count_rows_one, Hs. fold (row_age now r).
    pose proof (count_rows_nonneg (fun r => stuck <? row_age now r) l).
    pose proof (count_rows_le (fun r => stuck <? row_age now r) l).
    destruct (stuck <? row_age now r); ints; lia.
  - intros s. simpl. fold (row_age now r). rewrite ages_in_snoc.
    assert (Z.of_nat (length (ages_in now (in_stage s) l)) < U64_MAX).
    { unfold ages_in. rewrite length_map.
      pose proof (List.filter_length_le (in_stage s) l). lia. }
    specialize (Hst s). unfold in_stage at 2 4. destruct (String.eqb_spec (wf_state r) s) as [<-|Hne].
    + rewrite lookup_insert_eq. destruct (sa_stages acc !! wf_state r) as [g|].
      * by apply agg_of_snoc.
      * rewrite Hst in *. apply (agg_of_snoc []); [apply agg_of_nil|done..].
    + rewrite lookup_insert_ne by done. by rewrite app_nil_r.
Qed.

Lemma slo_fold_inv now stuck l k acc :
  slo_inv now stuck k acc -> Z.of_nat (length k + length l) <= U64_MAX ->
  slo_inv now stuck (k ++ l) (foldl (slo_row now stuck) acc l).
Proof.
  revert k acc. induction l as [|r l IH]; intros k acc Hk Hlen; simpl; [by rewrite app_nil_r|].
  rewrite cons_middle, app_assoc. apply IH.
  - apply slo_row_inv; [done|]. simpl in Hlen. lia.
  - rewrite length_app. simpl in *. lia.
Qed.

Lemma slo_fold_spec now stuck l :
  Z.of_nat (length l) <= U64_MAX ->
  slo_inv now stuck l (foldl (slo_row now stuck) (MkSloAcc 0 0 0 0 ∅) l).
Proof.
  intros Hl. apply (slo_fold_inv _ _ _ []); [|done]. split_and!; [apply agg_of_nil|done|].
  intros s. simpl. by rewrite lookup_empty.
Qed.
End reports.
