(* ===== verification/OrchProps.v ===== *)
(** * Properties of the orchestrator

    The theorems about the workflow automaton, the database and its reports,
    with concrete instances.  [demo_ext] stands in for SHA3-256 and
    [serde_json] in the instances only. *)

From S2P Require Import Prelude RustString Sql Flow OrchDb OrchSpec OrchInv OrchRefine OrchReports.

(** ** A concrete environment for the instances *)

(** Each name with its bytes marked by ["x"], ended by ["|"]. *)
Fixpoint demo_name (s : string) : string :=
  match s with EmptyString => "|" | String c s' => String "x" (String c (demo_name s')) end.
Fixpoint demo_to_json (l : list string) : string :=
  match l with [] => EmptyString | s :: l' => demo_name s +:+ demo_to_json l' end.
Fixpoint demo_from_json (s : string) : option (list string) :=
  match s with
  | EmptyString => Some []
  | String "|" s' => match demo_from_json s' with Some l => Some (EmptyString :: l) | None => None end
  | String "x" (String c s') =>
      match demo_from_json s' with Some (h :: l) => Some (String c h :: l) | _ => None end
  | _ => None
  end.

Lemma demo_name_read s rest l :
  demo_from_json rest = Some l -> demo_from_json (demo_name s +:+ rest) = Some (s :: l).
Proof.
  intros Hr. induction s as [|c s IH]; cbn [demo_name].
  - rewrite sapp_cons. change (EmptyString +:+ rest) with rest. simpl. by rewrite Hr.
  - rewrite !sapp_cons. simpl. by rewrite IH.
Qed.

Lemma demo_json_roundtrip l : demo_from_json (demo_to_json l) = Some l.
Proof. induction l as [|s l IH]; simpl; [done|]. by apply demo_name_read. Qed.

Definition demo_ext : OrchExt := {|
  sha3_256 := fun s => s;
  participants_to_json := demo_to_json;
  participants_from_json := fun s => ok_or (demo_from_json s) "expected value";
|}.
#[local] Existing Instance demo_ext | 100.

Lemma demo_laws : @OrchExtLaws demo_ext.
Proof. intros l. simpl. by rewrite demo_json_roundtrip. Qed.

Definition demo_id : string := "0123456789abcdef0123456789abcdef".
Definition demo_hash : string := demo_id +:+ demo_id.
Definition demo_step : StepInput :=
  MkStepInput demo_id PrepareCollected "buyer" 1 "prepare_info" demo_hash.
Definition demo_ops : list OrchOp :=
  [OpCreateWorkflow 1000 demo_id demo_hash ["buyer"; "seller"; "arbiter"];
   OpRecordStep 1001 demo_step;
   OpEnqueueOutbox 1002 (MkOutboxInput demo_id PrepareCollected "seller" "prepare_info" "{}");
   OpMarkOutboxSent 1003 1;
   OpTransitionWorkflow 1004 demo_id PrepareCollected None;
   OpAdvanceInboxOffset 1005 "buyer" demo_id 7].

Lemma demo_typed : Forall op_typed demo_ops.
Proof. repeat constructor; simpl; ints; lia. Qed.

(** ** More lemmas on single calls *)

Section lemmas.
Context `{OrchExt}.

(** The guards of [record_step_sync] hold of a call. *)
Record step_guards (d : db) (i : StepInput) (e f m p : string) (w : wf_row) : Prop := StepGuards {
  sg_escrow : normalize_hex_exact (si_escrow_id_hex i) 32 "escrow_id_hex" = Ok e;
  sg_from : normalize_non_empty (si_from_id i) "from_id" = Ok f;
  sg_msg : normalize_non_empty (si_msg_type i) "msg_type" = Ok m;
  sg_payload : normalize_hex_exact (si_payload_hash_hex i) 64 "payload_hash_hex" = Ok p;
  sg_wf : wf_row_of d e = Some w;
  sg_member : f ∈ row_participants w;
  sg_state : at_or_next (row_state w) (si_state i);
  sg_msg_type : msg_type_ok (si_state i) m;
}.

(** What the call then does. *)
Definition step_written (now : Z) (i : StepInput) (e f m p : string) (d : db) : db :=
  let id := t_seq (workflow_steps d) + 1 in
  set_workflow_steps (Table id (t_rows (workflow_steps d) ++
    [StepRow id e (as_str (si_state i)) f (to_i64 (si_seq i)) m
       (step_idem_key sha3_256 e (si_state i) f (si_seq i)) p "accepted" None (to_i64 now)])) d.
Definition conflict_written (now : Z) (e p : string) (d : db) : db :=
  let id := t_seq (dead_letters d) + 1 in
  set_dead_letters (Table id (t_rows (dead_letters d) ++
    [DeadLetterRow id e "step_record" "idem_payload_conflict"
       "same idempotency key with different payload hash" 1 (Some p) (to_i64 now)])) d.
Definition step_outcome (now : Z) (i : StepInput) (e f m p : string) (d : db)
    : db * result DbError StepOutcome :=
  match List.find (fun r => st_idem_key r =? step_idem_key sha3_256 e (si_state i) f (si_seq i))%string
          (t_rows (workflow_steps d)) with
  | Some r =>
      if (st_payload_hash_hex r =? p)%string then (d, Ok ReplayDuplicate)
      else if t_seq (dead_letters d) <? I64_MAX
      then (conflict_written now e p d, Err (IdemConflict e f (si_seq i)))
      else (d, Err (Sqlite DatabaseFull))
  | None =>
      if t_seq (workflow_steps d) <? I64_MAX then (step_written now i e f m p d, Ok Accepted)
      else (d, Err (Sqlite DatabaseFull))
  end.

Lemma get_workflow_of d e w : wf_row_of d e = Some w -> get_workflow_tx d e = Some (row_to_workflow w).
Proof. unfold get_workflow_tx, wf_row_of. by intros ->. Qed.

Lemma payload_hex d r :
  db_ok d -> r ∈ t_rows (workflow_steps d) -> hex_norm 64 (st_payload_hash_hex r).
Proof.
  intros Hok Hr. pose proof (ok_steps _ Hok) as Hs. rewrite Forall_forall in Hs.
  destruct (Hs r Hr) as (w & _ & _ & s & q & Hst). by destruct Hst as (_&_&_&_&_&_&_&?&_).
Qed.

Lemma eq_ignore_case_hex n a b :
  hex_norm n a -> hex_norm n b -> eq_ignore_ascii_case a b = (a =? b)%string.
Proof. intros [_ Ha] [_ Hb]. unfold eq_ignore_ascii_case. by rewrite !lower_hex_id. Qed.

Lemma step_guards_pass d i e f m p w :
  step_guards d i e f m p w ->
  existsb (fun q => q =? f)%string (row_participants w) = true /\
  negb (bool_decide (row_state w = si_state i)) && negb (can_transition_to (row_state w) (si_state i))
    = false /\
  match expected_msg_type_for_state (si_state i) with
  | Some x => fail_if (negb (x =? m)%string) (UnexpectedMsgType (si_state i) x m)
  | None => Ok tt end = Ok tt.
Proof.
  intros []. split_and!.
  - apply existsb_exists. exists f. rewrite String.eqb_refl. by rewrite <- list_elem_of_In.
  - destruct sg_state0 as [E|E]; [by rewrite bool_decide_eq_true_2|].
    unfold moves in E. by rewrite E, andb_false_r.
  - destruct (expected_msg_type_for_state _) eqn:E; [|done].
    by rewrite (sg_msg_type0 _ E), String.eqb_refl.
Qed.

Lemma add_dead_letter_eq now e st c t a h d :
  add_dead_letter_tx now e st c t a h d =
  if t_seq (dead_letters d) <? I64_MAX then
    let id := t_seq (dead_letters d) + 1 in
    (set_dead_letters (Table id (t_rows (dead_letters d) ++
       [DeadLetterRow id e st c t a h (to_i64 now)])) d, Ok tt)
  else (d, Err (Sqlite DatabaseFull)).
Proof.
  unfold add_dead_letter_tx, sexec, insert_auto, insert_row. cbv zeta.
  rewrite (proj2 (existsb_false (fun _ : dead_letter_row => false) _)) by done.
  by destruct (_ <? _).
Qed.

Lemma record_step_eq now i d e f m p w :
  db_ok d -> step_guards d i e f m p w ->
  record_step_sync now i d = step_outcome now i e f m p d.
Proof.
  intros Hok Hg. destruct (step_guards_pass _ _ _ _ _ _ _ Hg) as (G1 & G2 & G3).
  destruct Hg. unfold record_step_sync, step_outcome, sbind, slift, transaction, in_tx, sget.
  rewrite sg_escrow0, sg_from0, sg_msg0, sg_payload0. cbn [tx_working tx_committed].
  rewrite (get_workflow_of _ _ _ sg_wf0). cbn [ok_or].
  fold (row_participants w). rewrite G1. change (wi_state (row_to_workflow w)) with (row_state w).
  rewrite G2, G3. cbn [fail_if negb].
  destruct (List.find _ _) as [r|] eqn:Ef.
  - apply find_some_elem in Ef as [Hr _].
    rewrite (eq_ignore_case_hex 64) by eauto using payload_hex, normalize_hex_exact_ok.
    destruct (_ =? _)%string; [done|].
    rewrite add_dead_letter_eq. cbn [tx_working]. by destruct (t_seq (dead_letters d) <? I64_MAX).
  - rewrite find_none_elem in Ef. unfold sexec, insert_auto, commit. simpl.
    destruct (t_seq (workflow_steps d) <? I64_MAX); [|done]. simpl.
    unfold insert_row. rewrite (proj2 (existsb_false _ _)); [done|].
    intros x Hx. specialize (Ef x Hx). unfold step_clash. simpl. by rewrite String.eqb_sym.
Qed.

(** A call either fails before it writes or passes the guards. *)
Lemma record_step_guards now i d :
  (exists err, record_step_sync now i d = (d, Err err)) \/
  (exists e f m p w, step_guards d i e f m p w).
Proof.
  unfold record_step_sync, sbind, slift, transaction, in_tx, sget.
  destruct (normalize_hex_exact (si_escrow_id_hex i) 32 _) as [e|] eqn:E1; [|by left; eexists].
  destruct (normalize_non_empty (si_from_id i) _) as [f|] eqn:E2; [|by left; eexists].
  destruct (normalize_non_empty (si_msg_type i) _) as [m|] eqn:E3; [|by left; eexists].
  destruct (normalize_hex_exact (si_payload_hash_hex i) 64 _) as [p|] eqn:E4; [|by left; eexists].
  cbn [tx_working tx_committed].
  destruct (get_workflow_tx d e) as [wf|] eqn:E5; [|by left; eexists].
  apply get_workflow_row in E5 as (w & Hw & ->). cbn [ok_or].
  destruct (existsb _ _) eqn:E6; [|by left; eexists]. cbn [fail_if negb].
  destruct (_ && _) eqn:E7; [by left; eexists|].
  destruct (match expected_msg_type_for_state _ with Some _ => _ | None => _ end) as [[]|] eqn:E8;
    [|by left; eexists].
  right. exists e, f, m, p, w. constructor; try done.
  - by apply member_guard, negb_false_iff.
  - by apply state_guard.
  - exact (msg_type_guard _ _ (fun x => UnexpectedMsgType (si_state i) x m) tt E8).
Qed.

Lemma step_guards_inputs d1 d2 i e1 f1 m1 p1 w1 e2 f2 m2 p2 w2 :
  step_guards d1 i e1 f1 m1 p1 w1 -> step_guards d2 i e2 f2 m2 p2 w2 ->
  e1 = e2 /\ f1 = f2 /\ m1 = m2 /\ p1 = p2.
Proof. intros [] []. split_and!; congruence. Qed.

Lemma run_ops_app ops1 ops2 d : run_ops (ops1 ++ ops2) d = run_ops ops2 (run_ops ops1 d).
Proof. unfold run_ops. apply foldl_app. Qed.

(** Once a step with this key and payload is in the table, the call is a replay. *)
Lemma record_step_replay now i d e f m p w r :
  db_ok d -> step_guards d i e f m p w -> r ∈ t_rows (workflow_steps d) ->
  st_idem_key r = step_idem_key sha3_256 e (si_state i) f (si_seq i) ->
  st_payload_hash_hex r = p -> record_step_sync now i d = (d, Ok ReplayDuplicate).
Proof.
  intros Hok Hg Hr Hk Hp. rewrite (record_step_eq now i d e f m p w Hok Hg). unfold step_outcome.
  rewrite (find_unique st_idem_key _ _ r); [by rewrite Hp, String.eqb_refl|apply Hok|done|..].
  - by rewrite Hk, String.eqb_refl.
  - intros x E%String.eqb_eq. congruence.
Qed.

Lemma record_step_accepted now i d d' :
  db_ok d -> record_step_sync now i d = (d', Ok Accepted) ->
  exists e f m p w, step_guards d i e f m p w /\ d' = step_written now i e f m p d.
Proof.
  intros Hok Hr. destruct (record_step_guards now i d) as [[err E]|(e & f & m & p & w & Hg)].
  - congruence.
  - exists e, f, m, p, w. split; [done|].
    rewrite (record_step_eq now i d e f m p w Hok Hg) in Hr. unfold step_outcome in Hr.
    repeat case_match; simplify_eq. done.
Qed.
End lemmas.

(** ** Theorems *)

(** C1. In every database the orchestrator can reach from a fresh file by any
    sequence of its writing calls, successful or failed, the whole invariant
    [db_ok] holds: keys are unique, every row of every table belongs to an
    existing workflow and is in normal form, a step or message is never ahead
    of its workflow by more than one state and comes from or goes to an
    allowlisted participant, dead messages have their dead letter. *)
Theorem orch_reachable_ok `{OrchExt} (ops : list OrchOp) :
  Forall op_typed ops -> db_ok (run_ops ops (init_sync None)).
Proof. intros Hops. apply run_ops_ok; [apply db_ok_empty|done]. Qed.

Lemma orch_reachable_ok_witness :
  Forall op_typed demo_ops /\ db_ok (run_ops demo_ops (init_sync None)).
Proof. split; [apply demo_typed|apply (orch_reachable_ok demo_ops demo_typed)]. Defined.

(** C2. Refinement: on a database that satisfies the invariant every writing
    call of the code is one guarded write of the abstract transition relation
    [db_step], or leaves the database as it is. *)
Theorem orch_refines_spec `{OrchExt} (op : OrchOp) (d : db) :
  db_ok d -> op_typed op -> apply_op op d = d \/ db_step d (apply_op op d).
Proof. apply run_op_refines. Qed.

Lemma orch_refines_spec_witness :
  let d := run_ops demo_ops (init_sync None) in
  apply_op (OpMarkOutboxAcked 2000 1) d = d \/ db_step d (apply_op (OpMarkOutboxAcked 2000 1) d).
Proof. apply (orch_refines_spec (OpMarkOutboxAcked 2000 1) _ (run_ops_ok _ _ db_ok_empty demo_typed) I). Defined.

(** C4. Over any calls whatever, a workflow that exists keeps its snapshot
    hash, participants and creation time, its state only moves along the legal
    transitions, and once it is confirmed or dead it stays so. *)
Theorem workflow_lifecycle `{OrchExt} (before after : list OrchOp) (id : string)
    (wf : WorkflowInstance) :
  Forall op_typed before -> Forall op_typed after ->
  get_workflow_tx (run_ops before (init_sync None)) id = Some wf ->
  exists wf', get_workflow_tx (run_ops (before ++ after) (init_sync None)) id = Some wf' /\
    wi_snapshot_hash_hex wf' = wi_snapshot_hash_hex wf /\
    wi_participants wf' = wi_participants wf /\
    wi_created_at_ms wf' = wi_created_at_ms wf /\
    evolves (wi_state wf) (wi_state wf') /\
    (terminal (wi_state wf) = true -> wi_state wf' = wi_state wf).
Proof.
  intros Hb Ha (w & Hw & ->)%get_workflow_row. apply wf_row_of_elem in Hw as [Hw <-].
  rewrite run_ops_app. set (d := run_ops before (init_sync None)) in *.
  assert (db_ok d) as Hok by (apply run_ops_ok; [apply db_ok_empty|done]).
  assert (db_ok (run_ops after d)) as Hok' by by apply run_ops_ok.
  destruct (ev_wf _ _ (run_ops_evolves after d Hok Ha) w Hw) as (w' & Hw' & Hle).
  destruct Hle as (Hid & Hs & Hp & Hc & Hev).
  exists (row_to_workflow w'). split.
  - apply get_workflow_of. unfold wf_row_of.
    apply (find_unique wf_escrow_id_hex); [apply Hok'|done|by rewrite Hid, String.eqb_refl|].
    intros x E%String.eqb_eq. congruence.
  - unfold row_to_workflow. simpl. rewrite Hs, Hp, Hc. split_and!; [done..|].
    intros Ht. by apply evolves_terminal.
Qed.

Lemma workflow_lifecycle_witness : exists wf',
  get_workflow_tx (run_ops (demo_ops ++ [OpTransitionWorkflow 3000 demo_id MakeCollected None])
                     (init_sync None)) demo_id = Some wf' /\
  evolves PrepareCollected (wi_state wf').
Proof.
  edestruct (workflow_lifecycle demo_ops [OpTransitionWorkflow 3000 demo_id MakeCollected None] demo_id)
    as (wf' & E & _ & _ & _ & Hev & _);
    [apply demo_typed|repeat constructor|vm_compute; reflexivity|].
  exists wf'. split; [exact E|exact Hev].
Defined.

(** The complete behaviour of [record_step] when its guards pass: a new
    key is appended as accepted, a known key with the same payload is a replay
    that changes nothing, a known key with another payload commits one dead
    letter and then fails. *)
Theorem record_step_behaviour `{OrchExt} (now : Z) (i : StepInput) (d : db) e f m p w :
  db_ok d -> step_guards d i e f m p w ->
  record_step_sync now i d = step_outcome now i e f m p d.
Proof. apply record_step_eq. Qed.

Lemma record_step_behaviour_witness :
  let d := run_ops (take 1 demo_ops) (init_sync None) in
  (record_step_sync 1001 demo_step d).2 = Ok Accepted /\
  record_step_sync 1001 demo_step d
    = step_outcome 1001 demo_step demo_id "buyer" "prepare_info" demo_hash d.
Proof.
  split; [vm_compute; reflexivity|].
  eapply record_step_behaviour.
  - apply (run_ops_ok (take 1 demo_ops)); [apply db_ok_empty|repeat constructor].
  - constructor; [vm_compute; reflexivity..| |right; reflexivity|by intros ? [= <-]].
    apply list_elem_of_In. vm_compute. auto.
Defined.

(** C5. Exactly-once recording: after a step was accepted, calling
    [record_step] with the same input at any later time, whatever happened in
    between, changes nothing and is never accepted a second time. *)
Theorem record_step_exactly_once `{OrchExt} (now now' : Z) (i : StepInput) (d d1 : db)
    (mid : list OrchOp) :
  db_ok d -> is_u64 (si_seq i) -> Forall op_typed mid ->
  record_step_sync now i d = (d1, Ok Accepted) ->
  let d2 := run_ops mid d1 in
  (record_step_sync now' i d2).1 = d2 /\
  ((record_step_sync now' i d2).2 = Ok ReplayDuplicate \/
   exists err, (record_step_sync now' i d2).2 = Err err).
Proof.
  intros Hok Hq Hmid Hacc d2.
  assert (db_ok d1) as Hok1.
  { pose proof (record_step_refines now i d Hq) as Hs. rewrite Hacc in Hs.
    destruct Hs as [Hs|Hs]; simpl in Hs; [by rewrite Hs|by eapply db_step_ok]. }
  assert (db_ok d2) as Hok2 by by apply run_ops_ok.
  apply record_step_accepted in Hacc as (e & f & m & p & w & Hg & ->); [|done].
  destruct (record_step_guards now' i d2) as [[err E]|(e' & f' & m' & p' & w' & Hg')].
  { rewrite E. eauto. }
  destruct (step_guards_inputs _ _ _ _ _ _ _ _ _ _ _ _ _ Hg Hg') as (<- & <- & <- & <-).
  destruct (ev_steps _ _ (run_ops_evolves mid _ Hok1 Hmid)) as [k Hk].
  assert (record_step_sync now' i d2 = (d2, Ok ReplayDuplicate)) as ->; [|by split; [|left]].
  eapply record_step_replay; [exact Hok2|exact Hg'| | |].
  - fold d2 in Hk. rewrite Hk. apply elem_of_app; left. apply elem_of_app; right.
    by apply list_elem_of_singleton.
  - done.
  - done.
Qed.

Lemma record_step_exactly_once_witness :
  let d := run_ops (take 1 demo_ops) (init_sync None) in
  let d2 := run_ops (drop 2 demo_ops) (record_step_sync 1001 demo_step d).1 in
  (record_step_sync 5000 demo_step d2).1 = d2.
Proof.
  intros d d2.
  apply (record_step_exactly_once 1001 5000 demo_step d _ (drop 2 demo_ops)).
  - apply run_ops_ok; [apply db_ok_empty|repeat constructor].
  - simpl; ints; lia.
  - apply Forall_drop, demo_typed.
  - vm_compute; reflexivity.
Defined.

(** ** Inbox offsets *)

Section offsets.
Context `{OrchExt}.

Lemma upsert_same_only {R} (same : R -> R -> bool) merge r l :
  upsert_row same same (fun _ => true) merge r l = Ok (upserted same merge r l).
Proof.
  unfold upsert_row, upserted. simpl. destruct (existsb (same r) l) eqn:E; [|done].
  rewrite (proj2 (existsb_false _ _)); [done|]. intros x _. apply andb_negb_r.
Qed.

Lemma advance_eq now p e q d p' e' :
  normalize_non_empty p "peer_id" = Ok p' -> normalize_hex_exact e 32 "escrow_id_hex" = Ok e' ->
  let row := OffsetRow p' e' (to_i64 q) (to_i64 now) in
  let written := (set_inbox_offsets (upserted offset_same (fun _ new => new) row (inbox_offsets d)) d,
                  Ok tt) in
  advance_inbox_offset_sync now p e q d =
  match List.find (offset_same row) (inbox_offsets d) with
  | Some r => if to_i64 q <=? io_last_seq r
              then (d, Err (OffsetReplay p' e' (to_i64 q) (io_last_seq r))) else written
  | None => written
  end.
Proof.
  intros Ep Ee. unfold advance_inbox_offset_sync, sbind, slift. rewrite Ep, Ee. cbv zeta.
  unfold transaction, in_tx, sget, sexec, commit. simpl. rewrite upsert_same_only.
  destruct (List.find _ _) as [r|]; [|done]. unfold fail_if. by destruct (_ <=? _).
Qed.

Lemma offset_same_refl p e q t q' t' : offset_same (OffsetRow p e q t) (OffsetRow p e q' t') = true.
Proof. by apply offset_same_key. Qed.

Lemma upserted_elem {R} (same : R -> R -> bool) (r : R) l :
  r ∈ upserted same (fun _ new => new) r l.
Proof.
  unfold upserted. destruct (existsb (same r) l) eqn:E; [|set_solver].
  apply existsb_exists in E as (x & Hx%list_elem_of_In & E). apply elem_of_update.
  exists x. by rewrite E.
Qed.

(** An offset at or above [q] makes the call with [q] fail. *)
Lemma advance_below now p e q d p' e' r :
  db_ok d -> normalize_non_empty p "peer_id" = Ok p' ->
  normalize_hex_exact e 32 "escrow_id_hex" = Ok e' ->
  r ∈ inbox_offsets d -> offset_key r = (p', e') -> to_i64 q <= io_last_seq r ->
  advance_inbox_offset_sync now p e q d
    = (d, Err (OffsetReplay p' e' (to_i64 q) (io_last_seq r))).
Proof.
  intros Hok Ep Ee Hr Hk Hle. rewrite (advance_eq now p e q d p' e' Ep Ee).
  rewrite (find_unique offset_key _ _ r); [|apply Hok|done|..].
  - by rewrite (proj2 (Z.leb_le _ _)).
  - by apply offset_same_key.
  - intros x Ex%offset_same_key. by rewrite Hk.
Qed.

Lemma advance_accepted now p e q d d1 :
  advance_inbox_offset_sync now p e q d = (d1, Ok tt) ->
  exists p' e', normalize_non_empty p "peer_id" = Ok p' /\
    normalize_hex_exact e 32 "escrow_id_hex" = Ok e' /\
    exists r, r ∈ inbox_offsets d1 /\ offset_key r = (p', e') /\ io_last_seq r = to_i64 q.
Proof.
  intros Ha.
  destruct (normalize_non_empty p "peer_id") as [p'|] eqn:Ep;
    [|unfold advance_inbox_offset_sync, sbind, slift in Ha; by rewrite Ep in Ha].
  destruct (normalize_hex_exact e 32 "escrow_id_hex") as [e'|] eqn:Ee;
    [|unfold advance_inbox_offset_sync, sbind, slift in Ha; by rewrite Ep, Ee in Ha].
  exists p', e'. split_and!; [done..|]. rewrite (advance_eq now p e q d p' e' Ep Ee) in Ha.
  exists (OffsetRow p' e' (to_i64 q) (to_i64 now)). split; [|done].
  destruct (List.find _ _); [case_match|]; simplify_eq; simpl; apply upserted_elem.
Qed.
End offsets.

(** Inbox offsets are monotone for ever: after sequence number [q] of a
    peer was accepted, every call with a number up to [q] is rejected and
    changes nothing, whatever happened in between. *)
Theorem offset_never_replayed `{OrchExt} (now now' : Z) (peer escrow : string) (q q' : Z)
    (d d1 : db) (mid : list OrchOp) :
  db_ok d -> is_u64 q -> q' <= q -> Forall op_typed mid ->
  advance_inbox_offset_sync now peer escrow q d = (d1, Ok tt) ->
  let d2 := run_ops mid d1 in
  exists p e last,
    advance_inbox_offset_sync now' peer escrow q' d2
      = (d2, Err (OffsetReplay p e (to_i64 q') last)).
Proof.
  intros Hok Hq Hle Hmid Ha d2.
  assert (db_ok d1) as Hok1.
  { pose proof (apply_op_ok (OpAdvanceInboxOffset now peer escrow q) d Hok Hq) as K.
    unfold apply_op in K. simpl in K. by rewrite Ha in K. }
  apply advance_accepted in Ha as (p & e & Ep & Ee & r & Hr & Hk & Hs).
  destruct (ev_off _ _ (run_ops_evolves mid d1 Hok1 Hmid) r Hr) as (r' & Hr' & Hk' & Hle').
  exists p, e, (io_last_seq r').
  apply advance_below; try done; [by apply run_ops_ok|congruence|].
  pose proof (to_i64_mono q' q Hle). lia.
Qed.

Lemma offset_never_replayed_witness :
  let d := run_ops (take 1 demo_ops) (init_sync None) in
  let d2 := run_ops (drop 1 demo_ops) (advance_inbox_offset_sync 1001 "seller" demo_id 9 d).1 in
  exists p e last, advance_inbox_offset_sync 4000 "seller" demo_id 3 d2
    = (d2, Err (OffsetReplay p e (to_i64 3) last)).
Proof.
  intros d d2.
  apply (offset_never_replayed 1001 4000 "seller" demo_id 9 3 d _ (drop 1 demo_ops)).
  - apply run_ops_ok; [apply db_ok_empty|repeat constructor].
  - ints; lia.
  - lia.
  - apply Forall_drop, demo_typed.
  - vm_compute; reflexivity.
Defined.

(** ** The outbox *)

Section outbox_lemmas.
Context `{OrchExt}.

Lemma update_rows_none {R} (p : R -> bool) f l :
  (forall r, r ∈ l -> p r = false) -> update_rows p f l = l.
Proof.
  induction l as [|r l IH]; simpl; intros Hp; [done|].
  rewrite (Hp r) by set_solver. f_equal. apply IH. set_solver.
Qed.

Lemma update_outbox_none {E} p f (d : db) :
  (forall r, r ∈ t_rows (outbox d) -> p r = false) -> @update_outbox E p f d = (d, Ok 0).
Proof.
  intros Hp. unfold update_outbox, update_table. rewrite update_rows_none by done.
  rewrite (proj2 (count_zero _ _)) by done. by destruct d as [? ? [] ? ? ? ? ?].
Qed.

Lemma terminal_not_open id (r : outbox_row) : ob_terminal r = true -> outbox_open id r = false.
Proof.
  unfold ob_terminal, outbox_open. intros Ht%one_of_spec. apply andb_false_iff. right.
  rewrite <- not_true_iff_false, one_of_spec. rewrite !elem_of_cons, elem_of_nil in *.
  intuition congruence.
Qed.

Lemma terminal_no_row d r x :
  db_ok d -> r ∈ t_rows (outbox d) -> ob_terminal r = true -> x ∈ t_rows (outbox d) ->
  outbox_open (ob_id r) x = false.
Proof.
  intros Hok Hr Ht Hx. destruct (Z.eqb_spec (ob_id x) (ob_id r)) as [E|E].
  - rewrite (ob_id_unique d r x Hok Hr Hx E). by apply terminal_not_open.
  - unfold outbox_open. by rewrite (proj2 (Z.eqb_neq _ _)).
Qed.

Lemma outbox_id_pos d r : db_ok d -> r ∈ t_rows (outbox d) -> 1 <= ob_id r.
Proof.
  intros Hok Hr. destruct (ok_ob_ids _ Hok) as (_ & Hf & _). rewrite Forall_forall in Hf.
  by apply Hf.
Qed.

Lemma mark_terminal_fails d r now :
  db_ok d -> r ∈ t_rows (outbox d) -> ob_terminal r = true ->
  mark_outbox_sent_sync now (ob_id r) d = (d, Err (OutboxNotOpen (ob_id r))) /\
  mark_outbox_acked_sync now (ob_id r) d = (d, Err (OutboxNotOpen (ob_id r))).
Proof.
  intros Hok Hr Ht. pose proof (outbox_id_pos _ _ Hok Hr).
  unfold mark_outbox_sent_sync, mark_outbox_acked_sync, sbind, slift.
  rewrite (proj2 (Z.leb_gt _ _)) by lia. cbn [fail_if].
  rewrite !update_outbox_none by (intros x Hx; by apply (terminal_no_row d)). done.
Qed.

Lemma find_outbox_id d r :
  db_ok d -> r ∈ t_rows (outbox d) ->
  List.find (fun x => ob_id x =? ob_id r) (t_rows (outbox d)) = Some r.
Proof.
  intros Hok Hr. apply (find_unique ob_id); [apply ids_ok_NoDup, Hok|done|lia|].
  intros x. lia.
Qed.

Lemma retry_terminal_fails d r now now_dl b c t cap :
  db_ok d -> r ∈ t_rows (outbox d) -> ob_terminal r = true ->
  exists err, mark_outbox_retry_sync now now_dl (ob_id r) b c t cap d = (d, Err err).
Proof.
  intros Hok Hr Ht. unfold mark_outbox_retry_sync, sbind, slift, transaction, in_tx, sget.
  destruct (fail_if _ _); [|by eexists]. destruct (normalize_non_empty c _); [|by eexists].
  destruct (normalize_non_empty t _); [|by eexists]. cbn [tx_working tx_committed].
  rewrite (find_outbox_id d r Hok Hr). cbn [ok_or]. unfold ob_terminal in Ht. rewrite Ht.
  by eexists.
Qed.
End outbox_lemmas.

(** Acknowledged and dead messages are final: such a row stays in the
    outbox exactly as it is through any further calls, and every attempt to
    mark it sent, acknowledged or for retry fails without effect. *)
Theorem outbox_terminal_final `{OrchExt} (d : db) (r : outbox_row) (ops : list OrchOp) :
  db_ok d -> Forall op_typed ops -> r ∈ t_rows (outbox d) -> ob_terminal r = true ->
  let d' := run_ops ops d in
  r ∈ t_rows (outbox d') /\
  (forall now, mark_outbox_sent_sync now (ob_id r) d' = (d', Err (OutboxNotOpen (ob_id r)))) /\
  (forall now, mark_outbox_acked_sync now (ob_id r) d' = (d', Err (OutboxNotOpen (ob_id r)))) /\
  (forall now now_dl b c t cap, exists err,
     mark_outbox_retry_sync now now_dl (ob_id r) b c t cap d' = (d', Err err)).
Proof.
  intros Hok Hops Hr Ht d'.
  assert (db_ok d') as Hok' by by apply run_ops_ok.
  assert (r ∈ t_rows (outbox d')) as Hr'.
  { destruct (ev_ob _ _ (run_ops_evolves ops d Hok Hops) r Hr) as (r' & Hr' & Hle).
    destruct Hle as (_&_&_&_&_&_&_&_&_&E). by rewrite (E Ht) in Hr'. }
  split_and!; [done|..]; intros.
  - by apply mark_terminal_fails.
  - by apply mark_terminal_fails.
  - by apply retry_terminal_fails.
Qed.

Definition demo_acked_ops : list OrchOp := demo_ops ++ [OpMarkOutboxAcked 2000 1].
Definition demo_acked : outbox_row :=
  OutboxRow 1 demo_id "prepare_collected" "seller" "prepare_info" "{}"
    (outbox_idem_key (fun s => s) demo_id PrepareCollected "seller" "prepare_info"
       (hex_encode "{}")) "acked" 1 1002 1002 2000.

Lemma outbox_terminal_final_witness :
  let d := run_ops demo_acked_ops (init_sync None) in
  demo_acked ∈ t_rows (outbox (run_ops [OpMarkOutboxRetry 1 1 1 5 "e" "d" 3] d)).
Proof.
  intros d. apply (outbox_terminal_final d demo_acked).
  - apply run_ops_ok; [apply db_ok_empty|]. apply Forall_app_2; [apply demo_typed|repeat constructor].
  - repeat constructor.
  - apply list_elem_of_In. vm_compute. by left.
  - reflexivity.
Defined.

Section retries.
Context `{OrchExt}.

(** The arguments of one retry apart from the message and the cap, and the
    texts that [mark_outbox_retry_sync] accepts. *)
Record RetryArgs : Type := MkRetryArgs {
  ra_now : Z; ra_now_dl : Z; ra_backoff : Z; ra_code : string; ra_detail : string }.
Definition retry_ok (a : RetryArgs) : Prop :=
  is_ok (normalize_non_empty (ra_code a) "error_code") = true /\
  is_ok (normalize_non_empty (ra_detail a) "error_detail_redacted") = true.
Definition retry_op (id cap : Z) (a : RetryArgs) : OrchOp :=
  OpMarkOutboxRetry (ra_now a) (ra_now_dl a) id (ra_backoff a) (ra_code a) (ra_detail a) cap.
(** A series of retries of message [id]. *)
Definition retries (args : list RetryArgs) (id cap : Z) (d : db) : db :=
  run_ops (map (retry_op id cap) args) d.

Lemma retry_eq now now_dl id b c t cap d r c' t' :
  db_ok d -> r ∈ t_rows (outbox d) -> ob_id r = id -> ob_open r ->
  normalize_non_empty c "error_code" = Ok c' ->
  normalize_non_empty t "error_detail_redacted" = Ok t' ->
  let attempts := sat_add_i64 (ob_attempts r) 1 in
  let next := sat_add_i64 (to_i64 now) (to_i64 (Z.max b 100)) in
  let touch s := update_table (fun x => ob_id x =? id)
                   (outbox_touch (to_i64 now) s (fun _ => attempts) (Some next)) (outbox d) in
  let letter_id := t_seq (dead_letters d) + 1 in
  mark_outbox_retry_sync now now_dl id b c t cap d =
  if Z.max cap 1 <=? attempts then
    if t_seq (dead_letters d) <? I64_MAX then
      (set_dead_letters (Table letter_id (t_rows (dead_letters d) ++
         [DeadLetterRow letter_id (ob_escrow_id_hex r) "outbox_delivery" c' t'
            (u32_try_from_or U32_MAX attempts) (Some (sha3_hex (ob_envelope_json r)))
            (to_i64 now_dl)])) (set_outbox (touch "dead_letter") d), Ok tt)
    else (d, Err (Sqlite DatabaseFull))
  else (set_outbox (touch "pending") d, Ok tt).
Proof.
  intros Hok Hr <- Ho Ec Et. pose proof (outbox_id_pos _ _ Hok Hr). cbv zeta.
  unfold mark_outbox_retry_sync, sbind, slift, transaction, in_tx, sget.
  rewrite (proj2 (Z.leb_gt _ _)), Ec, Et by lia. cbn [fail_if tx_working tx_committed].
  rewrite (find_outbox_id d r Hok Hr). cbn [ok_or].
  assert (one_of ["acked"; "dead_letter"] (ob_status r) = false) as ->
    by (by destruct Ho as [->| ->]). cbn [fail_if].
  destruct (Z.max cap 1 <=? sat_add_i64 (ob_attempts r) 1); [|done].
  unfold update_outbox. cbn [tx_working tx_committed]. rewrite add_dead_letter_eq.
  cbn [dead_letters set_outbox]. by destruct (t_seq (dead_letters d) <? I64_MAX).
Qed.

(** The row that a retry leaves. *)
Lemma retry_touched d r id now s n next dls :
  r ∈ t_rows (outbox d) -> ob_id r = id ->
  outbox_touch now s (fun _ => n) next r ∈ t_rows (outbox (set_dead_letters dls (set_outbox
    (update_table (fun x => ob_id x =? id) (outbox_touch now s (fun _ => n) next) (outbox d)) d))).
Proof.
  intros Hr <-. simpl. apply elem_of_update. exists r. by rewrite Z.eqb_refl.
Qed.

Lemma retry_args_ok a : retry_ok a -> exists c t,
  normalize_non_empty (ra_code a) "error_code" = Ok c /\
  normalize_non_empty (ra_detail a) "error_detail_redacted" = Ok t.
Proof. unfold retry_ok. intros [? ?]. do 2 destruct (normalize_non_empty _ _); naive_solver. Qed.

(** A retry below the cap. *)
Lemma retry_once a id cap d r :
  db_ok d -> retry_ok a -> r ∈ t_rows (outbox d) -> ob_id r = id -> ob_open r ->
  cap <= U32_MAX -> ob_attempts r + 1 < Z.max cap 1 ->
  let d' := apply_op (retry_op id cap a) d in
  dead_letters d' = dead_letters d /\
  exists r', r' ∈ t_rows (outbox d') /\ ob_id r' = id /\ ob_open r' /\
    ob_attempts r' = ob_attempts r + 1.
Proof.
  intros Hok (c & t & Ec & Et)%retry_args_ok Hr Hid Ho Hcap Hn.
  pose proof (ob_attempts_nonneg d r Hok Hr).
  assert (sat_add_i64 (ob_attempts r) 1 = ob_attempts r + 1) as Ea by (ints; lia).
  unfold apply_op. simpl. erewrite retry_eq by done. rewrite Ea, (proj2 (Z.leb_gt _ _)) by lia.
  split; [done|]. eexists. split; [eapply (retry_touched d r id _ _ _ _ (dead_letters d)); done|].
  split_and!; [done|by left|done].
Qed.

Lemma retries_below args id cap d r :
  db_ok d -> Forall retry_ok args -> r ∈ t_rows (outbox d) -> ob_id r = id -> ob_open r ->
  cap <= U32_MAX -> ob_attempts r + Z.of_nat (length args) < Z.max cap 1 ->
  dead_letters (retries args id cap d) = dead_letters d /\
  exists r', r' ∈ t_rows (outbox (retries args id cap d)) /\ ob_id r' = id /\ ob_open r' /\
    ob_attempts r' = ob_attempts r + Z.of_nat (length args).
Proof.
  intros Hok Hargs. revert d r Hok.
  induction Hargs as [|a args Ha _ IH]; intros d r Hok Hr Hid Ho Hcap Hn; simpl in *.
  { split; [done|]. exists r. split_and!; [done..|lia]. }
  change (retries (a :: args) id cap d) with (retries args id cap (apply_op (retry_op id cap a) d)).
  destruct (retry_once a id cap d r) as (Hdl & r1 & Hr1 & Hid1 & Ho1 & Ha1); try done; [lia|].
  destruct (IH _ r1 (apply_op_ok (retry_op id cap a) d Hok I)) as (Hdl2 & r2 & ? & ? & ? & ?);
    try done; [lia|].
  split; [congruence|]. exists r2. split_and!; [done..|lia].
Qed.
End retries.

(** C27. Retries are bounded: a message under way with [a] attempts stays open
    for exactly [cap - a - 1] retries and the next one dead-letters it, with
    [cap] attempts counted and one new dead letter that carries the hash of
    its envelope. *)
Theorem retry_until_dead `{OrchExt} (d : db) (r : outbox_row) (cap : Z) (args : list RetryArgs)
    (last : RetryArgs) :
  db_ok d -> r ∈ t_rows (outbox d) -> ob_open r -> cap <= U32_MAX ->
  t_seq (dead_letters d) < I64_MAX -> Forall retry_ok args -> retry_ok last ->
  ob_attempts r + Z.of_nat (length args) + 1 = cap ->
  let d1 := retries args (ob_id r) cap d in
  let d2 := retries (args ++ [last]) (ob_id r) cap d in
  (exists r1, r1 ∈ t_rows (outbox d1) /\ ob_id r1 = ob_id r /\ ob_open r1) /\
  (exists r2 l, r2 ∈ t_rows (outbox d2) /\ ob_id r2 = ob_id r /\
     ob_status r2 = "dead_letter" /\ ob_attempts r2 = cap /\
     t_rows (dead_letters d2) = t_rows (dead_letters d) ++ [l] /\
     dead_letter_of r2 l /\ dl_attempts l = cap).
Proof.
  intros Hok Hr Ho Hcap Hdl Hargs (c & t & Ec & Et)%retry_args_ok Hn d1 d2.
  pose proof (ob_attempts_nonneg d r Hok Hr).
  destruct (retries_below args (ob_id r) cap d r) as (Hd1 & r1 & Hr1 & Hid1 & Ho1 & Ha1);
    try done; [lia|]. split; [eauto|].
  assert (db_ok d1) as Hok1 by (apply run_ops_ok; [done|]; by apply Forall_map, Forall_true).
  assert (d2 = apply_op (retry_op (ob_id r) cap last) d1) as ->
    by (unfold d2, retries; rewrite map_app, run_ops_app; done).
  assert (sat_add_i64 (ob_attempts r1) 1 = cap) as Ea by (ints; lia).
  fold d1 in Hd1, Hr1. unfold apply_op. simpl. erewrite (retry_eq _ _ _ _ _ _ _ d1 r1) by done.
  rewrite Ea, Hd1, (proj2 (Z.leb_le _ _)), (proj2 (Z.ltb_lt _ _)) by lia. cbn [fst].
  eexists (outbox_touch _ "dead_letter" (fun _ => cap) _ r1), _.
  split_and!; [by apply retry_touched|done..|]. simpl. ints. case_match; lia.
Qed.

Lemma retry_until_dead_witness :
  let d := run_ops (take 3 demo_ops) (init_sync None) in
  let a := MkRetryArgs 2000 2001 500 "timeout" "peer unreachable" in
  exists r' l, r' ∈ t_rows (outbox (retries [a; a; a] 1 3 d)) /\ ob_status r' = "dead_letter" /\
    dl_attempts l = 3.
Proof.
  intros d a.
  destruct (retry_until_dead d (OutboxRow 1 demo_id "prepare_collected" "seller" "prepare_info" "{}"
    (outbox_idem_key (fun s => s) demo_id PrepareCollected "seller" "prepare_info"
       (hex_encode "{}")) "pending" 0 1002 1002 1002) 3 [a; a] a)
    as [_ (r' & l & Hr & _ & Hs & _ & _ & _ & Hl)].
  - apply run_ops_ok; [apply db_ok_empty|]. apply Forall_take, demo_typed.
  - apply list_elem_of_In. vm_compute. by left.
  - by left.
  - ints; lia.
  - vm_compute; reflexivity.
  - repeat constructor.
  - repeat constructor.
  - simpl; lia.
  - by exists r', l.
Defined.
