(* ===== verification/OrchEvidence.v ===== *)
(** * Properties of the orchestrator: atomicity, proofs and reports

    Failed calls roll back, the submit bundle needs two independent signing
    proofs, what is stored is what is read, and the reports say what the
    tables hold. *)

From S2P Require Import Prelude RustString Sql Flow OrchDb OrchSpec OrchInv OrchRefine OrchReports OrchProps.
#[local] Existing Instance demo_ext | 100.

(** ** Rollback *)

(** A transaction body that never fails after it has committed. *)
Definition rolls_back {S E A} (body : M (txn S) E A) : Prop :=
  forall t, is_err (body t).2 = true -> tx_committed (body t).1 = tx_committed t.
(** A computation that leaves the state alone when it fails. *)
Definition atomic {S E A} (m : M S E A) : Prop := forall s, is_err (m s).2 = true -> (m s).1 = s.

Create HintDb rollback.

Section rollback.
Context {S E : Type}.

Lemma rolls_back_lift {A B} (r : result E A) (k : A -> M (txn S) E B) :
  (forall a, rolls_back (k a)) -> rolls_back (sbind (slift r) k).
Proof. intros Hk t. unfold sbind, slift. destruct r; [apply Hk|done]. Qed.

Lemma rolls_back_in_tx {A B} (m : M S E A) (k : A -> M (txn S) E B) :
  (forall a, rolls_back (k a)) -> rolls_back (sbind (in_tx m) k).
Proof.
  intros Hk t. unfold sbind, in_tx. destruct (m (tx_working t)) as [s [a|e]]; [|done].
  intros He. by rewrite Hk.
Qed.

Lemma rolls_back_commit : rolls_back (@commit S E).
Proof. by intros t. Qed.

Lemma rolls_back_commit_ret {A} (a : A) : rolls_back (sbind (@commit S E) (fun _ => sret a)).
Proof. by intros t. Qed.

Lemma rolls_back_fail {A} (e : E) : rolls_back (@sfail (txn S) E A e).
Proof. by intros t. Qed.

Lemma atomic_lift {A B} (r : result E A) (k : A -> M S E B) :
  (forall a, atomic (k a)) -> atomic (sbind (slift r) k).
Proof. intros Hk s. unfold sbind, slift. destruct r; [apply Hk|done]. Qed.

Lemma atomic_tx {A} (body : M (txn S) E A) : rolls_back body -> atomic (transaction body).
Proof.
  intros Hb s. unfold transaction. specialize (Hb (Txn s s)).
  destruct (body (Txn s s)) as [t r]. apply Hb.
Qed.

Lemma atomic_exec {A} (f : S -> result E (S * A)) : atomic (sexec f).
Proof. intros s. unfold sexec. by destruct (f s) as [[? ?]|?]. Qed.
End rollback.

#[export] Hint Resolve rolls_back_lift rolls_back_in_tx rolls_back_commit rolls_back_commit_ret
  rolls_back_fail atomic_lift atomic_tx atomic_exec : rollback.

Section atomicity.
Context `{OrchExt}.

(** Walks a body down to its commits. *)
Ltac rollback :=
  repeat first [ progress cbv zeta | apply atomic_lift; intros ? | apply atomic_tx | apply rolls_back_lift; intros ?
               | apply rolls_back_in_tx; intros ?
               | match goal with |- rolls_back (match ?x with _ => _ end) => destruct x end
               | apply atomic_exec | solve [auto with rollback] ].

Lemma mark_atomic now status attempts id :
  atomic (sbind (update_outbox (outbox_open id) (outbox_touch now status attempts None))
            (fun n => slift (fail_if (n =? 0) (OutboxNotOpen id)))).
Proof.
  intros d. unfold sbind, update_outbox, slift. cbn [fst snd].
  destruct (Z.eqb_spec (count_rows (outbox_open id) (t_rows (outbox d))) 0) as [E|]; [|done].
  intros _. rewrite count_zero in E.
  exact (f_equal fst (update_outbox_none (E := DbError) _ _ d E)).
Qed.

(** The write of the one call that fails after a commit. *)
Definition conflict_recorded (d d' : db) : Prop :=
  exists now e p, d' = conflict_written now e p d.

Lemma record_step_failure now i d err :
  db_ok d -> (record_step_sync now i d).2 = Err err ->
  (record_step_sync now i d).1 = d \/
  (exists e f q, err = IdemConflict e f q) /\ conflict_recorded d (record_step_sync now i d).1.
Proof.
  intros Hok. destruct (record_step_guards now i d) as [[e ->]|(e & f & m & p & w & Hg)]; [by left|].
  rewrite (record_step_eq now i d e f m p w Hok Hg). unfold step_outcome, conflict_recorded.
  repeat case_match; simpl; intros; simplify_eq; eauto 10.
Qed.

Lemma run_op_atomic op d err :
  db_ok d -> (run_op op d).2 = Err err ->
  apply_op op d = d \/
  (exists now i e f q, op = OpRecordStep now i /\ err = IdemConflict e f q) /\
  conflict_recorded d (apply_op op d).
Proof.
  intros Hok He. assert (is_err (run_op op d).2 = true) as Herr by by rewrite He.
  unfold apply_op. destruct op; simpl in *.
  3:{ unfold sbind, sret in *. pose proof (record_step_failure now input d) as K.
      destruct (record_step_sync now input d) as [d' [o|e]]; simpl in *; [done|]. simplify_eq.
      destruct (K err) as [->|[(e & f & q & ->) Hc]]; try done; [by left|right]. eauto 10. }
  all: left; revert Herr;
    match goal with |- is_err (?m ?s).2 = true -> _ =>
      enough (atomic m) as K by exact (K s) end.
  all: match goal with
    | |- atomic (mark_outbox_sent_sync _ _) => apply atomic_lift; intros _; apply mark_atomic
    | |- atomic (mark_outbox_acked_sync _ _) => apply atomic_lift; intros _; apply mark_atomic
    | |- _ => rollback
    end.
Qed.
End atomicity.

(** C29. Failure is atomic: a writing call that returns an error leaves the
    database as it was, with one exception, the idempotency conflict of
    [record_step], which first commits exactly one dead letter. *)
Theorem failed_call_atomic `{OrchExt} (op : OrchOp) (d : db) (err : DbError) :
  db_ok d -> (run_op op d).2 = Err err ->
  apply_op op d = d \/
  (exists now i e f q, op = OpRecordStep now i /\ err = IdemConflict e f q) /\
  conflict_recorded d (apply_op op d).
Proof. apply run_op_atomic. Qed.

Lemma failed_call_atomic_witness :
  let d := run_ops demo_ops (init_sync None) in
  let op := OpTransitionWorkflow 9 demo_id Confirmed None in
  apply_op op d = d \/
  (exists now i e f q, op = OpRecordStep now i /\
     InvalidTransition PrepareCollected Confirmed = IdemConflict e f q) /\
  conflict_recorded d (apply_op op d).
Proof.
  intros d op. apply failed_call_atomic.
  - apply run_ops_ok; [apply db_ok_empty|apply demo_typed].
  - vm_compute; reflexivity.
Defined.

(** ** Signing proofs and the submit bundle *)

Section proofs.
Context `{OrchExt}.

Lemma quorum_find_key e r s t (x : QuorumSignProof) :
  (qp_escrow_id_hex x =? e)%string && (qp_role x =? r)%string && (qp_sign_round x =? s)%string
    && (qp_txset_hash_hex x =? t)%string = true <-> quorum_key x = (e, r, s, t).
Proof.
  unfold quorum_key. rewrite !pair_equal_spec, !andb_true_iff, !String.eqb_eq. intuition congruence.
Qed.

Lemma get_proof_some d e r s t q :
  get_quorum_sign_proof_tx d e r s t = Some q ->
  exists x, x ∈ quorum_sign_proofs d /\ quorum_key x = (e, r, s, t) /\ q = row_to_quorum_sign_proof x.
Proof.
  unfold get_quorum_sign_proof_tx. destruct (List.find _ _) as [x|] eqn:E; [|done].
  intros [= <-]. apply find_some_elem in E as [Hx E%quorum_find_key]. eauto.
Qed.

Lemma get_proof_of d x :
  db_ok d -> x ∈ quorum_sign_proofs d ->
  get_quorum_sign_proof_tx d (qp_escrow_id_hex x) (qp_role x) (qp_sign_round x) (qp_txset_hash_hex x)
    = Some (row_to_quorum_sign_proof x).
Proof.
  intros Hok Hx. unfold get_quorum_sign_proof_tx.
  rewrite (find_unique quorum_key _ _ x); [done|apply Hok|done|by apply quorum_find_key|].
  intros y E%quorum_find_key. done.
Qed.

(** The evidence a bundle is made of. *)
Definition bundle_evidence (d : db) (e h : string) (a s : QuorumSignProof) : Prop :=
  (exists w, wf_row_of d e = Some w /\ workflow_allows_quorum_proof_state (row_state w) = true) /\
  a ∈ quorum_sign_proofs d /\ quorum_key a = (e, "arbiter", "arbiter_first", h) /\
  s ∈ quorum_sign_proofs d /\ quorum_key s = (e, "seller", "seller_second", h) /\
  qp_jti a <> qp_jti s.
Definition bundle_of (now : Z) (e h : string) (a s : QuorumSignProof) : SubmitMultisigProofBundle :=
  MkProofBundle e h (qp_jti a) (qp_req_id a) (qp_jti s) (qp_req_id s)
    (to_u64 (qp_updated_at_ms a)) (to_u64 (qp_updated_at_ms s)) now.

Lemma bundle_sound now e h d b :
  hex_norm 32 e -> hex_norm 64 h ->
  (get_submit_multisig_proof_bundle_sync now e h d).2 = Ok b ->
  exists a s, bundle_evidence d e h a s /\ b = bundle_of now e h a s.
Proof.
  intros He Hh. unfold get_submit_multisig_proof_bundle_sync, sbind, slift, sget.
  rewrite !normalize_hex_exact_id by done.
  destruct (get_workflow_tx d e) as [wf|] eqn:Ew; [|done]. cbn [ok_or].
  apply get_workflow_row in Ew as (w & Hw & ->).
  unfold workflow_allows_submit_multisig_proof_bundle_state.
  destruct (workflow_allows_quorum_proof_state _) eqn:Es; [|done]. cbn [fail_if negb].
  destruct (get_quorum_sign_proof_tx d e "arbiter" _ h) as [a|] eqn:Ea; [|done].
  destruct (get_quorum_sign_proof_tx d e "seller" _ h) as [s|] eqn:Ese; [|done]. cbn [ok_or].
  apply get_proof_some in Ea as (a' & Ha & Hka & ->).
  apply get_proof_some in Ese as (s' & Hs & Hks & ->). cbn [row_to_quorum_sign_proof qp_jti qp_req_id].
  destruct (String.eqb_spec (qp_jti a') (qp_jti s')); [done|].
  destruct (String.eqb_spec (qp_req_id a') (qp_req_id s')); [done|]. simpl.
  intros [= <-]. exists a', s'. split; [|done]. split_and!; eauto.
Qed.

Lemma bundle_complete now e h d a s :
  db_ok d -> hex_norm 32 e -> hex_norm 64 h -> bundle_evidence d e h a s ->
  get_submit_multisig_proof_bundle_sync now e h d = (d, Ok (bundle_of now e h a s)).
Proof.
  intros Hok He Hh ((w & Hw & Hst) & Ha & Hka & Hs & Hks & Hj).
  unfold get_submit_multisig_proof_bundle_sync, sbind, slift, sget.
  rewrite !normalize_hex_exact_id by done. rewrite (get_workflow_of _ _ _ Hw). cbn [ok_or].
  unfold workflow_allows_submit_multisig_proof_bundle_state.
  change (wi_state (row_to_workflow w)) with (row_state w). rewrite Hst. cbn [fail_if negb].
  pose proof (get_proof_of d a Hok Ha) as Ga. pose proof (get_proof_of d s Hok Hs) as Gs.
  unfold quorum_key in Hka, Hks. injection Hka as Ea1 Ea2 Ea3 Ea4. injection Hks as Es1 Es2 Es3 Es4.
  rewrite Ea1, Ea2, Ea3, Ea4 in Ga. rewrite Es1, Es2, Es3, Es4 in Gs. rewrite Ga, Gs.
  cbn [ok_or row_to_quorum_sign_proof qp_jti qp_req_id].
  rewrite (proj2 (String.eqb_neq _ _)) by done. cbn [fail_if].
  rewrite (proj2 (String.eqb_neq _ _)); [done|].
  intros E. assert (a = s) as -> by (eapply (unique_row qp_req_id); [apply Hok|done..]).
  congruence.
Qed.
End proofs.

(** The submit bundle is issued exactly when the workflow is in a signing
    state and the table holds an arbiter-first and a seller-second proof for
    that very transaction set with different token ids; it contains those two
    proofs.  (Their request ids then differ by the table's UNIQUE constraint.) *)
Theorem submit_bundle_exact `{OrchExt} (now : Z) (d : db) (e h : string)
    (b : SubmitMultisigProofBundle) :
  db_ok d -> hex_norm 32 e -> hex_norm 64 h ->
  get_submit_multisig_proof_bundle_sync now e h d = (d, Ok b) <->
  exists a s, bundle_evidence d e h a s /\ b = bundle_of now e h a s.
Proof.
  intros Hok He Hh. split.
  - intros Hb. apply (bundle_sound now e h d b He Hh). by rewrite Hb.
  - intros (a & s & Hev & ->). by apply bundle_complete.
Qed.

Definition demo_req2 : string := repeat_byte "2" 64.
Definition demo_signing : list OrchOp :=
  OpCreateWorkflow 1 demo_id demo_hash ["buyer"; "seller"; "arbiter"]
  :: map (fun s => OpTransitionWorkflow 2 demo_id s None)
       [PrepareCollected; MakeCollected; ExchangeR1Collected; ExchangeR2Collected;
        FinalizedReady; Funded]
  ++ [OpUpsertQuorumProof 3 demo_id "arbiter" "arbiter_first" demo_hash "jti-1" demo_hash;
      OpUpsertQuorumProof 4 demo_id "seller" "seller_second" demo_hash "jti-2" demo_req2].

Lemma demo_signing_ok : db_ok (run_ops demo_signing (init_sync None)).
Proof. apply run_ops_ok; [apply db_ok_empty|repeat constructor]. Qed.

Lemma submit_bundle_exact_witness :
  let d := run_ops demo_signing (init_sync None) in
  exists a s, bundle_evidence d demo_id demo_hash a s /\
    MkProofBundle demo_id demo_hash "jti-1" demo_hash "jti-2" demo_req2 3 4 9
      = bundle_of 9 demo_id demo_hash a s.
Proof.
  intros d. apply (submit_bundle_exact 9 d).
  - apply demo_signing_ok.
  - split; reflexivity.
  - split; reflexivity.
  - vm_compute; reflexivity.
Defined.

(** ** Store and load *)

Section store_load.
Context `{OrchExt}.

Lemma find_upserted {R K} (key : R -> K) same merge (r : R) l :
  (forall x, same r x = true <-> key x = key r) -> (forall x, key (merge x r) = key x) ->
  List.find (same r) (upserted same merge r l)
    = Some (match List.find (same r) l with Some x => merge x r | None => r end).
Proof.
  intros Hs Hm. unfold upserted. destruct (existsb (same r) l) eqn:E.
  - rewrite find_update.
    + destruct (List.find (same r) l) as [x|] eqn:Ef.
      * apply find_some_elem in Ef as [_ ->]. done.
      * apply existsb_exists in E as (x & Hx%list_elem_of_In & E).
        rewrite find_none_elem in Ef. by rewrite Ef in E.
    + intros x Hx. rewrite Hx. apply Hs. rewrite Hm. by apply Hs.
  - rewrite find_app_fresh. rewrite existsb_false, <- find_none_elem in E. rewrite E.
    by rewrite (proj2 (Hs r)).
Qed.

Lemma find_upserted_other {R K} (key : R -> K) same merge (r : R) p l :
  (forall x, same r x = true <-> key x = key r) -> (forall x, key (merge x r) = key x) ->
  (forall x, p x = true -> key x <> key r) -> (forall x, same r x = true -> p (merge x r) = p x) ->
  List.find p (upserted same merge r l) = List.find p l.
Proof.
  intros Hs Hm Hp Hpm. unfold upserted. destruct (existsb (same r) l) eqn:E.
  - rewrite find_update by done. destruct (List.find p l) as [x|] eqn:Ef; [|done].
    apply find_some_elem in Ef as [_ Hx]. destruct (same r x) eqn:Ex; [|done].
    apply Hs in Ex. by apply Hp in Hx.
  - rewrite find_app_fresh. destruct (List.find p l); [done|].
    destruct (p r) eqn:Er; [by apply Hp in Er|done].
Qed.

Lemma upsert_quorum_ok now e r s t j q d d' :
  upsert_quorum_sign_proof_sync now e r s t j q d = (d', Ok tt) ->
  exists row, normalize_hex_exact e 32 "escrow_id_hex" = Ok (qp_escrow_id_hex row) /\
    normalize_worker_role r = Ok (qp_role row) /\
    normalize_quorum_sign_round_for_role (qp_role row) s = Ok (qp_sign_round row) /\
    normalize_hex_exact t 64 "txset_hash_hex" = Ok (qp_txset_hash_hex row) /\
    normalize_jti j "jti" = Ok (qp_jti row) /\ normalize_hex_exact q 64 "req_id" = Ok (qp_req_id row) /\
    qp_updated_at_ms row = to_i64 now /\
    d' = set_quorum_sign_proofs (upserted quorum_same quorum_merge row (quorum_sign_proofs d)) d.
Proof.
  unfold upsert_quorum_sign_proof_sync, sbind, slift.
  destruct (normalize_hex_exact e 32 _) as [e'|]; [|done].
  destruct (normalize_worker_role r) as [r'|]; [|done].
  destruct (normalize_quorum_sign_round_for_role r' s) as [s'|] eqn:Es; [|done].
  destruct (normalize_hex_exact t 64 _) as [t'|]; [|done].
  destruct (normalize_jti j _) as [j'|]; [|done].
  destruct (normalize_hex_exact q 64 _) as [q'|]; [|done].
  unfold transaction, in_tx, sget, sexec. cbn [tx_working tx_committed].
  destruct (ok_or _ _); [|done]. destruct (fail_if _ _); [|done].
  destruct (sql _) as [rows|] eqn:Eu; [|done]. apply sql_ok, upsert_row_ok in Eu as (_ & -> & _).
  intros [= <-]. by exists (MkQuorumSignProof e' r' s' t' j' q' (to_i64 now)).
Qed.

Lemma quorum_find_same row (x : QuorumSignProof) :
  (qp_escrow_id_hex x =? qp_escrow_id_hex row)%string && (qp_role x =? qp_role row)%string
    && (qp_sign_round x =? qp_sign_round row)%string
    && (qp_txset_hash_hex x =? qp_txset_hash_hex row)%string = quorum_same row x.
Proof. apply eq_true_iff_eq. by rewrite quorum_find_key, quorum_same_key. Qed.

Lemma quorum_merge_same row x : quorum_same row x = true -> quorum_merge x row = row.
Proof.
  intros E%quorum_same_key. unfold quorum_key in E. injection E as E1 E2 E3 E4.
  unfold quorum_merge. rewrite E1, E2, E3, E4. by destruct row.
Qed.
End store_load.

(** A signing proof that was stored is the one that is read back for its
    escrow, role, round and transaction set, and storing it leaves every other
    proof as it was. *)
Theorem quorum_proof_store_load `{OrchExt} (now : Z) (e r s t j q : string) (d d' : db) :
  upsert_quorum_sign_proof_sync now e r s t j q d = (d', Ok tt) ->
  exists p, get_quorum_sign_proof_sync e r s t d' = (d', Ok (Some p)) /\
    normalize_jti j "jti" = Ok (qp_jti p) /\ normalize_hex_exact q 64 "req_id" = Ok (qp_req_id p) /\
    qp_updated_at_ms p = to_u64 (to_i64 now) /\
    forall e' r' s' t', (e', r', s', t') <> quorum_key p ->
      get_quorum_sign_proof_tx d' e' r' s' t' = get_quorum_sign_proof_tx d e' r' s' t'.
Proof.
  intros (row & Ee & Er & Es & Et & Ej & Eq & Eu & ->)%upsert_quorum_ok.
  exists (row_to_quorum_sign_proof row). split_and!; [|done|done|simpl; congruence|].
  - unfold get_quorum_sign_proof_sync, sbind, slift, sget. rewrite Ee, Er, Es, Et.
    unfold get_quorum_sign_proof_tx. rewrite (find_ext _ (quorum_same row)) by apply quorum_find_same.
    cbn [quorum_sign_proofs set_quorum_sign_proofs].
    rewrite (find_upserted quorum_key) by (done || apply quorum_same_key).
    destruct (List.find _ _) as [x|] eqn:Ef; [|done].
    apply find_some_elem in Ef as [_ Hx]. by rewrite quorum_merge_same.
  - intros e' r' s' t' Hne. unfold get_quorum_sign_proof_tx. f_equal.
    apply (find_upserted_other quorum_key); [apply quorum_same_key|done|..|done].
    intros x Hx%quorum_find_key E. rewrite Hx in E. by destruct row.
Qed.

Lemma quorum_proof_store_load_witness :
  let d := run_ops (take 7 demo_signing) (init_sync None) in
  let d' := (upsert_quorum_sign_proof_sync 5 demo_id "Buyer" "buyer_second" demo_hash "j" demo_req2 d).1 in
  exists p, get_quorum_sign_proof_sync demo_id "Buyer" "buyer_second" demo_hash d' = (d', Ok (Some p)).
Proof.
  intros d d'.
  destruct (quorum_proof_store_load 5 demo_id "Buyer" "buyer_second" demo_hash "j" demo_req2 d d')
    as (p & Hp & _); [vm_compute; reflexivity|by exists p].
Defined.

(** ** Reports *)

(** The integrity check reports nothing exactly when every workflow,
    proposal and signing proof passes the checks of the normalising helpers
    and none is orphaned, whatever limit is asked for. *)
Theorem integrity_check_exact `{OrchExt} (limit : Z) (d : db) :
  integrity_check_sync limit d = (d, Ok []) <-> integrity_clean d.
Proof.
  rewrite <- (integrity_check_nil limit d). split; [by intros ->|].
  intros E. by rewrite (surjective_pairing (integrity_check_sync limit d)), E.
Qed.

(** A database the orchestrator wrote is always clean: after any calls
    from a fresh file the integrity check reports nothing. *)
Theorem integrity_reachable `{OrchExt, !OrchExtLaws} (ops : list OrchOp) (limit : Z) :
  Forall op_typed ops ->
  let d := run_ops ops (init_sync None) in integrity_check_sync limit d = (d, Ok []).
Proof.
  intros Hops d. rewrite (surjective_pairing (integrity_check_sync limit d)).
  rewrite (proj2 (integrity_check_nil limit d)); [done|].
  apply db_ok_clean, run_ops_ok; [apply db_ok_empty|done].
Qed.

Lemma integrity_reachable_witness :
  let d := run_ops demo_ops (init_sync None) in integrity_check_sync 50 d = (d, Ok []).
Proof. apply (@integrity_reachable demo_ext demo_laws demo_ops 50 demo_typed). Defined.

(** The delivery report of any reachable database: the four status counts
    add up to the whole outbox, no idempotency key is duplicated (so
    [dedup_proof_ok] always holds), and the count of replayed steps is always
    zero, because replays are answered without a row being written. *)
Theorem delivery_report_exact `{OrchExt} (ops : list OrchOp) (now window stale : Z) :
  Forall op_typed ops ->
  let d := run_ops ops (init_sync None) in
  exists rep, delivery_guarantee_report_sync now window stale d = (d, Ok rep) /\
    dr_outbox_pending rep + dr_outbox_sent rep + dr_outbox_acked rep + dr_outbox_dead_letter rep
      = Z.of_nat (length (t_rows (outbox d))) /\
    dr_dedup_proof_ok rep = true /\ dr_step_replay_duplicate_window rep = 0 /\
    dr_inbox_offsets_total rep = Z.of_nat (length (inbox_offsets d)).
Proof.
  intros Hops d. assert (db_ok d) as Hok by (apply run_ops_ok; [apply db_ok_empty|done]).
  eexists. split; [reflexivity|]. cbn [dr_outbox_pending dr_outbox_sent dr_outbox_acked
    dr_outbox_dead_letter dr_dedup_proof_ok dr_step_replay_duplicate_window dr_inbox_offsets_total].
  rewrite !count_u64_eq, !count_dup_NoDup, no_replay_rows, count_all by (done || apply Hok).
  split_and!; [|done..]. apply outbox_status_partition.
  eapply Forall_impl; [apply (ok_ob _ Hok)|].
  intros r (w & _ & _ & s & _ & _ & _ & _ & _ & Hs & _). done.
Qed.

Lemma delivery_report_exact_witness :
  let d := run_ops demo_ops (init_sync None) in
  exists rep, delivery_guarantee_report_sync 5000 100 100 d = (d, Ok rep) /\
    dr_step_replay_duplicate_window rep = 0.
Proof.
  destruct (delivery_report_exact demo_ops 5000 100 100 demo_typed) as (rep & E & _ & _ & Hz & _).
  exists rep. split; [exact E|exact Hz].
Defined.

(** The replay alert can never fire: in a reachable database the alert
    report has no [replay_duplicate_window_total] entry for any threshold,
    however many replays were answered. *)
Theorem replay_alert_never_fires `{OrchExt} (ops : list OrchOp) (now now' window stuck : Z)
    (th : SloAlertThresholds) :
  Forall op_typed ops -> 0 <= th_replay_duplicate_window_total th ->
  let d := run_ops ops (init_sync None) in
  exists rep, slo_alert_report now now' window stuck th d = (d, Ok rep) /\
    forall a, a ∈ ar_alerts rep -> ai_metric a <> "replay_duplicate_window_total".
Proof.
  intros Hops Hth d. assert (db_ok d) as Hok by (apply run_ops_ok; [apply db_ok_empty|done]).
  eexists. split; [reflexivity|]. unfold build_slo_alert_report. cbn [ar_alerts].
  set (m := MkSloMetrics _ _ _ _ _ _ _ _ _ _ _ _ _ _ _).
  assert (sm_step_replay_duplicate_window m = 0) as Hz.
  { unfold m. cbn [sm_step_replay_duplicate_window]. by rewrite count_u64_eq, no_replay_rows. }
  rewrite Hz. intros a Ha. unfold alert_when in Ha.
  rewrite (proj2 (Z.ltb_ge (th_replay_duplicate_window_total th) 0)) in Ha by lia.
  rewrite app_nil_r, !elem_of_app in Ha.
  destruct Ha as [Ha|[Ha|[Ha|[Ha|Ha]]]]; destruct (_ <? _); try (by apply not_elem_of_nil in Ha);
    by apply list_elem_of_singleton in Ha as ->.
Qed.

Lemma replay_alert_never_fires_witness :
  let d := run_ops (demo_ops ++ [OpRecordStep 6 demo_step; OpRecordStep 7 demo_step]) (init_sync None) in
  exists rep, slo_alert_report 8 8 100 100 default_thresholds d = (d, Ok rep) /\
    forall a, a ∈ ar_alerts rep -> ai_metric a <> "replay_duplicate_window_total".
Proof.
  apply replay_alert_never_fires.
  - apply Forall_app_2; [apply demo_typed|repeat constructor; simpl; ints; lia].
  - simpl; lia.
Defined.

(** The service-level metrics count what the table holds: the active
    workflows and the stuck ones exactly, an average age that never exceeds
    the maximum, and per stage the exact number of active workflows in it. *)
Theorem slo_metrics_exact `{OrchExt} (d : db) (now window stuck : Z) :
  Z.of_nat (length (workflow_instances d)) <= U64_MAX ->
  exists m, slo_metrics_sync now window stuck d = (d, Ok m) /\
    sm_workflows_total m = Z.of_nat (length (workflow_instances d)) /\
    sm_workflows_active m = count_rows wf_active (workflow_instances d) /\
    sm_workflows_stuck m = count_rows (fun r => Z.max stuck 1 <? row_age now r)
                             (List.filter wf_active (workflow_instances d)) /\
    sm_active_workflow_avg_age_ms m <= sm_active_workflow_max_age_ms m /\
    forall s, match sm_stage_latency m !! s with
      | Some l => sl_count l = count_rows (in_stage s) (List.filter wf_active (workflow_instances d)) /\
                  sl_avg_age_ms l <= sl_max_age_ms l
      | None => count_rows (in_stage s) (List.filter wf_active (workflow_instances d)) = 0
      end.
Proof.
  intros Hlen. set (l := List.filter wf_active (workflow_instances d)).
  assert (Z.of_nat (length l) <= U64_MAX) as Hl.
  { pose proof (List.filter_length_le wf_active (workflow_instances d)). unfold l. lia. }
  destruct (slo_fold_spec now (Z.max stuck 1) l Hl) as (Ha & Hs & Hst).
  eexists. split; [reflexivity|]. cbn [sm_workflows_total sm_workflows_active sm_workflows_stuck
    sm_active_workflow_avg_age_ms sm_active_workflow_max_age_ms sm_stage_latency]. fold l.
  rewrite count_u64_eq, count_all. split_and!; [done| |done|by eapply average_le|].
  - destruct Ha as (-> & _). by rewrite length_map.
  - intros s. specialize (Hst s). rewrite lookup_fmap.
    assert (forall k, ages_in now (in_stage s) l = k ->
              count_rows (in_stage s) l = Z.of_nat (length k)) as Hk.
    { intros k <-. unfold ages_in, count_rows. by rewrite length_map. }
    destruct (sa_stages _ !! s) as [g|]; simpl; [|by rewrite (Hk [])].
    split; [|by eapply average_le]. destruct Hst as (-> & _). by rewrite (Hk _ eq_refl).
Qed.

Lemma slo_metrics_exact_witness :
  let d := run_ops demo_ops (init_sync None) in
  exists m, slo_metrics_sync 9000 100 100 d = (d, Ok m) /\ sm_workflows_active m = 1 /\
    sm_workflows_stuck m = 1.
Proof.
  intros d. destruct (slo_metrics_exact d 9000 100 100) as (m & E & _ & Ha & Hs & _).
  - vm_compute. discriminate.
  - exists m. split_and!; [exact E|rewrite Ha; vm_compute; reflexivity|rewrite Hs; vm_compute; reflexivity].
Defined.

(** The alert report is green exactly when every observed metric is
    within its threshold. *)
Theorem slo_alert_ok_iff (now : Z) (m : WorkflowSloMetrics) (th : SloAlertThresholds) :
  ar_ok (build_slo_alert_report now m th) = true <->
  sm_workflows_stuck m <= th_workflows_stuck_total th /\
  sm_active_workflow_max_age_ms m <= th_active_workflow_max_age_ms th /\
  sm_outbox_pending m <= th_outbox_pending_total th /\
  sm_outbox_sent_unacked m <= th_outbox_sent_unacked_total th /\
  sm_dead_letter_window m <= th_dead_letter_window_total th /\
  sm_step_replay_duplicate_window m <= th_replay_duplicate_window_total th.
Proof.
  unfold build_slo_alert_report, alert_when. cbn [ar_ok].
  repeat match goal with |- context [?a <? ?b] => destruct (Z.ltb_spec a b) end; simpl;
    intuition (done || lia).
Qed.

(** ** Idempotency keys *)

(** Two steps share an idempotency key only if they are the same step
    (escrow, state, sender and sequence number), unless SHA3-256 collides. *)
Theorem step_key_identifies `{OrchExt} e1 s1 f1 q1 e2 s2 f2 q2 :
  hex_norm 32 e1 -> hex_norm 32 e2 -> is_u64 q1 -> is_u64 q2 ->
  step_idem_key sha3_256 e1 s1 f1 q1 = step_idem_key sha3_256 e2 s2 f2 q2 ->
  (e1 = e2 /\ s1 = s2 /\ f1 = f2 /\ q1 = q2) \/ hash_collision sha3_256.
Proof.
  intros [H1 _] [H2 _] [Hq1 _] [Hq2 _]. apply step_idem_key_inj; [congruence|done..].
Qed.

Lemma step_key_identifies_witness :
  (demo_id = demo_id /\ New = New /\ "a:b" = "a:b" /\ 5 = 5) \/ hash_collision (fun s => s).
Proof.
  apply (@step_key_identifies demo_ext); [split; reflexivity..|ints; lia|ints; lia|reflexivity].
Defined.

(** A message whose key is in the outbox is not queued again. *)
Lemma enqueue_known `{OrchExt} now i d e t m r :
  normalize_hex_exact (oi_escrow_id_hex i) 32 "escrow_id_hex" = Ok e ->
  normalize_non_empty (oi_to_id i) "to_id" = Ok t ->
  normalize_non_empty (oi_msg_type i) "msg_type" = Ok m ->
  r ∈ t_rows (outbox d) ->
  ob_idem_key r = outbox_idem_key sha3_256 e (oi_state i) t m (sha3_hex (oi_envelope_json i)) ->
  (enqueue_outbox_sync now i d).1 = d.
Proof.
  intros Ee Et Em Hr Hk. unfold enqueue_outbox_sync, sbind, slift, transaction, in_tx, sget.
  rewrite Ee, Et, Em. cbn [tx_working tx_committed].
  destruct (ok_or _ _); [|done]. destruct (fail_if _ _); [|done]. destruct (fail_if _ _); [|done].
  destruct (match expected_msg_type_for_state _ with Some _ => _ | None => _ end); [|done].
  unfold insert_auto. destruct (_ <? _); [|done]. unfold insert_row.
  assert (existsb (outbox_clash (OutboxRow (t_seq (outbox d) + 1) e (as_str (oi_state i)) t m
    (oi_envelope_json i) (outbox_idem_key sha3_256 e (oi_state i) t m (sha3_hex (oi_envelope_json i)))
    "pending" 0 (to_i64 now) (to_i64 now) (to_i64 now))) (t_rows (outbox d)) = true) as ->; [|done].
  apply existsb_exists. exists r. split; [by apply list_elem_of_In|].
  unfold outbox_clash. simpl. by rewrite Hk, String.eqb_refl.
Qed.

(** Outbox keys do not identify messages, for any hash function: once a
    message of type ["b:c"] to ["a"] is queued, one of type ["c"] to ["a:b"]
    with the same envelope has the same key and is silently not queued. *)
Theorem outbox_key_ambiguous `{OrchExt} (now : Z) (e x : string) (s : WorkflowState) (d : db)
    (r : outbox_row) :
  hex_norm 32 e -> r ∈ t_rows (outbox d) ->
  ob_idem_key r = outbox_idem_key sha3_256 e s "a" "b:c" (sha3_hex x) ->
  (enqueue_outbox_sync now (MkOutboxInput e s "a:b" "c" x) d).1 = d.
Proof.
  intros He Hr Hk. eapply enqueue_known; [by apply normalize_hex_exact_id|reflexivity..|done|].
  rewrite Hk. reflexivity.
Qed.

Lemma outbox_key_ambiguous_witness :
  let d := run_ops [OpCreateWorkflow 1 demo_id demo_hash ["a"; "a:b"];
                    OpEnqueueOutbox 2 (MkOutboxInput demo_id New "a" "b:c" "{}")] (init_sync None) in
  let second := MkOutboxInput demo_id New "a:b" "c" "{}" in
  (enqueue_outbox_sync 3 second d).1 = d /\ (enqueue_outbox_sync 3 second d).2 = Ok tt.
Proof.
  intros d second. split; [|vm_compute; reflexivity].
  apply (outbox_key_ambiguous 3 demo_id "{}" New d
    (OutboxRow 1 demo_id "new" "a" "b:c" "{}"
       (outbox_idem_key (fun s => s) demo_id New "a" "b:c" (hex_encode "{}")) "pending" 0 2 2 2)).
  - split; reflexivity.
  - apply list_elem_of_In. vm_compute. by left.
  - reflexivity.
Defined.

(** The automaton: a state has exactly the next state of the frozen path
    and, unless it is terminal, the dead-letter state as successors; so runs
    have at most eleven moves and reach a later state only through all states
    in between. *)
Theorem automaton_frozen_path (s t : WorkflowState) :
  (moves s t <-> (t <> FailedDeadLetter /\ state_rank t = S (state_rank s)) \/
                 (t = FailedDeadLetter /\ terminal s = false)) /\
  (evolves s t -> (state_rank s <= state_rank t)%nat) /\
  (evolves s t -> t <> FailedDeadLetter -> forall u, u <> FailedDeadLetter ->
     (state_rank s <= state_rank u <= state_rank t)%nat -> evolves s u /\ evolves u t).
Proof.
  split_and!; [apply can_transition_spec|apply evolves_rank|].
  intros Hst Ht u Hu Hr. by apply evolves_through.
Qed.
