(* ===== verification/OperatorEscrow.v ===== *)
(** * The operator's escrow objects

    [crates/nxms-escrow-orchestrator/src/operator_escrow.rs]: the descriptor of a
    funding, the snapshot, the spend proposal and the bundle of approvals, with
    their hashes.  The ledger is what the observer says of it; the transaction
    format and its signing hash are those of another crate and parameters here,
    as is BLAKE3.  A [Hash32] is a string of 32 bytes. *)

From S2P Require Import Prelude RustString Sql Bytes.

Inductive OperatorEscrowError : Type :=
| FundingNotConfirmed (what : string)
| SnapshotAlreadyBuilt (id : string)
| InvalidAction (v : Z)
| DuplicateApproval (index : Z)
| QuorumNotMet (have need : Z)
| ProposalHashMismatch (expected got : string)
| HashCollisionInvariant.

Inductive SpendAction : Type := SpendRelease | SpendRefund | SpendRecoveryRelease.
Definition action_u8 (a : SpendAction) : Z :=
  match a with SpendRelease => 1 | SpendRefund => 2 | SpendRecoveryRelease => 3 end.
Definition action_from_u8 (v : Z) : option SpendAction :=
  if v =? 1 then Some SpendRelease else if v =? 2 then Some SpendRefund
  else if v =? 3 then Some SpendRecoveryRelease else None.
Definition action_as_str (a : SpendAction) : string :=
  match a with SpendRelease => "release" | SpendRefund => "refund" | SpendRecoveryRelease => "recovery_release" end.

(** The operator's own view of the ledger. *)
Record LedgerObserver : Type := MkObserver {
  is_note_unspent : string -> bool;
  note_spend_policy_commit : string -> option string;
  current_block_height : Z;
}.

Record EscrowFundingDescriptor : Type := MkDescriptor {
  fd_escrow_id : string; fd_buyer_pk : string; fd_merchant_pk : string; fd_operator_pk : string;
  fd_amount : Z; fd_spend_policy_commit : string; fd_timeout_blocks : Z }.
Record EscrowSnapshot : Type := MkEscrowSnapshot {
  es_escrow_id : string; es_buyer_pk : string; es_merchant_pk : string; es_operator_pk : string;
  es_funding_note_commit : string; es_spend_policy_commit : string; es_amount : Z; es_timeout_block : Z;
  es_snapshot_hash : string; es_status : Z }.
Record EscrowSpendProposal : Type := MkProposal {
  ep_proposal_hash : string; ep_escrow_id : string; ep_snapshot_hash : string; ep_action : Z;
  ep_input_note_commits : list string; ep_output_recipient_pk : string; ep_fee : Z; ep_tx_signing_hash : string }.
Record SignerEntry : Type := MkSignerEntry {
  en_signer_index : Z; en_signer_role : string; en_signer_pk : string; en_signature : string }.
Record EscrowApprovalBundle : Type := MkApprovalBundle {
  ab_proposal_hash : string; ab_tx_signing_hash : string; ab_signer_entries : list SignerEntry; ab_created_at_ms : Z }.
Record ApprovalBundleBuilder : Type := MkBuilder {
  bb_proposal_hash : string; bb_tx_signing_hash : string; bb_signer_entries : list SignerEntry; bb_created_at_ms : Z }.

(** ** Hashes *)

(** The length is cut to 32 bits. *)
Definition len_prefixed (bytes : string) : string := u32_le (len bytes) +:+ bytes.
Definition domain_preimage (domain : string) (parts : list string) : string :=
  foldl (fun acc part => acc +:+ len_prefixed part) (len_prefixed domain) parts.

Definition SNAPSHOT_HASH_DOMAIN : string := "privai:nxms:escrow-snapshot:v1".
Definition PROPOSAL_HASH_DOMAIN : string := "privai:nxms:escrow-proposal:v1".

Definition snapshot_parts (escrow_id buyer_pk merchant_pk operator_pk funding_note_commit spend_policy_commit : string)
    (amount timeout_block : Z) : list string :=
  [escrow_id; buyer_pk; merchant_pk; operator_pk; funding_note_commit; spend_policy_commit; u64_le amount; u64_le timeout_block].
Definition proposal_parts (escrow_id snapshot_hash : string) (action : Z) (input_note_commits : list string)
    (output_recipient_pk : string) (fee : Z) : list string :=
  [escrow_id; snapshot_hash; String (le_byte action 0) EmptyString; String.concat "" input_note_commits; output_recipient_pk;
   u64_le fee].

(** ** Transactions of the ledger *)

Inductive SpendPolicy : Type :=
| Escrow2of3 (buyer_pk_hash merchant_pk_hash operator_pk_hash : string) (timeout_block : Z)
| SinglePolicy (falcon_pk_hash : string).
Record InputAuth : Type := MkInputAuth {
  ia_policy_tag : Z; ia_signer_pks : list string; ia_signatures : list string;
  ia_policy_opening : option string; ia_escrow_action : option Z }.
Record TxCore (OutputNote : Type) : Type := MkTxCore {
  tx_inputs : list string; tx_input_nullifiers : list string; tx_outputs : list OutputNote; tx_fee : Z;
  tx_statement_commit : string; tx_auth : list InputAuth }.
Arguments MkTxCore {OutputNote} _ _ _ _ _ _.
Arguments tx_auth {OutputNote} _.

Definition zero32 : string := repeat_byte (Ascii.ascii_of_N 0) 32.

Section operator.
Context (blake3 : string -> string).
(** [privai_chain]: the encoding of a policy and its commitment, the tag of the
    escrow policy, the output note with placeholder contents for a commitment,
    the signing hash of a transaction, the hash of a Falcon key. *)
Context {OutputNote : Type}.
Context (policy_bytes : SpendPolicy -> string) (policy_commitment : SpendPolicy -> string) (escrow_tag : Z).
Context (placeholder_note : string -> OutputNote) (signing_hash : TxCore OutputNote -> string).
Context (falcon_pk_hash : string -> string).

Definition domain_hash (domain : string) (parts : list string) : string := blake3 (domain_preimage domain parts).

Definition compute_snapshot_hash (escrow_id buyer_pk merchant_pk operator_pk funding_note_commit spend_policy_commit : string)
    (amount timeout_block : Z) : string :=
  domain_hash SNAPSHOT_HASH_DOMAIN
    (snapshot_parts escrow_id buyer_pk merchant_pk operator_pk funding_note_commit spend_policy_commit amount timeout_block).
Definition compute_proposal_hash (escrow_id snapshot_hash : string) (action : Z) (input_note_commits : list string)
    (output_recipient_pk : string) (fee : Z) : string :=
  domain_hash PROPOSAL_HASH_DOMAIN
    (proposal_parts escrow_id snapshot_hash action input_note_commits output_recipient_pk fee).

Definition build_tx_skeleton (funding_note_commit : string) (_action : SpendAction) (recipient_pk_hash : string) (fee : Z)
    (buyer_pk_hash merchant_pk_hash operator_pk_hash : string) (timeout_block : Z) (signer_pks signatures : list string)
    (escrow_action_byte : Z) : TxCore OutputNote :=
  let policy := Escrow2of3 buyer_pk_hash merchant_pk_hash operator_pk_hash timeout_block in
  let output_note := placeholder_note (policy_commitment (SinglePolicy recipient_pk_hash)) in
  let input_auth := MkInputAuth escrow_tag signer_pks signatures (Some (policy_bytes policy)) (Some escrow_action_byte) in
  MkTxCore [funding_note_commit] [zero32] [output_note] fee zero32 [input_auth].

Definition bundle_to_input_auth (bundle : EscrowApprovalBundle) (buyer_pk_hash merchant_pk_hash operator_pk_hash : string)
    (timeout_block : Z) (action : SpendAction) : InputAuth :=
  MkInputAuth escrow_tag (map en_signer_pk (ab_signer_entries bundle)) (map en_signature (ab_signer_entries bundle))
    (Some (policy_bytes (Escrow2of3 buyer_pk_hash merchant_pk_hash operator_pk_hash timeout_block))) (Some (action_u8 action)).

Definition bundle_signer_pk_hashes (bundle : EscrowApprovalBundle) : list string :=
  map (fun e => falcon_pk_hash (en_signer_pk e)) (ab_signer_entries bundle).

(** ** Steps *)

Definition process_funding_event (descriptor : EscrowFundingDescriptor) (funding_note_commit : string)
    (observer : LedgerObserver) : result OperatorEscrowError string :=
  let? _ := fail_if (negb (is_note_unspent observer funding_note_commit))
              (FundingNotConfirmed (hex_encode funding_note_commit)) in
  let? _ := match note_spend_policy_commit observer funding_note_commit with
    | Some observed_policy =>
        fail_if (negb (observed_policy =? fd_spend_policy_commit descriptor)%string)
          (FundingNotConfirmed ("policy mismatch: descriptor=" +:+ hex_encode (fd_spend_policy_commit descriptor)
             +:+ ", ledger=" +:+ hex_encode observed_policy))
    | None => Ok tt
    end in
  Ok funding_note_commit.

Definition build_snapshot (d : EscrowFundingDescriptor) (funding_note_commit : string) : EscrowSnapshot :=
  MkEscrowSnapshot (fd_escrow_id d) (fd_buyer_pk d) (fd_merchant_pk d) (fd_operator_pk d) funding_note_commit
    (fd_spend_policy_commit d) (fd_amount d) (fd_timeout_blocks d)
    (compute_snapshot_hash (fd_escrow_id d) (fd_buyer_pk d) (fd_merchant_pk d) (fd_operator_pk d) funding_note_commit
       (fd_spend_policy_commit d) (fd_amount d) (fd_timeout_blocks d)) 1.

Definition build_proposal (snapshot : EscrowSnapshot) (action : SpendAction) (output_recipient_pk : string) (fee : Z)
    (buyer_pk_hash merchant_pk_hash operator_pk_hash : string) : result OperatorEscrowError EscrowSpendProposal :=
  let action_byte := action_u8 action in
  let proposal_hash := compute_proposal_hash (es_escrow_id snapshot) (es_snapshot_hash snapshot) action_byte
    [es_funding_note_commit snapshot] output_recipient_pk fee in
  let tx := build_tx_skeleton (es_funding_note_commit snapshot) action output_recipient_pk fee buyer_pk_hash merchant_pk_hash
    operator_pk_hash (es_timeout_block snapshot) [] [] action_byte in
  let tx_signing_hash := signing_hash tx in
  let? _ := fail_if (proposal_hash =? tx_signing_hash)%string HashCollisionInvariant in
  Ok (MkProposal proposal_hash (es_escrow_id snapshot) (es_snapshot_hash snapshot) action_byte
        [es_funding_note_commit snapshot] output_recipient_pk fee tx_signing_hash).
End operator.

Definition new_builder (proposal : EscrowSpendProposal) (created_at_ms : Z) : ApprovalBundleBuilder :=
  MkBuilder (ep_proposal_hash proposal) (ep_tx_signing_hash proposal) [] created_at_ms.

(** The builder is the state. *)
Definition add_approval (proposal_hash : string) (signer_index : Z) (signer_role signer_pk signature : string)
    : M ApprovalBundleBuilder OperatorEscrowError unit :=
  let* b := sget (fun b => b) in
  let* _ := slift (fail_if (negb (bb_proposal_hash b =? proposal_hash)%string)
              (ProposalHashMismatch (hex_encode (bb_proposal_hash b)) (hex_encode proposal_hash))) in
  let* _ := slift (fail_if (existsb (fun e => en_signer_index e =? signer_index) (bb_signer_entries b))
              (DuplicateApproval signer_index)) in
  smodify (fun b => MkBuilder (bb_proposal_hash b) (bb_tx_signing_hash b)
    (bb_signer_entries b ++ [MkSignerEntry signer_index signer_role signer_pk signature]) (bb_created_at_ms b)).

Definition finalize_bundle (b : ApprovalBundleBuilder) (quorum : Z) : result OperatorEscrowError EscrowApprovalBundle :=
  let have := Z.of_nat (length (bb_signer_entries b)) in
  let? _ := fail_if (have <? quorum) (QuorumNotMet have quorum) in
  Ok (MkApprovalBundle (bb_proposal_hash b) (bb_tx_signing_hash b) (bb_signer_entries b) (bb_created_at_ms b)).

(** [MockLedgerObserver] *)
Definition mock_observer (unspent_notes : gmap string string) (block_height : Z) : LedgerObserver :=
  MkObserver (fun n => bool_decide (is_Some (unspent_notes !! n))) (fun n => unspent_notes !! n) block_height.
