(* ===== verification/OperatorProps.v ===== *)
(** * Properties of the operator's escrow objects

    The preimages of the two hashes determine every field, the approvals of a
    bundle are the first correct one of each signer index, and a bundle that
    comes out of the five steps is for the escrow that was funded. *)

From S2P Require Import Prelude RustString Sql Bytes OperatorEscrow.

(** ** Preimages *)

Definition short (s : string) : Prop := len s < 2 ^ 32.

Lemma len_prefixed_inj a b x y :
  short a -> short b -> len_prefixed a +:+ x = len_prefixed b +:+ y -> a = b /\ x = y.
Proof.
  unfold len_prefixed, u32_le, short. intros Ha Hb H. rewrite !sapp_assoc in H.
  apply app_fixed in H as [Hl H]; [|by rewrite !len_le_bytes].
  apply le_bytes_inj in Hl; [|pose proof (len_nonneg a); change (256 ^ Z.of_nat 4) with (2 ^ 32); lia
    |pose proof (len_nonneg b); change (256 ^ Z.of_nat 4) with (2 ^ 32); lia].
  by apply app_fixed in H.
Qed.

Fixpoint encode (parts : list string) : string :=
  match parts with [] => EmptyString | p :: ps => len_prefixed p +:+ encode ps end.

Lemma preimage_encode d ps : domain_preimage d ps = encode (d :: ps).
Proof.
  unfold domain_preimage. simpl. generalize (len_prefixed d). induction ps as [|p ps IH]; intros s; simpl.
  - by rewrite sapp_nil_r.
  - by rewrite IH, sapp_assoc.
Qed.

Lemma encode_inj ps qs : Forall short ps -> Forall short qs -> encode ps = encode qs -> ps = qs.
Proof.
  intros Hp. revert qs. induction Hp as [|p ps Hp _ IH]; intros qs [|q qs' Hq Hqs]; cbn [encode]; intros H;
    try done.
  apply len_prefixed_inj in H as [-> H]; [|done..]. by rewrite (IH _ Hqs H).
Qed.

Lemma preimage_inj d e ps qs :
  Forall short (d :: ps) -> Forall short (e :: qs) -> domain_preimage d ps = domain_preimage e qs -> d = e /\ ps = qs.
Proof. rewrite !preimage_encode. intros Hp Hq H%encode_inj; [|done..]. by simplify_eq. Qed.

(** A [Hash32], a [u64]. *)
Definition hash32 (s : string) : Prop := len s = 32.
Definition u64 (n : Z) : Prop := 0 <= n < 2 ^ 64.

Lemma hash32_short s : hash32 s -> short s.
Proof. unfold hash32, short. lia. Qed.

Lemma u64_le_short n : short (u64_le n).
Proof. unfold short, u64_le. rewrite len_le_bytes. lia. Qed.

Lemma u64_le_inj n m : u64 n -> u64 m -> u64_le n = u64_le m -> n = m.
Proof. apply (le_bytes_inj 8). Qed.
#[export] Hint Resolve hash32_short u64_le_short : operator.

Definition descriptor_ok (d : EscrowFundingDescriptor) : Prop :=
  hash32 (fd_escrow_id d) /\ hash32 (fd_buyer_pk d) /\ hash32 (fd_merchant_pk d) /\ hash32 (fd_operator_pk d)
  /\ hash32 (fd_spend_policy_commit d) /\ u64 (fd_amount d) /\ u64 (fd_timeout_blocks d).

Definition snapshot_preimage (d : EscrowFundingDescriptor) (note : string) : string :=
  domain_preimage SNAPSHOT_HASH_DOMAIN
    (snapshot_parts (fd_escrow_id d) (fd_buyer_pk d) (fd_merchant_pk d) (fd_operator_pk d) note
       (fd_spend_policy_commit d) (fd_amount d) (fd_timeout_blocks d)).

(** The fields a proposal hash is over. *)
Record ProposalFields : Type := MkFields {
  pf_escrow_id : string; pf_snapshot_hash : string; pf_action : SpendAction; pf_inputs : list string;
  pf_recipient : string; pf_fee : Z }.
Definition fields_ok (f : ProposalFields) : Prop :=
  hash32 (pf_escrow_id f) /\ hash32 (pf_snapshot_hash f) /\ Forall hash32 (pf_inputs f)
  /\ Z.of_nat (length (pf_inputs f)) < 2 ^ 27 /\ hash32 (pf_recipient f) /\ u64 (pf_fee f).
Definition proposal_preimage (f : ProposalFields) : string :=
  domain_preimage PROPOSAL_HASH_DOMAIN
    (proposal_parts (pf_escrow_id f) (pf_snapshot_hash f) (action_u8 (pf_action f)) (pf_inputs f) (pf_recipient f) (pf_fee f)).

Lemma concat_cons s l : String.concat EmptyString (s :: l) = s +:+ String.concat EmptyString l.
Proof. destruct l; [by rewrite sapp_nil_r|done]. Qed.

Lemma len_concat l : Forall hash32 l -> len (String.concat EmptyString l) = 32 * Z.of_nat (length l).
Proof.
  induction 1 as [|s l Hs _ IH]; [done|]. rewrite concat_cons, len_app, IH, Hs. simpl. lia.
Qed.

Lemma concat_inj l k :
  Forall hash32 l -> Forall hash32 k -> String.concat EmptyString l = String.concat EmptyString k -> l = k.
Proof.
  intros Hl. revert k. induction Hl as [|s l Hs Hl IH]; intros k Hk H.
  - destruct Hk as [|t k Ht Hk]; [done|]. apply (f_equal len) in H.
    rewrite concat_cons, len_app, Ht in H.
    change (len (String.concat EmptyString [])) with 0 in H. pose proof (len_nonneg (String.concat EmptyString k)). lia.
  - destruct Hk as [|t k Ht Hk].
    + apply (f_equal len) in H. rewrite concat_cons, len_app, Hs in H.
      change (len (String.concat EmptyString [])) with 0 in H. pose proof (len_nonneg (String.concat EmptyString l)). lia.
    + rewrite !concat_cons in H. apply app_fixed in H as [-> H]; [|by rewrite Hs, Ht]. by rewrite (IH k).
Qed.

Lemma action_byte_inj a b : le_byte (action_u8 a) 0 = le_byte (action_u8 b) 0 -> a = b.
Proof. by destruct a, b. Qed.

Lemma snapshot_parts_short d note :
  descriptor_ok d -> hash32 note -> Forall short
    (SNAPSHOT_HASH_DOMAIN :: snapshot_parts (fd_escrow_id d) (fd_buyer_pk d) (fd_merchant_pk d) (fd_operator_pk d) note
       (fd_spend_policy_commit d) (fd_amount d) (fd_timeout_blocks d)).
Proof. intros (?&?&?&?&?&?&?) ?. unfold snapshot_parts. repeat constructor; auto with operator. Qed.

Lemma proposal_parts_short f :
  fields_ok f -> Forall short
    (PROPOSAL_HASH_DOMAIN :: proposal_parts (pf_escrow_id f) (pf_snapshot_hash f) (action_u8 (pf_action f)) (pf_inputs f)
       (pf_recipient f) (pf_fee f)).
Proof.
  intros (?&?&Hi&Hn&?&?). unfold proposal_parts. repeat constructor; auto with operator.
  unfold short. rewrite len_concat by done. lia.
Qed.

Lemma snapshot_preimage_inj d1 d2 n1 n2 :
  descriptor_ok d1 -> descriptor_ok d2 -> hash32 n1 -> hash32 n2 ->
  snapshot_preimage d1 n1 = snapshot_preimage d2 n2 -> d1 = d2 /\ n1 = n2.
Proof.
  intros H1 H2 Hn1 Hn2 H. unfold snapshot_preimage in H.
  apply preimage_inj in H as [_ H]; [|by apply snapshot_parts_short..].
  destruct H1 as (?&?&?&?&?&?&?), H2 as (?&?&?&?&?&?&?). destruct d1, d2. simpl in *. unfold snapshot_parts in H.
  do 6 (apply (inj2 cons) in H as [? H]). apply (inj2 cons) in H as [Ha H]. apply (inj2 cons) in H as [Ht _].
  apply u64_le_inj in Ha; [|done..]. apply u64_le_inj in Ht; [|done..]. by subst.
Qed.

Lemma proposal_preimage_inj f g :
  fields_ok f -> fields_ok g -> proposal_preimage f = proposal_preimage g -> f = g.
Proof.
  intros Hf Hg H. unfold proposal_preimage in H.
  apply preimage_inj in H as [_ H]; [|by apply proposal_parts_short..].
  destruct Hf as (?&?&?&?&?&?), Hg as (?&?&?&?&?&?). destruct f, g. simpl in *. unfold proposal_parts in H.
  do 2 (apply (inj2 cons) in H as [? H]). apply (inj2 cons) in H as [Ha H]. apply (inj2 cons) in H as [Hi H].
  apply (inj2 cons) in H as [? H]. apply (inj2 cons) in H as [Hfee _]. injection Ha as Ha. apply u64_le_inj in Hfee; [|done..]. apply concat_inj in Hi; [|done..].
  apply action_byte_inj in Ha. by subst.
Qed.

(** The two preimages differ in their domain. *)
Lemma preimages_apart d n f :
  descriptor_ok d -> hash32 n -> fields_ok f -> snapshot_preimage d n <> proposal_preimage f.
Proof.
  intros Hd Hn Hf H. unfold snapshot_preimage, proposal_preimage in H.
  apply preimage_inj in H as [H _]; [|by apply snapshot_parts_short|by apply proposal_parts_short].
  discriminate H.
Qed.

(** ** Approvals *)

(** An approval as [add_approval] is called with it. *)
Record Approval : Type := MkApproval { ap_hash : string; ap_entry : SignerEntry }.
Definition offer (a : Approval) : M ApprovalBundleBuilder OperatorEscrowError unit :=
  add_approval (ap_hash a) (en_signer_index (ap_entry a)) (en_signer_role (ap_entry a)) (en_signer_pk (ap_entry a))
    (en_signature (ap_entry a)).
(** A caller that goes on after a refused approval. *)
Definition offer_all (l : list Approval) (b : ApprovalBundleBuilder) : ApprovalBundleBuilder :=
  foldl (fun b a => fst (offer a b)) b l.

(** What the builder should hold: of the approvals for its proposal the first
    one of each signer index. *)
Fixpoint first_approvals (hash : string) (seen : list Z) (l : list Approval) : list SignerEntry :=
  match l with
  | [] => []
  | a :: l' =>
      if (hash =? ap_hash a)%string && negb (existsb (Z.eqb (en_signer_index (ap_entry a))) seen)
      then ap_entry a :: first_approvals hash (seen ++ [en_signer_index (ap_entry a)]) l'
      else first_approvals hash seen l'
  end.

Lemma existsb_index i (l : list SignerEntry) :
  existsb (fun e => en_signer_index e =? i) l = existsb (Z.eqb i) (map en_signer_index l).
Proof. induction l as [|e l IH]; [done|]. simpl. by rewrite IH, Z.eqb_sym. Qed.

Lemma offer_state a b :
  fst (offer a b) = MkBuilder (bb_proposal_hash b) (bb_tx_signing_hash b)
    (bb_signer_entries b ++ first_approvals (bb_proposal_hash b) (map en_signer_index (bb_signer_entries b)) [a])
    (bb_created_at_ms b).
Proof.
  destruct b as [h t l c], a as [h' [i r pk sg]]. unfold offer, add_approval, sbind, sget, slift, smodify. simpl.
  rewrite existsb_index. destruct (h =? h')%string; simpl; [|by rewrite app_nil_r].
  destruct (existsb (Z.eqb i) (map en_signer_index l)); simpl; by rewrite ?app_nil_r.
Qed.

Lemma first_approvals_cons h seen a l :
  first_approvals h seen (a :: l)
  = first_approvals h seen [a] ++ first_approvals h (seen ++ map en_signer_index (first_approvals h seen [a])) l.
Proof. simpl. destruct (_ && _); simpl; by rewrite ?app_nil_r. Qed.

Lemma offer_all_state l : forall b,
  offer_all l b = MkBuilder (bb_proposal_hash b) (bb_tx_signing_hash b)
    (bb_signer_entries b ++ first_approvals (bb_proposal_hash b) (map en_signer_index (bb_signer_entries b)) l)
    (bb_created_at_ms b).
Proof.
  induction l as [|a l IH]; intros b.
  - destruct b. cbn. by rewrite app_nil_r.
  - cbn [offer_all foldl]. fold (offer_all l (fst (offer a b))). rewrite IH, offer_state. cbn [bb_proposal_hash
      bb_tx_signing_hash bb_signer_entries bb_created_at_ms].
    by rewrite <- app_assoc, map_app, <- first_approvals_cons.
Qed.

Lemma existsb_elem i seen : existsb (Z.eqb i) seen = true <-> i ∈ seen.
Proof.
  rewrite existsb_exists. split.
  - intros (x & Hx & ->%Z.eqb_eq). by apply list_elem_of_In.
  - intros H. exists i. split; [by apply list_elem_of_In|apply Z.eqb_refl].
Qed.

Lemma first_approvals_fresh h l : forall seen i, i ∈ seen -> i ∉ map en_signer_index (first_approvals h seen l).
Proof.
  induction l as [|a l IH]; intros seen i Hi; cbn [first_approvals map]; [apply not_elem_of_nil|].
  destruct (_ && _) eqn:E; [|by apply IH]. apply andb_true_iff in E as [_ E]. apply negb_true_iff in E.
  cbn [map]. apply not_elem_of_cons. split; [|by apply IH, elem_of_app; left].
  intros ->. apply existsb_elem in Hi. congruence.
Qed.

Lemma first_approvals_nodup h l : forall seen, NoDup (map en_signer_index (first_approvals h seen l)).
Proof.
  induction l as [|a l IH]; intros seen; cbn [first_approvals]; [constructor|].
  destruct (_ && _); [|apply IH]. constructor; [|apply IH].
  apply first_approvals_fresh, elem_of_app. right. by apply list_elem_of_singleton.
Qed.

Lemma first_approvals_from h l e : forall seen, e ∈ first_approvals h seen l -> MkApproval h e ∈ l.
Proof.
  induction l as [|a l IH]; intros seen; cbn [first_approvals]; [by intros ?%elem_of_nil|].
  destruct (_ && _) eqn:E; [|by intros H; apply elem_of_cons; right; eapply IH].
  apply andb_true_iff in E as [->%String.eqb_eq _].
  intros [->|H]%elem_of_cons; apply elem_of_cons; [left; by destruct a|right; by eapply IH].
Qed.

Lemma finalize_ok b quorum bundle :
  finalize_bundle b quorum = Ok bundle <->
  quorum <= Z.of_nat (length (bb_signer_entries b))
  /\ bundle = MkApprovalBundle (bb_proposal_hash b) (bb_tx_signing_hash b) (bb_signer_entries b) (bb_created_at_ms b).
Proof.
  unfold finalize_bundle, rbind, fail_if. destruct (_ <? _) eqn:E; [apply Z.ltb_lt in E|apply Z.ltb_ge in E];
    split; naive_solver lia.
Qed.

(** ** Theorems *)

Section theorems.
Context (blake3 : string -> string) {OutputNote : Type}.
Context (policy_bytes policy_commitment : SpendPolicy -> string) (escrow_tag : Z).
Context (placeholder_note : string -> OutputNote) (signing_hash : TxCore OutputNote -> string).

Local Notation proposal := (build_proposal blake3 policy_bytes policy_commitment escrow_tag placeholder_note signing_hash).

Definition fields_of (d : EscrowFundingDescriptor) (note : string) (a : SpendAction) (recipient : string) (fee : Z) : ProposalFields :=
  MkFields (fd_escrow_id d) (es_snapshot_hash (build_snapshot blake3 d note)) a [note] recipient fee.

Lemma proposal_exact s a recipient fee hb hm ho p :
  proposal s a recipient fee hb hm ho = Ok p ->
  ep_proposal_hash p = compute_proposal_hash blake3 (es_escrow_id s) (es_snapshot_hash s) (action_u8 a)
    [es_funding_note_commit s] recipient fee
  /\ ep_escrow_id p = es_escrow_id s /\ ep_snapshot_hash p = es_snapshot_hash s /\ ep_action p = action_u8 a
  /\ ep_input_note_commits p = [es_funding_note_commit s] /\ ep_output_recipient_pk p = recipient /\ ep_fee p = fee
  /\ ep_tx_signing_hash p = signing_hash (build_tx_skeleton policy_bytes policy_commitment escrow_tag placeholder_note
       (es_funding_note_commit s) a recipient fee hb hm ho (es_timeout_block s) [] [] (action_u8 a))
  /\ ep_proposal_hash p <> ep_tx_signing_hash p.
Proof.
  unfold build_proposal, rbind, fail_if. destruct (_ =? _)%string eqn:E; [done|]. intros [= <-].
  apply String.eqb_neq in E. done.
Qed.

(** A proposal hash determines what is proposed: two proposals built from
    snapshots of well-formed descriptors that have the same proposal hash are for
    the same funding, action, recipient and fee, unless BLAKE3 collides on the
    preimages of the two snapshots or on those of the two proposals. *)
Theorem proposal_hash_binds d1 d2 n1 n2 a1 a2 r1 r2 f1 f2 hb1 hb2 hm1 hm2 ho1 ho2 p1 p2
    (Hd1 : descriptor_ok d1) (Hd2 : descriptor_ok d2) (Hn1 : hash32 n1) (Hn2 : hash32 n2)
    (Hr1 : hash32 r1) (Hr2 : hash32 r2) (Hf1 : u64 f1) (Hf2 : u64 f2) (H32 : forall x, hash32 (blake3 x))
    (Hp1 : proposal (build_snapshot blake3 d1 n1) a1 r1 f1 hb1 hm1 ho1 = Ok p1)
    (Hp2 : proposal (build_snapshot blake3 d2 n2) a2 r2 f2 hb2 hm2 ho2 = Ok p2)
    (Heq : ep_proposal_hash p1 = ep_proposal_hash p2) :
  (d1 = d2 /\ n1 = n2 /\ a1 = a2 /\ r1 = r2 /\ f1 = f2)
  \/ (snapshot_preimage d1 n1 <> snapshot_preimage d2 n2
      /\ blake3 (snapshot_preimage d1 n1) = blake3 (snapshot_preimage d2 n2))
  \/ (let x := proposal_preimage (fields_of d1 n1 a1 r1 f1) in let y := proposal_preimage (fields_of d2 n2 a2 r2 f2) in
      x <> y /\ blake3 x = blake3 y).
Proof.
  apply proposal_exact in Hp1 as [E1 _], Hp2 as [E2 _]. rewrite E1, E2 in Heq.
  destruct (decide (proposal_preimage (fields_of d1 n1 a1 r1 f1) = proposal_preimage (fields_of d2 n2 a2 r2 f2)))
    as [Ep|Ep]; [|right; right; done].
  assert (Hok : forall d n a r f, descriptor_ok d -> hash32 n -> hash32 r -> u64 f -> fields_ok (fields_of d n a r f)).
  { intros d n a r f (?&_) ???. unfold fields_ok; split_and!; cbn [fields_of pf_escrow_id pf_snapshot_hash pf_inputs pf_recipient pf_fee];
      [done|apply H32|by repeat constructor|cbn [length]; lia|done|done]. }
  apply proposal_preimage_inj in Ep; [|by apply Hok..].
  injection Ep as Hid Hs -> -> -> ->.
  destruct (decide (snapshot_preimage d1 n2 = snapshot_preimage d2 n2)) as [Es|Es]; [|by right; left].
  apply snapshot_preimage_inj in Es as [-> _]; [|done..]. by left.
Qed.

(** A bundle that comes out of the five steps (the funding event, the
    snapshot, the proposal, any approvals, refused ones included, the
    finalisation) is for a note the observer saw unspent, with the descriptor's
    policy wherever the observer knows one; its entries are exactly the first
    approvals for this proposal of each signer index, at least the quorum of them
    and with distinct indices; and its two hashes are the ones of the proposal,
    which differ. *)
Theorem bundle_from_funding d note observer a recipient fee hb hm ho p now l quorum bundle
    (Hf : process_funding_event d note observer = Ok note)
    (Hp : proposal (build_snapshot blake3 d note) a recipient fee hb hm ho = Ok p)
    (Hb : finalize_bundle (offer_all l (new_builder p now)) quorum = Ok bundle) :
  is_note_unspent observer note = true
  /\ (forall c, note_spend_policy_commit observer note = Some c -> c = fd_spend_policy_commit d)
  /\ ab_proposal_hash bundle = compute_proposal_hash blake3 (fd_escrow_id d)
       (es_snapshot_hash (build_snapshot blake3 d note)) (action_u8 a) [note] recipient fee
  /\ ab_proposal_hash bundle <> ab_tx_signing_hash bundle
  /\ ab_signer_entries bundle = first_approvals (ab_proposal_hash bundle) [] l
  /\ NoDup (map en_signer_index (ab_signer_entries bundle))
  /\ (forall e, e ∈ ab_signer_entries bundle -> MkApproval (ab_proposal_hash bundle) e ∈ l)
  /\ quorum <= Z.of_nat (length (ab_signer_entries bundle)).
Proof.
  apply proposal_exact in Hp as (E & _ & _ & _ & _ & _ & _ & _ & Hne).
  rewrite offer_all_state in Hb. apply finalize_ok in Hb as [Hq ->]. cbn in *.
  unfold process_funding_event, rbind, fail_if in Hf.
  destruct (is_note_unspent observer note); [|done]. split; [done|]. split.
  { intros c Hc. rewrite Hc in Hf. cbn in Hf. destruct (c =? _)%string eqn:Ec; [by apply String.eqb_eq in Ec|done]. }
  repeat split; [done|done|apply first_approvals_nodup|intros e; apply first_approvals_from|done].
Qed.
End theorems.

(** ** Concrete runs *)

Definition h32 (c : ascii) : string := repeat_byte c 32.
Definition demo_descriptor : EscrowFundingDescriptor :=
  MkDescriptor (h32 "e") (h32 "b") (h32 "m") (h32 "o") 5000 (h32 "p") 1000.
Definition demo_blake3 (_ : string) : string := h32 "x".
Definition demo_proposal : EscrowSpendProposal :=
  MkProposal (h32 "x") (h32 "e") (h32 "x") 1 [h32 "n"] (h32 "r") 10 (h32 "s").
Definition demo_build (s : EscrowSnapshot) : result OperatorEscrowError EscrowSpendProposal :=
  build_proposal demo_blake3 (fun _ => "policy"%string) (fun _ => h32 "c") 2 (fun c => c) (fun _ => h32 "s")
    s SpendRelease (h32 "r") 10 (h32 "b") (h32 "m") (h32 "o").
Definition approval (index : Z) (role pk : string) : Approval :=
  MkApproval (h32 "x") (MkSignerEntry index role pk ("sig-" +:+ pk)).

Lemma proposal_hash_binds_witness :
  demo_build (build_snapshot demo_blake3 demo_descriptor (h32 "n")) = Ok demo_proposal
  /\ ((demo_descriptor = demo_descriptor /\ h32 "n" = h32 "n" /\ SpendRelease = SpendRelease /\ h32 "r" = h32 "r" /\ 10 = 10)
      \/ (snapshot_preimage demo_descriptor (h32 "n") <> snapshot_preimage demo_descriptor (h32 "n")
          /\ demo_blake3 (snapshot_preimage demo_descriptor (h32 "n")) = demo_blake3 (snapshot_preimage demo_descriptor (h32 "n")))
      \/ (let x := proposal_preimage (fields_of demo_blake3 demo_descriptor (h32 "n") SpendRelease (h32 "r") 10) in
          x <> x /\ demo_blake3 x = demo_blake3 x)).
Proof.
  split; [vm_compute; reflexivity|].
  apply (proposal_hash_binds demo_blake3 (fun _ => "policy"%string) (fun _ => h32 "c") 2 (fun c : string => c) (fun _ => h32 "s")
    demo_descriptor demo_descriptor (h32 "n") (h32 "n") SpendRelease SpendRelease (h32 "r") (h32 "r") 10 10
    (h32 "b") (h32 "b") (h32 "m") (h32 "m") (h32 "o") (h32 "o") demo_proposal demo_proposal);
    [unfold descriptor_ok, hash32, u64; vm_compute; repeat split; discriminate
    |unfold descriptor_ok, hash32, u64; vm_compute; repeat split; discriminate
    |vm_compute; reflexivity..|unfold u64; lia|unfold u64; lia|intros ?; vm_compute; reflexivity
    |vm_compute; reflexivity|vm_compute; reflexivity|reflexivity].
Defined.

Definition demo_offers : list Approval :=
  [approval 0 "buyer" "pk-b"; MkApproval (h32 "z") (MkSignerEntry 2 "operator" "pk-o" "sig");
   approval 0 "buyer" "pk-other"; approval 1 "merchant" "pk-m"].
Definition demo_bundle : EscrowApprovalBundle :=
  MkApprovalBundle (h32 "x") (h32 "s")
    [ap_entry (approval 0 "buyer" "pk-b"); ap_entry (approval 1 "merchant" "pk-m")] 7.

Lemma bundle_from_funding_witness :
  let observer := mock_observer {[ h32 "n" := h32 "p" ]} 3 in
  finalize_bundle (offer_all demo_offers (new_builder demo_proposal 7)) 2 = Ok demo_bundle
  /\ is_note_unspent observer (h32 "n") = true
  /\ ab_signer_entries demo_bundle = first_approvals (ab_proposal_hash demo_bundle) [] demo_offers
  /\ NoDup (map en_signer_index (ab_signer_entries demo_bundle)).
Proof.
  intros observer. split; [vm_compute; reflexivity|].
  assert (H := bundle_from_funding demo_blake3 (fun _ => "policy"%string) (fun _ => h32 "c") 2 (fun c : string => c)
    (fun _ => h32 "s") demo_descriptor (h32 "n") observer SpendRelease (h32 "r") 10 (h32 "b") (h32 "m") (h32 "o")
    demo_proposal 7 demo_offers 2 demo_bundle ltac:(vm_compute; reflexivity) ltac:(vm_compute; reflexivity)
    ltac:(vm_compute; reflexivity)).
  destruct H as (H1 & _ & _ & _ & H2 & H3 & _). auto.
Defined.

(** The quorum counts signer indices: one key, offered under two of them, makes a
    bundle of two approvals. *)
Lemma one_key_makes_quorum pk sig created :
  finalize_bundle
    (offer_all [MkApproval (h32 "x") (MkSignerEntry 0 "buyer" pk sig); MkApproval (h32 "x") (MkSignerEntry 1 "merchant" pk sig)]
       (new_builder demo_proposal created)) 2
  = Ok (MkApprovalBundle (h32 "x") (h32 "s") [MkSignerEntry 0 "buyer" pk sig; MkSignerEntry 1 "merchant" pk sig] created).
Proof. reflexivity. Qed.

(** An observer that knows no policy of the note lets any descriptor pass. *)
Lemma unknown_policy_funds d note height :
  process_funding_event d note (MkObserver (fun _ => true) (fun _ => None) height) = Ok note.
Proof. reflexivity. Qed.
