(* ===== verification/ActionToken.v ===== *)
(** * Action tokens: the claims and the JWT library

    The claims that [nxms-escrow-orchestrator] writes ([ActionTokenClaims]) and
    [nxms-signer] reads ([ActionClaims]); both structs have the same fields.
    The [jsonwebtoken] crate is an interface ([Jwt]) with the behaviour it
    documents ([JwtLaws]): a token decodes under the public key of the pair
    that signed it, for the configured issuer and audience and within its
    validity period widened by the leeway. *)

From S2P Require Import Prelude RustString.

Inductive Algorithm : Type := EdDSA | ES256.
#[global] Instance Algorithm_eq_dec : EqDecision Algorithm.
Proof. solve_decision. Defined.

Record ActionClaims : Type := MkClaims {
  c_iss : string;
  c_aud : string;
  c_sub : string;
  c_scope : string;
  c_op : string;
  c_role : string;
  c_sign_round : string;
  c_escrow_id : string;
  c_wallet_id : string;
  c_sandbox_id : string;
  c_txset_hash : string;
  c_snapshot_hash : string;
  c_nettype : string;
  c_runtime_trust_epoch : option string;
  c_escrow_admission_hash : option string;
  c_iat : Z;
  c_nbf : Z;
  c_exp : Z;
  c_jti : string;
  c_proof_arbiter_jti : option string;
  c_proof_seller_jti : option string;
  c_proof_arbiter_req_id : option string;
  c_proof_seller_req_id : option string;
}.

(** What [verify_common] configures in [jsonwebtoken::Validation]. *)
Record Validation : Type := MkValidation { va_leeway : Z; va_issuer : string; va_audience : string }.

Class Jwt : Type := {
  EncodingKey : Type;
  DecodingKey : Type;
  Token : Type;
  token_text : Token -> string;
  encoding_key_from_pem : Algorithm -> string -> option EncodingKey;
  jwt_encode : Algorithm -> EncodingKey -> ActionClaims -> option Token;
  jwt_decode : Algorithm -> DecodingKey -> Validation -> Z -> Token -> option ActionClaims;
  key_pair : EncodingKey -> DecodingKey -> Prop;
}.

(** The registered claims that [decode] checks. *)
Definition registered_ok (v : Validation) (now : Z) (c : ActionClaims) : Prop :=
  c_iss c = va_issuer v /\ c_aud c = va_audience v /\
  now <= c_exp c + va_leeway v /\ c_nbf c <= now + va_leeway v.

Class JwtLaws `{Jwt} : Prop := {
  jwt_decode_encoded : forall alg sk pk v now c t,
    key_pair sk pk -> jwt_encode alg sk c = Some t -> registered_ok v now c ->
    jwt_decode alg pk v now t = Some c;
  jwt_decode_checked : forall alg pk v now t c,
    jwt_decode alg pk v now t = Some c -> registered_ok v now c;
  jwt_decode_faithful : forall alg sk pk v now c c' t,
    key_pair sk pk -> jwt_encode alg sk c = Some t -> jwt_decode alg pk v now t = Some c' -> c' = c;
}.

(** ** Helpers with the same text in both crates *)

Definition parse_algorithm (raw : string) : option Algorithm :=
  let value := to_ascii_uppercase (trim raw) in
  if (value =? "EDDSA")%string then Some EdDSA
  else if (value =? "ES256")%string then Some ES256 else None.

(** The three parties, [ActionTokenRole] and [SignerRole]. *)
Inductive Role : Type := Arbiter | Seller | Buyer.
#[global] Instance Role_eq_dec : EqDecision Role.
Proof. solve_decision. Defined.

(** [claim_value], [role_key] *)
Definition role_key (r : Role) : string :=
  match r with Arbiter => "arbiter" | Seller => "seller" | Buyer => "buyer" end.

Inductive ActionTokenOp : Type := SignMultisig | SubmitMultisig.
Definition op_claim_value (op : ActionTokenOp) : string :=
  match op with SignMultisig => "sign_multisig" | SubmitMultisig => "submit_multisig" end.
