(* ===== verification/TokenIssuer.v ===== *)
(** * Issuing action tokens

    [crates/nxms-escrow-orchestrator/src/action_token.rs] and [config.rs].
    Loading the trust bundle and the issuer vault, the process environment and
    the random bytes are parameters; the database is [OrchDb]. *)

From S2P Require Import Prelude RustString Sql Flow OrchDb ActionToken.

Inductive TokenError : Type :=
| TokDb (e : DbError)
| TokLoad (what : string)
| TokIssuerMismatch
| TokAlgorithmMismatch
| TokPublicKeyMismatch
| TokUnsupportedAlgorithm
| TokTtlZero
| TokTtlTooLong
| TokMissing (label : string) (r : Role)
| TokEmpty (label : string)
| TokTooLong (label : string)
| TokNotHex (label : string)
| TokWorkflowNotFound
| TokStateForbids (s : WorkflowState)
| TokProposalNotFound
| TokProposalMismatch
| TokAdmissionSnapshot
| TokAdmissionEpoch
| TokAdmissionAction
| TokAdmissionMissing
| TokBundleEscrow
| TokBundleTxset
| TokEncode
| TokConfig (what : string).

(** ** Configuration, [config.rs] *)

Record ActionTokenRuntimeConfig : Type := MkTokenConfig {
  tc_issuer_vault_dir : string;
  tc_issuer_vault_passphrase_file : string;
  tc_default_ttl_secs : Z;
}.
Record OrchestratorConfig : Type := MkOrchConfig {
  oc_db_path : string;
  oc_runtime_trust_bundle_path : option string;
  oc_action_token : option ActionTokenRuntimeConfig;
}.

(** [OrchestratorConfig::normalize]; paths are strings. *)
Definition config_normalize (cfg : OrchestratorConfig) : result TokenError OrchestratorConfig :=
  let? _ := fail_if (is_empty (oc_db_path cfg)) (TokConfig "db_path") in
  let? _ := match oc_runtime_trust_bundle_path cfg with
    | Some path => fail_if (is_empty path) (TokConfig "runtime_trust_bundle_path")
    | None => Ok tt
    end in
  let? _ := match oc_action_token cfg with
    | Some t =>
        let? _ := fail_if (is_empty (tc_issuer_vault_dir t)) (TokConfig "issuer_vault_dir") in
        let? _ := fail_if (is_empty (tc_issuer_vault_passphrase_file t))
                    (TokConfig "issuer_vault_passphrase_file") in
        let? _ := fail_if (tc_default_ttl_secs t =? 0) (TokConfig "default_ttl_secs zero") in
        fail_if (120 <? tc_default_ttl_secs t) (TokConfig "default_ttl_secs limit")
    | None => Ok tt
    end in
  Ok cfg.

Definition resolve_orchestrator_db_path (config : option OrchestratorConfig)
    (db_path : option string) : string :=
  match db_path with
  | Some p => p
  | None => match config with Some cfg => oc_db_path cfg | None => "nxms_orchestrator.db" end
  end.

(** ** Parameters of a token *)

Definition env_prefix (r : Role) : string :=
  match r with Arbiter => "ARBITER" | Seller => "SELLER" | Buyer => "BUYER" end.

(** [ActionTokenOp::expected_sign_round] *)
Definition issuer_sign_round (op : ActionTokenOp) (r : Role) : string :=
  match op, r with
  | SignMultisig, Arbiter => "arbiter_first"
  | SignMultisig, Seller => "seller_second"
  | SignMultisig, Buyer => "buyer_second"
  | SubmitMultisig, Arbiter => "arbiter_submit"
  | SubmitMultisig, Seller => "seller_submit"
  | SubmitMultisig, Buyer => "buyer_submit"
  end.

Record ActionTokenCliInput : Type := MkCliInput {
  ci_escrow_id_hex : string;
  ci_txset_hash_hex : string;
  ci_role : Role;
  ci_op : ActionTokenOp;
  ci_runtime_trust_bundle_path : option string;
  ci_issuer_vault_dir : option string;
  ci_issuer_vault_passphrase_file : option string;
  ci_ttl_secs : option Z;
  ci_subject : option string;
  ci_wallet_id : option string;
  ci_sandbox_id : option string;
  ci_audience : option string;
  ci_nettype : option string;
}.

(** [x.or_else(..)] *)
Definition or_else {A} (x y : option A) : option A := match x with Some a => Some a | None => y end.

Definition resolve_issue_command (config : option OrchestratorConfig) (input : ActionTokenCliInput)
    (db_path : option string) : string * ActionTokenCliInput :=
  let action := match config with Some cfg => oc_action_token cfg | None => None end in
  (resolve_orchestrator_db_path config db_path,
   MkCliInput (ci_escrow_id_hex input) (ci_txset_hash_hex input) (ci_role input) (ci_op input)
     (or_else (ci_runtime_trust_bundle_path input)
        (match config with Some cfg => oc_runtime_trust_bundle_path cfg | None => None end))
     (or_else (ci_issuer_vault_dir input) (option_map tc_issuer_vault_dir action))
     (or_else (ci_issuer_vault_passphrase_file input)
        (option_map tc_issuer_vault_passphrase_file action))
     (or_else (ci_ttl_secs input) (option_map tc_default_ttl_secs action))
     (ci_subject input) (ci_wallet_id input) (ci_sandbox_id input) (ci_audience input)
     (ci_nettype input)).

Definition algorithm_name (a : Algorithm) : string :=
  match a with EdDSA => "EDDSA" | ES256 => "ES256" end.

(** [normalize_non_empty(value, label, max_len)] *)
Definition normalize_text_max (value label : string) (max_len : Z) : result TokenError string :=
  let trimmed := trim value in
  if is_empty trimmed then Err (TokEmpty label)
  else if max_len <? len trimmed then Err (TokTooLong label)
  else Ok trimmed.

(** [normalize_text]: drops trailing ["\r"], ["\n"], [" "] and tabs. *)
Definition is_line_ws (c : ascii) : bool :=
  (byte_of c =? 13) || (byte_of c =? 10) || (byte_of c =? 32) || (byte_of c =? 9).
Fixpoint drop_while (p : ascii -> bool) (l : list ascii) : list ascii :=
  match l with c :: l' => if p c then drop_while p l' else l | [] => [] end.
Definition normalize_text (value : string) : string :=
  of_bytes (rev (drop_while is_line_ws (rev (bytes_of value)))).

Definition token_hex (value : string) (n : Z) (label : string) : result TokenError string :=
  ok_or (hex_exact n value) (TokNotHex label).

(** What is used of the runtime trust bundle and of the issuer vault. *)
Record TrustView : Type := MkTrustView {
  tv_issuer : string; tv_algorithm : string; tv_public_key_pem : string; tv_trust_epoch : string }.
Record IssuerVault : Type := MkIssuerVault {
  iv_issuer : string; iv_algorithm : string; iv_public_key_pem : string; iv_private_key_pem : string }.

Definition workflow_state_allows_action_token (s : WorkflowState) : bool :=
  match s with Funded | TxSignPending | TxSignedQuorum | Submitted => true | _ => false end.

Definition workflow_action_key (action : string) : result TokenError string :=
  let? v := normalize_text_max action "proposal.action" 32 in Ok (to_ascii_lowercase v).

Definition apply_submit_proof_bundle (c : ActionClaims) (bundle : SubmitMultisigProofBundle)
    : result TokenError ActionClaims :=
  let? _ := fail_if (negb (c_escrow_id c =? sb_escrow_id_hex bundle)%string) TokBundleEscrow in
  let? _ := fail_if (negb (c_txset_hash c =? sb_txset_hash_hex bundle)%string) TokBundleTxset in
  let? aj := normalize_text_max (sb_proof_arbiter_jti bundle) "proof_arbiter_jti" 256 in
  let? sj := normalize_text_max (sb_proof_seller_jti bundle) "proof_seller_jti" 256 in
  let? ar := token_hex (sb_proof_arbiter_req_id bundle) 64 "proof_arbiter_req_id" in
  let? sr := token_hex (sb_proof_seller_req_id bundle) 64 "proof_seller_req_id" in
  Ok (MkClaims (c_iss c) (c_aud c) (c_sub c) (c_scope c) (c_op c) (c_role c) (c_sign_round c)
        (c_escrow_id c) (c_wallet_id c) (c_sandbox_id c) (c_txset_hash c) (c_snapshot_hash c)
        (c_nettype c) (c_runtime_trust_epoch c) (c_escrow_admission_hash c) (c_iat c) (c_nbf c)
        (c_exp c) (c_jti c) (Some aj) (Some sj) (Some ar) (Some sr)).

(** [now] in seconds and 16 random bytes. *)
Definition new_jti (now : Z) (random : string) (r : Role) (op : ActionTokenOp) : string :=
  "orch-" +:+ dec now +:+ "-" +:+ role_key r +:+ "-" +:+ op_claim_value op +:+ "-"
    +:+ hex_encode random.

Section issuer.
Context `{OrchExt, Jwt}.
Context (env : string -> option string).
Context (load_bundle : string -> result TokenError TrustView).
Context (load_vault : option string -> option string -> result TokenError IssuerVault).

Record IssueActionTokenParams : Type := MkIssueParams {
  ip_escrow_id_hex : string;
  ip_txset_hash_hex : string;
  ip_role : Role;
  ip_op : ActionTokenOp;
  ip_issuer : string;
  ip_algorithm : Algorithm;
  ip_encoding_key : EncodingKey;
  ip_ttl_secs : Z;
  ip_subject : string;
  ip_wallet_id : string;
  ip_sandbox_id : string;
  ip_audience : string;
  ip_nettype : string;
  ip_runtime_trust_epoch : option string;
}.

(** [std::env::var(name).ok().map(trim).filter(!is_empty)] *)
Definition env_value (r : Role) (suffix : string) : option string :=
  match env ("NXMS_ORCH_ACTION_TOKEN_" +:+ env_prefix r +:+ "_" +:+ suffix) with
  | Some v => non_blank v
  | None => None
  end.
Definition resolve_role_required (cli : option string) (r : Role) (suffix label : string)
    : result TokenError string :=
  match cli with Some v => Ok v | None => ok_or (env_value r suffix) (TokMissing label r) end.
Definition resolve_role_optional (cli : option string) (r : Role) (suffix : string)
    : option string := or_else cli (env_value r suffix).

Definition build_issue_params (input : ActionTokenCliInput)
    : result TokenError IssueActionTokenParams :=
  let? bundle := match ci_runtime_trust_bundle_path input with
    | Some path => let? b := load_bundle path in Ok (Some b)
    | None => Ok None
    end in
  let? escrow_id_hex := token_hex (ci_escrow_id_hex input) 32 "escrow_id_hex" in
  let? txset_hash_hex := token_hex (ci_txset_hash_hex input) 64 "txset_hash_hex" in
  let? vault := load_vault (ci_issuer_vault_dir input) (ci_issuer_vault_passphrase_file input) in
  let? algorithm := ok_or (parse_algorithm (iv_algorithm vault)) TokUnsupportedAlgorithm in
  let? _ := match bundle with
    | Some b =>
        let? _ := fail_if (negb (iv_issuer vault =? tv_issuer b)%string) TokIssuerMismatch in
        let? _ := fail_if (negb (algorithm_name algorithm
                                   =? to_ascii_uppercase (trim (tv_algorithm b)))%string)
                    TokAlgorithmMismatch in
        fail_if (negb (normalize_text (iv_public_key_pem vault)
                         =? normalize_text (tv_public_key_pem b))%string) TokPublicKeyMismatch
    | None => Ok tt
    end in
  let? encoding_key := ok_or (encoding_key_from_pem algorithm (iv_private_key_pem vault))
                         TokUnsupportedAlgorithm in
  let ttl_secs := match ci_ttl_secs input with Some t => t | None => 60 end in
  let? _ := fail_if (ttl_secs =? 0) TokTtlZero in
  let? _ := fail_if (120 <? ttl_secs) TokTtlTooLong in
  let r := ci_role input in
  let? subject := resolve_role_required (ci_subject input) r "SUBJECT" "subject" in
  let? subject := normalize_text_max subject "subject" 256 in
  let? wallet_id := resolve_role_required (ci_wallet_id input) r "WALLET_ID" "wallet_id" in
  let? wallet_id := normalize_text_max wallet_id "wallet_id" 256 in
  let? sandbox_id := resolve_role_required (ci_sandbox_id input) r "SANDBOX_ID" "sandbox_id" in
  let? sandbox_id := normalize_text_max sandbox_id "sandbox_id" 256 in
  let? audience := normalize_text_max
    (match resolve_role_optional (ci_audience input) r "AUDIENCE" with
     | Some a => a | None => "sandbox:" +:+ sandbox_id end) "audience" 256 in
  let? nettype := resolve_role_required (ci_nettype input) r "NETTYPE" "nettype" in
  let? nettype := normalize_text_max nettype "nettype" 32 in
  Ok (MkIssueParams escrow_id_hex txset_hash_hex r (ci_op input) (iv_issuer vault) algorithm
        encoding_key ttl_secs subject wallet_id sandbox_id audience nettype
        (option_map tv_trust_epoch bundle)).

(** ** Claims *)

(** [db.call().await?] of the issuer. *)
Definition from_db {A} (m : M db DbError A) : M db TokenError A :=
  fun d => match m d with (d', Ok a) => (d', Ok a) | (d', Err e) => (d', Err (TokDb e)) end.

Definition base_claims (now now_jti : Z) (random : string) (p : IssueActionTokenParams)
    (snapshot_hash : string) : ActionClaims :=
  MkClaims (ip_issuer p) (ip_audience p) (ip_subject p) (op_claim_value (ip_op p))
    (op_claim_value (ip_op p)) (role_key (ip_role p)) (issuer_sign_round (ip_op p) (ip_role p))
    (ip_escrow_id_hex p) (ip_wallet_id p) (ip_sandbox_id p) (ip_txset_hash_hex p) snapshot_hash
    (ip_nettype p) (ip_runtime_trust_epoch p) None now now (sat_add_u64 now (ip_ttl_secs p))
    (new_jti now_jti random (ip_role p) (ip_op p)) None None None None.
Definition set_admission_hash (h : string) (c : ActionClaims) : ActionClaims :=
  MkClaims (c_iss c) (c_aud c) (c_sub c) (c_scope c) (c_op c) (c_role c) (c_sign_round c)
    (c_escrow_id c) (c_wallet_id c) (c_sandbox_id c) (c_txset_hash c) (c_snapshot_hash c)
    (c_nettype c) (c_runtime_trust_epoch c) (Some h) (c_iat c) (c_nbf c) (c_exp c) (c_jti c)
    (c_proof_arbiter_jti c) (c_proof_seller_jti c) (c_proof_arbiter_req_id c)
    (c_proof_seller_req_id c).

(** The admission checks of [build_claims]. *)
Definition apply_admission (p : IssueActionTokenParams) (proposal : ProposalBlob)
    (admission : option EscrowAdmissionArtifactRow) (c : ActionClaims)
    : result TokenError ActionClaims :=
  match admission with
  | Some a =>
      let? _ := fail_if (negb (ea_snapshot_hash_hex a =? c_snapshot_hash c)%string)
                  TokAdmissionSnapshot in
      let? _ := match ip_runtime_trust_epoch p with
        | Some epoch => fail_if (negb (ea_runtime_trust_epoch a =? epoch)%string) TokAdmissionEpoch
        | None => Ok tt
        end in
      let? action := workflow_action_key (pb_action proposal) in
      let? _ := fail_if (negb (ea_action a =? action)%string) TokAdmissionAction in
      let? h := token_hex (ea_artifact_hash_hex a) 64 "escrow_admission_hash" in
      Ok (set_admission_hash h c)
  | None =>
      match ip_runtime_trust_epoch p with
      | Some _ => Err TokAdmissionMissing
      | None => Ok c
      end
  end.

Definition build_claims (now now_jti now_ms : Z) (random : string) (p : IssueActionTokenParams)
    (workflow : WorkflowInstance) (proposal : ProposalBlob) : M db TokenError ActionClaims :=
  let* snapshot_hash := slift (token_hex (wi_snapshot_hash_hex workflow) 64 "snapshot_hash_hex") in
  let claims := base_claims now now_jti random p snapshot_hash in
  let* admission := from_db (get_escrow_admission_artifact_sync (ip_escrow_id_hex p)) in
  let* claims := slift (apply_admission p proposal admission claims) in
  match ip_op p with
  | SubmitMultisig =>
      let* bundle := from_db (get_submit_multisig_proof_bundle_sync now_ms (ip_escrow_id_hex p)
                                (ip_txset_hash_hex p)) in
      slift (apply_submit_proof_bundle claims bundle)
  | SignMultisig => sret claims
  end.

Definition issue_action_token (now now_jti now_ms : Z) (random : string)
    (p : IssueActionTokenParams) : M db TokenError (Token * ActionClaims) :=
  let* workflow := from_db (get_workflow_sync (ip_escrow_id_hex p)) in
  let* workflow := slift (ok_or workflow TokWorkflowNotFound) in
  let* _ := slift (fail_if (negb (workflow_state_allows_action_token (wi_state workflow)))
                    (TokStateForbids (wi_state workflow))) in
  let* proposal := from_db (get_proposal_blob_by_txset_hash_sync (ip_escrow_id_hex p)
                              (ip_txset_hash_hex p)) in
  let* proposal := slift (ok_or proposal TokProposalNotFound) in
  let* _ := slift (fail_if (negb (pb_txset_hash_hex proposal =? ip_txset_hash_hex p)%string)
                    TokProposalMismatch) in
  let* claims := build_claims now now_jti now_ms random p workflow proposal in
  let* token := slift (ok_or (jwt_encode (ip_algorithm p) (ip_encoding_key p) claims) TokEncode) in
  sret (token, claims).

End issuer.
