(* ===== verification/TokenVerifier.v ===== *)
(** * Verifying action tokens

    [crates/nxms-signer/src/action_token.rs]: the attempt limiter in front of
    the verifier and the verification of sign and submit tokens.  [Sha256],
    the JWT library and the iteration order of the limiter's [HashMap] are
    parameters. *)

From S2P Require Import Prelude RustString ActionToken.
From Stdlib Require Import Sorting.Permutation.

Inductive VerifyError : Type :=
| VRateLimited
| VInvalidToken
| VScopeOp
| VIatFuture
| VExpBeforeIat
| VExpBeforeNbf
| VTtl
| VSub
| VRole
| VSignRound
| VEscrow
| VSandbox
| VWallet
| VNettype
| VEpochMissing
| VEpochMismatch
| VAdmissionMissing
| VJti
| VNotHex (label : string)
| VTxset
| VSnapshot
| VProofMissing (label : string)
| VProofJtiSame
| VProofJtiLong
| VProofReqSame
| VProofReqArbiter
| VProofReqSeller.

(** ** The attempt limiter *)

Record VerifyRateEntry : Type := MkRateEntry { re_window_start : Z; re_count : Z; re_last_seen : Z }.

Notation rate_map := (gmap string VerifyRateEntry).

Record VerifyRateLimiter : Type := MkLimiter {
  rl_state : rate_map;
  rl_max_attempts : Z;
  rl_window_secs : Z;
  rl_max_keys : Z;
}.

(** [VerifyRateLimiter::new] *)
Definition new_limiter (max_attempts window_secs max_keys : Z) : VerifyRateLimiter :=
  MkLimiter ∅ (Z.max max_attempts 1) (Z.max window_secs 1) (Z.max max_keys 64).

(** [iter().min_by_key(|(_, e)| e.last_seen)]: the first minimum. *)
Fixpoint min_by_last_seen (best : option (string * VerifyRateEntry))
    (l : list (string * VerifyRateEntry)) : option (string * VerifyRateEntry) :=
  match l with
  | [] => best
  | x :: l' =>
      match best with
      | None => min_by_last_seen (Some x) l'
      | Some b =>
          min_by_last_seen (if re_last_seen x.2 <? re_last_seen b.2 then Some x else Some b) l'
      end
  end.

Record ActionTokenVerifier `{Jwt} : Type := MkVerifier {
  av_required : bool;
  av_issuer : string;
  av_audience : string;
  av_algorithm : Algorithm;
  av_decoding_key : DecodingKey;
  av_clock_skew_secs : Z;
  av_max_ttl_secs : Z;
  av_signer_role : Role;
  av_sandbox_id : string;
  av_wallet_id : string;
  av_nettype : string;
  av_runtime_trust_epoch : option string;
}.

Record VerifiedSignToken : Type := MkVerified { vt_claims : ActionClaims; vt_req_id : string }.

Definition expected_sign_round (r : Role) : string :=
  match r with Arbiter => "arbiter_first" | Seller => "seller_second" | Buyer => "buyer_second" end.
Definition expected_submit_round (r : Role) : string :=
  match r with Arbiter => "arbiter_submit" | Seller => "seller_submit" | Buyer => "buyer_submit" end.

Definition normalize_hex_64 (value label : string) : result VerifyError string :=
  ok_or (hex_exact 64 value) (VNotHex label).

(** The text that [sign_req_id] hashes. *)
Definition sign_req_material (escrow_id op sign_round txset_hash_hex : string) : string :=
  escrow_id +:+ "|" +:+ op +:+ "|" +:+ sign_round +:+ "|" +:+ txset_hash_hex.

(** [opt.as_deref().map(str::trim).filter(|v| !v.is_empty())] *)
Definition opt_non_blank (o : option string) : option string :=
  match o with Some v => non_blank v | None => None end.

Section verifier.
Context `{Jwt}.
Context (sha256 : string -> string).
Context (iter : rate_map -> list (string * VerifyRateEntry)).

Definition evict_oldest_entry (entries : rate_map) : rate_map :=
  match min_by_last_seen None (iter entries) with
  | Some (key, _) => delete key entries
  | None => entries
  end.

(** The map after [retain] and, for a new key in a full map, the eviction. *)
Definition limiter_cleaned (lim : VerifyRateLimiter) (key : string) (now_s : Z) : rate_map :=
  let guard := filter (fun kv => sat_sub_u64 now_s (re_last_seen kv.2) < rl_window_secs lim)
                 (rl_state lim) in
  if negb (bool_decide (is_Some (guard !! key))) && (rl_max_keys lim <=? Z.of_nat (size guard))
  then evict_oldest_entry guard else guard.

Definition limiter_check_key (key : string) (now_s : Z)
    : M VerifyRateLimiter VerifyError unit :=
  fun lim =>
    let guard := limiter_cleaned lim key now_s in
    let entry := match guard !! key with Some e => e | None => MkRateEntry now_s 0 now_s end in
    let entry := if rl_window_secs lim <=? sat_sub_u64 now_s (re_window_start entry)
                 then MkRateEntry now_s 0 (re_last_seen entry) else entry in
    let entry := MkRateEntry (re_window_start entry) (re_count entry) now_s in
    let put e := MkLimiter (<[key := e]> guard) (rl_max_attempts lim) (rl_window_secs lim)
                   (rl_max_keys lim) in
    if rl_max_attempts lim <=? re_count entry then (put entry, Err VRateLimited)
    else (put (MkRateEntry (re_window_start entry) (sat_add_u32 (re_count entry) 1) now_s), Ok tt).

(** [VerifyRateLimiter::check] *)
Definition limiter_check (action_token : string) (now_s : Z) : M VerifyRateLimiter VerifyError unit :=
  limiter_check_key (hex_encode (sha256 action_token)) now_s.

(** ** Verification *)

Definition sign_req_id (escrow_id op sign_round txset_hash_hex : string) : string :=
  hex_encode (sha256 (sign_req_material escrow_id op sign_round txset_hash_hex)).

(** The checks of [verify_common] on the decoded claims, at time [now_s]. *)
Definition check_claims (v : ActionTokenVerifier) (now_s : Z) (claims : ActionClaims)
    (op_expected sign_round_expected escrow_id_hex txset_hash_hex snapshot_hash_hex : string)
    : result VerifyError VerifiedSignToken :=
  let? _ := fail_if (negb (c_scope claims =? op_expected)%string
                     || negb (c_op claims =? op_expected)%string) VScopeOp in
  let? _ := fail_if (sat_add_u64 now_s (av_clock_skew_secs v) <? c_iat claims) VIatFuture in
  let? _ := fail_if (c_exp claims <? c_iat claims) VExpBeforeIat in
  let? _ := fail_if (c_exp claims <? c_nbf claims) VExpBeforeNbf in
  let ttl_from_iat := sat_sub_u64 (c_exp claims) (c_iat claims) in
  let ttl_from_nbf := sat_sub_u64 (c_exp claims) (c_nbf claims) in
  let? _ := fail_if ((ttl_from_iat =? 0) || (av_max_ttl_secs v <? ttl_from_iat)
                     || (ttl_from_nbf =? 0) || (av_max_ttl_secs v <? ttl_from_nbf)) VTtl in
  let? _ := fail_if (is_empty (trim (c_sub claims)) || (128 <? len (c_sub claims))) VSub in
  let? _ := fail_if (negb (c_role claims =? role_key (av_signer_role v))%string) VRole in
  let? _ := fail_if (negb (c_sign_round claims =? sign_round_expected)%string) VSignRound in
  let? _ := fail_if (negb (c_escrow_id claims =? escrow_id_hex)%string) VEscrow in
  let? _ := fail_if (negb (c_sandbox_id claims =? av_sandbox_id v)%string) VSandbox in
  let? _ := fail_if (negb (c_wallet_id claims =? av_wallet_id v)%string) VWallet in
  let? _ := fail_if (negb (to_ascii_lowercase (trim (c_nettype claims)) =? av_nettype v)%string)
              VNettype in
  let? _ := match av_runtime_trust_epoch v with
    | Some expected_epoch =>
        let? claim_epoch := ok_or (opt_non_blank (c_runtime_trust_epoch claims)) VEpochMissing in
        let? _ := fail_if (negb (claim_epoch =? expected_epoch)%string) VEpochMismatch in
        let? admission_hash := ok_or (opt_non_blank (c_escrow_admission_hash claims))
                                 VAdmissionMissing in
        let? _ := normalize_hex_64 admission_hash "claims.escrow_admission_hash" in
        Ok tt
    | None => Ok tt
    end in
  let? _ := fail_if (is_empty (trim (c_jti claims)) || (256 <? len (c_jti claims))) VJti in
  let? txset_hash_claim := normalize_hex_64 (c_txset_hash claims) "claims.txset_hash" in
  let? txset_hash_expected := normalize_hex_64 txset_hash_hex "txset_hash_hex" in
  let? _ := fail_if (negb (txset_hash_claim =? txset_hash_expected)%string) VTxset in
  let? snapshot_hash_claim := normalize_hex_64 (c_snapshot_hash claims) "claims.snapshot_hash" in
  let? snapshot_hash_expected := normalize_hex_64 snapshot_hash_hex "snapshot_hash_hex" in
  let? _ := fail_if (negb (snapshot_hash_claim =? snapshot_hash_expected)%string) VSnapshot in
  Ok (MkVerified claims
        (sign_req_id escrow_id_hex op_expected (c_sign_round claims) txset_hash_expected)).

(** Three readings of the clock: for the limiter, inside [decode], for the
    claims. *)
Definition verify_common (v : ActionTokenVerifier) (now_limit now_decode now_s : Z)
    (action_token : Token) (op_expected sign_round_expected escrow_id_hex txset_hash_hex
    snapshot_hash_hex : string) : M VerifyRateLimiter VerifyError VerifiedSignToken :=
  let* _ := limiter_check (token_text action_token) now_limit in
  let validation := MkValidation (av_clock_skew_secs v) (av_issuer v) (av_audience v) in
  let* claims := slift (ok_or (jwt_decode (av_algorithm v) (av_decoding_key v) validation
                                 now_decode action_token) VInvalidToken) in
  slift (check_claims v now_s claims op_expected sign_round_expected escrow_id_hex txset_hash_hex
           snapshot_hash_hex).

Definition verify_sign_multisig (v : ActionTokenVerifier) (now_limit now_decode now_s : Z)
    (action_token : Token) (escrow_id_hex txset_hash_hex snapshot_hash_hex : string)
    : M VerifyRateLimiter VerifyError VerifiedSignToken :=
  verify_common v now_limit now_decode now_s action_token "sign_multisig"
    (expected_sign_round (av_signer_role v)) escrow_id_hex txset_hash_hex snapshot_hash_hex.

(** The checks of [verify_submit_multisig] after [verify_common]. *)
Definition check_submit_proofs (claims : ActionClaims) (escrow_id_hex txset_hash_hex : string)
    : result VerifyError unit :=
  let? proof_arbiter := ok_or (opt_non_blank (c_proof_arbiter_jti claims))
                          (VProofMissing "proof_arbiter_jti") in
  let? proof_seller := ok_or (opt_non_blank (c_proof_seller_jti claims))
                         (VProofMissing "proof_seller_jti") in
  let? proof_arbiter_req := ok_or (opt_non_blank (c_proof_arbiter_req_id claims))
                              (VProofMissing "proof_arbiter_req_id") in
  let? proof_seller_req := ok_or (opt_non_blank (c_proof_seller_req_id claims))
                             (VProofMissing "proof_seller_req_id") in
  let? _ := fail_if (proof_arbiter =? proof_seller)%string VProofJtiSame in
  let? _ := fail_if ((256 <? len proof_arbiter) || (256 <? len proof_seller)) VProofJtiLong in
  let? _ := fail_if (proof_arbiter_req =? proof_seller_req)%string VProofReqSame in
  let? proof_arbiter_req := normalize_hex_64 proof_arbiter_req "claims.proof_arbiter_req_id" in
  let? proof_seller_req := normalize_hex_64 proof_seller_req "claims.proof_seller_req_id" in
  let? txset_hash := normalize_hex_64 txset_hash_hex "txset_hash_hex" in
  let? _ := fail_if (negb (proof_arbiter_req =?
              sign_req_id escrow_id_hex "sign_multisig" "arbiter_first" txset_hash)%string)
              VProofReqArbiter in
  fail_if (negb (proof_seller_req =?
    sign_req_id escrow_id_hex "sign_multisig" "seller_second" txset_hash)%string) VProofReqSeller.

Definition verify_submit_multisig (v : ActionTokenVerifier) (now_limit now_decode now_s : Z)
    (action_token : Token) (escrow_id_hex txset_hash_hex snapshot_hash_hex : string)
    : M VerifyRateLimiter VerifyError VerifiedSignToken :=
  let* verified := verify_common v now_limit now_decode now_s action_token "submit_multisig"
    (expected_submit_round (av_signer_role v)) escrow_id_hex txset_hash_hex snapshot_hash_hex in
  let* _ := slift (check_submit_proofs (vt_claims verified) escrow_id_hex txset_hash_hex) in
  sret verified.

End verifier.
