(* ===== verification/TokenProps.v ===== *)
(** * Properties of action tokens

    What an accepted token guarantees, that the signer accepts what the
    orchestrator issues, and the limits of the attempt limiter. *)

From S2P Require Import Prelude RustString Sql Flow OrchDb OrchSpec OrchInv OrchRefine OrchProps OrchEvidence.
From S2P Require Import ActionToken TokenIssuer TokenVerifier.
From Stdlib Require Import Sorting.Permutation.

(** ** What verification establishes *)

Section sound.
Context `{Jwt}.
Context (sha256 : string -> string).

(** The bindings between a token's claims and the request it is used for. *)
Record token_bound (v : ActionTokenVerifier) (now : Z) (c : ActionClaims)
    (op round escrow txset snapshot req_id : string) : Prop := TokenBound {
  tb_op : c_scope c = op /\ c_op c = op;
  tb_role : c_role c = role_key (av_signer_role v) /\ c_sign_round c = round;
  tb_escrow : c_escrow_id c = escrow;
  tb_target : c_sandbox_id c = av_sandbox_id v /\ c_wallet_id c = av_wallet_id v /\
              to_ascii_lowercase (trim (c_nettype c)) = av_nettype v;
  tb_txset : exists h, hex_exact 64 (c_txset_hash c) = Some h /\ hex_exact 64 txset = Some h /\
               req_id = sign_req_id sha256 escrow op round h;
  tb_snapshot : exists h, hex_exact 64 (c_snapshot_hash c) = Some h /\ hex_exact 64 snapshot = Some h;
  tb_life : c_iat c <= now + av_clock_skew_secs v /\
            0 < c_exp c - c_iat c <= av_max_ttl_secs v /\
            0 < c_exp c - c_nbf c <= av_max_ttl_secs v;
  tb_epoch : forall e, av_runtime_trust_epoch v = Some e ->
               opt_non_blank (c_runtime_trust_epoch c) = Some e /\
               exists a h, opt_non_blank (c_escrow_admission_hash c) = Some a /\ hex_exact 64 a = Some h;
  tb_jti : is_empty (trim (c_jti c)) = false /\ len (c_jti c) <= 256;
  tb_sub : is_empty (trim (c_sub c)) = false /\ len (c_sub c) <= 128;
}.

Lemma negb_eqb_false a b : negb (a =? b)%string = false <-> a = b.
Proof. by rewrite negb_false_iff, String.eqb_eq. Qed.

Lemma check_claims_sound v now c op round escrow txset snapshot vt :
  check_claims sha256 v now c op round escrow txset snapshot = Ok vt ->
  vt_claims vt = c /\ token_bound v now c op round escrow txset snapshot (vt_req_id vt).
Proof.
  unfold check_claims, normalize_hex_64. intros Hc. rok. split; [done|].
  repeat match goal with
    | K : negb (_ =? _)%string = false |- _ => apply negb_eqb_false in K
    | K : _ || _ = false |- _ => apply orb_false_iff in K; destruct K
    end.
  constructor; simpl; try done.
  - eexists. split_and!; [done|congruence..].
  - eexists. split; [done|congruence].
  - ints. lia.
  - intros e He. rewrite He in *. rok.
    repeat match goal with K : negb (_ =? _)%string = false |- _ => apply negb_eqb_false in K end.
    split; [congruence|eauto].
  - split; [done|lia].
  - split; [done|lia].
Qed.

Context (iter : rate_map -> list (string * VerifyRateEntry)).

Lemma verify_common_sound v n1 n2 n3 tok op round escrow txset snapshot lim lim' vt :
  verify_common sha256 iter v n1 n2 n3 tok op round escrow txset snapshot lim = (lim', Ok vt) ->
  jwt_decode (av_algorithm v) (av_decoding_key v)
    (MkValidation (av_clock_skew_secs v) (av_issuer v) (av_audience v)) n2 tok = Some (vt_claims vt) /\
  token_bound v n3 (vt_claims vt) op round escrow txset snapshot (vt_req_id vt).
Proof.
  unfold verify_common. rewrite !sbind_ok.
  intros (l1 & [] & _ & K). apply sbind_ok in K as (l2 & c & [= _ K1] & [= _ K2]).
  apply ok_or_ok in K1. apply check_claims_sound in K2 as [-> Hb]. done.
Qed.
End sound.

(** ** The signer accepts what the orchestrator issues *)

Section interop.
Context `{OrchExt, Jwt}.

(** What [build_issue_params] guarantees of the parameters it returns. *)
Record params_ok (p : IssueActionTokenParams) : Prop := ParamsOk {
  po_escrow : hex_norm 32 (ip_escrow_id_hex p);
  po_txset : hex_norm 64 (ip_txset_hash_hex p);
  po_ttl : 0 < ip_ttl_secs p <= 120;
  po_subject : trimmed (ip_subject p) /\ len (ip_subject p) <= 256;
}.

Lemma normalize_text_max_ok v label n s :
  normalize_text_max v label n = Ok s -> trimmed s /\ len s <= n.
Proof.
  unfold normalize_text_max. intros Hn. destruct (is_empty (trim v)) eqn:E; [done|].
  destruct (Z.ltb_spec n (len (trim v))); [done|]. simplify_eq. split; [by apply trim_trimmed|lia].
Qed.

Lemma token_hex_ok v n label s : token_hex v n label = Ok s -> hex_norm n s.
Proof. intros Hs%ok_or_ok. by eapply hex_exact_norm. Qed.

Lemma build_issue_params_ok env load_bundle load_vault input p :
  match ci_ttl_secs input with Some t => 0 <= t | None => True end ->
  build_issue_params env load_bundle load_vault input = Ok p -> params_ok p.
Proof.
  intros Ht. unfold build_issue_params. intros Hb. rok.
  repeat match goal with
    | K : token_hex _ _ _ = Ok _ |- _ => apply token_hex_ok in K
    | K : normalize_text_max _ _ _ = Ok _ |- _ => apply normalize_text_max_ok in K
    end.
  constructor; simpl; try done. destruct (ci_ttl_secs input); lia.
Qed.

(** The verifier is set up for the issuer's tokens. *)
Record agrees (v : ActionTokenVerifier) (p : IssueActionTokenParams) : Prop := Agrees {
  ag_keys : key_pair (ip_encoding_key p) (av_decoding_key v);
  ag_algorithm : av_algorithm v = ip_algorithm p;
  ag_issuer : av_issuer v = ip_issuer p;
  ag_audience : av_audience v = ip_audience p;
  ag_role : av_signer_role v = ip_role p;
  ag_sandbox : av_sandbox_id v = ip_sandbox_id p;
  ag_wallet : av_wallet_id v = ip_wallet_id p;
  ag_nettype : av_nettype v = to_ascii_lowercase (trim (ip_nettype p));
  ag_epoch : av_runtime_trust_epoch v = ip_runtime_trust_epoch p;
  ag_epoch_text : forall e, ip_runtime_trust_epoch p = Some e -> trimmed e;
  ag_skew : 0 <= av_clock_skew_secs v;
  ag_max_ttl : ip_ttl_secs p <= av_max_ttl_secs v;
}.

(** The claims that [build_claims] produces. *)
Record claims_of (p : IssueActionTokenParams) (now now_jti : Z) (random snapshot : string)
    (c : ActionClaims) : Prop := ClaimsOf {
  co_iss : c_iss c = ip_issuer p;
  co_aud : c_aud c = ip_audience p;
  co_sub : c_sub c = ip_subject p;
  co_op : c_scope c = op_claim_value (ip_op p) /\ c_op c = op_claim_value (ip_op p);
  co_role : c_role c = role_key (ip_role p);
  co_round : c_sign_round c = issuer_sign_round (ip_op p) (ip_role p);
  co_escrow : c_escrow_id c = ip_escrow_id_hex p;
  co_wallet : c_wallet_id c = ip_wallet_id p;
  co_sandbox : c_sandbox_id c = ip_sandbox_id p;
  co_txset : c_txset_hash c = ip_txset_hash_hex p;
  co_snapshot : token_hex snapshot 64 "snapshot_hash_hex" = Ok (c_snapshot_hash c);
  co_nettype : c_nettype c = ip_nettype p;
  co_epoch : c_runtime_trust_epoch c = ip_runtime_trust_epoch p;
  co_times : c_iat c = now /\ c_nbf c = now /\ c_exp c = sat_add_u64 now (ip_ttl_secs p);
  co_jti : c_jti c = new_jti now_jti random (ip_role p) (ip_op p);
  co_admission : is_Some (ip_runtime_trust_epoch p) ->
                 exists h, c_escrow_admission_hash c = Some h /\ hex_norm 64 h;
}.

Lemma from_db_ok {A} (m : M db DbError A) d d' a :
  from_db m d = (d', Ok a) -> m d = (d', Ok a).
Proof. unfold from_db. destruct (m d) as [? [?|?]]; naive_solver. Qed.

Lemma apply_admission_claims p proposal adm now now_jti random snapshot h c :
  token_hex snapshot 64 "snapshot_hash_hex" = Ok h ->
  apply_admission p proposal adm (base_claims now now_jti random p h) = Ok c ->
  claims_of p now now_jti random snapshot c.
Proof.
  intros Hs. unfold apply_admission. destruct adm as [a|].
  - intros Ha. rok. constructor; simpl; try done. intros _.
    match goal with K : token_hex _ _ _ = Ok ?x |- _ => exists x; split; [done|by apply token_hex_ok in K] end.
  - destruct (ip_runtime_trust_epoch p) eqn:E; intros Ha; rok. constructor; simpl; try done.
    rewrite E. by intros [? ?].
Qed.

Lemma apply_submit_claims p now now_jti random snapshot c c' b :
  claims_of p now now_jti random snapshot c -> apply_submit_proof_bundle c b = Ok c' ->
  claims_of p now now_jti random snapshot c'.
Proof. intros [] Hb. unfold apply_submit_proof_bundle in Hb. rok. by constructor. Qed.

Lemma issue_claims now now_jti now_ms random p d d' tok c :
  issue_action_token now now_jti now_ms random p d = (d', Ok (tok, c)) ->
  exists wf, (get_workflow_sync (ip_escrow_id_hex p) d).2 = Ok (Some wf) /\
    workflow_state_allows_action_token (wi_state wf) = true /\
    claims_of p now now_jti random (wi_snapshot_hash_hex wf) c /\
    jwt_encode (ip_algorithm p) (ip_encoding_key p) c = Some tok.
Proof.
  unfold issue_action_token. rewrite sbind_ok. intros (d1 & owf & K1%from_db_ok & K).
  apply sbind_ok in K as (d2 & wf & [= <- K2%ok_or_ok] & K). subst owf.
  apply sbind_ok in K as (d3 & [] & [= <- K3%fail_if_ok%negb_false_iff] & K).
  apply sbind_ok in K as (d4 & opb & _ & K). apply sbind_ok in K as (d5 & pb & _ & K).
  apply sbind_ok in K as (d6 & [] & _ & K). apply sbind_ok in K as (d7 & cl & Kc & K).
  apply sbind_ok in K as (d8 & t & [= <- Kt%ok_or_ok] & [= <- <- <-]).
  exists wf. split_and!; [by rewrite K1|done| |done].
  unfold build_claims in Kc. apply sbind_ok in Kc as (e1 & h & [= <- Kh] & Kc). cbv zeta in Kc.
  apply sbind_ok in Kc as (e2 & adm & _ & Kc). apply sbind_ok in Kc as (e3 & c1 & [= <- Ka] & Kc).
  apply (apply_admission_claims _ _ _ _ _ _ _ _ _ Kh) in Ka.
  destruct (ip_op p) eqn:Eop; [by injection Kc as <- <-|].
  apply sbind_ok in Kc as (e4 & b & _ & [= _ Kb]). by eapply apply_submit_claims.
Qed.

Lemma graphic_trimmed s : sall is_graphic s = true -> s <> EmptyString -> is_empty (trim s) = false.
Proof. intros Hs Hn. rewrite trim_graphic by done. by apply is_empty_false. Qed.

Lemma new_jti_ok now random r op :
  now <= U64_MAX -> len random = 16 ->
  is_empty (trim (new_jti now random r op)) = false /\ len (new_jti now random r op) <= 256.
Proof.
  intros Hn Hr. unfold new_jti. split.
  - apply graphic_trimmed; [|by destruct r].
    rewrite !sall_app. rewrite (sall_impl is_ascii_digit _ (dec now)); [|byte_impl|apply dec_digits].
    rewrite (sall_impl is_lower_hex _ (hex_encode random)); [|byte_impl|apply hex_encode_lower].
    by destruct r, op.
  - rewrite !len_app, len_hex_encode, Hr. pose proof (dec_len_u64 now Hn). pose proof (len_nonneg (dec now)).
    destruct r, op; unfold len in *; simpl; lia.
Qed.

Context (sha256 : string -> string).

Lemma check_claims_accepts p v now now_jti random snapshot c t :
  params_ok p -> agrees v p -> claims_of p now now_jti random snapshot c ->
  len (ip_subject p) <= 128 -> len random = 16 -> now_jti <= U64_MAX ->
  0 <= now -> now + 120 <= U64_MAX -> now <= t ->
  check_claims sha256 v t c (op_claim_value (ip_op p)) (issuer_sign_round (ip_op p) (ip_role p))
    (ip_escrow_id_hex p) (ip_txset_hash_hex p) snapshot
  = Ok (MkVerified c (sign_req_id sha256 (ip_escrow_id_hex p) (op_claim_value (ip_op p))
         (issuer_sign_round (ip_op p) (ip_role p)) (ip_txset_hash_hex p))).
Proof.
  intros Hp Hv Hc Hsub Hrand Hjti Hnow Hmax Ht.
  destruct Hp as [He Htx Httl [[Hst Hse] _]].
  destruct Hc as [_ _ Csub [Csc Cop] Crole Cround Cesc Cwal Csan Ctx Csnap Cnet Cep (Ciat & Cnbf & Cexp) Cjti Cadm].
  destruct Hv as [_ _ _ _ Vrole Vsan Vwal Vnet Vep Vept Vskew Vttl].
  destruct (new_jti_ok now_jti random (ip_role p) (ip_op p) Hjti Hrand) as [Hj1 Hj2].
  unfold check_claims. rewrite Csc, Cop, String.eqb_refl. cbn [negb orb fail_if rbind].
  rewrite Ciat, Cnbf, Cexp.
  rewrite (proj2 (Z.ltb_ge (sat_add_u64 t _) now)) by (ints; lia). cbn [fail_if rbind].
  assert (sat_add_u64 now (ip_ttl_secs p) = now + ip_ttl_secs p) as -> by (ints; lia).
  assert (sat_sub_u64 (now + ip_ttl_secs p) now = ip_ttl_secs p) as -> by (ints; lia).
  rewrite (proj2 (Z.ltb_ge (now + ip_ttl_secs p) now)) by lia. cbn [fail_if rbind]. cbv zeta.
  rewrite (proj2 (Z.eqb_neq (ip_ttl_secs p) 0)), (proj2 (Z.ltb_ge (av_max_ttl_secs v) _)) by lia.
  cbn [orb fail_if rbind].
  rewrite Csub, Hst, Hse, (proj2 (Z.ltb_ge 128 _)) by lia. cbn [orb fail_if rbind].
  rewrite Crole, Vrole, Cround, Cesc, Csan, Vsan, Cwal, Vwal, Cnet, Vnet, !String.eqb_refl.
  cbn [negb fail_if rbind].
  assert (match av_runtime_trust_epoch v with
    | Some e =>
        let? claim_epoch := ok_or (opt_non_blank (c_runtime_trust_epoch c)) VEpochMissing in
        let? _ := fail_if (negb (claim_epoch =? e)%string) VEpochMismatch in
        let? a := ok_or (opt_non_blank (c_escrow_admission_hash c)) VAdmissionMissing in
        let? _ := normalize_hex_64 a "claims.escrow_admission_hash" in Ok tt
    | None => Ok tt end = Ok tt) as ->.
  { rewrite Vep, Cep. destruct (ip_runtime_trust_epoch p) as [e|] eqn:Ee; [|done].
    destruct (Cadm ltac:(by eexists)) as (h & -> & Hh). simpl.
    rewrite (non_blank_id e) by auto. simpl. rewrite String.eqb_refl. simpl.
    rewrite (non_blank_id h) by (by eapply (hex_norm_trimmed 64)). simpl.
    unfold normalize_hex_64. by rewrite hex_exact_id. }
  cbn [rbind]. rewrite Cjti, Hj1, (proj2 (Z.ltb_ge 256 _)) by lia. cbn [orb fail_if rbind].
  unfold normalize_hex_64. rewrite Ctx, (hex_exact_id 64 _ Htx). cbn [ok_or rbind].
  rewrite String.eqb_refl. cbn [negb fail_if rbind].
  apply ok_or_ok in Csnap. rewrite Csnap, (hex_exact_id 64 (c_snapshot_hash c)) by (by eapply hex_exact_norm).
  cbn [ok_or rbind]. rewrite String.eqb_refl. done.
Qed.
End interop.

(** ** A concrete JWT library for the instances *)

(** A token is the signed claims together with the key that signed them. *)
Definition demo_jwt : Jwt := {|
  EncodingKey := string; DecodingKey := string; Token := string * Algorithm * ActionClaims;
  token_text := fun t => t.1.1 +:+ c_jti t.2;
  encoding_key_from_pem := fun _ pem => Some pem;
  jwt_encode := fun alg sk c => Some (sk, alg, c);
  jwt_decode := fun alg pk v now t =>
    let '(sk, alg', c) := t in
    if (sk =? pk)%string && bool_decide (alg = alg') && (c_iss c =? va_issuer v)%string
       && (c_aud c =? va_audience v)%string && (now <=? c_exp c + va_leeway v)
       && (c_nbf c <=? now + va_leeway v)
    then Some c else None;
  key_pair := fun sk pk => sk = pk;
|}.

Lemma demo_jwt_laws : @JwtLaws demo_jwt.
Proof.
  constructor; simpl.
  - intros alg sk pk v now c t -> [= <-] (Hi & Ha & He & Hn).
    rewrite String.eqb_refl, bool_decide_eq_true_2, Hi, Ha, !String.eqb_refl by done. simpl.
    by rewrite (proj2 (Z.leb_le _ _) He), (proj2 (Z.leb_le _ _) Hn).
  - intros alg pk v now [[sk alg'] c'] c Hd. case_match eqn:E; simplify_eq.
    rewrite !andb_true_iff, !String.eqb_eq, !Z.leb_le in E. unfold registered_ok. tauto.
  - intros alg sk pk v now c c' t -> [= <-] Hd. by case_match; simplify_eq.
Qed.

Definition demo_input (subject : string) : ActionTokenCliInput :=
  MkCliInput demo_id demo_hash Arbiter SignMultisig None None None (Some 60) (Some subject)
    (Some "wallet-1") (Some "sandbox-1") None (Some "Stagenet ").
Definition demo_vault : IssuerVault := MkIssuerVault "nexum" "EdDSA" "pk" "key".
Definition demo_params (subject : string) : result TokenError (@IssueActionTokenParams demo_jwt) :=
  @build_issue_params demo_jwt (fun _ => None) (fun _ => Err (TokLoad "bundle"))
    (fun _ _ => Ok demo_vault) (demo_input subject).
Definition demo_verifier : @ActionTokenVerifier demo_jwt :=
  @MkVerifier demo_jwt true "nexum" "sandbox:sandbox-1" EdDSA "key" 5 60 Arbiter "sandbox-1"
    "wallet-1" "stagenet" None.
Definition demo_random : string := "0123456789abcdef".
(** A funded workflow with its proposal. *)
Definition demo_proposed : db :=
  @run_ops demo_ext (demo_signing ++ [OpUpsertProposalBlob 5 demo_id "release" "00ff" demo_hash])
    (init_sync None).
Definition demo_claims (subject : string) : ActionClaims :=
  MkClaims "nexum" "sandbox:sandbox-1" subject "sign_multisig" "sign_multisig" "arbiter"
    "arbiter_first" demo_id "wallet-1" "sandbox-1" demo_hash demo_hash "Stagenet" None None
    1000 1000 1060 (new_jti 1000 demo_random Arbiter SignMultisig) None None None None.
Definition demo_issue_params (subject : string) : @IssueActionTokenParams demo_jwt :=
  @MkIssueParams demo_jwt demo_id demo_hash Arbiter SignMultisig "nexum" EdDSA "key" 60 subject
    "wallet-1" "sandbox-1" "sandbox:sandbox-1" "Stagenet" None.
Definition demo_iter (m : rate_map) : list (string * VerifyRateEntry) := map_to_list m.

(** ** Theorems *)

(** C7. An accepted sign token is bound to its use: the claims are those the
    JWT library decoded under the configured key, issuer and audience, and
    they name this operation, role and round, this escrow, transaction set and
    snapshot, this sandbox, wallet and network, the current trust epoch with an
    admission hash, and a life time within the configured maximum; the request
    id is the hash of exactly these. *)
Theorem verified_sign_token_bound `{Jwt, !JwtLaws} (sha256 : string -> string)
    (iter : rate_map -> list (string * VerifyRateEntry)) (v : ActionTokenVerifier) (n1 n2 n3 : Z)
    (tok : Token) (escrow txset snapshot : string) (lim lim' : VerifyRateLimiter)
    (vt : VerifiedSignToken) :
  verify_sign_multisig sha256 iter v n1 n2 n3 tok escrow txset snapshot lim = (lim', Ok vt) ->
  token_bound sha256 v n3 (vt_claims vt) "sign_multisig" (expected_sign_round (av_signer_role v))
    escrow txset snapshot (vt_req_id vt) /\
  c_iss (vt_claims vt) = av_issuer v /\ c_aud (vt_claims vt) = av_audience v /\
  n2 <= c_exp (vt_claims vt) + av_clock_skew_secs v.
Proof.
  intros [Hd Hb]%verify_common_sound. apply jwt_decode_checked in Hd as (Hi & Ha & He & _). done.
Qed.

(** An accepted submit token additionally names two different signing
    tokens, and the request ids it carries are the ones the arbiter's first
    and the seller's second signature on this very transaction set have. *)
Theorem verified_submit_token_quorum `{Jwt} (sha256 : string -> string)
    (iter : rate_map -> list (string * VerifyRateEntry)) (v : ActionTokenVerifier) (n1 n2 n3 : Z)
    (tok : Token) (escrow txset snapshot : string) (lim lim' : VerifyRateLimiter)
    (vt : VerifiedSignToken) :
  verify_submit_multisig sha256 iter v n1 n2 n3 tok escrow txset snapshot lim = (lim', Ok vt) ->
  token_bound sha256 v n3 (vt_claims vt) "submit_multisig"
    (expected_submit_round (av_signer_role v)) escrow txset snapshot (vt_req_id vt) /\
  exists h aj sj ar sr, hex_exact 64 txset = Some h /\
    opt_non_blank (c_proof_arbiter_jti (vt_claims vt)) = Some aj /\
    opt_non_blank (c_proof_seller_jti (vt_claims vt)) = Some sj /\ aj <> sj /\
    opt_non_blank (c_proof_arbiter_req_id (vt_claims vt)) = Some ar /\
    opt_non_blank (c_proof_seller_req_id (vt_claims vt)) = Some sr /\
    hex_exact 64 ar = Some (sign_req_id sha256 escrow "sign_multisig" "arbiter_first" h) /\
    hex_exact 64 sr = Some (sign_req_id sha256 escrow "sign_multisig" "seller_second" h).
Proof.
  unfold verify_submit_multisig. rewrite sbind_ok. intros (l1 & w & K1 & K).
  apply sbind_ok in K as (l2 & [] & [= <- Kp] & [= <- <-]).
  apply verify_common_sound in K1 as [_ Hb]. split; [done|].
  unfold check_submit_proofs, normalize_hex_64 in Kp. rok.
  repeat match goal with K : negb (_ =? _)%string = false |- _ => apply negb_eqb_false in K end.
  repeat match goal with K : (_ =? _)%string = false |- _ => apply String.eqb_neq in K end.
  do 5 eexists. split_and!; try done; congruence.
Qed.

(** C28. Interoperation, under the conditions it needs: a sign token that the
    orchestrator builds from accepted parameters and issues is accepted by a signer
    that agrees with the issuer (keys, algorithm, issuer, audience, role, sandbox,
    wallet, network, epoch and longest lifetime: [agrees]) at any time from its issue to its expiry,
    provided the attempt limiter admits the attempt, the random part of the id has
    its sixteen bytes, the clocks are within range and the subject has at most 128
    bytes.  The orchestrator issues for subjects of up to 256 bytes; those tokens
    are refused ([long_subject_never_accepted]). *)
Theorem issued_token_accepted `{OrchExt, Jwt, !JwtLaws} (sha256 : string -> string)
    (iter : rate_map -> list (string * VerifyRateEntry)) env load_bundle load_vault input p
    (v : ActionTokenVerifier) (now now_jti now_ms n1 n2 n3 : Z) (random : string) (d d' : db)
    (tok : Token) (c : ActionClaims) (lim lim' : VerifyRateLimiter) :
  build_issue_params env load_bundle load_vault input = Ok p ->
  match ci_ttl_secs input with Some t => 0 <= t | None => True end ->
  issue_action_token now now_jti now_ms random p d = (d', Ok (tok, c)) ->
  agrees v p -> ip_op p = SignMultisig -> len (ip_subject p) <= 128 -> len random = 16 ->
  0 <= now -> now + 120 <= U64_MAX -> now_jti <= U64_MAX ->
  now <= n2 <= now + ip_ttl_secs p -> now <= n3 ->
  limiter_check sha256 iter (token_text tok) n1 lim = (lim', Ok tt) ->
  exists wf, (get_workflow_sync (ip_escrow_id_hex p) d).2 = Ok (Some wf) /\
  verify_sign_multisig sha256 iter v n1 n2 n3 tok (ip_escrow_id_hex p) (ip_txset_hash_hex p)
    (wi_snapshot_hash_hex wf) lim
  = (lim', Ok (MkVerified c (sign_req_id sha256 (ip_escrow_id_hex p) "sign_multisig"
                 (expected_sign_round (av_signer_role v)) (ip_txset_hash_hex p)))).
Proof.
  intros Hb Ht Hi Hv Hop Hsub Hr Hz Hm Hj Hn2 Hn3 Hlim.
  pose proof (build_issue_params_ok _ _ _ _ _ Ht Hb) as Hp.
  apply issue_claims in Hi as (wf & Hwf & _ & Hc & Henc). exists wf. split; [done|].
  unfold verify_sign_multisig, verify_common, sbind, slift. rewrite Hlim.
  rewrite (ag_algorithm _ _ Hv).
  erewrite (jwt_decode_encoded _ (ip_encoding_key p)); [|apply Hv|done|].
  - cbn [ok_or]. pose proof (check_claims_accepts sha256 p v now now_jti random _ c n3 Hp Hv Hc Hsub Hr
      Hj Hz Hm Hn3) as K. rewrite Hop in K. rewrite (ag_role _ _ Hv).
    destruct (ip_role p); exact (f_equal (pair lim') K).
  - destruct Hc as [Ci Ca _ _ _ _ _ _ _ _ _ _ _ (_ & Cn & Ce) _ _]. destruct Hp as [_ _ Hp _].
    pose proof (ag_skew _ _ Hv). split_and!; simpl.
    + by rewrite Ci, (ag_issuer _ _ Hv).
    + by rewrite Ca, (ag_audience _ _ Hv).
    + rewrite Ce. ints. lia.
    + rewrite Cn. lia.
Qed.

(** The orchestrator accepts subjects of up to 256 bytes, the signer only
    up to 128: a token issued with a longer subject is never accepted, by any
    signer holding the matching key, at any time. *)
Theorem long_subject_never_accepted `{OrchExt, Jwt, !JwtLaws} (sha256 : string -> string)
    (iter : rate_map -> list (string * VerifyRateEntry)) p (v : ActionTokenVerifier)
    (now now_jti now_ms n1 n2 n3 : Z) (random escrow txset snapshot : string) (d d' : db)
    (tok : Token) (c : ActionClaims) (lim : VerifyRateLimiter) :
  issue_action_token now now_jti now_ms random p d = (d', Ok (tok, c)) ->
  128 < len (ip_subject p) -> key_pair (ip_encoding_key p) (av_decoding_key v) ->
  av_algorithm v = ip_algorithm p ->
  forall vt, (verify_sign_multisig sha256 iter v n1 n2 n3 tok escrow txset snapshot lim).2 <> Ok vt.
Proof.
  intros (wf & _ & _ & Hc & Henc)%issue_claims Hsub Hk Halg vt Hv.
  destruct (verify_sign_multisig _ _ _ _ _ _ _ _ _ _ _) as [lim' r] eqn:E. simpl in Hv. subst r.
  apply verify_common_sound in E as [Hd Hb]. rewrite Halg in Hd.
  rewrite (jwt_decode_faithful _ _ _ _ _ _ _ _ Hk Henc Hd) in Hb.
  destruct Hb. destruct Hc. destruct tb_sub0. rewrite co_sub0 in *. lia.
Qed.

(** ** Instances *)

(** Stands in for SHA-256: 32 times the sum of the bytes. *)
Fixpoint byte_sum (s : string) : N :=
  match s with EmptyString => 0%N | String c s' => (Ascii.N_of_ascii c + byte_sum s')%N end.
Definition demo_sha (s : string) : string := repeat_byte (Ascii.ascii_of_N (byte_sum s mod 256)) 32.
Definition demo_req (round : string) : string :=
  sign_req_id demo_sha demo_id "sign_multisig" round demo_hash.
Definition demo_submit_claims : ActionClaims :=
  MkClaims "nexum" "sandbox:sandbox-1" "ops" "submit_multisig" "submit_multisig" "arbiter"
    "arbiter_submit" demo_id "wallet-1" "sandbox-1" demo_hash demo_hash "stagenet" None None
    1000 1000 1060 "jti" (Some "jti-1") (Some "jti-2") (Some (demo_req "arbiter_first"))
    (Some (demo_req "seller_second")).

Lemma verified_sign_token_bound_witness :
  exists lim' vt, @verify_sign_multisig demo_jwt demo_sha demo_iter demo_verifier 1001 1001 1001
    ("key", EdDSA, demo_claims "ops") demo_id demo_hash demo_hash (new_limiter 5 60 64)
      = (lim', Ok vt) /\ c_iss (vt_claims vt) = av_issuer demo_verifier.
Proof.
  eexists _, _. split; [vm_compute; reflexivity|].
  eapply (@verified_sign_token_bound demo_jwt demo_jwt_laws demo_sha demo_iter demo_verifier
            1001 1001 1001 ("key", EdDSA, demo_claims "ops") demo_id demo_hash demo_hash
            (new_limiter 5 60 64)).
  vm_compute. reflexivity.
Defined.

Lemma verified_submit_token_quorum_witness :
  exists lim' vt, @verify_submit_multisig demo_jwt demo_sha demo_iter demo_verifier 1001 1001 1001
    ("key", EdDSA, demo_submit_claims) demo_id demo_hash demo_hash (new_limiter 5 60 64)
      = (lim', Ok vt) /\
    exists h aj sj ar sr, hex_exact 64 demo_hash = Some h /\
      opt_non_blank (c_proof_arbiter_jti (vt_claims vt)) = Some aj /\
      opt_non_blank (c_proof_seller_jti (vt_claims vt)) = Some sj /\ aj <> sj /\
      opt_non_blank (c_proof_arbiter_req_id (vt_claims vt)) = Some ar /\
      opt_non_blank (c_proof_seller_req_id (vt_claims vt)) = Some sr /\
      hex_exact 64 ar = Some (sign_req_id demo_sha demo_id "sign_multisig" "arbiter_first" h) /\
      hex_exact 64 sr = Some (sign_req_id demo_sha demo_id "sign_multisig" "seller_second" h).
Proof.
  eexists _, _. split; [vm_compute; reflexivity|].
  eapply (@verified_submit_token_quorum demo_jwt demo_sha demo_iter demo_verifier
            1001 1001 1001 ("key", EdDSA, demo_submit_claims) demo_id demo_hash demo_hash
            (new_limiter 5 60 64)).
  vm_compute. reflexivity.
Defined.

Lemma demo_agrees : @agrees demo_jwt demo_verifier (demo_issue_params "ops").
Proof. constructor; done || lia. Qed.

Lemma issued_token_accepted_witness :
  exists wf lim', (@get_workflow_sync demo_ext demo_id demo_proposed).2 = Ok (Some wf) /\
  @verify_sign_multisig demo_jwt demo_sha demo_iter demo_verifier 1001 1050 1050
    ("key", EdDSA, demo_claims "ops") demo_id demo_hash (wi_snapshot_hash_hex wf)
    (new_limiter 5 60 64)
  = (lim', Ok (MkVerified (demo_claims "ops")
       (sign_req_id demo_sha demo_id "sign_multisig" "arbiter_first" demo_hash))).
Proof.
  edestruct (@issued_token_accepted demo_ext demo_jwt demo_jwt_laws demo_sha demo_iter (fun _ => None)
    (fun _ => Err (TokLoad "bundle")) (fun _ _ => Ok demo_vault) (demo_input "ops")
    (demo_issue_params "ops") demo_verifier 1000 1000 7 1001 1050 1050 demo_random demo_proposed
    demo_proposed ("key", EdDSA, demo_claims "ops") (demo_claims "ops") (new_limiter 5 60 64))
    as (wf & Hwf & Hv).
  - vm_compute; reflexivity.
  - simpl; lia.
  - vm_compute; reflexivity.
  - apply demo_agrees.
  - reflexivity.
  - vm_compute; discriminate.
  - reflexivity.
  - lia.
  - unfold U64_MAX; lia.
  - unfold U64_MAX; lia.
  - simpl; lia.
  - lia.
  - vm_compute; reflexivity.
  - eexists wf, _. split; [exact Hwf|exact Hv].
Defined.

Definition demo_long_subject : string := repeat_byte "s" 200.

Lemma long_subject_never_accepted_witness :
  is_ok (demo_params demo_long_subject) = true /\
  forall vt, (@verify_sign_multisig demo_jwt demo_sha demo_iter demo_verifier 1001 1050 1050
    ("key", EdDSA, demo_claims demo_long_subject) demo_id demo_hash demo_hash
    (new_limiter 5 60 64)).2 <> Ok vt.
Proof.
  split; [vm_compute; reflexivity|].
  eapply (@long_subject_never_accepted demo_ext demo_jwt demo_jwt_laws demo_sha demo_iter
    (demo_issue_params demo_long_subject) demo_verifier 1000 1000 7 1001 1050 1050 demo_random
    demo_id demo_hash demo_hash demo_proposed demo_proposed _ (demo_claims demo_long_subject)).
  - vm_compute; reflexivity.
  - vm_compute; reflexivity.
  - reflexivity.
  - reflexivity.
Defined.
