(* ===== verification/TokenLimiter.v ===== *)
(** * The attempt limiter in front of the token verifier

    Its memory is bounded, and within one window it admits exactly the first
    [max_attempts] attempts of every token as long as no entry is evicted. *)

From S2P Require Import Prelude RustString ActionToken TokenVerifier.
From Stdlib Require Import Sorting.Permutation.

(** The attempts of a run: digest of the token and time. *)
Notation attempt := (string * Z)%type.
Definition attempts_of (k : string) (l : list attempt) : Z :=
  Z.of_nat (length (List.filter (fun a => (a.1 =? k)%string) l)).

Section limiter.
Context (iter : rate_map -> list (string * VerifyRateEntry)).

(** A run of attempts with their outcomes. *)
Fixpoint run_checks (l : list attempt) (lim : VerifyRateLimiter)
    : VerifyRateLimiter * list (string * bool) :=
  match l with
  | [] => (lim, [])
  | (k, now) :: l' =>
      let '(lim1, r) := limiter_check_key iter k now lim in
      let '(lim2, rs) := run_checks l' lim1 in (lim2, (k, is_ok r) :: rs)
  end.

Definition admitted (k : string) (rs : list (string * bool)) : Z :=
  Z.of_nat (length (List.filter (fun r => (r.1 =? k)%string && r.2) rs)).

(** ** Memory *)

Section memory.
(** A [HashMap] iterates over its entries, each once. *)
Hypothesis iter_entries : forall m, Permutation (iter m) (map_to_list m).

Lemma min_by_in best l x :
  min_by_last_seen best l = Some x -> x ∈ l \/ best = Some x.
Proof.
  revert best. induction l as [|y l IH]; intros best; simpl; [by right|].
  destruct best as [b|]; intros Hx; apply IH in Hx as [Hx|Hx]; try (left; set_solver).
  case_match; simplify_eq; [left; set_solver|by right].
Qed.

Lemma min_by_some best l : is_Some best \/ l <> [] -> is_Some (min_by_last_seen best l).
Proof.
  revert best. induction l as [|y l IH]; intros best Hb; simpl; [by destruct Hb|].
  destruct best; apply IH; left; [case_match|]; by eexists.
Qed.

Lemma min_by_least best l x :
  min_by_last_seen best l = Some x ->
  (forall y, y ∈ l -> re_last_seen x.2 <= re_last_seen y.2) /\
  (forall b, best = Some b -> re_last_seen x.2 <= re_last_seen b.2).
Proof.
  revert best. induction l as [|y l IH]; intros best; simpl.
  - intros ->. split; [set_solver|]. intros b [= ->]. lia.
  - intros Hx. set (best' := match best with Some b =>
      if re_last_seen y.2 <? re_last_seen b.2 then Some y else Some b | None => Some y end).
    assert (min_by_last_seen best' l = Some x) as Hx' by (unfold best'; by destruct best).
    destruct (IH best' Hx') as [H1 H2]. unfold best' in H2. split.
    + intros z [->|Hz]%elem_of_cons; [|by apply H1].
      destruct best as [b|]; [|by apply H2].
      destruct (Z.ltb_spec (re_last_seen y.2) (re_last_seen b.2)); [by apply H2|].
      specialize (H2 b eq_refl). lia.
    + intros b ->. destruct (Z.ltb_spec (re_last_seen y.2) (re_last_seen b.2));
        [specialize (H2 y eq_refl); lia|by apply H2].
Qed.

(** The eviction removes one entry, the least recently seen. *)
Lemma evict_spec (m : rate_map) :
  m <> ∅ -> exists k e, m !! k = Some e /\ evict_oldest_entry iter m = delete k m /\
    forall k' e', m !! k' = Some e' -> re_last_seen e <= re_last_seen e'.
Proof.
  intros Hm. destruct (min_by_some None (iter m)) as [[k e] Hmin].
  { right. intros E. apply Hm, map_to_list_empty_iff, Permutation_nil. by rewrite <- E, iter_entries. }
  exists k, e. unfold evict_oldest_entry. rewrite Hmin. split_and!; [|done|].
  - apply min_by_in in Hmin as [Hin|?]; [|done]. rewrite iter_entries in Hin.
    by apply elem_of_map_to_list in Hin.
  - intros k' e' Hk'. apply min_by_least in Hmin as [Hl _]. apply (Hl (k', e')).
    rewrite iter_entries. by apply elem_of_map_to_list.
Qed.

Lemma filter_size (P : string * VerifyRateEntry -> Prop) `{!forall x, Decision (P x)} (m : rate_map) :
  (size (filter P m) <= size m)%nat.
Proof. apply map_subseteq_size, map_filter_subseteq. Qed.

Lemma check_key_size k now lim :
  1 <= rl_max_keys lim -> Z.of_nat (size (rl_state lim)) <= rl_max_keys lim ->
  Z.of_nat (size (rl_state (limiter_check_key iter k now lim).1)) <= rl_max_keys lim.
Proof.
  intros Hk Hs. unfold limiter_check_key.
  set (guard := limiter_cleaned iter lim k now).
  assert (Z.of_nat (size (<[k := MkRateEntry 0 0 0]> guard)) <= rl_max_keys lim) as Hg.
  { unfold guard, limiter_cleaned. set (g := filter _ (rl_state lim)).
    assert (Z.of_nat (size g) <= rl_max_keys lim) by (pose proof (filter_size
      (fun kv => sat_sub_u64 now (re_last_seen kv.2) < rl_window_secs lim) (rl_state lim)); unfold g; lia).
    destruct (bool_decide_reflect (is_Some (g !! k))) as [Hin|Hout]; cbn [negb andb].
    - rewrite map_size_insert_Some by done. lia.
    - destruct (Z.leb_spec (rl_max_keys lim) (Z.of_nat (size g))) as [Hfull|Hfree].
      + destruct (evict_spec g) as (k' & e' & Hk' & -> & _).
        { intros E. rewrite E, map_size_empty in Hfull. simpl in Hfull. lia. }
        assert (k <> k') by (intros ->; apply Hout; by eexists).
        rewrite map_size_insert_None, map_size_delete_Some;
          [|by eexists|rewrite lookup_delete_ne by done; by apply eq_None_not_Some].
        destruct (size g) eqn:E; [|lia]. apply map_size_empty_iff in E. by rewrite E in Hk'.
      + rewrite map_size_insert_None by (by apply eq_None_not_Some). lia. }
  rewrite map_size_insert in Hg.
  cbv zeta. destruct (rl_max_attempts lim <=? _); cbn [fst rl_state]; rewrite map_size_insert; done.
Qed.
End memory.

Lemma check_key_params k now lim :
  let lim' := (limiter_check_key iter k now lim).1 in
  rl_max_attempts lim' = rl_max_attempts lim /\ rl_window_secs lim' = rl_window_secs lim /\
  rl_max_keys lim' = rl_max_keys lim.
Proof. unfold limiter_check_key. cbv zeta. by destruct (rl_max_attempts lim <=? _). Qed.

(** ** Rate *)

Section window.
Context (t0 w attempts keys : Z).
Hypothesis attempts_pos : 1 <= attempts <= U32_MAX.

(** The limiter after the attempts [l], all in the window from [t0]. *)
Definition in_window (t : Z) : Prop := t0 <= t < t0 + w.
Record window_inv (l : list attempt) (lim : VerifyRateLimiter) : Prop := WindowInv {
  wi_params : rl_max_attempts lim = attempts /\ rl_window_secs lim = w /\ rl_max_keys lim = keys;
  wi_dom : forall k, is_Some (rl_state lim !! k) <-> k ∈ map fst l;
  wi_entry : forall k e, rl_state lim !! k = Some e ->
    in_window (re_window_start e) /\ in_window (re_last_seen e) /\
    re_count e = Z.min attempts (attempts_of k l);
}.

Lemma attempts_of_snoc k l a :
  attempts_of k (l ++ [a]) = attempts_of k l + (if (a.1 =? k)%string then 1 else 0).
Proof.
  unfold attempts_of. rewrite List.filter_app, length_app. destruct a as [k' t]. simpl.
  destruct (k' =? k)%string; simpl; lia.
Qed.

Lemma attempts_of_zero k l : k ∉ map fst l -> attempts_of k l = 0.
Proof.
  unfold attempts_of. intros Hk. induction l as [|[k' t] l IH]; simpl in *; [done|].
  destruct (String.eqb_spec k' k) as [->|]; [set_solver|]. apply IH. set_solver.
Qed.

(** No entry is stale, and there is room for a new key. *)
Lemma cleaned_id l lim k now :
  window_inv l lim -> in_window now ->
  (k ∈ map fst l \/ Z.of_nat (size (rl_state lim)) < keys) ->
  limiter_cleaned iter lim k now = rl_state lim.
Proof.
  intros [(Ha & Hw & Hk) Hd He] Hn Hroom. unfold limiter_cleaned.
  rewrite map_filter_id.
  - destruct Hroom as [Hin|Hlt].
    + apply Hd in Hin. by rewrite bool_decide_eq_true_2.
    + rewrite Hk, (proj2 (Z.leb_gt _ _)) by lia. by rewrite andb_false_r.
  - intros k' e Hk'. destruct (He k' e Hk') as (_ & Hls & _). simpl.
    unfold in_window in *. rewrite Hw. ints. lia.
Qed.

Lemma check_in_window l lim k now :
  window_inv l lim -> in_window now ->
  (k ∈ map fst l \/ Z.of_nat (size (rl_state lim)) < keys) ->
  window_inv (l ++ [(k, now)]) (limiter_check_key iter k now lim).1 /\
  is_ok (limiter_check_key iter k now lim).2 = (attempts_of k l <? attempts).
Proof.
  intros Hinv Hn Hroom. unfold limiter_check_key.
  rewrite (cleaned_id l lim k now Hinv Hn Hroom). destruct Hinv as [(Ha & Hw & Hk) Hd He].
  set (entry := match rl_state lim !! k with Some e => e | None => MkRateEntry now 0 now end).
  assert (in_window (re_window_start entry) /\ re_count entry = Z.min attempts (attempts_of k l))
    as [Hws Hc].
  { unfold entry. destruct (rl_state lim !! k) as [e|] eqn:E.
    - destruct (He k e E) as (? & _ & ?). done.
    - simpl. rewrite attempts_of_zero; [split; [done|lia]|].
      intros Hin. apply Hd in Hin as [? ?]. congruence. }
  assert (rl_window_secs lim <=? sat_sub_u64 now (re_window_start entry) = false) as ->.
  { unfold in_window in *. rewrite Hw. apply Z.leb_gt. ints. lia. }
  cbv zeta. cbn [re_count re_window_start re_last_seen].
  rewrite Ha, Hc. assert (0 <= attempts_of k l) by (unfold attempts_of; lia).
  assert ((attempts <=? Z.min attempts (attempts_of k l)) = negb (attempts_of k l <? attempts)) as ->.
  { destruct (Z.ltb_spec (attempts_of k l) attempts); simpl; [apply Z.leb_gt; lia|apply Z.leb_le; lia]. }
  assert (forall c, c = Z.min attempts (attempts_of k l + 1) ->
    window_inv (l ++ [(k, now)]) (MkLimiter (<[k := MkRateEntry (re_window_start entry) c now]>
      (rl_state lim)) attempts (rl_window_secs lim) (rl_max_keys lim))) as Hput.
  { intros c ->. constructor; [done|..]; cbn [rl_state].
    - intros k'. rewrite map_app, lookup_insert_is_Some', Hd, elem_of_app. simpl.
      rewrite list_elem_of_singleton. naive_solver.
    - intros k' e'. rewrite lookup_insert_Some, attempts_of_snoc. simpl.
      intros [[<- <-]|[Hne He']]; simpl; [rewrite String.eqb_refl; done|].
      rewrite (proj2 (String.eqb_neq _ _)), Z.add_0_r by done. by apply He. }
  destruct (Z.ltb_spec (attempts_of k l) attempts); cbn [negb fst snd].
  - split; [|done]. apply Hput. unfold sat_add_u32. lia.
  - split; [|done]. apply Hput. lia.
Qed.

(** The distinct keys of a run fit in the map. *)
Lemma window_size l lim :
  window_inv l lim -> size (rl_state lim) = size (list_to_set (map fst l) : gset string).
Proof.
  intros [_ Hd _]. rewrite <- size_dom. apply set_size_proper. intros k.
  by rewrite elem_of_dom, elem_of_list_to_set, Hd.
Qed.

Lemma admitted_cons k k' b rs :
  admitted k ((k', b) :: rs) = (if (k' =? k)%string && b then 1 else 0) + admitted k rs.
Proof. unfold admitted. simpl. destruct ((k' =? k)%string && b); simpl length; lia. Qed.

Lemma run_checks_window l pre lim k :
  window_inv pre lim -> Forall (fun a => in_window a.2) l ->
  Z.of_nat (size (list_to_set (map fst (pre ++ l)) : gset string)) <= keys ->
  window_inv (pre ++ l) (run_checks l lim).1 /\
  admitted k (run_checks l lim).2
    = Z.min attempts (attempts_of k (pre ++ l)) - Z.min attempts (attempts_of k pre).
Proof.
  revert pre lim. induction l as [|[k' now] l IH]; intros pre lim Hinv Hl Hk; simpl.
  { rewrite app_nil_r in *. split; [done|]. unfold admitted. simpl. lia. }
  apply Forall_cons in Hl as [Hn Hl]. simpl in Hn.
  destruct (check_in_window pre lim k' now Hinv Hn) as [Hinv' Hok].
  { destruct (decide (k' ∈ map fst pre)) as [?|Hnew]; [by left|right].
    rewrite (window_size _ _ Hinv). eapply Z.lt_le_trans; [|exact Hk]. apply Nat2Z.inj_lt.
    apply subset_size. rewrite map_app, list_to_set_app. simpl. set_solver. }
  destruct (limiter_check_key iter k' now lim) as [lim1 r]. simpl in *.
  specialize (IH (pre ++ [(k', now)]) lim1 Hinv' Hl). rewrite <- app_assoc in IH. simpl in IH.
  destruct (IH Hk) as [IH1 IH2]. destruct (run_checks l lim1) as [lim2 rs]. simpl in *.
  split; [done|]. rewrite admitted_cons, IH2, attempts_of_snoc, Hok. simpl.
  assert (0 <= attempts_of k pre) by (unfold attempts_of; lia).
  destruct (String.eqb_spec k' k) as [->|]; simpl; [|lia].
  destruct (Z.ltb_spec (attempts_of k pre) attempts); lia.
Qed.
End window.
End limiter.

Lemma new_limiter_inv t0 max_attempts window max_keys :
  window_inv t0 (Z.max window 1) (Z.max max_attempts 1) (Z.max max_keys 64) []
    (new_limiter max_attempts window max_keys).
Proof.
  constructor; [done|..].
  - intros k. simpl. rewrite lookup_empty, elem_of_nil. split; [by intros [? ?]|done].
  - intros k e. simpl. by rewrite lookup_empty.
Qed.

(** Within one window, as long as the distinct tokens fit in the
    limiter's table, every token gets exactly [min(max_attempts, attempts)]
    verification attempts, whatever the other tokens do. *)
Theorem limiter_window_exact (iter : rate_map -> list (string * VerifyRateEntry))
    (max_attempts window max_keys t0 : Z) (l : list attempt) (k : string) :
  max_attempts <= U32_MAX ->
  Forall (fun a => t0 <= a.2 < t0 + Z.max window 1) l ->
  Z.of_nat (size (list_to_set (map fst l) : gset string)) <= Z.max max_keys 64 ->
  admitted k (run_checks iter l (new_limiter max_attempts window max_keys)).2
    = Z.min (Z.max max_attempts 1) (attempts_of k l).
Proof.
  intros Hm Hl Hk.
  destruct (run_checks_window iter t0 (Z.max window 1) (Z.max max_attempts 1) (Z.max max_keys 64)
    ltac:(unfold U32_MAX in *; lia) l [] _ k (new_limiter_inv _ _ _ _) Hl Hk) as [_ ->].
  unfold attempts_of. simpl. lia.
Qed.

Lemma limiter_window_exact_witness :
  admitted "a" (run_checks map_to_list [("a", 100); ("b", 101); ("a", 101); ("a", 102)]
                  (new_limiter 2 60 64)).2 = 2.
Proof.
  rewrite (limiter_window_exact map_to_list 2 60 64 100 _ "a").
  - reflexivity.
  - unfold U32_MAX; lia.
  - repeat constructor; simpl; lia.
  - vm_compute. discriminate.
Defined.

(** The limiter's memory is bounded: no sequence of attempts, however
    many different tokens it uses, makes the table exceed [max_keys] entries. *)
Theorem limiter_memory_bounded (iter : rate_map -> list (string * VerifyRateEntry))
    (max_attempts window max_keys : Z) (l : list attempt) :
  (forall m, Permutation (iter m) (map_to_list m)) ->
  Z.of_nat (size (rl_state (run_checks iter l (new_limiter max_attempts window max_keys)).1))
    <= Z.max max_keys 64.
Proof.
  intros Hit. set (lim := new_limiter _ _ _).
  assert (Z.of_nat (size (rl_state lim)) <= Z.max max_keys 64 /\ rl_max_keys lim = Z.max max_keys 64)
    as [Hs Hk] by (split; [unfold lim; simpl; rewrite map_size_empty; lia|done]).
  clearbody lim. revert lim Hs Hk. induction l as [|[k now] l IH]; intros lim Hs Hk; simpl; [done|].
  pose proof (check_key_size iter Hit k now lim) as Hc. rewrite Hk in Hc.
  pose proof (check_key_params iter k now lim) as (_ & _ & Hk'). cbv zeta in Hk'.
  destruct (limiter_check_key iter k now lim) as [lim1 r]. simpl in *.
  specialize (IH lim1). destruct (run_checks iter l lim1) as [lim2 rs]. simpl in *.
  apply IH; [apply Hc; lia|congruence].
Qed.

Lemma limiter_memory_bounded_witness :
  Z.of_nat (size (rl_state (run_checks map_to_list [("a", 1); ("b", 2); ("c", 3)]
                              (new_limiter 2 60 0)).1)) <= 64.
Proof. apply (limiter_memory_bounded map_to_list 2 60 0). intros m. reflexivity. Defined.
