(* ===== verification/Json.v ===== *)
(** * Canonical JSON

    [canonicalize_json], which [nxms-signer/src/snapshot.rs] and
    [nxms-transport/src/admission.rs] (and [trust.rs]) share verbatim: objects
    are rewritten with their keys in ascending order before they are hashed.
    A [serde_json::Map] is the list of its entries in iteration order. *)

From S2P Require Import Prelude RustString Sql.
From stdpp Require Import sorting.
From Stdlib Require Import Sorting.Permutation Sorting.Sorted.

Inductive json : Type :=
| JNull
| JBool (b : bool)
| JNumber (repr : string)
| JString (s : string)
| JArray (items : list json)
| JObject (entries : list (string * json)).

(** Byte order on the keys, as [keys.sort()]. *)
Definition entry_le (a b : string * json) : bool := (String.leb a.1 b.1)%string.

Fixpoint canonicalize_json (v : json) : json :=
  match v with
  | JObject entries =>
      JObject (order_by entry_le (map (fun e => (e.1, canonicalize_json e.2)) entries))
  | JArray items => JArray (map canonicalize_json items)
  | _ => v
  end.

(** ** Induction under lists *)

Section json_induction.
Context (P : json -> Prop).
Hypothesis Pnull : P JNull.
Hypothesis Pbool : forall b, P (JBool b).
Hypothesis Pnum : forall n, P (JNumber n).
Hypothesis Pstr : forall s, P (JString s).
Hypothesis Parr : forall l, Forall P l -> P (JArray l).
Hypothesis Pobj : forall l, Forall (fun e => P e.2) l -> P (JObject l).

Fixpoint json_ind' (v : json) : P v :=
  match v with
  | JNull => Pnull
  | JBool b => Pbool b
  | JNumber n => Pnum n
  | JString s => Pstr s
  | JArray l => Parr l ((fix go (l : list json) : Forall P l :=
      match l with [] => Forall_nil_2 P | x :: l' => Forall_cons_2 _ _ _ (json_ind' x) (go l') end) l)
  | JObject l => Pobj l ((fix go (l : list (string * json)) : Forall (fun e => P e.2) l :=
      match l with [] => Forall_nil_2 _ | x :: l' => Forall_cons_2 _ _ _ (json_ind' x.2) (go l') end) l)
  end.
End json_induction.

(** ** Equality up to the order of keys *)

Inductive json_eq : json -> json -> Prop :=
| JE_refl v : json_eq v v
| JE_array l k : Forall2 json_eq l k -> json_eq (JArray l) (JArray k)
| JE_object l k m :
    NoDup (map fst l) -> Permutation m k ->
    Forall2 (fun a b => a.1 = b.1 /\ json_eq a.2 b.2) l m -> json_eq (JObject l) (JObject k).

Lemma leb_total a b : String.leb a b = false -> String.leb b a = true.
Proof. intros E. destruct (String.leb_total a b); congruence. Qed.

Lemma leb_cons c s d t :
  String.leb (String c s) (String d t)
  = match Ascii.compare c d with Lt => true | Gt => false | Eq => String.leb s t end.
Proof. unfold String.leb. simpl. by destruct (Ascii.compare c d). Qed.

Lemma leb_trans a b c : String.leb a b = true -> String.leb b c = true -> String.leb a c = true.
Proof.
  revert b c. induction a as [|x a IH]; intros [|y b] [|z c]; try done.
  rewrite !leb_cons. unfold Ascii.compare.
  destruct (N.compare_spec (Ascii.N_of_ascii x) (Ascii.N_of_ascii y)) as [E1|L1|G1];
    destruct (N.compare_spec (Ascii.N_of_ascii y) (Ascii.N_of_ascii z)) as [E2|L2|G2]; try done;
    intros H1 H2;
    destruct (N.compare_spec (Ascii.N_of_ascii x) (Ascii.N_of_ascii z)) as [E3|L3|G3];
    try done; try (exfalso; lia). by eapply IH.
Qed.

Lemma sorted_entries l : StronglySorted (fun a b => entry_le a b = true) (order_by entry_le l).
Proof.
  apply order_by_sorted; unfold entry_le.
  - intros a b. apply leb_total.
  - intros a b c. apply leb_trans.
Qed.

(** With distinct keys the sorted form does not depend on the order. *)
Lemma order_entries_perm l k :
  NoDup (map fst l) -> Permutation l k -> order_by entry_le l = order_by entry_le k.
Proof.
  intros Hnd Hp.
  apply (StronglySorted_unique_strong (fun a b => entry_le a b = true));
    [|apply sorted_entries..|by rewrite !order_by_perm].
  intros x y Hx Hy H1 H2. apply elem_of_order_by in Hx, Hy. rewrite <- Hp in Hy.
  eapply unique_row; [exact Hnd|done..|]. by apply String.leb_antisym.
Qed.

Definition canonical_entry (e : string * json) : string * json := (e.1, canonicalize_json e.2).

Lemma canonicalize_eq v w : json_eq v w -> canonicalize_json v = canonicalize_json w.
Proof.
  revert w. induction v as [| | | |l IH|l IH] using json_ind'; intros w Hw;
    inversion Hw as [|? k H2|? k m Hnd Hp H2]; subst; try done; simpl; f_equal.
  - clear Hw. induction H2 as [|x y l k Hxy Hlk IHl]; [done|]. simpl.
    apply Forall_cons in IH as [Hx IH]. by rewrite (Hx y Hxy), IHl.
  - assert (map canonical_entry l = map canonical_entry m) as E.
    { clear -IH H2. induction H2 as [|x y l k [Hk Hxy] Hlk IHl]; [done|]. simpl.
      apply Forall_cons in IH as [Hx IH]. unfold canonical_entry at 1 3.
      by rewrite Hk, (Hx y.2 Hxy), IHl. }
    change (order_by entry_le (map canonical_entry l) = order_by entry_le (map canonical_entry k)).
    rewrite E.
    apply order_entries_perm; [|by apply Permutation_map].
    rewrite <- E, map_map. by rewrite (map_ext _ fst).
Qed.

#[global] Instance canonicalize_proper : Proper (json_eq ==> eq) canonicalize_json.
Proof. intros v w. apply canonicalize_eq. Qed.

(** No object has two entries with the same key. *)
Inductive json_wf : json -> Prop :=
| WF_null : json_wf JNull
| WF_bool b : json_wf (JBool b)
| WF_number n : json_wf (JNumber n)
| WF_string s : json_wf (JString s)
| WF_array l : Forall json_wf l -> json_wf (JArray l)
| WF_object l : NoDup (map fst l) -> Forall (fun e => json_wf e.2) l -> json_wf (JObject l).

(** The canonical form is the same document. *)
Lemma canonicalize_same v : json_wf v -> json_eq v (canonicalize_json v).
Proof.
  induction v as [| | | |l IH|l IH] using json_ind'; intros Hw; try apply JE_refl;
    inversion Hw as [| | | |? Hl|? Hnd Hl]; subst.
  - simpl. apply JE_array. apply Forall2_fmap_r, Forall_Forall2_diag.
    rewrite Forall_forall in *. auto.
  - simpl. eapply JE_object; [done|symmetry; apply order_by_perm|].
    apply Forall2_fmap_r, Forall_Forall2_diag. rewrite Forall_forall in *. auto.
Qed.

(** * Orders

    [Ord] as Rust derives it: a comparison with its laws, for strings (by
    bytes), integers and, lexicographically, tuples; sorting by a lawful
    comparison does not depend on the order of the input. *)

(** What the code relies on in [Ord]. *)
Class Ord (A : Type) : Type := {
  cmp : A -> A -> comparison;
  cmp_eq : forall a b, cmp a b = Eq <-> a = b;
  cmp_opp : forall a b, cmp b a = CompOpp (cmp a b);
  cmp_lt_trans : forall a b c, cmp a b = Lt -> cmp b c = Lt -> cmp a c = Lt;
}.

Definition le {A} `{Ord A} (a b : A) : bool := match cmp a b with Gt => false | _ => true end.

#[export] Instance Z_ord : Ord Z.
Proof.
  refine (Build_Ord Z Z.compare _ _ _).
  - apply Z.compare_eq_iff.
  - intros a b. apply Z.compare_antisym.
  - intros a b c. rewrite !Z.compare_lt_iff. lia.
Defined.

Lemma leb_compare a b : String.leb a b = match String.compare a b with Gt => false | _ => true end.
Proof. unfold String.leb. by destruct (String.compare a b). Qed.

#[export] Instance string_ord : Ord string.
Proof.
  refine (Build_Ord string String.compare _ _ _).
  - intros a b. split; [apply String.compare_eq_iff|]. intros ->. destruct (String.compare b b) eqn:E; [done|..];
      pose proof (String.compare_antisym b b) as Ha; rewrite E in Ha; done.
  - intros a b. apply String.compare_antisym.
  - intros a b c Hab Hbc. pose proof (leb_trans a b c) as Ht. rewrite !leb_compare, Hab, Hbc in Ht.
    destruct (String.compare a c) eqn:Eac; [|done|by specialize (Ht eq_refl eq_refl)].
    apply String.compare_eq_iff in Eac as ->. rewrite String.compare_antisym, Hbc in Hab. done.
Defined.

#[export] Instance pair_ord {A B} `{Ord A} `{Ord B} : Ord (A * B).
Proof.
  refine (Build_Ord (A * B) (fun p q => match cmp p.1 q.1 with Eq => cmp p.2 q.2 | c => c end) _ _ _).
  - intros [a b] [c d]. simpl. destruct (cmp a c) eqn:E.
    + apply cmp_eq in E as ->. rewrite cmp_eq. naive_solver.
    + split; [done|]. intros [= -> ->]. by rewrite (proj2 (cmp_eq c c) eq_refl) in E.
    + split; [done|]. intros [= -> ->]. by rewrite (proj2 (cmp_eq c c) eq_refl) in E.
  - intros [a b] [c d]. simpl. rewrite (cmp_opp a c). destruct (cmp a c); simpl; [apply cmp_opp|done|done].
  - intros [a1 a2] [b1 b2] [c1 c2]. simpl. destruct (cmp a1 b1) eqn:E1; [|destruct (cmp b1 c1) eqn:E2|done].
    + apply cmp_eq in E1 as ->. destruct (cmp b1 c1); [apply cmp_lt_trans|done|done].
    + apply cmp_eq in E2 as ->. by rewrite E1.
    + by rewrite (cmp_lt_trans _ _ _ E1 E2).
    + done.
Defined.

Section sorting.
Context {A : Type} `{Ord A}.

Lemma le_total a b : le a b = false -> le b a = true.
Proof. unfold le. rewrite (cmp_opp a b). by destruct (cmp a b). Qed.

Lemma le_trans a b c : le a b = true -> le b c = true -> le a c = true.
Proof.
  unfold le. destruct (cmp a b) eqn:E1; [|destruct (cmp b c) eqn:E2|done].
  - by apply cmp_eq in E1 as ->.
  - apply cmp_eq in E2 as ->. by rewrite E1.
  - by rewrite (cmp_lt_trans _ _ _ E1 E2).
  - done.
Qed.

Lemma le_antisym a b : le a b = true -> le b a = true -> a = b.
Proof.
  unfold le. rewrite (cmp_opp a b). destruct (cmp a b) eqn:E; [by intros; apply cmp_eq|done|done].
Qed.

(** [sort_by] on a key that determines the element. *)
Lemma sort_by_perm {R} (key : R -> A) `{!Inj (=) (=) key} (l k : list R) :
  Permutation l k -> order_by (fun a b => le (key a) (key b)) l = order_by (fun a b => le (key a) (key b)) k.
Proof.
  intros Hp. apply (StronglySorted_unique_strong (fun a b => le (key a) (key b) = true)).
  - intros a b _ _ H1 H2. apply (inj key). by apply le_antisym.
  - apply order_by_sorted; intros *; [apply le_total|apply le_trans].
  - apply order_by_sorted; intros *; [apply le_total|apply le_trans].
  - by rewrite !order_by_perm.
Qed.
End sorting.
