(* ===== verification/Wire.v ===== *)
(** * The wire format

    [crates/nxms-transport/src/wire.rs] and [security.rs]: the envelope and
    payload of a message, their validation, and the comparison of secrets. *)

From S2P Require Import Prelude RustString Sql.

(** ** Data *)

Definition NXMS_PROTO_V1 : string := "NXMS/1".
Definition ESCROW_APP_PROTO_V1 : string := "ESCROW/1".
Definition NXMS_ESCROW_ID_HEX_LEN : Z := 32.
Definition NXMS_MAX_PEER_ID_LEN : Z := 64.
Definition NXMS_WIRE_KEM_ID_V1 : string := "FrodoKEM-640-SHAKE".
Definition NXMS_WIRE_SIG_ID_V1 : string := "Falcon-1024-CT".
Definition NXMS_WIRE_MAX_PAYLOAD : Z := 16777216.
Definition NXMS_WIRE_MAX_KEM_CT_LEN : Z := 32768.
Definition NXMS_WIRE_NONCE_LEN : Z := 24.
Definition NXMS_WIRE_TAG_LEN : Z := 32.
Definition NXMS_WIRE_MAX_SIG_LEN : Z := 4096.

Inductive MsgType : Type :=
| PrepareInfo | MakeInfo | ExchangeRound1 | ExchangeRound2 | ExportInfoReq | ExportInfoResp
| TxSignReq | TxSignResp | MsgError.

Record NxmsEnvelope : Type := MkEnvelope {
  ev_proto : string;
  ev_kem_id : string;
  ev_sig_id : string;
  ev_msg_type : MsgType;
  ev_escrow_id_hex : string;
  ev_from : string;
  ev_to : string;
  ev_seq : Z;
  ev_kem_ct_b64 : string;
  ev_nonce_b64 : string;
  ev_ciphertext_b64 : string;
  ev_tag_b64 : string;
  ev_sig_b64 : string;
}.

Record NxmsPayload : Type := MkPayload {
  pl_app_proto : string;
  pl_msg_type : MsgType;
  pl_escrow_id_hex : string;
  pl_from : string;
  pl_to : string;
  pl_seq : Z;
  pl_data : string;
}.

Inductive EscrowAction : Type := Release | Refund.
#[global] Instance EscrowAction_eq_dec : EqDecision EscrowAction.
Proof. solve_decision. Defined.

Inductive WireError : Type :=
| WUnsupportedAppProto | WProto | WKemId | WSigId
| WFrom (why : string) | WTo (why : string) | WEscrowId (why : string)
| WSeqZero | WDataEmpty | WMissingCrypto
| WTooLong (label : string) | WLimitOverflow (label : string)
| WMismatch (field : string).

(** ** Fields *)

Definition msg_type_key (t : MsgType) : string :=
  match t with
  | PrepareInfo => "prepare_info"
  | MakeInfo => "make_info"
  | ExchangeRound1 => "exchange_round1"
  | ExchangeRound2 => "exchange_round2"
  | ExportInfoReq => "export_info_req"
  | ExportInfoResp => "export_info_resp"
  | TxSignReq => "tx_sign_req"
  | TxSignResp => "tx_sign_resp"
  | MsgError => "error"
  end.

Definition is_peer_byte (c : ascii) : bool :=
  is_ascii_lower c || is_ascii_upper c || is_ascii_digit c || (byte_of c =? 95) || (byte_of c =? 45).

Definition validate_peer_id (value : string) : result string unit :=
  let v := trim value in
  let? _ := fail_if (is_empty v) "empty" in
  let? _ := fail_if (NXMS_MAX_PEER_ID_LEN <? len v) "too long" in
  fail_if (negb (sall is_peer_byte v)) "invalid characters".

Definition validate_hex (value : string) (expected_len : Z) : result string unit :=
  let v := trim value in
  let? _ := fail_if (negb (len v =? expected_len)) "invalid length" in
  fail_if (negb (sall is_ascii_hexdigit v)) "non-hex characters".

(** [usize] has 64 bits. *)
Definition max_b64_len_for_decoded (max_decoded_len : Z) : option Z :=
  if U64_MAX <? max_decoded_len + 2 then None
  else let quads := (max_decoded_len + 2) / 3 in
       if U64_MAX <? quads * 4 then None else Some (quads * 4).

Definition validate_b64_field_len (label value : string) (max_decoded_len : Z)
    : result WireError unit :=
  let? max_b64_len := ok_or (max_b64_len_for_decoded max_decoded_len) (WLimitOverflow label) in
  fail_if (max_b64_len <? len value) (WTooLong label).

(** ** Messages *)

(** [NxmsEnvelope::validate_basic] *)
Definition validate_envelope (e : NxmsEnvelope) : result WireError unit :=
  let? _ := fail_if (negb (ev_proto e =? NXMS_PROTO_V1)%string) WProto in
  let? _ := fail_if (negb (ev_kem_id e =? NXMS_WIRE_KEM_ID_V1)%string) WKemId in
  let? _ := fail_if (negb (ev_sig_id e =? NXMS_WIRE_SIG_ID_V1)%string) WSigId in
  let? _ := map_err WFrom (validate_peer_id (ev_from e)) in
  let? _ := map_err WTo (validate_peer_id (ev_to e)) in
  let? _ := map_err WEscrowId (validate_hex (ev_escrow_id_hex e) NXMS_ESCROW_ID_HEX_LEN) in
  let? _ := fail_if (ev_seq e =? 0) WSeqZero in
  let? _ := fail_if (is_empty (trim (ev_kem_ct_b64 e)) || is_empty (trim (ev_nonce_b64 e))
                     || is_empty (trim (ev_ciphertext_b64 e)) || is_empty (trim (ev_tag_b64 e))
                     || is_empty (trim (ev_sig_b64 e))) WMissingCrypto in
  let? _ := validate_b64_field_len "kem_ct_b64" (ev_kem_ct_b64 e) NXMS_WIRE_MAX_KEM_CT_LEN in
  let? _ := validate_b64_field_len "nonce_b64" (ev_nonce_b64 e) NXMS_WIRE_NONCE_LEN in
  let? _ := validate_b64_field_len "ciphertext_b64" (ev_ciphertext_b64 e) NXMS_WIRE_MAX_PAYLOAD in
  let? _ := validate_b64_field_len "tag_b64" (ev_tag_b64 e) NXMS_WIRE_TAG_LEN in
  validate_b64_field_len "sig_b64" (ev_sig_b64 e) NXMS_WIRE_MAX_SIG_LEN.

(** [NxmsPayload::validate_basic] *)
Definition validate_payload (p : NxmsPayload) : result WireError unit :=
  let? _ := fail_if (negb (pl_app_proto p =? ESCROW_APP_PROTO_V1)%string) WUnsupportedAppProto in
  let? _ := map_err WFrom (validate_peer_id (pl_from p)) in
  let? _ := map_err WTo (validate_peer_id (pl_to p)) in
  let? _ := map_err WEscrowId (validate_hex (pl_escrow_id_hex p) NXMS_ESCROW_ID_HEX_LEN) in
  let? _ := fail_if (pl_seq p =? 0) WSeqZero in
  fail_if (is_empty (trim (pl_data p))) WDataEmpty.

Definition validate_matches_envelope (p : NxmsPayload) (e : NxmsEnvelope) : result WireError unit :=
  let? _ := validate_payload p in
  let? _ := validate_envelope e in
  let? _ := fail_if (negb (pl_escrow_id_hex p =? ev_escrow_id_hex e)%string) (WMismatch "escrow_id") in
  let? _ := fail_if (negb (pl_from p =? ev_from e)%string) (WMismatch "from") in
  let? _ := fail_if (negb (pl_to p =? ev_to e)%string) (WMismatch "to") in
  let? _ := fail_if (negb (pl_seq p =? ev_seq e)) (WMismatch "seq") in
  fail_if (negb (msg_type_key (pl_msg_type p) =? msg_type_key (ev_msg_type e))%string)
    (WMismatch "msg_type").

(** ** Comparison of secrets, [security.rs] *)

(** A zeroed buffer of [n] bytes with the string copied to its front. *)
Definition padded (n : nat) (s : string) : list Z :=
  map byte_of (bytes_of s) ++ replicate (n - String.length s) 0.

Definition timing_safe_eq_fixed (n : nat) (a b : string) : bool :=
  if (Z.of_nat n <? len a) || (Z.of_nat n <? len b) then false
  else
    let a_buf := padded n a in
    let b_buf := padded n b in
    let diff := foldl (fun diff idx =>
        Z.lor diff (Z.lxor (default 0 (a_buf !! idx)) (default 0 (b_buf !! idx))))
      (Z.lxor (len a) (len b)) (seq 0 n) in
    diff =? 0.

(** ** Lemmas *)

Lemma msg_type_key_inj t u : msg_type_key t = msg_type_key u -> t = u.
Proof. by destruct t, u. Qed.

Lemma fold_lor_zero {A} (f : A -> Z) l d :
  0 <= d -> (forall x, 0 <= f x) ->
  foldl (fun d x => Z.lor d (f x)) d l = 0 <-> d = 0 /\ Forall (fun x => f x = 0) l.
Proof.
  intros Hd Hf. revert d Hd. induction l as [|x l IH]; intros d Hd; simpl.
  - rewrite Forall_nil. naive_solver.
  - rewrite IH by (apply Z.lor_nonneg; auto). rewrite Forall_cons, Z.lor_eq_0_iff. tauto.
Qed.

Lemma byte_of_range c : 0 <= byte_of c < 256.
Proof. unfold byte_of. pose proof (Ascii.N_ascii_bounded c). lia. Qed.

Lemma byte_of_inj c d : byte_of c = byte_of d -> c = d.
Proof.
  unfold byte_of. intros E. rewrite <- (Ascii.ascii_N_embedding c), <- (Ascii.ascii_N_embedding d).
  f_equal. lia.
Qed.

Lemma padded_length n s : (String.length s <= n)%nat -> length (padded n s) = n.
Proof. intros Hs. unfold padded. rewrite length_app, length_map, length_bytes, length_replicate. lia. Qed.

Lemma padded_inj n a b :
  String.length a = String.length b -> padded n a = padded n b -> a = b.
Proof.
  intros Hl E. unfold padded in E. apply app_inj_1 in E as [E _]; [|by rewrite !length_map, !length_bytes].
  rewrite <- (of_bytes_of a), <- (of_bytes_of b). f_equal.
  clear -E. revert E. generalize (bytes_of b). induction (bytes_of a) as [|x l IH]; intros [|y k] E;
    simplify_eq/=; [done|]. f_equal; [by apply byte_of_inj|by apply IH].
Qed.

Lemma padded_nonneg n s i : 0 <= default 0 (padded n s !! i).
Proof.
  destruct (padded n s !! i) as [x|] eqn:E; simpl; [|lia]. apply list_elem_of_lookup_2 in E.
  unfold padded in E. apply elem_of_app in E as [E|E].
  - apply list_elem_of_fmap in E as (c & -> & _). apply byte_of_range.
  - apply elem_of_replicate in E as [-> _]. lia.
Qed.

Lemma timing_safe_eq_spec n a b :
  timing_safe_eq_fixed n a b = true <-> (String.length a <= n)%nat /\ a = b.
Proof.
  unfold timing_safe_eq_fixed, len.
  destruct (Z.ltb_spec (Z.of_nat n) (Z.of_nat (String.length a))); simpl; [split; [done|lia]|].
  destruct (Z.ltb_spec (Z.of_nat n) (Z.of_nat (String.length b))).
  { split; [done|]. intros [? ->]. lia. }
  rewrite Z.eqb_eq, (fold_lor_zero (fun idx =>
    Z.lxor (default 0 (padded n a !! idx)) (default 0 (padded n b !! idx)))).
  - rewrite Z.lxor_eq_0_iff, Forall_forall. split.
    + intros [Hl Hi]. split; [lia|]. apply (padded_inj n); [lia|].
      apply list_eq_same_length with n; [apply padded_length; lia..|].
      intros i x y Hlt Hx Hy. specialize (Hi i). rewrite Hx, Hy in Hi. simpl in Hi.
      apply Z.lxor_eq_0_iff, Hi, elem_of_seq. lia.
    + intros [_ ->]. split; [done|]. intros i _. apply Z.lxor_nilpotent.
  - apply Z.lxor_nonneg. lia.
  - intros i. apply Z.lxor_nonneg. split; intros; apply padded_nonneg.
Qed.

Lemma trim_cons_ws c s : ws1 c = true -> trim (String c s) = trim s.
Proof. intros Hc. unfold trim, trim_start_bytes, bytes_of. simpl. by rewrite Hc. Qed.

Lemma max_b64_len_spec n :
  0 <= n -> n + 2 <= U64_MAX -> (n + 2) / 3 * 4 <= U64_MAX ->
  max_b64_len_for_decoded n = Some ((n + 2) / 3 * 4).
Proof.
  intros H0 H1 H2. unfold max_b64_len_for_decoded.
  by rewrite (proj2 (Z.ltb_ge _ _)), (proj2 (Z.ltb_ge _ _)).
Qed.

(** What the receiver of a message knows about a peer name, a hex field and a
    base64 field once they have been validated. *)
Definition peer_id_ok (v : string) : Prop :=
  trim v <> "" /\ len (trim v) <= 64 /\ sall is_peer_byte (trim v) = true.
Definition hex_field_ok (v : string) (n : Z) : Prop :=
  len (trim v) = n /\ sall is_ascii_hexdigit (trim v) = true.

Lemma validate_peer_id_iff v : validate_peer_id v = Ok tt <-> peer_id_ok v.
Proof.
  unfold validate_peer_id, peer_id_ok. cbv zeta.
  by rewrite !seq_ok, !fail_if_ok, negb_false_iff, is_empty_false, Z.ltb_ge.
Qed.

Lemma validate_hex_iff v n : validate_hex v n = Ok tt <-> hex_field_ok v n.
Proof.
  unfold validate_hex, hex_field_ok. cbv zeta.
  by rewrite seq_ok, !fail_if_ok, !negb_false_iff, Z.eqb_eq.
Qed.

Lemma validate_b64_iff label v n :
  0 <= n <= NXMS_WIRE_MAX_PAYLOAD ->
  validate_b64_field_len label v n = Ok tt <-> len v <= (n + 2) / 3 * 4.
Proof.
  intros Hn. unfold NXMS_WIRE_MAX_PAYLOAD in Hn. unfold validate_b64_field_len.
  assert ((n + 2) / 3 <= n + 2) by (apply Z.div_le_upper_bound; lia).
  rewrite max_b64_len_spec by (unfold U64_MAX; lia). simpl.
  by rewrite fail_if_ok, Z.ltb_ge.
Qed.

(** A well-formed envelope. *)
Record envelope_ok (e : NxmsEnvelope) : Prop := EnvelopeOk {
  eo_suite : ev_proto e = "NXMS/1" /\ ev_kem_id e = "FrodoKEM-640-SHAKE"
             /\ ev_sig_id e = "Falcon-1024-CT";
  eo_peers : peer_id_ok (ev_from e) /\ peer_id_ok (ev_to e);
  eo_escrow : hex_field_ok (ev_escrow_id_hex e) 32;
  eo_seq : ev_seq e <> 0;
  eo_present : Forall (fun v => trim v <> "")
    [ev_kem_ct_b64 e; ev_nonce_b64 e; ev_ciphertext_b64 e; ev_tag_b64 e; ev_sig_b64 e];
  eo_sizes : len (ev_kem_ct_b64 e) <= 43692 /\ len (ev_nonce_b64 e) <= 32
             /\ len (ev_ciphertext_b64 e) <= 22369624 /\ len (ev_tag_b64 e) <= 44
             /\ len (ev_sig_b64 e) <= 5464;
}.

(** A well-formed payload. *)
Record payload_ok (p : NxmsPayload) : Prop := PayloadOk {
  po_proto : pl_app_proto p = "ESCROW/1";
  po_peers : peer_id_ok (pl_from p) /\ peer_id_ok (pl_to p);
  po_escrow : hex_field_ok (pl_escrow_id_hex p) 32;
  po_seq : pl_seq p <> 0;
  po_data : trim (pl_data p) <> "";
}.

Lemma validate_envelope_iff e : validate_envelope e = Ok tt <-> envelope_ok e.
Proof.
  unfold validate_envelope. rewrite !seq_ok, !map_err_ok, !fail_if_ok.
  rewrite !validate_peer_id_iff, validate_hex_iff.
  rewrite !validate_b64_iff by (vm_compute; done).
  rewrite !orb_false_iff, !negb_false_iff, !String.eqb_eq, Z.eqb_neq, !is_empty_false.
  split.
  - intros (? & ? & ? & ? & ? & ? & ? & [[[[? ?] ?] ?] ?] & ? & ? & ? & ? & ?). split; try done.
    rewrite !Forall_cons, Forall_nil. done.
  - intros [(? & ? & ?) [? ?] ? ? Hf (? & ? & ? & ? & ?)].
    rewrite !Forall_cons in Hf. destruct Hf as (? & ? & ? & ? & ? & _).
    splits; done.
Qed.

Lemma validate_payload_iff p : validate_payload p = Ok tt <-> payload_ok p.
Proof.
  unfold validate_payload. rewrite !seq_ok, !map_err_ok, !fail_if_ok.
  rewrite !validate_peer_id_iff, validate_hex_iff.
  rewrite negb_false_iff, String.eqb_eq, Z.eqb_neq, is_empty_false.
  split; [by intros (? & ? & ? & ? & ? & ?); split|intros [? [? ?] ? ? ?]; splits; done].
Qed.

(** A payload is accepted under an envelope exactly when both are well
    formed, every size bound of the wire is met, and the five routing fields of
    the decrypted payload repeat those of the envelope: the message type is
    compared as a value although the code compares its name. *)
Theorem payload_bound_to_envelope p e :
  validate_matches_envelope p e = Ok tt <->
  payload_ok p /\ envelope_ok e
  /\ pl_escrow_id_hex p = ev_escrow_id_hex e /\ pl_from p = ev_from e /\ pl_to p = ev_to e
  /\ pl_seq p = ev_seq e /\ pl_msg_type p = ev_msg_type e.
Proof.
  unfold validate_matches_envelope. rewrite !seq_ok, !fail_if_ok.
  rewrite validate_payload_iff, validate_envelope_iff, !negb_false_iff, !String.eqb_eq, Z.eqb_eq.
  split; intros (? & ? & ? & ? & ? & ? & Ht); splits; try done.
  - by apply msg_type_key_inj.
  - by rewrite Ht.
Qed.

(** The comparison of secrets in a fixed buffer is true exactly for equal
    strings that fit the buffer: padding with zero bytes never makes two strings
    equal, and nothing longer than the buffer is ever accepted. *)
Theorem timing_safe_eq_exact n a b :
  timing_safe_eq_fixed n a b = true <-> (String.length a <= n)%nat /\ a = b.
Proof. apply timing_safe_eq_spec. Qed.

(** The check of a peer name looks at the trimmed name only: put an ASCII
    white space before an accepted name and the result, another string, is
    accepted too, so a validated name is not a unique spelling of its peer. *)
Theorem padded_peer_id_accepted c v :
  ws1 c = true -> validate_peer_id v = Ok tt ->
  validate_peer_id (String c v) = Ok tt /\ String c v <> v.
Proof.
  intros Hc Hv. split.
  - unfold validate_peer_id in *. by rewrite trim_cons_ws.
  - intros E. apply (f_equal String.length) in E. simpl in E. lia.
Qed.

Lemma padded_peer_id_accepted_witness :
  validate_peer_id " bob" = Ok tt /\ " bob"%string <> "bob"%string.
Proof. apply (padded_peer_id_accepted " " "bob"); vm_compute; reflexivity. Defined.
