(* ===== verification/Admission.v ===== *)
(** * Escrow admission

    [crates/nxms-transport/src/admission.rs]: the artifact with which two guard
    peers admit an escrow, its signing and its verification against the
    runtime trust bundle.  Hashing, Falcon, base64 and [serde_json]'s printer
    are parameters. *)

From S2P Require Import Prelude RustString Sql Json Wire.

Definition ESCROW_ADMISSION_SCHEMA_V1 : string := "nxms-escrow-admission/v1".
Definition ESCROW_ADMISSION_SIG_ALG : string := "Falcon-1024-CT".
Definition REQUIRED_GUARD_ROLES : list string := ["ag-01"; "ag-02"].

Record EscrowAdmissionSignature : Type := MkAdmissionSig {
  as_signer_id : string;
  as_signer_role : string;
  as_sig_pk_b64 : string;
  as_sig_b64 : string;
  as_hash_hex : string;
  as_alg : string;
  as_created_at_unix_ms : Z;
}.

Record EscrowAdmissionArtifact : Type := MkArtifact {
  aa_schema : string;
  aa_escrow_id_hex : string;
  aa_snapshot_hash_hex : string;
  aa_action : EscrowAction;
  aa_runtime_trust_epoch : string;
  aa_admitted_at_unix_ms : Z;
  aa_signatures : list EscrowAdmissionSignature;
}.

(** What is used of a [RuntimeTrustBundle]. *)
Record TrustPeer : Type := MkTrustPeer { tp_id : string; tp_role : string; tp_sig_pk_b64 : string }.
Record TrustBundle : Type := MkTrustBundle { tb_trust_epoch : string; tb_peers : list TrustPeer }.

Inductive AdmissionError : Type :=
| ASchema | ANotHex (field : string) | AEpochLen | AText (field : string)
| AEpochMismatch | ASigCount | ARoleNotGuard (role : string)
| ADuplicateId (id : string) | ADuplicateRole (role : string)
| AAlg | AHashMismatch | ANotInBundle (id : string) | ARoleMismatch (id : string)
| APkMismatch (id : string) | ABase64 | ABadSignature | AMissingRole (role : string) | ASign.

(** [EscrowAdmissionArtifact::new] *)
Definition new_artifact (escrow_id_hex snapshot_hash_hex : string) (action : EscrowAction)
    (runtime_trust_epoch : string) (admitted_at_unix_ms : Z) : EscrowAdmissionArtifact :=
  MkArtifact ESCROW_ADMISSION_SCHEMA_V1 escrow_id_hex snapshot_hash_hex action
    runtime_trust_epoch admitted_at_unix_ms [].

(** [EscrowAction] as [serde] writes it. *)
Definition action_json (a : EscrowAction) : json :=
  JString (match a with Release => "release" | Refund => "refund" end).

Definition canonical_unsigned_json (a : EscrowAdmissionArtifact) : json :=
  canonicalize_json (JObject [
    ("schema", JString (aa_schema a));
    ("escrow_id_hex", JString (aa_escrow_id_hex a));
    ("snapshot_hash_hex", JString (aa_snapshot_hash_hex a));
    ("action", action_json (aa_action a));
    ("runtime_trust_epoch", JString (aa_runtime_trust_epoch a));
    ("admitted_at_unix_ms", JNumber (dec (aa_admitted_at_unix_ms a)))]).

Definition admission_text (value field : string) (max_len : Z) : result AdmissionError string :=
  let trimmed := trim value in
  if is_empty trimmed || (max_len <? len trimmed) then Err (AText field) else Ok trimmed.

(** [validate_hex_exact] *)
Definition admission_hex (value : string) (n : Z) (field : string) : result AdmissionError unit :=
  let trimmed := trim value in
  fail_if (negb (len trimmed =? n) || negb (sall is_ascii_hexdigit trimmed)) (ANotHex field).

Definition validate_unsigned (a : EscrowAdmissionArtifact) : result AdmissionError unit :=
  let? _ := fail_if (negb (trim (aa_schema a) =? ESCROW_ADMISSION_SCHEMA_V1)%string) ASchema in
  let? _ := admission_hex (aa_escrow_id_hex a) 32 "escrow_id_hex" in
  let? _ := admission_hex (aa_snapshot_hash_hex a) 64 "snapshot_hash_hex" in
  let epoch := trim (aa_runtime_trust_epoch a) in
  fail_if (is_empty epoch || (128 <? len epoch)) AEpochLen.

(** [*existing = signature] or [push]. *)
Fixpoint put_signature (s : EscrowAdmissionSignature) (l : list EscrowAdmissionSignature)
    : list EscrowAdmissionSignature :=
  match l with
  | [] => [s]
  | x :: l' => if (as_signer_id x =? as_signer_id s)%string then s :: l' else x :: put_signature s l'
  end.

Definition set_signatures (l : list EscrowAdmissionSignature) (a : EscrowAdmissionArtifact)
    : EscrowAdmissionArtifact :=
  MkArtifact (aa_schema a) (aa_escrow_id_hex a) (aa_snapshot_hash_hex a) (aa_action a)
    (aa_runtime_trust_epoch a) (aa_admitted_at_unix_ms a) l.

Section admission.
Context (sha256 : string -> string) (json_to_vec : json -> string).
Context (b64_encode : string -> string) (b64_decode : string -> option string).
Context (falcon_sign : string -> string -> option string).
Context (falcon_verify : string -> string -> string -> bool).

(** [hex::decode(&hash_hex)] gives the digest back. *)
Definition artifact_digest (a : EscrowAdmissionArtifact) : string :=
  sha256 (json_to_vec (canonical_unsigned_json a)).
Definition artifact_hash_hex (a : EscrowAdmissionArtifact) : string :=
  hex_encode (artifact_digest a).

(** [EscrowAdmissionArtifact::sign]; the artifact is the state. *)
Definition sign (signer_id signer_role sig_sk sig_pk : string) (created_at_unix_ms : Z)
    : M EscrowAdmissionArtifact AdmissionError unit :=
  let* a := sget (fun a => a) in
  let* _ := slift (validate_unsigned a) in
  let* signer_id := slift (admission_text signer_id "signer_id" 128) in
  let* signer_role := slift (admission_text signer_role "signer_role" 128) in
  let* sig := slift (ok_or (falcon_sign sig_sk (artifact_digest a)) ASign) in
  let signature := MkAdmissionSig signer_id signer_role (b64_encode sig_pk) (b64_encode sig)
    (artifact_hash_hex a) ESCROW_ADMISSION_SIG_ALG created_at_unix_ms in
  smodify (fun a => set_signatures (put_signature signature (aa_signatures a)) a).

(** One round of the loop over the signatures; [seen_ids] and [seen_roles] are
    the sets filled so far. *)
Definition check_signature (bundle : TrustBundle) (hash_hex hash_raw : string)
    (seen_ids seen_roles : gset string) (s : EscrowAdmissionSignature)
    : result AdmissionError (gset string * gset string) :=
  let? signer_id := admission_text (as_signer_id s) "signature.signer_id" 128 in
  let? signer_role := admission_text (as_signer_role s) "signature.signer_role" 128 in
  let? _ := fail_if (negb (bool_decide (signer_role ∈ REQUIRED_GUARD_ROLES)))
              (ARoleNotGuard signer_role) in
  let? _ := fail_if (bool_decide (signer_id ∈ seen_ids)) (ADuplicateId signer_id) in
  let? _ := fail_if (bool_decide (signer_role ∈ seen_roles)) (ADuplicateRole signer_role) in
  let? _ := fail_if (negb (trim (as_alg s) =? ESCROW_ADMISSION_SIG_ALG)%string) AAlg in
  let? _ := fail_if (negb (to_ascii_lowercase (trim (as_hash_hex s)) =? hash_hex)%string)
              AHashMismatch in
  let? peer := ok_or (List.find (fun p => tp_id p =? signer_id)%string (tb_peers bundle))
                 (ANotInBundle signer_id) in
  let? _ := fail_if (negb (tp_role peer =? signer_role)%string) (ARoleMismatch signer_id) in
  let? _ := fail_if (negb (tp_sig_pk_b64 peer =? as_sig_pk_b64 s)%string) (APkMismatch signer_id) in
  let? sig_pk := ok_or (b64_decode (as_sig_pk_b64 s)) ABase64 in
  let? sig := ok_or (b64_decode (as_sig_b64 s)) ABase64 in
  let? _ := fail_if (negb (falcon_verify sig_pk hash_raw sig)) ABadSignature in
  Ok ({[signer_id]} ∪ seen_ids, {[signer_role]} ∪ seen_roles).

Fixpoint check_signatures (bundle : TrustBundle) (hash_hex hash_raw : string)
    (seen_ids seen_roles : gset string) (l : list EscrowAdmissionSignature)
    : result AdmissionError (gset string) :=
  match l with
  | [] => Ok seen_roles
  | s :: l' =>
      let? (ids, roles) := check_signature bundle hash_hex hash_raw seen_ids seen_roles s in
      check_signatures bundle hash_hex hash_raw ids roles l'
  end.

Fixpoint require_roles (seen_roles : gset string) (roles : list string) : result AdmissionError unit :=
  match roles with
  | [] => Ok tt
  | r :: roles' =>
      let? _ := fail_if (negb (bool_decide (r ∈ seen_roles))) (AMissingRole r) in
      require_roles seen_roles roles'
  end.

Definition verify_against_bundle (a : EscrowAdmissionArtifact) (bundle : TrustBundle)
    : result AdmissionError unit :=
  let? _ := validate_unsigned a in
  let? _ := fail_if (negb (trim (aa_runtime_trust_epoch a) =? trim (tb_trust_epoch bundle))%string)
              AEpochMismatch in
  let hash_hex := artifact_hash_hex a in
  let hash_raw := artifact_digest a in
  let? _ := fail_if (negb (Z.of_nat (length (aa_signatures a)) =? 2)) ASigCount in
  let? seen_roles := check_signatures bundle hash_hex hash_raw ∅ ∅ (aa_signatures a) in
  require_roles seen_roles REQUIRED_GUARD_ROLES.

(** ** Lemmas *)

(** A valid signature of the guard with role [role]. *)
Definition guard_signed (bundle : TrustBundle) (digest role : string) (s : EscrowAdmissionSignature)
    : Prop :=
  trim (as_signer_role s) = role /\
  exists peer pk sig, peer ∈ tb_peers bundle /\ tp_id peer = trim (as_signer_id s) /\
    tp_role peer = role /\ tp_sig_pk_b64 peer = as_sig_pk_b64 s /\
    b64_decode (as_sig_pk_b64 s) = Some pk /\ b64_decode (as_sig_b64 s) = Some sig /\
    falcon_verify pk digest sig = true.

Lemma admission_text_ok v f n s : admission_text v f n = Ok s -> s = trim v.
Proof. unfold admission_text. intros Hs. by case_match; simplify_eq. Qed.

Lemma check_signature_ok bundle h raw ids roles s ids' roles' :
  check_signature bundle h raw ids roles s = Ok (ids', roles') ->
  trim (as_signer_id s) ∉ ids /\ trim (as_signer_role s) ∉ roles /\
  trim (as_signer_role s) ∈ REQUIRED_GUARD_ROLES /\
  ids' = {[trim (as_signer_id s)]} ∪ ids /\ roles' = {[trim (as_signer_role s)]} ∪ roles /\
  guard_signed bundle raw (trim (as_signer_role s)) s.
Proof.
  unfold check_signature. intros Hc. rok.
  repeat match goal with
    | K : admission_text _ _ _ = Ok _ |- _ => apply admission_text_ok in K; subst
    | K : negb (_ =? _)%string = false |- _ => apply negb_false_iff, String.eqb_eq in K
    | K : negb (bool_decide _) = false |- _ => apply negb_false_iff, bool_decide_eq_true in K
    | K : bool_decide _ = false |- _ => apply bool_decide_eq_false in K
    | K : negb _ = false |- _ => apply negb_false_iff in K
    | K : List.find _ _ = Some _ |- _ => apply find_some_elem in K as [? K%String.eqb_eq]
    | K : (_, _) = (_, _) |- _ => injection K as <- <-
    end.
  split_and!; try done. split; [done|]. eexists _, _, _. repeat split; eassumption || congruence.
Qed.

(** Two accepted signatures are one of each guard role, by different peers. *)
Lemma check_two bundle h raw s t roles :
  check_signatures bundle h raw ∅ ∅ [s; t] = Ok roles ->
  trim (as_signer_id s) <> trim (as_signer_id t) /\
  trim (as_signer_role s) <> trim (as_signer_role t) /\
  guard_signed bundle raw (trim (as_signer_role s)) s /\
  guard_signed bundle raw (trim (as_signer_role t)) t /\
  trim (as_signer_role s) ∈ REQUIRED_GUARD_ROLES /\ trim (as_signer_role t) ∈ REQUIRED_GUARD_ROLES.
Proof.
  simpl. intros Hc. apply rbind_ok in Hc as ([ids1 roles1] & H1 & Hc).
  apply rbind_ok in Hc as ([ids2 roles2] & H2 & Hc).
  apply check_signature_ok in H1 as (_ & _ & Hr1 & -> & -> & G1).
  apply check_signature_ok in H2 as (Hi & Hr & Hr2 & _ & _ & G2).
  rewrite elem_of_union, elem_of_singleton in Hi, Hr.
  split_and!; try done; intros E; [apply Hi|apply Hr]; by left.
Qed.

Lemma put_signature_ids s l :
  NoDup (map as_signer_id l) -> NoDup (map as_signer_id (put_signature s l)) /\
  (forall i, i ∈ map as_signer_id (put_signature s l) <-> i = as_signer_id s \/ i ∈ map as_signer_id l).
Proof.
  induction l as [|x l IH]; simpl; intros Hnd.
  { split; [apply NoDup_singleton|]. intros i. by rewrite elem_of_cons. }
  apply NoDup_cons in Hnd as [Hx Hnd]. destruct (IH Hnd) as [IH1 IH2].
  destruct (String.eqb_spec (as_signer_id x) (as_signer_id s)) as [E|E]; simpl.
  - rewrite <- E. split; [by constructor|]. intros i. rewrite elem_of_cons. tauto.
  - split; [constructor; [rewrite IH2; tauto|done]|].
    intros i. rewrite !elem_of_cons, IH2. tauto.
Qed.
End admission.

(** C15. An escrow is admitted only by both guards: verification succeeds only
    if the artifact carries exactly one valid signature for role [ag-01] and
    one for [ag-02], by two different peers of the bundle registered with that
    role and key, over the hash of the artifact's own content, in the bundle's
    trust epoch. *)
Theorem admission_needs_both_guards (sha256 : string -> string) (json_to_vec : json -> string)
    (b64_decode : string -> option string) (falcon_verify : string -> string -> string -> bool)
    (a : EscrowAdmissionArtifact) (bundle : TrustBundle) :
  verify_against_bundle sha256 json_to_vec b64_decode falcon_verify a bundle = Ok tt ->
  trim (aa_runtime_trust_epoch a) = trim (tb_trust_epoch bundle) /\
  exists s1 s2, (aa_signatures a = [s1; s2] \/ aa_signatures a = [s2; s1]) /\
    guard_signed b64_decode falcon_verify bundle (artifact_digest sha256 json_to_vec a) "ag-01" s1 /\
    guard_signed b64_decode falcon_verify bundle (artifact_digest sha256 json_to_vec a) "ag-02" s2 /\
    trim (as_signer_id s1) <> trim (as_signer_id s2).
Proof.
  unfold verify_against_bundle. intros Hv. apply rbind_ok in Hv as ([] & _ & Hv).
  apply rbind_ok in Hv as ([] & He%fail_if_ok%negb_false_iff%String.eqb_eq & Hv).
  apply rbind_ok in Hv as ([] & Hl%fail_if_ok%negb_false_iff%Z.eqb_eq & Hv).
  apply rbind_ok in Hv as (roles & Hs & _). split; [done|].
  destruct (aa_signatures a) as [|s [|t [|? ?]]]; simpl in Hl; try lia.
  apply check_two in Hs as (Hi & Hr & G1 & G2 & R1 & R2).
  unfold REQUIRED_GUARD_ROLES in R1, R2. rewrite !elem_of_cons, elem_of_nil in R1, R2.
  destruct R1 as [E1|[E1|[]]], R2 as [E2|[E2|[]]]; rewrite E1 in *; rewrite E2 in *; try done.
  - exists s, t. auto.
  - exists t, s. auto.
Qed.

Section sign_verify.
Context (sha256 : string -> string) (json_to_vec : json -> string).
Context (b64_encode : string -> string) (b64_decode : string -> option string).
Context (falcon_sign : string -> string -> option string).
Context (falcon_verify : string -> string -> string -> bool).
(** base64 decodes what it encoded; Falcon accepts what it signed. *)
Context (falcon_pair : string -> string -> Prop).
Hypothesis b64_roundtrip : forall s, b64_decode (b64_encode s) = Some s.
Hypothesis falcon_correct : forall sk pk m sig,
  falcon_pair sk pk -> falcon_sign sk m = Some sig -> falcon_verify pk m sig = true.

Lemma digest_signatures a l :
  artifact_digest sha256 json_to_vec (set_signatures l a) = artifact_digest sha256 json_to_vec a.
Proof. done. Qed.

(** The signature that [sign] adds. *)
Record signature_of (a : EscrowAdmissionArtifact) (id role sk pk : string)
    (s : EscrowAdmissionSignature) : Prop := SignatureOf {
  so_id : as_signer_id s = trim id /\ admission_text (trim id) "signature.signer_id" 128 = Ok (trim id);
  so_role : as_signer_role s = trim role /\
            admission_text (trim role) "signature.signer_role" 128 = Ok (trim role);
  so_pk : as_sig_pk_b64 s = b64_encode pk;
  so_sig : exists sig, as_sig_b64 s = b64_encode sig /\
             falcon_sign sk (artifact_digest sha256 json_to_vec a) = Some sig;
  so_hash : as_hash_hex s = artifact_hash_hex sha256 json_to_vec a;
  so_alg : as_alg s = ESCROW_ADMISSION_SIG_ALG;
}.

Lemma signature_of_content l a id role sk pk s :
  signature_of (set_signatures l a) id role sk pk s -> signature_of a id role sk pk s.
Proof. intros []. by constructor. Qed.

Lemma admission_text_again v f g n s :
  admission_text v f n = Ok s -> s = trim v /\ admission_text (trim v) g n = Ok (trim v).
Proof.
  unfold admission_text. intros Hs. case_match eqn:E; simplify_eq. split; [done|].
  by rewrite trim_idem, E.
Qed.

Lemma sign_ok id role sk pk now a a' :
  sign sha256 json_to_vec b64_encode falcon_sign id role sk pk now a = (a', Ok tt) ->
  validate_unsigned a = Ok tt /\ exists s, signature_of a id role sk pk s /\
    a' = set_signatures (put_signature s (aa_signatures a)) a.
Proof.
  unfold sign, sbind, sget, slift, smodify.
  destruct (validate_unsigned a) as [[]|]; [|done].
  destruct (admission_text id _ _) as [id'|] eqn:Ei; [|done].
  destruct (admission_text role _ _) as [role'|] eqn:Er; [|done].
  destruct (falcon_sign _ _) as [sig|] eqn:Es; [|done]. cbn [ok_or].
  apply (admission_text_again _ _ "signature.signer_id") in Ei as [-> Ei].
  apply (admission_text_again _ _ "signature.signer_role") in Er as [-> Er].
  intros [= <-]. split; [done|]. eexists. split; [|reflexivity]. constructor; simpl; eauto.
Qed.

Lemma hash_hex_lower a :
  to_ascii_lowercase (trim (artifact_hash_hex sha256 json_to_vec a))
    = artifact_hash_hex sha256 json_to_vec a.
Proof.
  unfold artifact_hash_hex. rewrite (hex_norm_trim (2 * len (artifact_digest sha256 json_to_vec a))).
  - apply lower_hex_id, hex_encode_lower.
  - apply hex_encode_norm.
Qed.

Lemma check_own_signature a id role sk pk s bundle p ids roles :
  signature_of a id role sk pk s -> falcon_pair sk pk ->
  trim role ∈ REQUIRED_GUARD_ROLES -> trim id ∉ ids -> trim role ∉ roles ->
  List.find (fun p => tp_id p =? trim id)%string (tb_peers bundle) = Some p ->
  tp_role p = trim role -> tp_sig_pk_b64 p = b64_encode pk ->
  check_signature b64_decode falcon_verify bundle (artifact_hash_hex sha256 json_to_vec a)
    (artifact_digest sha256 json_to_vec a) ids roles s
  = Ok ({[trim id]} ∪ ids, {[trim role]} ∪ roles).
Proof.
  intros [[Ei Ti] [Er Tr] Ep (sig & Es & Hs) Eh Ea] Hpair Hg Hi Hr Hf Hrole Hpk.
  unfold check_signature. rewrite Ei, Er, Ti, Tr. cbn [rbind].
  rewrite (bool_decide_eq_true_2 _ Hg), (bool_decide_eq_false_2 _ Hi), (bool_decide_eq_false_2 _ Hr).
  cbn [negb fail_if rbind]. rewrite Ea, Eh, hash_hex_lower, String.eqb_refl.
  replace (trim ESCROW_ADMISSION_SIG_ALG =? ESCROW_ADMISSION_SIG_ALG)%string with true by done.
  cbn [negb fail_if rbind]. rewrite Hf. cbn [ok_or rbind].
  rewrite Hrole, Hpk, Ep, Es, !String.eqb_refl, !b64_roundtrip. cbn [negb fail_if ok_or rbind].
  by rewrite (falcon_correct _ _ _ _ Hpair Hs).
Qed.
End sign_verify.

(** Signing and verification fit together: an artifact signed by the two
    guards, in this order, with the keys the bundle lists for them, verifies
    against the bundle. *)
Theorem admission_signed_verifies (sha256 : string -> string) (json_to_vec : json -> string)
    (b64_encode : string -> string) (b64_decode : string -> option string)
    (falcon_sign : string -> string -> option string)
    (falcon_verify : string -> string -> string -> bool) (falcon_pair : string -> string -> Prop)
    (a a1 a2 : EscrowAdmissionArtifact) (bundle : TrustBundle) (p1 p2 : TrustPeer)
    (id1 id2 sk1 sk2 pk1 pk2 : string) (t1 t2 : Z) :
  (forall s, b64_decode (b64_encode s) = Some s) ->
  (forall sk pk m sig, falcon_pair sk pk -> falcon_sign sk m = Some sig ->
     falcon_verify pk m sig = true) ->
  aa_signatures a = [] ->
  trim (aa_runtime_trust_epoch a) = trim (tb_trust_epoch bundle) ->
  sign sha256 json_to_vec b64_encode falcon_sign id1 "ag-01" sk1 pk1 t1 a = (a1, Ok tt) ->
  sign sha256 json_to_vec b64_encode falcon_sign id2 "ag-02" sk2 pk2 t2 a1 = (a2, Ok tt) ->
  trim id1 <> trim id2 -> falcon_pair sk1 pk1 -> falcon_pair sk2 pk2 ->
  List.find (fun p => tp_id p =? trim id1)%string (tb_peers bundle) = Some p1 ->
  List.find (fun p => tp_id p =? trim id2)%string (tb_peers bundle) = Some p2 ->
  tp_role p1 = "ag-01" -> tp_role p2 = "ag-02" ->
  tp_sig_pk_b64 p1 = b64_encode pk1 -> tp_sig_pk_b64 p2 = b64_encode pk2 ->
  verify_against_bundle sha256 json_to_vec b64_decode falcon_verify a2 bundle = Ok tt.
Proof.
  intros Hb Hf Hnil He Hs1 Hs2 Hne K1 K2 F1 F2 R1 R2 P1 P2.
  apply sign_ok in Hs1 as (Hv & s1 & S1 & ->). apply sign_ok in Hs2 as (_ & s2 & S2 & ->).
  apply signature_of_content in S2. rewrite Hnil in *. simpl in *.
  rewrite (proj1 (so_id _ _ _ _ _ _ _ _ _ _ S1)), (proj1 (so_id _ _ _ _ _ _ _ _ _ _ S2)).
  rewrite (proj2 (String.eqb_neq _ _) Hne).
  assert (check_signatures b64_decode falcon_verify bundle (artifact_hash_hex sha256 json_to_vec a)
    (artifact_digest sha256 json_to_vec a) ∅ ∅ [s1; s2] = Ok ({["ag-02"]} ∪ ({["ag-01"]} ∪ ∅))) as Hc.
  { cbn [check_signatures].
    rewrite (check_own_signature sha256 json_to_vec b64_encode b64_decode falcon_sign falcon_verify
      falcon_pair Hb Hf a id1 "ag-01" sk1 pk1 s1 bundle p1) by (done || set_solver). cbn [rbind].
    rewrite (check_own_signature sha256 json_to_vec b64_encode b64_decode falcon_sign falcon_verify
      falcon_pair Hb Hf a id2 "ag-02" sk2 pk2 s2 bundle p2); try done.
    - by apply list_elem_of_In; right; left.
    - rewrite elem_of_union, elem_of_singleton. intros [?|?%not_elem_of_empty]; done. }
  unfold verify_against_bundle.
  change (validate_unsigned (set_signatures [s1; s2] (set_signatures [s1] a)))
    with (validate_unsigned a). rewrite Hv. cbn [rbind].
  cbn [set_signatures aa_runtime_trust_epoch]. rewrite He, String.eqb_refl.
  cbn [negb fail_if rbind].
  change (artifact_hash_hex sha256 json_to_vec _) with (artifact_hash_hex sha256 json_to_vec a).
  change (artifact_digest sha256 json_to_vec _) with (artifact_digest sha256 json_to_vec a).
  cbn [aa_signatures set_signatures]. rewrite Hc. reflexivity.
Qed.

(** ** Instances *)

Definition demo_falcon_sign (sk m : string) : option string := Some (sk +:+ m).
Definition demo_falcon_verify (pk m sig : string) : bool := (sig =? pk +:+ m)%string.
Definition demo_artifact : EscrowAdmissionArtifact :=
  new_artifact "0123456789abcdef0123456789abcdef"
    "0123456789abcdef0123456789abcdef0123456789abcdef0123456789abcdef" Release "epoch-7" 1000.
Definition demo_bundle : TrustBundle :=
  MkTrustBundle "epoch-7" [MkTrustPeer "guard-a" "ag-01" "ka"; MkTrustPeer "guard-b" "ag-02" "kb"].
Definition demo_signed (id role k : string) (a : EscrowAdmissionArtifact) : EscrowAdmissionArtifact :=
  (sign (fun _ => "digest") (fun _ => "json") (fun s => s) demo_falcon_sign id role k k 1 a).1.
Definition demo_admitted : EscrowAdmissionArtifact :=
  demo_signed "guard-b" "ag-02" "kb" (demo_signed "guard-a" "ag-01" "ka" demo_artifact).

Lemma admission_needs_both_guards_witness :
  trim (aa_runtime_trust_epoch demo_admitted) = trim (tb_trust_epoch demo_bundle).
Proof.
  apply (admission_needs_both_guards (fun _ => "digest") (fun _ => "json") Some demo_falcon_verify
           demo_admitted demo_bundle).
  vm_compute; reflexivity.
Defined.

Lemma admission_signed_verifies_witness :
  verify_against_bundle (fun _ => "digest") (fun _ => "json") Some demo_falcon_verify demo_admitted
    demo_bundle = Ok tt.
Proof.
  eapply (admission_signed_verifies (fun _ => "digest") (fun _ => "json") (fun s => s) Some
    demo_falcon_sign demo_falcon_verify (fun sk pk => sk = pk) demo_artifact
    (demo_signed "guard-a" "ag-01" "ka" demo_artifact) demo_admitted demo_bundle
    (MkTrustPeer "guard-a" "ag-01" "ka") (MkTrustPeer "guard-b" "ag-02" "kb")
    "guard-a" "guard-b" "ka" "kb" "ka" "kb" 1 1);
    [reflexivity| |reflexivity|reflexivity|vm_compute; reflexivity|vm_compute; reflexivity
    |vm_compute; discriminate|reflexivity..].
  intros sk pk m sig -> [= <-]. apply String.eqb_refl.
Defined.
