(* ===== verification/Trust.v ===== *)
(** * The runtime trust bundle

    [crates/nxms-transport/src/trust.rs], [host_identity.rs], [peers.rs] and the
    trust part of [bootstrap.rs]: the list of peers and the token issuer that two
    guard peers sign, its verification, and the files a host keeps of it. *)

From S2P Require Import Prelude RustString Sql Json Wire Admission TransportCrypto.

Definition RUNTIME_TRUST_BUNDLE_SCHEMA_V1 : string := "nxms-runtime-trust-bundle/v1".
Definition RUNTIME_TRUST_SIG_ALG : string := "Falcon-1024-CT".
Definition HOST_IDENTITY_SCHEMA_V1 : string := "nxms-host-identity/v1".

Record RuntimeTrustPeer : Type := MkRuntimePeer {
  rp_id : string; rp_role : string; rp_host : string; rp_port : Z; rp_kem_pk_b64 : string; rp_sig_pk_b64 : string }.
Record RuntimeActionTokenIssuer : Type := MkIssuer {
  ri_issuer : string; ri_algorithm : string; ri_public_key_pem : string }.
Record RuntimeTrustSignature : Type := MkTrustSig {
  ts_signer_id : string; ts_signer_role : string; ts_sig_pk_b64 : string; ts_sig_b64 : string;
  ts_hash_hex : string; ts_alg : string; ts_created_at_unix_ms : Z }.
Record RuntimeTrustBundle : Type := MkRuntimeBundle {
  rb_schema : string; rb_trust_epoch : string; rb_peers : list RuntimeTrustPeer;
  rb_action_token : RuntimeActionTokenIssuer; rb_signatures : list RuntimeTrustSignature }.

Record HostIdentityBundle : Type := MkHostIdentity {
  hi_schema : string; hi_host_id : string; hi_role : string; hi_host : string; hi_port : Z;
  hi_kem_pk_b64 : string; hi_sig_pk_b64 : string }.
(** [peers.rs] *)
Record BookPeer : Type := MkBookPeer {
  bp_id : string; bp_host : string; bp_port : Z; bp_kem_pk_b64 : string; bp_sig_pk_b64 : string }.
Record PeerBook : Type := MkPeerBook { pbk_peers : list BookPeer }.
Definition peer_book_get (b : PeerBook) (id : string) : option BookPeer :=
  List.find (fun p => bp_id p =? id)%string (pbk_peers b).

#[global] Instance BookPeer_eq_dec : EqDecision BookPeer.
Proof. solve_decision. Defined.
#[global] Instance PeerBook_eq_dec : EqDecision PeerBook.
Proof. solve_decision. Defined.

(** What [Admission] uses of a bundle. *)
Definition trusted (b : RuntimeTrustBundle) : TrustBundle :=
  MkTrustBundle (rb_trust_epoch b) (map (fun p => MkTrustPeer (rp_id p) (rp_role p) (rp_sig_pk_b64 p)) (rb_peers b)).

Inductive TrustError : Type :=
| TSchema | TEpoch | TNoPeers | TText (field : string) | TPeer (id field : string) | TDuplicatePeer (id : string)
| TIssuer | TAlgorithm | TPem | TSigAlg | TNotHex (field : string) | TSigEmpty (field : string)
| TSigCount | TRoleNotGuard (role : string) | TDuplicateId (id : string) | TDuplicateRole (role : string)
| THashMismatch | TNotInPeers (id : string) | TRoleMismatch (id : string) | TPkMismatch (id : string)
| TBase64 | TBadSignature | TMissingRole (role : string) | TSign
| TNotLocal (id : string) | TKemPk | TSigPk | TNoRemote | THost | TPort
| TIo (path : string) | TParse | TNoParent | TNotRegular | TUnsafeMode | TEmptyFile | TPeersMismatch | TPemMismatch.

(** ** Validation *)

(** [1..=max] bytes after trimming. *)
Definition bad_text (max_len : Z) (value : string) : bool := is_empty (trim value) || (max_len <? len (trim value)).

(** The loop over the peers with the ids seen so far. *)
Fixpoint validate_peers (seen_ids : gset string) (peers : list RuntimeTrustPeer) : result TrustError unit :=
  match peers with
  | [] => Ok tt
  | peer :: rest =>
      let id := trim (rp_id peer) in
      let? _ := fail_if (bad_text 128 (rp_id peer)) (TText "id") in
      let? _ := fail_if (bool_decide (id ∈ seen_ids)) (TDuplicatePeer id) in
      let? _ := fail_if (bad_text 128 (rp_role peer)) (TPeer id "role") in
      let? _ := fail_if (bad_text 255 (rp_host peer)) (TPeer id "host") in
      let? _ := fail_if (contains "://" (trim (rp_host peer))) (TPeer id "url") in
      let? _ := fail_if (negb (ends_with ".onion" (trim (rp_host peer)))) (TPeer id "onion") in
      let? _ := fail_if (rp_port peer =? 0) (TPeer id "port") in
      let? _ := fail_if (is_empty (trim (rp_kem_pk_b64 peer))) (TPeer id "kem_pk_b64") in
      let? _ := fail_if (is_empty (trim (rp_sig_pk_b64 peer))) (TPeer id "sig_pk_b64") in
      validate_peers ({[id]} ∪ seen_ids) rest
  end.

Definition validate_issuer (i : RuntimeActionTokenIssuer) : result TrustError unit :=
  let? _ := fail_if (bad_text 256 (ri_issuer i)) TIssuer in
  let algorithm := to_ascii_uppercase (trim (ri_algorithm i)) in
  let? _ := fail_if (negb (algorithm =? "EDDSA")%string && negb (algorithm =? "ES256")%string) TAlgorithm in
  let pem := trim (ri_public_key_pem i) in
  let? _ := fail_if (is_empty pem) TPem in
  fail_if (negb (contains "BEGIN PUBLIC KEY" pem)) TPem.

Definition trust_text (value field : string) : result TrustError string :=
  if bad_text 128 value then Err (TText field) else Ok (trim value).
Definition trust_hex (value field : string) (n : Z) : result TrustError unit :=
  let trimmed := trim value in
  fail_if (negb (len trimmed =? n) || negb (sall is_ascii_hexdigit trimmed)) (TNotHex field).

Definition validate_signature_metadata (s : RuntimeTrustSignature) : result TrustError unit :=
  let? _ := trust_text (ts_signer_id s) "signature.signer_id" in
  let? _ := trust_text (ts_signer_role s) "signature.signer_role" in
  let? _ := fail_if (negb (trim (ts_alg s) =? RUNTIME_TRUST_SIG_ALG)%string) TSigAlg in
  let? _ := trust_hex (ts_hash_hex s) "signature.hash_hex" 64 in
  let? _ := fail_if (is_empty (trim (ts_sig_pk_b64 s))) (TSigEmpty "sig_pk_b64") in
  fail_if (is_empty (trim (ts_sig_b64 s))) (TSigEmpty "sig_b64").
Fixpoint validate_signatures (l : list RuntimeTrustSignature) : result TrustError unit :=
  match l with [] => Ok tt | s :: l' => let? _ := validate_signature_metadata s in validate_signatures l' end.

Definition validate_bundle (b : RuntimeTrustBundle) : result TrustError unit :=
  let? _ := fail_if (negb (trim (rb_schema b) =? RUNTIME_TRUST_BUNDLE_SCHEMA_V1)%string) TSchema in
  let? _ := fail_if (bad_text 128 (rb_trust_epoch b)) TEpoch in
  let? _ := match rb_peers b with [] => Err TNoPeers | _ => Ok tt end in
  let? _ := validate_peers ∅ (rb_peers b) in
  let? _ := validate_issuer (rb_action_token b) in
  validate_signatures (rb_signatures b).

(** [host_identity.rs] *)
Definition validate_host_identity (h : HostIdentityBundle) : result TrustError unit :=
  let? _ := fail_if (negb (trim (hi_schema h) =? HOST_IDENTITY_SCHEMA_V1)%string) TSchema in
  let? _ := fail_if (bad_text 128 (hi_host_id h)) (TText "host_id") in
  let? _ := fail_if (bad_text 128 (hi_role h)) (TText "role") in
  let? _ := fail_if (bad_text 255 (hi_host h)) THost in
  let? _ := fail_if (contains "://" (trim (hi_host h))) THost in
  let? _ := fail_if (negb (ends_with ".onion" (trim (hi_host h)))) THost in
  let? _ := fail_if (hi_port h =? 0) TPort in
  let? _ := fail_if (bad_text 65536 (hi_kem_pk_b64 h)) (TText "kem_pk_b64") in
  fail_if (bad_text 65536 (hi_sig_pk_b64 h)) (TText "sig_pk_b64").

Definition from_host_identity (h : HostIdentityBundle) : result TrustError RuntimeTrustPeer :=
  let? _ := validate_host_identity h in
  Ok (MkRuntimePeer (hi_host_id h) (hi_role h) (hi_host h) (hi_port h) (hi_kem_pk_b64 h) (hi_sig_pk_b64 h)).

(** ** Canonical form *)

Definition peer_key (p : RuntimeTrustPeer) : string * (string * (string * (Z * (string * string)))) :=
  (rp_id p, (rp_role p, (rp_host p, (rp_port p, (rp_kem_pk_b64 p, rp_sig_pk_b64 p))))).
Definition sort_runtime_trust_peers : list RuntimeTrustPeer -> list RuntimeTrustPeer :=
  order_by (fun a b => le (peer_key a) (peer_key b)).

Definition peer_json (p : RuntimeTrustPeer) : json := JObject [
  ("id"%string, JString (rp_id p)); ("role"%string, JString (rp_role p)); ("host"%string, JString (rp_host p));
  ("port"%string, JNumber (dec (rp_port p))); ("kem_pk_b64"%string, JString (rp_kem_pk_b64 p));
  ("sig_pk_b64"%string, JString (rp_sig_pk_b64 p))].
Definition issuer_json (i : RuntimeActionTokenIssuer) : json := JObject [
  ("issuer"%string, JString (ri_issuer i)); ("algorithm"%string, JString (ri_algorithm i));
  ("public_key_pem"%string, JString (ri_public_key_pem i))].
Definition bundle_unsigned_json (b : RuntimeTrustBundle) (sort_peers_for_hash : bool) : json :=
  let peers := if sort_peers_for_hash then sort_runtime_trust_peers (rb_peers b) else rb_peers b in
  canonicalize_json (JObject [
    ("schema"%string, JString (rb_schema b)); ("trust_epoch"%string, JString (rb_trust_epoch b));
    ("peers"%string, JArray (map peer_json peers)); ("action_token"%string, issuer_json (rb_action_token b))]).

Fixpoint collect_peers (l : list HostIdentityBundle) : result TrustError (list RuntimeTrustPeer) :=
  match l with
  | [] => Ok []
  | h :: l' => let? p := from_host_identity h in let? ps := collect_peers l' in Ok (p :: ps)
  end.
Definition from_host_identities (trust_epoch : string) (peers : list HostIdentityBundle)
    (action_token : RuntimeActionTokenIssuer) : result TrustError RuntimeTrustBundle :=
  let? _ := match peers with [] => Err TNoPeers | _ => Ok tt end in
  let? ps := collect_peers peers in
  let bundle := MkRuntimeBundle RUNTIME_TRUST_BUNDLE_SCHEMA_V1 trust_epoch (sort_runtime_trust_peers ps) action_token [] in
  let? _ := validate_bundle bundle in
  Ok bundle.

(** ** The view of one host *)

Definition local_peer (b : RuntimeTrustBundle) (local_id : string) : result TrustError RuntimeTrustPeer :=
  ok_or (List.find (fun p => rp_id p =? trim local_id)%string (rb_peers b)) (TNotLocal (trim local_id)).

Definition validate_local_keys (b : RuntimeTrustBundle) (local_id : string) (keys : Keys) : result TrustError unit :=
  let? peer := local_peer b local_id in
  let? _ := fail_if (negb (ky_kem_pk_b64 keys =? rp_kem_pk_b64 peer)%string) TKemPk in
  fail_if (negb (ky_sig_pk_b64 keys =? rp_sig_pk_b64 peer)%string) TSigPk.

Definition book_peer (p : RuntimeTrustPeer) : BookPeer :=
  MkBookPeer (rp_id p) (rp_host p) (rp_port p) (rp_kem_pk_b64 p) (rp_sig_pk_b64 p).
Definition peer_book_for (b : RuntimeTrustBundle) (local_id : string) : result TrustError PeerBook :=
  let? _ := local_peer b (trim local_id) in
  let peers := map book_peer (List.filter (fun p => negb (rp_id p =? trim local_id)%string) (rb_peers b)) in
  let? _ := match peers with [] => Err TNoRemote | _ => Ok tt end in
  Ok (MkPeerBook peers).

(** ** Signatures *)

Section signatures.
Context (sha256 : string -> string) (json_to_vec : json -> string).
Context (b64_encode : string -> string) (b64_decode : string -> option string).
Context (falcon_sign : string -> string -> option string) (falcon_verify : string -> string -> string -> bool).

Definition bundle_digest (b : RuntimeTrustBundle) : string := sha256 (json_to_vec (bundle_unsigned_json b true)).
Definition bundle_hash_hex (b : RuntimeTrustBundle) : string := hex_encode (bundle_digest b).

(** [*existing = signature] or [push]. *)
Fixpoint put_trust_signature (s : RuntimeTrustSignature) (l : list RuntimeTrustSignature) : list RuntimeTrustSignature :=
  match l with
  | [] => [s]
  | x :: l' => if (ts_signer_id x =? ts_signer_id s)%string then s :: l' else x :: put_trust_signature s l'
  end.
Definition with_signatures (l : list RuntimeTrustSignature) (b : RuntimeTrustBundle) : RuntimeTrustBundle :=
  MkRuntimeBundle (rb_schema b) (rb_trust_epoch b) (rb_peers b) (rb_action_token b) l.

Definition sign_bundle (signer_id signer_role sig_sk sig_pk : string) (created_at_unix_ms : Z)
    : M RuntimeTrustBundle TrustError unit :=
  let* b := sget (fun b => b) in
  let* _ := slift (validate_bundle b) in
  let* signer_id := slift (trust_text signer_id "signer_id") in
  let* signer_role := slift (trust_text signer_role "signer_role") in
  let* sig := slift (ok_or (falcon_sign sig_sk (bundle_digest b)) TSign) in
  let signature := MkTrustSig signer_id signer_role (b64_encode sig_pk) (b64_encode sig) (bundle_hash_hex b)
    RUNTIME_TRUST_SIG_ALG created_at_unix_ms in
  smodify (fun b => with_signatures (put_trust_signature signature (rb_signatures b)) b).

Definition check_trust_signature (b : RuntimeTrustBundle) (hash_hex hash_raw : string)
    (seen_ids seen_roles : gset string) (s : RuntimeTrustSignature) : result TrustError (gset string * gset string) :=
  let? _ := validate_signature_metadata s in
  let signer_id := trim (ts_signer_id s) in
  let signer_role := trim (ts_signer_role s) in
  let? _ := fail_if (negb (bool_decide (signer_role ∈ REQUIRED_GUARD_ROLES))) (TRoleNotGuard signer_role) in
  let? _ := fail_if (bool_decide (signer_id ∈ seen_ids)) (TDuplicateId signer_id) in
  let? _ := fail_if (bool_decide (signer_role ∈ seen_roles)) (TDuplicateRole signer_role) in
  let? _ := fail_if (negb (to_ascii_lowercase (trim (ts_hash_hex s)) =? hash_hex)%string) THashMismatch in
  let? peer := ok_or (List.find (fun p => rp_id p =? signer_id)%string (rb_peers b)) (TNotInPeers signer_id) in
  let? _ := fail_if (negb (rp_role peer =? signer_role)%string) (TRoleMismatch signer_id) in
  let? _ := fail_if (negb (rp_sig_pk_b64 peer =? ts_sig_pk_b64 s)%string) (TPkMismatch signer_id) in
  let? sig_pk := ok_or (b64_decode (ts_sig_pk_b64 s)) TBase64 in
  let? sig := ok_or (b64_decode (ts_sig_b64 s)) TBase64 in
  let? _ := fail_if (negb (falcon_verify sig_pk hash_raw sig)) TBadSignature in
  Ok ({[signer_id]} ∪ seen_ids, {[signer_role]} ∪ seen_roles).
Fixpoint check_trust_signatures (b : RuntimeTrustBundle) (hash_hex hash_raw : string)
    (seen_ids seen_roles : gset string) (l : list RuntimeTrustSignature) : result TrustError (gset string) :=
  match l with
  | [] => Ok seen_roles
  | s :: l' =>
      let? (ids, roles) := check_trust_signature b hash_hex hash_raw seen_ids seen_roles s in
      check_trust_signatures b hash_hex hash_raw ids roles l'
  end.
Fixpoint require_guard_roles (seen_roles : gset string) (roles : list string) : result TrustError unit :=
  match roles with
  | [] => Ok tt
  | r :: roles' =>
      let? _ := fail_if (negb (bool_decide (r ∈ seen_roles))) (TMissingRole r) in require_guard_roles seen_roles roles'
  end.

Definition verify_guard_quorum (b : RuntimeTrustBundle) : result TrustError unit :=
  let? _ := validate_bundle b in
  let? _ := fail_if (negb (length (rb_signatures b) =? length REQUIRED_GUARD_ROLES)%nat) TSigCount in
  let? seen_roles := check_trust_signatures b (bundle_hash_hex b) (bundle_digest b) ∅ ∅ (rb_signatures b) in
  require_guard_roles seen_roles REQUIRED_GUARD_ROLES.
End signatures.
