(* ===== verification/TrustProps.v ===== *)
(** * What a verified trust bundle guarantees *)

From S2P Require Import Prelude RustString Sql Json Wire Admission Trust.
From Stdlib Require Import Sorting.Permutation.

(** ** Validation *)

Record peer_ok (p : RuntimeTrustPeer) : Prop := PeerOk {
  po_id : bad_text 128 (rp_id p) = false;
  po_role : bad_text 128 (rp_role p) = false;
  po_host : bad_text 255 (rp_host p) = false /\ contains "://" (trim (rp_host p)) = false /\
            ends_with ".onion" (trim (rp_host p)) = true;
  po_port : rp_port p <> 0;
  po_kem : trim (rp_kem_pk_b64 p) <> ""%string;
  po_sig : trim (rp_sig_pk_b64 p) <> ""%string;
}.

Lemma validate_peers_spec seen l :
  validate_peers seen l = Ok tt <->
  Forall peer_ok l /\ NoDup (map (fun p => trim (rp_id p)) l) /\ Forall (fun p => trim (rp_id p) ∉ seen) l.
Proof.
  revert seen. induction l as [|p l IH]; intros seen; simpl; [by repeat constructor; try apply NoDup_nil_2|].
  rewrite !rbind_ok. setoid_rewrite fail_if_ok. rewrite NoDup_cons, !Forall_cons. split.
  - intros (? & Hid & Hv). rok. rewrite IH in Hv. destruct Hv as (Hok & Hnd & Hns).
    rewrite bool_decide_eq_false, negb_false_iff, Z.eqb_neq, !is_empty_false in *.
    rewrite Forall_forall in Hns. split_and!; try done.
    + intros (q & Hq & Hin)%list_elem_of_fmap. specialize (Hns q Hin). rewrite <- Hq in Hns. set_solver.
    + apply Forall_forall. intros q Hin. specialize (Hns q Hin). set_solver.
  - intros ([[] Hok] & [Hnin Hnd] & [Hns Hns']). exists tt. split; [done|].
    destruct po_host0 as (Hh1 & Hh2 & Hh3). unfold fail_if. rewrite bool_decide_eq_false_2 by done.
    rewrite po_role0, Hh1, Hh2, Hh3, (proj2 (Z.eqb_neq _ _) po_port0), !(proj2 (is_empty_false _)) by done.
    cbn [rbind negb]. apply IH. split_and!; [done|done|]. rewrite Forall_forall in *. intros q Hin.
    specialize (Hns' q Hin). intros [Heq%elem_of_singleton|?]%elem_of_union; [|done].
    apply Hnin, list_elem_of_fmap. eauto.
Qed.

(** ** The quorum *)

Section quorum.
Context (sha256 : string -> string) (json_to_vec : json -> string).
Context (b64_encode : string -> string) (b64_decode : string -> option string).
Context (falcon_sign : string -> string -> option string) (falcon_verify : string -> string -> string -> bool).

(** A signature of the peer listed with [role], by the listed key, over the
    bundle's own digest. *)
Record guard_signature (b : RuntimeTrustBundle) (role : string) (s : RuntimeTrustSignature) : Prop := GuardSignature {
  gs_role : trim (ts_signer_role s) = role;
  gs_peer : exists peer pk sig, peer ∈ rb_peers b /\ rp_id peer = trim (ts_signer_id s) /\ rp_role peer = role /\
    b64_decode (rp_sig_pk_b64 peer) = Some pk /\ b64_decode (ts_sig_b64 s) = Some sig /\
    falcon_verify pk (bundle_digest sha256 json_to_vec b) sig = true;
}.

Lemma trust_signature_ok b h ids roles s ids' roles' :
  check_trust_signature b64_decode falcon_verify b h (bundle_digest sha256 json_to_vec b) ids roles s = Ok (ids', roles') ->
  trim (ts_signer_id s) ∉ ids /\ trim (ts_signer_role s) ∉ roles /\ trim (ts_signer_role s) ∈ REQUIRED_GUARD_ROLES /\
  ids' = {[trim (ts_signer_id s)]} ∪ ids /\ roles' = {[trim (ts_signer_role s)]} ∪ roles /\
  guard_signature b (trim (ts_signer_role s)) s.
Proof.
  unfold check_trust_signature. cbv zeta. intros Hc. rok.
  repeat match goal with
    | K : negb (_ =? _)%string = false |- _ => apply negb_false_iff, String.eqb_eq in K
    | K : negb (bool_decide _) = false |- _ => apply negb_false_iff, bool_decide_eq_true in K
    | K : bool_decide _ = false |- _ => apply bool_decide_eq_false in K
    | K : negb _ = false |- _ => apply negb_false_iff in K
    | K : List.find _ _ = Some _ |- _ => apply find_some_elem in K as [? K%String.eqb_eq]
    | K : (_, _) = (_, _) |- _ => injection K as <- <-
    end.
  match goal with K : rp_sig_pk_b64 _ = ts_sig_pk_b64 _ |- _ => rewrite <- K in * end.
  split_and!; try done. split; [done|]. eexists _, _, _. repeat split; eassumption || congruence.
Qed.

Lemma quorum_inv b :
  verify_guard_quorum sha256 json_to_vec b64_decode falcon_verify b = Ok tt ->
  validate_bundle b = Ok tt /\
  exists s1 s2, (rb_signatures b = [s1; s2] \/ rb_signatures b = [s2; s1]) /\
    guard_signature b "ag-01" s1 /\ guard_signature b "ag-02" s2 /\ trim (ts_signer_id s1) <> trim (ts_signer_id s2).
Proof.
  unfold verify_guard_quorum. intros Hv. apply rbind_ok in Hv as ([] & Hval & Hv). split; [done|].
  apply rbind_ok in Hv as ([] & Hl%fail_if_ok%negb_false_iff%Nat.eqb_eq & Hv).
  apply rbind_ok in Hv as (roles & Hs & _). destruct (rb_signatures b) as [|s [|t [|? ?]]]; simpl in Hl; try lia.
  simpl in Hs. apply rbind_ok in Hs as ([ids1 roles1] & H1 & Hs). apply rbind_ok in Hs as ([ids2 roles2] & H2 & _).
  apply trust_signature_ok in H1 as (_ & _ & Hr1 & -> & -> & G1).
  apply trust_signature_ok in H2 as (Hi & Hr & Hr2 & _ & _ & G2).
  rewrite elem_of_union, elem_of_singleton in Hi, Hr. unfold REQUIRED_GUARD_ROLES in Hr1, Hr2.
  rewrite !elem_of_cons, elem_of_nil in Hr1, Hr2.
  destruct Hr1 as [E1|[E1|[]]], Hr2 as [E2|[E2|[]]]; rewrite E1 in *; rewrite E2 in *; try tauto.
  - exists s, t. split_and!; auto.
  - exists t, s. split_and!; auto.
Qed.

Lemma validate_bundle_peers b :
  validate_bundle b = Ok tt -> Forall peer_ok (rb_peers b) /\ NoDup (map (fun p => trim (rp_id p)) (rb_peers b)).
Proof.
  unfold validate_bundle. intros Hv. apply rbind_ok in Hv as (? & _ & Hv). apply rbind_ok in Hv as (? & _ & Hv).
  apply rbind_ok in Hv as (? & _ & Hv). apply rbind_ok in Hv as ([] & Hp & _). by apply validate_peers_spec in Hp as (? & ? & _).
Qed.
End quorum.

(** A bundle is trusted only with the signatures of both guards:
    verification succeeds only if it carries exactly one signature for role
    [ag-01] and one for [ag-02], by two different peers the bundle lists with
    that role, with the keys it lists for them, over the digest of its own
    content; and every listed peer is an onion service with keys, under an id
    no other peer has. *)
Theorem bundle_needs_both_guards (sha256 : string -> string) (json_to_vec : json -> string)
    (b64_decode : string -> option string) (falcon_verify : string -> string -> string -> bool) (b : RuntimeTrustBundle) :
  verify_guard_quorum sha256 json_to_vec b64_decode falcon_verify b = Ok tt ->
  Forall peer_ok (rb_peers b) /\ NoDup (map (fun p => trim (rp_id p)) (rb_peers b)) /\
  exists s1 s2, (rb_signatures b = [s1; s2] \/ rb_signatures b = [s2; s1]) /\
    guard_signature sha256 json_to_vec b64_decode falcon_verify b "ag-01" s1 /\
    guard_signature sha256 json_to_vec b64_decode falcon_verify b "ag-02" s2 /\
    trim (ts_signer_id s1) <> trim (ts_signer_id s2).
Proof.
  intros [Hval Hs]%quorum_inv. apply validate_bundle_peers in Hval as [Hok Hnd]. by split.
Qed.

(** ** The digest *)

#[global] Instance peer_key_inj : Inj (=) (=) peer_key.
Proof. intros [] [] [=]. by subst. Qed.

(** The digest the guards sign depends on the set of peers and not on the
    order in which a bundle lists them: a reordered bundle has the same hash, so
    the signatures of one are signatures of the other. *)
Theorem bundle_hash_order_free (sha256 : string -> string) (json_to_vec : json -> string)
    (b c : RuntimeTrustBundle) :
  rb_schema b = rb_schema c -> rb_trust_epoch b = rb_trust_epoch c -> rb_action_token b = rb_action_token c ->
  Permutation (rb_peers b) (rb_peers c) ->
  bundle_hash_hex sha256 json_to_vec b = bundle_hash_hex sha256 json_to_vec c.
Proof.
  intros Hs He Ha Hp. unfold bundle_hash_hex, bundle_digest, bundle_unsigned_json, sort_runtime_trust_peers.
  by rewrite Hs, He, Ha, (sort_by_perm peer_key _ _ Hp).
Qed.

(** ** Signing *)

Section sign_verify.
Context (sha256 : string -> string) (json_to_vec : json -> string).
Context (b64_encode : string -> string) (b64_decode : string -> option string).
Context (falcon_sign : string -> string -> option string) (falcon_verify : string -> string -> string -> bool).
(** SHA-256 has 32 bytes; base64 decodes what it encoded; Falcon accepts what it
    signed, and a signature is not encoded as white space. *)
Context (falcon_pair : string -> string -> Prop).
Hypothesis sha256_len : forall s, len (sha256 s) = 32.
Hypothesis b64_roundtrip : forall s, b64_decode (b64_encode s) = Some s.
Hypothesis falcon_correct : forall sk pk m sig,
  falcon_pair sk pk -> falcon_sign sk m = Some sig -> falcon_verify pk m sig = true /\ trim (b64_encode sig) <> ""%string.

Notation digest := (bundle_digest sha256 json_to_vec).
Notation hash := (bundle_hash_hex sha256 json_to_vec).

(** The signature that [sign_bundle] adds. *)
Record trust_signature_of (b : RuntimeTrustBundle) (id role sk pk : string) (s : RuntimeTrustSignature) : Prop := TrustSigOf {
  to_id : ts_signer_id s = trim id /\ bad_text 128 id = false;
  to_role : ts_signer_role s = trim role /\ bad_text 128 role = false;
  to_pk : ts_sig_pk_b64 s = b64_encode pk;
  to_sig : exists sig, ts_sig_b64 s = b64_encode sig /\ falcon_sign sk (digest b) = Some sig;
  to_hash : ts_hash_hex s = hash b;
  to_alg : ts_alg s = RUNTIME_TRUST_SIG_ALG;
}.

Lemma sign_bundle_ok id role sk pk now b b' :
  sign_bundle sha256 json_to_vec b64_encode falcon_sign id role sk pk now b = (b', Ok tt) ->
  validate_bundle b = Ok tt /\ exists s, trust_signature_of b id role sk pk s /\
    b' = with_signatures (put_trust_signature s (rb_signatures b)) b.
Proof.
  unfold sign_bundle, sbind, sget, slift, smodify, trust_text. destruct (validate_bundle b) as [[]|]; [|done].
  destruct (bad_text 128 id) eqn:Ei; [done|]. destruct (bad_text 128 role) eqn:Er; [done|].
  destruct (falcon_sign sk _) as [sig|] eqn:Es; [|done]. cbn [ok_or].
  intros [= <-]. split; [done|]. eexists. split; [|reflexivity]. constructor; simpl; eauto.
Qed.

Lemma hash_normal b : hex_norm 64 (hash b).
Proof. pose proof (hex_encode_norm (digest b)) as Hn. by rewrite (sha256_len _ : len (digest b) = 32) in Hn. Qed.

Lemma bad_text_trim n v : bad_text n (trim v) = bad_text n v.
Proof. unfold bad_text. by rewrite trim_idem. Qed.

(** The metadata of the signature of a listed key is in order. *)
Lemma own_metadata b id role sk pk s :
  trust_signature_of b id role sk pk s -> falcon_pair sk pk -> trim (b64_encode pk) <> ""%string ->
  validate_signature_metadata s = Ok tt.
Proof.
  intros [[Hi Bi] [Hr Br] Hp (sig & Hsig & Hf) Hh Ha] Hpair Hpk. destruct (falcon_correct _ _ _ _ Hpair Hf) as [_ Hne].
  destruct (hash_normal b) as [Hlen Hall]. unfold validate_signature_metadata, trust_text, trust_hex.
  rewrite Hi, Hr, !bad_text_trim, Bi, Br, Ha, Hh, Hp, Hsig, (hex_norm_trim 64 _ (hash_normal b)). cbn [rbind].
  rewrite Hlen, (sall_impl is_lower_hex is_ascii_hexdigit _ lower_hex_hexdigit Hall).
  apply is_empty_false in Hpk, Hne. by rewrite Hpk, Hne.
Qed.

Lemma check_own_trust_signature b id role sk pk s p ids roles :
  trust_signature_of b id role sk pk s -> falcon_pair sk pk -> trim (b64_encode pk) <> ""%string ->
  trim role ∈ REQUIRED_GUARD_ROLES -> trim id ∉ ids -> trim role ∉ roles ->
  List.find (fun p => rp_id p =? trim id)%string (rb_peers b) = Some p ->
  rp_role p = trim role -> rp_sig_pk_b64 p = b64_encode pk ->
  check_trust_signature b64_decode falcon_verify b (hash b) (digest b) ids roles s
  = Ok ({[trim id]} ∪ ids, {[trim role]} ∪ roles).
Proof.
  intros Hs Hpair Hne Hg Hi Hr Hf Hrole Hpk. unfold check_trust_signature.
  rewrite (own_metadata _ _ _ _ _ _ Hs Hpair Hne). cbn [rbind].
  destruct Hs as [[-> _] [-> _] Ep (sig & Es & Hsig) Eh _]. rewrite !trim_idem.
  rewrite (bool_decide_eq_true_2 _ Hg), (bool_decide_eq_false_2 _ Hi), (bool_decide_eq_false_2 _ Hr).
  cbn [negb fail_if rbind]. rewrite Eh, (hex_norm_trim 64 _ (hash_normal b)), lower_hex_id by apply (hash_normal b).
  rewrite String.eqb_refl, Hf. cbn [negb fail_if ok_or rbind].
  rewrite Hrole, Hpk, Ep, Es, !String.eqb_refl, !b64_roundtrip. cbn [negb fail_if ok_or rbind].
  destruct (falcon_correct _ _ _ _ Hpair Hsig) as [-> _]. done.
Qed.

Lemma trust_signature_content l b id role sk pk s :
  trust_signature_of (with_signatures l b) id role sk pk s -> trust_signature_of b id role sk pk s.
Proof. intros []. by constructor. Qed.

(** A listed peer has a key. *)
Lemma listed_key b id p : validate_bundle b = Ok tt ->
  List.find (fun p => rp_id p =? id)%string (rb_peers b) = Some p -> trim (rp_sig_pk_b64 p) <> ""%string.
Proof.
  intros [Hok _]%validate_bundle_peers [Hin _]%find_some_elem. rewrite Forall_forall in Hok. by destruct (Hok p Hin).
Qed.

Lemma validate_with_signatures l b :
  validate_bundle b = Ok tt -> validate_signatures l = Ok tt -> validate_bundle (with_signatures l b) = Ok tt.
Proof.
  unfold validate_bundle. simpl. intros Hv Hl. rok. rewrite Hl.
  repeat match goal with H : ?x = Ok _ |- context [?x] => rewrite H; cbn [rbind] | H : ?x = false |- context [?x] => rewrite H end.
  done.
Qed.

(** A bundle signed by two of its own peers with the guard roles, in this
    order and with the keys it lists for them, verifies. *)
Theorem bundle_signed_verifies b b1 b2 p1 p2 id1 id2 sk1 sk2 pk1 pk2 t1 t2 :
  rb_signatures b = [] ->
  sign_bundle sha256 json_to_vec b64_encode falcon_sign id1 "ag-01" sk1 pk1 t1 b = (b1, Ok tt) ->
  sign_bundle sha256 json_to_vec b64_encode falcon_sign id2 "ag-02" sk2 pk2 t2 b1 = (b2, Ok tt) ->
  trim id1 <> trim id2 -> falcon_pair sk1 pk1 -> falcon_pair sk2 pk2 ->
  List.find (fun p => rp_id p =? trim id1)%string (rb_peers b) = Some p1 ->
  List.find (fun p => rp_id p =? trim id2)%string (rb_peers b) = Some p2 ->
  rp_role p1 = "ag-01"%string -> rp_role p2 = "ag-02"%string ->
  rp_sig_pk_b64 p1 = b64_encode pk1 -> rp_sig_pk_b64 p2 = b64_encode pk2 ->
  verify_guard_quorum sha256 json_to_vec b64_decode falcon_verify b2 = Ok tt.
Proof.
  intros Hnil Hs1 Hs2 Hne K1 K2 F1 F2 R1 R2 P1 P2.
  apply sign_bundle_ok in Hs1 as (Hv & s1 & S1 & ->). apply sign_bundle_ok in Hs2 as (_ & s2 & S2 & ->).
  apply trust_signature_content in S2. rewrite Hnil in *. cbn [with_signatures put_trust_signature rb_signatures].
  pose proof (listed_key _ _ _ Hv F1) as N1. pose proof (listed_key _ _ _ Hv F2) as N2. rewrite P1 in N1. rewrite P2 in N2.
  rewrite (proj1 (to_id _ _ _ _ _ _ S1)), (proj1 (to_id _ _ _ _ _ _ S2)), (proj2 (String.eqb_neq _ _) Hne).
  set (l := [s1; s2]). change (with_signatures l (with_signatures [s1] b)) with (with_signatures l b).
  unfold verify_guard_quorum. rewrite (validate_with_signatures l b Hv).
  2:{ subst l. simpl. by rewrite (own_metadata _ _ _ _ _ _ S1), (own_metadata _ _ _ _ _ _ S2). }
  cbn [rbind]. replace (check_trust_signatures _ _ _ _ _ _ _ _) with (Ok (E:=TrustError) ({["ag-02"%string]} ∪ ({["ag-01"%string]} ∪ ∅) : gset string)).
  - reflexivity.
  - symmetry. subst l. cbn [with_signatures rb_signatures check_trust_signatures].
    change (check_trust_signature b64_decode falcon_verify (with_signatures [s1; s2] b)) with (check_trust_signature b64_decode falcon_verify b).
    change (hash (with_signatures _ _)) with (hash b). change (digest (with_signatures _ _)) with (digest b).
    rewrite (check_own_trust_signature b id1 "ag-01" sk1 pk1 s1 p1) by (done || set_solver). cbn [rbind].
    rewrite (check_own_trust_signature b id2 "ag-02" sk2 pk2 s2 p2); try done.
    + by apply list_elem_of_In; right; left.
    + rewrite elem_of_union, elem_of_singleton. intros [?|?%not_elem_of_empty]; done.
Qed.
End sign_verify.

(** ** Instances *)

Definition trust_peer (id role key : string) : RuntimeTrustPeer := MkRuntimePeer id role (id +:+ ".onion") 443 "kem" key.
Definition trust_bundle : RuntimeTrustBundle :=
  MkRuntimeBundle RUNTIME_TRUST_BUNDLE_SCHEMA_V1 "epoch-7"
    [trust_peer "signer-a" "signer" "ks"; trust_peer "guard-a" "ag-01" "ka"; trust_peer "guard-b" "ag-02" "kb"]
    (MkIssuer "nxms-auth" "EdDSA" "-----BEGIN PUBLIC KEY-----") [].
Definition sha_32 (_ : string) : string := repeat_byte "d" 32.
Definition trust_signed (id role k : string) (b : RuntimeTrustBundle) : RuntimeTrustBundle :=
  (sign_bundle sha_32 (fun _ => "json"%string) (fun s => s) demo_falcon_sign id role k k 1 b).1.
Definition trust_final : RuntimeTrustBundle :=
  trust_signed "guard-b" "ag-02" "kb" (trust_signed "guard-a" "ag-01" "ka" trust_bundle).

Lemma bundle_needs_both_guards_witness :
  Forall peer_ok (rb_peers trust_final).
Proof.
  apply (bundle_needs_both_guards sha_32 (fun _ => "json"%string) Some demo_falcon_verify trust_final).
  vm_compute; reflexivity.
Defined.

Lemma bundle_hash_order_free_witness :
  bundle_hash_hex sha_32 (fun _ => "json"%string) trust_bundle
  = bundle_hash_hex sha_32 (fun _ => "json"%string)
      (MkRuntimeBundle RUNTIME_TRUST_BUNDLE_SCHEMA_V1 "epoch-7" (rev (rb_peers trust_bundle)) (rb_action_token trust_bundle) []).
Proof.
  apply (bundle_hash_order_free sha_32 (fun _ => "json"%string) trust_bundle); try reflexivity. apply Permutation_rev.
Defined.

Lemma bundle_signed_verifies_witness :
  verify_guard_quorum sha_32 (fun _ => "json"%string) Some (fun pk m sig => demo_falcon_verify pk m sig && negb (is_empty (trim sig)))
    trust_final = Ok tt.
Proof.
  apply (bundle_signed_verifies sha_32 (fun _ => "json"%string) (fun s => s) Some
    (fun sk m => if is_empty (trim (sk +:+ m)) then None else Some (sk +:+ m)) _ (fun sk pk => sk = pk))
    with (b := trust_bundle) (b1 := trust_signed "guard-a" "ag-01" "ka" trust_bundle)
      (p1 := trust_peer "guard-a" "ag-01" "ka") (p2 := trust_peer "guard-b" "ag-02" "kb")
      (id1 := "guard-a"%string) (id2 := "guard-b"%string) (sk1 := "ka"%string) (sk2 := "kb"%string)
      (pk1 := "ka"%string) (pk2 := "kb"%string) (t1 := 1) (t2 := 1); try (vm_compute; reflexivity).
  - intros sk pk m sig -> Hs. destruct (is_empty (trim (pk +:+ m))) eqn:E; [done|]. injection Hs as <-. rewrite E.
    split; [unfold demo_falcon_verify; by rewrite String.eqb_refl|by apply is_empty_false].
  - vm_compute. discriminate.
Defined.
