(* ===== verification/TrustFiles.v ===== *)
(** * The files of the trust bundle

    [RuntimeTrustBundle::materialize_for_local] and the projection checks of
    [bootstrap.rs] on a file system: every operation may fail at any point, and
    a write that fails leaves a part of its data. *)

From S2P Require Import Prelude RustString Sql Json Wire Admission TransportCrypto Trust TrustProps Bytes.

#[export] Instance trust_io_error : IoError TrustError := TIo.

(** ** Operations *)

Section files.
(** Which operations succeed, what a failed write leaves, the mode of a new file. *)
Context (io : io_op -> string -> bool) (partial : string -> string) (umask_mode : Z).
Context (peers_to_vec : PeerBook -> string) (peers_from_slice : string -> option PeerBook).
Context (bundle_to_vec : RuntimeTrustBundle -> string) (bundle_from_slice : string -> option RuntimeTrustBundle).
Context (sha256 : string -> string) (json_to_vec : json -> string) (b64_decode : string -> option string).
Context (falcon_verify : string -> string -> string -> bool).

Notation FS := (M fs TrustError).

Local Notation must := (must io).
Local Notation fs_write := (fs_write io partial umask_mode).
Local Notation fs_chmod := (fs_chmod io).
Local Notation fs_rename := (fs_rename io).
Local Notation fs_read := (fs_read io).

Definition write_bytes_atomic (path value : string) (mode : Z) : FS unit :=
  let* _ := slift (fail_if (negb (has_parent path)) TNoParent) in
  let* _ := must IoMkdir path in
  let tmp := tmp_path path in
  let* _ := fs_write tmp value in
  let* _ := fs_chmod tmp mode in
  fs_rename tmp path.

(** [0o644] *)
Definition MODE_644 : Z := 420.
Definition materialize_for_local (b : RuntimeTrustBundle) (local_id peers_path pem_path : string) : FS unit :=
  let* peer_book := slift (peer_book_for b local_id) in
  let* _ := write_bytes_atomic peers_path (peers_to_vec peer_book) MODE_644 in
  write_bytes_atomic pem_path (ri_public_key_pem (rb_action_token b)) MODE_644.

Definition load_unverified (path : string) : FS RuntimeTrustBundle :=
  let* f := fs_read path in
  let* bundle := slift (ok_or (bundle_from_slice (f_bytes f)) TParse) in
  let* _ := slift (validate_bundle bundle) in
  sret bundle.
Definition load_verified (path : string) : FS RuntimeTrustBundle :=
  let* bundle := load_unverified path in
  let* _ := slift (verify_guard_quorum sha256 json_to_vec b64_decode falcon_verify bundle) in
  sret bundle.
Definition write_json (b : RuntimeTrustBundle) (path : string) : FS unit :=
  let* _ := slift (validate_bundle b) in write_bytes_atomic path (bundle_to_vec b) MODE_644.

Definition peer_book_load (path : string) : FS PeerBook :=
  let* f := fs_read path in
  let* book := slift (ok_or (peers_from_slice (f_bytes f)) TParse) in
  let* _ := slift (match pbk_peers book with [] => Err TNoPeers | _ => Ok tt end) in
  sret book.

(** [mode & 0o022] *)
Definition unsafe_write (mode : Z) : bool := negb (Z.land (Z.land mode 511) 18 =? 0).
Definition newline : string := String (Ascii.ascii_of_N 10) EmptyString.
Definition read_public_text (path : string) : FS string :=
  let* f := fs_read path in
  let* _ := slift (fail_if (negb (f_regular f)) TNotRegular) in
  let* _ := slift (fail_if (unsafe_write (f_mode f)) TUnsafeMode) in
  let* _ := slift (fail_if (negb (utf8_valid (f_bytes f))) (TIo path)) in
  let out := trim (f_bytes f) in
  let* _ := slift (fail_if (is_empty out) TEmptyFile) in
  sret (out +:+ newline).

(** [trim_end_matches(['\r', '\n', ' ', '\t'])] *)
Definition is_line_ws (c : ascii) : bool := existsb (fun n => byte_of c =? n) [13; 10; 32; 9].
Fixpoint drop_while (p : ascii -> bool) (l : list ascii) : list ascii :=
  match l with [] => [] | a :: l' => if p a then drop_while p l' else l end.
Definition normalize_text (value : string) : string := of_bytes (rev (drop_while is_line_ws (rev (bytes_of value)))).

(** The key pair is what the host's vault holds. *)
Definition materialize_runtime_trust (keys : Keys) (bundle_path local_id peers_path pem_path : string)
    : FS RuntimeTrustBundle :=
  let* bundle := load_verified bundle_path in
  let* _ := slift (validate_local_keys bundle local_id keys) in
  let* _ := materialize_for_local bundle local_id peers_path pem_path in
  sret bundle.

Definition verify_runtime_trust_projection (keys : Keys) (bundle_path local_id peers_path pem_path : string)
    : FS RuntimeTrustBundle :=
  let* bundle := load_verified bundle_path in
  let* _ := slift (validate_local_keys bundle local_id keys) in
  let* projected := slift (peer_book_for bundle local_id) in
  let* actual := peer_book_load peers_path in
  let* _ := slift (fail_if (negb (bool_decide (projected = actual))) TPeersMismatch) in
  let* actual_pem := read_public_text pem_path in
  let* _ := slift (fail_if (negb (normalize_text actual_pem =? normalize_text (ri_public_key_pem (rb_action_token bundle)))%string)
              TPemMismatch) in
  sret bundle.
End files.

(** ** Replacing a file *)

Section atomic.
Context (io : io_op -> string -> bool) (partial : string -> string) (umask_mode : Z).

(** What replacing a file does, whatever fails: the target is replaced as a
    whole, and that exactly when the call succeeds; other files stay. *)
Record replaced (path : string) (new : file) (f f' : fs) (r : result TrustError unit) : Prop := Replaced {
  rp_done : r = Ok tt -> f' !! path = Some new;
  rp_not : r <> Ok tt -> f' !! path = f !! path;
  rp_others : forall q, q <> path -> q <> tmp_path path -> f' !! q = f !! q;
}.

Lemma write_replaces path value mode f f' r :
  tmp_path path <> path -> write_bytes_atomic io partial umask_mode path value mode f = (f', r) ->
  replaced path (File true mode value) f f' r.
Proof.
  intros Htmp. unfold write_bytes_atomic, must, fs_write, fs_chmod, fs_rename, must, sbind, slift, smodify, sget, sfail. simpl.
  set (m0 := match f !! tmp_path path with Some o => f_mode o | None => umask_mode end).
  assert (forall x q, q <> tmp_path path -> <[tmp_path path := x]> f !! q = f !! q) as Hins by (intros; by rewrite lookup_insert_ne).
  unfold fail_if. destruct (has_parent path); simpl; [|intros [= <- <-]; by constructor].
  destruct (io IoMkdir path); simpl; [|intros [= <- <-]; by constructor].
  destruct (io IoWrite (tmp_path path)); simpl.
  2:{ intros [= <- <-]. constructor; [done|intros _; by apply Hins|intros q Hq Hq'; by apply Hins]. }
  destruct (io IoChmod (tmp_path path)); simpl.
  2:{ intros [= <- <-]. constructor; [done|intros _; by apply Hins|intros q Hq Hq'; by apply Hins]. }
  assert (alter (fun x => File (f_regular x) mode (f_bytes x)) (tmp_path path) (<[tmp_path path:=File true m0 value]> f)
          = <[tmp_path path := File true mode value]> f) as ->.
  { apply map_eq. intros q. destruct (decide (q = tmp_path path)) as [->|Hq].
    - by rewrite lookup_alter_eq, !lookup_insert_eq.
    - by rewrite lookup_alter_ne, !lookup_insert_ne. }
  destruct (io IoRename path); simpl.
  2:{ intros [= <- <-]. constructor; [done|intros _; by apply Hins|intros q Hq Hq'; by apply Hins]. }
  rewrite lookup_insert_eq. intros [= <- <-]. constructor; [|done|].
  - intros _. by rewrite lookup_insert_eq.
  - intros q Hq Hq'. by rewrite lookup_insert_ne, lookup_delete_ne, lookup_insert_ne.
Qed.
End atomic.

(** ** The projection *)

Section projection.
Context (io : io_op -> string -> bool) (partial : string -> string) (umask_mode : Z).
Context (peers_to_vec : PeerBook -> string) (peers_from_slice : string -> option PeerBook).
Context (bundle_from_slice : string -> option RuntimeTrustBundle).
Context (sha256 : string -> string) (json_to_vec : json -> string) (b64_decode : string -> option string).
Context (falcon_verify : string -> string -> string -> bool).

Notation materialize := (materialize_runtime_trust io partial umask_mode peers_to_vec bundle_from_slice sha256 json_to_vec
  b64_decode falcon_verify).
Notation verify := (verify_runtime_trust_projection io peers_from_slice bundle_from_slice sha256 json_to_vec b64_decode
  falcon_verify).
Notation load := (load_verified io bundle_from_slice sha256 json_to_vec b64_decode falcon_verify).

Lemma load_run path f : exists r, load path f = (f, r).
Proof.
  unfold load_verified, load_unverified. rewrite !sbind_run. destruct (fs_read_run io path f) as [[x|e] ->]; [|by eexists].
  unfold sbind, slift, sret. destruct (ok_or _ _); [|by eexists]. destruct (validate_bundle _); [|by eexists].
  destruct (verify_guard_quorum _ _ _ _ _); by eexists.
Qed.

(** The three files and the temporary ones are different files. *)
Record distinct_paths (bundle_path peers_path pem_path : string) : Prop := DistinctPaths {
  dp_peers : tmp_path peers_path <> peers_path;
  dp_pem : tmp_path pem_path <> pem_path;
  dp_other : peers_path <> pem_path /\ peers_path <> tmp_path pem_path /\ pem_path <> tmp_path peers_path;
  dp_bundle : bundle_path <> peers_path /\ bundle_path <> pem_path /\
              bundle_path <> tmp_path peers_path /\ bundle_path <> tmp_path pem_path;
}.

Lemma materialize_inv keys bundle_path local_id peers_path pem_path f f' r :
  distinct_paths bundle_path peers_path pem_path ->
  materialize keys bundle_path local_id peers_path pem_path f = (f', r) ->
  (f' = f /\ forall x, r <> Ok x) \/ exists b book f1 r1, load bundle_path f = (f, Ok b) /\ validate_local_keys b local_id keys = Ok tt /\
    peer_book_for b local_id = Ok book /\ replaced peers_path (File true MODE_644 (peers_to_vec book)) f f1 r1 /\
    ((r1 <> Ok tt /\ f' = f1 /\ forall x, r <> Ok x) \/
     (r1 = Ok tt /\ exists r2, replaced pem_path (File true MODE_644 (ri_public_key_pem (rb_action_token b))) f1 f' r2 /\
        r = match r2 with Ok _ => Ok b | Err e => Err e end)).
Proof.
  intros Hd. unfold materialize_runtime_trust. rewrite sbind_run. destruct (load_run bundle_path f) as [rl Hl]. rewrite Hl.
  destruct rl as [b|e]; [|intros [= <- <-]; by left]. rewrite sbind_run. unfold slift at 1.
  destruct (validate_local_keys b local_id keys) as [[]|e] eqn:Ek; [|intros [= <- <-]; by left].
  rewrite sbind_run. unfold materialize_for_local. rewrite sbind_run. unfold slift at 1.
  destruct (peer_book_for b local_id) as [book|e] eqn:Eb; [|intros [= <- <-]; by left]. rewrite sbind_run.
  destruct (write_bytes_atomic _ _ _ peers_path _ _ f) as [f1 r1] eqn:E1.
  apply write_replaces in E1; [|apply Hd]. intros Hm. right. exists b, book, f1, r1. split_and!; try done.
  destruct r1 as [[]|e]; [|injection Hm as <- <-; by left]. right. split; [done|].
  destruct (write_bytes_atomic _ _ _ pem_path _ _ f1) as [f2 r2] eqn:E2. apply write_replaces in E2; [|apply Hd].
  exists r2. destruct r2 as [[]|e]; injection Hm as <- <-; by split.
Qed.

(** The files a host keeps of the bundle are replaced as a whole, the
    peers before the key: after a call that failed at any point the key is the
    old one, and the list of peers is the old one or that of the bundle. *)
Theorem materialize_atomic keys bundle_path local_id peers_path pem_path f f' r :
  distinct_paths bundle_path peers_path pem_path ->
  materialize keys bundle_path local_id peers_path pem_path f = (f', r) ->
  (f' !! peers_path = f !! peers_path \/ exists b book, load bundle_path f = (f, Ok b) /\
     peer_book_for b local_id = Ok book /\ f' !! peers_path = Some (File true MODE_644 (peers_to_vec book))) /\
  ((forall b, r <> Ok b) -> f' !! pem_path = f !! pem_path) /\ f' !! bundle_path = f !! bundle_path.
Proof.
  intros Hd Hm. apply (materialize_inv _ _ _ _ _ _ _ _ Hd) in Hm.
  destruct Hd as [Hp Hk (Ho1 & Ho2 & Ho3) (Hb1 & Hb2 & Hb3 & Hb4)].
  destruct Hm as [[-> _]|(b & book & f1 & r1 & Hl & _ & Hbk & [D1 N1 O1] & Hm)]; [split_and!; [by left|done|done]|].
  destruct Hm as [(Hr1 & -> & _)|(-> & r2 & [D2 N2 O2] & Hr)].
  - split_and!; [left; by apply N1|intros _; by rewrite O1|by rewrite O1].
  - split_and!.
    + right. exists b, book. split_and!; try done. rewrite O2 by done. by apply D1.
    + intros Hfail. assert (r2 <> Ok tt) as Hr2; [|by rewrite N2, O1].
      intros ->. by eapply Hfail.
    + by rewrite O2, O1.
Qed.

Lemma drop_while_idem p l : drop_while p (drop_while p l) = drop_while p l.
Proof. induction l as [|a l IH]; simpl; [done|]. destruct (p a) eqn:E; [done|]. simpl. by rewrite E. Qed.
Lemma normalize_text_idem s : normalize_text (normalize_text s) = normalize_text s.
Proof. unfold normalize_text. by rewrite bytes_of_of, rev_involutive, drop_while_idem. Qed.
Lemma normalize_text_newline s : normalize_text (s +:+ newline) = normalize_text s.
Proof.
  unfold normalize_text. assert (bytes_of (s +:+ newline) = bytes_of s ++ [Ascii.ascii_of_N 10]) as ->.
  { induction s as [|c s IH]; [done|]. rewrite sapp_cons. simpl. f_equal. exact IH. }
  by rewrite rev_unit.
Qed.

Lemma load_same path f f' : f !! path = f' !! path -> (load path f').2 = (load path f).2.
Proof.
  intros Hf. unfold load_verified, load_unverified, fs_read, must, sbind, sget, slift, sret. rewrite Hf.
  unfold fail_if. destruct (negb _); [done|]. destruct (f' !! path) as [x|]; [|done]. simpl.
  destruct (ok_or _ _); [|done]. destruct (validate_bundle _); [|done]. by destruct (verify_guard_quorum _ _ _ _ _).
Qed.

Lemma load_pem path f b : load path f = (f, Ok b) -> is_empty (trim (ri_public_key_pem (rb_action_token b))) = false.
Proof.
  intros Hl. apply sbind_ok in Hl as (f1 & b' & _ & Hl). apply sbind_ok in Hl as (f2 & [] & Hq & [= _ <-]).
  unfold slift in Hq. injection Hq as _ Hq. unfold verify_guard_quorum in Hq. apply rbind_ok in Hq as ([] & Hv & _).
  unfold validate_bundle in Hv. apply rbind_ok in Hv as (? & _ & Hv). apply rbind_ok in Hv as (? & _ & Hv).
  apply rbind_ok in Hv as (? & _ & Hv). apply rbind_ok in Hv as (? & _ & Hv). apply rbind_ok in Hv as ([] & Hv & _).
  unfold validate_issuer in Hv. cbv zeta in Hv. by rok.
Qed.

Lemma peer_book_nonempty b local_id book : peer_book_for b local_id = Ok book -> pbk_peers book <> [].
Proof.
  unfold peer_book_for. cbv zeta. intros Hb. apply rbind_ok in Hb as (? & _ & Hb). apply rbind_ok in Hb as (? & Hn & Hb).
  injection Hb as <-. simpl. by destruct (map book_peer _).
Qed.

(** What was materialised passes the check of the projection: after a
    successful call the check accepts the files and returns the same bundle,
    provided the key of the bundle has no white space in front and only blanks
    and line ends behind. *)
Theorem projection_roundtrip keys bundle_path local_id peers_path pem_path f f' b :
  distinct_paths bundle_path peers_path pem_path ->
  (forall book, peer_book_for b local_id = Ok book -> peers_from_slice (peers_to_vec book) = Some book) ->
  io IoOpen peers_path = true -> io IoOpen pem_path = true ->
  utf8_valid (ri_public_key_pem (rb_action_token b)) = true ->
  normalize_text (ri_public_key_pem (rb_action_token b)) = trim (ri_public_key_pem (rb_action_token b)) ->
  materialize keys bundle_path local_id peers_path pem_path f = (f', Ok b) ->
  verify keys bundle_path local_id peers_path pem_path f' = (f', Ok b).
Proof.
  intros Hd Hserde Hio1 Hio2 Hutf Hpem Hm. apply (materialize_inv _ _ _ _ _ _ _ _ Hd) in Hm.
  destruct Hd as [_ _ (Ho1 & Ho2 & Ho3) (Hb1 & Hb2 & Hb3 & Hb4)].
  destruct Hm as [[_ Hm]|(b' & book & f1 & r1 & Hl & Hk & Hbk & [D1 _ O1] & Hm)]; [by destruct (Hm b)|].
  destruct Hm as [(_ & _ & Hr)|(-> & [u|e] & [D2 _ O2] & Hr)]; [by destruct (Hr b)| |done]. injection Hr as ->. destruct u.
  specialize (D1 eq_refl). specialize (D2 eq_refl).
  assert (load bundle_path f' = (f', Ok b')) as Hl'.
  { destruct (load_run bundle_path f') as [r Hr]. pose proof (load_same bundle_path f f') as Hs.
    rewrite Hl, Hr in Hs. simpl in Hs. rewrite Hr, Hs; [done|]. by rewrite O2, O1. }
  assert (f' !! peers_path = Some (File true MODE_644 (peers_to_vec book))) as Hpeers by (by rewrite O2).
  pose proof (load_pem _ _ _ Hl) as Hne. pose proof (peer_book_nonempty _ _ _ Hbk) as Hnb.
  unfold verify_runtime_trust_projection. rewrite sbind_run, Hl', sbind_run. unfold slift at 1. rewrite Hk, sbind_run.
  unfold slift at 1. rewrite Hbk, sbind_run.
  unfold peer_book_load, read_public_text, fs_read, must, sbind, sget, slift, sret, fail_if.
  rewrite Hio1, Hpeers. simpl. rewrite (Hserde book Hbk). simpl. destruct (pbk_peers book) eqn:Eb; [done|].
  rewrite bool_decide_eq_true_2 by done. simpl. rewrite Hio2, D2. simpl. rewrite Hutf. simpl. rewrite Hne. simpl.
  by rewrite normalize_text_newline, <- Hpem, normalize_text_idem, String.eqb_refl.
Qed.
End projection.

(** ** The signer's side, [crates/nxms-signer/src/trust.rs] *)

Record ActionTokenCfg : Type := MkActionTokenCfg { at_issuer : string; at_algorithm : string; at_public_key_pem_path : string }.
Record TrustCfg : Type := MkTrustCfg {
  tc_local_id : string; tc_peers_path : string; tc_runtime_trust_bundle_path : option string;
  tc_action_token : option ActionTokenCfg }.
Inductive SignerTrustError : Type :=
| STrust (e : TrustError) | SNoActionToken | SNoBundlePath | SIssuer | SAlgorithm.

Definition validate_action_token_config_against_bundle (cfg : TrustCfg) (bundle : RuntimeTrustBundle)
    : result SignerTrustError unit :=
  let? action_cfg := ok_or (tc_action_token cfg) SNoActionToken in
  let? _ := fail_if (negb (trim (at_issuer action_cfg) =? trim (ri_issuer (rb_action_token bundle)))%string) SIssuer in
  fail_if (negb (to_ascii_uppercase (trim (at_algorithm action_cfg))
                 =? to_ascii_uppercase (trim (ri_algorithm (rb_action_token bundle))))%string) SAlgorithm.

Section signer_trust.
Context (io : io_op -> string -> bool) (partial : string -> string) (umask_mode : Z).
Context (peers_to_vec : PeerBook -> string) (peers_from_slice : string -> option PeerBook).
Context (bundle_from_slice : string -> option RuntimeTrustBundle).
Context (sha256 : string -> string) (json_to_vec : json -> string) (b64_decode : string -> option string).
Context (falcon_verify : string -> string -> string -> bool).

Notation SFS := (M fs SignerTrustError).
Definition trust_step {A} (m : M fs TrustError A) : SFS A := fun f => let '(f', r) := m f in (f', map_err STrust r).

Definition load_runtime_trust_bundle_from_config (cfg : TrustCfg) : SFS (option RuntimeTrustBundle) :=
  match tc_runtime_trust_bundle_path cfg with
  | None => sret None
  | Some path =>
      let* bundle := trust_step (load_verified io bundle_from_slice sha256 json_to_vec b64_decode falcon_verify path) in
      let* _ := slift (validate_action_token_config_against_bundle cfg bundle) in
      sret (Some bundle)
  end.

(** [keys] are those of the host's vault. *)
Definition materialize_runtime_trust_from_config (cfg : TrustCfg) (keys : Keys) : SFS RuntimeTrustBundle :=
  let* bundle_path := slift (ok_or (tc_runtime_trust_bundle_path cfg) SNoBundlePath) in
  let* action_cfg := slift (ok_or (tc_action_token cfg) SNoActionToken) in
  let* bundle := trust_step (materialize_runtime_trust io partial umask_mode peers_to_vec bundle_from_slice sha256 json_to_vec
    b64_decode falcon_verify keys bundle_path (tc_local_id cfg) (tc_peers_path cfg) (at_public_key_pem_path action_cfg)) in
  let* _ := slift (validate_action_token_config_against_bundle cfg bundle) in
  sret bundle.

Definition validate_runtime_trust_projection (cfg : TrustCfg) (keys : Keys) : SFS (option RuntimeTrustBundle) :=
  match tc_runtime_trust_bundle_path cfg with
  | None => sret None
  | Some bundle_path =>
      let* action_cfg := slift (ok_or (tc_action_token cfg) SNoActionToken) in
      let* bundle := trust_step (verify_runtime_trust_projection io peers_from_slice bundle_from_slice sha256 json_to_vec
        b64_decode falcon_verify keys bundle_path (tc_local_id cfg) (tc_peers_path cfg) (at_public_key_pem_path action_cfg)) in
      let* _ := slift (validate_action_token_config_against_bundle cfg bundle) in
      sret (Some bundle)
  end.

End signer_trust.

Section signer_start.
Context (io : io_op -> string -> bool) (peers_from_slice : string -> option PeerBook).
Context (bundle_from_slice : string -> option RuntimeTrustBundle).
Context (sha256 : string -> string) (json_to_vec : json -> string) (b64_decode : string -> option string).
Context (falcon_verify : string -> string -> string -> bool).

Lemma trust_step_ok {A} (m : M fs TrustError A) f f' a : trust_step m f = (f', Ok a) -> m f = (f', Ok a).
Proof. unfold trust_step. destruct (m f) as [f1 [x|e]]; simpl; intros [=]; by subst. Qed.

Lemma signer_trusted_aux cfg keys f f' b :
  validate_runtime_trust_projection io peers_from_slice bundle_from_slice sha256 json_to_vec b64_decode falcon_verify
    cfg keys f = (f', Ok (Some b)) ->
  verify_guard_quorum sha256 json_to_vec b64_decode falcon_verify b = Ok tt /\
  (exists me, me ∈ rb_peers b /\ rp_id me = trim (tc_local_id cfg) /\ ky_kem_pk_b64 keys = rp_kem_pk_b64 me /\
     ky_sig_pk_b64 keys = rp_sig_pk_b64 me) /\
  exists file book, f !! tc_peers_path cfg = Some file /\ peers_from_slice (f_bytes file) = Some book /\
    forall p, p ∈ pbk_peers book <-> exists q, q ∈ rb_peers b /\ p = book_peer q /\ rp_id q <> trim (tc_local_id cfg).
Proof.
  unfold validate_runtime_trust_projection. destruct (tc_runtime_trust_bundle_path cfg) as [path|]; [|done]. intros Hv.
  apply sbind_ok in Hv as (f1 & action & [= <- _] & Hv). apply sbind_ok in Hv as (f2 & b' & Hp & Hv).
  apply sbind_ok in Hv as (f3 & u & [= -> _] & [= _ <-]). apply trust_step_ok in Hp.
  unfold verify_runtime_trust_projection in Hp. apply sbind_ok in Hp as (g1 & b & Hl & Hp).
  destruct (load_run io bundle_from_slice sha256 json_to_vec b64_decode falcon_verify path f) as [rl Hl']. rewrite Hl' in Hl.
  injection Hl as <- ->. apply sbind_ok in Hp as (g2 & u2 & [= <- Hk] & Hp).
  apply sbind_ok in Hp as (g3 & book & [= <- Hbook] & Hp). apply sbind_ok in Hp as (g4 & actual & Hload & Hp).
  apply sbind_ok in Hp as (g5 & u5 & [= -> Heq] & Hp). apply sbind_ok in Hp as (g6 & pem & _ & Hp).
  apply sbind_ok in Hp as (g7 & u7 & _ & [= _ <-]). rewrite fail_if_ok, negb_false_iff, bool_decide_eq_true in Heq. subst actual.
  split_and!.
  - unfold load_verified in Hl'. apply sbind_ok in Hl' as (h1 & x & _ & Hl'). apply sbind_ok in Hl' as (h2 & [] & [= _ Hq] & [= _ <-]). done.
  - unfold validate_local_keys, local_peer in Hk. apply rbind_ok in Hk as (me & Hme & Hk). rok.
    match goal with K : List.find _ _ = Some _ |- _ => apply find_some_elem in K as [Hin Hid%String.eqb_eq] end.
    repeat match goal with K : negb (_ =? _)%string = false |- _ => apply negb_false_iff, String.eqb_eq in K end. by exists me.
  - unfold peer_book_load, fs_read in Hload. apply sbind_ok in Hload as (h1 & file & Hread & Hload).
    apply sbind_ok in Hread as (h2 & found & [= <- <-] & Hread). apply sbind_ok in Hread as (h3 & ? & _ & [= _ Hfound]).
    apply sbind_ok in Hload as (h4 & bk & [= _ Hparse] & Hload). apply sbind_ok in Hload as (h5 & ? & _ & [= _ <-]).
    rewrite ok_or_ok in Hfound. rewrite ok_or_ok in Hparse. exists file, bk. split_and!; [done..|]. intros p.
    unfold peer_book_for in Hbook. cbv zeta in Hbook. apply rbind_ok in Hbook as (? & _ & Hbook).
    apply rbind_ok in Hbook as (? & _ & [= <-]). simpl. rewrite list_elem_of_fmap. setoid_rewrite list_elem_of_In.
    setoid_rewrite List.filter_In. setoid_rewrite negb_true_iff. setoid_rewrite String.eqb_neq. naive_solver.
Qed.

(** A signer that starts with a trust bundle starts with one that both
    guards signed, in which it is listed with the keys of its own vault, and
    its allow list is exactly that of the bundle: a sender the signer knows is a
    listed peer, with the listed keys, and not the signer itself. *)
Theorem signer_starts_trusted cfg keys f f' b :
  validate_runtime_trust_projection io peers_from_slice bundle_from_slice sha256 json_to_vec b64_decode falcon_verify
    cfg keys f = (f', Ok (Some b)) ->
  verify_guard_quorum sha256 json_to_vec b64_decode falcon_verify b = Ok tt /\
  (exists me, me ∈ rb_peers b /\ rp_id me = trim (tc_local_id cfg) /\ ky_kem_pk_b64 keys = rp_kem_pk_b64 me /\
     ky_sig_pk_b64 keys = rp_sig_pk_b64 me) /\
  exists file book, f !! tc_peers_path cfg = Some file /\ peers_from_slice (f_bytes file) = Some book /\
    forall p, p ∈ pbk_peers book <-> exists q, q ∈ rb_peers b /\ p = book_peer q /\ rp_id q <> trim (tc_local_id cfg).
Proof. apply signer_trusted_aux. Qed.
End signer_start.

(** ** Instances *)

Definition good_io (_ : io_op) (_ : string) : bool := true.
(** Renaming the key file fails. *)
Definition stuck_io (op : io_op) (path : string) : bool :=
  match op with IoRename => negb (path =? "run/key.pem")%string | _ => true end.
Definition demo_to_vec (b : PeerBook) : string := String.concat "," (map bp_id (pbk_peers b)).
(** The parser knows one text. *)
Definition demo_book : PeerBook := MkPeerBook (map book_peer (tail (rb_peers trust_final))).
Definition demo_from_slice (s : string) : option PeerBook := if (s =? "guard-a,guard-b")%string then Some demo_book else None.
Definition demo_json (_ : json) : string := "json".
Definition host_keys : Keys := MkKeys "kem-sk" "kem" "sig-sk" "ks".
Definition start_fs : fs := {["run/trust.json"%string := File true MODE_644 "bundle"]}.
Definition demo_materialize (io : io_op -> string -> bool) (b : RuntimeTrustBundle) : fs * result TrustError RuntimeTrustBundle :=
  materialize_runtime_trust io (fun s => s) 384 demo_to_vec (fun _ => Some b) sha_32 demo_json Some demo_falcon_verify
    host_keys "run/trust.json" "signer-a" "run/peers.json" "run/key.pem" start_fs.

Lemma demo_paths : distinct_paths "run/trust.json" "run/peers.json" "run/key.pem".
Proof. split; vm_compute; repeat split; discriminate. Qed.

Lemma materialize_atomic_witness :
  let f' := (demo_materialize stuck_io trust_final).1 in
  is_ok (demo_materialize stuck_io trust_final).2 = false /\ f' !! "run/key.pem"%string = None /\
  f' !! "run/peers.json"%string = Some (File true MODE_644 "guard-a,guard-b").
Proof.
  intros f'. split; [vm_compute; reflexivity|].
  destruct (materialize_atomic stuck_io (fun s => s) 384 demo_to_vec (fun _ => Some trust_final) sha_32 demo_json Some
    demo_falcon_verify host_keys "run/trust.json" "signer-a" "run/peers.json" "run/key.pem" start_fs f'
    (demo_materialize stuck_io trust_final).2 demo_paths) as (_ & Hpem & _).
  - vm_compute. reflexivity.
  - split; [|vm_compute; reflexivity]. rewrite Hpem; [reflexivity|]. intros b Hb. vm_compute in Hb. discriminate.
Defined.

Lemma projection_roundtrip_witness :
  let f' := (demo_materialize good_io trust_final).1 in
  verify_runtime_trust_projection good_io demo_from_slice (fun _ => Some trust_final) sha_32 demo_json Some demo_falcon_verify
    host_keys "run/trust.json" "signer-a" "run/peers.json" "run/key.pem" f' = (f', Ok trust_final).
Proof.
  intros f'. apply (projection_roundtrip good_io (fun s => s) 384 demo_to_vec demo_from_slice (fun _ => Some trust_final) sha_32
    demo_json Some demo_falcon_verify host_keys "run/trust.json" "signer-a" "run/peers.json" "run/key.pem" start_fs f' trust_final).
  - apply demo_paths.
  - intros book Hb. assert (peer_book_for trust_final "signer-a" = Ok demo_book) as Hd by (vm_compute; reflexivity).
    rewrite Hd in Hb. injection Hb as <-. vm_compute. reflexivity.
  - reflexivity.
  - reflexivity.
  - vm_compute. reflexivity.
  - vm_compute. reflexivity.
  - vm_compute. reflexivity.
Defined.

(** The signer's configuration for these files. *)
Definition demo_cfg : TrustCfg :=
  MkTrustCfg "signer-a" "run/peers.json" (Some "run/trust.json"%string) (Some (MkActionTokenCfg "nxms-auth" "eddsa" "run/key.pem")).

Lemma signer_starts_trusted_witness :
  verify_guard_quorum sha_32 demo_json Some demo_falcon_verify trust_final = Ok tt.
Proof.
  apply (signer_starts_trusted good_io demo_from_slice (fun _ => Some trust_final) sha_32 demo_json Some demo_falcon_verify
    demo_cfg host_keys (demo_materialize good_io trust_final).1 (demo_materialize good_io trust_final).1 trust_final).
  vm_compute. reflexivity.
Defined.

(** A key with a blank in front, which validation accepts, is materialised and
    then refused by the check of the projection. *)
Definition blank_key_bundle : RuntimeTrustBundle :=
  trust_signed "guard-b" "ag-02" "kb" (trust_signed "guard-a" "ag-01" "ka"
    (MkRuntimeBundle (rb_schema trust_bundle) (rb_trust_epoch trust_bundle) (rb_peers trust_bundle)
       (MkIssuer "nxms-auth" "EdDSA" " -----BEGIN PUBLIC KEY-----") [])).
Theorem blank_key_refused :
  let out := demo_materialize good_io blank_key_bundle in
  out.2 = Ok blank_key_bundle /\
  (verify_runtime_trust_projection good_io demo_from_slice (fun _ => Some blank_key_bundle) sha_32 demo_json Some
     demo_falcon_verify host_keys "run/trust.json" "signer-a" "run/peers.json" "run/key.pem" out.1).2 = Err TPemMismatch.
Proof. vm_compute. split; reflexivity. Qed.
