(* ===== verification/VaultProps.v ===== *)
(** * Properties of vaults

    The header of a vault file is read exactly as it is written; a vault opens to
    what was stored in it; PEM texts and issuer bundles are canonical. *)

From S2P Require Import Prelude RustString Bytes Packet PacketProps TransportCrypto TransportCryptoProps Trust Vault.

(** ** Headers *)

(** The six fields one after the other. *)
Lemma slices_app a b c d e f rest :
  len a = 4 -> len b = 16 -> len c = 8 -> len d = 8 -> len e = 24 -> len f = 4 ->
  let s := a +:+ b +:+ c +:+ d +:+ e +:+ f +:+ rest in
  slice 0 4 s = a /\ slice 4 20 s = b /\ slice 20 28 s = c /\ slice 28 36 s = d /\ slice 36 60 s = e /\ slice 60 64 s = f.
Proof.
  intros Ha Hb Hc Hd He Hf s. unfold slice, s. unfold len in *.
  assert (String.length a = 4%nat /\ String.length b = 16%nat /\ String.length c = 8%nat /\ String.length d = 8%nat
    /\ String.length e = 24%nat /\ String.length f = 4%nat) as (La & Lb & Lc & Ld & Le & Lf) by lia.
  assert (Hdrop : forall n p t, String.length p = n -> sdrop n (p +:+ t) = t) by (intros; by apply sdrop_app).
  repeat split; [by apply stake_app|..].
  - rewrite (Hdrop 4%nat a) by done. by apply stake_app.
  - rewrite <- (sapp_assoc a b), (Hdrop 20%nat) by (rewrite length_sapp; lia). by apply stake_app.
  - rewrite <- (sapp_assoc a b), <- (sapp_assoc _ c), (Hdrop 28%nat) by (rewrite !length_sapp; lia). by apply stake_app.
  - rewrite <- (sapp_assoc a b), <- (sapp_assoc _ c), <- (sapp_assoc _ d), (Hdrop 36%nat) by (rewrite !length_sapp; lia). by apply stake_app.
  - rewrite <- (sapp_assoc a b), <- (sapp_assoc _ c), <- (sapp_assoc _ d), <- (sapp_assoc _ e), (Hdrop 60%nat)
      by (rewrite !length_sapp; lia). by apply stake_app.
Qed.

Lemma slices_join s : (64 <= String.length s)%nat ->
  s = slice 0 4 s +:+ slice 4 20 s +:+ slice 20 28 s +:+ slice 28 36 s +:+ slice 36 60 s +:+ slice 60 64 s +:+ sdrop 64 s.
Proof.
  intros _. unfold slice. cbn [Nat.sub].
  assert (E : forall n m k, (n + m = k)%nat -> stake m (sdrop n s) +:+ sdrop k s = sdrop n s)
    by (intros n m k <-; by rewrite <- (sdrop_sdrop m n), stake_sdrop).
  rewrite (E 60%nat 4%nat 64%nat), (E 36%nat 24%nat 60%nat), (E 28%nat 8%nat 36%nat), (E 20%nat 8%nat 28%nat), (E 4%nat 16%nat 20%nat),
    (E 0%nat 4%nat 4%nat) by done. done.
Qed.
Lemma len_slice i j s : (i <= j)%nat -> (j <= String.length s)%nat -> len (slice i j s) = Z.of_nat (j - i).
Proof. intros Hi Hj. unfold slice, len. rewrite length_stake, length_sdrop. lia. Qed.

Section header.
Context (magic : string) (max_ct_len : Z) (opslimit_interactive memlimit_interactive : Z).
Context (Hmagic : len magic = 4) (Hmax : 0 < max_ct_len < 2 ^ 32).
Notation parse := (header_parse magic max_ct_len opslimit_interactive memlimit_interactive).
Notation write := (header_write magic).

Record header_ok (h : VaultHeader) : Prop := HeaderOk {
  ho_salt : len (vh_salt h) = 16;
  ho_nonce : len (vh_nonce h) = 24;
  ho_ops : 0 <= vh_opslimit h < 2 ^ 64;
  ho_mem : 0 <= vh_memlimit h < 2 ^ 64;
  ho_policy : validate_kdf_policy opslimit_interactive memlimit_interactive (vh_opslimit h) (vh_memlimit h) = Ok tt;
  ho_ct : 1 <= vh_ct_len h <= max_ct_len;
}.

Lemma len_header h : header_ok h -> len (write h) = 64.
Proof.
  intros [Hs Hn _ _ _ _]. unfold header_write. rewrite !len_app, Hmagic, Hs, Hn. unfold u64_le, u32_le. by rewrite !len_le_bytes.
Qed.

(** The bytes of a vault file that are accepted are those that are written. *)
Lemma header_parse_write h ct : header_ok h -> len ct = vh_ct_len h -> parse (write h +:+ ct) = Ok h.
Proof.
  intros Hh Hct. pose proof (len_header h Hh) as Hlen. destruct Hh as [Hs Hn Ho Hm Hp Hc]. unfold header_parse.
  assert (Hl : len (write h +:+ ct) = 64 + vh_ct_len h) by (rewrite len_app; lia).
  rewrite (proj2 (Nat.ltb_ge _ _)) by (unfold len, VAULT_HEADER_LEN in *; lia). cbn [fail_if rbind].
  destruct (slices_app magic (vh_salt h) (u64_le (vh_opslimit h)) (u64_le (vh_memlimit h)) (vh_nonce h) (u32_le (vh_ct_len h)) ct)
    as (E1 & E2 & E3 & E4 & E5 & E6); try done; try apply len_le_bytes.
  assert (Ew : write h +:+ ct = magic +:+ vh_salt h +:+ u64_le (vh_opslimit h) +:+ u64_le (vh_memlimit h) +:+ vh_nonce h
    +:+ u32_le (vh_ct_len h) +:+ ct) by (unfold header_write; by rewrite !sapp_assoc).
  rewrite <- Ew in E1, E2, E3, E4, E5, E6. rewrite E1, E2, E3, E4, E5, E6, String.eqb_refl. cbn [negb fail_if rbind].
  unfold u64_le, u32_le. rewrite (le_value_le 8 (vh_opslimit h)), (le_value_le 8 (vh_memlimit h)) by done.
  rewrite (le_value_le 4) by (change (256 ^ Z.of_nat 4) with (2 ^ 32); lia). rewrite Hp. cbn [rbind].
  rewrite (proj2 (Z.eqb_neq _ _)), (proj2 (Z.ltb_ge _ _)) by lia. cbn [orb fail_if rbind].
  rewrite Hl. unfold VAULT_HEADER_LEN. rewrite (proj2 (Z.eqb_eq _ _)) by lia. cbn. by destruct h.
Qed.

Lemma header_parse_inv blob h : parse blob = Ok h -> header_ok h /\ exists ct, blob = write h +:+ ct /\ len ct = vh_ct_len h.
Proof.
  unfold header_parse. intros H. cbv zeta in H. rok.
  match goal with E : (String.length blob <? _)%nat = false |- _ => apply Nat.ltb_ge in E; rename E into Hlen end.
  match goal with E : negb (slice 0 4 blob =? magic)%string = false |- _ => apply negb_false_iff, String.eqb_eq in E; rename E into Emagic end.
  match goal with E : (_ =? 0) || _ = false |- _ => apply orb_false_iff in E as [Ez%Z.eqb_neq Ec%Z.ltb_ge] end.
  match goal with E : negb (len blob =? _) = false |- _ => apply negb_false_iff, Z.eqb_eq in E; rename E into Elen end.
  unfold VAULT_HEADER_LEN in *.
  assert (Hb : forall i j, (i <= j)%nat -> (j <= 64)%nat -> 0 <= le_value (slice i j blob) < 256 ^ Z.of_nat (j - i)).
  { intros i j Hij Hj. pose proof (le_value_bound (slice i j blob)) as B. by rewrite len_slice in B by lia. }
  split.
  - constructor; cbn [vh_salt vh_opslimit vh_memlimit vh_nonce vh_ct_len].
    + rewrite len_slice by lia. done.
    + rewrite len_slice by lia. done.
    + apply (Hb 20%nat 28%nat); lia.
    + apply (Hb 28%nat 36%nat); lia.
    + by destruct v1.
    + specialize (Hb 60%nat 64%nat ltac:(lia) ltac:(lia)). lia.
  - exists (sdrop 64 blob). unfold header_write. cbn [vh_salt vh_opslimit vh_memlimit vh_nonce vh_ct_len]. split.
    + unfold u64_le, u32_le. rewrite !le_of_value by (rewrite len_slice by lia; done). rewrite <- Emagic.
      rewrite !sapp_assoc. by apply slices_join.
    + unfold len in *. rewrite length_sdrop. lia.
Qed.

(** The header of a vault file is read exactly: a file is accepted with
    header [h] when it is the 64 bytes written for [h] and then as many bytes as
    [h] announces, and [h] is within the limits on the key derivation and the
    size; every other file is refused. *)
Theorem vault_header_exact blob h :
  parse blob = Ok h <-> header_ok h /\ exists ct, blob = write h +:+ ct /\ len ct = vh_ct_len h.
Proof. split; [apply header_parse_inv|]. intros (Hh & ct & -> & Hct). by apply header_parse_write. Qed.
End header.

(** ** Sealing and opening *)

Section blob.
Context (magic : string) (max_ct_len : Z) (ops mem : Z).
Context (pwhash : string -> string -> Z -> Z -> option string).
Context (aead_encrypt aead_decrypt : string -> string -> string -> string -> option string).
Context (Hmagic : len magic = 4) (Hmax : 0 < max_ct_len < 2 ^ 31).
Context (Hops : 1 <= ops <= U64_MAX) (Hmem : 1 <= mem <= U64_MAX).
Notation seal := (seal_blob magic max_ct_len ops mem pwhash aead_encrypt).
Notation open := (open_blob magic max_ct_len ops mem pwhash aead_decrypt).

Lemma own_policy : validate_kdf_policy ops mem ops mem = Ok tt.
Proof.
  unfold validate_kdf_policy, fail_if, sat_mul_u64, VAULT_KDF_POLICY_MULTIPLIER.
  rewrite !(proj2 (Z.eqb_neq _ _)), !(proj2 (Z.ltb_ge _ _)) by lia. done.
Qed.

Lemma seal_blob_inv passphrase salt nonce m blob :
  seal passphrase salt nonce m = Ok blob -> exists key c, len m <= max_ct_len /\ pwhash passphrase salt ops mem = Some key
    /\ aead_encrypt m (header_write magic (MkHeader salt ops mem nonce (len m + 16))) nonce key = Some c
    /\ blob = header_write magic (MkHeader salt ops mem nonce (len m + 16)) +:+ c.
Proof.
  unfold seal_blob, derive_key. intros H. cbv zeta in H. rok. eexists _, _. split_and!; [|done|done|done]. by apply Z.ltb_ge.
Qed.

(** What the cipher guarantees: it opens what it sealed, sixteen bytes longer. *)
Definition aead_correct : Prop := forall m aad n k c,
  aead_encrypt m aad n k = Some c -> aead_decrypt c aad n k = Some m /\ len c = len m + 16.

Lemma blob_roundtrip passphrase salt nonce m blob :
  aead_correct -> len salt = 16 -> len nonce = 24 -> len m + 16 <= max_ct_len ->
  seal passphrase salt nonce m = Ok blob -> open passphrase blob = Ok m.
Proof.
  intros Ha Hs Hn Hm H. apply seal_blob_inv in H as (key & c & _ & Hk & He & ->). pose proof (len_nonneg m).
  destruct (Ha _ _ _ _ _ He) as [Hd Hc]. set (h := MkHeader salt ops mem nonce (len m + 16)) in *.
  assert (Hh : header_ok max_ct_len ops mem h).
  { constructor; cbn; unfold U64_MAX in *; try done; try lia. apply own_policy. }
  unfold open_blob. rewrite (header_parse_write magic max_ct_len ops mem Hmagic ltac:(lia) h c Hh Hc). cbn [rbind]. cbv zeta.
  assert (Hl : String.length (header_write magic h) = VAULT_HEADER_LEN).
  { pose proof (len_header magic max_ct_len ops mem Hmagic h Hh). unfold len, VAULT_HEADER_LEN in *. lia. }
  rewrite stake_app, sdrop_app by done. unfold derive_key. cbn [h vh_salt vh_opslimit vh_memlimit vh_nonce]. rewrite Hk. cbn [ok_or rbind].
  by rewrite Hd.
Qed.

(** A payload in the last sixteen bytes below the limit is sealed and never opens. *)
Lemma blob_trap passphrase passphrase' salt nonce m blob :
  aead_correct -> len salt = 16 -> len nonce = 24 -> max_ct_len - 16 < len m ->
  seal passphrase salt nonce m = Ok blob -> open passphrase' blob = Err VCtLen.
Proof.
  intros Ha Hs Hn Hm H. apply seal_blob_inv in H as (key & c & Hle & Hk & He & ->).
  destruct (Ha _ _ _ _ _ He) as [_ Hc]. unfold open_blob, header_parse.
  set (w := header_write magic _ +:+ c).
  assert (Ew : w = magic +:+ salt +:+ u64_le ops +:+ u64_le mem +:+ nonce +:+ u32_le (len m + 16) +:+ c)
    by (unfold w, header_write; cbn [vh_salt vh_opslimit vh_memlimit vh_nonce vh_ct_len]; by rewrite !sapp_assoc).
  assert (Hl : len w = 64 + len c).
  { rewrite Ew, !len_app, Hmagic, Hs, Hn. unfold u64_le, u32_le. rewrite !len_le_bytes. lia. }
  rewrite (proj2 (Nat.ltb_ge _ _)) by (unfold len, VAULT_HEADER_LEN in *; lia). cbn [fail_if rbind].
  destruct (slices_app magic salt (u64_le ops) (u64_le mem) nonce (u32_le (len m + 16)) c) as (E1 & _ & E3 & E4 & _ & E6);
    try done; try apply len_le_bytes.
  rewrite <- Ew in E1, E3, E4, E6. rewrite E1, E3, E4, E6, String.eqb_refl. cbn [negb fail_if rbind].
  unfold u64_le, u32_le, U64_MAX in *. pose proof (len_nonneg m).
  rewrite (le_value_le 8 ops), (le_value_le 8 mem) by (change (256 ^ Z.of_nat 8) with (2 ^ 64); lia).
  rewrite own_policy. cbn [rbind]. rewrite (le_value_le 4) by (change (256 ^ Z.of_nat 4) with (2 ^ 32); lia).
  rewrite (proj2 (Z.eqb_neq _ _)), (proj2 (Z.ltb_lt _ _)) by lia. done.
Qed.
End blob.

(** ** The path of a vault *)

Lemma split_last_none c l : Forall (fun a => a <> c) l -> split_last c l = ([], l).
Proof.
  induction 1 as [|a l Ha _ IH]; [done|]. cbn [split_last]. rewrite IH. destruct (a =? c)%char eqn:E; [|done].
  by apply Ascii.eqb_eq in E.
Qed.
Lemma split_last_app c l r : Forall (fun a => a <> c) r -> split_last c (l ++ c :: r) = (l ++ [c], r).
Proof.
  intros Hr. induction l as [|a l IH]; cbn [app split_last].
  - by rewrite (split_last_none c r Hr), Ascii.eqb_refl.
  - rewrite IH. by destruct l.
Qed.

(** The file is in a directory, or in the current one. *)
Lemma vault_path_shape dir : exists d, vault_bin_path dir = d +:+ "vault.bin" /\ (d = EmptyString \/ exists d', bytes_of d = d' ++ ["/"%char]).
Proof.
  unfold vault_bin_path. destruct (rev (bytes_of dir)) as [|c r] eqn:E; [exists EmptyString; by split; [|left]|].
  destruct (byte_of c =? 47) eqn:Ec.
  - exists dir. split; [done|]. right. exists (rev r). rewrite <- (rev_involutive (bytes_of dir)), E. cbn [rev]. do 2 f_equal.
    apply Z.eqb_eq in Ec. unfold byte_of in Ec. rewrite <- (Ascii.ascii_N_embedding c). replace (Ascii.N_of_ascii c) with 47%N by lia. done.
  - exists (dir +:+ "/"). split; [by rewrite sapp_assoc|]. right. exists (bytes_of dir). by rewrite bytes_app.
Qed.

Lemma vault_tmp_differs pid dir : secret_temp_path pid (vault_bin_path dir) <> vault_bin_path dir.
Proof.
  destruct (vault_path_shape dir) as (d & -> & Hd). unfold secret_temp_path, with_extension.
  assert (Hs : split_last "/" (bytes_of (d +:+ "vault.bin")) = (bytes_of d, bytes_of "vault.bin")).
  { rewrite bytes_app. assert (Hf : Forall (fun a => a <> "/"%char) (bytes_of "vault.bin")) by (repeat constructor; discriminate).
    destruct Hd as [->|(d' & ->)]; [by apply split_last_none|]. rewrite <- app_assoc. by apply split_last_app. }
  rewrite Hs. change (split_last "." (bytes_of "vault.bin")) with (bytes_of "vault.", bytes_of "bin").
  rewrite bool_decide_eq_false_2 by (vm_compute; discriminate). intros H. apply (f_equal bytes_of) in H.
  rewrite !bytes_app, bytes_of_of in H. cbn [bytes_of String.list_ascii_of_string rev app] in H. rewrite <- app_assoc in H.
  apply app_inv_head in H. discriminate H.
Qed.

(** ** Host vaults *)

Section host.
Context (sodium_init ops mem : Z).
Context (pwhash : string -> string -> Z -> Z -> option string).
Context (aead_encrypt aead_decrypt : string -> string -> string -> string -> option string).
Context (io : io_op -> string -> bool) (partial : string -> string) (umask pid : Z).
Context (b64_decode : string -> option string).
Context (to_vec : HostVault -> string) (from_slice : string -> option HostVault).
Context (Hops : 1 <= ops <= U64_MAX) (Hmem : 1 <= mem <= U64_MAX).
Context (Haead : aead_correct aead_encrypt aead_decrypt).

Notation store := (store_host_vault sodium_init ops mem pwhash aead_encrypt io partial umask pid b64_decode to_vec).
Notation load := (load_host_vault sodium_init ops mem pwhash aead_decrypt io b64_decode from_slice).
Definition host_payload (local_id : string) (keys : Keys) : HostVault := MkHostVault HOST_VAULT_SCHEMA_V1 local_id NXMS_KEM_ID NXMS_SIG_ID keys.

Lemma host_limit : 0 < HOST_VAULT_MAX_CT_LEN < 2 ^ 31.
Proof. by vm_compute. Qed.

Lemma store_inv dir passphrase local_id keys salt nonce f f' :
  store dir passphrase local_id keys salt nonce f = (f', Ok tt) ->
  exists blob, init_sodium sodium_init = Ok tt /\ validate_passphrase passphrase = Ok tt /\ validate_local_id local_id = Ok tt
    /\ validate_keys b64_decode keys = Ok tt /\ host_seal ops mem pwhash aead_encrypt passphrase salt nonce (to_vec (host_payload local_id keys)) = Ok blob
    /\ f' !! vault_bin_path dir = Some (File true MODE_600 blob).
Proof.
  unfold store_host_vault, prepare_dir. intros H.
  apply sbind_ok in H as (f1 & [] & [= <- H1] & H). apply sbind_ok in H as (f2 & [] & [= <- H2] & H).
  apply sbind_ok in H as (f3 & [] & [= <- H3] & H). apply sbind_ok in H as (f4 & [] & [= <- H4] & H).
  apply sbind_ok in H as (f5 & [] & H5 & H). apply sbind_ok in H5 as (f6 & [] & [= <- _] & [= <- _]).
  apply sbind_ok in H as (f7 & blob & [= <- H7] & H). exists blob. split_and!; try done.
  unfold crypto_step in H. destruct (write_secret_file _ _ _ _ _ _ _) as [f8 r] eqn:Ew. injection H as <- Hr. apply map_err_ok in Hr. subst r.
  by destruct (write_secret_run io partial umask pid _ _ _ _ _ (vault_tmp_differs pid dir) Ew) as [_ ->].
Qed.

Lemma host_load_run dir passphrase f blob :
  init_sodium sodium_init = Ok tt -> validate_passphrase passphrase = Ok tt -> io IoOpen (vault_bin_path dir) = true ->
  f !! vault_bin_path dir = Some (File true MODE_600 blob) ->
  load dir passphrase f = (f,
    let? plaintext := host_open ops mem pwhash aead_decrypt passphrase blob in
    let? vault := ok_or (from_slice plaintext) VJson in
    let? _ := validate_host_vault b64_decode vault in
    Ok vault).
Proof.
  intros H1 H2 Hio Hf. unfold load_host_vault. rewrite sbind_run. unfold slift at 1. rewrite H1. rewrite sbind_run.
  unfold slift at 1. rewrite H2, sbind_run. unfold crypto_step. rewrite (secret_reads_back io _ blob f Hio Hf). cbn [map_err].
  unfold sbind, slift, sret, rbind. destruct (host_open _ _ _ _ _ _); [|done]. destruct (ok_or _ _); [|done].
  by destruct (validate_host_vault _ _).
Qed.

(** C34. A host vault whose payload leaves room for the tag opens to what was
    stored in it: after a successful store of a payload of at most
    HOST_VAULT_MAX_CT_LEN - 16 bytes that serde reads as it wrote it, the same
    passphrase loads the same identity and keys, when the file can be opened.  A
    payload in the sixteen bytes below the limit is stored and never opens
    ([host_vault_trap]). *)
Theorem host_vault_roundtrip dir passphrase local_id keys salt nonce f f'
    (Hsalt : len salt = 16) (Hnonce : len nonce = 24) (Hio : io IoOpen (vault_bin_path dir) = true)
    (Hjson : from_slice (to_vec (host_payload local_id keys)) = Some (host_payload local_id keys))
    (Hsize : len (to_vec (host_payload local_id keys)) + 16 <= HOST_VAULT_MAX_CT_LEN)
    (Hstore : store dir passphrase local_id keys salt nonce f = (f', Ok tt)) :
  load dir passphrase f' = (f', Ok (host_payload local_id keys)).
Proof.
  apply store_inv in Hstore as (blob & H1 & H2 & H3 & H4 & Hseal & Hf). rewrite (host_load_run _ _ _ blob) by done. f_equal.
  unfold host_open. unfold host_seal in Hseal.
  rewrite (blob_roundtrip _ _ _ _ _ _ aead_decrypt (eq_refl : len HOST_VAULT_MAGIC = 4) host_limit Hops Hmem passphrase salt nonce _ _ Haead Hsalt Hnonce Hsize Hseal).
  cbn [rbind]. rewrite Hjson. cbn [ok_or rbind]. unfold validate_host_vault, host_payload.
  cbn [hv_schema hv_local_id hv_kem_id hv_sig_id hv_keys].
  change (trim HOST_VAULT_SCHEMA_V1 =? HOST_VAULT_SCHEMA_V1)%string with true. change (trim NXMS_KEM_ID =? NXMS_KEM_ID)%string with true.
  change (trim NXMS_SIG_ID =? NXMS_SIG_ID)%string with true. cbn [negb fail_if rbind]. rewrite H3. cbn [rbind]. by rewrite H4.
Qed.

(** The limit on what is stored is sixteen bytes above the limit on what is
    loaded: a payload in between is stored, and no passphrase opens it. *)
Theorem host_vault_trap dir passphrase passphrase' local_id keys salt nonce f f'
    (Hsalt : len salt = 16) (Hnonce : len nonce = 24) (Hio : io IoOpen (vault_bin_path dir) = true)
    (Hsize : HOST_VAULT_MAX_CT_LEN - 16 < len (to_vec (host_payload local_id keys)))
    (Hpass : validate_passphrase passphrase' = Ok tt)
    (Hstore : store dir passphrase local_id keys salt nonce f = (f', Ok tt)) :
  load dir passphrase' f' = (f', Err VCtLen).
Proof.
  apply store_inv in Hstore as (blob & H1 & H2 & H3 & H4 & Hseal & Hf). rewrite (host_load_run _ _ _ blob) by done. f_equal.
  unfold host_open. unfold host_seal in Hseal.
  by rewrite (blob_trap _ _ _ _ _ _ aead_decrypt (eq_refl : len HOST_VAULT_MAGIC = 4) host_limit Hops Hmem passphrase passphrase' salt nonce _ _ Haead Hsalt Hnonce Hsize Hseal).
Qed.
End host.

(** ** PEM texts *)

Lemma strip_suffix_app s suffix : strip_suffix suffix (s +:+ suffix) = Some s.
Proof. unfold strip_suffix. rewrite ends_with_app, length_sapp, Nat.add_sub. f_equal. by apply stake_app. Qed.
(** A text between dashes keeps its bytes when it is trimmed, but for the line end. *)
Lemma trim_dashes m : trim ("-----" +:+ m +:+ with_newline "-----") = ("-----" +:+ m +:+ "-----")%string
  /\ trim ("-----" +:+ m +:+ "-----") = ("-----" +:+ m +:+ "-----")%string.
Proof.
  unfold trim, trim_start_bytes, trim_end_bytes. rewrite !bytes_app.
  change (bytes_of (with_newline "-----")) with (bytes_of "-----" ++ [newline_byte]).
  assert (F : forall r, strip_ws ws2 ws3 (bytes_of "-----" ++ r) = bytes_of "-----" ++ r) by done.
  assert (B : forall r, strip_ws (fun a b => ws2 b a) (fun a b c => ws3 c b a) (bytes_of "-----" ++ r) = bytes_of "-----" ++ r) by done.
  rewrite !F, !rev_app_distr, <- !app_assoc. change (rev (bytes_of "-----")) with (bytes_of "-----").
  assert (N : forall r, strip_ws (fun a b => ws2 b a) (fun a b c => ws3 c b a) (rev [newline_byte] ++ bytes_of "-----" ++ r) = bytes_of "-----" ++ r) by done.
  rewrite N, B, !rev_app_distr, rev_involutive. change (rev (bytes_of "-----")) with (bytes_of "-----").
  rewrite <- app_assoc, !of_bytes_app, !of_bytes_of. done.
Qed.

Definition no_space (c : ascii) : bool := negb (is_ascii_whitespace c).
Lemma sfilter_app q s t : sfilter q (s +:+ t) = sfilter q s +:+ sfilter q t.
Proof. induction s as [|c s IH]; [done|]. rewrite sapp_cons. cbn [sfilter]. destruct (q c); [by rewrite sapp_cons, IH|done]. Qed.
Lemma sfilter_all q s : sfilter q s = s -> forall n, sfilter q (stake n s) = stake n s /\ sfilter q (sdrop n s) = sdrop n s.
Proof.
  intros H n. revert s H. induction n as [|n IH]; intros s H; [done|]. destruct s as [|c s]; [done|]. cbn [sfilter stake sdrop] in *.
  destruct (q c) eqn:Eq.
  - injection H as H. destruct (IH s H) as [-> ->]. done.
  - exfalso. assert (L : forall t, (String.length (sfilter q t) <= String.length t)%nat).
    { induction t as [|d t It]; [done|]. cbn [sfilter]. destruct (q d); cbn [String.length]; lia. }
    specialize (L s). rewrite H in L. cbn [String.length] in L. lia.
Qed.
Lemma pem_lines_filter fuel : forall s, (String.length s <= fuel)%nat -> sfilter no_space s = s -> sfilter no_space (pem_lines fuel s) = s.
Proof.
  induction fuel as [|fuel IH]; intros s Hl Hs; [by destruct s; [|cbn in Hl; lia]|]. cbn [pem_lines]. destruct s as [|c s]; [done|].
  set (t := String c s) in *. destruct (sfilter_all _ _ Hs 64) as [E1 E2]. rewrite sfilter_app, E1. cbn [sfilter].
  change (no_space newline_byte) with false. cbv iota. rewrite IH; [by apply stake_sdrop| |done].
  rewrite length_sdrop. unfold t in *. cbn [String.length] in *. lia.
Qed.

Section pem.
Context (b64_encode : string -> string) (b64_decode : string -> option string).
(** The encoder writes no white space, and something for something. *)
Context (Hb64 : forall s, b64_decode (b64_encode s) = Some s).
Context (Htext : forall s, sfilter no_space (b64_encode s) = b64_encode s).
Context (Hsome : forall s, is_empty s = false -> is_empty (b64_encode s) = false).

(** A key in DER form comes back from the PEM text written for it. *)
Lemma pem_roundtrip_aux label der : is_empty der = false -> decode_pem b64_decode label (encode_pem b64_encode label der) = Ok der.
Proof.
  intros Hd. unfold decode_pem, encode_pem. cbv zeta. set (b := b64_encode der). set (body := pem_lines _ b).
  set (first := "-----BEGIN " +:+ label +:+ "-----"). set (last := "-----END " +:+ label +:+ "-----").
  set (inner := String newline_byte body).
  assert (E : trim ("-----BEGIN " +:+ label +:+ with_newline "-----" +:+ body +:+ "-----END " +:+ label +:+ with_newline "-----")
    = (first +:+ inner) +:+ last).
  { unfold first, last, inner. destruct (trim_dashes ("BEGIN " +:+ label +:+ with_newline "-----" +:+ body +:+ "-----END " +:+ label)) as [T _].
    rewrite !sapp_assoc in T. etransitivity; [exact T|]. rewrite !sapp_assoc. unfold with_newline. by rewrite !sapp_assoc, !sapp_cons. }
  rewrite E, ends_with_app. rewrite !sapp_assoc, prefix_app. cbn [negb orb fail_if rbind].
  rewrite strip_prefix_app. cbn [ok_or rbind]. rewrite strip_suffix_app. cbn [ok_or rbind].
  change (sfilter (fun c => negb (is_ascii_whitespace c)) inner) with (sfilter no_space body).
  unfold body. rewrite pem_lines_filter by (done || apply Htext). unfold b. rewrite Hsome by done. cbn [fail_if rbind]. by rewrite Hb64.
Qed.
End pem.

(** ** Issuer vaults *)

Lemma issuer_norm_idem v i : normalize_action_token_issuer v = Ok i -> normalize_action_token_issuer i = Ok i.
Proof. unfold normalize_action_token_issuer, bad_text. intros H. rok. rewrite trim_idem. by rewrite H0. Qed.
Lemma algorithm_norm_idem v a : normalize_action_token_algorithm v = Ok a -> normalize_action_token_algorithm a = Ok a.
Proof.
  unfold normalize_action_token_algorithm at 1. cbv zeta. intros H. destruct (_ || _) eqn:E; [|done]. injection H as <-.
  apply orb_true_iff in E as [->%String.eqb_eq| ->%String.eqb_eq]; reflexivity.
Qed.
Lemma pem_norm_idem label v p e :
  let first := "-----BEGIN " +:+ label +:+ "-----" in let last := "-----END " +:+ label +:+ "-----" in
  normalize_pem first last v e = Ok p -> normalize_pem first last p e = Ok p.
Proof.
  intros first last. unfold normalize_pem, bad_text. intros H. cbv zeta in H. rok.
  apply negb_false_iff in H1, H2. set (t := trim v) in *.
  assert (Ht : trim (with_newline t) = t); [|by rewrite Ht, H0, H1, H2].
  destruct (prefix_split _ _ H1) as [m1 E1]. destruct (ends_split _ _ H2) as [m2 E2]. unfold first in E1. unfold last in E2.
  unfold trim at 1. unfold trim_start_bytes, trim_end_bytes, with_newline. rewrite bytes_app.
  assert (F : strip_ws ws2 ws3 (bytes_of t ++ bytes_of (String newline_byte "")) = bytes_of t ++ [newline_byte]) by (rewrite E1; reflexivity).
  assert (B : strip_ws (fun a b => ws2 b a) (fun a b c => ws3 c b a) (rev (bytes_of t)) = rev (bytes_of t)).
  { rewrite E2, !bytes_app, !rev_app_distr, <- !app_assoc. reflexivity. }
  rewrite F, rev_app_distr. change (strip_ws (fun a b => ws2 b a) (fun a b c => ws3 c b a) (rev [newline_byte] ++ rev (bytes_of t)))
    with (strip_ws (fun a b => ws2 b a) (fun a b c => ws3 c b a) (rev (bytes_of t))).
  by rewrite B, rev_involutive, of_bytes_of.
Qed.
Lemma private_pem_norm_idem v p : normalize_private_key_pem v = Ok p -> normalize_private_key_pem p = Ok p.
Proof. exact (pem_norm_idem "PRIVATE KEY" v p VPrivatePem). Qed.

Lemma new_bundle_issuer i a p b : new_issuer_bundle i a p = Ok b -> normalize_action_token_issuer i = Ok (ib_issuer b).
Proof. unfold new_issuer_bundle. intros H. cbv zeta in H. rok. done. Qed.

Section issuer.
Context (sodium_init ops mem : Z).
Context (pwhash : string -> string -> Z -> Z -> option string).
Context (aead_encrypt aead_decrypt : string -> string -> string -> string -> option string).
Context (io : io_op -> string -> bool) (partial : string -> string) (umask pid : Z).
Context (b64_encode : string -> string) (b64_decode : string -> option string).
Context (ed25519_public p256_public : string -> option string).
Context (to_vec : ActionTokenIssuerVault -> string) (from_slice : string -> option ActionTokenIssuerVault).
Notation derive := (derive_public_bundle b64_encode b64_decode ed25519_public p256_public).
Notation validate := (validate_issuer_vault b64_encode b64_decode ed25519_public p256_public).

Definition issuer_payload (issuer algorithm pem : string) : ActionTokenIssuerVault :=
  MkIssuerVault ACTION_TOKEN_ISSUER_VAULT_SCHEMA_V1 issuer algorithm pem.

Lemma derive_issuer i a p b : derive i a p = Ok b -> exists i', normalize_action_token_issuer i = Ok i' /\ ib_issuer b = i'.
Proof.
  unfold derive_public_bundle. intros H. rok. exists v. split; [done|]. apply new_bundle_issuer in H.
  rewrite (issuer_norm_idem i v) in H by done. by injection H as <-.
Qed.
(** What is stored is accepted when it is loaded. *)
Lemma issuer_payload_valid i a p i' a' p' b :
  normalize_action_token_issuer i = Ok i' -> normalize_action_token_algorithm a = Ok a' -> normalize_private_key_pem p = Ok p' ->
  derive i' a' p' = Ok b -> validate (issuer_payload i' a' p') = Ok tt.
Proof.
  intros Hi Ha Hp Hd. unfold validate_issuer_vault, issuer_payload. cbn [iv_schema iv_issuer iv_algorithm iv_private_key_pem].
  change (trim ACTION_TOKEN_ISSUER_VAULT_SCHEMA_V1 =? ACTION_TOKEN_ISSUER_VAULT_SCHEMA_V1)%string with true. cbn [negb fail_if rbind].
  rewrite (issuer_norm_idem _ _ Hi), (algorithm_norm_idem _ _ Ha), (private_pem_norm_idem _ _ Hp). cbn [rbind]. rewrite Hd. cbn [rbind].
  apply derive_issuer in Hd as (j & Hj & ->). rewrite (issuer_norm_idem _ _ Hi) in Hj. injection Hj as <-. by rewrite String.eqb_refl.
Qed.

Context (Hops : 1 <= ops <= U64_MAX) (Hmem : 1 <= mem <= U64_MAX).
Context (Haead : aead_correct aead_encrypt aead_decrypt).
Notation store := (store_issuer_vault sodium_init ops mem pwhash aead_encrypt io partial umask pid b64_encode b64_decode ed25519_public p256_public to_vec).
Notation load := (load_issuer_vault sodium_init ops mem pwhash aead_decrypt io b64_encode b64_decode ed25519_public p256_public from_slice).

Lemma issuer_limit : 0 < ACTION_TOKEN_ISSUER_VAULT_MAX_CT_LEN < 2 ^ 31.
Proof. by vm_compute. Qed.

Lemma issuer_store_inv dir passphrase issuer algorithm pem salt nonce f f' :
  store dir passphrase issuer algorithm pem salt nonce f = (f', Ok tt) ->
  exists i a p b blob, init_sodium sodium_init = Ok tt /\ validate_passphrase passphrase = Ok tt
    /\ normalize_action_token_issuer issuer = Ok i /\ normalize_action_token_algorithm algorithm = Ok a
    /\ normalize_private_key_pem pem = Ok p /\ derive i a p = Ok b
    /\ issuer_seal ops mem pwhash aead_encrypt passphrase salt nonce (to_vec (issuer_payload i a p)) = Ok blob
    /\ f' !! vault_bin_path dir = Some (File true MODE_600 blob).
Proof.
  unfold store_issuer_vault, prepare_dir. intros H.
  apply sbind_ok in H as (f1 & [] & [= <- H1] & H). apply sbind_ok in H as (f2 & [] & [= <- H2] & H).
  apply sbind_ok in H as (f3 & i & [= <- H3] & H). apply sbind_ok in H as (f4 & a & [= <- H4] & H).
  apply sbind_ok in H as (f9 & p & [= <- H9] & H). apply sbind_ok in H as (f10 & b & [= <- H10] & H).
  apply sbind_ok in H as (f5 & [] & H5 & H). apply sbind_ok in H5 as (f6 & [] & [= <- _] & [= <- _]).
  apply sbind_ok in H as (f7 & blob & [= <- H7] & H). exists i, a, p, b, blob. split_and!; try done.
  unfold crypto_step in H. destruct (write_secret_file _ _ _ _ _ _ _) as [f8 r] eqn:Ew. injection H as <- Hr. apply map_err_ok in Hr. subst r.
  by destruct (write_secret_run io partial umask pid _ _ _ _ _ (vault_tmp_differs pid dir) Ew) as [_ ->].
Qed.

(** An issuer's vault opens to what was stored in it: after a successful
    store the same passphrase loads the normalised issuer, algorithm and private
    key, and the bundle exported from them is canonical. *)
Theorem issuer_vault_roundtrip dir passphrase issuer algorithm pem salt nonce i a p f f'
    (Hsalt : len salt = 16) (Hnonce : len nonce = 24) (Hio : io IoOpen (vault_bin_path dir) = true)
    (Hi : normalize_action_token_issuer issuer = Ok i) (Ha : normalize_action_token_algorithm algorithm = Ok a)
    (Hp : normalize_private_key_pem pem = Ok p) (Hjson : from_slice (to_vec (issuer_payload i a p)) = Some (issuer_payload i a p))
    (Hsize : len (to_vec (issuer_payload i a p)) + 16 <= ACTION_TOKEN_ISSUER_VAULT_MAX_CT_LEN)
    (Hstore : store dir passphrase issuer algorithm pem salt nonce f = (f', Ok tt)) :
  load dir passphrase f' = (f', Ok (issuer_payload i a p))
  /\ exists b, issuer_bundle b64_encode b64_decode ed25519_public p256_public (issuer_payload i a p) = Ok b
    /\ validate_issuer_bundle b = Ok tt /\ ib_issuer b = i.
Proof.
  apply issuer_store_inv in Hstore as (i' & a' & p' & b & blob & H1 & H2 & Hi' & Ha' & Hp' & Hd & Hseal & Hf).
  rewrite Hi in Hi'. injection Hi' as <-. rewrite Ha in Ha'. injection Ha' as <-. rewrite Hp in Hp'. injection Hp' as <-.
  pose proof (issuer_payload_valid issuer algorithm pem i a p b Hi Ha Hp Hd) as Hv. split.
  - unfold load_issuer_vault. rewrite sbind_run. unfold slift at 1. rewrite H1. rewrite sbind_run.
    unfold slift at 1. rewrite H2, sbind_run. unfold crypto_step. rewrite (secret_reads_back io _ blob f' Hio Hf). cbn [map_err].
    unfold issuer_seal in Hseal. rewrite sbind_run. unfold slift at 1, issuer_open.
    rewrite (blob_roundtrip _ _ _ _ _ _ aead_decrypt (eq_refl : len ACTION_TOKEN_ISSUER_VAULT_MAGIC = 4) issuer_limit Hops Hmem
      passphrase salt nonce _ _ Haead Hsalt Hnonce Hsize Hseal).
    rewrite sbind_run. unfold slift at 1. rewrite Hjson. cbn [ok_or]. rewrite sbind_run. unfold slift at 1. by rewrite Hv.
  - exists b. unfold issuer_bundle. rewrite Hv. cbn [rbind issuer_payload iv_issuer iv_algorithm iv_private_key_pem]. split_and!; [done|..].
    + revert Hd. unfold derive_public_bundle, new_issuer_bundle. intros Hd. cbv zeta in Hd. rok. by match goal with u : unit |- _ => destruct u end.
    + apply derive_issuer in Hd as (j & Hj & ->). rewrite (issuer_norm_idem _ _ Hi) in Hj. by injection Hj.
Qed.
End issuer.

(** ** Witnesses *)

Definition toy_header : VaultHeader := MkHeader (repeat_byte "s" 16) 2 67108864 (repeat_byte "n" 24) 17.
Lemma vault_header_exact_witness :
  header_parse HOST_VAULT_MAGIC HOST_VAULT_MAX_CT_LEN 2 67108864 (header_write HOST_VAULT_MAGIC toy_header +:+ repeat_byte "c" 17) = Ok toy_header.
Proof.
  apply (vault_header_exact HOST_VAULT_MAGIC HOST_VAULT_MAX_CT_LEN 2 67108864 eq_refl ltac:(vm_compute; done)). split.
  - constructor; vm_compute; repeat split; try reflexivity; try discriminate.
  - exists (repeat_byte "c" 17). split; vm_compute; reflexivity.
Defined.

Definition toy_pwhash (pass salt : string) (_ops _mem : Z) : option string := Some (pass +:+ salt).
Definition toy_aead_encrypt (m _aad _nonce _key : string) : option string := Some (m +:+ repeat_byte "t" 16).
Definition toy_aead_decrypt (c _aad _nonce _key : string) : option string := Some (stake (String.length c - 16) c).
Lemma toy_aead : aead_correct toy_aead_encrypt toy_aead_decrypt.
Proof.
  unfold toy_aead_encrypt, toy_aead_decrypt. intros m aad n k c H. apply (inj Some) in H as <-. rewrite len_app. split; [|done].
  f_equal. apply stake_app. rewrite length_sapp. cbn. lia.
Qed.
Definition toy_keys : Keys := MkKeys (repeat_byte "k" 64) (repeat_byte "p" 64) "sigsk" "sigpk".
Definition toy_host_vec (v : HostVault) : string := hv_local_id v.
Definition toy_host_slice (t : string) : option HostVault := Some (host_payload t toy_keys).

Lemma host_vault_roundtrip_witness :
  let store := store_host_vault 0 2 67108864 toy_pwhash toy_aead_encrypt ok_io (fun s => s) 18 7 Some toy_host_vec in
  let f' := (store "/var/nxms" "a passphrase long enough" "buyer" toy_keys (repeat_byte "s" 16) (repeat_byte "n" 24) ∅).1 in
  load_host_vault 0 2 67108864 toy_pwhash toy_aead_decrypt ok_io Some toy_host_slice "/var/nxms" "a passphrase long enough" f'
    = (f', Ok (host_payload "buyer" toy_keys)).
Proof.
  intros store f'.
  apply (host_vault_roundtrip 0 2 67108864 toy_pwhash toy_aead_encrypt toy_aead_decrypt ok_io (fun s => s) 18 7 Some toy_host_vec
    toy_host_slice ltac:(vm_compute; repeat split; discriminate) ltac:(vm_compute; repeat split; discriminate) toy_aead "/var/nxms" "a passphrase long enough" "buyer"
    toy_keys (repeat_byte "s" 16) (repeat_byte "n" 24) ∅ f'); try (vm_compute; reflexivity).
  vm_compute. discriminate.
Defined.

Definition toy_pem : string := encode_pem (fun s => s) "PRIVATE KEY" (repeat_byte "d" 70).
Definition toy_issuer_vec (v : ActionTokenIssuerVault) : string := iv_issuer v.
Definition toy_issuer_slice (t : string) : option ActionTokenIssuerVault := Some (issuer_payload t "EDDSA" toy_pem).
Definition toy_public (_ : string) : option string := Some (repeat_byte "q" 32).

Lemma issuer_vault_roundtrip_witness :
  let f' := (store_issuer_vault 0 2 67108864 toy_pwhash toy_aead_encrypt ok_io (fun s => s) 18 7 (fun s => s) Some toy_public toy_public
    toy_issuer_vec "/var/nxms" "a passphrase long enough" " desk " "EdDSA" toy_pem (repeat_byte "s" 16) (repeat_byte "n" 24) ∅).1 in
  load_issuer_vault 0 2 67108864 toy_pwhash toy_aead_decrypt ok_io (fun s => s) Some toy_public toy_public toy_issuer_slice
    "/var/nxms" "a passphrase long enough" f' = (f', Ok (issuer_payload "desk" "EDDSA" toy_pem)).
Proof.
  intros f'.
  refine (proj1 (issuer_vault_roundtrip 0 2 67108864 toy_pwhash toy_aead_encrypt toy_aead_decrypt ok_io (fun s => s) 18 7 (fun s => s) Some
    toy_public toy_public toy_issuer_vec toy_issuer_slice _ _ toy_aead "/var/nxms" "a passphrase long enough" " desk " "EdDSA" toy_pem
    (repeat_byte "s" 16) (repeat_byte "n" 24) "desk" "EDDSA" toy_pem ∅ f' _ _ _ _ _ _ _ _ _)); try (vm_compute; reflexivity);
    vm_compute; repeat split; discriminate.
Defined.
