(* ===== verification/Bootstrap.v ===== *)
(** * Setting up hosts

    [crates/nxms-transport/src/bootstrap.rs]: the commands of a set-up, from the
    generation of the vaults over the identities, the trust bundle and its
    signatures to the files of a host.  They compose the vaults and the trust
    bundle; passphrases come from files only their owner can read. *)

From S2P Require Import Prelude RustString Bytes Sql Json Wire Admission Packet TransportCrypto Trust TrustFiles Vault.

Inductive BootError : Type :=
| BVault (e : VaultError) | BTrust (e : TrustError) | BCrypto (e : CryptoError) | BVaultExists (path : string) | BNoIdentity
| BOpen (label : string) | BNotRegular (label : string) | BMode (label : string) | BNotText (label : string) | BEmpty (label : string).
#[export] Instance boot_io_error : IoError BootError := BOpen.

(** What the set-up takes from the libraries. *)
Class BootLib : Type := {
  bl_sodium_init : Z; bl_opslimit : Z; bl_memlimit : Z;
  bl_pwhash : string -> string -> Z -> Z -> option string;
  bl_aead_encrypt : string -> string -> string -> string -> option string;
  bl_aead_decrypt : string -> string -> string -> string -> option string;
  bl_b64_encode : string -> string; bl_b64_decode : string -> option string;
  bl_host_to_vec : HostVault -> string; bl_host_from_slice : string -> option HostVault;
  bl_issuer_to_vec : ActionTokenIssuerVault -> string; bl_issuer_from_slice : string -> option ActionTokenIssuerVault;
  bl_identity_to_vec : HostIdentityBundle -> string; bl_identity_from_slice : string -> option HostIdentityBundle;
  bl_issuer_bundle_to_vec : ActionTokenIssuerBundle -> string; bl_issuer_bundle_from_slice : string -> option ActionTokenIssuerBundle;
  bl_bundle_to_vec : RuntimeTrustBundle -> string; bl_bundle_from_slice : string -> option RuntimeTrustBundle;
  bl_peers_to_vec : PeerBook -> string; bl_peers_from_slice : string -> option PeerBook;
  bl_sha256 : string -> string; bl_json_to_vec : json -> string;
  bl_falcon_sign : string -> string -> option string; bl_falcon_verify : string -> string -> string -> bool;
  bl_ed25519_public : string -> option string; bl_p256_public : string -> option string;
}.

Section bootstrap.
Context {lib : BootLib}.
(** The machine: which file operations succeed, what a failed write leaves, the
    modes of new files and the process id. *)
Context (io : io_op -> string -> bool) (partial : string -> string) (umask umask_mode pid : Z).
Notation B := (M fs BootError).

Local Notation load_keys := (load_host_keys bl_sodium_init bl_opslimit bl_memlimit bl_pwhash bl_aead_decrypt io bl_b64_decode bl_host_from_slice).

(** ** Passphrases *)

Definition validate_owner_only_file (f : file) (label : string) : result BootError unit :=
  let? _ := fail_if (negb (f_regular f)) (BNotRegular label) in
  fail_if (group_or_other (f_mode f)) (BMode label).
Definition read_owner_only_text (path label : string) : B string :=
  let* f := smap_err (fun _ : BootError => BOpen label) (fs_read io path) in
  let* _ := slift (validate_owner_only_file f label) in
  let* _ := slift (fail_if (negb (utf8_valid (f_bytes f))) (BNotText label)) in
  let out := trim (f_bytes f) in
  let* _ := slift (fail_if (is_empty out) (BEmpty label)) in
  sret out.
Definition HOST_PASSPHRASE : string := "host_vault_passphrase_file".
Definition ISSUER_PASSPHRASE : string := "action_token_issuer_vault_passphrase_file".

(** ** Vaults *)

(** [generated]: what [Keys::generate] gives; [salt] and [nonce] are random. *)
Definition generate_local_host_vault_with_passphrase (generated : result CryptoError Keys) (salt nonce local_id dir passphrase : string)
    : B Keys :=
  let vault_path := vault_bin_path dir in
  let* there := fs_exists vault_path in
  let* _ := slift (fail_if there (BVaultExists vault_path)) in
  let* _ := smap_err BVault (generate_host_vault bl_sodium_init bl_opslimit bl_memlimit bl_pwhash bl_aead_encrypt bl_aead_decrypt io partial
              umask pid bl_b64_decode bl_host_to_vec bl_host_from_slice generated dir passphrase local_id salt nonce) in
  smap_err BVault (load_keys dir passphrase).
Definition generate_local_host_vault (generated : result CryptoError Keys) (salt nonce local_id dir passphrase_file : string) : B Keys :=
  let* passphrase := read_owner_only_text passphrase_file HOST_PASSPHRASE in
  generate_local_host_vault_with_passphrase generated salt nonce local_id dir passphrase.

Local Notation bundle_of := (issuer_bundle bl_b64_encode bl_b64_decode bl_ed25519_public bl_p256_public).
Definition generate_action_token_issuer_vault_with_passphrase (generated : string -> option string)
    (salt nonce issuer algorithm dir passphrase : string) : B ActionTokenIssuerBundle :=
  let vault_path := vault_bin_path dir in
  let* there := fs_exists vault_path in
  let* _ := slift (fail_if there (BVaultExists vault_path)) in
  let* vault := smap_err BVault (generate_issuer_vault bl_sodium_init bl_opslimit bl_memlimit bl_pwhash bl_aead_encrypt bl_aead_decrypt io
                  partial umask pid bl_b64_encode bl_b64_decode bl_ed25519_public bl_p256_public bl_issuer_to_vec bl_issuer_from_slice
                  generated dir passphrase issuer algorithm salt nonce) in
  slift (map_err BVault (bundle_of vault)).
Definition generate_action_token_issuer_vault (generated : string -> option string)
    (salt nonce issuer algorithm dir passphrase_file : string) : B ActionTokenIssuerBundle :=
  let* passphrase := read_owner_only_text passphrase_file ISSUER_PASSPHRASE in
  generate_action_token_issuer_vault_with_passphrase generated salt nonce issuer algorithm dir passphrase.

(** ** Public files *)

Definition from_local_keys (host_id role host : string) (port : Z) (keys : Keys) : result TrustError HostIdentityBundle :=
  let bundle := MkHostIdentity HOST_IDENTITY_SCHEMA_V1 host_id role host port (ky_kem_pk_b64 keys) (ky_sig_pk_b64 keys) in
  let? _ := validate_host_identity bundle in
  Ok bundle.
Definition host_identity_load (path : string) : M fs TrustError HostIdentityBundle :=
  let* f := fs_read io path in
  let* bundle := slift (ok_or (bl_identity_from_slice (f_bytes f)) TParse) in
  let* _ := slift (validate_host_identity bundle) in
  sret bundle.
Definition host_identity_write_json (h : HostIdentityBundle) (path : string) : M fs TrustError unit :=
  let* _ := slift (validate_host_identity h) in
  let* _ := (if has_dir path then must io IoMkdir path else sret tt) in
  fs_write io partial umask_mode path (bl_identity_to_vec h).

Definition export_host_identity_with_passphrase (local_id role host : string) (port : Z) (dir passphrase out : string)
    : B HostIdentityBundle :=
  let* keys := smap_err BVault (load_keys dir passphrase) in
  let* bundle := slift (map_err BTrust (from_local_keys local_id role host port keys)) in
  let* _ := smap_err BTrust (host_identity_write_json bundle out) in
  sret bundle.
Definition export_host_identity (local_id role host : string) (port : Z) (dir passphrase_file out : string) : B HostIdentityBundle :=
  let* passphrase := read_owner_only_text passphrase_file HOST_PASSPHRASE in
  export_host_identity_with_passphrase local_id role host port dir passphrase out.

Definition export_action_token_issuer_with_passphrase (dir passphrase out : string) : B ActionTokenIssuerBundle :=
  let* vault := smap_err BVault (load_issuer_vault bl_sodium_init bl_opslimit bl_memlimit bl_pwhash bl_aead_decrypt io bl_b64_encode
                  bl_b64_decode bl_ed25519_public bl_p256_public bl_issuer_from_slice dir passphrase) in
  smap_err BVault (export_bundle io partial bl_b64_encode bl_b64_decode bl_ed25519_public bl_p256_public bl_issuer_bundle_to_vec
    umask_mode vault out).
Definition export_action_token_issuer (dir passphrase_file out : string) : B ActionTokenIssuerBundle :=
  let* passphrase := read_owner_only_text passphrase_file ISSUER_PASSPHRASE in
  export_action_token_issuer_with_passphrase dir passphrase out.

(** ** The trust bundle *)

(** [iter().map(load).collect()] stops at the first error. *)
Fixpoint load_identities (paths : list string) : B (list HostIdentityBundle) :=
  match paths with
  | [] => sret []
  | p :: paths' =>
      let* h := smap_err BTrust (host_identity_load p) in
      let* hs := load_identities paths' in
      sret (h :: hs)
  end.
Local Notation write_bundle := (TrustFiles.write_json io partial umask_mode bl_bundle_to_vec).
Definition init_runtime_trust_bundle (trust_epoch : string) (host_identity_paths : list string) (issuer_bundle_path out : string)
    : B RuntimeTrustBundle :=
  let* _ := slift (match host_identity_paths with [] => Err BNoIdentity | _ => Ok tt end) in
  let* identities := load_identities host_identity_paths in
  let* issuer := smap_err BVault (load_issuer_bundle io bl_issuer_bundle_from_slice issuer_bundle_path) in
  let* bundle := slift (map_err BTrust (from_host_identities trust_epoch identities
                   (MkIssuer (ib_issuer issuer) (ib_algorithm issuer) (ib_public_key_pem issuer)))) in
  let* _ := smap_err BTrust (write_bundle bundle out) in
  sret bundle.

(** [bundle.sign_with_local_keys]; the bundle is a value of the caller. *)
Definition sign_with_local_keys (b : RuntimeTrustBundle) (signer_id signer_role : string) (keys : Keys) (created_at_unix_ms : Z)
    : result BootError RuntimeTrustBundle :=
  let? pk := map_err BCrypto (sig_pk bl_b64_decode keys) in
  let? sk := map_err BCrypto (sig_sk bl_b64_decode keys) in
  let '(b', r) := sign_bundle bl_sha256 bl_json_to_vec bl_b64_encode bl_falcon_sign signer_id signer_role sk pk created_at_unix_ms b in
  let? _ := map_err BTrust r in
  Ok b'.
Definition sign_runtime_trust_bundle_with_passphrase (bundle_path signer_id signer_role dir passphrase out : string)
    (created_at_unix_ms : Z) : B RuntimeTrustBundle :=
  let* keys := smap_err BVault (load_keys dir passphrase) in
  let* bundle := smap_err BTrust (load_unverified io bl_bundle_from_slice bundle_path) in
  let* bundle := slift (sign_with_local_keys bundle signer_id signer_role keys created_at_unix_ms) in
  let* _ := smap_err BTrust (write_bundle bundle out) in
  sret bundle.
Definition sign_runtime_trust_bundle (bundle_path signer_id signer_role dir passphrase_file out : string) (created_at_unix_ms : Z)
    : B RuntimeTrustBundle :=
  let* passphrase := read_owner_only_text passphrase_file HOST_PASSPHRASE in
  sign_runtime_trust_bundle_with_passphrase bundle_path signer_id signer_role dir passphrase out created_at_unix_ms.
Definition verify_runtime_trust_bundle (bundle_path : string) : B RuntimeTrustBundle :=
  smap_err BTrust (load_verified io bl_bundle_from_slice bl_sha256 bl_json_to_vec bl_b64_decode bl_falcon_verify bundle_path).

Definition materialize_runtime_trust_for_local_with_passphrase (bundle_path local_id dir passphrase peers_path pem_path : string)
    : B RuntimeTrustBundle :=
  let* keys := smap_err BVault (load_keys dir passphrase) in
  smap_err BTrust (materialize_runtime_trust io partial umask_mode bl_peers_to_vec bl_bundle_from_slice bl_sha256 bl_json_to_vec
    bl_b64_decode bl_falcon_verify keys bundle_path local_id peers_path pem_path).
Definition materialize_runtime_trust_for_local (bundle_path local_id dir passphrase_file peers_path pem_path : string) : B RuntimeTrustBundle :=
  let* passphrase := read_owner_only_text passphrase_file HOST_PASSPHRASE in
  materialize_runtime_trust_for_local_with_passphrase bundle_path local_id dir passphrase peers_path pem_path.
Definition verify_runtime_trust_projection_for_local_with_passphrase (bundle_path local_id dir passphrase peers_path pem_path : string)
    : B RuntimeTrustBundle :=
  let* keys := smap_err BVault (load_keys dir passphrase) in
  smap_err BTrust (verify_runtime_trust_projection io bl_peers_from_slice bl_bundle_from_slice bl_sha256 bl_json_to_vec bl_b64_decode
    bl_falcon_verify keys bundle_path local_id peers_path pem_path).
Definition verify_runtime_trust_projection_for_local (bundle_path local_id dir passphrase_file peers_path pem_path : string)
    : B RuntimeTrustBundle :=
  let* passphrase := read_owner_only_text passphrase_file HOST_PASSPHRASE in
  verify_runtime_trust_projection_for_local_with_passphrase bundle_path local_id dir passphrase peers_path pem_path.
End bootstrap.
