(* ===== verification/BootstrapProps.v ===== *)
(** * Properties of the set-up

    A bundle that was set up from identities and signed by the two guards with
    the keys of their vaults verifies; a vault that is there is never replaced;
    passphrases come from private files. *)

From S2P Require Import Prelude RustString Bytes Sql Json Wire Admission Packet TransportCrypto Trust TrustProps TrustFiles Vault Bootstrap.

Section ceremony.
Context {lib : BootLib}.
Context (io : io_op -> string -> bool) (partial : string -> string) (umask_mode : Z).

Local Notation load_keys := (load_host_keys bl_sodium_init bl_opslimit bl_memlimit bl_pwhash bl_aead_decrypt io bl_b64_decode bl_host_from_slice).
Local Notation write_bundle := (TrustFiles.write_json io partial umask_mode bl_bundle_to_vec).
Local Notation init := (init_runtime_trust_bundle io partial umask_mode).
Local Notation sign := (sign_runtime_trust_bundle_with_passphrase io partial umask_mode).

(** A bundle on disk. *)
Definition bundle_at (path : string) (b : RuntimeTrustBundle) (f : fs) : Prop :=
  f !! path = Some (File true MODE_644 (bl_bundle_to_vec b)).

Lemma write_bundle_ok b path f f' :
  tmp_path path <> path -> write_bundle b path f = (f', Ok tt) -> validate_bundle b = Ok tt /\ bundle_at path b f'.
Proof.
  intros Ht H. apply sbind_ok in H as (f1 & [] & [= <- Hv] & H). split; [done|].
  apply write_replaces in H as [D _ _]; [|done]. by apply D.
Qed.

Lemma init_ok epoch paths issuer_path out f f' b :
  tmp_path out <> out -> init epoch paths issuer_path out f = (f', Ok b) ->
  rb_signatures b = [] /\ validate_bundle b = Ok tt /\ bundle_at out b f'.
Proof.
  intros Ht H. apply sbind_ok in H as (f1 & [] & _ & H). apply sbind_ok in H as (f2 & ids & _ & H).
  apply sbind_ok in H as (f3 & issuer & _ & H). apply sbind_ok in H as (f4 & b' & [= <- Hb] & H).
  apply sbind_ok in H as (f5 & [] & Hw & [= <- <-]). apply smap_err_ok in Hw. apply map_err_ok in Hb.
  split; [|by apply write_bundle_ok in Hw]. unfold from_host_identities in Hb. cbv zeta in Hb.
  apply rbind_ok in Hb as (? & _ & Hb). apply rbind_ok in Hb as (? & _ & Hb). apply rbind_ok in Hb as (? & _ & [= <-]). done.
Qed.

Lemma load_unverified_ok path f f' b b' :
  bl_bundle_from_slice (bl_bundle_to_vec b) = Some b -> bundle_at path b f ->
  load_unverified io bl_bundle_from_slice path f = (f', Ok b') -> f' = f /\ b' = b.
Proof.
  intros Hserde Hf H. apply sbind_ok in H as (f1 & x & Hr & H). apply sbind_ok in H as (f2 & b2 & [= <- Hp] & H).
  apply sbind_ok in H as (f3 & [] & [= <- _] & [= <- <-]). destruct (fs_read_run (E := TrustError) io path f) as [r Er]. rewrite Er in Hr.
  injection Hr as <- ->. split; [done|]. unfold fs_read, must, sbind, sget, slift in Er. rewrite Hf in Er.
  unfold fail_if in Er. destruct (negb _); [done|]. injection Er as <-. cbn in Hp. rewrite Hserde in Hp. by injection Hp.
Qed.

Lemma ceremony_sign_ok path id role dir passphrase out now keys f f' b b' :
  bl_bundle_from_slice (bl_bundle_to_vec b) = Some b -> bundle_at path b f -> tmp_path out <> out ->
  load_keys dir passphrase f = (f, Ok keys) -> sign path id role dir passphrase out now f = (f', Ok b') ->
  exists sk pk, sig_sk bl_b64_decode keys = Ok sk /\ sig_pk bl_b64_decode keys = Ok pk /\ bundle_at out b' f' /\ validate_bundle b' = Ok tt
    /\ sign_bundle bl_sha256 bl_json_to_vec bl_b64_encode bl_falcon_sign id role sk pk now b = (b', Ok tt).
Proof.
  intros Hserde Hf Ht Hk H. apply sbind_ok in H as (f1 & keys' & Hl & H). apply smap_err_ok in Hl. rewrite Hk in Hl. injection Hl as <- <-.
  apply sbind_ok in H as (f2 & b0 & Hl & H). apply smap_err_ok in Hl. destruct (load_unverified_ok _ _ _ _ _ Hserde Hf Hl) as [-> ->].
  apply sbind_ok in H as (f3 & b3 & [= <- Hs] & H). apply sbind_ok in H as (f4 & [] & Hw & [= <- <-]). apply smap_err_ok in Hw.
  destruct (write_bundle_ok _ _ _ _ Ht Hw) as [Hv Hat]. unfold sign_with_local_keys in Hs.
  apply rbind_ok in Hs as (pk & Hpk & Hs). apply map_err_ok in Hpk. apply rbind_ok in Hs as (sk & Hsk & Hs). apply map_err_ok in Hsk.
  destruct (sign_bundle _ _ _ _ _ _ _ _ _ _) as [b4 r] eqn:Es. apply rbind_ok in Hs as ([] & Hr & [= <-]). apply map_err_ok in Hr. subst r.
  by exists sk, pk.
Qed.

(** What Falcon, base64 and SHA-256 guarantee. *)
Context (falcon_pair : string -> string -> Prop).
Context (sha256_len : forall s, len (bl_sha256 s) = 32) (b64_roundtrip : forall s, bl_b64_decode (bl_b64_encode s) = Some s).
Context (falcon_correct : forall sk pk m sig, falcon_pair sk pk -> bl_falcon_sign sk m = Some sig ->
  bl_falcon_verify pk m sig = true /\ trim (bl_b64_encode sig) <> ""%string).

(** The bundle lists these keys for a host with this role. *)
Definition listed_with (b : RuntimeTrustBundle) (id role : string) (keys : Keys) : Prop :=
  exists p sk pk, List.find (fun p => rp_id p =? trim id)%string (rb_peers b) = Some p /\ rp_role p = role
    /\ rp_sig_pk_b64 p = bl_b64_encode pk /\ sig_sk bl_b64_decode keys = Ok sk /\ sig_pk bl_b64_decode keys = Ok pk /\ falcon_pair sk pk.

(** C36. The set-up of the trust works end to end: a bundle that was made from
    the identities of the hosts, signed by the first guard with the keys of its
    vault and then by the second, each reading the file the step before wrote,
    verifies from the last file, with the peers and the token issuer of the
    first. *)
Theorem ceremony_verifies epoch paths issuer_path p0 p1 p2 id1 id2 dir1 dir2 pass1 pass2 keys1 keys2 t1 t2 f0 f1 f2 f3 b0 b1 b2
    (Hserde : Forall (fun b => bl_bundle_from_slice (bl_bundle_to_vec b) = Some b) [b0; b1; b2]) (Hio : io IoOpen p2 = true)
    (T0 : tmp_path p0 <> p0) (T1 : tmp_path p1 <> p1) (T2 : tmp_path p2 <> p2) (Hne : trim id1 <> trim id2)
    (Hinit : init epoch paths issuer_path p0 f0 = (f1, Ok b0))
    (Hk1 : load_keys dir1 pass1 f1 = (f1, Ok keys1)) (Hl1 : listed_with b0 id1 "ag-01" keys1)
    (Hs1 : sign p0 id1 "ag-01" dir1 pass1 p1 t1 f1 = (f2, Ok b1))
    (Hk2 : load_keys dir2 pass2 f2 = (f2, Ok keys2)) (Hl2 : listed_with b0 id2 "ag-02" keys2)
    (Hs2 : sign p1 id2 "ag-02" dir2 pass2 p2 t2 f2 = (f3, Ok b2)) :
  verify_runtime_trust_bundle io p2 f3 = (f3, Ok b2) /\ rb_peers b2 = rb_peers b0 /\ rb_action_token b2 = rb_action_token b0.
Proof.
  rewrite !Forall_cons in Hserde. destruct Hserde as (J0 & J1 & J2 & _).
  destruct (init_ok _ _ _ _ _ _ _ T0 Hinit) as (Hnil & _ & A0).
  destruct (ceremony_sign_ok _ _ _ _ _ _ _ _ _ _ _ _ J0 A0 T1 Hk1 Hs1) as (sk1 & pk1 & Esk1 & Epk1 & A1 & _ & S1).
  destruct (ceremony_sign_ok _ _ _ _ _ _ _ _ _ _ _ _ J1 A1 T2 Hk2 Hs2) as (sk2 & pk2 & Esk2 & Epk2 & A2 & V2 & S2).
  destruct Hl1 as (q1 & sk1' & pk1' & F1 & R1 & P1 & Esk1' & Epk1' & K1). rewrite Esk1 in Esk1'. rewrite Epk1 in Epk1'. injection Esk1' as <-. injection Epk1' as <-.
  destruct Hl2 as (q2 & sk2' & pk2' & F2 & R2 & P2 & Esk2' & Epk2' & K2). rewrite Esk2 in Esk2'. rewrite Epk2 in Epk2'. injection Esk2' as <-. injection Epk2' as <-.
  pose proof (bundle_signed_verifies bl_sha256 bl_json_to_vec bl_b64_encode bl_b64_decode bl_falcon_sign bl_falcon_verify falcon_pair sha256_len
    b64_roundtrip falcon_correct b0 b1 b2 q1 q2 id1 id2 sk1 sk2 pk1 pk2 t1 t2 Hnil S1 S2 Hne K1 K2 F1 F2 R1 R2 P1 P2) as Hq.
  apply sign_bundle_ok in S1 as (_ & s1 & _ & ->). apply sign_bundle_ok in S2 as (_ & s2 & _ & ->). split; [|done].
  unfold verify_runtime_trust_bundle, smap_err, load_verified, load_unverified. rewrite !sbind_run.
  unfold fs_read, must, sbind, sget, slift, sret, fail_if. rewrite Hio. unfold bundle_at in A2. rewrite A2. cbn [negb ok_or f_bytes].
  rewrite J2. cbn [ok_or]. rewrite V2. by rewrite Hq.
Qed.
End ceremony.

(** ** Vaults are kept *)

Section keep.
Context {lib : BootLib} (io : io_op -> string -> bool) (partial : string -> string) (umask umask_mode pid : Z).

(** A vault that is there is not replaced, and nothing else is touched. *)
Lemma existing_vault_kept gen gen' salt nonce id algorithm dir passphrase f :
  is_Some (f !! vault_bin_path dir) ->
  generate_local_host_vault_with_passphrase io partial umask pid gen salt nonce id dir passphrase f = (f, Err (BVaultExists (vault_bin_path dir)))
  /\ generate_action_token_issuer_vault_with_passphrase io partial umask pid gen' salt nonce id algorithm dir passphrase f
     = (f, Err (BVaultExists (vault_bin_path dir))).
Proof.
  intros Hf. unfold generate_local_host_vault_with_passphrase, generate_action_token_issuer_vault_with_passphrase.
  by rewrite !sbind_run; unfold fs_exists, sget; rewrite bool_decide_eq_true_2.
Qed.

(** A passphrase was read from a regular file its owner alone may read. *)
Lemma passphrase_private path label f f' out :
  read_owner_only_text io path label f = (f', Ok out) ->
  f' = f /\ exists x, f !! path = Some x /\ f_regular x = true /\ group_or_other (f_mode x) = false /\ out = trim (f_bytes x) /\ is_empty out = false.
Proof.
  intros H. apply sbind_ok in H as (f1 & x & Hr & H). apply smap_err_ok in Hr.
  apply sbind_ok in H as (f2 & [] & [= <- Hv] & H). apply sbind_ok in H as (f3 & [] & [= <- _] & H).
  apply sbind_ok in H as (f4 & [] & [= <- He] & [= <- <-]). unfold validate_owner_only_file in Hv.
  apply rbind_ok in Hv as ([] & H1 & H2). rewrite fail_if_ok in H1, H2, He. apply negb_false_iff in H1.
  unfold fs_read, must, sbind, sget, slift in Hr. destruct (fail_if _ _); [|done]. destruct (f !! path) as [y|] eqn:Ey; [|done].
  injection Hr as <- <-. split; [done|]. by exists y.
Qed.
End keep.

(** ** A set-up *)

Definition setup_keys (id : string) : Keys := MkKeys (repeat_byte "k" 64) (repeat_byte "p" 64) id id.
Definition setup_role (id : string) : string := if (id =? "guard-a")%string then "ag-01" else "ag-02".
Definition setup_identity (id : string) : HostIdentityBundle :=
  MkHostIdentity HOST_IDENTITY_SCHEMA_V1 id (setup_role id) (id +:+ ".onion") 443 (repeat_byte "p" 64) id.
Definition setup_peer (id : string) : RuntimeTrustPeer := MkRuntimePeer id (setup_role id) (id +:+ ".onion") 443 (repeat_byte "p" 64) id.
Definition setup_issuer : ActionTokenIssuerBundle :=
  MkIssuerBundle ACTION_TOKEN_ISSUER_SCHEMA_V1 "nxms-auth" "EDDSA" (with_newline (BEGIN_PUBLIC +:+ END_PUBLIC)).
Definition setup_sign (sk m : string) : option string := if is_empty (trim (sk +:+ m)) then None else Some (sk +:+ m).
Definition setup_signed (id : string) (b : RuntimeTrustBundle) : RuntimeTrustBundle :=
  (sign_bundle sha_32 (fun _ => "json"%string) (fun s => s) setup_sign id (setup_role id) id id 1 b).1.
Definition setup_b0 : RuntimeTrustBundle :=
  MkRuntimeBundle RUNTIME_TRUST_BUNDLE_SCHEMA_V1 "epoch-7" [setup_peer "guard-a"; setup_peer "guard-b"]
    (MkIssuer "nxms-auth" "EDDSA" (ib_public_key_pem setup_issuer)) [].
Definition setup_b1 : RuntimeTrustBundle := setup_signed "guard-a" setup_b0.
Definition setup_b2 : RuntimeTrustBundle := setup_signed "guard-b" setup_b1.

#[local] Instance setup_lib : BootLib := {|
  bl_sodium_init := 0; bl_opslimit := 2; bl_memlimit := 67108864; bl_pwhash := fun pass salt _ _ => Some (pass +:+ salt);
  bl_aead_encrypt := fun m _ _ _ => Some (m +:+ repeat_byte "t" 16); bl_aead_decrypt := fun c _ _ _ => Some (stake (String.length c - 16) c);
  bl_b64_encode := fun s => s; bl_b64_decode := Some;
  bl_host_to_vec := hv_local_id;
  bl_host_from_slice := fun id => Some (MkHostVault HOST_VAULT_SCHEMA_V1 id NXMS_KEM_ID NXMS_SIG_ID (setup_keys id));
  bl_issuer_to_vec := fun _ => EmptyString; bl_issuer_from_slice := fun _ => None;
  bl_identity_to_vec := hi_host_id; bl_identity_from_slice := fun id => Some (setup_identity id);
  bl_issuer_bundle_to_vec := fun _ => EmptyString; bl_issuer_bundle_from_slice := fun _ => Some setup_issuer;
  bl_bundle_to_vec := fun b => dec (Z.of_nat (length (rb_signatures b)));
  bl_bundle_from_slice := fun s => if (s =? "0")%string then Some setup_b0 else if (s =? "1")%string then Some setup_b1 else Some setup_b2;
  bl_peers_to_vec := fun _ => EmptyString; bl_peers_from_slice := fun _ => None;
  bl_sha256 := sha_32; bl_json_to_vec := fun _ => "json"%string;
  bl_falcon_sign := setup_sign; bl_falcon_verify := demo_falcon_verify;
  bl_ed25519_public := fun _ => None; bl_p256_public := fun _ => None;
|}.

(** Two vaults, the identities exported from them, the issuer's bundle. *)
Definition pass_phrase : string := "a passphrase long enough".
Definition setup_host (id : string) : M fs BootError unit :=
  let* _ := generate_local_host_vault_with_passphrase good_io (fun s => s) 18 7 (Ok (setup_keys id)) (repeat_byte "s" 16) (repeat_byte "n" 24) id id pass_phrase in
  let* _ := export_host_identity_with_passphrase good_io (fun s => s) 420 id (setup_role id) (id +:+ ".onion") 443 id pass_phrase ("pub/" +:+ id) in
  sret tt.
Definition setup_fs : fs :=
  <["pub/issuer"%string := File true 420 EmptyString]>
  (sbind (setup_host "guard-a") (fun _ => setup_host "guard-b") ∅).1.
Definition setup_init := init_runtime_trust_bundle good_io (fun s => s) 420 "epoch-7" ["pub/guard-a"; "pub/guard-b"]%string "pub/issuer" "out/t0.json" setup_fs.
Definition setup_first := sign_runtime_trust_bundle_with_passphrase good_io (fun s => s) 420 "out/t0.json" "guard-a" "ag-01" "guard-a" pass_phrase "out/t1.json" 1 setup_init.1.
Definition setup_second := sign_runtime_trust_bundle_with_passphrase good_io (fun s => s) 420 "out/t1.json" "guard-b" "ag-02" "guard-b" pass_phrase "out/t2.json" 1 setup_first.1.

Lemma ceremony_verifies_witness :
  verify_runtime_trust_bundle good_io "out/t2.json" setup_second.1 = (setup_second.1, Ok setup_b2).
Proof.
  refine (proj1 (ceremony_verifies good_io (fun s => s) 420 (fun sk pk => sk = pk) _ _ _ "epoch-7" ["pub/guard-a"; "pub/guard-b"]%string "pub/issuer"
    "out/t0.json" "out/t1.json" "out/t2.json" "guard-a" "guard-b" "guard-a" "guard-b" pass_phrase pass_phrase (setup_keys "guard-a")
    (setup_keys "guard-b") 1 1 setup_fs setup_init.1 setup_first.1 setup_second.1 setup_b0 setup_b1 setup_b2 _ _ _ _ _ _ _ _ _ _ _ _ _));
    try (vm_compute; reflexivity); try (vm_compute; discriminate).
  - intros sk pk m sig -> Hs. cbn in Hs. unfold setup_sign in Hs. destruct (is_empty (trim (pk +:+ m))) eqn:E; [done|]. injection Hs as <-.
    split; [cbn; unfold demo_falcon_verify; by rewrite String.eqb_refl|by apply is_empty_false].
  - repeat constructor.
  - exists (setup_peer "guard-a"), "guard-a"%string, "guard-a"%string. vm_compute. repeat split; reflexivity.
  - exists (setup_peer "guard-b"), "guard-b"%string, "guard-b"%string. vm_compute. repeat split; reflexivity.
Defined.
