(* ===== verification/SignerConfig.v ===== *)
(** * The configuration of the signer

    [SignerConfig::normalize] and [security_report] in
    [crates/nxms-signer/src/config.rs].  The URL parser is a parameter, the
    environment and the files are arguments; a configuration is normalised in
    place and dropped on an error, so normalisation is a function to a result.
    Errors name the field and leave out the wording. *)

From S2P Require Import Prelude RustString TransportCrypto ActionToken Bytes.

(** * Addresses

    The parser of [std::net::IpAddr] and [is_loopback], as the standard library
    has them: four decimal numbers without leading zeros, or up to eight groups
    of hexadecimal digits with at most one run of zeros left out, the last two of
    which may be written as an IPv4 address.  Every reader leaves its input alone
    when it fails. *)

Notation reader A := (list ascii -> option (A * list ascii)).

(** [char::to_digit] *)
Definition to_digit (radix : Z) (c : ascii) : option Z :=
  let n := byte_of c in
  let d := if in_range 48 57 c then n - 48 else if in_range 97 102 c then n - 87 else if in_range 65 70 c then n - 55 else radix in
  if d <? radix then Some d else None.
Fixpoint digits (radix : Z) (l : list ascii) : list Z * list ascii :=
  match l with
  | [] => ([], [])
  | c :: l' => match to_digit radix c with Some d => let '(ds, r) := digits radix l' in (d :: ds, r) | None => ([], l) end
  end.
Definition number_of (radix : Z) (ds : list Z) : Z := fold_left (fun acc d => acc * radix + d) ds 0.
Definition read_number (radix : Z) (max_digits : nat) (allow_zero_prefix : bool) (max : Z) : reader Z := fun l =>
  let '(ds, r) := digits radix l in
  let has_leading_zero := match ds with d :: _ => d =? 0 | [] => false end in
  if (max_digits <? length ds)%nat || (length ds =? 0)%nat then None
  else if negb allow_zero_prefix && has_leading_zero && (1 <? length ds)%nat then None
  else if max <? number_of radix ds then None else Some (number_of radix ds, r).

Definition read_given_char (c : ascii) : reader unit := fun l =>
  match l with x :: l' => if (x =? c)%char then Some (tt, l') else None | [] => None end.
Definition read_separator {A} (sep : ascii) (index : nat) (inner : reader A) : reader A := fun l =>
  match index with
  | O => inner l
  | S _ => match read_given_char sep l with Some (_, l') => inner l' | None => None end
  end.

Fixpoint read_octets (n index : nat) : reader (list Z) := fun l =>
  match n with
  | O => Some ([], l)
  | S n' =>
      match read_separator "." index (read_number 10 3 false 255) l with
      | Some (x, l') => match read_octets n' (S index) l' with Some (xs, r) => Some (x :: xs, r) | None => None end
      | None => None
      end
  end.
Definition read_ipv4_addr : reader (list Z) := read_octets 4 0.

(** The groups read into [limit] slots, and whether an IPv4 address ended them. *)
Fixpoint read_groups (left index : nat) (l : list ascii) : list Z * bool * list ascii :=
  match left with
  | O => ([], false, l)
  | S left' =>
      let v4 := match left' with O => None | S _ => read_separator ":" index read_ipv4_addr l end in
      match v4 with
      | Some ([a; b; c; d], r) => ([a * 256 + b; c * 256 + d], true, r)
      | _ =>
          match read_separator ":" index (read_number 16 4 true 65535) l with
          | Some (g, l') => let '(gs, v, r) := read_groups left' (S index) l' in (g :: gs, v, r)
          | None => ([], false, l)
          end
      end
  end.
Definition read_ipv6_addr : reader (list Z) := fun l =>
  let '(head, head_ipv4, r) := read_groups 8 0 l in
  if (length head =? 8)%nat then Some (head, r)
  else if head_ipv4 then None
  else match read_given_char ":" r with
  | Some (_, r) =>
      match read_given_char ":" r with
      | Some (_, r) =>
          let '(tail, _, r) := read_groups (8 - (length head + 1)) 0 r in
          Some (head ++ replicate (8 - length head - length tail) 0 ++ tail, r)
      | None => None
      end
  | None => None
  end.

Inductive IpAddr : Type := V4 (octets : list Z) | V6 (segments : list Z).
Definition ip_parse (s : string) : option IpAddr :=
  let whole (r : option (list Z * list ascii)) := match r with Some (x, []) => Some x | _ => None end in
  match read_ipv4_addr (bytes_of s) with
  | Some (o, r) => match r with [] => Some (V4 o) | _ => None end
  | None => option_map V6 (whole (read_ipv6_addr (bytes_of s)))
  end.
Definition is_loopback (ip : IpAddr) : bool :=
  match ip with
  | V4 (a :: _) => a =? 127
  | V4 [] => false
  | V6 g => bool_decide (g = [0; 0; 0; 0; 0; 0; 0; 1])
  end.

Example addresses : map (fun s => option_map is_loopback (ip_parse s))
  ["127.0.0.1"; "127.1"; "127.00.0.1"; "10.0.0.1"; "::1"; "0:0:0:0:0:0:0:1"; "::0.0.0.1"; "::ffff:127.0.0.1"; "[::1]"; "1::2::3"; "127.0.0.256"; "::"]%string
  = [Some true; None; None; Some false; Some true; Some true; Some true; Some false; None; None; None; Some false].
Proof. vm_compute. reflexivity. Qed.

(** [host.eq_ignore_ascii_case("localhost") || parse.map(is_loopback)] *)
Definition is_loopback_host (host : string) : bool :=
  (to_ascii_lowercase host =? "localhost")%string || match ip_parse host with Some ip => is_loopback ip | None => false end.

(** [SignerRole] is the type of roles of the action tokens. *)
Notation SignerRole := Role.
Record ActionTokenConfig : Type := MkActionTokenConfig {
  ac_required : bool; ac_issuer : string; ac_audience : option string; ac_algorithm : string; ac_public_key_pem_path : string;
  ac_clock_skew_secs : Z; ac_max_ttl_secs : Z; ac_verify_rate_limit_max_attempts : Z; ac_verify_rate_limit_window_secs : Z;
  ac_verify_rate_limit_max_keys : Z }.
Record WalletRpcConfig : Type := MkWalletRpcConfig {
  wr_endpoint : string; wr_wallet_name : string; wr_wallet_password : string; wr_username : string; wr_password : string }.
Record WalletProvisionConfig : Type := MkWalletProvisionConfig {
  wp_enabled : bool; wp_wallet_cli_path : string; wp_wallet_dir : option string; wp_daemon_address : option string;
  wp_trusted_daemon : bool; wp_extra_args : list string; wp_timeout_secs : Z }.
Record SignerConfig : Type := MkSignerConfig {
  sc_local_id : string; sc_signer_role : SignerRole; sc_sandbox_id : string; sc_wallet_id : string; sc_nettype : string;
  sc_peers_path : string; sc_host_vault_dir : string; sc_host_vault_passphrase : string; sc_runtime_trust_bundle_path : option string;
  sc_db_path : string; sc_mailbox_url : string; sc_mailbox_push_token : option string; sc_mailbox_pull_token : option string;
  sc_mailbox_ack_token : option string; sc_mailbox_admin_token : option string; sc_worker_service_token : option string;
  sc_tor_socks5h : option string; sc_mailbox_retry_attempts : Z; sc_mailbox_retry_backoff_ms : Z; sc_allow_remote_wallet_rpc : bool;
  sc_production_hardening : bool; sc_wallet_rpc : WalletRpcConfig; sc_snapshot_quorum : Z; sc_pull_max : Z; sc_pull_wait_ms : Z;
  sc_poll_interval_ms : Z; sc_default_ttl_secs : Z; sc_max_txset_hex_len : Z; sc_action_token : option ActionTokenConfig;
  sc_wallet_provision : option WalletProvisionConfig }.

Inductive SignerConfigError : Type :=
| CfgEmpty (field : string) | CfgNettype | CfgPassphraseLength | CfgHardening (field : string)
| CfgUrl (field : string) | CfgScheme (field : string) | CfgNoHost (field : string) | CfgNotOnion | CfgNotLoopback (field : string)
| CfgNoSocks | CfgRemoteWallet | CfgAlgorithm | CfgNoActionToken | CfgTokenNotRequired | CfgNoWorkerToken | CfgNewline
| CfgSecretName (label : string) | CfgSecretMissing (label : string) | CfgSecretEmpty (label : string)
| CfgSecretNotRegular (label : string) | CfgSecretMode (label : string) | CfgSecretUnreadable (label : string).
Notation CR := (result SignerConfigError).

(** What is used of a parsed URL. *)
Record Url : Type := MkUrl { url_scheme : string; url_host_str : option string }.

(** ** Helpers *)

(** [trim_end_matches('/')] *)
Fixpoint drop_slashes (l : list ascii) : list ascii :=
  match l with c :: l' => if (c =? "/")%char then drop_slashes l' else l | [] => [] end.
Definition trim_end_slashes (s : string) : string := of_bytes (rev (drop_slashes (rev (bytes_of s)))).
Definition secret_uses_vault_reference (raw : string) : bool :=
  match strip_prefix "vault:" (trim raw) with Some v => negb (is_empty (trim v)) | None => false end.
(** [opt.as_deref().map(secret_uses_vault_reference).unwrap_or(false)] *)
Definition opt_vault_reference (raw : option string) : bool :=
  match raw with Some v => secret_uses_vault_reference v | None => false end.
Definition unwrap_or_default (o : option string) : string := default EmptyString o.
Definition clamp (lo hi x : Z) : Z := Z.max lo (Z.min hi x).

Section config.
Context (url_parse : string -> option Url).
Context (env : string -> option string) (files : gmap string file) (readable : string -> bool).

Definition read_secret_file (path label : string) (require_owner_only : bool) : CR string :=
  let? meta := ok_or (files !! path) (CfgSecretMissing label) in
  let? _ := fail_if (negb (f_regular meta)) (CfgSecretNotRegular label) in
  let? _ := fail_if (require_owner_only && group_or_other (f_mode meta)) (CfgSecretMode label) in
  let? _ := fail_if (negb (readable path) || negb (utf8_valid (f_bytes meta))) (CfgSecretUnreadable label) in
  let out := trim (f_bytes meta) in
  let? _ := fail_if (is_empty out) (CfgSecretEmpty label) in
  Ok out.
Definition resolve_secret_value (raw label : string) : CR string :=
  let trimmed := trim raw in
  match strip_prefix "env:" trimmed with
  | Some var_name =>
      let key := trim var_name in
      let? _ := fail_if (is_empty key) (CfgSecretName label) in
      let? value := ok_or (env key) (CfgSecretMissing label) in
      let out := trim value in
      let? _ := fail_if (is_empty out) (CfgSecretEmpty label) in
      Ok out
  | None =>
  match strip_prefix "vault:" trimmed with
  | Some path_raw =>
      let path := trim path_raw in
      let? _ := fail_if (is_empty path) (CfgSecretName label) in
      read_secret_file path label true
  | None =>
  match strip_prefix "file:" trimmed with
  | Some path_raw =>
      let path := trim path_raw in
      let? _ := fail_if (is_empty path) (CfgSecretName label) in
      read_secret_file path label false
  | None => Ok trimmed
  end end end.
(** [if let Some(tok) = &mut opt { *tok = resolve_secret_value(tok, label)?; }] *)
Definition resolve_opt (raw : option string) (label : string) : CR (option string) :=
  match raw with None => Ok None | Some t => let? v := resolve_secret_value t label in Ok (Some v) end.

Definition parse_host (url label : string) : CR string :=
  let? parsed := ok_or (url_parse url) (CfgUrl label) in
  ok_or (url_host_str parsed) (CfgNoHost label).
Definition env_bool (name : string) : bool :=
  let trimmed := trim (unwrap_or_default (env name)) in
  (to_ascii_lowercase trimmed =? "true")%string || (trimmed =? "1")%string.

(** ** Normalisation, in the order of the source *)

Definition normalize_nettype (raw : string) : CR string :=
  let n := to_ascii_lowercase (trim raw) in
  let n := if is_empty n then "stagenet"%string else n in
  if bool_decide (n ∈ ["mainnet"; "stagenet"; "testnet"]%string) then Ok n else Err CfgNettype.
Definition normalize_mailbox_url (raw : string) : CR string :=
  let u := trim_end_slashes (trim raw) in
  let? _ := fail_if (is_empty u) (CfgEmpty "mailbox_url") in
  let? parsed := ok_or (url_parse u) (CfgUrl "mailbox_url") in
  let? _ := fail_if (negb (bool_decide (url_scheme parsed ∈ ["http"; "https"]%string))) (CfgScheme "mailbox_url") in
  let? host := ok_or (url_host_str parsed) (CfgNoHost "mailbox_url") in
  let? _ := fail_if (negb (ends_with ".onion" (to_ascii_lowercase host))) CfgNotOnion in
  Ok u.
Definition normalize_socks (raw : option string) : CR string :=
  let trimmed := match raw with Some s => non_blank s | None => None end in
  let? socks := ok_or trimmed CfgNoSocks in
  let? parsed := ok_or (url_parse socks) (CfgUrl "tor_socks5h") in
  let? _ := fail_if (negb (url_scheme parsed =? "socks5h")%string) (CfgScheme "tor_socks5h") in
  let? host := ok_or (url_host_str parsed) (CfgNoHost "tor_socks5h") in
  let? _ := fail_if (negb (is_loopback_host host)) (CfgNotLoopback "tor_socks5h") in
  Ok socks.
(** The check of the three mailbox tokens. *)
Fixpoint require_tokens (l : list (string * option string)) : CR unit :=
  match l with
  | [] => Ok tt
  | (name, token) :: l' => let? _ := fail_if (is_empty (trim (unwrap_or_default token))) (CfgEmpty name) in require_tokens l'
  end.
Definition normalize_wallet_rpc (w : WalletRpcConfig) (allow_remote : bool) : CR WalletRpcConfig :=
  let endpoint := trim_end_slashes (trim (wr_endpoint w)) in
  let? _ := fail_if (is_empty endpoint) (CfgEmpty "wallet_rpc.endpoint") in
  let? wallet_password := resolve_secret_value (wr_wallet_password w) "wallet_rpc.wallet_password" in
  let? password := resolve_secret_value (wr_password w) "wallet_rpc.password" in
  let? parsed := ok_or (url_parse endpoint) (CfgUrl "wallet_rpc.endpoint") in
  let? _ := fail_if (negb (bool_decide (url_scheme parsed ∈ ["http"; "https"]%string))) (CfgScheme "wallet_rpc.endpoint") in
  let? _ := fail_if allow_remote CfgRemoteWallet in
  let? host := ok_or (url_host_str parsed) (CfgNoHost "wallet_rpc.endpoint") in
  let? _ := fail_if (negb (is_loopback_host host)) (CfgNotLoopback "wallet_rpc.endpoint") in
  Ok (MkWalletRpcConfig endpoint (wr_wallet_name w) wallet_password (wr_username w) password).
Definition normalize_action_token (a : ActionTokenConfig) : CR ActionTokenConfig :=
  let issuer := trim (ac_issuer a) in
  let? _ := fail_if (is_empty issuer) (CfgEmpty "action_token.issuer") in
  let algorithm := to_ascii_uppercase (trim (ac_algorithm a)) in
  let? _ := fail_if (negb (bool_decide (algorithm ∈ ["EDDSA"; "ES256"]%string))) CfgAlgorithm in
  let? _ := fail_if (is_empty (ac_public_key_pem_path a)) (CfgEmpty "action_token.public_key_pem_path") in
  let audience := match ac_audience a with Some aud => non_blank aud | None => None end in
  Ok (MkActionTokenConfig (ac_required a) issuer audience algorithm (ac_public_key_pem_path a)
    (Z.min 120 (ac_clock_skew_secs a)) (clamp 10 900 (ac_max_ttl_secs a)) (clamp 1 128 (ac_verify_rate_limit_max_attempts a))
    (clamp 1 3600 (ac_verify_rate_limit_window_secs a)) (clamp 64 262144 (ac_verify_rate_limit_max_keys a))).
Definition has_newline (s : string) : bool := negb (sall (fun c => negb (byte_of c =? 10) && negb (byte_of c =? 13)) s).
Definition normalize_wallet_provision (w : WalletProvisionConfig) : CR WalletProvisionConfig :=
  let? _ := fail_if (is_empty (wp_wallet_cli_path w)) (CfgEmpty "wallet_provision.wallet_cli_path") in
  let wallet_dir := match wp_wallet_dir w with Some d => if is_empty d then None else Some d | None => None end in
  let daemon_address := match wp_daemon_address w with Some d => non_blank d | None => None end in
  let extra_args := List.filter (fun v => negb (is_empty v)) (map trim (wp_extra_args w)) in
  let? _ := fail_if (existsb has_newline extra_args) CfgNewline in
  Ok (MkWalletProvisionConfig (wp_enabled w) (wp_wallet_cli_path w) wallet_dir daemon_address (wp_trusted_daemon w) extra_args
    (clamp 5 600 (wp_timeout_secs w))).
Definition opt_normalize {A} (f : A -> CR A) (o : option A) : CR (option A) :=
  match o with None => Ok None | Some a => let? b := f a in Ok (Some b) end.

(** Which secrets the file names by a [vault:] reference. *)
Record VaultRefs : Type := MkVaultRefs {
  vr_push : bool; vr_pull : bool; vr_ack : bool; vr_admin : bool; vr_worker : bool; vr_wallet : bool; vr_rpc : bool; vr_host : bool }.
Definition vault_refs (c : SignerConfig) : VaultRefs :=
  MkVaultRefs (opt_vault_reference (sc_mailbox_push_token c)) (opt_vault_reference (sc_mailbox_pull_token c))
    (opt_vault_reference (sc_mailbox_ack_token c)) (opt_vault_reference (sc_mailbox_admin_token c))
    (opt_vault_reference (sc_worker_service_token c)) (secret_uses_vault_reference (wr_wallet_password (sc_wallet_rpc c)))
    (secret_uses_vault_reference (wr_password (sc_wallet_rpc c))) (secret_uses_vault_reference (sc_host_vault_passphrase c)).
Definition short (o : option string) : bool := len (unwrap_or_default o) <? 16.

(** The last part, on the normalised configuration. *)
Definition check_hardening (c : SignerConfig) (v : VaultRefs) : CR unit :=
  let? _ := fail_if (is_empty (trim (wr_wallet_password (sc_wallet_rpc c)))) (CfgHardening "wallet_rpc.wallet_password") in
  let? _ := fail_if (is_empty (trim (wr_password (sc_wallet_rpc c)))) (CfgHardening "wallet_rpc.password") in
  let? _ := fail_if (negb (vr_wallet v)) (CfgHardening "wallet_rpc.wallet_password") in
  let? _ := fail_if (negb (vr_rpc v)) (CfgHardening "wallet_rpc.password") in
  let? _ := fail_if (negb (vr_host v)) (CfgHardening "host_vault_passphrase") in
  let? _ := fail_if (short (sc_mailbox_push_token c)) (CfgHardening "mailbox_push_token") in
  let? _ := fail_if (negb (vr_push v)) (CfgHardening "mailbox_push_token") in
  let? _ := fail_if (short (sc_mailbox_pull_token c)) (CfgHardening "mailbox_pull_token") in
  let? _ := fail_if (negb (vr_pull v)) (CfgHardening "mailbox_pull_token") in
  let? _ := fail_if (short (sc_mailbox_ack_token c)) (CfgHardening "mailbox_ack_token") in
  let? _ := fail_if (negb (vr_ack v)) (CfgHardening "mailbox_ack_token") in
  let? _ := fail_if (match sc_mailbox_admin_token c with Some _ => negb (vr_admin v) | None => false end) (CfgHardening "mailbox_admin_token") in
  let? _ := fail_if (short (sc_worker_service_token c)) (CfgHardening "worker_service_token") in
  let? _ := fail_if (negb (vr_worker v)) (CfgHardening "worker_service_token") in
  let? a := ok_or (sc_action_token c) (CfgHardening "action_token") in
  let? _ := fail_if (negb (ac_required a)) (CfgHardening "action_token.required") in
  let? audience := ok_or (ac_audience a) (CfgHardening "action_token.audience") in
  let? _ := fail_if (negb (audience =? "sandbox:" +:+ sc_sandbox_id c)%string) (CfgHardening "action_token.audience") in
  let? _ := fail_if (120 <? ac_max_ttl_secs a) (CfgHardening "action_token.max_ttl_secs") in
  let? w := ok_or (sc_wallet_provision c) (CfgHardening "wallet_provision") in
  fail_if (negb (wp_enabled w)) (CfgHardening "wallet_provision.enabled").

Definition normalize (c : SignerConfig) : CR SignerConfig :=
  let refs := vault_refs c in
  let local_id := trim (sc_local_id c) in
  let? _ := fail_if (is_empty local_id) (CfgEmpty "local_id") in
  let sandbox_id := default local_id (non_blank (sc_sandbox_id c)) in
  let wallet_id := default local_id (non_blank (sc_wallet_id c)) in
  let? nettype := normalize_nettype (sc_nettype c) in
  let? _ := fail_if (is_empty (sc_host_vault_dir c)) (CfgEmpty "host_vault_dir") in
  let? passphrase := resolve_secret_value (sc_host_vault_passphrase c) "host_vault_passphrase" in
  let? _ := fail_if (len (trim passphrase) <? 12) CfgPassphraseLength in
  let? _ := fail_if (match sc_runtime_trust_bundle_path c with Some p => is_empty p | None => false end) (CfgEmpty "runtime_trust_bundle_path") in
  let? _ := fail_if (sc_production_hardening c && match sc_runtime_trust_bundle_path c with None => true | Some _ => false end)
              (CfgHardening "runtime_trust_bundle_path") in
  let? mailbox_url := normalize_mailbox_url (sc_mailbox_url c) in
  let? push := resolve_opt (sc_mailbox_push_token c) "mailbox_push_token" in
  let? pull := resolve_opt (sc_mailbox_pull_token c) "mailbox_pull_token" in
  let? ack := resolve_opt (sc_mailbox_ack_token c) "mailbox_ack_token" in
  let? admin := resolve_opt (sc_mailbox_admin_token c) "mailbox_admin_token" in
  let? worker := resolve_opt (sc_worker_service_token c) "worker_service_token" in
  let? _ := fail_if (match worker with Some t => is_empty (trim t) | None => false end) (CfgEmpty "worker_service_token") in
  let? socks := normalize_socks (sc_tor_socks5h c) in
  let? _ := require_tokens [("mailbox_push_token", push); ("mailbox_pull_token", pull); ("mailbox_ack_token", ack)]%string in
  let? wallet_rpc := normalize_wallet_rpc (sc_wallet_rpc c) (sc_allow_remote_wallet_rpc c) in
  let? action_token := opt_normalize normalize_action_token (sc_action_token c) in
  let? a := ok_or action_token CfgNoActionToken in
  let? _ := fail_if (negb (ac_required a)) CfgTokenNotRequired in
  let? _ := fail_if (match worker with None => true | Some _ => false end) CfgNoWorkerToken in
  let? wallet_provision := opt_normalize normalize_wallet_provision (sc_wallet_provision c) in
  let c' := MkSignerConfig local_id (sc_signer_role c) sandbox_id wallet_id nettype (sc_peers_path c) (sc_host_vault_dir c) passphrase
    (sc_runtime_trust_bundle_path c) (sc_db_path c) mailbox_url push pull ack admin worker (Some socks)
    (clamp 1 16 (sc_mailbox_retry_attempts c)) (clamp 50 10000 (sc_mailbox_retry_backoff_ms c)) (sc_allow_remote_wallet_rpc c)
    (sc_production_hardening c) wallet_rpc (Z.max 1 (sc_snapshot_quorum c)) (clamp 1 50 (sc_pull_max c)) (Z.min 60000 (sc_pull_wait_ms c))
    (Z.max 100 (sc_poll_interval_ms c)) (Z.max 30 (sc_default_ttl_secs c)) (Z.max 2048 (sc_max_txset_hex_len c)) action_token wallet_provision in
  let? _ := (if sc_production_hardening c then check_hardening c' refs else Ok tt) in
  Ok c'.

(** ** The security report *)

Record SecurityCheckItem : Type := MkCheck { ck_name : string; ck_ok : bool; ck_detail : string }.
Record SecurityCheckReport : Type := MkReport { rep_ok : bool; rep_checks : list SecurityCheckItem; rep_findings : list string }.
Definition show_bool (b : bool) : string := if b then "true" else "false".
Definition token_check (field : string) (t : option string) : SecurityCheckItem :=
  let n := len (unwrap_or_default t) in MkCheck (field +:+ "_min_len") (16 <=? n) (field +:+ "_len=" +:+ dec n).
Definition opt_required (a : option ActionTokenConfig) : bool := match a with Some v => ac_required v | None => false end.
Definition opt_enabled (w : option WalletProvisionConfig) : bool := match w with Some v => wp_enabled v | None => false end.
Definition security_checks (c : SignerConfig) : list SecurityCheckItem :=
  let wallet_host := match parse_host (wr_endpoint (sc_wallet_rpc c)) "wallet_rpc.endpoint" with Ok h => Some h | Err _ => None end in
  let orch_verify := env_bool "NXMS_SIGNER_ORCH_QUORUM_PROOF_VERIFY" in
  [ MkCheck "wallet_rpc_loopback" (match wallet_host with Some h => is_loopback_host h | None => false end)
      ("wallet_rpc host=" +:+ default "<invalid>"%string wallet_host +:+ " allow_remote_wallet_rpc=" +:+ show_bool (sc_allow_remote_wallet_rpc c));
    MkCheck "action_token_required" (opt_required (sc_action_token c)) "requires [action_token].required=true";
    MkCheck "mailbox_onion" (match parse_host (sc_mailbox_url c) "mailbox_url" with Ok h => ends_with ".onion" (to_ascii_lowercase h) | Err _ => false end)
      ("mailbox_url=" +:+ sc_mailbox_url c);
    MkCheck "tor_socks5h_present" (match sc_tor_socks5h c with Some _ => true | None => false end)
      ("tor_socks5h=" +:+ default "<none>"%string (sc_tor_socks5h c));
    MkCheck "mailbox_retry_enabled" (2 <=? sc_mailbox_retry_attempts c)
      ("mailbox_retry_attempts=" +:+ dec (sc_mailbox_retry_attempts c) +:+ " mailbox_retry_backoff_ms=" +:+ dec (sc_mailbox_retry_backoff_ms c));
    token_check "mailbox_push_token" (sc_mailbox_push_token c);
    token_check "mailbox_pull_token" (sc_mailbox_pull_token c);
    token_check "mailbox_ack_token" (sc_mailbox_ack_token c);
    token_check "worker_service_token" (sc_worker_service_token c);
    MkCheck "wallet_rpc_secrets_present"
      (negb (is_empty (trim (wr_wallet_password (sc_wallet_rpc c)))) && negb (is_empty (trim (wr_password (sc_wallet_rpc c)))))
      "wallet_rpc.{wallet_password,password} must be non-empty";
    MkCheck "production_hardening_enabled" (sc_production_hardening c) ("production_hardening=" +:+ show_bool (sc_production_hardening c));
    MkCheck "wallet_provision_enabled" (opt_enabled (sc_wallet_provision c)) ("wallet_provision.enabled=" +:+ show_bool (opt_enabled (sc_wallet_provision c)));
    MkCheck "orchestrator_quorum_verify" (negb (sc_production_hardening c) || orch_verify)
      ("production_hardening=" +:+ show_bool (sc_production_hardening c) +:+ " NXMS_SIGNER_ORCH_QUORUM_PROOF_VERIFY=" +:+ show_bool orch_verify) ].
Definition security_report (c : SignerConfig) : SecurityCheckReport :=
  let checks := security_checks c in
  let findings := map (fun k => ck_name k +:+ ": " +:+ ck_detail k) (List.filter (fun k => negb (ck_ok k)) checks) in
  MkReport (match findings with [] => true | _ => false end) checks findings.
End config.
