(* ===== verification/SignerConfigProps.v ===== *)
(** * Properties of the signer's configuration

    What an accepted configuration guarantees, and that the security report
    finds nothing else to complain about in a hardened one. *)

From S2P Require Import Prelude RustString TransportCrypto ActionToken SignerConfig Bytes.

Section props.
Context (url_parse : string -> option Url).
Context (env : string -> option string) (files : gmap string file) (readable : string -> bool).
Notation norm := (normalize url_parse env files readable).
Notation resolve := (resolve_secret_value env files readable).

(** ** Secrets *)

(** A value read from a regular file that only its owner may read. *)
Definition from_private_file (v : string) : Prop :=
  exists path x, files !! path = Some x /\ f_regular x = true /\ group_or_other (f_mode x) = false /\ v = trim (f_bytes x) /\ is_empty v = false.

Lemma vault_secret_private raw label v :
  secret_uses_vault_reference raw = true -> resolve raw label = Ok v -> from_private_file v.
Proof.
  unfold secret_uses_vault_reference, resolve_secret_value. intros Hv H. cbv zeta in H.
  destruct (strip_prefix "vault:" (trim raw)) as [p|] eqn:Ev; [|done]. apply negb_true_iff in Hv.
  assert (strip_prefix "env:" (trim raw) = None) as En.
  { unfold strip_prefix in Ev. destruct (String.prefix "vault:" (trim raw)) eqn:E; [|done].
    apply prefix_split in E as [m ->]. reflexivity. }
  rewrite En, Hv in H. cbn [fail_if rbind] in H. unfold read_secret_file in H. cbv zeta in H. rok.
  repeat match goal with K : negb _ = false |- _ => apply negb_false_iff in K end.
  eexists _, _. split_and!; eauto.
Qed.

(** ** What is accepted *)

Definition host_of (url : string) (schemes : list string) (host : string) : Prop :=
  exists u, url_parse url = Some u /\ url_scheme u ∈ schemes /\ url_host_str u = Some host.
Definition nonblank (o : option string) : Prop := exists t, o = Some t /\ is_empty (trim t) = false.

Record token_config_ok (a : ActionTokenConfig) : Prop := TokenConfigOk {
  tc_required : ac_required a = true;
  tc_issuer : is_empty (ac_issuer a) = false;
  tc_algorithm : ac_algorithm a ∈ ["EDDSA"; "ES256"]%string;
  tc_bounds : ac_clock_skew_secs a <= 120 /\ 10 <= ac_max_ttl_secs a <= 900 /\ 1 <= ac_verify_rate_limit_max_attempts a <= 128
    /\ 1 <= ac_verify_rate_limit_window_secs a <= 3600 /\ 64 <= ac_verify_rate_limit_max_keys a <= 262144;
}.

(** The signer reaches its mailbox through Tor and its wallet on its own machine,
    verifies action tokens, and has all its credentials. *)
Record config_isolated (c : SignerConfig) : Prop := ConfigIsolated {
  ci_mailbox : exists h, host_of (sc_mailbox_url c) ["http"; "https"]%string h /\ ends_with ".onion" (to_ascii_lowercase h) = true;
  ci_socks : exists s h, sc_tor_socks5h c = Some s /\ host_of s ["socks5h"]%string h /\ is_loopback_host h = true;
  ci_wallet : exists h, host_of (wr_endpoint (sc_wallet_rpc c)) ["http"; "https"]%string h /\ is_loopback_host h = true;
  ci_local : sc_allow_remote_wallet_rpc c = false;
  ci_token : exists a, sc_action_token c = Some a /\ token_config_ok a;
  ci_tokens : nonblank (sc_mailbox_push_token c) /\ nonblank (sc_mailbox_pull_token c) /\ nonblank (sc_mailbox_ack_token c)
    /\ nonblank (sc_worker_service_token c);
  ci_passphrase : 12 <= len (trim (sc_host_vault_passphrase c));
  ci_nettype : sc_nettype c ∈ ["mainnet"; "stagenet"; "testnet"]%string;
  ci_ids : is_empty (sc_local_id c) = false /\ is_empty (sc_sandbox_id c) = false /\ is_empty (sc_wallet_id c) = false;
  ci_bounds : 1 <= sc_snapshot_quorum c /\ 1 <= sc_pull_max c <= 50 /\ sc_pull_wait_ms c <= 60000 /\ 100 <= sc_poll_interval_ms c
    /\ 1 <= sc_mailbox_retry_attempts c <= 16 /\ 50 <= sc_mailbox_retry_backoff_ms c <= 10000;
}.

(** What production hardening adds: credentials of at least sixteen bytes, read
    from private files, tokens for this sandbox only, at most two minutes old. *)
Record config_hardened (c : SignerConfig) : Prop := ConfigHardened {
  ch_bundle : exists p, sc_runtime_trust_bundle_path c = Some p /\ is_empty p = false;
  ch_tokens : Forall (fun o => exists t, o = Some t /\ 16 <= len t /\ from_private_file t)
    [sc_mailbox_push_token c; sc_mailbox_pull_token c; sc_mailbox_ack_token c; sc_worker_service_token c];
  ch_secrets : Forall from_private_file
    [wr_wallet_password (sc_wallet_rpc c); wr_password (sc_wallet_rpc c); sc_host_vault_passphrase c];
  ch_admin : forall t, sc_mailbox_admin_token c = Some t -> from_private_file t;
  ch_audience : exists a, sc_action_token c = Some a /\ ac_audience a = Some ("sandbox:" +:+ sc_sandbox_id c) /\ ac_max_ttl_secs a <= 120;
  ch_provision : exists w, sc_wallet_provision c = Some w /\ wp_enabled w = true;
}.

Lemma clamp_range lo hi x : lo <= hi -> lo <= clamp lo hi x <= hi.
Proof. unfold clamp. lia. Qed.
Lemma in_ok (x : string) (l : list string) : negb (bool_decide (x ∈ l)) = false -> x ∈ l.
Proof. by rewrite negb_false_iff, bool_decide_eq_true. Qed.

(** The conditions of passed guards. *)
Ltac guards := rok; repeat match goal with
  | K : negb (bool_decide (_ ∈ _)) = false |- _ => apply in_ok in K
  | K : negb (_ =? _)%string = false |- _ => apply negb_false_iff, String.eqb_eq in K
  | K : negb _ = false |- _ => apply negb_false_iff in K
  end.

Lemma nettype_ok raw n : normalize_nettype raw = Ok n -> n ∈ ["mainnet"; "stagenet"; "testnet"]%string.
Proof. unfold normalize_nettype. cbv zeta. intros H. case_bool_decide; [|done]. by injection H as <-. Qed.
Lemma mailbox_url_ok raw u : normalize_mailbox_url url_parse raw = Ok u ->
  exists h, host_of u ["http"; "https"]%string h /\ ends_with ".onion" (to_ascii_lowercase h) = true.
Proof.
  unfold normalize_mailbox_url. cbv zeta. intros H. guards. eexists. split; [|done]. by eexists.
Qed.
Lemma socks_ok raw s : normalize_socks url_parse raw = Ok s -> exists h, host_of s ["socks5h"]%string h /\ is_loopback_host h = true.
Proof.
  unfold normalize_socks. cbv zeta. intros H. guards. eexists. split; [|done]. eexists. split; [done|]. split; [|done].
  match goal with K : url_scheme _ = _ |- _ => rewrite K end. by left.
Qed.
Lemma wallet_ok w remote w' : normalize_wallet_rpc url_parse env files readable w remote = Ok w' ->
  (exists h, host_of (wr_endpoint w') ["http"; "https"]%string h /\ is_loopback_host h = true) /\ remote = false
  /\ resolve (wr_wallet_password w) "wallet_rpc.wallet_password" = Ok (wr_wallet_password w')
  /\ resolve (wr_password w) "wallet_rpc.password" = Ok (wr_password w').
Proof.
  unfold normalize_wallet_rpc. cbv zeta. intros H. guards. cbn.
  split_and!; try done. eexists. split; [|done]. by eexists.
Qed.
Lemma action_token_ok a a' : normalize_action_token a = Ok a' -> ac_required a' = true -> token_config_ok a'.
Proof.
  unfold normalize_action_token. cbv zeta. intros H Hr. guards. constructor; cbn in *; try done.
  pose proof (clamp_range 10 900 (ac_max_ttl_secs a)). pose proof (clamp_range 1 128 (ac_verify_rate_limit_max_attempts a)).
  pose proof (clamp_range 1 3600 (ac_verify_rate_limit_window_secs a)). pose proof (clamp_range 64 262144 (ac_verify_rate_limit_max_keys a)). lia.
Qed.
Lemma require_ok name o l : require_tokens ((name, o) :: l) = Ok tt -> nonblank o /\ require_tokens l = Ok tt.
Proof. cbn. intros H. rok. split; [|done]. destruct o as [t|]; [by exists t|done]. Qed.
Lemma default_nonempty d s : is_empty d = false -> is_empty (default d (non_blank s)) = false.
Proof. intros Hd. unfold non_blank. by destruct (is_empty (trim s)) eqn:E. Qed.

(** Every fact of a successful run, as it was checked. *)
Record accepted (c c' : SignerConfig) : Prop := Accepted {
  ad_isolated : config_isolated c';
  ad_bundle : match sc_runtime_trust_bundle_path c' with Some p => is_empty p | None => false end = false;
  ad_hard : sc_production_hardening c' = sc_production_hardening c;
  ad_need : sc_production_hardening c && match sc_runtime_trust_bundle_path c' with None => true | Some _ => false end = false;
  ad_tokens : resolve_opt env files readable (sc_mailbox_push_token c) "mailbox_push_token" = Ok (sc_mailbox_push_token c')
    /\ resolve_opt env files readable (sc_mailbox_pull_token c) "mailbox_pull_token" = Ok (sc_mailbox_pull_token c')
    /\ resolve_opt env files readable (sc_mailbox_ack_token c) "mailbox_ack_token" = Ok (sc_mailbox_ack_token c')
    /\ resolve_opt env files readable (sc_mailbox_admin_token c) "mailbox_admin_token" = Ok (sc_mailbox_admin_token c')
    /\ resolve_opt env files readable (sc_worker_service_token c) "worker_service_token" = Ok (sc_worker_service_token c');
  ad_secrets : resolve (wr_wallet_password (sc_wallet_rpc c)) "wallet_rpc.wallet_password" = Ok (wr_wallet_password (sc_wallet_rpc c'))
    /\ resolve (wr_password (sc_wallet_rpc c)) "wallet_rpc.password" = Ok (wr_password (sc_wallet_rpc c'))
    /\ resolve (sc_host_vault_passphrase c) "host_vault_passphrase" = Ok (sc_host_vault_passphrase c');
  ad_checks : sc_production_hardening c = true -> check_hardening c' (vault_refs c) = Ok tt;
}.

Ltac next H x Hx := apply rbind_ok in H as (x & Hx & H).

Lemma signer_config_inv c c' : norm c = Ok c' -> accepted c c'.
Proof.
  unfold normalize. intros H. cbv zeta in H. next H u1 Hid. next H nettype Hnet. next H u2 Hdir. next H pass Hpass. next H u3 Hlen.
  next H u4 Hb. next H u5 Hneed. next H url Hurl. next H push Hpush. next H pull Hpull. next H ack Hack. next H admin Hadmin.
  next H worker Hworker. next H u6 Hwb. next H socks Hsocks. next H u7 Hreq. next H wallet Hwallet. next H at' Hat. next H a Ha.
  next H u8 Hr. next H u9 Hnw. next H prov Hprov. next H u10 Hhard. injection H as <-.
  rewrite fail_if_ok in Hid, Hlen, Hb, Hneed, Hwb, Hr, Hnw. apply ok_or_ok in Ha. apply negb_false_iff in Hr. subst at'.
  destruct u7. apply require_ok in Hreq as [N1 [N2 [N3 _]%require_ok]%require_ok].
  apply wallet_ok in Hwallet as (Hloop & Hrem & Hw1 & Hw2). apply socks_ok in Hsocks as (h & Hh & Hl).
  constructor; cbn; try done.
  - constructor; cbn; try done.
    + by apply (mailbox_url_ok _ _ Hurl).
    + by eauto.
    + exists a. split; [done|]. unfold opt_normalize in Hat. destruct (sc_action_token c) as [a0|]; [|done]. next Hat a1 Ha1.
      injection Hat as ->. by apply (action_token_ok a0).
    + split_and!; try done. destruct worker as [t|]; [by exists t|done].
    + by apply Z.ltb_ge.
    + by apply (nettype_ok _ _ Hnet).
    + split_and!; [done|by apply default_nonempty..].
    + pose proof (clamp_range 1 50 (sc_pull_max c)). pose proof (clamp_range 1 16 (sc_mailbox_retry_attempts c)).
      pose proof (clamp_range 50 10000 (sc_mailbox_retry_backoff_ms c)). lia.
  - intros Ehard. rewrite Ehard in Hhard. by destruct u10.
Qed.

Lemma opt_private raw label o : opt_vault_reference raw = true -> resolve_opt env files readable raw label = Ok o ->
  exists t, o = Some t /\ from_private_file t.
Proof.
  destruct raw as [r|]; [|done]. cbn. intros Hv H. next H v Hres. injection H as <-. exists v. split; [done|]. by eapply vault_secret_private.
Qed.
Lemma short_private raw label o : short o = false -> opt_vault_reference raw = true -> resolve_opt env files readable raw label = Ok o ->
  exists t, o = Some t /\ 16 <= len t /\ from_private_file t.
Proof.
  intros Hs Hv Hr. destruct (opt_private _ _ _ Hv Hr) as (t & -> & Hp). exists t. split_and!; [done| |done]. by apply Z.ltb_ge in Hs.
Qed.

Lemma hardened_aux c c' : accepted c c' -> sc_production_hardening c' = true -> config_hardened c'.
Proof.
  intros [_ Hb Hh Hneed (T1 & T2 & T3 & T4 & T5) (S1 & S2 & S3) Hck] Hprod. rewrite Hh in Hprod. specialize (Hck Hprod).
  rewrite Hprod in Hneed. unfold check_hardening, vault_refs in Hck. cbn [vr_push vr_pull vr_ack vr_admin vr_worker vr_wallet vr_rpc vr_host] in Hck.
  guards. constructor.
  - destruct (sc_runtime_trust_bundle_path c') as [p|]; [by exists p|done].
  - rewrite !Forall_cons. split_and!; [(eapply short_private; [done| |eassumption]; done)..|by apply Forall_nil].
  - rewrite !Forall_cons. split_and!; [(eapply vault_secret_private; [|eassumption]; done)..|by apply Forall_nil].
  - intros t Ht. rewrite Ht in *. guards. by destruct (opt_private (sc_mailbox_admin_token c) _ _ ltac:(done) T4) as (t' & [= <-] & Hp).
  - eexists. split; [eassumption|]. split; [|by apply Z.ltb_ge]. by subst.
  - eexists. by split.
Qed.

(** A configuration the signer accepts keeps it isolated: the mailbox is
    reached as an onion service through a SOCKS proxy on the same machine, the
    wallet on the same machine, action tokens are always required, every
    credential is there and the limits are within their ranges; with production
    hardening every credential comes from a file only its owner may read, and
    tokens are accepted for this sandbox only and for two minutes at most. *)
Theorem accepted_config_isolated c c' (Hnorm : norm c = Ok c') :
  config_isolated c' /\ (sc_production_hardening c' = true -> config_hardened c').
Proof. pose proof (signer_config_inv c c' Hnorm) as Ha. split; [apply Ha|]. by apply (hardened_aux c). Qed.

Lemma filter_findings (l : list SecurityCheckItem) :
  match map (fun k => ck_name k +:+ ": " +:+ ck_detail k) (List.filter (fun k => negb (ck_ok k)) l) with [] => true | _ => false end = forallb ck_ok l.
Proof. induction l as [|k l IH]; [done|]. cbn [List.filter forallb]. by destruct (ck_ok k). Qed.

Lemma host_parses url schemes host label : host_of url schemes host -> parse_host url_parse url label = Ok host.
Proof. intros (u & Hu & _ & Hh). unfold parse_host. rewrite Hu. cbn. by rewrite Hh. Qed.
Lemma token_ok field t : 16 <= len t -> ck_ok (token_check field (Some t)) = true.
Proof. intros Ht. cbn. by apply Z.leb_le. Qed.

(** For a configuration accepted with production hardening the security
    report is clean exactly when the mailbox client retries and the check of the
    orchestrator's proofs is switched on in the environment: everything else the
    report looks at was enforced. *)
Theorem hardened_report_exact c c' (Hnorm : norm c = Ok c') (Hprod : sc_production_hardening c' = true) :
  rep_ok (security_report url_parse env c') = true
  <-> 2 <= sc_mailbox_retry_attempts c' /\ env_bool env "NXMS_SIGNER_ORCH_QUORUM_PROOF_VERIFY" = true.
Proof.
  pose proof (signer_config_inv c c' Hnorm) as Ha. destruct (hardened_aux c c' Ha Hprod) as [_ Ht Hs _ _ (w & Hw & Hen)].
  apply ad_isolated in Ha as [(mh & Hm & Honion) (s & sh & Hsocks & _) (wh & Hwh & Hloop) _ (a & Hat & Htok) _ _ _ _ _].
  rewrite !Forall_cons in Ht. rewrite !Forall_cons in Hs. destruct Ht as ((t1 & E1 & L1 & _) & (t2 & E2 & L2 & _) & (t3 & E3 & L3 & _) & (t4 & E4 & L4 & _) & _).
  destruct Hs as ((? & ? & _ & _ & _ & W1 & W1') & (? & ? & _ & _ & _ & W2 & W2') & _).
  unfold security_report. cbv zeta. cbn [rep_ok]. rewrite filter_findings. unfold security_checks. cbv zeta. cbn [forallb ck_ok].
  rewrite (host_parses _ _ _ _ Hwh), (host_parses _ _ _ _ Hm), Hloop, Honion, Hsocks, E1, E2, E3, E4, !token_ok, Hprod, Hat, Hw by done.
  cbn [opt_required opt_enabled]. rewrite (tc_required a Htok), Hen.
  assert (Hb1 : is_empty (trim (wr_wallet_password (sc_wallet_rpc c'))) = false) by (by rewrite W1, trim_idem, <- W1).
  assert (Hb2 : is_empty (trim (wr_password (sc_wallet_rpc c'))) = false) by (by rewrite W2, trim_idem, <- W2).
  rewrite Hb1, Hb2. cbn. rewrite andb_true_r, andb_true_iff, Z.leb_le. done.
Qed.
End props.

(** ** A hardened configuration *)

Definition demo_url (s : string) : option Url :=
  if (s =? "http://mailbox.onion")%string then Some (MkUrl "http" (Some "mailbox.onion"%string))
  else if (s =? "socks5h://127.0.0.1:9050")%string then Some (MkUrl "socks5h" (Some "127.0.0.1"%string))
  else if (s =? "http://localhost:18083")%string then Some (MkUrl "http" (Some "localhost"%string)) else None.
Definition demo_env (name : string) : option string :=
  if (name =? "NXMS_SIGNER_ORCH_QUORUM_PROOF_VERIFY")%string then Some " True "%string else None.
Definition demo_files : gmap string file := {[ "/vault/secret"%string := File true 384 "0123456789abcdef" ]}.
Definition demo_secret : string := " vault: /vault/secret".
Definition demo_signer_config : SignerConfig :=
  MkSignerConfig " signer-a " Seller "" "" "Stagenet" "peers.json" "/vault" demo_secret (Some "trust.json"%string) "signer.db"
    "http://mailbox.onion/" (Some demo_secret) (Some demo_secret) (Some demo_secret) None (Some demo_secret)
    (Some "socks5h://127.0.0.1:9050"%string) 3 250 false true
    (MkWalletRpcConfig "http://localhost:18083/" "w" demo_secret "rpc" demo_secret) 2 200 90000 5 60 4096
    (Some (MkActionTokenConfig true "nxms-auth" (Some "sandbox:signer-a"%string) "EdDSA" "key.pem" 5 120 8 60 4096))
    (Some (MkWalletProvisionConfig true "monero-wallet-cli" None None true [] 60)).
Definition demo_normalized : SignerConfig :=
  match normalize demo_url demo_env demo_files (fun _ => true) demo_signer_config with Ok c => c | Err _ => demo_signer_config end.

Lemma accepted_config_isolated_witness : config_isolated demo_url demo_normalized /\ config_hardened demo_files demo_normalized.
Proof.
  destruct (accepted_config_isolated demo_url demo_env demo_files (fun _ => true) demo_signer_config demo_normalized
    ltac:(vm_compute; reflexivity)) as [Hi Hh].
  split; [exact Hi|]. apply Hh. vm_compute. reflexivity.
Defined.
Lemma hardened_report_exact_witness : rep_ok (security_report demo_url demo_env demo_normalized) = true.
Proof.
  apply (hardened_report_exact demo_url demo_env demo_files (fun _ => true) demo_signer_config demo_normalized
    ltac:(vm_compute; reflexivity) ltac:(vm_compute; reflexivity)).
  split; vm_compute; [discriminate|reflexivity].
Defined.
