(* ===== verification/Snapshot.v ===== *)
(** * Contract snapshots and the transfer policy

    [crates/nxms-signer/src/snapshot.rs]: the snapshot of an escrow contract,
    its hashes and signatures, and the check that decides whether the signer
    puts its signature under a transfer; [tx_profile.rs] of the orchestrator,
    the same kind of check before a transaction is proposed. *)

From S2P Require Import Prelude RustString Sql Json Wire.

Inductive Asset : Type := Xmr.

Inductive AmountRule : Type :=
| Exact (amount : Z)
| Range (min max : Z).

Record RecipientRule : Type := MkRecipientRule {
  rr_address : string; rr_amount : AmountRule; rr_required : bool }.

Record PayoutPolicy : Type := MkPayoutPolicy {
  pp_allowed_recipients : list RecipientRule;
  pp_allow_split_tx : bool;
  pp_allow_dummy_outputs : bool;
}.

Record ContractSnapshot : Type := MkSnapshot {
  cs_app_proto : string;
  cs_escrow_id_hex : string;
  cs_asset : Asset;
  cs_buyer_id : string;
  cs_seller_id : string;
  cs_arbiter_id : string;
  cs_release_policy : PayoutPolicy;
  cs_refund_policy : PayoutPolicy;
  cs_fee_cap_atomic : Z;
  cs_require_unlock_time_zero : bool;
  cs_created_at_unix_ms : Z;
  cs_updated_at_unix_ms : Z;
}.

Record SnapshotSignature : Type := MkSnapshotSig {
  ss_signer_id : string;
  ss_sig_pk_b64 : string;
  ss_sig_b64 : string;
  ss_hash_hex : string;
  ss_alg : string;
  ss_created_at_unix_ms : Z;
}.

Record TransferRecipient : Type := MkTransferRecipient { tr_address : string; tr_amount : Z }.
Record TransferCheck : Type := MkTransferCheck {
  tc_tx_count : Z;
  tc_recipients : list TransferRecipient;
  tc_fee : Z;
  tc_unlock_time : Z;
  tc_dummy_outputs : Z;
}.

Inductive SnapshotError : Type :=
| SAlg | SHashMismatch | SBase64 | SBadSignature | SSign
| SSplit (tx_count : Z)
| SFeeCap (fee cap : Z)
| SUnlockTime (t : Z)
| SDummyOutputs (n : Z)
| SNotAllowed (address : string)
| SAmountMismatch (address : string) (expected got : Z)
| SAmountRange (address : string) (min max got : Z)
| SRequiredMissing (address : string).

(** ** Hash and signature *)

Section signing.
Context (sha3_256 : string -> string) (sha256 : string -> string).
(** [serde_json::to_vec(snapshot)], [serde_json::to_value(snapshot)] and
    [serde_json::to_vec] of a value. *)
Context (snapshot_to_vec : ContractSnapshot -> string).
Context (snapshot_to_value : ContractSnapshot -> json) (json_to_vec : json -> string).
Context (b64_encode : string -> string) (b64_decode : string -> option string).
Context (falcon_sign_ct : string -> string -> option string).
Context (falcon_verify : string -> string -> string -> bool).

Definition snapshot_digest (s : ContractSnapshot) : string := sha3_256 (snapshot_to_vec s).
Definition canonical_hash_hex (s : ContractSnapshot) : string := hex_encode (snapshot_digest s).

Definition canonical_json_sha256_hex (v : json) : string :=
  hex_encode (sha256 (json_to_vec (canonicalize_json v))).
Definition canonical_policy_hash_sha256_hex (s : ContractSnapshot) : string :=
  canonical_json_sha256_hex (snapshot_to_value s).

(** [hex::decode(&hash_hex)] is the digest. *)
Definition sign_snapshot (s : ContractSnapshot) (signer_id sig_sk sig_pk : string) (now : Z)
    : result SnapshotError SnapshotSignature :=
  let? sig := ok_or (falcon_sign_ct sig_sk (snapshot_digest s)) SSign in
  Ok (MkSnapshotSig signer_id (b64_encode sig_pk) (b64_encode sig) (canonical_hash_hex s)
        "Falcon-1024-CT" now).

Definition verify_snapshot_signature (s : ContractSnapshot) (sig : SnapshotSignature)
    : result SnapshotError unit :=
  let? _ := fail_if (negb (ss_alg sig =? "Falcon-1024-CT")%string) SAlg in
  let? _ := fail_if (negb (canonical_hash_hex s =? ss_hash_hex sig)%string) SHashMismatch in
  let? sig_pk := ok_or (b64_decode (ss_sig_pk_b64 sig)) SBase64 in
  let? sig_raw := ok_or (b64_decode (ss_sig_b64 sig)) SBase64 in
  fail_if (negb (falcon_verify sig_pk (snapshot_digest s) sig_raw)) SBadSignature.
End signing.

(** ** The transfer policy *)

Definition check_amount (r : TransferRecipient) (rule : AmountRule) : result SnapshotError unit :=
  match rule with
  | Exact amount =>
      fail_if (negb (tr_amount r =? amount)) (SAmountMismatch (tr_address r) amount (tr_amount r))
  | Range min max =>
      fail_if ((tr_amount r <? min) || (max <? tr_amount r))
        (SAmountRange (tr_address r) min max (tr_amount r))
  end.

Definition rule_for (policy : PayoutPolicy) (address : string) : option RecipientRule :=
  List.find (fun r => rr_address r =? address)%string (pp_allowed_recipients policy).

Fixpoint check_recipients (policy : PayoutPolicy) (l : list TransferRecipient)
    : result SnapshotError unit :=
  match l with
  | [] => Ok tt
  | r :: l' =>
      let? rule := ok_or (rule_for policy (tr_address r)) (SNotAllowed (tr_address r)) in
      let? _ := check_amount r (rr_amount rule) in
      check_recipients policy l'
  end.

Fixpoint check_required (recipients : list TransferRecipient) (rules : list RecipientRule)
    : result SnapshotError unit :=
  match rules with
  | [] => Ok tt
  | required :: rules' =>
      let found := existsb (fun r => tr_address r =? rr_address required)%string recipients in
      let? _ := fail_if (negb found) (SRequiredMissing (rr_address required)) in
      check_required recipients rules'
  end.

Definition policy_for (s : ContractSnapshot) (action : EscrowAction) : PayoutPolicy :=
  match action with Release => cs_release_policy s | Refund => cs_refund_policy s end.

Definition validate_transfer_against_snapshot (s : ContractSnapshot) (action : EscrowAction)
    (t : TransferCheck) : result SnapshotError unit :=
  let policy := policy_for s action in
  let? _ := fail_if (negb (pp_allow_split_tx policy) && negb (tc_tx_count t =? 1))
              (SSplit (tc_tx_count t)) in
  let? _ := fail_if (cs_fee_cap_atomic s <? tc_fee t) (SFeeCap (tc_fee t) (cs_fee_cap_atomic s)) in
  let? _ := fail_if (cs_require_unlock_time_zero s && negb (tc_unlock_time t =? 0))
              (SUnlockTime (tc_unlock_time t)) in
  let? _ := fail_if (negb (pp_allow_dummy_outputs policy) && (0 <? tc_dummy_outputs t))
              (SDummyOutputs (tc_dummy_outputs t)) in
  let? _ := check_recipients policy (tc_recipients t) in
  check_required (tc_recipients t) (List.filter rr_required (pp_allowed_recipients policy)).

(** ** Candidates of the orchestrator, [tx_profile.rs] *)

Record TxDestination : Type := MkTxDestination { td_address : string; td_amount : Z }.
Record TxConstructionCandidate : Type := MkCandidate {
  ca_destinations : list TxDestination; ca_fee_atomic : Z; ca_unlock_time : Z; ca_tx_size_bytes : Z }.
Record TxConstructionProfile : Type := MkProfile {
  pf_require_single_destination : bool;
  pf_fee_cap_atomic : Z;
  pf_require_unlock_time_zero : bool;
  pf_max_tx_size_bytes : Z;
}.

Inductive TxError : Type :=
| TxNoDestinations | TxSingle (n : Z) | TxAddressEmpty (idx : nat) | TxAmountZero (idx : nat)
| TxFeeCap | TxUnlockTime | TxSize.

Definition strict_defaults (fee_cap_atomic max_tx_size_bytes : Z) : TxConstructionProfile :=
  MkProfile true fee_cap_atomic true (Z.max max_tx_size_bytes 1).

Fixpoint check_destinations (idx : nat) (l : list TxDestination) : result TxError unit :=
  match l with
  | [] => Ok tt
  | d :: l' =>
      let? _ := fail_if (is_empty (trim (td_address d))) (TxAddressEmpty idx) in
      let? _ := fail_if (td_amount d =? 0) (TxAmountZero idx) in
      check_destinations (S idx) l'
  end.

Definition validate_tx_candidate (p : TxConstructionProfile) (c : TxConstructionCandidate)
    : result TxError unit :=
  let n := Z.of_nat (length (ca_destinations c)) in
  let? _ := fail_if (n =? 0) TxNoDestinations in
  let? _ := fail_if (pf_require_single_destination p && negb (n =? 1)) (TxSingle n) in
  let? _ := check_destinations 0 (ca_destinations c) in
  let? _ := fail_if (pf_fee_cap_atomic p <? ca_fee_atomic c) TxFeeCap in
  let? _ := fail_if (pf_require_unlock_time_zero p && negb (ca_unlock_time c =? 0)) TxUnlockTime in
  fail_if (pf_max_tx_size_bytes p <? ca_tx_size_bytes c) TxSize.

(** ** Lemmas *)

(** A payment the rule of its address allows. *)
Definition amount_allowed (rule : AmountRule) (amount : Z) : Prop :=
  match rule with Exact a => amount = a | Range lo hi => lo <= amount <= hi end.
Definition payment_allowed (policy : PayoutPolicy) (r : TransferRecipient) : Prop :=
  exists rule, rule_for policy (tr_address r) = Some rule /\ amount_allowed (rr_amount rule) (tr_amount r).

Lemma check_amount_iff r rule : check_amount r rule = Ok tt <-> amount_allowed rule (tr_amount r).
Proof.
  destruct rule; simpl; rewrite fail_if_ok.
  - rewrite negb_false_iff, Z.eqb_eq. done.
  - rewrite orb_false_iff, !Z.ltb_ge. done.
Qed.

Lemma check_recipients_iff policy l :
  check_recipients policy l = Ok tt <-> Forall (payment_allowed policy) l.
Proof.
  induction l as [|r l IH]; simpl; [by rewrite Forall_nil|].
  rewrite Forall_cons, <- IH. unfold payment_allowed.
  destruct (rule_for policy (tr_address r)) as [rule|]; simpl.
  - rewrite seq_ok, check_amount_iff. split.
    + intros [? ?]. split; [by exists rule|done].
    + intros [(rule' & [= <-] & ?) ?]. done.
  - split; [done|]. intros [(? & ? & _) _]. done.
Qed.

Lemma check_required_iff recipients rules :
  check_required recipients rules = Ok tt <->
  Forall (fun rule => exists r, r ∈ recipients /\ tr_address r = rr_address rule) rules.
Proof.
  induction rules as [|x rules IH]; simpl; [by rewrite Forall_nil|].
  rewrite Forall_cons, <- IH, seq_ok, fail_if_ok, negb_false_iff, existsb_exists.
  setoid_rewrite list_elem_of_In. setoid_rewrite String.eqb_eq. done.
Qed.

(** The whole policy, as a predicate. *)
Record transfer_allowed (s : ContractSnapshot) (action : EscrowAction) (t : TransferCheck) : Prop :=
  TransferAllowed {
  ta_split : pp_allow_split_tx (policy_for s action) = true \/ tc_tx_count t = 1;
  ta_fee : tc_fee t <= cs_fee_cap_atomic s;
  ta_unlock : cs_require_unlock_time_zero s = true -> tc_unlock_time t = 0;
  ta_dummy : pp_allow_dummy_outputs (policy_for s action) = true \/ tc_dummy_outputs t <= 0;
  ta_payments : Forall (payment_allowed (policy_for s action)) (tc_recipients t);
  ta_required : Forall (fun rule => rr_required rule = true ->
                  exists r, r ∈ tc_recipients t /\ tr_address r = rr_address rule)
                  (pp_allowed_recipients (policy_for s action));
}.

Lemma Forall_filter_bool {A} (P : A -> Prop) (p : A -> bool) l :
  Forall P (List.filter p l) <-> Forall (fun x => p x = true -> P x) l.
Proof.
  induction l as [|x l IH]; simpl; [by rewrite !Forall_nil|].
  rewrite Forall_cons, <- IH. destruct (p x); [rewrite Forall_cons|]; naive_solver.
Qed.

Lemma validate_transfer_iff s action t :
  validate_transfer_against_snapshot s action t = Ok tt <-> transfer_allowed s action t.
Proof.
  unfold validate_transfer_against_snapshot. cbv zeta.
  rewrite !seq_ok, !fail_if_ok, check_recipients_iff, check_required_iff, Forall_filter_bool.
  rewrite !andb_false_iff, !negb_false_iff, !Z.ltb_ge, !Z.eqb_eq. split.
  - intros (H1 & H2 & H3 & H4 & H5 & H6). constructor; try done.
    intros Hu. rewrite Hu in H3. by destruct H3.
  - intros []. split_and!; try done. destruct (cs_require_unlock_time_zero s); [right|left]; auto.
Qed.

(** What a rule lets go to its address in one payment. *)
Definition rule_cap (rule : AmountRule) : Z :=
  match rule with Exact a => a | Range _ hi => hi end.
Definition policy_cap (policy : PayoutPolicy) : Z :=
  foldr Z.add 0 (map (fun r => rule_cap (rr_amount r)) (pp_allowed_recipients policy)).
Definition total_paid (l : list TransferRecipient) : Z := foldr Z.add 0 (map tr_amount l).
(** The amounts of a policy are [u64]. *)
Definition policy_u64 (policy : PayoutPolicy) : Prop :=
  Forall (fun r => 0 <= rule_cap (rr_amount r)) (pp_allowed_recipients policy).

Lemma rule_for_spec policy a rule :
  rule_for policy a = Some rule -> rule ∈ pp_allowed_recipients policy /\ rr_address rule = a.
Proof. intros [? E%String.eqb_eq]%find_some. split; [by apply list_elem_of_In|done]. Qed.

Lemma payment_capped policy r :
  payment_allowed policy r ->
  exists rule, rule_for policy (tr_address r) = Some rule /\ tr_amount r <= rule_cap (rr_amount rule).
Proof. intros (rule & Hr & Ha). exists rule. split; [done|]. destruct (rr_amount rule); simpl in *; lia. Qed.

(** A sum over distinct members of a list is bounded by the sum over the list. *)
Lemma sum_sub {A} (f : A -> Z) (l k : list A) :
  Forall (fun x => 0 <= f x) k -> NoDup l -> (forall x, x ∈ l -> x ∈ k) ->
  foldr Z.add 0 (map f l) <= foldr Z.add 0 (map f k).
Proof.
  revert k. induction l as [|x l IH]; intros k Hk Hnd Hin; simpl.
  - clear Hin. induction Hk; simpl; lia.
  - apply NoDup_cons in Hnd as [Hx Hnd].
    destruct (list_elem_of_split k x) as (k1 & k2 & ->); [apply Hin; by left|].
    apply Forall_app in Hk as [Hk1 [Hfx Hk2]%Forall_cons].
    specialize (IH (k1 ++ k2)). rewrite !map_app, !foldr_app in *. simpl in *.
    assert (foldr Z.add 0 (map f l) <= foldr Z.add (foldr Z.add 0 (map f k2)) (map f k1)) as H.
    { apply IH; [by apply Forall_app|done|]. intros y Hy.
      assert (y ∈ k1 ++ x :: k2) as Hyk by (apply Hin; by right).
      rewrite elem_of_app, elem_of_cons in Hyk. rewrite elem_of_app.
      destruct Hyk as [?|[->|?]]; [by left|done|by right]. }
    enough (forall a b l, foldr Z.add (a + b) l = a + foldr Z.add b l) as E by (rewrite E; lia).
    intros a b. clear. induction l; simpl; lia.
Qed.

(** The rules used by payments to distinct addresses are distinct rules. *)
Lemma payments_rules policy l :
  Forall (payment_allowed policy) l -> NoDup (map tr_address l) ->
  exists rules, NoDup rules /\ map rr_address rules = map tr_address l
    /\ (forall x, x ∈ rules -> x ∈ pp_allowed_recipients policy)
    /\ total_paid l <= foldr Z.add 0 (map (fun r => rule_cap (rr_amount r)) rules).
Proof.
  unfold total_paid. induction 1 as [|r l Hr Hl IH]; simpl; intros Hnd.
  { exists []. splits; try done; [constructor|]. intros x Hx. by apply elem_of_nil in Hx. }
  apply NoDup_cons in Hnd as [Hn Hnd]. destruct (IH Hnd) as (rules & Hd & Hm & Hi & Hs).
  destruct (payment_capped policy r Hr) as (rule & [Hin Ha]%rule_for_spec & Hc).
  exists (rule :: rules). simpl. split_and!; [|congruence| |lia].
  - apply NoDup_cons. split; [|done]. intros Hx. apply Hn. rewrite <- Hm, <- Ha.
    by apply list_elem_of_fmap_2.
  - intros x [->|?]%elem_of_cons; auto.
Qed.

Lemma find_same {A} (p : A -> bool) l x : List.find p l = Some x -> x ∈ l.
Proof. intros [? _]%find_some. by apply list_elem_of_In. Qed.

(** ** Theorems *)

(** The signer validates a transfer exactly when the whole policy of the
    snapshot for the action holds: one transaction unless splits are allowed, a
    fee within the cap, a zero unlock time where it is required, no dummy output
    unless allowed, every payment within the rule of its address, every required
    recipient paid. *)
Theorem validate_transfer_exact s action t :
  validate_transfer_against_snapshot s action t = Ok tt <-> transfer_allowed s action t.
Proof. apply validate_transfer_iff. Qed.

(** When a validated transfer names no address twice, what leaves the escrow
    is bounded: the payments add up to at most the sum of the policy's rules,
    and with the fee to at most that sum and the fee cap. *)
Theorem transfer_payout_bounded s action t :
  policy_u64 (policy_for s action) ->
  validate_transfer_against_snapshot s action t = Ok tt ->
  NoDup (map tr_address (tc_recipients t)) ->
  total_paid (tc_recipients t) + tc_fee t
  <= policy_cap (policy_for s action) + cs_fee_cap_atomic s.
Proof.
  intros Hu [? Hfee ? ? Hp ?]%validate_transfer_iff Hnd.
  destruct (payments_rules _ _ Hp Hnd) as (rules & Hd & _ & Hi & Hs).
  pose proof (sum_sub (fun r => rule_cap (rr_amount r)) rules _ Hu Hd Hi) as Hb.
  unfold policy_cap. lia.
Qed.

(** Nothing limits how often an address is paid: a recipient of a validated
    transfer, also one whose rule is an exact amount, can be paid any number of
    times more and the transfer still validates. *)
Theorem recipient_paid_again s action t r n :
  validate_transfer_against_snapshot s action t = Ok tt -> r ∈ tc_recipients t ->
  let t' := MkTransferCheck (tc_tx_count t) (replicate n r ++ tc_recipients t) (tc_fee t)
              (tc_unlock_time t) (tc_dummy_outputs t) in
  validate_transfer_against_snapshot s action t' = Ok tt
  /\ total_paid (tc_recipients t') = Z.of_nat n * tr_amount r + total_paid (tc_recipients t).
Proof.
  intros [? ? ? ? Hp Hq]%validate_transfer_iff Hr. split.
  - apply validate_transfer_iff. split; try done; simpl.
    + apply Forall_app. split; [|done]. apply Forall_replicate.
      by eapply Forall_forall in Hp.
    + eapply Forall_impl; [exact Hq|]. intros rule Hrule Ht. destruct (Hrule Ht) as (x & ? & ?).
      exists x. split; [apply elem_of_app; by right|done].
  - unfold total_paid. simpl. induction n as [|n IH]; [done|]. cbn [replicate app map foldr].
    rewrite IH. lia.
Qed.

(** A signature made over a snapshot verifies for that snapshot, and for no
    snapshot with another digest: a signature record that verifies for two
    snapshots shows that they have the same digest. *)
Theorem snapshot_signature_binds
    (sha3_256 : string -> string) (to_vec : ContractSnapshot -> string)
    (b64_encode : string -> string) (b64_decode : string -> option string)
    (falcon_sign_ct : string -> string -> option string)
    (falcon_verify : string -> string -> string -> bool) (falcon_pair : string -> string -> Prop)
    (s : ContractSnapshot) (id sk pk : string) (now : Z) (sig : SnapshotSignature) :
  (forall x, b64_decode (b64_encode x) = Some x) ->
  (forall sk pk m sg, falcon_pair sk pk -> falcon_sign_ct sk m = Some sg -> falcon_verify pk m sg = true) ->
  falcon_pair sk pk ->
  sign_snapshot sha3_256 to_vec b64_encode falcon_sign_ct s id sk pk now = Ok sig ->
  verify_snapshot_signature sha3_256 to_vec b64_decode falcon_verify s sig = Ok tt
  /\ (forall s', verify_snapshot_signature sha3_256 to_vec b64_decode falcon_verify s' sig = Ok tt ->
        snapshot_digest sha3_256 to_vec s' = snapshot_digest sha3_256 to_vec s).
Proof.
  intros Hb Hf Hk Hs. unfold sign_snapshot in Hs. rok. unfold verify_snapshot_signature. simpl. split.
  - rewrite !Hb, String.eqb_refl. simpl. by rewrite (Hf _ _ _ _ Hk H).
  - intros s' Hv. rok. apply negb_false_iff, String.eqb_eq in H0. unfold canonical_hash_hex in H0.
    by apply (inj hex_encode) in H0.
Qed.

(** The hash of a document does not see the order in which the keys of its
    objects are written, and the canonical form that is hashed is the same
    document and is its own canonical form. *)
Theorem canonical_hash_order_independent (sha256 : string -> string) (to_vec : json -> string) v w :
  json_wf v -> json_eq v w ->
  canonical_json_sha256_hex sha256 to_vec v = canonical_json_sha256_hex sha256 to_vec w
  /\ json_eq v (canonicalize_json v)
  /\ canonicalize_json (canonicalize_json v) = canonicalize_json v.
Proof.
  intros Hw He. split; [|split].
  - unfold canonical_json_sha256_hex. by rewrite He.
  - by apply canonicalize_same.
  - symmetry. by apply canonicalize_eq, canonicalize_same.
Qed.

(** Under the strict profile a candidate transaction is accepted exactly
    when it has one destination, a non-blank address with a non-zero amount,
    a fee within the cap, a zero unlock time and at most the maximal size. *)
Theorem strict_candidate_exact cap max_size c :
  validate_tx_candidate (strict_defaults cap max_size) c = Ok tt <->
  (exists d, ca_destinations c = [d] /\ trim (td_address d) <> ""%string /\ td_amount d <> 0)
  /\ ca_fee_atomic c <= cap /\ ca_unlock_time c = 0 /\ ca_tx_size_bytes c <= Z.max max_size 1.
Proof.
  unfold validate_tx_candidate. cbv zeta. rewrite !seq_ok, !fail_if_ok. cbn [strict_defaults
    pf_require_single_destination pf_require_unlock_time_zero pf_fee_cap_atomic pf_max_tx_size_bytes andb].
  rewrite !negb_false_iff, Z.eqb_neq, !Z.eqb_eq, !Z.ltb_ge.
  destruct (ca_destinations c) as [|d [|d' l]]; simpl.
  - split; [lia|]. intros ((d & ? & _) & _). done.
  - rewrite !seq_ok, !fail_if_ok, is_empty_false, Z.eqb_neq. split.
    + intros (? & ? & (? & ? & ?) & ? & ? & ?). split; [by exists d|done].
    + intros ((d' & [= <-] & ? & ?) & ? & ? & ?). done.
  - split; [lia|]. intros ((? & ? & _) & _). done.
Qed.

(** ** Instances *)

Definition demo_policy : PayoutPolicy :=
  MkPayoutPolicy [MkRecipientRule "seller" (Exact 100) true; MkRecipientRule "arbiter" (Range 0 5) false]
    false false.
Definition demo_snapshot : ContractSnapshot :=
  MkSnapshot "ESCROW/1" "0123456789abcdef0123456789abcdef" Xmr "buyer" "seller" "arbiter" demo_policy
    demo_policy 10 true 1 1.
Definition demo_transfer : TransferCheck :=
  MkTransferCheck 1 [MkTransferRecipient "seller" 100; MkTransferRecipient "arbiter" 5] 9 0 0.

Lemma transfer_payout_bounded_witness :
  total_paid (tc_recipients demo_transfer) + tc_fee demo_transfer
  <= policy_cap (policy_for demo_snapshot Release) + cs_fee_cap_atomic demo_snapshot.
Proof.
  apply (transfer_payout_bounded demo_snapshot Release demo_transfer).
  - repeat constructor; vm_compute; discriminate.
  - vm_compute. reflexivity.
  - apply (bool_decide_unpack _). vm_compute. exact I.
Defined.

Lemma recipient_paid_again_witness :
  validate_transfer_against_snapshot demo_snapshot Release
    (MkTransferCheck 1 (replicate 7 (MkTransferRecipient "seller" 100) ++ tc_recipients demo_transfer) 9 0 0)
  = Ok tt
  /\ total_paid (replicate 7 (MkTransferRecipient "seller" 100) ++ tc_recipients demo_transfer)
     = 7 * 100 + 105.
Proof.
  apply (recipient_paid_again demo_snapshot Release demo_transfer (MkTransferRecipient "seller" 100) 7).
  - vm_compute. reflexivity.
  - apply elem_of_cons. by left.
Defined.

Lemma snapshot_signature_binds_witness :
  exists sig,
  verify_snapshot_signature (fun s => s) cs_buyer_id Some
    (fun pk m sg => sg =? pk +:+ m)%string demo_snapshot sig = Ok tt
  /\ (forall s', verify_snapshot_signature (fun s => s) cs_buyer_id Some
        (fun pk m sg => sg =? pk +:+ m)%string s' sig = Ok tt ->
      snapshot_digest (fun s => s) cs_buyer_id s' = snapshot_digest (fun s => s) cs_buyer_id demo_snapshot).
Proof.
  eexists.
  eapply (snapshot_signature_binds (fun s => s) cs_buyer_id (fun s => s) Some
    (fun sk m => Some (sk +:+ m)) _ (fun sk pk => sk = pk) demo_snapshot "buyer" "k" "k" 1);
    [reflexivity| |reflexivity|reflexivity].
  intros sk pk m sg -> [= <-]. apply String.eqb_refl.
Defined.

Lemma canonical_hash_order_independent_witness :
  canonical_json_sha256_hex (fun s => s) (fun _ => "j")
    (JObject [("b", JNull); ("a", JBool true)])
  = canonical_json_sha256_hex (fun s => s) (fun _ => "j") (JObject [("a", JBool true); ("b", JNull)])
  /\ json_eq (JObject [("b", JNull); ("a", JBool true)])
       (canonicalize_json (JObject [("b", JNull); ("a", JBool true)]))
  /\ canonicalize_json (canonicalize_json (JObject [("b", JNull); ("a", JBool true)]))
     = canonicalize_json (JObject [("b", JNull); ("a", JBool true)]).
Proof.
  apply (canonical_hash_order_independent (fun s => s) (fun _ => "j")
    (JObject [("b", JNull); ("a", JBool true)]) (JObject [("a", JBool true); ("b", JNull)])).
  - constructor; [apply (bool_decide_unpack _); vm_compute; exact I|repeat constructor].
  - apply (JE_object _ _ [("b", JNull); ("a", JBool true)]);
      [apply (bool_decide_unpack _); vm_compute; exact I|apply Permutation_swap|].
    repeat constructor.
Defined.
