(* ===== verification/XmrAddress.v ===== *)
(** * Monero addresses

    [crates/nxms-monero-core/src/xmr_address.rs]: the block-wise base58 decoder
    and the check of an address.  Bytes are [Z]; Keccak-256 is a parameter.
    Section [spec] has the encoder the decoder is compared with, and
    [address_canonical] at the end says that the accepted strings are exactly
    the encodings of a payload with its checksum. *)

From S2P Require Import Prelude RustString.

Definition XMR_B58_ALPHABET : string :=
  "123456789ABCDEFGHJKLMNPQRSTUVWXYZabcdefghijkmnopqrstuvwxyz".

(** [iter().position(|v| *v == ch)] *)
Fixpoint position (ch : ascii) (l : list ascii) : option nat :=
  match l with
  | [] => None
  | v :: l' => if Ascii.eqb v ch then Some 0%nat else S <$> position ch l'
  end.

Definition b58_value (ch : ascii) : option Z :=
  Z.of_nat <$> position ch (bytes_of XMR_B58_ALPHABET).

Definition decoded_block_size (encoded_len : nat) : option nat :=
  match encoded_len with
  | 2 => Some 1 | 3 => Some 2 | 5 => Some 3 | 6 => Some 4 | 7 => Some 5
  | 9 => Some 6 | 10 => Some 7 | 11 => Some 8 | _ => None
  end%nat.

Definition checked_mul_u128 (a b : Z) : option Z := if U128_MAX <? a * b then None else Some (a * b).
Definition checked_add_u128 (a b : Z) : option Z := if U128_MAX <? a + b then None else Some (a + b).
Definition checked_shl_u128 (a n : Z) : option Z :=
  if 128 <=? n then None else Some (Z.land (Z.shiftl a n) U128_MAX).

Fixpoint decode_acc (acc : Z) (input : list ascii) : option Z :=
  match input with
  | [] => Some acc
  | ch :: input' =>
      digit ← b58_value ch;
      acc ← checked_mul_u128 acc 58;
      acc ← checked_add_u128 acc digit;
      if U64_MAX <? acc then None else decode_acc acc input'
  end.

Definition decode_block (input : list ascii) (out_len : nat) : option (list Z) :=
  acc ← decode_acc 0 input;
  fits ← (if (out_len <? 8)%nat then
            max_value ← checked_shl_u128 1 (Z.of_nat out_len * 8);
            Some (negb (max_value <=? acc))
          else Some true);
  if (fits : bool) then
    Some (map (fun idx => Z.land (Z.shiftr acc (8 * (Z.of_nat out_len - 1 - Z.of_nat idx))) 255)
            (seq 0 out_len))
  else None.

Definition decode_monero_base58 (input : list ascii) : option (list Z) :=
  match input with
  | [] => None
  | _ =>
      let full_blocks := (length input / 11)%nat in
      let last_size := (length input mod 11)%nat in
      last_decoded ← (if (last_size =? 0)%nat then Some 0%nat else decoded_block_size last_size);
      blocks ← mapM (fun idx => decode_block (take 11 (drop (idx * 11) input)) 8) (seq 0 full_blocks);
      last ← (if (last_size =? 0)%nat then Some []
              else decode_block (drop (full_blocks * 11) input) last_decoded);
      Some (concat blocks ++ last)
  end.

Definition valid_prefix_for_payload (prefix : Z) (payload_len : nat) : bool :=
  match payload_len with
  | 65%nat => existsb (Z.eqb prefix) [18; 24; 36; 42; 53; 63]
  | 73%nat => existsb (Z.eqb prefix) [19; 25; 54]
  | _ => false
  end.

Definition is_ascii (s : string) : bool := sall (fun c => byte_of c <? 128) s.

Section address.
Context (keccak256 : list Z -> list Z).

Definition is_valid_xmr_address (addr : string) : bool :=
  let trimmed := trim addr in
  if negb ((len trimmed =? 95) || (len trimmed =? 106)) then false
  else if negb (is_ascii trimmed) then false
  else match decode_monero_base58 (bytes_of trimmed) with
       | None => false
       | Some decoded =>
           if (length decoded <? 5)%nat then false
           else
             let payload_len := (length decoded - 4)%nat in
             let payload := take payload_len decoded in
             let checksum := drop payload_len decoded in
             match payload with
             | [] => false
             | prefix :: _ =>
                 if negb (valid_prefix_for_payload prefix (length payload)) then false
                 else bool_decide (checksum = take 4 (keccak256 payload))
             end
       end.
End address.

(** ** Positional notation *)

Section digits.
Context (b : Z) (Hb : 2 <= b).

Definition from_digits (ds : list Z) : Z := foldl (fun a d => a * b + d) 0 ds.
(** The [k] digits of [n], most significant first. *)
Fixpoint digits (k : nat) (n : Z) : list Z :=
  match k with O => [] | S k' => digits k' (n / b) ++ [n mod b] end.
Definition is_digit (d : Z) : Prop := 0 <= d < b.

Lemma from_digits_snoc ds d : from_digits (ds ++ [d]) = from_digits ds * b + d.
Proof. unfold from_digits. by rewrite foldl_app. Qed.

Lemma digits_length k n : length (digits k n) = k.
Proof. revert n. induction k; intros n; simpl; [done|]. rewrite length_app, IHk. simpl. lia. Qed.

Lemma digits_are k n : Forall is_digit (digits k n).
Proof.
  revert n. induction k; intros n; simpl; [constructor|]. apply Forall_app. split; [apply IHk|].
  constructor; [|constructor]. apply Z.mod_pos_bound. lia.
Qed.

Lemma from_digits_digits k n : 0 <= n < b ^ Z.of_nat k -> from_digits (digits k n) = n.
Proof.
  revert n. induction k as [|k IH]; intros n Hn; [unfold from_digits; simpl; change (b ^ Z.of_nat 0) with 1 in Hn; lia|].
  rewrite Nat2Z.inj_succ, Z.pow_succ_r in Hn by lia. cbn [digits].
  rewrite from_digits_snoc, IH; [pose proof (Z.div_mod n b); lia|].
  split; [apply Z.div_pos; lia|apply Z.div_lt_upper_bound; lia].
Qed.

Lemma from_digits_range ds : Forall is_digit ds -> 0 <= from_digits ds < b ^ Z.of_nat (length ds).
Proof.
  induction ds as [|d ds IH] using rev_ind; [by unfold from_digits|]. intros [H Hd]%Forall_app.
  apply Forall_inv in Hd. specialize (IH H). unfold is_digit in Hd.
  rewrite from_digits_snoc, length_app. simpl.
  rewrite Nat2Z.inj_add, Z.pow_add_r by lia. change (b ^ Z.of_nat 1) with (b ^ 1).
  rewrite Z.pow_1_r. nia.
Qed.

Lemma digits_from_digits ds : Forall is_digit ds -> digits (length ds) (from_digits ds) = ds.
Proof.
  induction ds as [|d ds IH] using rev_ind; [done|]. intros [H Hd]%Forall_app.
  apply Forall_inv in Hd. unfold is_digit in Hd. rewrite from_digits_snoc, length_app, Nat.add_comm.
  cbn [length Nat.add digits]. rewrite Z.div_add_l, Z.div_small, Z.add_0_r, IH by (done || lia).
  rewrite Z.add_comm, Z.mod_add, Z.mod_small by lia. done.
Qed.

Lemma digits_zero_index k n :
  0 <= n ->
  digits k n = map (fun i => (n / b ^ (Z.of_nat k - 1 - Z.of_nat i)) mod b) (seq 0 k).
Proof.
  revert n. induction k as [|k IH]; intros n Hn; [done|].
  rewrite seq_S, map_app. cbn [digits map]. rewrite IH by (apply Z.div_pos; lia). f_equal.
  - apply map_ext_in. intros i Hi%in_seq. rewrite Z.div_div by lia.
    rewrite <- Z.pow_succ_r by lia. do 3 f_equal. lia.
  - do 3 f_equal. replace (Z.of_nat (S k) - 1 - Z.of_nat (0 + k)) with 0 by lia.
    by rewrite Z.pow_0_r, Z.div_1_r.
Qed.
End digits.

(** ** The encoder *)

Notation is_byte := (is_digit 256).
Definition b58_char (d : Z) : ascii := nth (Z.to_nat d) (bytes_of XMR_B58_ALPHABET) "0"%char.
Definition encoded_block_size (k : nat) : nat :=
  match k with
  | 1 => 2 | 2 => 3 | 3 => 5 | 4 => 6 | 5 => 7 | 6 => 9 | 7 => 10 | 8 => 11 | _ => 0
  end%nat.
Definition encode_block (bytes : list Z) : list ascii :=
  map b58_char (digits 58 (encoded_block_size (length bytes)) (from_digits 256 bytes)).
(** [n] full blocks, then the rest. *)
Fixpoint encode_blocks (n : nat) (bytes : list Z) : list ascii :=
  match n with
  | O => encode_block bytes
  | S n' => encode_block (take 8 bytes) ++ encode_blocks n' (drop 8 bytes)
  end.
Definition encode_monero_base58 (bytes : list Z) : list ascii :=
  encode_blocks (length bytes / 8) bytes.

(** ** One block *)

Lemma position_nth ch l i : position ch l = Some i -> (i < length l)%nat /\ nth i l "0"%char = ch.
Proof.
  revert i. induction l as [|v l IH]; intros i H; simpl in H; [done|].
  destruct (Ascii.eqb_spec v ch) as [->|_]; [simplify_eq; simpl; split; [lia|done]|].
  destruct (position ch l) as [j|]; simplify_eq/=. destruct (IH j eq_refl). split; [lia|done].
Qed.

Lemma b58_value_char d : is_digit 58 d -> b58_value (b58_char d) = Some d.
Proof.
  intros Hd. apply (bool_decide_unpack _).
  assert (forallb (fun n => bool_decide (b58_value (b58_char (Z.of_nat n)) = Some (Z.of_nat n)))
            (seq 0 58) = true) as H by (vm_compute; done).
  rewrite forallb_forall in H. unfold is_digit in Hd. specialize (H (Z.to_nat d)).
  rewrite Z2Nat.id in H by lia. apply Is_true_true, H, in_seq. lia.
Qed.

Lemma b58_value_iff c d : b58_value c = Some d <-> is_digit 58 d /\ b58_char d = c.
Proof.
  split; [|intros [? <-]; by apply b58_value_char].
  unfold b58_value. intros (i & [Hi Hc]%position_nth & ->)%fmap_Some.
  unfold b58_char. rewrite Nat2Z.id. change (length (bytes_of XMR_B58_ALPHABET)) with 58%nat in Hi.
  split; [unfold is_digit; lia|done].
Qed.

Definition chars_of (cs : list ascii) (ds : list Z) : Prop :=
  Forall (is_digit 58) ds /\ cs = map b58_char ds.

Lemma fold_digits_mono acc ds :
  0 <= acc -> Forall (is_digit 58) ds -> acc <= foldl (fun a d => a * 58 + d) acc ds.
Proof.
  intros Ha H. revert acc Ha. induction H as [|d ds Hd _ IH]; intros acc Ha; simpl; [lia|].
  unfold is_digit in Hd. specialize (IH (acc * 58 + d)). lia.
Qed.

Lemma decode_acc_iff acc cs v :
  0 <= acc <= U64_MAX ->
  decode_acc acc cs = Some v <->
  exists ds, chars_of cs ds /\ v = foldl (fun a d => a * 58 + d) acc ds /\ v <= U64_MAX.
Proof.
  unfold chars_of. revert acc. induction cs as [|c cs IH]; intros acc Ha; simpl.
  { split; [intros [= <-]; exists []; splits; [constructor|done|done|lia]|].
    intros (ds & [_ E] & -> & _). by destruct ds. }
  unfold checked_mul_u128, checked_add_u128, U128_MAX. unfold U64_MAX in *.
  destruct (b58_value c) as [d|] eqn:Ed; simpl.
  - apply b58_value_iff in Ed as [Hd <-]. pose proof Hd as Hd'. unfold is_digit in Hd'.
    rewrite (proj2 (Z.ltb_ge _ _)) by lia. simpl. rewrite (proj2 (Z.ltb_ge _ _)) by lia. simpl.
    destruct (Z.ltb_spec 18446744073709551615 (acc * 58 + d)) as [Hl|Hl].
    + split; [done|]. intros (ds & [Hds E] & -> & Hv). destruct ds as [|d' ds]; [done|].
      apply Forall_cons in Hds as [Hd2 Hds]. injection E as E _.
      apply (f_equal b58_value) in E. rewrite !b58_value_char in E by done. simplify_eq.
      simpl in Hv. pose proof (fold_digits_mono (acc * 58 + d') ds ltac:(lia) Hds). lia.
    + rewrite IH by lia. split.
      * intros (ds & [Hds ->] & -> & Hv). exists (d :: ds). splits; try done. by constructor.
      * intros (ds & [Hds E] & -> & Hv). destruct ds as [|d' ds]; [done|].
        apply Forall_cons in Hds as [Hd2 Hds]. injection E as E ->.
        apply (f_equal b58_value) in E. rewrite !b58_value_char in E by done. simplify_eq.
        by exists ds.
  - split; [done|]. intros (ds & [Hds E] & _). destruct ds as [|d ds]; [done|].
    apply Forall_cons in Hds as [Hd Hds]. injection E as -> _. by rewrite b58_value_char in Ed.
Qed.

Lemma decode_block_bytes k v :
  0 <= v ->
  map (fun idx => Z.land (Z.shiftr v (8 * (Z.of_nat k - 1 - Z.of_nat idx))) 255) (seq 0 k)
  = digits 256 k v.
Proof.
  intros Hv. rewrite digits_zero_index by lia. apply map_ext_in. intros i Hi%in_seq.
  change 255 with (Z.ones 8). rewrite Z.land_ones, Z.shiftr_div_pow2 by lia.
  change 256 with (2 ^ 8). by rewrite Z.pow_mul_r by lia.
Qed.

Lemma fits_spec k v :
  (k <= 8)%nat -> 0 <= v <= U64_MAX ->
  (if (k <? 8)%nat then
     max_value ← checked_shl_u128 1 (Z.of_nat k * 8); Some (negb (max_value <=? v))
   else Some true) = Some (bool_decide (v < 256 ^ Z.of_nat k)).
Proof.
  intros Hk Hv. destruct k as [|[|[|[|[|[|[|[|[|k]]]]]]]]]; [..|lia]; cbn [Nat.ltb Nat.leb];
    try (unfold checked_shl_u128; simpl; f_equal;
         match goal with |- negb (?a <=? _) = bool_decide (_ < ?b) =>
           change a with b; destruct (Z.leb_spec b v); symmetry;
           [apply bool_decide_eq_false_2; lia|apply bool_decide_eq_true_2; lia] end).
  f_equal. symmetry. apply bool_decide_eq_true_2. unfold U64_MAX in Hv. lia.
Qed.

Lemma decode_block_iff cs k out :
  (1 <= k <= 8)%nat -> length cs = encoded_block_size k ->
  decode_block cs k = Some out <->
  length out = k /\ Forall is_byte out /\ cs = encode_block out.
Proof.
  intros Hk Hl. unfold decode_block, encode_block. split.
  - intros (v & Hv & H)%bind_Some.
    apply decode_acc_iff in Hv as (ds & [Hds ->] & Ev & Hm); [|unfold U64_MAX; lia].
    change (foldl _ 0 ds) with (from_digits 58 ds) in Ev.
    pose proof (from_digits_range 58 ltac:(lia) ds Hds) as Hr.
    rewrite fits_spec in H by (unfold U64_MAX in *; lia). simpl in H.
    case_bool_decide as Hf; [|done]. injection H as <-. rewrite decode_block_bytes by lia.
    rewrite digits_length. splits; [done|by apply digits_are|].
    rewrite from_digits_digits by lia. rewrite Ev, <- Hl, length_map.
    by rewrite digits_from_digits.
  - intros (Hn & Hb & ->). pose proof (from_digits_range 256 ltac:(lia) out Hb) as Hr.
    rewrite Hn in *. set (v := from_digits 256 out) in *.
    assert (256 ^ Z.of_nat k <= 58 ^ Z.of_nat (encoded_block_size k)) as Hp.
    { clear -Hk. destruct k as [|[|[|[|[|[|[|[|[|k]]]]]]]]];
        [lia|vm_compute; done..|lia]. }
    assert (v <= U64_MAX) as Hm.
    { unfold U64_MAX. assert (256 ^ Z.of_nat k <= 256 ^ 8) by (apply Z.pow_le_mono_r; lia). lia. }
    assert (decode_acc 0 (map b58_char (digits 58 (encoded_block_size k) v)) = Some v) as Hd.
    { apply decode_acc_iff; [unfold U64_MAX; lia|].
      exists (digits 58 (encoded_block_size k) v). splits; [| |done].
      - split; [apply digits_are; lia|done].
      - symmetry. apply (from_digits_digits 58); lia. }
    rewrite Hd. simpl. rewrite fits_spec by lia. simpl. rewrite bool_decide_eq_true_2 by lia.
    f_equal. rewrite decode_block_bytes by lia. rewrite <- Hn. by apply digits_from_digits.
Qed.

(** ** Whole strings *)

Lemma decoded_size_encoded r k :
  decoded_block_size r = Some k -> (1 <= k <= 8)%nat /\ r = encoded_block_size k.
Proof.
  intros H. unfold decoded_block_size in H. repeat case_match; simplify_eq; split; (lia || done).
Qed.

Lemma mapM_seq_shift {A} (f : nat -> option A) m n :
  mapM f (seq (S m) n) = mapM (fun i => f (S i)) (seq m n).
Proof. revert m. induction n as [|n IH]; intros m; [done|]. simpl. by rewrite IH. Qed.

Lemma encode_nil : encode_block [] = [].
Proof. done. Qed.

(** The decoding of the last, shorter block. *)
Definition decode_last (r k : nat) (cs : list ascii) : option (list Z) :=
  if (r =? 0)%nat then Some [] else decode_block cs k.

Lemma decode_last_iff r k cs out :
  (if (r =? 0)%nat then Some 0%nat else decoded_block_size r) = Some k -> length cs = r ->
  decode_last r k cs = Some out <-> length out = k /\ Forall is_byte out /\ cs = encode_block out.
Proof.
  unfold decode_last. intros Hk Hl. destruct (Nat.eqb_spec r 0) as [->|Hr].
  - simplify_eq. apply nil_length_inv in Hl as ->. split.
    + intros [= <-]. done.
    + intros (E & _ & _). by destruct out.
  - apply decoded_size_encoded in Hk as [Hk Er]. apply decode_block_iff; [done|congruence].
Qed.

Lemma decode_blocks_iff r k n cs out :
  (if (r =? 0)%nat then Some 0%nat else decoded_block_size r) = Some k ->
  length cs = (n * 11 + r)%nat ->
  (blocks ← mapM (fun idx => decode_block (take 11 (drop (idx * 11) cs)) 8) (seq 0 n);
   last ← decode_last r k (drop (n * 11) cs);
   Some (concat blocks ++ last)) = Some out <->
  length out = (n * 8 + k)%nat /\ Forall is_byte out /\ cs = encode_blocks n out.
Proof.
  intros Hk. revert cs out. induction n as [|n IH]; intros cs out Hl.
  { simpl. rewrite drop_0. rewrite <- (decode_last_iff r) by done.
    destruct (decode_last r k cs); simpl; naive_solver. }
  cbn [seq mapM]. rewrite Nat.mul_0_l, drop_0, (mapM_seq_shift _ 0 n).
  assert (length (take 11 cs) = 11)%nat as H11 by (rewrite length_take; lia).
  assert (length (drop 11 cs) = n * 11 + r)%nat as Hd by (rewrite length_drop; lia).
  cbn [encode_blocks].
  erewrite (mapM_ext _ (fun idx => decode_block (take 11 (drop (idx * 11) (drop 11 cs))) 8));
    [|intros; rewrite drop_drop; f_equal; f_equal; f_equal; lia].
  replace (drop (S n * 11) cs) with (drop (n * 11) (drop 11 cs)) by (rewrite drop_drop; f_equal; lia).
  split.
  - intros (bs & (b & Hb & H)%bind_Some & H2)%bind_Some.
    apply bind_Some in H as (bs' & Hbs & [= <-]). apply bind_Some in H2 as (l & Hla & [= <-]).
    apply decode_block_iff in Hb as (Lb & Fb & Eb); [|lia|done].
    destruct (proj1 (IH (drop 11 cs) (concat bs' ++ l) Hd)) as (L' & F' & E').
    { rewrite Hbs. simpl. rewrite Hla. done. }
    simpl. rewrite <- app_assoc. rewrite take_app_length', drop_app_length' by done.
    splits; [rewrite length_app; lia|by apply Forall_app|].
    by rewrite <- Eb, <- E', take_drop.
  - intros (Lo & Fo & E). rewrite <- (take_drop 8 out) in Fo. apply Forall_app in Fo as [F1 F2].
    assert (length (take 8 out) = 8)%nat as L1 by (rewrite length_take; lia).
    assert (length (encode_block (take 8 out)) = 11)%nat as L2.
    { unfold encode_block. by rewrite length_map, digits_length, L1. }
    pose proof (proj2 (IH (drop 11 cs) (drop 8 out) Hd)) as H. rewrite bind_Some in H.
    destruct H as (bs & Hbs & (l & Hla & [= Eo])%bind_Some).
    { splits; [rewrite length_drop; lia|done|]. by rewrite E, drop_app_length'. }
    rewrite (proj2 (decode_block_iff (take 11 cs) 8 (take 8 out) ltac:(lia) H11)).
    + simpl. rewrite Hbs. simpl. rewrite Hla. simpl. by rewrite <- app_assoc, Eo, take_drop.
    + splits; try done. by rewrite E, take_app_length'.
Qed.

Lemma encode_blocks_length n k out :
  length out = (n * 8 + k)%nat -> length (encode_blocks n out) = (n * 11 + encoded_block_size k)%nat.
Proof.
  revert out. induction n as [|n IH]; intros out Hl; cbn [encode_blocks].
  - unfold encode_block. by rewrite length_map, digits_length, Hl.
  - rewrite length_app, IH by (rewrite length_drop; lia).
    unfold encode_block. rewrite length_map, digits_length, length_take, Nat.min_l by lia. done.
Qed.

Lemma encoded_sizes k :
  (k < 8)%nat ->
  (encoded_block_size k < 11)%nat
  /\ (if (encoded_block_size k =? 0)%nat then Some 0%nat
      else decoded_block_size (encoded_block_size k)) = Some k.
Proof.
  intros Hk. destruct k as [|[|[|[|[|[|[|[|k]]]]]]]]; [simpl; split; (lia || done)..|lia].
Qed.

(** The characters of a string are decoded to bytes exactly when they are the
    encoding of those bytes. *)
Lemma decode_base58_iff cs out :
  decode_monero_base58 cs = Some out <->
  out <> [] /\ Forall is_byte out /\ cs = encode_monero_base58 out.
Proof.
  unfold decode_monero_base58, encode_monero_base58. split.
  - destruct cs as [|c cs']; [done|]. set (cs := c :: cs') in *. cbv zeta.
    intros (k & Hk & H)%bind_Some.
    pose proof (Nat.div_mod_eq (length cs) 11) as Hdm.
    pose proof (decode_blocks_iff (length cs mod 11) k (length cs / 11) cs out Hk) as Hiff.
    unfold decode_last in Hiff.
    rewrite Hiff in H by lia. destruct H as (Lo & Fo & E).
    assert (k < 8 /\ 0 < length out)%nat as [Hk8 Ho].
    { pose proof (Nat.mod_upper_bound (length cs) 11).
      destruct (Nat.eqb_spec (length cs mod 11) 0).
      - assert (0 < length cs)%nat by (simpl; lia). injection Hk as <-. lia.
      - apply decoded_size_encoded in Hk as [? Er]. split; [|lia].
        destruct (decide (k = 8%nat)) as [->|]; [|lia]. simpl in Er. lia. }
    splits; [intros ->; simpl in Ho; lia|done|].
    rewrite Lo, Nat.div_add_l, (Nat.div_small k), Nat.add_0_r by lia. done.
  - intros (Hne & Fo & ->). set (n := (length out / 8)%nat). set (k := (length out mod 8)%nat).
    pose proof (Nat.div_mod_eq (length out) 8) as Hdm. fold n k in Hdm.
    assert (length (encode_blocks n out) = n * 11 + encoded_block_size k)%nat as Hl
      by (apply encode_blocks_length; lia).
    pose proof (Nat.mod_upper_bound (length out) 8 ltac:(lia)) as Hk8. fold k in Hk8.
    destruct (encoded_sizes k Hk8) as [Hr11 Hs].
    destruct (encode_blocks n out) as [|c cs'] eqn:E.
    { simpl in Hl. destruct k as [|k']; [|destruct k' as [|[|[|[|[|[|[|?]]]]]]]; simpl in Hl; lia].
      assert (length out = 0)%nat by lia. by destruct out. }
    rewrite <- E in *. rewrite Hl.
    rewrite Nat.div_add_l, (Nat.div_small (encoded_block_size k)), Nat.add_0_r by lia.
    rewrite Nat.add_comm, Nat.Div0.mod_add, Nat.mod_small by lia.
    rewrite Hs. simpl.
    pose proof (decode_blocks_iff (encoded_block_size k) k n (encode_blocks n out) out Hs ltac:(lia))
      as Hiff.
    unfold decode_last in Hiff. apply Hiff. splits; [lia|done|done].
Qed.

(** ** Addresses *)

(** A payload with a network byte that fits its length. *)
Definition payload_prefix_ok (payload : list Z) : bool :=
  match payload with
  | [] => false
  | prefix :: _ => valid_prefix_for_payload prefix (length payload)
  end.

Lemma valid_prefix_length prefix n :
  valid_prefix_for_payload prefix n = true -> n = 65%nat \/ n = 73%nat.
Proof. unfold valid_prefix_for_payload. do 74 (destruct n as [|n]; [by auto|]). done. Qed.

Lemma payload_prefix_length payload :
  payload_prefix_ok payload = true -> length payload = 65%nat \/ length payload = 73%nat.
Proof.
  unfold payload_prefix_ok. destruct payload; [done|]. apply valid_prefix_length.
Qed.

Lemma b58_char_ascii d : is_digit 58 d -> (byte_of (b58_char d) <? 128) = true.
Proof.
  intros Hd.
  assert (forallb (fun c => byte_of c <? 128) (bytes_of XMR_B58_ALPHABET) = true) as H
    by (vm_compute; done).
  rewrite forallb_forall in H. apply H, nth_In. unfold is_digit in Hd. simpl. lia.
Qed.

Lemma encode_blocks_ascii n out : forallb (fun c => byte_of c <? 128) (encode_blocks n out) = true.
Proof.
  assert (forall l, forallb (fun c => byte_of c <? 128) (encode_block l) = true) as Hb.
  { intros l. apply forallb_forall. intros c (d & <- & Hd)%in_map_iff. apply b58_char_ascii.
    apply list_elem_of_In in Hd. pose proof (digits_are 58 ltac:(lia)) as Hds.
    setoid_rewrite Forall_forall in Hds. eauto. }
  revert out. induction n as [|n IH]; intros out; cbn [encode_blocks]; [done|].
  by rewrite forallb_app, Hb, IH.
Qed.

(** C18. An address is accepted exactly when it is, up to surrounding white
    space, the base58 encoding of a payload with a known network byte followed
    by the first four bytes of the payload's Keccak-256 hash: every such string
    is accepted, and no other spelling of the same bytes is. *)
Theorem address_canonical (keccak256 : list Z -> list Z) (addr : string) :
  (forall p, length (keccak256 p) = 32%nat /\ Forall is_byte (keccak256 p)) ->
  is_valid_xmr_address keccak256 addr = true <->
  exists payload, Forall is_byte payload /\ payload_prefix_ok payload = true
    /\ bytes_of (trim addr) = encode_monero_base58 (payload ++ take 4 (keccak256 payload)).
Proof.
  intros Hk. unfold is_valid_xmr_address, is_ascii. cbv zeta. rewrite sall_bytes. unfold len.
  rewrite <- length_bytes. set (cs := bytes_of (trim addr)). split.
  - destruct (negb _); [done|]. destruct (negb (forallb _ _)); [done|].
    destruct (decode_monero_base58 cs) as [out|] eqn:Hd; [|done].
    apply decode_base58_iff in Hd as (_ & Fo & E). destruct (Nat.ltb_spec (length out) 5) as [|Hl5]; [done|].
    set (payload := take (length out - 4) out). intros H.
    assert (payload_prefix_ok payload = true /\ drop (length out - 4) out = take 4 (keccak256 payload))
      as [Hp Hc].
    { destruct payload as [|x l] eqn:Ep; [done|]. simpl.
      destruct (valid_prefix_for_payload _ _) eqn:Ev; simpl in H; [|done].
      split; [done|]. by apply bool_decide_eq_true_1 in H. }
    exists payload. splits; [by apply Forall_take|done|].
    rewrite <- Hc. unfold payload. by rewrite take_drop.
  - intros (payload & Fp & Hp & E). destruct (Hk payload) as [Lk Fk].
    pose proof (payload_prefix_length _ Hp) as Lp.
    set (out := payload ++ take 4 (keccak256 payload)) in *.
    assert (length out = length payload + 4)%nat as Lo
      by (unfold out; rewrite length_app, length_take; lia).
    assert (decode_monero_base58 cs = Some out) as ->.
    { apply decode_base58_iff. splits; [by destruct payload| |done].
      apply Forall_app. split; [done|by apply Forall_take]. }
    assert (forallb (fun c => byte_of c <? 128) cs = true) as ->
      by (rewrite E; apply encode_blocks_ascii).
    assert (length cs = 95 \/ length cs = 106)%nat as Lc.
    { rewrite E. unfold encode_monero_base58.
      destruct Lp as [Lp|Lp]; rewrite Lo, Lp; [left|right];
        [rewrite (encode_blocks_length 8 5)|rewrite (encode_blocks_length 9 5)]; (done || lia). }
    replace (negb _) with false by (destruct Lc as [-> | ->]; done). simpl.
    destruct (Nat.ltb_spec (length out) 5); [lia|].
    replace (length out - 4)%nat with (length payload) by lia. unfold out.
    rewrite take_app_length, drop_app_length.
    destruct payload as [|x l]; [done|]. unfold payload_prefix_ok in Hp. rewrite Hp. cbn [negb].
    by apply bool_decide_eq_true_2.
Qed.

(** ** Instances *)

Definition demo_keccak (p : list Z) : list Z := replicate 32 7.
Definition demo_payload : list Z := 18 :: replicate 64 3.
Definition demo_address : string :=
  " " +:+ of_bytes (encode_monero_base58 (demo_payload ++ take 4 (demo_keccak demo_payload))).

Lemma address_canonical_witness : is_valid_xmr_address demo_keccak demo_address = true.
Proof.
  apply (address_canonical demo_keccak demo_address).
  - intros p. split; [done|]. apply Forall_replicate. unfold is_digit. lia.
  - exists demo_payload. splits; [|done|vm_compute; reflexivity].
    constructor; [unfold is_digit; lia|]. apply Forall_replicate. unfold is_digit. lia.
Defined.
