(* ===== verification/Escrow.v ===== *)
(** * The escrow contract

    [crates/nxms-monero-core/src/multisig/state.rs]: the two-of-three escrow,
    from the three rounds of the multisig set-up over funding and dispute to the
    settlement.  A method on [&mut self] is a computation over the contract
    ([M EscrowContract MoneroError]): what it wrote before an early return stays
    written.  A [&mut Option<String>] argument is a [field]. *)

From S2P Require Import Prelude RustString XmrAddress.

(** ** Data *)

Inductive EscrowState : Type :=
| New | XmrMsigR1 | XmrMsigR2 | XmrMsigR3 | Ready | Funded | Released | Refunded | Dispute | Closed.
#[global] Instance EscrowState_eq_dec : EqDecision EscrowState.
Proof. solve_decision. Defined.

Inductive Asset : Type := Xmr | Btc.
#[global] Instance Asset_eq_dec : EqDecision Asset.
Proof. solve_decision. Defined.

Inductive EscrowParticipant : Type := Buyer | Seller | Arbiter.
#[global] Instance EscrowParticipant_eq_dec : EqDecision EscrowParticipant.
Proof. solve_decision. Defined.
#[global] Instance EscrowParticipant_countable : Countable EscrowParticipant.
Proof.
  apply (inj_countable'
    (fun p => match p with Buyer => 0%nat | Seller => 1%nat | Arbiter => 2%nat end)
    (fun n => match n with 0%nat => Buyer | 1%nat => Seller | _ => Arbiter end)).
  by intros [].
Defined.

Inductive WalletRpcError : Type :=
| Transport (v : string)
| HttpStatus (status : Z) (body : string)
| Rpc (code : Z) (message : string)
| Auth (v : string)
| Protocol (v : string)
| InvalidResponse (v : string).

(** [MoneroArbitraError], less the variants that only I/O code constructs. *)
Inductive MoneroError : Type :=
| WalletRpc (e : WalletRpcError)
| InvalidArgument (msg : string)
| Conflict (msg : string)
| MissingData (msg : string)
| InvalidTxid
| InsufficientBalance (available needed : Z).

Record EscrowTransition : Type := MkTransition {
  et_from : EscrowState; et_to : EscrowState; et_action : string }.

Record EscrowReport : Type := MkReport {
  er_id : Z;
  er_state : EscrowState;
  er_release_confirmations : Z;
  er_refund_confirmations : Z;
  er_deposit_address : option string;
  er_release_txid : option string;
  er_refund_txid : option string;
  er_dispute_opened_by : option EscrowParticipant;
  er_dispute_reason : option string;
  er_dispute_opened_at : option Z;
}.

Record EscrowContract : Type := MkContract {
  id : Z;
  asset : Asset;
  state : EscrowState;
  buyer_nick : string;
  seller_nick : string;
  arbiter_nick : string;
  amount_atomic : Z;
  memo : option string;
  refund_address_buyer : option string;
  refund_address_seller : option string;
  xmr_r1_buyer : option string;
  xmr_r1_seller : option string;
  xmr_r1_arbiter : option string;
  xmr_r2_buyer : option string;
  xmr_r2_seller : option string;
  xmr_r2_arbiter : option string;
  xmr_r3_buyer : option string;
  xmr_r3_seller : option string;
  xmr_r3_arbiter : option string;
  deposit_address : option string;
  release_txid : option string;
  refund_txid : option string;
  dispute_opened_by : option EscrowParticipant;
  dispute_reason : option string;
  dispute_opened_at : option Z;
  release_confirmations : gset EscrowParticipant;
  refund_confirmations : gset EscrowParticipant;
}.

(** *** Assignments to fields *)

Definition set_state (v : EscrowState) (c : EscrowContract) : EscrowContract :=
  MkContract (id c) (asset c) v (buyer_nick c) (seller_nick c) (arbiter_nick c) (amount_atomic c) (memo
    c) (refund_address_buyer c) (refund_address_seller c) (xmr_r1_buyer c) (xmr_r1_seller c)
    (xmr_r1_arbiter c) (xmr_r2_buyer c) (xmr_r2_seller c) (xmr_r2_arbiter c) (xmr_r3_buyer c)
    (xmr_r3_seller c) (xmr_r3_arbiter c) (deposit_address c) (release_txid c) (refund_txid c)
    (dispute_opened_by c) (dispute_reason c) (dispute_opened_at c) (release_confirmations c)
    (refund_confirmations c).
Definition set_refund_address_buyer (v : option string) (c : EscrowContract) : EscrowContract :=
  MkContract (id c) (asset c) (state c) (buyer_nick c) (seller_nick c) (arbiter_nick c) (amount_atomic c)
    (memo c) v (refund_address_seller c) (xmr_r1_buyer c) (xmr_r1_seller c) (xmr_r1_arbiter c)
    (xmr_r2_buyer c) (xmr_r2_seller c) (xmr_r2_arbiter c) (xmr_r3_buyer c) (xmr_r3_seller c)
    (xmr_r3_arbiter c) (deposit_address c) (release_txid c) (refund_txid c) (dispute_opened_by
    c) (dispute_reason c) (dispute_opened_at c) (release_confirmations c) (refund_confirmations
    c).
Definition set_refund_address_seller (v : option string) (c : EscrowContract) : EscrowContract :=
  MkContract (id c) (asset c) (state c) (buyer_nick c) (seller_nick c) (arbiter_nick c) (amount_atomic c)
    (memo c) (refund_address_buyer c) v (xmr_r1_buyer c) (xmr_r1_seller c) (xmr_r1_arbiter c)
    (xmr_r2_buyer c) (xmr_r2_seller c) (xmr_r2_arbiter c) (xmr_r3_buyer c) (xmr_r3_seller c)
    (xmr_r3_arbiter c) (deposit_address c) (release_txid c) (refund_txid c) (dispute_opened_by
    c) (dispute_reason c) (dispute_opened_at c) (release_confirmations c) (refund_confirmations
    c).
Definition set_xmr_r1_buyer (v : option string) (c : EscrowContract) : EscrowContract :=
  MkContract (id c) (asset c) (state c) (buyer_nick c) (seller_nick c) (arbiter_nick c) (amount_atomic c)
    (memo c) (refund_address_buyer c) (refund_address_seller c) v (xmr_r1_seller c)
    (xmr_r1_arbiter c) (xmr_r2_buyer c) (xmr_r2_seller c) (xmr_r2_arbiter c) (xmr_r3_buyer c)
    (xmr_r3_seller c) (xmr_r3_arbiter c) (deposit_address c) (release_txid c) (refund_txid c)
    (dispute_opened_by c) (dispute_reason c) (dispute_opened_at c) (release_confirmations c)
    (refund_confirmations c).
Definition set_xmr_r1_seller (v : option string) (c : EscrowContract) : EscrowContract :=
  MkContract (id c) (asset c) (state c) (buyer_nick c) (seller_nick c) (arbiter_nick c) (amount_atomic c)
    (memo c) (refund_address_buyer c) (refund_address_seller c) (xmr_r1_buyer c) v
    (xmr_r1_arbiter c) (xmr_r2_buyer c) (xmr_r2_seller c) (xmr_r2_arbiter c) (xmr_r3_buyer c)
    (xmr_r3_seller c) (xmr_r3_arbiter c) (deposit_address c) (release_txid c) (refund_txid c)
    (dispute_opened_by c) (dispute_reason c) (dispute_opened_at c) (release_confirmations c)
    (refund_confirmations c).
Definition set_xmr_r1_arbiter (v : option string) (c : EscrowContract) : EscrowContract :=
  MkContract (id c) (asset c) (state c) (buyer_nick c) (seller_nick c) (arbiter_nick c) (amount_atomic c)
    (memo c) (refund_address_buyer c) (refund_address_seller c) (xmr_r1_buyer c) (xmr_r1_seller
    c) v (xmr_r2_buyer c) (xmr_r2_seller c) (xmr_r2_arbiter c) (xmr_r3_buyer c) (xmr_r3_seller
    c) (xmr_r3_arbiter c) (deposit_address c) (release_txid c) (refund_txid c)
    (dispute_opened_by c) (dispute_reason c) (dispute_opened_at c) (release_confirmations c)
    (refund_confirmations c).
Definition set_xmr_r2_buyer (v : option string) (c : EscrowContract) : EscrowContract :=
  MkContract (id c) (asset c) (state c) (buyer_nick c) (seller_nick c) (arbiter_nick c) (amount_atomic c)
    (memo c) (refund_address_buyer c) (refund_address_seller c) (xmr_r1_buyer c) (xmr_r1_seller
    c) (xmr_r1_arbiter c) v (xmr_r2_seller c) (xmr_r2_arbiter c) (xmr_r3_buyer c) (xmr_r3_seller
    c) (xmr_r3_arbiter c) (deposit_address c) (release_txid c) (refund_txid c)
    (dispute_opened_by c) (dispute_reason c) (dispute_opened_at c) (release_confirmations c)
    (refund_confirmations c).
Definition set_xmr_r2_seller (v : option string) (c : EscrowContract) : EscrowContract :=
  MkContract (id c) (asset c) (state c) (buyer_nick c) (seller_nick c) (arbiter_nick c) (amount_atomic c)
    (memo c) (refund_address_buyer c) (refund_address_seller c) (xmr_r1_buyer c) (xmr_r1_seller
    c) (xmr_r1_arbiter c) (xmr_r2_buyer c) v (xmr_r2_arbiter c) (xmr_r3_buyer c) (xmr_r3_seller
    c) (xmr_r3_arbiter c) (deposit_address c) (release_txid c) (refund_txid c)
    (dispute_opened_by c) (dispute_reason c) (dispute_opened_at c) (release_confirmations c)
    (refund_confirmations c).
Definition set_xmr_r2_arbiter (v : option string) (c : EscrowContract) : EscrowContract :=
  MkContract (id c) (asset c) (state c) (buyer_nick c) (seller_nick c) (arbiter_nick c) (amount_atomic c)
    (memo c) (refund_address_buyer c) (refund_address_seller c) (xmr_r1_buyer c) (xmr_r1_seller
    c) (xmr_r1_arbiter c) (xmr_r2_buyer c) (xmr_r2_seller c) v (xmr_r3_buyer c) (xmr_r3_seller
    c) (xmr_r3_arbiter c) (deposit_address c) (release_txid c) (refund_txid c)
    (dispute_opened_by c) (dispute_reason c) (dispute_opened_at c) (release_confirmations c)
    (refund_confirmations c).
Definition set_xmr_r3_buyer (v : option string) (c : EscrowContract) : EscrowContract :=
  MkContract (id c) (asset c) (state c) (buyer_nick c) (seller_nick c) (arbiter_nick c) (amount_atomic c)
    (memo c) (refund_address_buyer c) (refund_address_seller c) (xmr_r1_buyer c) (xmr_r1_seller
    c) (xmr_r1_arbiter c) (xmr_r2_buyer c) (xmr_r2_seller c) (xmr_r2_arbiter c) v (xmr_r3_seller
    c) (xmr_r3_arbiter c) (deposit_address c) (release_txid c) (refund_txid c)
    (dispute_opened_by c) (dispute_reason c) (dispute_opened_at c) (release_confirmations c)
    (refund_confirmations c).
Definition set_xmr_r3_seller (v : option string) (c : EscrowContract) : EscrowContract :=
  MkContract (id c) (asset c) (state c) (buyer_nick c) (seller_nick c) (arbiter_nick c) (amount_atomic c)
    (memo c) (refund_address_buyer c) (refund_address_seller c) (xmr_r1_buyer c) (xmr_r1_seller
    c) (xmr_r1_arbiter c) (xmr_r2_buyer c) (xmr_r2_seller c) (xmr_r2_arbiter c) (xmr_r3_buyer c)
    v (xmr_r3_arbiter c) (deposit_address c) (release_txid c) (refund_txid c) (dispute_opened_by
    c) (dispute_reason c) (dispute_opened_at c) (release_confirmations c) (refund_confirmations
    c).
Definition set_xmr_r3_arbiter (v : option string) (c : EscrowContract) : EscrowContract :=
  MkContract (id c) (asset c) (state c) (buyer_nick c) (seller_nick c) (arbiter_nick c) (amount_atomic c)
    (memo c) (refund_address_buyer c) (refund_address_seller c) (xmr_r1_buyer c) (xmr_r1_seller
    c) (xmr_r1_arbiter c) (xmr_r2_buyer c) (xmr_r2_seller c) (xmr_r2_arbiter c) (xmr_r3_buyer c)
    (xmr_r3_seller c) v (deposit_address c) (release_txid c) (refund_txid c) (dispute_opened_by
    c) (dispute_reason c) (dispute_opened_at c) (release_confirmations c) (refund_confirmations
    c).
Definition set_deposit_address_field (v : option string) (c : EscrowContract) : EscrowContract :=
  MkContract (id c) (asset c) (state c) (buyer_nick c) (seller_nick c) (arbiter_nick c) (amount_atomic c)
    (memo c) (refund_address_buyer c) (refund_address_seller c) (xmr_r1_buyer c) (xmr_r1_seller
    c) (xmr_r1_arbiter c) (xmr_r2_buyer c) (xmr_r2_seller c) (xmr_r2_arbiter c) (xmr_r3_buyer c)
    (xmr_r3_seller c) (xmr_r3_arbiter c) v (release_txid c) (refund_txid c) (dispute_opened_by
    c) (dispute_reason c) (dispute_opened_at c) (release_confirmations c) (refund_confirmations
    c).
Definition set_release_txid (v : option string) (c : EscrowContract) : EscrowContract :=
  MkContract (id c) (asset c) (state c) (buyer_nick c) (seller_nick c) (arbiter_nick c) (amount_atomic c)
    (memo c) (refund_address_buyer c) (refund_address_seller c) (xmr_r1_buyer c) (xmr_r1_seller
    c) (xmr_r1_arbiter c) (xmr_r2_buyer c) (xmr_r2_seller c) (xmr_r2_arbiter c) (xmr_r3_buyer c)
    (xmr_r3_seller c) (xmr_r3_arbiter c) (deposit_address c) v (refund_txid c)
    (dispute_opened_by c) (dispute_reason c) (dispute_opened_at c) (release_confirmations c)
    (refund_confirmations c).
Definition set_refund_txid (v : option string) (c : EscrowContract) : EscrowContract :=
  MkContract (id c) (asset c) (state c) (buyer_nick c) (seller_nick c) (arbiter_nick c) (amount_atomic c)
    (memo c) (refund_address_buyer c) (refund_address_seller c) (xmr_r1_buyer c) (xmr_r1_seller
    c) (xmr_r1_arbiter c) (xmr_r2_buyer c) (xmr_r2_seller c) (xmr_r2_arbiter c) (xmr_r3_buyer c)
    (xmr_r3_seller c) (xmr_r3_arbiter c) (deposit_address c) (release_txid c) v
    (dispute_opened_by c) (dispute_reason c) (dispute_opened_at c) (release_confirmations c)
    (refund_confirmations c).
Definition set_dispute_opened_by (v : option EscrowParticipant) (c : EscrowContract) : EscrowContract :=
  MkContract (id c) (asset c) (state c) (buyer_nick c) (seller_nick c) (arbiter_nick c) (amount_atomic c)
    (memo c) (refund_address_buyer c) (refund_address_seller c) (xmr_r1_buyer c) (xmr_r1_seller
    c) (xmr_r1_arbiter c) (xmr_r2_buyer c) (xmr_r2_seller c) (xmr_r2_arbiter c) (xmr_r3_buyer c)
    (xmr_r3_seller c) (xmr_r3_arbiter c) (deposit_address c) (release_txid c) (refund_txid c) v
    (dispute_reason c) (dispute_opened_at c) (release_confirmations c) (refund_confirmations c).
Definition set_dispute_reason (v : option string) (c : EscrowContract) : EscrowContract :=
  MkContract (id c) (asset c) (state c) (buyer_nick c) (seller_nick c) (arbiter_nick c) (amount_atomic c)
    (memo c) (refund_address_buyer c) (refund_address_seller c) (xmr_r1_buyer c) (xmr_r1_seller
    c) (xmr_r1_arbiter c) (xmr_r2_buyer c) (xmr_r2_seller c) (xmr_r2_arbiter c) (xmr_r3_buyer c)
    (xmr_r3_seller c) (xmr_r3_arbiter c) (deposit_address c) (release_txid c) (refund_txid c)
    (dispute_opened_by c) v (dispute_opened_at c) (release_confirmations c)
    (refund_confirmations c).
Definition set_dispute_opened_at (v : option Z) (c : EscrowContract) : EscrowContract :=
  MkContract (id c) (asset c) (state c) (buyer_nick c) (seller_nick c) (arbiter_nick c) (amount_atomic c)
    (memo c) (refund_address_buyer c) (refund_address_seller c) (xmr_r1_buyer c) (xmr_r1_seller
    c) (xmr_r1_arbiter c) (xmr_r2_buyer c) (xmr_r2_seller c) (xmr_r2_arbiter c) (xmr_r3_buyer c)
    (xmr_r3_seller c) (xmr_r3_arbiter c) (deposit_address c) (release_txid c) (refund_txid c)
    (dispute_opened_by c) (dispute_reason c) v (release_confirmations c) (refund_confirmations
    c).
Definition set_release_confirmations (v : gset EscrowParticipant) (c : EscrowContract) : EscrowContract :=
  MkContract (id c) (asset c) (state c) (buyer_nick c) (seller_nick c) (arbiter_nick c) (amount_atomic c)
    (memo c) (refund_address_buyer c) (refund_address_seller c) (xmr_r1_buyer c) (xmr_r1_seller
    c) (xmr_r1_arbiter c) (xmr_r2_buyer c) (xmr_r2_seller c) (xmr_r2_arbiter c) (xmr_r3_buyer c)
    (xmr_r3_seller c) (xmr_r3_arbiter c) (deposit_address c) (release_txid c) (refund_txid c)
    (dispute_opened_by c) (dispute_reason c) (dispute_opened_at c) v (refund_confirmations c).
Definition set_refund_confirmations (v : gset EscrowParticipant) (c : EscrowContract) : EscrowContract :=
  MkContract (id c) (asset c) (state c) (buyer_nick c) (seller_nick c) (arbiter_nick c) (amount_atomic c)
    (memo c) (refund_address_buyer c) (refund_address_seller c) (xmr_r1_buyer c) (xmr_r1_seller
    c) (xmr_r1_arbiter c) (xmr_r2_buyer c) (xmr_r2_seller c) (xmr_r2_arbiter c) (xmr_r3_buyer c)
    (xmr_r3_seller c) (xmr_r3_arbiter c) (deposit_address c) (release_txid c) (refund_txid c)
    (dispute_opened_by c) (dispute_reason c) (dispute_opened_at c) (release_confirmations c) v.

Definition new_xmr (n : Z) (buyer seller arbiter : string) (amount : Z) : EscrowContract :=
  MkContract n Xmr New buyer seller arbiter amount None None None None None None None None None None
    None None None None None None None None ∅ ∅.

(** ** Helpers *)

Definition MAX_DISPUTE_REASON_LEN : Z := 2000.

(** [{state:?}] *)
Definition state_debug (s : EscrowState) : string :=
  match s with
  | New => "New" | XmrMsigR1 => "XmrMsigR1" | XmrMsigR2 => "XmrMsigR2" | XmrMsigR3 => "XmrMsigR3"
  | Ready => "Ready" | Funded => "Funded" | Released => "Released" | Refunded => "Refunded"
  | Dispute => "Dispute" | Closed => "Closed"
  end.

Definition ensure_state_in (state : EscrowState) (allowed : list EscrowState) (op : string)
    : result MoneroError unit :=
  fail_if (negb (bool_decide (state ∈ allowed)))
    (InvalidArgument ("bad state for " +:+ op +:+ ": " +:+ state_debug state)).

(** A field of the contract, borrowed mutably. *)
Record field : Type := Field {
  fget : EscrowContract -> option string;
  fset : option string -> EscrowContract -> EscrowContract;
}.

Definition set_once (slot : field) (incoming : string) (require_non_empty : bool) (label : string)
    : M EscrowContract MoneroError unit :=
  let* _ := slift (fail_if (require_non_empty && is_empty (trim incoming))
                    (InvalidArgument (label +:+ " cannot be empty"))) in
  let* current := sget (fget slot) in
  match current with
  | Some current =>
      slift (fail_if (negb (current =? incoming)%string)
               (Conflict ("different value already stored for " +:+ label)))
  | None => smodify (fset slot (Some incoming))
  end.

Definition validate_txid (txid : string) : result MoneroError unit :=
  fail_if (negb ((len txid =? 64) && sall is_ascii_hexdigit txid)) InvalidTxid.

Definition normalize_dispute_reason (reason : option string) : result MoneroError (option string) :=
  match reason with
  | None => Ok None
  | Some raw_reason =>
      let trimmed := trim raw_reason in
      if is_empty trimmed then Ok None
      else
        let? _ := fail_if (MAX_DISPUTE_REASON_LEN <? len trimmed)
                    (InvalidArgument "reason too long (max 2000)") in
        Ok (Some trimmed)
  end.

(** [EscrowTransition { from: prev, to: self.state.clone(), action }] *)
Definition transition (prev : EscrowState) (action : string) : M EscrowContract MoneroError EscrowTransition :=
  sget (fun c => MkTransition prev (state c) action).

Definition ensure_xmr (msg : string) : M EscrowContract MoneroError unit :=
  let* a := sget asset in
  slift (fail_if (negb (bool_decide (a = Xmr))) (InvalidArgument msg)).

Definition ensure_state (allowed : list EscrowState) (op : string) : M EscrowContract MoneroError unit :=
  let* s := sget state in
  slift (ensure_state_in s allowed op).

Definition slot_r1_buyer := Field xmr_r1_buyer set_xmr_r1_buyer.
Definition slot_r1_seller := Field xmr_r1_seller set_xmr_r1_seller.
Definition slot_r1_arbiter := Field xmr_r1_arbiter set_xmr_r1_arbiter.
Definition slot_r2_buyer := Field xmr_r2_buyer set_xmr_r2_buyer.
Definition slot_r2_seller := Field xmr_r2_seller set_xmr_r2_seller.
Definition slot_r2_arbiter := Field xmr_r2_arbiter set_xmr_r2_arbiter.
Definition slot_r3_buyer := Field xmr_r3_buyer set_xmr_r3_buyer.
Definition slot_r3_seller := Field xmr_r3_seller set_xmr_r3_seller.
Definition slot_r3_arbiter := Field xmr_r3_arbiter set_xmr_r3_arbiter.
Definition slot_refund_buyer := Field refund_address_buyer set_refund_address_buyer.
Definition slot_refund_seller := Field refund_address_seller set_refund_address_seller.
Definition slot_deposit := Field deposit_address set_deposit_address_field.
Definition slot_release_txid := Field release_txid set_release_txid.
Definition slot_refund_txid := Field refund_txid set_refund_txid.

(** [a.is_none() || b.is_none() || c.is_none()] *)
Definition any_none (l : list (option string)) : bool :=
  existsb (fun o => match o with None => true | Some _ => false end) l.

(** ** Operations *)

Section operations.
Context (keccak256 : list Z -> list Z).

Definition is_xmr_address (addr : string) : bool := is_valid_xmr_address keccak256 addr.

Definition set_refund_once (slot : field) (incoming : option string) (label : string)
    : M EscrowContract MoneroError unit :=
  match incoming with
  | None => sret tt
  | Some refund =>
      let normalized := trim refund in
      if is_empty normalized then sret tt
      else
        let* _ := slift (fail_if (negb (is_xmr_address normalized))
                          (InvalidArgument ("invalid refund address for " +:+ label))) in
        let* current := sget (fget slot) in
        match current with
        | Some current =>
            slift (fail_if (negb (current =? normalized)%string)
                     (Conflict ("different value already stored for " +:+ label)))
        | None => smodify (fset slot (Some normalized))
        end
  end.

Definition set_arbiter_round1 (multisig_info : string) : M EscrowContract MoneroError EscrowTransition :=
  let* _ := ensure_xmr "round1 only valid for XMR" in
  let* prev := sget state in
  let* _ := ensure_state [New; XmrMsigR1] "set_arbiter_round1" in
  let* _ := set_once slot_r1_arbiter multisig_info true "xmr_r1_arbiter" in
  let* _ := smodify (set_state XmrMsigR1) in
  transition prev "xmr_r1_arbiter".

Definition submit_round1 (who : EscrowParticipant) (multisig_info : string)
    (refund_address : option string) : M EscrowContract MoneroError EscrowTransition :=
  let* _ := ensure_xmr "round1 only valid for XMR" in
  let* prev := sget state in
  let* _ := ensure_state [New; XmrMsigR1] "submit_round1" in
  let* _ :=
    match who with
    | Buyer =>
        let* _ := set_once slot_r1_buyer multisig_info true "xmr_r1_buyer" in
        set_refund_once slot_refund_buyer refund_address "refund_address_buyer"
    | Seller =>
        let* _ := set_once slot_r1_seller multisig_info true "xmr_r1_seller" in
        set_refund_once slot_refund_seller refund_address "refund_address_seller"
    | Arbiter => sfail (InvalidArgument "arbiter should use set_arbiter_round1")
    end in
  let* _ := smodify (set_state XmrMsigR1) in
  transition prev "xmr_r1".

Definition set_arbiter_round2 (multisig_info : string) : M EscrowContract MoneroError EscrowTransition :=
  let* _ := ensure_xmr "round2 only valid for XMR" in
  let* _ := ensure_state [XmrMsigR1; XmrMsigR2] "set_arbiter_round2" in
  let* missing := sget (fun c => any_none [xmr_r1_buyer c; xmr_r1_seller c; xmr_r1_arbiter c]) in
  let* _ := slift (fail_if missing (MissingData "round1 data incomplete")) in
  let* prev := sget state in
  let* _ := set_once slot_r2_arbiter multisig_info true "xmr_r2_arbiter" in
  let* _ := smodify (set_state XmrMsigR2) in
  transition prev "xmr_r2_arbiter".

Definition submit_round2 (who : EscrowParticipant) (multisig_info : string)
    : M EscrowContract MoneroError EscrowTransition :=
  let* _ := ensure_xmr "round2 only valid for XMR" in
  let* prev := sget state in
  let* _ := ensure_state [XmrMsigR2] "submit_round2" in
  let* _ :=
    match who with
    | Buyer => set_once slot_r2_buyer multisig_info true "xmr_r2_buyer"
    | Seller => set_once slot_r2_seller multisig_info true "xmr_r2_seller"
    | Arbiter => sfail (InvalidArgument "arbiter should use set_arbiter_round2")
    end in
  transition prev "xmr_r2".

Definition set_arbiter_round3 (multisig_info : string) : M EscrowContract MoneroError EscrowTransition :=
  let* _ := ensure_xmr "round3 only valid for XMR" in
  let* _ := ensure_state [XmrMsigR2; XmrMsigR3] "set_arbiter_round3" in
  let* missing := sget (fun c => any_none [xmr_r2_buyer c; xmr_r2_seller c; xmr_r2_arbiter c]) in
  let* _ := slift (fail_if missing (MissingData "round2 data incomplete")) in
  let* prev := sget state in
  let* _ := set_once slot_r3_arbiter multisig_info true "xmr_r3_arbiter" in
  let* _ := smodify (set_state XmrMsigR3) in
  transition prev "xmr_r3_arbiter".

Definition submit_round3 (who : EscrowParticipant) (multisig_info : string)
    : M EscrowContract MoneroError EscrowTransition :=
  let* _ := ensure_xmr "round3 only valid for XMR" in
  let* prev := sget state in
  let* _ := ensure_state [XmrMsigR3] "submit_round3" in
  let* _ :=
    match who with
    | Buyer => set_once slot_r3_buyer multisig_info true "xmr_r3_buyer"
    | Seller => set_once slot_r3_seller multisig_info true "xmr_r3_seller"
    | Arbiter => sfail (InvalidArgument "arbiter should use set_arbiter_round3")
    end in
  transition prev "xmr_r3".

Definition set_deposit_address (address : string) : M EscrowContract MoneroError EscrowTransition :=
  let* _ := ensure_xmr "deposit address only valid for XMR" in
  let* _ := ensure_state [XmrMsigR3; Ready] "set_deposit_address" in
  let* missing := sget (fun c => any_none [xmr_r3_buyer c; xmr_r3_seller c; xmr_r3_arbiter c]) in
  let* _ := slift (fail_if missing (MissingData "round3 data incomplete")) in
  let normalized := trim address in
  let* _ := slift (fail_if (negb (is_xmr_address normalized)) (InvalidArgument "invalid deposit address")) in
  let* prev := sget state in
  let* _ := set_once slot_deposit normalized true "deposit_address" in
  let* _ := smodify (set_state Ready) in
  transition prev "deposit_address".

Definition mark_funded (unlocked_balance : Z) : M EscrowContract MoneroError EscrowTransition :=
  let* prev := sget state in
  let* _ := ensure_state [Ready] "mark_funded" in
  let* needed := sget amount_atomic in
  let* _ := slift (fail_if (unlocked_balance <? needed) (InsufficientBalance unlocked_balance needed)) in
  let* _ := smodify (set_state Funded) in
  transition prev "funded".

(** [now] is [now_ts()]. *)
Definition open_dispute (now : Z) (who : EscrowParticipant) (reason : option string)
    : M EscrowContract MoneroError EscrowTransition :=
  let* prev := sget state in
  let* _ := ensure_state [Ready; Funded; Dispute] "open_dispute" in
  let* normalized_reason := slift (normalize_dispute_reason reason) in
  let* opened_by := sget dispute_opened_by in
  let* _ :=
    match opened_by with
    | Some existing =>
        slift (fail_if (negb (bool_decide (existing = who)))
                 (Conflict "dispute already opened by a different participant"))
    | None => smodify (set_dispute_opened_by (Some who))
    end in
  let* _ :=
    match normalized_reason with
    | Some incoming_reason =>
        let* current := sget dispute_reason in
        match current with
        | Some current =>
            slift (fail_if (negb (current =? incoming_reason)%string)
                     (Conflict "dispute reason already set to a different value"))
        | None => smodify (set_dispute_reason (Some incoming_reason))
        end
    | None => sret tt
    end in
  let* opened_at := sget dispute_opened_at in
  let* _ := match opened_at with
            | None => smodify (set_dispute_opened_at (Some now))
            | Some _ => sret tt
            end in
  let* _ := smodify (set_state Dispute) in
  transition prev "dispute".

Definition confirm_release (who : EscrowParticipant) (txid : option string)
    : M EscrowContract MoneroError (EscrowTransition * Z) :=
  let* prev := sget state in
  let* _ := slift (fail_if (bool_decide (prev = Refunded)) (InvalidArgument "escrow already refunded")) in
  let* _ := ensure_state [Funded; Dispute; Released] "confirm_release" in
  let* _ :=
    match txid with
    | Some v =>
        let* _ := slift (validate_txid v) in
        set_once slot_release_txid v true "release_txid"
    | None => sret tt
    end in
  let* _ := smodify (fun c => set_release_confirmations ({[who]} ∪ release_confirmations c) c) in
  let* n := sget (fun c => Z.of_nat (size (release_confirmations c))) in
  let* _ := if 2 <=? n then smodify (set_state Released) else sret tt in
  let* t := transition prev "release_confirm" in
  sret (t, n).

Definition confirm_refund (who : EscrowParticipant) (txid : option string)
    : M EscrowContract MoneroError (EscrowTransition * Z) :=
  let* prev := sget state in
  let* _ := slift (fail_if (bool_decide (prev = Released)) (InvalidArgument "escrow already released")) in
  let* _ := ensure_state [Funded; Dispute; Refunded] "confirm_refund" in
  let* _ :=
    match txid with
    | Some v =>
        let* _ := slift (validate_txid v) in
        set_once slot_refund_txid v true "refund_txid"
    | None => sret tt
    end in
  let* _ := smodify (fun c => set_refund_confirmations ({[who]} ∪ refund_confirmations c) c) in
  let* n := sget (fun c => Z.of_nat (size (refund_confirmations c))) in
  let* _ := if 2 <=? n then smodify (set_state Refunded) else sret tt in
  let* t := transition prev "refund_confirm" in
  sret (t, n).

(** *** Snapshots for storage *)

Definition import_dispute_snapshot (opened_by : option EscrowParticipant) (reason : option string)
    (opened_at : option Z) : M EscrowContract MoneroError unit :=
  let* _ := slift match opened_at with
                  | Some ts => fail_if (ts <=? 0) (InvalidArgument "dispute_opened_at must be > 0")
                  | None => Ok tt
                  end in
  let* _ := smodify (set_dispute_opened_by opened_by) in
  let* reason := slift (normalize_dispute_reason reason) in
  let* _ := smodify (set_dispute_reason reason) in
  smodify (set_dispute_opened_at opened_at).

Definition dispute_snapshot (c : EscrowContract)
    : option EscrowParticipant * option string * option Z :=
  (dispute_opened_by c, dispute_reason c, dispute_opened_at c).

Definition confirmations_of (buyer seller arbiter : bool) : gset EscrowParticipant :=
  (if buyer then {[Buyer]} else ∅) ∪ (if seller then {[Seller]} else ∅)
  ∪ (if arbiter then {[Arbiter]} else ∅).

Definition import_release_snapshot (buyer seller arbiter : bool) (txid : option string)
    : M EscrowContract MoneroError unit :=
  let* _ := smodify (set_release_confirmations (confirmations_of buyer seller arbiter)) in
  match txid with
  | Some v =>
      let* _ := slift (validate_txid v) in
      smodify (set_release_txid (Some v))
  | None => smodify (set_release_txid None)
  end.

Definition release_snapshot (c : EscrowContract) : bool * bool * bool * option string :=
  (bool_decide (Buyer ∈ release_confirmations c), bool_decide (Seller ∈ release_confirmations c),
   bool_decide (Arbiter ∈ release_confirmations c), release_txid c).

Definition import_refund_snapshot (buyer seller arbiter : bool) (txid : option string)
    : M EscrowContract MoneroError unit :=
  let* _ := smodify (set_refund_confirmations (confirmations_of buyer seller arbiter)) in
  match txid with
  | Some v =>
      let* _ := slift (validate_txid v) in
      smodify (set_refund_txid (Some v))
  | None => smodify (set_refund_txid None)
  end.

Definition refund_snapshot (c : EscrowContract) : bool * bool * bool * option string :=
  (bool_decide (Buyer ∈ refund_confirmations c), bool_decide (Seller ∈ refund_confirmations c),
   bool_decide (Arbiter ∈ refund_confirmations c), refund_txid c).

Definition report (c : EscrowContract) : EscrowReport :=
  MkReport (id c) (state c) (Z.of_nat (size (release_confirmations c)))
    (Z.of_nat (size (refund_confirmations c))) (deposit_address c) (release_txid c) (refund_txid c)
    (dispute_opened_by c) (dispute_reason c) (dispute_opened_at c).

End operations.
