(* ===== verification/EscrowRefine.v ===== *)
(** * The escrow contract as guarded writes

    The relation [cstep] says which single field of a contract may be written
    when; [op_call] shows that every call of [Escrow.v], whether it returns or
    fails, is a sequence of such writes, and [run_escrow_steps] the same of any
    sequence of calls. *)

From S2P Require Import Prelude RustString XmrAddress Escrow.

(** Case analysis on the state a guard allows. *)
Ltac state_cases H :=
  rewrite ?elem_of_cons, ?elem_of_nil in H;
  repeat match type of H with _ \/ _ => destruct H as [H|H] end; try done.
(** Membership of a slot or a state in a list. *)
Ltac slot_in := repeat first [apply list_elem_of_here | apply list_elem_of_further].

Section contract.
Context (keccak256 : list Z -> list Z).
Notation valid_address := (is_valid_xmr_address keccak256).

(** ** Guarded writes *)

Definition round1_slots : list field := [slot_r1_buyer; slot_r1_seller; slot_r1_arbiter].
Definition round2_slots : list field := [slot_r2_buyer; slot_r2_seller; slot_r2_arbiter].
Definition round3_slots : list field := [slot_r3_buyer; slot_r3_seller; slot_r3_arbiter].
(** Every field of the slots is filled. *)
Definition complete (slots : list field) (c : EscrowContract) : Prop :=
  any_none (map (fun f => fget f c) slots) = false.

Definition txid_ok (t : string) : Prop := len t = 64 /\ sall is_ascii_hexdigit t = true.

(** A reason as it is stored. *)
Definition reason_ok (r : string) : Prop :=
  trim r = r /\ r <> ""%string /\ len r <= MAX_DISPUTE_REASON_LEN.

Definition settle_release (who : EscrowParticipant) (c : EscrowContract) : EscrowContract :=
  let c := set_release_confirmations ({[who]} ∪ release_confirmations c) c in
  if 2 <=? Z.of_nat (size (release_confirmations c)) then set_state Released c else c.
Definition settle_refund (who : EscrowParticipant) (c : EscrowContract) : EscrowContract :=
  let c := set_refund_confirmations ({[who]} ∪ refund_confirmations c) c in
  if 2 <=? Z.of_nat (size (refund_confirmations c)) then set_state Refunded c else c.

(** ** Calls

    The calls of the parties, the arbiter and the funding watcher.  The three
    [import_*_snapshot] methods are not among them: they restore stored data into a
    fresh contract (the bridge does so before each of its calls) and are dealt with
    in [EscrowProps]. *)

Inductive EscrowOp : Type :=
| OpArbiterR1 (info : string)
| OpSubmitR1 (who : EscrowParticipant) (info : string) (refund : option string)
| OpArbiterR2 (info : string)
| OpSubmitR2 (who : EscrowParticipant) (info : string)
| OpArbiterR3 (info : string)
| OpSubmitR3 (who : EscrowParticipant) (info : string)
| OpDeposit (address : string)
| OpFunded (unlocked_balance : Z)
| OpDispute (now : Z) (who : EscrowParticipant) (reason : option string)
| OpRelease (who : EscrowParticipant) (txid : option string)
| OpRefund (who : EscrowParticipant) (txid : option string).

Section guarded.
(** The parties a step may record as confirming a release or a refund. *)
Context (R F : EscrowParticipant -> Prop).

Inductive cstep (c : EscrowContract) : EscrowContract -> Prop :=
| CsRound1 slot v :
    slot ∈ round1_slots -> state c ∈ [New; XmrMsigR1] -> fget slot c = None ->
    trim v <> ""%string -> cstep c (fset slot (Some v) c)
| CsRound2 slot v :
    slot ∈ round2_slots -> state c ∈ [XmrMsigR1; XmrMsigR2] -> fget slot c = None ->
    trim v <> ""%string -> cstep c (fset slot (Some v) c)
| CsRound3 slot v :
    slot ∈ round3_slots -> state c ∈ [XmrMsigR2; XmrMsigR3] -> fget slot c = None ->
    trim v <> ""%string -> cstep c (fset slot (Some v) c)
| CsRefundAddress slot a :
    slot ∈ [slot_refund_buyer; slot_refund_seller] -> state c ∈ [New; XmrMsigR1] ->
    fget slot c = None -> valid_address a = true -> cstep c (fset slot (Some a) c)
| CsDeposit a :
    state c ∈ [XmrMsigR3; Ready] -> complete round3_slots c -> deposit_address c = None ->
    valid_address a = true -> cstep c (set_deposit_address_field (Some a) c)
| CsEnterR1 : state c ∈ [New; XmrMsigR1] -> cstep c (set_state XmrMsigR1 c)
| CsEnterR2 :
    state c ∈ [XmrMsigR1; XmrMsigR2] -> complete round1_slots c -> cstep c (set_state XmrMsigR2 c)
| CsEnterR3 :
    state c ∈ [XmrMsigR2; XmrMsigR3] -> complete round2_slots c -> cstep c (set_state XmrMsigR3 c)
| CsEnterReady a :
    state c ∈ [XmrMsigR3; Ready] -> complete round3_slots c -> deposit_address c = Some a ->
    valid_address a = true -> cstep c (set_state Ready c)
| CsFunded balance : state c = Ready -> amount_atomic c <= balance -> cstep c (set_state Funded c)
| CsDisputeBy who :
    state c ∈ [Ready; Funded; Dispute] -> dispute_opened_by c = None ->
    cstep c (set_dispute_opened_by (Some who) c)
| CsDisputeReason who r :
    state c ∈ [Ready; Funded; Dispute] -> dispute_opened_by c = Some who -> dispute_reason c = None ->
    reason_ok r -> cstep c (set_dispute_reason (Some r) c)
| CsDisputeAt who t :
    state c ∈ [Ready; Funded; Dispute] -> dispute_opened_by c = Some who -> dispute_opened_at c = None ->
    cstep c (set_dispute_opened_at (Some t) c)
| CsEnterDispute who t :
    state c ∈ [Ready; Funded; Dispute] -> dispute_opened_by c = Some who ->
    dispute_opened_at c = Some t -> cstep c (set_state Dispute c)
| CsReleaseTxid v :
    state c ∈ [Funded; Dispute; Released] -> release_txid c = None -> txid_ok v ->
    cstep c (set_release_txid (Some v) c)
| CsRefundTxid v :
    state c ∈ [Funded; Dispute; Refunded] -> refund_txid c = None -> txid_ok v ->
    cstep c (set_refund_txid (Some v) c)
| CsRelease who : R who -> state c ∈ [Funded; Dispute; Released] -> cstep c (settle_release who c)
| CsRefund who : F who -> state c ∈ [Funded; Dispute; Refunded] -> cstep c (settle_refund who c).

(** *** The protocol document

    The transitions of [docs/reference/ESCROW_PROTOCOL_V1.md], with what each of
    them waits for, for a call [called] that leads from [c] to [c'], and staying put.
    [required] is the document's [required_funding_atomic], the amount with the fee
    reserve, which the contract does not know. *)

Context (required : Z) (called : EscrowOp).

Inductive documented (c c' : EscrowContract) : Prop :=
| DocStay : state c' = state c -> documented c c'
| DocR1 : state c = New -> state c' = XmrMsigR1 -> is_Some (xmr_r1_arbiter c') -> documented c c'
| DocR2 : state c = XmrMsigR1 -> state c' = XmrMsigR2 -> complete round1_slots c' -> is_Some (xmr_r2_arbiter c') -> documented c c'
| DocR3 : state c = XmrMsigR2 -> state c' = XmrMsigR3 -> complete round2_slots c' -> is_Some (xmr_r3_arbiter c') -> documented c c'
| DocReady : state c = XmrMsigR3 -> state c' = Ready -> complete round3_slots c' -> is_Some (deposit_address c') -> documented c c'
| DocFunded balance : called = OpFunded balance -> state c = Ready -> state c' = Funded -> required <= balance -> documented c c'
| DocDispute : state c ∈ [Ready; Funded] -> state c' = Dispute -> is_Some (dispute_opened_by c') -> documented c c'
| DocReleased : state c ∈ [Funded; Dispute] -> state c' = Released -> (2 <= size (release_confirmations c'))%nat -> documented c c'
| DocRefunded : state c ∈ [Funded; Dispute] -> state c' = Refunded -> (2 <= size (refund_confirmations c'))%nat -> documented c c'.

(** Where the code moves although the document's condition does not hold: a
    contribution of a party starts round 1 before the arbiter's is there, and a
    balance that covers the amount but not the fee reserve funds the contract. *)
Inductive deviates (c c' : EscrowContract) : Prop :=
| DevEarlyR1 who info refund : called = OpSubmitR1 who info refund -> state c = New -> state c' = XmrMsigR1 -> xmr_r1_arbiter c' = None -> deviates c c'
| DevUnderfunded balance : called = OpFunded balance -> state c = Ready -> state c' = Funded -> amount_atomic c <= balance < required -> deviates c c'.

Definition conforms (c c' : EscrowContract) : Prop := documented c c' \/ deviates c c'.

Lemma conforms_stay c c' : state c' = state c -> conforms c c'.
Proof. intros E. left. by apply DocStay. Qed.
(** A step of the document, or no step, by the state [H] the guard allows. *)
Ltac doc H rule := state_cases H; first [apply conforms_stay; simpl; congruence | left; apply rule; simpl; first [by eexists | done | rewrite H; slot_in]].

(** ** Running a call *)

Definition run_escrow_op (op : EscrowOp) : M EscrowContract MoneroError EscrowTransition :=
  match op with
  | OpArbiterR1 i => set_arbiter_round1 i
  | OpSubmitR1 w i r => submit_round1 keccak256 w i r
  | OpArbiterR2 i => set_arbiter_round2 i
  | OpSubmitR2 w i => submit_round2 w i
  | OpArbiterR3 i => set_arbiter_round3 i
  | OpSubmitR3 w i => submit_round3 w i
  | OpDeposit a => set_deposit_address keccak256 a
  | OpFunded b => mark_funded b
  | OpDispute t w r => open_dispute t w r
  | OpRelease w x => let* r := confirm_release w x in sret r.1
  | OpRefund w x => let* r := confirm_refund w x in sret r.1
  end.

Definition run_escrow (ops : list EscrowOp) (c : EscrowContract) : EscrowContract :=
  foldl (fun c op => (run_escrow_op op c).1) c ops.

(** ** Each call is a sequence of guarded writes

    [call_ok c0 c r]: starting from [c0] the call has led to [c] by guarded
    writes; its answer names the states before and after, between which the
    document, or one of the two deviations, allows to move, and a failing call leaves the state of the automaton as it was. *)

Definition call_ok (c0 c : EscrowContract) (r : result MoneroError EscrowTransition) : Prop :=
  rtc cstep c0 c /\
  match r with
  | Ok t => et_from t = state c0 /\ et_to t = state c /\ conforms c0 c
  | Err _ => state c = state c0
  end.

Lemma wp_transition prev action c0 c :
  rtc cstep c0 c -> prev = state c0 -> conforms c0 c ->
  wp (transition prev action) c (call_ok c0).
Proof. by intros ? ->. Qed.

Lemma call_err c0 c e : rtc cstep c0 c -> state c = state c0 -> call_ok c0 c (Err e).
Proof. by split. Qed.

Lemma wp_ensure_xmr {A} msg (k : unit -> M EscrowContract MoneroError A) c Q :
  (asset c = Xmr -> wp (k tt) c Q) -> (forall e, Q c (Err e)) -> wp (sbind (ensure_xmr msg) k) c Q.
Proof.
  intros Hk He. apply wp_assoc, wp_get, wp_guard; [|by intros _].
  intros Ha%negb_false_iff%bool_decide_eq_true_1. auto.
Qed.

Lemma wp_ensure_state {A} allowed op (k : unit -> M EscrowContract MoneroError A) c Q :
  (state c ∈ allowed -> wp (k tt) c Q) -> (forall e, Q c (Err e)) ->
  wp (sbind (ensure_state allowed op) k) c Q.
Proof.
  intros Hk He. apply wp_assoc, wp_get, wp_guard; [|by intros _].
  intros Ha%negb_false_iff%bool_decide_eq_true_1. auto.
Qed.

Lemma wp_set_once {A} slot v label (k : unit -> M EscrowContract MoneroError A) c Q :
  (fget slot c = None -> trim v <> ""%string -> wp (k tt) (fset slot (Some v) c) Q) ->
  (fget slot c = Some v -> wp (k tt) c Q) -> (forall e, Q c (Err e)) ->
  wp (sbind (set_once slot v true label) k) c Q.
Proof.
  intros Hn Hs He. apply wp_assoc, wp_guard; [|by intros _]. intros Hv%is_empty_false.
  apply wp_assoc, wp_get. destruct (fget slot c) as [cur|] eqn:E; [|by apply wp_modify, Hn].
  apply wp_guard; [|by intros _]. intros ->%negb_false_iff%String.eqb_eq. auto.
Qed.

Lemma wp_set_refund {A} slot r label (k : unit -> M EscrowContract MoneroError A) c Q :
  (forall a, fget slot c = None -> valid_address a = true -> wp (k tt) (fset slot (Some a) c) Q) ->
  wp (k tt) c Q -> (forall e, Q c (Err e)) ->
  wp (sbind (set_refund_once keccak256 slot r label) k) c Q.
Proof.
  intros Hn Hs He. unfold set_refund_once. destruct r as [refund|]; [|done]. cbv zeta.
  destruct (is_empty (trim refund)); [done|].
  apply wp_assoc, wp_guard; [|by intros _]. intros Hv%negb_false_iff.
  apply wp_assoc, wp_get. destruct (fget slot c) as [cur|] eqn:E; [|by apply wp_modify, Hn].
  apply wp_guard; by intros _.
Qed.

(** Closes the goal of a failing branch before anything was written. *)
Ltac call_fails := by intros; apply call_err.
Ltac call_xmr := apply wp_ensure_xmr; [intros _|call_fails].
Ltac call_state Hs := apply wp_ensure_state; [intros Hs|call_fails].
Lemma arbiter_r1_call i c : wp (set_arbiter_round1 i) c (call_ok c).
Proof.
  call_xmr. apply wp_get. call_state Hs.
  apply wp_set_once; [intros Hn Hv|intros Hd|call_fails]; apply wp_modify, wp_transition; try done; try doc Hs DocR1.
  - eapply rtc_l; [apply (CsRound1 _ slot_r1_arbiter i); [slot_in|done..]|]. by apply rtc_once, CsEnterR1.
  - by apply rtc_once, CsEnterR1.
Qed.

Lemma early_r1 who i r c c' : called = OpSubmitR1 who i r -> state c ∈ [New; XmrMsigR1] -> state c' = XmrMsigR1 -> conforms c c'.
Proof.
  intros Hop Hs Hc'. state_cases Hs; [|apply conforms_stay; congruence].
  destruct (xmr_r1_arbiter c') eqn:E; [left; apply DocR1; try done; rewrite E; by eexists|right; by eapply DevEarlyR1].
Qed.

(** A round slot, then the refund address, then the state. *)
Lemma submit_r1_party who slot refund_slot i r label label' c :
  called = OpSubmitR1 who i r -> slot ∈ round1_slots -> refund_slot ∈ [slot_refund_buyer; slot_refund_seller] ->
  state c ∈ [New; XmrMsigR1] ->
  wp (let* _ := (let* _ := set_once slot i true label in
                 set_refund_once keccak256 refund_slot r label') in
      let* _ := smodify (set_state XmrMsigR1) in
      transition (state c) "xmr_r1") c (call_ok c).
Proof.
  intros Hop Hslot Hrs Hs. apply wp_assoc.
  assert (forall c1, rtc cstep c c1 -> state c1 = state c ->
    wp (let* _ := set_refund_once keccak256 refund_slot r label' in
        let* _ := smodify (set_state XmrMsigR1) in
        transition (state c) "xmr_r1") c1 (call_ok c)) as Hrest.
  { intros c1 H1 E1. apply wp_set_refund; [intros a Hn Ha| |intros e; by apply call_err];
      apply wp_modify, wp_transition; try done; try by eapply early_r1.
    - eapply rtc_r; [eapply rtc_r; [exact H1|]|].
      + apply (CsRefundAddress _ refund_slot a); by try rewrite E1.
      + apply CsEnterR1. rewrite !elem_of_cons, elem_of_nil in Hrs.
        destruct Hrs as [->|[->|[]]]; simpl; by rewrite E1.
    - eapply rtc_r; [exact H1|]. apply CsEnterR1. by rewrite E1. }
  apply wp_set_once; [intros Hn Hv|intros _|call_fails]; apply Hrest; try done.
  - by apply rtc_once, CsRound1.
  - unfold round1_slots in Hslot. rewrite !elem_of_cons, elem_of_nil in Hslot.
    by destruct Hslot as [->|[->|[->|[]]]].
Qed.

Lemma submit_r1_call w i r c : called = OpSubmitR1 w i r -> wp (submit_round1 keccak256 w i r) c (call_ok c).
Proof.
  intros Hop. call_xmr. apply wp_get. call_state Hs. destruct w.
  - eapply submit_r1_party; [exact Hop|slot_in..|done].
  - eapply submit_r1_party; [exact Hop|slot_in..|done].
  - apply wp_fail. call_fails.
Qed.

Lemma arbiter_r2_call i c : wp (set_arbiter_round2 i) c (call_ok c).
Proof.
  call_xmr. call_state Hs. apply wp_get, wp_guard; [intros Hc|call_fails]. apply wp_get.
  apply wp_set_once; [intros Hn Hv|intros Hd|call_fails]; apply wp_modify, wp_transition; try done; try doc Hs DocR2.
  - eapply rtc_l; [apply (CsRound2 _ slot_r2_arbiter i); [slot_in|done..]|]. by apply rtc_once, CsEnterR2.
  - by apply rtc_once, CsEnterR2.
Qed.

Lemma submit_r2_call w i c : wp (submit_round2 w i) c (call_ok c).
Proof.
  call_xmr. apply wp_get. call_state Hs.
  assert (state c ∈ [XmrMsigR1; XmrMsigR2]) as Hs' by by apply list_elem_of_further.
  destruct w; [| |apply wp_fail; call_fails];
    (apply wp_set_once; [intros Hn Hv|intros _|call_fails]; apply wp_transition; try done; try (by apply conforms_stay);
     apply rtc_once; eapply CsRound2; [slot_in|done..]).
Qed.

Lemma arbiter_r3_call i c : wp (set_arbiter_round3 i) c (call_ok c).
Proof.
  call_xmr. call_state Hs. apply wp_get, wp_guard; [intros Hc|call_fails]. apply wp_get.
  apply wp_set_once; [intros Hn Hv|intros Hd|call_fails]; apply wp_modify, wp_transition; try done; try doc Hs DocR3.
  - eapply rtc_l; [apply (CsRound3 _ slot_r3_arbiter i); [slot_in|done..]|]. by apply rtc_once, CsEnterR3.
  - by apply rtc_once, CsEnterR3.
Qed.

Lemma submit_r3_call w i c : wp (submit_round3 w i) c (call_ok c).
Proof.
  call_xmr. apply wp_get. call_state Hs.
  assert (state c ∈ [XmrMsigR2; XmrMsigR3]) as Hs' by by apply list_elem_of_further.
  destruct w; [| |apply wp_fail; call_fails];
    (apply wp_set_once; [intros Hn Hv|intros _|call_fails]; apply wp_transition; try done; try (by apply conforms_stay);
     apply rtc_once; eapply CsRound3; [slot_in|done..]).
Qed.

Lemma deposit_call a c : wp (set_deposit_address keccak256 a) c (call_ok c).
Proof.
  call_xmr. call_state Hs. apply wp_get, wp_guard; [intros Hc|call_fails].
  apply wp_guard; [intros Ha%negb_false_iff|call_fails]. apply wp_get.
  apply wp_set_once; [intros Hn Hv|intros Hd|call_fails]; apply wp_modify, wp_transition; try done; try doc Hs DocReady.
  - eapply rtc_l; [by apply (CsDeposit _ (trim a))|]. by eapply rtc_once, CsEnterReady.
  - by eapply rtc_once, CsEnterReady.
Qed.

Lemma funded_call b c : called = OpFunded b -> wp (mark_funded b) c (call_ok c).
Proof.
  intros Hop. apply wp_get. call_state Hs. apply wp_get, wp_guard; [intros Hb%Z.ltb_ge|call_fails].
  apply list_elem_of_singleton in Hs.
  apply wp_modify, wp_transition; [by eapply rtc_once, CsFunded|done|].
  destruct (Z.le_gt_cases required b); [left; by eapply DocFunded|right; by eapply DevUnderfunded].
Qed.

Lemma reason_normal r r' : normalize_dispute_reason r = Ok (Some r') -> reason_ok r'.
Proof.
  unfold normalize_dispute_reason. destruct r as [raw|]; [|done]. cbv zeta.
  destruct (is_empty (trim raw)) eqn:E; [done|]. intros Hr. rok.
  unfold reason_ok. splits; [apply trim_idem|by apply is_empty_false|by apply Z.ltb_ge].
Qed.

(** The last two writes of [open_dispute]. *)
Lemma dispute_tail now who c0 c :
  rtc cstep c0 c -> state c = state c0 -> state c0 ∈ [Ready; Funded; Dispute] ->
  dispute_opened_by c = Some who ->
  wp (let* opened_at := sget dispute_opened_at in
      let* _ := match opened_at with
                | None => smodify (set_dispute_opened_at (Some now))
                | Some _ => sret tt
                end in
      let* _ := smodify (set_state Dispute) in
      transition (state c0) "dispute") c (call_ok c0).
Proof.
  intros Hr E Hs Hw. apply wp_get. destruct (dispute_opened_at c) as [t|] eqn:Et.
  - apply wp_ret, wp_modify, wp_transition; [|done|doc Hs DocDispute]. eapply rtc_r; [exact Hr|].
    by apply (CsEnterDispute _ who t); try rewrite E.
  - apply wp_modify, wp_modify, wp_transition; [|done|doc Hs DocDispute].
    eapply rtc_r; [eapply rtc_r; [exact Hr|]|].
    + by apply (CsDisputeAt _ who now); try rewrite E.
    + apply (CsEnterDispute _ who now); simpl; by rewrite ?E.
Qed.

Lemma dispute_call now who reason c : wp (open_dispute now who reason) c (call_ok c).
Proof.
  apply wp_get. call_state Hs. apply wp_lift; [intros nr Hnr|call_fails]. apply wp_get.
  assert (forall c1, rtc cstep c c1 -> state c1 = state c -> dispute_opened_by c1 = Some who ->
    wp (let* _ := match nr with
          | Some incoming_reason =>
              let* current := sget dispute_reason in
              match current with
              | Some current => slift (fail_if (negb (current =? incoming_reason)%string)
                  (Conflict "dispute reason already set to a different value"))
              | None => smodify (set_dispute_reason (Some incoming_reason))
              end
          | None => sret tt
          end in
        let* opened_at := sget dispute_opened_at in
        let* _ := match opened_at with
                  | None => smodify (set_dispute_opened_at (Some now))
                  | Some _ => sret tt
                  end in
        let* _ := smodify (set_state Dispute) in
        transition (state c) "dispute") c1 (call_ok c)) as Hrest.
  { intros c1 H1 E1 Hw. destruct nr as [r|]; [|by apply wp_ret, (dispute_tail now who)].
    apply wp_assoc, wp_get. destruct (dispute_reason c1) as [cur|] eqn:Er.
    - apply wp_guard; [intros _; by apply (dispute_tail now who)|intros _; by apply call_err].
    - apply wp_modify, (dispute_tail now who); try done. eapply rtc_r; [exact H1|].
      apply (CsDisputeReason _ who r); rewrite ?E1; try done. by eapply reason_normal. }
  destruct (dispute_opened_by c) as [existing|] eqn:Eb.
  - apply wp_guard; [|call_fails]. intros ->%negb_false_iff%bool_decide_eq_true_1. by apply Hrest.
  - apply wp_modify, Hrest; try done. by apply rtc_once, CsDisputeBy.
Qed.

Lemma validate_txid_ok t u : validate_txid t = Ok u -> txid_ok t.
Proof.
  intros H%fail_if_ok. apply negb_false_iff, andb_true_iff in H as [H%Z.eqb_eq ?]. done.
Qed.

Lemma release_tail who c0 c :
  R who -> rtc cstep c0 c -> state c = state c0 -> state c0 ∈ [Funded; Dispute; Released] ->
  wp (let* r :=
        (let* _ := smodify (fun c => set_release_confirmations ({[who]} ∪ release_confirmations c) c) in
         let* n := sget (fun c => Z.of_nat (size (release_confirmations c))) in
         let* _ := if 2 <=? n then smodify (set_state Released) else sret tt in
         let* t := transition (state c0) "release_confirm" in
         sret (t, n)) in sret r.1) c (call_ok c0).
Proof.
  intros Hw Hr E Hs. apply wp_assoc, wp_modify, wp_assoc, wp_get.
  assert (rtc cstep c0 (settle_release who c)) as Hset.
  { eapply rtc_r; [exact Hr|]. apply CsRelease; [done|]. by rewrite E. }
  unfold settle_release in Hset. cbv zeta in Hset.
  destruct (2 <=? _) eqn:E2.
  - apply wp_assoc, wp_modify. split; [done|]. split; [done|]. split; [done|]. apply Z.leb_le in E2.
    state_cases Hs; first [apply conforms_stay; simpl; congruence | left; apply DocReleased; [rewrite Hs; slot_in|done|apply Nat2Z.inj_le; exact E2]].
  - apply wp_assoc, wp_ret. split; [done|]. split; [done|]. split; [done|]. by apply conforms_stay.
Qed.

Lemma refund_tail who c0 c :
  F who -> rtc cstep c0 c -> state c = state c0 -> state c0 ∈ [Funded; Dispute; Refunded] ->
  wp (let* r :=
        (let* _ := smodify (fun c => set_refund_confirmations ({[who]} ∪ refund_confirmations c) c) in
         let* n := sget (fun c => Z.of_nat (size (refund_confirmations c))) in
         let* _ := if 2 <=? n then smodify (set_state Refunded) else sret tt in
         let* t := transition (state c0) "refund_confirm" in
         sret (t, n)) in sret r.1) c (call_ok c0).
Proof.
  intros Hw Hr E Hs. apply wp_assoc, wp_modify, wp_assoc, wp_get.
  assert (rtc cstep c0 (settle_refund who c)) as Hset.
  { eapply rtc_r; [exact Hr|]. apply CsRefund; [done|]. by rewrite E. }
  unfold settle_refund in Hset. cbv zeta in Hset.
  destruct (2 <=? _) eqn:E2.
  - apply wp_assoc, wp_modify. split; [done|]. split; [done|]. split; [done|]. apply Z.leb_le in E2.
    state_cases Hs; first [apply conforms_stay; simpl; congruence | left; apply DocRefunded; [rewrite Hs; slot_in|done|apply Nat2Z.inj_le; exact E2]].
  - apply wp_assoc, wp_ret. split; [done|]. split; [done|]. split; [done|]. by apply conforms_stay.
Qed.

Lemma release_call who txid c :
  R who -> wp (let* r := confirm_release who txid in sret r.1) c (call_ok c).
Proof.
  intros Hw. apply wp_assoc, wp_get, wp_assoc, wp_guard; [intros _|call_fails]. apply wp_assoc. call_state Hs.
  destruct txid as [v|]; [|by apply wp_assoc, wp_ret, release_tail].
  apply wp_assoc, wp_assoc, wp_lift; [intros u Hv%validate_txid_ok|call_fails].
  apply wp_set_once; [intros Hn _|intros _|call_fails]; apply release_tail; try done.
  by apply rtc_once, CsReleaseTxid.
Qed.

Lemma refund_call who txid c :
  F who -> wp (let* r := confirm_refund who txid in sret r.1) c (call_ok c).
Proof.
  intros Hw. apply wp_assoc, wp_get, wp_assoc, wp_guard; [intros _|call_fails]. apply wp_assoc. call_state Hs.
  destruct txid as [v|]; [|by apply wp_assoc, wp_ret, refund_tail].
  apply wp_assoc, wp_assoc, wp_lift; [intros u Hv%validate_txid_ok|call_fails].
  apply wp_set_once; [intros Hn _|intros _|call_fails]; apply refund_tail; try done.
  by apply rtc_once, CsRefundTxid.
Qed.

End guarded.

(** Who confirms by a call. *)
Definition releases (op : EscrowOp) (who : EscrowParticipant) : Prop :=
  exists txid, op = OpRelease who txid.
Definition refunds (op : EscrowOp) (who : EscrowParticipant) : Prop :=
  exists txid, op = OpRefund who txid.

Lemma op_call required op c : wp (run_escrow_op op) c (call_ok (releases op) (refunds op) required op c).
Proof.
  destruct op; simpl; auto using arbiter_r1_call, submit_r1_call, arbiter_r2_call, submit_r2_call,
    arbiter_r3_call, submit_r3_call, deposit_call, funded_call, dispute_call.
  - apply release_call. by eexists.
  - apply refund_call. by eexists.
Qed.

Lemma cstep_mono (R F R' F' : EscrowParticipant -> Prop) c c' :
  (forall w, R w -> R' w) -> (forall w, F w -> F' w) -> cstep R F c c' -> cstep R' F' c c'.
Proof.
  intros HR HF.
  destruct 1; [eapply CsRound1|eapply CsRound2|eapply CsRound3|eapply CsRefundAddress|eapply CsDeposit
    |eapply CsEnterR1|eapply CsEnterR2|eapply CsEnterR3|eapply CsEnterReady|eapply CsFunded
    |eapply CsDisputeBy|eapply CsDisputeReason|eapply CsDisputeAt|eapply CsEnterDispute
    |eapply CsReleaseTxid|eapply CsRefundTxid|eapply CsRelease|eapply CsRefund]; eauto.
Qed.

Lemma csteps_mono (R F R' F' : EscrowParticipant -> Prop) c c' :
  (forall w, R w -> R' w) -> (forall w, F w -> F' w) -> rtc (cstep R F) c c' -> rtc (cstep R' F') c c'.
Proof. intros HR HF. apply rtc_subrel. intros x y. by apply cstep_mono. Qed.

Lemma run_escrow_steps ops c :
  rtc (cstep (fun w => exists op, op ∈ ops /\ releases op w)
             (fun w => exists op, op ∈ ops /\ refunds op w)) c (run_escrow ops c).
Proof.
  revert c. induction ops as [|op ops IH]; intros c; [done|]. cbn [run_escrow foldl].
  etrans; [eapply csteps_mono; [..|apply (op_call 0 op c)]|eapply csteps_mono; [..|apply IH]].
  - intros w Hw. exists op. split; [by left|done].
  - intros w Hw. exists op. split; [by left|done].
  - intros w (o & ? & ?). exists o. split; [by right|done].
  - intros w (o & ? & ?). exists o. split; [by right|done].
Qed.

End contract.
