(* ===== verification/EscrowProps.v ===== *)
(** * Properties of the escrow contract

    The invariant [contract_ok] and what never changes ([contract_evolves]) are
    proved once per rule of [EscrowRefine.v] and hold of every sequence of
    calls; then the snapshots, a run to the end, and the theorems. *)

From S2P Require Import Prelude RustString XmrAddress Escrow EscrowRefine.

Section contract.
Context (keccak256 : list Z -> list Z).
#[local] Notation valid_address := (is_valid_xmr_address keccak256).
#[local] Notation cstep := (cstep keccak256).

(** ** The invariant *)

#[local] Arguments size : simpl never.
#[local] Arguments union : simpl never.
#[local] Arguments empty : simpl never.

Definition rank (s : EscrowState) : Z :=
  match s with
  | New => 0 | XmrMsigR1 => 1 | XmrMsigR2 => 2 | XmrMsigR3 => 3 | Ready => 4
  | Funded | Dispute => 5 | Released | Refunded => 6 | Closed => 7
  end.

Record contract_ok (c : EscrowContract) : Prop := ContractOk {
  ok_asset : asset c = Xmr;
  ok_open : state c <> Closed;
  ok_round1 : 2 <= rank (state c) -> complete round1_slots c;
  ok_round2 : 3 <= rank (state c) -> complete round2_slots c;
  ok_round3 : 4 <= rank (state c) -> complete round3_slots c;
  ok_deposit : 4 <= rank (state c) -> exists a, deposit_address c = Some a /\ valid_address a = true;
  ok_refund : forall a, refund_address_buyer c = Some a \/ refund_address_seller c = Some a ->
    valid_address a = true;
  ok_txid : forall t, release_txid c = Some t \/ refund_txid c = Some t -> txid_ok t;
  ok_released : state c = Released <-> (2 <= size (release_confirmations c))%nat;
  ok_refunded : state c = Refunded <-> (2 <= size (refund_confirmations c))%nat;
  ok_dispute : state c = Dispute ->
    is_Some (dispute_opened_by c) /\ is_Some (dispute_opened_at c);
  ok_reason : forall r, dispute_reason c = Some r ->
    is_Some (dispute_opened_by c) /\ reason_ok r;
}.

Lemma new_ok n b s a amount : contract_ok (new_xmr n b s a amount).
Proof.
  constructor; simpl; try done; try lia; try (intros ? [?|?]; done).
  all: rewrite size_empty; split; [done|lia].
Qed.

Lemma size_insert_ge (who : EscrowParticipant) (X : gset EscrowParticipant) :
  (size X <= size ({[who]} ∪ X))%nat.
Proof. apply subseteq_size, union_subseteq_r. Qed.

Ltac by_state H := state_cases H; rewrite H in *; simpl in *; (lia || done || naive_solver).

Lemma slot_write_ok slot v c :
  contract_ok c ->
  (slot ∈ round1_slots /\ state c ∈ [New; XmrMsigR1]
   \/ slot ∈ round2_slots /\ state c ∈ [XmrMsigR1; XmrMsigR2]
   \/ slot ∈ round3_slots /\ state c ∈ [XmrMsigR2; XmrMsigR3]
   \/ (slot ∈ [slot_refund_buyer; slot_refund_seller] /\ valid_address v = true)) ->
  contract_ok (fset slot (Some v) c).
Proof.
  intros [Hasset Hopen H1 H2 H3 Hdep Href Htx Hrel Hrfd Hdis Hrea] [[Hin Hs]|[[Hin Hs]|[[Hin Hs]|[Hin Ha]]]].
  1-3: unfold round1_slots, round2_slots, round3_slots in Hin;
    rewrite !elem_of_cons, elem_of_nil in Hin; destruct Hin as [->|[->|[->|[]]]];
    (constructor; first [done|exact H1|exact H2|exact H3|
       intros Hr; exfalso; simpl in Hr; state_cases Hs; rewrite Hs in Hr; simpl in Hr; lia]).
  rewrite !elem_of_cons, elem_of_nil in Hin. destruct Hin as [->|[->|[]]];
    (constructor; simpl; try done; intros a [E|E]; simplify_eq; eauto).
Qed.

Lemma enter_ok s c :
  contract_ok c -> s <> Closed -> rank (state c) < 6 -> rank s < 6 ->
  (2 <= rank s -> complete round1_slots c) -> (3 <= rank s -> complete round2_slots c) ->
  (4 <= rank s -> complete round3_slots c /\ exists a, deposit_address c = Some a /\ valid_address a = true) ->
  (s = Dispute -> is_Some (dispute_opened_by c) /\ is_Some (dispute_opened_at c)) ->
  contract_ok (set_state s c).
Proof.
  intros [Hasset Hopen _ _ _ _ Href Htx Hrel Hrfd _ Hrea] Hc Hr Hs H1 H2 H3 Hd. constructor; simpl; try done.
  - intros H. by apply H3.
  - intros H. by apply H3.
  - rewrite <- Hrel. split; intros E; rewrite E in *; simpl in *; lia.
  - rewrite <- Hrfd. split; intros E; rewrite E in *; simpl in *; lia.
Qed.

Lemma settle_release_ok who c :
  contract_ok c -> state c ∈ [Funded; Dispute; Released] -> contract_ok (settle_release who c).
Proof.
  intros [Hasset Hopen H1 H2 H3 Hdep Href Htx Hrel Hrfd Hdis Hrea] Hs. unfold settle_release. cbv zeta. cbn [release_confirmations set_release_confirmations].
  pose proof (size_insert_ge who (release_confirmations c)) as Hge.
  destruct (Z.leb_spec 2 (Z.of_nat (size ({[who]} ∪ release_confirmations c)))) as [Hl|Hl].
  - assert (4 <= rank (state c)) by by_state Hs.
    constructor; simpl; try done; eauto with lia.
    + split; [lia|done].
    + rewrite <- Hrfd. split; [done|]. intros E. by_state Hs.
  - constructor; simpl; try done. rewrite Hrel. lia.
Qed.

Lemma settle_refund_ok who c :
  contract_ok c -> state c ∈ [Funded; Dispute; Refunded] -> contract_ok (settle_refund who c).
Proof.
  intros [Hasset Hopen H1 H2 H3 Hdep Href Htx Hrel Hrfd Hdis Hrea] Hs. unfold settle_refund. cbv zeta. cbn [refund_confirmations set_refund_confirmations].
  pose proof (size_insert_ge who (refund_confirmations c)) as Hge.
  destruct (Z.leb_spec 2 (Z.of_nat (size ({[who]} ∪ refund_confirmations c)))) as [Hl|Hl].
  - assert (4 <= rank (state c)) by by_state Hs.
    constructor; simpl; try done; eauto with lia.
    + rewrite <- Hrel. split; [done|]. intros E. by_state Hs.
    + split; [lia|done].
  - constructor; simpl; try done. rewrite Hrfd. lia.
Qed.

(** The clauses of the invariant, under fixed names. *)
Ltac open_ok H := destruct H as [Hasset Hopen H1 H2 H3 Hdep Href Htx Hrel Hrfd Hdis Hrea].

Lemma cstep_ok R F c c' : contract_ok c -> cstep R F c c' -> contract_ok c'.
Proof.
  intros Hok Hst. destruct Hst as [slot v Hin Hs ? ?|slot v Hin Hs ? ?|slot v Hin Hs ? ?
    |slot v Hin Hs ? Ha|a Hs Hc Hn Ha|Hs|Hs Hc|Hs Hc|a Hs Hc Hd Ha|b Hs Hb|who Hs Hn|who r Hs Hw Hn Hl
    |who t Hs Hw Hn|who t Hs Hw Ht|v Hs Hn Hv|v Hs Hn Hv|who Hw Hs|who Hw Hs].
  - apply slot_write_ok; auto.
  - apply slot_write_ok; auto.
  - apply slot_write_ok; auto.
  - apply slot_write_ok; auto 6.
  - open_ok Hok. constructor; simpl; try done. eauto.
  - open_ok Hok. apply enter_ok; try done; try (simpl; lia). by_state Hs.
  - apply enter_ok; try done; try (simpl; lia). by_state Hs.
  - pose proof Hok as Hok'; open_ok Hok'. apply enter_ok; try done; try (simpl; lia); [by_state Hs|].
    intros _. apply H1. by_state Hs.
  - pose proof Hok as Hok'; open_ok Hok'. apply enter_ok; try done; [by_state Hs|..]; intros _;
      try (apply H1 || apply H2); try by_state Hs.
  - pose proof Hok as Hok'; open_ok Hok'. apply enter_ok; try done; rewrite ?Hs in *; simpl in *; eauto with lia.
  - open_ok Hok. constructor; simpl; try eassumption.
    + intros E. split; [by eexists|by apply Hdis].
    + intros r Hr. split; [by eexists|]. by apply Hrea.
  - open_ok Hok. constructor; simpl; try done. intros ? [= <-]. split; [by eexists|done].
  - open_ok Hok. constructor; simpl; try done.
  - pose proof Hok as Hok'; open_ok Hok'. assert (4 <= rank (state c)) as Hr4 by by_state Hs.
    apply enter_ok; try done; [by_state Hs|intros _..]; [apply H1; lia|apply H2; lia|].
    split; [apply H3; lia|apply Hdep; lia].
  - open_ok Hok. constructor; simpl; try done. intros t [[= <-]|Hr]; eauto.
  - open_ok Hok. constructor; simpl; try done. intros t [Hr|[= <-]]; eauto.
  - by apply settle_release_ok.
  - by apply settle_refund_ok.
Qed.

Lemma csteps_ok R F c c' : rtc (cstep R F) c c' -> contract_ok c -> contract_ok c'.
Proof. induction 1; eauto using cstep_ok. Qed.

(** ** What never changes *)

(** A field that is set keeps its value. *)
Definition kept (f : EscrowContract -> option string) (c c' : EscrowContract) : Prop :=
  forall v, f c = Some v -> f c' = Some v.

Definition all_slots : list field :=
  round1_slots ++ round2_slots ++ round3_slots
  ++ [slot_refund_buyer; slot_refund_seller; slot_deposit; slot_release_txid; slot_refund_txid].

Record contract_evolves (c c' : EscrowContract) : Prop := ContractEvolves {
  ev_identity : (id c', asset c', buyer_nick c', seller_nick c', arbiter_nick c', amount_atomic c', memo c')
    = (id c, asset c, buyer_nick c, seller_nick c, arbiter_nick c, amount_atomic c, memo c);
  ev_slots : Forall (fun slot => kept (fget slot) c c') all_slots;
  ev_rank : rank (state c) <= rank (state c');
  ev_settled : rank (state c) = 6 -> state c' = state c;
  ev_release : release_confirmations c ⊆ release_confirmations c';
  ev_refund : refund_confirmations c ⊆ refund_confirmations c';
  ev_opened_by : forall p, dispute_opened_by c = Some p -> dispute_opened_by c' = Some p;
  ev_opened_at : forall t, dispute_opened_at c = Some t -> dispute_opened_at c' = Some t;
}.

#[local] Instance contract_evolves_refl : Reflexive contract_evolves.
Proof. intros c. split; try done. apply Forall_true. by intros s v. Qed.

#[local] Instance contract_evolves_trans : Transitive contract_evolves.
Proof.
  intros a b c [I1 S1 R1 T1 C1 D1 B1 A1] [I2 S2 R2 T2 C2 D2 B2 A2]. split.
  - congruence.
  - rewrite Forall_forall in *. intros s Hs v Hv. by apply S2, S1.
  - lia.
  - intros H. assert (state b = state a) as E by auto. rewrite <- E in *. auto.
  - set_solver.
  - set_solver.
  - auto.
  - auto.
Qed.

(** A write that leaves the state and the confirmations alone. *)
Lemma evolves_same_state c c' :
  (id c', asset c', buyer_nick c', seller_nick c', arbiter_nick c', amount_atomic c', memo c')
    = (id c, asset c, buyer_nick c, seller_nick c, arbiter_nick c, amount_atomic c, memo c) ->
  Forall (fun slot => kept (fget slot) c c') all_slots ->
  state c' = state c -> release_confirmations c' = release_confirmations c ->
  refund_confirmations c' = refund_confirmations c ->
  (forall p, dispute_opened_by c = Some p -> dispute_opened_by c' = Some p) ->
  (forall t, dispute_opened_at c = Some t -> dispute_opened_at c' = Some t) ->
  contract_evolves c c'.
Proof. intros HI HS E1 E2 E3 HB HA. split; rewrite ?E1, ?E2, ?E3; done. Qed.

Lemma kept_set f (c c' : EscrowContract) : f c = None -> kept f c c'.
Proof. intros E v Hv. congruence. Qed.
Lemma kept_same f (c c' : EscrowContract) : f c' = f c -> kept f c c'.
Proof. intros E v Hv. congruence. Qed.

(** Every slot is kept: it is untouched, or was empty. *)
Ltac kept_all :=
  repeat (apply Forall_cons; split; [first [by apply kept_same|by apply kept_set]|]); done.

(** Writing an empty slot keeps the others. *)
Lemma slot_evolves slot v c :
  slot ∈ all_slots -> fget slot c = None -> contract_evolves c (fset slot (Some v) c).
Proof.
  intros Hin Hn. unfold all_slots in Hin. cbn [app round1_slots round2_slots round3_slots] in Hin.
  repeat (apply elem_of_cons in Hin as [->|Hin]; [apply evolves_same_state; try done; kept_all|]).
  by apply elem_of_nil in Hin.
Qed.

Lemma enter_evolves s c :
  rank (state c) <= rank s -> (rank (state c) = 6 -> s = state c) -> contract_evolves c (set_state s c).
Proof. intros Hr H6. split; try done. kept_all. Qed.

Lemma settle_release_evolves who c :
  state c ∈ [Funded; Dispute; Released] -> contract_evolves c (settle_release who c).
Proof.
  intros Hs. unfold settle_release. cbv zeta.
  destruct (2 <=? _); split; cbn [state set_state set_release_confirmations release_confirmations];
    try done; try kept_all; try set_solver; by_state Hs.
Qed.

Lemma settle_refund_evolves who c :
  state c ∈ [Funded; Dispute; Refunded] -> contract_evolves c (settle_refund who c).
Proof.
  intros Hs. unfold settle_refund. cbv zeta.
  destruct (2 <=? _); split; cbn [state set_state set_refund_confirmations refund_confirmations];
    try done; try kept_all; try set_solver; by_state Hs.
Qed.

Lemma cstep_evolves R F c c' : cstep R F c c' -> contract_evolves c c'.
Proof.
  destruct 1 as [slot v Hin Hs Hn ?|slot v Hin Hs Hn ?|slot v Hin Hs Hn ?
    |slot v Hin Hs Hn Ha|a Hs Hc Hn Ha|Hs|Hs Hc|Hs Hc|a Hs Hc Hd Ha|b Hs Hb|who Hs Hn|who r Hs Hw Hn Hl
    |who t Hs Hw Hn|who t Hs Hw Ht|v Hs Hn Hv|v Hs Hn Hv|who Hw Hs|who Hw Hs].
  1-4: apply slot_evolves; [unfold all_slots; rewrite !elem_of_app|done].
  - by left.
  - by right; left.
  - by right; right; left.
  - do 3 right. rewrite !elem_of_cons in *. naive_solver.
  - apply (slot_evolves slot_deposit); [slot_in|done].
  - apply enter_evolves; by_state Hs.
  - apply enter_evolves; by_state Hs.
  - apply enter_evolves; by_state Hs.
  - apply enter_evolves; by_state Hs.
  - apply enter_evolves; rewrite Hs; simpl; lia.
  - apply evolves_same_state; try done; [kept_all|simpl; congruence].
  - apply evolves_same_state; try done. kept_all.
  - apply evolves_same_state; try done; [kept_all|simpl; congruence].
  - apply enter_evolves; by_state Hs.
  - apply (slot_evolves slot_release_txid); [slot_in|done].
  - apply (slot_evolves slot_refund_txid); [slot_in|done].
  - by apply settle_release_evolves.
  - by apply settle_refund_evolves.
Qed.

Lemma csteps_evolves R F c c' : rtc (cstep R F) c c' -> contract_evolves c c'.
Proof. induction 1; [done|]. etrans; [by eapply cstep_evolves|done]. Qed.


(** ** Who confirmed *)

Lemma cstep_confirmed R F c c' :
  cstep R F c c' ->
  (forall w, w ∈ release_confirmations c' -> R w \/ w ∈ release_confirmations c)
  /\ (forall w, w ∈ refund_confirmations c' -> F w \/ w ∈ refund_confirmations c).
Proof.
  destruct 1 as [slot v Hin Hs Hn ?|slot v Hin Hs Hn ?|slot v Hin Hs Hn ?
    |slot v Hin Hs Hn Ha|a Hs Hc Hn Ha|Hs|Hs Hc|Hs Hc|a Hs Hc Hd Ha|b Hs Hb|who Hs Hn|who r Hs Hw Hn Hl
    |who t Hs Hw Hn|who t Hs Hw Ht|v Hs Hn Hv|v Hs Hn Hv|who Hw Hs|who Hw Hs].
  17-18: unfold settle_release, settle_refund; cbv zeta;
    destruct (2 <=? _); cbn [release_confirmations refund_confirmations set_state
      set_release_confirmations set_refund_confirmations];
    (split; intros w Hin; try (by right);
     apply elem_of_union in Hin as [->%elem_of_singleton|Hin]; [by left|by right]).
  5-16: split; intros w Hx; right; exact Hx.
  1-3: unfold round1_slots, round2_slots, round3_slots in Hin;
    rewrite !elem_of_cons, elem_of_nil in Hin;
    destruct Hin as [->|[->|[->|[]]]]; (split; intros w Hx; right; exact Hx).
  rewrite !elem_of_cons, elem_of_nil in Hin;
    destruct Hin as [->|[->|[]]]; (split; intros w Hx; right; exact Hx).
Qed.

Lemma csteps_confirmed R F c c' :
  rtc (cstep R F) c c' ->
  (forall w, w ∈ release_confirmations c' -> R w \/ w ∈ release_confirmations c)
  /\ (forall w, w ∈ refund_confirmations c' -> F w \/ w ∈ refund_confirmations c).
Proof.
  induction 1 as [c|c1 c2 c3 H12 H23 [IH1 IH2]]; [split; by right|].
  apply cstep_confirmed in H12 as [H1 H2].
  split; intros w Hw; [destruct (IH1 w Hw)|destruct (IH2 w Hw)]; auto.
Qed.

Lemma two_members (X : gset EscrowParticipant) :
  (2 <= size X)%nat -> exists p q, p <> q /\ p ∈ X /\ q ∈ X.
Proof.
  intros Hs. destruct (size_pos_elem_of X) as [p Hp]; [lia|].
  destruct (size_pos_elem_of (X ∖ {[p]})) as [q Hq].
  { rewrite size_difference, size_singleton by set_solver. lia. }
  exists p, q. set_solver.
Qed.

End contract.

(** ** Snapshots *)

Lemma confirmations_of_members (X : gset EscrowParticipant) :
  confirmations_of (bool_decide (Buyer ∈ X)) (bool_decide (Seller ∈ X)) (bool_decide (Arbiter ∈ X)) = X.
Proof.
  unfold confirmations_of. apply leibniz_equiv. intros p. rewrite !elem_of_union.
  repeat case_bool_decide; destruct p; rewrite ?elem_of_singleton, ?elem_of_empty; naive_solver.
Qed.

Lemma txid_accepted t : txid_ok t -> validate_txid t = Ok tt.
Proof. intros [Hl Hh]. unfold validate_txid. by rewrite Hl, Hh. Qed.

Lemma reason_accepted r : reason_ok r -> normalize_dispute_reason (Some r) = Ok (Some r).
Proof.
  intros (Ht & Hn & Hl). unfold normalize_dispute_reason. cbv zeta. rewrite Ht.
  rewrite (proj2 (is_empty_false r)) by done. by rewrite (proj2 (Z.ltb_ge _ _)).
Qed.

Lemma import_release_ok d c rb rs ra rt :
  release_snapshot c = (rb, rs, ra, rt) -> (forall t, release_txid c = Some t -> txid_ok t) ->
  import_release_snapshot rb rs ra rt d
  = (set_release_txid (release_txid c) (set_release_confirmations (release_confirmations c) d), Ok tt).
Proof.
  intros [= <- <- <- <-] Ht. unfold import_release_snapshot. rewrite confirmations_of_members. run_m.
  destruct (release_txid c) as [t|]; [|done]. by rewrite (txid_accepted t (Ht t eq_refl)).
Qed.

Lemma import_refund_ok d c rb rs ra rt :
  refund_snapshot c = (rb, rs, ra, rt) -> (forall t, refund_txid c = Some t -> txid_ok t) ->
  import_refund_snapshot rb rs ra rt d
  = (set_refund_txid (refund_txid c) (set_refund_confirmations (refund_confirmations c) d), Ok tt).
Proof.
  intros [= <- <- <- <-] Ht. unfold import_refund_snapshot. rewrite confirmations_of_members. run_m.
  destruct (refund_txid c) as [t|]; [|done]. by rewrite (txid_accepted t (Ht t eq_refl)).
Qed.

Lemma import_dispute_ok d by_ reason at_ :
  (forall r, reason = Some r -> reason_ok r) -> (forall t, at_ = Some t -> 0 < t) ->
  import_dispute_snapshot by_ reason at_ d
  = (set_dispute_opened_at at_ (set_dispute_reason reason (set_dispute_opened_by by_ d)), Ok tt).
Proof.
  intros Hr Ht. unfold import_dispute_snapshot.
  assert (normalize_dispute_reason reason = Ok reason) as ->
    by (destruct reason as [r|]; [by apply reason_accepted, Hr|done]).
  run_m. destruct at_ as [t|]; [|done]. specialize (Ht t eq_refl).
  by rewrite (proj2 (Z.leb_gt _ _)).
Qed.

Lemma reachable_ok keccak256 ops n buyer seller arbiter amount :
  contract_ok keccak256 (run_escrow keccak256 ops (new_xmr n buyer seller arbiter amount)).
Proof. eapply csteps_ok; [apply run_escrow_steps|apply new_ok]. Qed.

(** ** Theorems *)

(** C3. However the parties call the contract, its invariant holds: the data of
    each round is complete once a later state is reached, a deposit address that
    passed validation exists from READY on, stored refund addresses and
    transaction ids are well formed, the contract is RELEASED exactly when two
    parties confirmed the release and REFUNDED exactly when two confirmed the
    refund, a dispute names its opener, and CLOSED is never entered.  The calls are
    the eleven of [EscrowOp]; the restoring imports write what they are given
    ([import_breaks_settlement], [own_snapshot_restored]). *)
Theorem escrow_reachable_ok keccak256 ops n buyer seller arbiter amount :
  contract_ok keccak256 (run_escrow keccak256 ops (new_xmr n buyer seller arbiter amount)).
Proof. apply reachable_ok. Qed.

(** C16. Every call takes at most one transition of the protocol document, and
    takes it under the condition the document states (the arbiter's contribution,
    the complete round, the deposit address, the required funding, the opener of the
    dispute, two confirmations), but for two moves the document does not allow: a
    party's contribution starts round 1 before the arbiter's is there, and a balance
    that covers the amount but not the fee reserve funds the contract.  A call that
    returns reports the states before and after it, and a call that fails leaves the
    state as it was. *)
Theorem escrow_call_documented keccak256 required op c :
  let c' := (run_escrow_op keccak256 op c).1 in
  (documented required op c c' \/ deviates required op c c')
  /\ match (run_escrow_op keccak256 op c).2 with
     | Ok t => et_from t = state c /\ et_to t = state c'
     | Err _ => state c' = state c
     end.
Proof.
  destruct (op_call keccak256 required op c) as [_ H]. cbv zeta.
  destruct (run_escrow_op keccak256 op c).2; [by destruct H as (? & ? & ?)|]. split; [by apply conforms_stay|done].
Qed.

(** C6. Nobody settles alone: a contract that ended up RELEASED saw a release
    confirmation of two different parties, one that ended up REFUNDED a refund
    confirmation of two different parties.  Restoring imports are not calls of a
    party and not among the operations. *)
Theorem settlement_needs_two keccak256 ops n buyer seller arbiter amount :
  let c := run_escrow keccak256 ops (new_xmr n buyer seller arbiter amount) in
  (state c = Released -> exists p q x y, p <> q /\ OpRelease p x ∈ ops /\ OpRelease q y ∈ ops)
  /\ (state c = Refunded -> exists p q x y, p <> q /\ OpRefund p x ∈ ops /\ OpRefund q y ∈ ops).
Proof.
  intros c.
  pose proof (run_escrow_steps keccak256 ops (new_xmr n buyer seller arbiter amount)) as Hs.
  fold c in Hs. pose proof (csteps_ok _ _ _ _ _ Hs (new_ok _ _ _ _ _ _)) as Hok.
  apply csteps_confirmed in Hs as [Hr Hf]. split; intros E.
  - apply (ok_released _ _ Hok), two_members in E as (p & q & Hpq & Hp & Hq).
    destruct (Hr p Hp) as [(? & ? & x & ->)|[]%not_elem_of_empty],
      (Hr q Hq) as [(? & ? & y & ->)|[]%not_elem_of_empty]. by exists p, q, x, y.
  - apply (ok_refunded _ _ Hok), two_members in E as (p & q & Hpq & Hp & Hq).
    destruct (Hf p Hp) as [(? & ? & x & ->)|[]%not_elem_of_empty],
      (Hf q Hq) as [(? & ? & y & ->)|[]%not_elem_of_empty]. by exists p, q, x, y.
Qed.

(** What is agreed stays agreed: over any calls the parties and the amount
    keep their values, a round contribution, address or transaction id that is
    set is never replaced, confirmations are never withdrawn, the state never
    moves back and RELEASED and REFUNDED are final. *)
Theorem escrow_never_rewritten keccak256 ops c :
  contract_evolves c (run_escrow keccak256 ops c).
Proof. eapply csteps_evolves, run_escrow_steps. Qed.

(** A contract is restored from its stored snapshots: importing what a
    reachable contract exports puts the same confirmations, transaction ids and
    dispute data into any other contract. *)
Theorem escrow_snapshot_restores keccak256 ops n buyer seller arbiter amount d :
  let c := run_escrow keccak256 ops (new_xmr n buyer seller arbiter amount) in
  (forall t, dispute_opened_at c = Some t -> 0 < t) ->
  let '(rb, rs, ra, rt) := release_snapshot c in
  let '(fb, fs, fa, ft) := refund_snapshot c in
  let '(by_, reason, at_) := dispute_snapshot c in
  exists d', (let* _ := import_release_snapshot rb rs ra rt in
              let* _ := import_refund_snapshot fb fs fa ft in
              import_dispute_snapshot by_ reason at_) d = (d', Ok tt)
    /\ release_snapshot d' = release_snapshot c /\ refund_snapshot d' = refund_snapshot c
    /\ dispute_snapshot d' = dispute_snapshot c
    /\ release_confirmations d' = release_confirmations c
    /\ refund_confirmations d' = refund_confirmations c.
Proof.
  intros c Hat. destruct (release_snapshot c) as [[[rb rs] ra] rt] eqn:Er.
  destruct (refund_snapshot c) as [[[fb fs] fa] ft] eqn:Ef.
  pose proof (csteps_ok _ _ _ _ _ (run_escrow_steps keccak256 ops (new_xmr n buyer seller arbiter amount))
    (new_ok _ _ _ _ _ _)) as Hok. fold c in Hok.
  unfold dispute_snapshot at 1. cbv beta iota. eexists. split.
  - rewrite sbind_run, (import_release_ok d c _ _ _ _ Er)
      by (intros t Ht; apply (ok_txid _ _ Hok); rewrite Ht; by left).
    rewrite sbind_run, (import_refund_ok _ c _ _ _ _ Ef)
      by (intros t Ht; apply (ok_txid _ _ Hok); rewrite Ht; by right).
    rewrite import_dispute_ok; [reflexivity|intros r Hr; by apply (ok_reason _ _ Hok)|done].
  - rewrite <- Er, <- Ef. splits; done.
Qed.

(** *** Restoring imports *)

Inductive EscrowImport : Type :=
| ImpDispute (opened_by : option EscrowParticipant) (reason : option string) (opened_at : option Z)
| ImpRelease (buyer seller arbiter : bool) (txid : option string)
| ImpRefund (buyer seller arbiter : bool) (txid : option string).
Definition run_import (i : EscrowImport) : M EscrowContract MoneroError unit :=
  match i with
  | ImpDispute by_ reason at_ => import_dispute_snapshot by_ reason at_
  | ImpRelease b s a txid => import_release_snapshot b s a txid
  | ImpRefund b s a txid => import_refund_snapshot b s a txid
  end.
(** The import of the contract's own stored data. *)
Definition own_snapshot (c : EscrowContract) (i : EscrowImport) : Prop :=
  match i with
  | ImpDispute by_ reason at_ => dispute_snapshot c = (by_, reason, at_)
  | ImpRelease b s a txid => release_snapshot c = (b, s, a, txid)
  | ImpRefund b s a txid => refund_snapshot c = (b, s, a, txid)
  end.

(** An import writes the fields it is named after and nothing else, whether it
    succeeds or fails: never the state, the rounds, the addresses, the parties or
    the amount. *)
Theorem import_local i c :
  let c' := (run_import i c).1 in
  (id c', asset c', state c', buyer_nick c', seller_nick c', arbiter_nick c', amount_atomic c', memo c')
    = (id c, asset c, state c, buyer_nick c, seller_nick c, arbiter_nick c, amount_atomic c, memo c)
  /\ Forall (fun slot => fget slot c' = fget slot c)
       (round1_slots ++ round2_slots ++ round3_slots ++ [slot_refund_buyer; slot_refund_seller; slot_deposit])
  /\ match i with
     | ImpDispute _ _ _ => release_snapshot c' = release_snapshot c /\ refund_snapshot c' = refund_snapshot c
     | ImpRelease _ _ _ _ => dispute_snapshot c' = dispute_snapshot c /\ refund_snapshot c' = refund_snapshot c
     | ImpRefund _ _ _ _ => dispute_snapshot c' = dispute_snapshot c /\ release_snapshot c' = release_snapshot c
     end.
Proof.
  destruct i as [by_ reason at_|b s a txid|b s a txid]; cbv zeta; simpl;
    unfold import_dispute_snapshot, import_release_snapshot, import_refund_snapshot; run_m.
  - destruct (match at_ with Some _ => _ | None => _ end) as [[]|e]; simpl; [|by repeat constructor].
    destruct (normalize_dispute_reason reason); simpl; by repeat constructor.
  - destruct txid as [v|]; run_m; [destruct (validate_txid v) as [[]|e]|]; simpl; by repeat constructor.
  - destruct txid as [v|]; run_m; [destruct (validate_txid v) as [[]|e]|]; simpl; by repeat constructor.
Qed.

(** Restoring a reachable contract's own data, as the bridge does between calls,
    changes nothing, so the invariant and the two-party rule go on to hold. *)
Theorem own_snapshot_restored keccak256 ops n buyer seller arbiter amount i :
  let c := run_escrow keccak256 ops (new_xmr n buyer seller arbiter amount) in
  (forall t, dispute_opened_at c = Some t -> 0 < t) -> own_snapshot c i -> run_import i c = (c, Ok tt).
Proof.
  intros c Hat. pose proof (reachable_ok keccak256 ops n buyer seller arbiter amount) as Hok. fold c in Hok.
  destruct i as [by_ reason at_|b s a txid|b s a txid]; simpl; intros E.
  - injection E as <- <- <-. rewrite import_dispute_ok; [by destruct c|intros r Hr; by apply (ok_reason _ _ Hok)|done].
  - rewrite (import_release_ok c c _ _ _ _ E) by (intros t Ht; apply (ok_txid _ _ Hok); rewrite Ht; by left). by destruct c.
  - rewrite (import_refund_ok c c _ _ _ _ E) by (intros t Ht; apply (ok_txid _ _ Hok); rewrite Ht; by right). by destruct c.
Qed.

(** An import of anything else may break the invariant: two confirmations
    imported into a new contract leave it NEW. *)
Theorem import_breaks_settlement keccak256 n buyer seller arbiter amount :
  ~ contract_ok keccak256 (run_import (ImpRelease true true false None) (new_xmr n buyer seller arbiter amount)).1.
Proof. intros Hok. pose proof (proj2 (ok_released _ _ Hok)) as Hr. simpl in Hr. discriminate Hr. vm_compute. lia. Qed.

(** *** Both moves outside the document happen *)

(** The buyer's contribution starts round 1 of a new contract without the arbiter. *)
Theorem round1_starts_early keccak256 n buyer seller arbiter amount info required :
  trim info <> ""%string ->
  deviates required (OpSubmitR1 Buyer info None) (new_xmr n buyer seller arbiter amount)
    (run_escrow_op keccak256 (OpSubmitR1 Buyer info None) (new_xmr n buyer seller arbiter amount)).1.
Proof.
  intros Hi%is_empty_false. eapply DevEarlyR1; [done|done|..]; simpl; unfold submit_round1, set_once; run_m; rewrite Hi; done.
Qed.

(** A contract that is READY is funded by its amount alone, whatever the fee. *)
Theorem funded_without_fee keccak256 c fee :
  state c = Ready -> 0 < fee ->
  deviates (amount_atomic c + fee) (OpFunded (amount_atomic c)) c (run_escrow_op keccak256 (OpFunded (amount_atomic c)) c).1.
Proof.
  intros Hs Hf. eapply DevUnderfunded; [done|done| |lia]. simpl. unfold mark_funded, ensure_state, ensure_state_in. run_m.
  rewrite Hs, bool_decide_eq_true_2 by slot_in. simpl. by rewrite Z.ltb_irrefl.
Qed.

(** ** A run to the end *)

(** The set-up rounds, funding, and two release confirmations. *)
Definition happy_path (b s a addr : string) (balance : Z) (p q : EscrowParticipant) : list EscrowOp :=
  [OpArbiterR1 a; OpSubmitR1 Buyer b None; OpSubmitR1 Seller s None;
   OpArbiterR2 a; OpSubmitR2 Buyer b; OpSubmitR2 Seller s;
   OpArbiterR3 a; OpSubmitR3 Buyer b; OpSubmitR3 Seller s;
   OpDeposit addr; OpFunded balance; OpRelease p None; OpRelease q None].

Lemma set_once_fresh slot v label c :
  fget slot c = None -> trim v <> ""%string ->
  set_once slot v true label c = (fset slot (Some v) c, Ok tt).
Proof.
  intros Hn Hv%is_empty_false. unfold set_once. run_m. rewrite Hv. simpl. by rewrite Hn.
Qed.

Lemma ensure_state_here allowed op c :
  state c ∈ allowed -> ensure_state allowed op c = (c, Ok tt).
Proof.
  intros H. unfold ensure_state, ensure_state_in. run_m. by rewrite bool_decide_eq_true_2.
Qed.

Lemma valid_trim keccak256 addr :
  is_valid_xmr_address keccak256 (trim addr) = is_valid_xmr_address keccak256 addr.
Proof. unfold is_valid_xmr_address. by rewrite trim_idem. Qed.

Lemma valid_not_blank keccak256 addr :
  is_valid_xmr_address keccak256 addr = true -> trim addr <> ""%string.
Proof. unfold is_valid_xmr_address. intros H E. by rewrite E in H. Qed.

Lemma ensure_xmr_here msg c : asset c = Xmr -> ensure_xmr msg c = (c, Ok tt).
Proof. intros H. unfold ensure_xmr. run_m. by rewrite bool_decide_eq_true_2. Qed.

Lemma guard_passes {A} b e (k : unit -> M EscrowContract MoneroError A) c :
  b = false -> sbind (slift (fail_if b e)) k c = k tt c.
Proof. by intros ->. Qed.

Lemma sbind_run_ok {A B} (m : M EscrowContract MoneroError A) (k : A -> M EscrowContract MoneroError B) c c' a :
  m c = (c', Ok a) -> sbind m k c = k a c'.
Proof. intros H. by rewrite sbind_run, H. Qed.

Lemma sbind_assoc {A B C} (m : M EscrowContract MoneroError A) (k : A -> M EscrowContract MoneroError B)
    (k' : B -> M EscrowContract MoneroError C) c :
  sbind (sbind m k) k' c = sbind m (fun a => sbind (k a) k') c.
Proof. rewrite !sbind_run. by destruct (m c) as [c' [a|e]]. Qed.

(** Runs a call whose guards hold. *)
Ltac runs :=
  repeat first
    [ rewrite sbind_assoc
    | erewrite sbind_run_ok by
        first [by apply ensure_xmr_here|by apply ensure_state_here|by apply set_once_fresh|reflexivity]
    | rewrite guard_passes by done ].

Lemma run_escrow_cons keccak256 op ops c :
  run_escrow keccak256 (op :: ops) c = run_escrow keccak256 ops (run_escrow_op keccak256 op c).1.
Proof. done. Qed.

Lemma run_escrow_app keccak256 ops1 ops2 c :
  run_escrow keccak256 (ops1 ++ ops2) c = run_escrow keccak256 ops2 (run_escrow keccak256 ops1 c).
Proof. apply foldl_app. Qed.

(** A contract in the set-up: its state, the contributions of the rounds and the
    deposit address. *)
Section setup.
Context (keccak256 : list Z -> list Z) (n : Z) (buyer seller arbiter : string) (amount : Z).

Definition staged (st : EscrowState) (b1 s1 a1 b2 s2 a2 b3 s3 a3 dep : option string) : EscrowContract :=
  MkContract n Xmr st buyer seller arbiter amount None None None b1 s1 a1 b2 s2 a2 b3 s3 a3 dep
    None None None None None ∅ ∅.

Lemma arbiter_r1_runs i st b1 s1 b2 s2 a2 b3 s3 a3 dep :
  st ∈ [New; XmrMsigR1] -> trim i <> ""%string ->
  (set_arbiter_round1 i (staged st b1 s1 None b2 s2 a2 b3 s3 a3 dep)).1
  = staged XmrMsigR1 b1 s1 (Some i) b2 s2 a2 b3 s3 a3 dep.
Proof. intros Hs Hi. unfold set_arbiter_round1. by runs. Qed.

Lemma buyer_r1_runs i st s1 a1 b2 s2 a2 b3 s3 a3 dep :
  st ∈ [New; XmrMsigR1] -> trim i <> ""%string ->
  (submit_round1 keccak256 Buyer i None (staged st None s1 a1 b2 s2 a2 b3 s3 a3 dep)).1
  = staged XmrMsigR1 (Some i) s1 a1 b2 s2 a2 b3 s3 a3 dep.
Proof. intros Hs Hi. unfold submit_round1. by runs. Qed.

Lemma seller_r1_runs i st b1 a1 b2 s2 a2 b3 s3 a3 dep :
  st ∈ [New; XmrMsigR1] -> trim i <> ""%string ->
  (submit_round1 keccak256 Seller i None (staged st b1 None a1 b2 s2 a2 b3 s3 a3 dep)).1
  = staged XmrMsigR1 b1 (Some i) a1 b2 s2 a2 b3 s3 a3 dep.
Proof. intros Hs Hi. unfold submit_round1. by runs. Qed.

Lemma arbiter_r2_runs i st b1 s1 a1 b2 s2 b3 s3 a3 dep :
  st ∈ [XmrMsigR1; XmrMsigR2] -> trim i <> ""%string ->
  (set_arbiter_round2 i (staged st (Some b1) (Some s1) (Some a1) b2 s2 None b3 s3 a3 dep)).1
  = staged XmrMsigR2 (Some b1) (Some s1) (Some a1) b2 s2 (Some i) b3 s3 a3 dep.
Proof. intros Hs Hi. unfold set_arbiter_round2. by runs. Qed.

Lemma buyer_r2_runs i st b1 s1 a1 s2 a2 b3 s3 a3 dep :
  st ∈ [XmrMsigR2] -> trim i <> ""%string ->
  (submit_round2 Buyer i (staged st b1 s1 a1 None s2 a2 b3 s3 a3 dep)).1
  = staged st b1 s1 a1 (Some i) s2 a2 b3 s3 a3 dep.
Proof. intros Hs Hi. unfold submit_round2. by runs. Qed.

Lemma seller_r2_runs i st b1 s1 a1 b2 a2 b3 s3 a3 dep :
  st ∈ [XmrMsigR2] -> trim i <> ""%string ->
  (submit_round2 Seller i (staged st b1 s1 a1 b2 None a2 b3 s3 a3 dep)).1
  = staged st b1 s1 a1 b2 (Some i) a2 b3 s3 a3 dep.
Proof. intros Hs Hi. unfold submit_round2. by runs. Qed.

Lemma arbiter_r3_runs i st b1 s1 a1 b2 s2 a2 b3 s3 dep :
  st ∈ [XmrMsigR2; XmrMsigR3] -> trim i <> ""%string ->
  (set_arbiter_round3 i (staged st b1 s1 a1 (Some b2) (Some s2) (Some a2) b3 s3 None dep)).1
  = staged XmrMsigR3 b1 s1 a1 (Some b2) (Some s2) (Some a2) b3 s3 (Some i) dep.
Proof. intros Hs Hi. unfold set_arbiter_round3. by runs. Qed.

Lemma buyer_r3_runs i st b1 s1 a1 b2 s2 a2 s3 a3 dep :
  st ∈ [XmrMsigR3] -> trim i <> ""%string ->
  (submit_round3 Buyer i (staged st b1 s1 a1 b2 s2 a2 None s3 a3 dep)).1
  = staged st b1 s1 a1 b2 s2 a2 (Some i) s3 a3 dep.
Proof. intros Hs Hi. unfold submit_round3. by runs. Qed.

Lemma seller_r3_runs i st b1 s1 a1 b2 s2 a2 b3 a3 dep :
  st ∈ [XmrMsigR3] -> trim i <> ""%string ->
  (submit_round3 Seller i (staged st b1 s1 a1 b2 s2 a2 b3 None a3 dep)).1
  = staged st b1 s1 a1 b2 s2 a2 b3 (Some i) a3 dep.
Proof. intros Hs Hi. unfold submit_round3. by runs. Qed.

Lemma deposit_runs i st b1 s1 a1 b2 s2 a2 b3 s3 a3 :
  st ∈ [XmrMsigR3; Ready] -> is_valid_xmr_address keccak256 i = true ->
  (set_deposit_address keccak256 i (staged st b1 s1 a1 b2 s2 a2 (Some b3) (Some s3) (Some a3) None)).1
  = staged Ready b1 s1 a1 b2 s2 a2 (Some b3) (Some s3) (Some a3) (Some (trim i)).
Proof. 
  intros Hs Hv. pose proof (valid_not_blank _ _ Hv) as Hn. rewrite <- trim_idem in Hn.
  assert (negb (is_xmr_address keccak256 (trim i)) = false) as Hg
    by (unfold is_xmr_address; by rewrite valid_trim, Hv).
  unfold set_deposit_address. by runs.
Qed.

(** The first ten calls of the happy path. *)
Lemma setup_runs b s a addr :
  trim b <> ""%string -> trim s <> ""%string -> trim a <> ""%string ->
  is_valid_xmr_address keccak256 addr = true ->
  run_escrow keccak256 (take 10 (happy_path b s a addr 0 Buyer Buyer)) (new_xmr n buyer seller arbiter amount)
  = staged Ready (Some b) (Some s) (Some a) (Some b) (Some s) (Some a) (Some b) (Some s) (Some a)
      (Some (trim addr)).
Proof.
  intros Hb Hs Ha Hv. unfold happy_path. cbn [take].
  change (new_xmr n buyer seller arbiter amount)
    with (staged New None None None None None None None None None None).
  do 10 (rewrite run_escrow_cons; cbn [run_escrow_op];
    first [rewrite arbiter_r1_runs by (slot_in || done)|rewrite buyer_r1_runs by (slot_in || done)
      |rewrite seller_r1_runs by (slot_in || done)|rewrite arbiter_r2_runs by (slot_in || done)
      |rewrite buyer_r2_runs by (slot_in || done)|rewrite seller_r2_runs by (slot_in || done)
      |rewrite arbiter_r3_runs by (slot_in || done)|rewrite buyer_r3_runs by (slot_in || done)
      |rewrite seller_r3_runs by (slot_in || done)|rewrite deposit_runs by (slot_in || done)]).
  done.
Qed.
End setup.

Lemma funded_runs balance c :
  state c = Ready -> amount_atomic c <= balance -> (mark_funded balance c).1 = set_state Funded c.
Proof.
  intros Hs Hb. unfold mark_funded. erewrite sbind_run_ok by reflexivity.
  erewrite sbind_run_ok by (apply ensure_state_here; rewrite Hs; slot_in).
  erewrite sbind_run_ok by reflexivity. rewrite guard_passes by by apply Z.ltb_ge. done.
Qed.

Lemma release_runs keccak256 who c :
  state c ∈ [Funded; Dispute; Released] ->
  (run_escrow_op keccak256 (OpRelease who None) c).1 = settle_release who c.
Proof.
  intros Hs. cbn [run_escrow_op]. unfold confirm_release. rewrite sbind_assoc.
  erewrite sbind_run_ok by reflexivity. rewrite sbind_assoc, guard_passes by by state_cases Hs; rewrite Hs.
  rewrite sbind_assoc. erewrite sbind_run_ok by by apply ensure_state_here.
  rewrite sbind_assoc. erewrite sbind_run_ok by reflexivity.
  rewrite sbind_assoc. erewrite sbind_run_ok by reflexivity.
  rewrite sbind_assoc. erewrite sbind_run_ok by reflexivity. unfold settle_release. cbv zeta.
  by destruct (2 <=? _).
Qed.

Lemma settle_first p c :
  release_confirmations c = ∅ -> settle_release p c = set_release_confirmations {[p]} c.
Proof.
  intros E. unfold settle_release. cbv zeta. cbn [release_confirmations set_release_confirmations].
  rewrite E, (right_id_L ∅ (∪)), size_singleton. done.
Qed.

Lemma settle_second q p c :
  release_confirmations c = {[p]} -> p <> q ->
  state (settle_release q c) = Released
  /\ deposit_address (settle_release q c) = deposit_address c.
Proof.
  intros E Hpq. unfold settle_release. cbv zeta. cbn [release_confirmations set_release_confirmations].
  rewrite E, size_union, !size_singleton by set_solver. done.
Qed.

(** C17. An escrow that the parties drive to the end gets there: with non-blank
    round data, a valid deposit address, enough balance and release
    confirmations of any two different parties, the sequence of calls ends in
    RELEASED with that deposit address. *)
Theorem escrow_completes keccak256 n buyer seller arbiter amount b s a addr balance p q :
  trim b <> ""%string -> trim s <> ""%string -> trim a <> ""%string ->
  is_valid_xmr_address keccak256 addr = true -> amount <= balance -> p <> q ->
  let c := run_escrow keccak256 (happy_path b s a addr balance p q)
             (new_xmr n buyer seller arbiter amount) in
  state c = Released /\ deposit_address c = Some (trim addr).
Proof.
  intros Hb Hs Ha Hv Hbal Hpq. cbv zeta.
  change (happy_path b s a addr balance p q)
    with (take 10 (happy_path b s a addr 0 Buyer Buyer) ++ [OpFunded balance; OpRelease p None; OpRelease q None]).
  rewrite run_escrow_app, setup_runs by done.
  set (c := staged n buyer seller arbiter amount Ready _ _ _ _ _ _ _ _ _ _).
  rewrite run_escrow_cons. cbn [run_escrow_op]. rewrite funded_runs by done.
  rewrite run_escrow_cons, release_runs by slot_in.
  rewrite settle_first by done. rewrite run_escrow_cons, release_runs by slot_in.
  by apply (settle_second q p).
Qed.

(** ** Instances *)

Definition demo_escrow_ops : list EscrowOp :=
  happy_path "b" "s" "a" demo_address 10 Buyer Arbiter.
Definition demo_dispute_ops : list EscrowOp :=
  take 11 demo_escrow_ops ++ [OpDispute 1700000000 Buyer (Some " late "); OpRefund Seller None].

Lemma escrow_snapshot_restores_witness :
  exists d', (let* _ := import_release_snapshot false false false None in
              let* _ := import_refund_snapshot false true false None in
              import_dispute_snapshot (Some Buyer) (Some "late") (Some 1700000000))
             (new_xmr 7 "x" "y" "z" 1) = (d', Ok tt)
    /\ refund_confirmations d' = {[Seller]}.
Proof.
  destruct (escrow_snapshot_restores demo_keccak demo_dispute_ops 1 "b" "s" "a" 10 (new_xmr 7 "x" "y" "z" 1))
    as (d' & H & _ & _ & _ & _ & E).
  - vm_compute. intros t [= <-]. reflexivity.
  - exists d'. split; [exact H|]. rewrite E. vm_compute. reflexivity.
Defined.

Lemma escrow_completes_witness :
  let c := run_escrow demo_keccak demo_escrow_ops (new_xmr 1 "b" "s" "a" 10) in
  state c = Released /\ deposit_address c = Some (trim demo_address).
Proof.
  apply (escrow_completes demo_keccak 1 "b" "s" "a" 10 "b" "s" "a" demo_address 10 Buyer Arbiter);
    [vm_compute; discriminate|vm_compute; discriminate|vm_compute; discriminate
    |vm_compute; reflexivity|lia|discriminate].
Defined.

Lemma settlement_needs_two_witness :
  state (run_escrow demo_keccak demo_escrow_ops (new_xmr 1 "b" "s" "a" 10)) = Released
  /\ exists p q x y, p <> q /\ OpRelease p x ∈ demo_escrow_ops /\ OpRelease q y ∈ demo_escrow_ops.
Proof.
  assert (state (run_escrow demo_keccak demo_escrow_ops (new_xmr 1 "b" "s" "a" 10)) = Released) as E
    by (vm_compute; reflexivity).
  split; [exact E|]. exact (proj1 (settlement_needs_two demo_keccak demo_escrow_ops 1 "b" "s" "a" 10) E).
Defined.
