(* ===== verification/FeePolicy.v ===== *)
(** * The fee policy

    [crates/nxms-monero-core/src/fee_policy.rs] and [limits.rs]: the quote of
    the funding an escrow needs, the policy read from the environment and the
    size limit of transaction data.  The environment is a function [env] from
    names to values, [env::var(key).ok()]. *)

From S2P Require Import Prelude RustString XmrAddress Escrow.

Definition BPS_DENOMINATOR : Z := 10000.

Record EscrowFeePolicy : Type := MkFeePolicy {
  min_escrow_amount_atomic : Z; fee_floor_atomic : Z; fee_bps : Z }.
Record EscrowFundingQuote : Type := MkQuote { fee_atomic : Z; required_funding_atomic : Z }.

Definition quote (p : EscrowFeePolicy) (amount_atomic : Z) : result MoneroError EscrowFundingQuote :=
  let percent_fee_u128 :=
    if fee_bps p =? 0 then 0
    else sat_add_u128 (amount_atomic * fee_bps p) (BPS_DENOMINATOR - 1) / BPS_DENOMINATOR in
  let? percent_fee := ok_or (u64_try_from percent_fee_u128)
    (InvalidArgument ("computed percent fee does not fit u64 for amount_atomic=" +:+ dec amount_atomic
                      +:+ ", fee_bps=" +:+ dec (fee_bps p))) in
  let fee_atomic := Z.max (fee_floor_atomic p) percent_fee in
  let? required := ok_or (checked_add_u64 amount_atomic fee_atomic)
    (InvalidArgument ("required funding overflow: amount_atomic=" +:+ dec amount_atomic
                      +:+ ", fee_atomic=" +:+ dec fee_atomic)) in
  Ok (MkQuote fee_atomic required).

Section env.
Context (env : string -> option string).

(** The message leaves out the text of the parser. *)
Definition env_u64_or_default (key : string) (default_value : Z) : result MoneroError Z :=
  match env key with
  | None => Ok default_value
  | Some raw =>
      let trimmed := trim raw in
      if is_empty trimmed then Ok default_value
      else ok_or (parse_u64 trimmed) (InvalidArgument (key +:+ " must be u64, got '" +:+ trimmed +:+ "'"))
  end.

Definition escrow_fee_policy_from_env : result MoneroError EscrowFeePolicy :=
  let? min_escrow_amount_atomic := env_u64_or_default "ESCROW_MIN_AMOUNT_ATOMIC" 1 in
  let? fee_floor_atomic := env_u64_or_default "ESCROW_FEE_FLOOR_ATOMIC" 0 in
  let? fee_bps := env_u64_or_default "ESCROW_FEE_BPS" 0 in
  let? _ := fail_if (U32_MAX <? fee_bps)
              (InvalidArgument ("ESCROW_FEE_BPS out of range for u32: " +:+ dec fee_bps)) in
  let? _ := fail_if (10000 <? fee_bps)
              (InvalidArgument ("ESCROW_FEE_BPS must be <= 10000, got " +:+ dec fee_bps)) in
  Ok (MkFeePolicy min_escrow_amount_atomic fee_floor_atomic fee_bps).

Definition DEFAULT_TX_HEX_MAX_LEN : Z := 2000000.
Definition MIN_TX_HEX_MAX_LEN : Z := 200000.
Definition MAX_TX_HEX_MAX_LEN : Z := 20000000.

(** [usize] has 64 bits. *)
Definition tx_hex_max_len : Z :=
  let raw := match env "XMR_TX_HEX_MAX_LEN" with
             | Some v => default DEFAULT_TX_HEX_MAX_LEN (parse_u64 v)
             | None => DEFAULT_TX_HEX_MAX_LEN
             end in
  Z.max MIN_TX_HEX_MAX_LEN (Z.min MAX_TX_HEX_MAX_LEN raw).
End env.

(** ** Lemmas *)

(** The policies [escrow_fee_policy_from_env] builds, and more. *)
Definition policy_typed (p : EscrowFeePolicy) : Prop :=
  is_u64 (min_escrow_amount_atomic p) /\ is_u64 (fee_floor_atomic p) /\ is_u32 (fee_bps p).

Lemma env_u64_range env key d n : is_u64 d -> env_u64_or_default env key d = Ok n -> is_u64 n.
Proof.
  intros Hd. unfold env_u64_or_default. destruct (env key) as [raw|]; [|by intros [= <-]].
  cbv zeta. destruct (is_empty (trim raw)); [by intros [= <-]|].
  intros H%ok_or_ok. by eapply parse_u64_range.
Qed.

Lemma env_policy_typed env p :
  escrow_fee_policy_from_env env = Ok p -> policy_typed p /\ fee_bps p <= 10000.
Proof.
  unfold escrow_fee_policy_from_env.
  intros (m & Hm & (f & Hf & (b & Hb & H)%rbind_ok)%rbind_ok)%rbind_ok.
  apply rbind_ok in H as ([] & _ & ([] & Hle%fail_if_ok%Z.ltb_ge & [= <-])%rbind_ok).
  apply env_u64_range in Hm, Hf, Hb; try (unfold is_u64, U64_MAX; lia).
  unfold policy_typed, is_u32, is_u64, U32_MAX in *. simpl. lia.
Qed.

(** The fee in hundredths of a percent, rounded up. *)
Definition percent_fee_of (amount bps fee : Z) : Prop :=
  amount * bps <= fee * 10000 < amount * bps + 10000.

Lemma percent_fee_exists amount bps :
  is_u64 amount -> is_u32 bps ->
  let n := if bps =? 0 then 0 else sat_add_u128 (amount * bps) 9999 / 10000 in
  percent_fee_of amount bps n /\ 0 <= n.
Proof.
  unfold is_u64, is_u32, U64_MAX, U32_MAX, percent_fee_of. intros Ha Hb.
  assert (0 <= amount * bps <= 18446744073709551615 * 4294967295) as Hp by nia.
  destruct (Z.eqb_spec bps 0) as [->|_]; [lia|].
  unfold sat_add_u128, U128_MAX. rewrite Z.min_r by lia.
  pose proof (Z.div_mod (amount * bps + 9999) 10000). 
  pose proof (Z.mod_pos_bound (amount * bps + 9999) 10000). lia.
Qed.

Lemma percent_fee_unique amount bps f g :
  percent_fee_of amount bps f -> percent_fee_of amount bps g -> f = g.
Proof. unfold percent_fee_of. lia. Qed.

Lemma quote_covers p amount q :
  policy_typed p -> is_u64 amount -> quote p amount = Ok q ->
  amount <= required_funding_atomic q /\ required_funding_atomic q <= U64_MAX.
Proof.
  intros (_ & Hf & _) Ha. unfold quote. cbv zeta.
  intros (m & _ & (r & [<- Hr]%ok_or_ok%u64_try_from_some & [= <-])%rbind_ok)%rbind_ok.
  unfold is_u64 in *. simpl. lia.
Qed.

(** ** Theorems *)

(** A quote is given exactly when the funding fits an unsigned 64-bit number;
    the fee is the floor or the percentage rounded up, whichever is larger, and
    the funding is the amount plus that fee, computed without wrap-around. *)
Theorem fee_quote_exact p amount q :
  policy_typed p -> is_u64 amount ->
  quote p amount = Ok q <->
  exists percent, percent_fee_of amount (fee_bps p) percent
    /\ fee_atomic q = Z.max (fee_floor_atomic p) percent
    /\ required_funding_atomic q = amount + fee_atomic q
    /\ required_funding_atomic q <= U64_MAX.
Proof.
  intros (_ & Hf & Hb) Ha. unfold quote. cbv zeta.
  destruct (percent_fee_exists amount (fee_bps p) Ha Hb) as [Hn Hn0].
  change (BPS_DENOMINATOR - 1) with 9999. change BPS_DENOMINATOR with 10000.
  set (n := if fee_bps p =? 0 then 0 else _) in *. split.
  - intros (m & [<- Hm]%ok_or_ok%u64_try_from_some & H)%rbind_ok.
    apply rbind_ok in H as (r & [<- Hr]%ok_or_ok%u64_try_from_some & [= <-]).
    exists n. done.
  - intros (m & Hm & E1 & E2 & Hle). rewrite (percent_fee_unique _ _ _ _ Hm Hn) in E1.
    unfold is_u64 in *.
    rewrite (proj2 (u64_try_from_some n n)) by lia. cbn [ok_or rbind].
    unfold checked_add_u64. rewrite <- E1, <- E2.
    rewrite (proj2 (u64_try_from_some _ _)) by (split; [reflexivity|done]). cbn [ok_or rbind].
    by destruct q; simpl in *; subst.
Qed.

Lemma fee_quote_exact_witness :
  quote (MkFeePolicy 1 10 250) 10001 = Ok (MkQuote 251 10252).
Proof.
  apply (fee_quote_exact (MkFeePolicy 1 10 250) 10001 (MkQuote 251 10252)).
  - unfold policy_typed, is_u64, is_u32, U64_MAX, U32_MAX. simpl. lia.
  - unfold is_u64, U64_MAX. lia.
  - exists 251. unfold percent_fee_of, U64_MAX. simpl. lia.
Defined.

Lemma parse_u64_examples :
  parse_u64 "250" = Some 250 /\ parse_u64 "+7" = Some 7 /\ parse_u64 "+" = None /\ parse_u64 "" = None
  /\ parse_u64 "1x" = None /\ parse_u64 "18446744073709551616" = None.
Proof. vm_compute. done. Qed.
