(* ===== verification/Bridge.v ===== *)
(** * The stateless bridge to the escrow contract

    [crates/nxms-monero-core/src/bridge.rs]: each request carries the stored
    fields of an escrow; the bridge rebuilds a contract from them, performs one
    call and answers with the new fields.  The wallet RPC is a parameter: the
    three calls that the bridge makes for the arbiter return a string or an
    error. *)

From S2P Require Import Prelude RustString XmrAddress Escrow EscrowRefine EscrowProps FeePolicy.

(** ** Requests and responses *)

Record BridgeSubmitR1Request : Type := MkR1Req {
  q1_escrow_id : Z;
  q1_state : string;
  q1_actor_role : string;
  q1_multisig_info : string;
  q1_refund_address : option string;
  q1_xmr_r1_buyer : option string;
  q1_xmr_r1_seller : option string;
  q1_xmr_r1_arbiter : option string;
  q1_xmr_r2_arbiter : option string;
  q1_refund_address_buyer : option string;
  q1_refund_address_seller : option string;
}.
Record BridgeSubmitR1Response : Type := MkR1Resp {
  p1_state : string;
  p1_xmr_r1_buyer : option string;
  p1_xmr_r1_seller : option string;
  p1_xmr_r1_arbiter : option string;
  p1_xmr_r2_arbiter : option string;
  p1_refund_address_buyer : option string;
  p1_refund_address_seller : option string;
}.
Record BridgeSubmitR2Request : Type := MkR2Req {
  q2_escrow_id : Z;
  q2_state : string;
  q2_actor_role : string;
  q2_multisig_info : string;
  q2_xmr_r2_buyer : option string;
  q2_xmr_r2_seller : option string;
  q2_xmr_r2_arbiter : option string;
  q2_xmr_r3_arbiter : option string;
}.
Record BridgeSubmitR2Response : Type := MkR2Resp {
  p2_state : string;
  p2_xmr_r2_buyer : option string;
  p2_xmr_r2_seller : option string;
  p2_xmr_r2_arbiter : option string;
  p2_xmr_r3_arbiter : option string;
}.
Record BridgeSubmitR3Request : Type := MkR3Req {
  q3_escrow_id : Z;
  q3_state : string;
  q3_actor_role : string;
  q3_multisig_info : string;
  q3_xmr_r3_buyer : option string;
  q3_xmr_r3_seller : option string;
  q3_xmr_r3_arbiter : option string;
  q3_deposit_address : option string;
}.
Record BridgeSubmitR3Response : Type := MkR3Resp {
  p3_state : string;
  p3_xmr_r3_buyer : option string;
  p3_xmr_r3_seller : option string;
  p3_xmr_r3_arbiter : option string;
  p3_deposit_address : option string;
}.
Record BridgeDisputeRequest : Type := MkDisputeReq {
  qd_state : string;
  qd_actor_role : string;
  qd_reason : option string;
  qd_dispute_opened_by : option string;
  qd_dispute_reason : option string;
  qd_dispute_opened_at : option Z;
}.
Record BridgeDisputeResponse : Type := MkDisputeResp {
  pd_state : string;
  pd_dispute_opened_by : option string;
  pd_dispute_reason : option string;
  pd_dispute_opened_at : option Z;
}.
(** [BridgeConfirmReleaseRequest] and [BridgeConfirmRefundRequest] *)
Record BridgeConfirmRequest : Type := MkConfirmReq {
  qc_state : string;
  qc_actor_role : string;
  qc_txid : option string;
  qc_stored_txid : option string;
  qc_confirm_buyer : bool;
  qc_confirm_seller : bool;
  qc_confirm_arbiter : bool;
}.
Record BridgeConfirmResponse : Type := MkConfirmResp {
  pc_state : string;
  pc_stored_txid : option string;
  pc_confirm_buyer : bool;
  pc_confirm_seller : bool;
  pc_confirm_arbiter : bool;
  pc_confirmations : Z;
}.
Record BridgeFundedRequest : Type := MkFundedReq {
  qf_state : string; qf_amount_atomic : Z; qf_unlocked_balance : Z }.

(** ** Names of states and parties *)

Definition parse_participant (role : string) : result MoneroError EscrowParticipant :=
  if (role =? "buyer")%string then Ok Buyer
  else if (role =? "seller")%string then Ok Seller
  else if (role =? "arbiter")%string then Ok Arbiter
  else Err (InvalidArgument ("unknown actor role: " +:+ role)).

Definition parse_participant_opt (role : option string) : result MoneroError (option EscrowParticipant) :=
  match role with
  | None => Ok None
  | Some role => let? p := parse_participant role in Ok (Some p)
  end.

Definition format_participant (role : EscrowParticipant) : string :=
  match role with Buyer => "buyer" | Seller => "seller" | Arbiter => "arbiter" end.

Definition parse_state (v : string) : result MoneroError EscrowState :=
  if (v =? "NEW")%string then Ok New
  else if (v =? "XMR_MSIG_R1")%string then Ok XmrMsigR1
  else if (v =? "XMR_MSIG_R2")%string then Ok XmrMsigR2
  else if (v =? "XMR_MSIG_R3")%string then Ok XmrMsigR3
  else if (v =? "READY")%string then Ok Ready
  else if (v =? "FUNDED")%string then Ok Funded
  else if (v =? "RELEASED")%string then Ok Released
  else if (v =? "REFUNDED")%string then Ok Refunded
  else if (v =? "DISPUTE")%string then Ok Dispute
  else if (v =? "CLOSED")%string then Ok Closed
  else Err (InvalidArgument ("unknown escrow state: " +:+ v)).

Definition format_state (v : EscrowState) : string :=
  match v with
  | New => "NEW" | XmrMsigR1 => "XMR_MSIG_R1" | XmrMsigR2 => "XMR_MSIG_R2" | XmrMsigR3 => "XMR_MSIG_R3"
  | Ready => "READY" | Funded => "FUNDED" | Released => "RELEASED" | Refunded => "REFUNDED"
  | Dispute => "DISPUTE" | Closed => "CLOSED"
  end.

(** ** Errors of the wallet *)

(** [{code}] of an [i64] *)
Definition dec_i64 (n : Z) : string := if n <? 0 then "-" +:+ dec (- n) else dec n.

Definition rpc_error_text (e : WalletRpcError) : string :=
  match e with
  | Transport v | Auth v | Protocol v | InvalidResponse v => v
  | HttpStatus status body => "http status " +:+ dec status +:+ ": " +:+ body
  | Rpc code message => "code=" +:+ dec_i64 code +:+ ", message=" +:+ message
  end.

Definition contains_case_insensitive (e : WalletRpcError) (needle : string) : bool :=
  contains (to_ascii_lowercase needle) (to_ascii_lowercase (rpc_error_text e)).

Definition is_finalize_fallback_error (err : MoneroError) : bool :=
  match err with
  | WalletRpc rpc_err =>
      contains_case_insensitive rpc_err "already multisig"
      || contains_case_insensitive rpc_err "already finalized"
      || match rpc_err with
         | Rpc code message => (code =? 0) && is_empty (trim message)
         | _ => false
         end
  | _ => false
  end.

(** ** Calls *)

(** Runs a call on a contract of its own and keeps the contract. *)
Definition exec {A} (m : M EscrowContract MoneroError A) (c : EscrowContract)
    : result MoneroError (EscrowContract * A) :=
  match m c with (c', Ok a) => Ok (c', a) | (_, Err e) => Err e end.

(** [EscrowContract::new_xmr(id, "buyer", "seller", "server", amount)] with the
    state of the request. *)
Definition bridge_contract (n amount : Z) (st : EscrowState) : EscrowContract :=
  set_state st (new_xmr n "buyer" "seller" "server" amount).

Definition is_some {A} (o : option A) : bool := match o with Some _ => true | None => false end.

Section bridge.
Context (keccak256 : list Z -> list Z).
(** [make_round2_via_wallet_rpc], [exchange_round3_via_wallet_rpc],
    [finalize_multisig_via_wallet_rpc] and [deposit_address_via_wallet_rpc] of
    the wallet of an escrow. *)
Context (rpc_make_round2 rpc_exchange_round3 rpc_finalize_multisig
  : Z -> list string -> result MoneroError string).
Context (rpc_deposit_address : Z -> result MoneroError string).

Definition submit_r1 (req : BridgeSubmitR1Request) : result MoneroError BridgeSubmitR1Response :=
  let? st := parse_state (q1_state req) in
  let c := bridge_contract (q1_escrow_id req) 0 st in
  let c := set_xmr_r1_buyer (q1_xmr_r1_buyer req) c in
  let c := set_xmr_r1_seller (q1_xmr_r1_seller req) c in
  let c := set_xmr_r1_arbiter (q1_xmr_r1_arbiter req) c in
  let c := set_xmr_r2_arbiter (q1_xmr_r2_arbiter req) c in
  let c := set_refund_address_buyer (q1_refund_address_buyer req) c in
  let c := set_refund_address_seller (q1_refund_address_seller req) c in
  let? actor := parse_participant (q1_actor_role req) in
  let? (c, _) := match actor with
    | Buyer | Seller => exec (submit_round1 keccak256 actor (q1_multisig_info req) (q1_refund_address req)) c
    | Arbiter => exec (set_arbiter_round1 (q1_multisig_info req)) c
    end in
  let? c :=
    if is_some (xmr_r1_buyer c) && is_some (xmr_r1_seller c) && is_some (xmr_r1_arbiter c)
       && negb (is_some (xmr_r2_arbiter c)) then
      let? b := ok_or (xmr_r1_buyer c) (MissingData "xmr_r1_buyer missing") in
      let? s := ok_or (xmr_r1_seller c) (MissingData "xmr_r1_seller missing") in
      let? r2 := rpc_make_round2 (q1_escrow_id req) [b; s] in
      let? (c, _) := exec (set_arbiter_round2 r2) c in
      Ok c
    else Ok c in
  Ok (MkR1Resp (format_state (state c)) (xmr_r1_buyer c) (xmr_r1_seller c) (xmr_r1_arbiter c)
        (xmr_r2_arbiter c) (refund_address_buyer c) (refund_address_seller c)).

Definition submit_r2 (req : BridgeSubmitR2Request) : result MoneroError BridgeSubmitR2Response :=
  let? st := parse_state (q2_state req) in
  let c := bridge_contract (q2_escrow_id req) 0 st in
  let c := set_xmr_r2_buyer (q2_xmr_r2_buyer req) c in
  let c := set_xmr_r2_seller (q2_xmr_r2_seller req) c in
  let c := set_xmr_r2_arbiter (q2_xmr_r2_arbiter req) c in
  let c := set_xmr_r3_arbiter (q2_xmr_r3_arbiter req) c in
  let? actor := parse_participant (q2_actor_role req) in
  let? (c, _) := match actor with
    | Buyer | Seller => exec (submit_round2 actor (q2_multisig_info req)) c
    | Arbiter => exec (set_arbiter_round2 (q2_multisig_info req)) c
    end in
  let? c :=
    if is_some (xmr_r2_buyer c) && is_some (xmr_r2_seller c) && is_some (xmr_r2_arbiter c)
       && negb (is_some (xmr_r3_arbiter c)) then
      let? b := ok_or (xmr_r2_buyer c) (MissingData "xmr_r2_buyer missing") in
      let? s := ok_or (xmr_r2_seller c) (MissingData "xmr_r2_seller missing") in
      let? r3 := rpc_exchange_round3 (q2_escrow_id req) [b; s] in
      let? (c, _) := exec (set_arbiter_round3 r3) c in
      Ok c
    else Ok c in
  Ok (MkR2Resp (format_state (state c)) (xmr_r2_buyer c) (xmr_r2_seller c) (xmr_r2_arbiter c)
        (xmr_r3_arbiter c)).

Definition submit_r3 (req : BridgeSubmitR3Request) : result MoneroError BridgeSubmitR3Response :=
  let? st := parse_state (q3_state req) in
  let c := bridge_contract (q3_escrow_id req) 0 st in
  let c := set_xmr_r3_buyer (q3_xmr_r3_buyer req) c in
  let c := set_xmr_r3_seller (q3_xmr_r3_seller req) c in
  let c := set_xmr_r3_arbiter (q3_xmr_r3_arbiter req) c in
  let c := set_deposit_address_field (q3_deposit_address req) c in
  let? actor := parse_participant (q3_actor_role req) in
  let? (c, _) := match actor with
    | Buyer | Seller => exec (submit_round3 actor (q3_multisig_info req)) c
    | Arbiter => exec (set_arbiter_round3 (q3_multisig_info req)) c
    end in
  let? c :=
    if is_some (xmr_r3_buyer c) && is_some (xmr_r3_seller c) && is_some (xmr_r3_arbiter c)
       && negb (is_some (deposit_address c)) then
      let? b := ok_or (xmr_r3_buyer c) (MissingData "xmr_r3_buyer missing") in
      let? s := ok_or (xmr_r3_seller c) (MissingData "xmr_r3_seller missing") in
      let? deposit :=
        match rpc_finalize_multisig (q3_escrow_id req) [b; s] with
        | Ok address => Ok address
        | Err err => if is_finalize_fallback_error err then rpc_deposit_address (q3_escrow_id req)
                     else Err err
        end in
      let? (c, _) := exec (set_deposit_address keccak256 deposit) c in
      Ok c
    else Ok c in
  Ok (MkR3Resp (format_state (state c)) (xmr_r3_buyer c) (xmr_r3_seller c) (xmr_r3_arbiter c)
        (deposit_address c)).

(** [now] is [now_ts()]. *)
Definition bridge_dispute (now : Z) (req : BridgeDisputeRequest)
    : result MoneroError BridgeDisputeResponse :=
  let? st := parse_state (qd_state req) in
  let c := bridge_contract 0 0 st in
  let? opened_by := parse_participant_opt (qd_dispute_opened_by req) in
  let? (c, _) := exec (import_dispute_snapshot opened_by (qd_dispute_reason req)
                         (qd_dispute_opened_at req)) c in
  let? actor := parse_participant (qd_actor_role req) in
  let? (c, _) := exec (open_dispute now actor (qd_reason req)) c in
  let '(opened_by, reason, opened_at) := dispute_snapshot c in
  Ok (MkDisputeResp (format_state (state c)) (option_map format_participant opened_by) reason opened_at).

Definition bridge_confirm_release (req : BridgeConfirmRequest) : result MoneroError BridgeConfirmResponse :=
  let? st := parse_state (qc_state req) in
  let c := bridge_contract 0 0 st in
  let? (c, _) := exec (import_release_snapshot (qc_confirm_buyer req) (qc_confirm_seller req)
                         (qc_confirm_arbiter req) (qc_stored_txid req)) c in
  let? actor := parse_participant (qc_actor_role req) in
  let? (c, r) := exec (confirm_release actor (qc_txid req)) c in
  let '(buyer, seller, arbiter, txid) := release_snapshot c in
  Ok (MkConfirmResp (format_state (state c)) txid buyer seller arbiter r.2).

Definition bridge_confirm_refund (req : BridgeConfirmRequest) : result MoneroError BridgeConfirmResponse :=
  let? st := parse_state (qc_state req) in
  let c := bridge_contract 0 0 st in
  let? (c, _) := exec (import_refund_snapshot (qc_confirm_buyer req) (qc_confirm_seller req)
                         (qc_confirm_arbiter req) (qc_stored_txid req)) c in
  let? actor := parse_participant (qc_actor_role req) in
  let? (c, r) := exec (confirm_refund actor (qc_txid req)) c in
  let '(buyer, seller, arbiter, txid) := refund_snapshot c in
  Ok (MkConfirmResp (format_state (state c)) txid buyer seller arbiter r.2).

Definition funded_check (env : string -> option string) (req : BridgeFundedRequest)
    : result MoneroError string :=
  let? st := parse_state (qf_state req) in
  let c := bridge_contract 0 (qf_amount_atomic req) st in
  let? fee_policy := escrow_fee_policy_from_env env in
  let? q := quote fee_policy (qf_amount_atomic req) in
  let? c :=
    if bool_decide (state c = Ready) && (required_funding_atomic q <=? qf_unlocked_balance req) then
      let? (c, _) := exec (mark_funded (qf_unlocked_balance req)) c in
      Ok c
    else Ok c in
  Ok (format_state (state c)).

Definition validate_address (address : string) : bool := is_valid_xmr_address keccak256 (trim address).
End bridge.

(** ** Lemmas *)

Lemma parse_format_state s : parse_state (format_state s) = Ok s.
Proof. by destruct s. Qed.

Lemma parse_format_participant p : parse_participant (format_participant p) = Ok p.
Proof. by destruct p. Qed.

Lemma parse_format_participant_opt o :
  parse_participant_opt (option_map format_participant o) = Ok o.
Proof. by destruct o as [[]|]. Qed.

Lemma exec_ok {A} (m : M EscrowContract MoneroError A) c c' a :
  m c = (c', Ok a) -> exec m c = Ok (c', a).
Proof. unfold exec. by intros ->. Qed.

(** What the bridge stores of an escrow for the settlement, and the answers it
    gives about a contract. *)
Definition release_request (c : EscrowContract) (who : EscrowParticipant) (txid : option string)
    : BridgeConfirmRequest :=
  let '(b, s, a, stored) := release_snapshot c in
  MkConfirmReq (format_state (state c)) (format_participant who) txid stored b s a.
Definition release_response (c : EscrowContract) (n : Z) : BridgeConfirmResponse :=
  let '(b, s, a, stored) := release_snapshot c in
  MkConfirmResp (format_state (state c)) stored b s a n.
Definition refund_request (c : EscrowContract) (who : EscrowParticipant) (txid : option string)
    : BridgeConfirmRequest :=
  let '(b, s, a, stored) := refund_snapshot c in
  MkConfirmReq (format_state (state c)) (format_participant who) txid stored b s a.
Definition refund_response (c : EscrowContract) (n : Z) : BridgeConfirmResponse :=
  let '(b, s, a, stored) := refund_snapshot c in
  MkConfirmResp (format_state (state c)) stored b s a n.
Definition dispute_request (c : EscrowContract) (who : EscrowParticipant) (reason : option string)
    : BridgeDisputeRequest :=
  let '(by_, stored, at_) := dispute_snapshot c in
  MkDisputeReq (format_state (state c)) (format_participant who) reason
    (option_map format_participant by_) stored at_.
Definition dispute_response (c : EscrowContract) : BridgeDisputeResponse :=
  let '(by_, stored, at_) := dispute_snapshot c in
  MkDisputeResp (format_state (state c)) (option_map format_participant by_) stored at_.

Definition rmap {E A B} (f : A -> B) (r : result E A) : result E B := let? a := r in Ok (f a).

(** Both contracts settle or neither does, and the answers agree. *)
Ltac same_answer Hresp :=
  destruct (2 <=? _); unfold rmap, rbind; cbn [fst snd]; f_equal; apply Hresp;
  cbn [state release_txid release_confirmations refund_txid refund_confirmations set_state
    set_release_confirmations set_release_txid set_refund_confirmations set_refund_txid];
  congruence.

(** A confirmation reads and writes the state, the transaction id and the
    confirmations only. *)
Lemma confirm_release_local who txid c d :
  state d = state c -> release_txid d = release_txid c ->
  release_confirmations d = release_confirmations c ->
  rmap (fun x => release_response x.1 x.2.2) (exec (confirm_release who txid) d)
  = rmap (fun x => release_response x.1 x.2.2) (exec (confirm_release who txid) c).
Proof.
  intros Es Et Ec.
  assert (forall c' d' : EscrowContract, state d' = state c' -> release_txid d' = release_txid c' ->
    release_confirmations d' = release_confirmations c' -> forall n,
    release_response d' n = release_response c' n) as Hresp.
  { intros c' d' E1 E2 E3 n. unfold release_response, release_snapshot. by rewrite E1, E2, E3. }
  unfold exec, confirm_release, ensure_state, ensure_state_in, set_once, validate_txid, transition. run_m.
  rewrite Es. destruct (bool_decide (state c = Refunded)); [done|].
  destruct (negb (bool_decide (state c ∈ _))); [done|].
  destruct txid as [v|]; cbn [fget slot_release_txid].
  - destruct (negb ((len v =? 64) && _)); [done|]. destruct (true && is_empty (trim v)); [done|].
    rewrite Et. destruct (release_txid c) as [cur|] eqn:E.
    + destruct (negb (cur =? v)%string); [done|].
      cbn [release_confirmations set_release_confirmations]. rewrite Ec.
      same_answer Hresp.
    + cbn [release_confirmations set_release_confirmations fset set_release_txid slot_release_txid].
      rewrite Ec.
      same_answer Hresp.
  - cbn [release_confirmations set_release_confirmations]. rewrite Ec.
    same_answer Hresp.
Qed.

Lemma confirm_refund_local who txid c d :
  state d = state c -> refund_txid d = refund_txid c ->
  refund_confirmations d = refund_confirmations c ->
  rmap (fun x => refund_response x.1 x.2.2) (exec (confirm_refund who txid) d)
  = rmap (fun x => refund_response x.1 x.2.2) (exec (confirm_refund who txid) c).
Proof.
  intros Es Et Ec.
  assert (forall c' d' : EscrowContract, state d' = state c' -> refund_txid d' = refund_txid c' ->
    refund_confirmations d' = refund_confirmations c' -> forall n,
    refund_response d' n = refund_response c' n) as Hresp.
  { intros c' d' E1 E2 E3 n. unfold refund_response, refund_snapshot. by rewrite E1, E2, E3. }
  unfold exec, confirm_refund, ensure_state, ensure_state_in, set_once, validate_txid, transition. run_m.
  rewrite Es. destruct (bool_decide (state c = Released)); [done|].
  destruct (negb (bool_decide (state c ∈ _))); [done|].
  destruct txid as [v|]; cbn [fget slot_refund_txid].
  - destruct (negb ((len v =? 64) && _)); [done|]. destruct (true && is_empty (trim v)); [done|].
    rewrite Et. destruct (refund_txid c) as [cur|] eqn:E.
    + destruct (negb (cur =? v)%string); [done|].
      cbn [refund_confirmations set_refund_confirmations]. rewrite Ec.
      same_answer Hresp.
    + cbn [refund_confirmations set_refund_confirmations fset set_refund_txid slot_refund_txid].
      rewrite Ec.
      same_answer Hresp.
  - cbn [refund_confirmations set_refund_confirmations]. rewrite Ec.
    same_answer Hresp.
Qed.

(** A dispute reads and writes the state and the dispute data only. *)
Lemma open_dispute_local now who reason c d :
  state d = state c -> dispute_snapshot d = dispute_snapshot c ->
  rmap (fun x => dispute_response x.1) (exec (open_dispute now who reason) d)
  = rmap (fun x => dispute_response x.1) (exec (open_dispute now who reason) c).
Proof.
  intros Es [= Eb Er Ea].
  unfold exec, open_dispute, ensure_state, ensure_state_in, transition. run_m. rewrite Es.
  destruct (negb (bool_decide (state c ∈ _))); [done|].
  destruct (normalize_dispute_reason reason) as [nr|]; [|done]. rewrite Eb.
  destruct (dispute_opened_by c) as [existing|] eqn:Ebc.
  1: destruct (negb (bool_decide (existing = who))); [done|].
  all: destruct nr as [r|]; cbn [dispute_reason dispute_opened_at set_dispute_opened_by].
  1, 3: rewrite Er; destruct (dispute_reason c) as [cur|] eqn:Erc;
    [destruct (negb (cur =? r)%string); [done|]|];
    cbn [dispute_opened_at set_dispute_opened_by set_dispute_reason].
  all: rewrite Ea; destruct (dispute_opened_at c) as [t|] eqn:Eac;
    unfold rmap, rbind, dispute_response, dispute_snapshot; cbn [fst snd state dispute_opened_by
      dispute_reason dispute_opened_at set_state set_dispute_opened_by set_dispute_reason
      set_dispute_opened_at]; congruence.
Qed.

(** ** Theorems *)

(** The stateless bridge computes what the contract computes: asked with the
    stored fields of any reachable contract, it answers a confirmation of a
    release or a refund with the fields of the contract after the call and the
    same count, or with the same error. *)
Theorem bridge_confirm_simulates keccak256 ops n buyer seller arbiter amount who txid :
  let c := run_escrow keccak256 ops (new_xmr n buyer seller arbiter amount) in
  bridge_confirm_release (release_request c who txid)
  = rmap (fun x => release_response x.1 x.2.2) (exec (confirm_release who txid) c)
  /\ bridge_confirm_refund (refund_request c who txid)
  = rmap (fun x => refund_response x.1 x.2.2) (exec (confirm_refund who txid) c).
Proof.
  intros c. pose proof (reachable_ok keccak256 ops n buyer seller arbiter amount) as Hok. fold c in Hok.
  split.
  - unfold release_request. destruct (release_snapshot c) as [[[rb rs] ra] rt] eqn:Er.
    unfold bridge_confirm_release. cbn [qc_state qc_actor_role qc_txid qc_stored_txid qc_confirm_buyer
      qc_confirm_seller qc_confirm_arbiter]. rewrite parse_format_state. cbn [rbind].
    rewrite (exec_ok _ _ _ _ (import_release_ok _ c _ _ _ _ Er (fun t Ht => ok_txid _ _ Hok t (or_introl Ht)))).
    cbn [rbind]. rewrite parse_format_participant. cbn [rbind].
    rewrite <- (confirm_release_local who txid c (set_release_txid (release_txid c)
      (set_release_confirmations (release_confirmations c) (bridge_contract 0 0 (state c))))) by done.
    by destruct (exec _ _) as [[c' [t k]]|e].
  - unfold refund_request. destruct (refund_snapshot c) as [[[rb rs] ra] rt] eqn:Er.
    unfold bridge_confirm_refund. cbn [qc_state qc_actor_role qc_txid qc_stored_txid qc_confirm_buyer
      qc_confirm_seller qc_confirm_arbiter]. rewrite parse_format_state. cbn [rbind].
    rewrite (exec_ok _ _ _ _ (import_refund_ok _ c _ _ _ _ Er (fun t Ht => ok_txid _ _ Hok t (or_intror Ht)))).
    cbn [rbind]. rewrite parse_format_participant. cbn [rbind].
    rewrite <- (confirm_refund_local who txid c (set_refund_txid (refund_txid c)
      (set_refund_confirmations (refund_confirmations c) (bridge_contract 0 0 (state c))))) by done.
    by destruct (exec _ _) as [[c' [t k]]|e].
Qed.

(** The stateless bridge also opens disputes as the contract does: asked with
    the stored fields of any reachable contract whose dispute time, if it has
    one, is positive, it answers with the dispute data of the contract after the
    call, or with the same error. *)
Theorem bridge_dispute_simulates keccak256 ops n buyer seller arbiter amount now who reason :
  let c := run_escrow keccak256 ops (new_xmr n buyer seller arbiter amount) in
  (forall t, dispute_opened_at c = Some t -> 0 < t) ->
  bridge_dispute now (dispute_request c who reason)
  = rmap (fun x => dispute_response x.1) (exec (open_dispute now who reason) c).
Proof.
  intros c Hat. pose proof (reachable_ok keccak256 ops n buyer seller arbiter amount) as Hok. fold c in Hok.
  unfold dispute_request, dispute_snapshot, bridge_dispute.
  cbn [qd_state qd_actor_role qd_reason qd_dispute_opened_by qd_dispute_reason qd_dispute_opened_at].
  rewrite parse_format_state, parse_format_participant_opt. cbn [rbind].
  rewrite (exec_ok _ _ _ _ (import_dispute_ok (bridge_contract 0 0 (state c)) (dispute_opened_by c) _ _
    (fun r Hr => proj2 (ok_reason _ _ Hok r Hr)) Hat)). cbn [rbind].
  rewrite parse_format_participant. cbn [rbind].
  rewrite <- (open_dispute_local now who reason c (set_dispute_opened_at (dispute_opened_at c)
    (set_dispute_reason (dispute_reason c) (set_dispute_opened_by (dispute_opened_by c)
      (bridge_contract 0 0 (state c)))))) by done.
  by destruct (exec _ _) as [[c' t]|e].
Qed.

(** The arbiter cannot hand in the second or third round through the bridge:
    the contract the bridge rebuilds lacks the data of the round before, which
    the arbiter's call requires, so every such request fails, whatever it holds
    and whatever the wallet answers. *)
Theorem bridge_arbiter_rounds_fail keccak256 rpc3 rpcf rpcd (r2 : BridgeSubmitR2Request)
    (r3 : BridgeSubmitR3Request) :
  q2_actor_role r2 = "arbiter"%string -> q3_actor_role r3 = "arbiter"%string ->
  is_err (submit_r2 rpc3 r2) = true /\ is_err (submit_r3 keccak256 rpcf rpcd r3) = true.
Proof.
  intros E2 E3. split.
  - unfold submit_r2. destruct (parse_state (q2_state r2)) as [st|]; [|done]. rewrite E2.
    destruct st; done.
  - unfold submit_r3. destruct (parse_state (q3_state r3)) as [st|]; [|done]. rewrite E3.
    destruct st; done.
Qed.

(** The funding check answers FUNDED for a READY escrow exactly when the
    balance covers the quote, and otherwise repeats the state it was given; the
    contract's own check of the amount never fails it. *)
Theorem funded_check_exact env policy q st amount balance :
  escrow_fee_policy_from_env env = Ok policy -> is_u64 amount -> quote policy amount = Ok q ->
  funded_check env (MkFundedReq (format_state st) amount balance)
  = Ok (if bool_decide (st = Ready) && (required_funding_atomic q <=? balance) then "FUNDED"
        else format_state st).
Proof.
  intros Hp Ha Hq. destruct (env_policy_typed _ _ Hp) as [Ht _].
  unfold funded_check. cbn [qf_state qf_amount_atomic qf_unlocked_balance].
  rewrite parse_format_state. cbn [rbind]. rewrite Hp. cbn [rbind]. rewrite Hq. cbn [rbind].
  destruct (quote_covers _ _ _ Ht Ha Hq) as [Hge _].
  change (state (bridge_contract 0 amount st)) with st.
  destruct (bool_decide (st = Ready)) eqn:Es; [|done]. apply bool_decide_eq_true_1 in Es as ->.
  destruct (Z.leb_spec (required_funding_atomic q) balance) as [Hb|Hb]; [|done].
  cbn [andb]. unfold exec, mark_funded. run_m.
  rewrite ensure_state_here by slot_in. cbv beta iota.
  change (amount_atomic (bridge_contract 0 amount Ready)) with amount.
  rewrite (proj2 (Z.ltb_ge balance amount)) by lia. done.
Qed.

(** ** Instances *)

Definition demo_fee_env (key : string) : option string :=
  if (key =? "ESCROW_FEE_BPS")%string then Some " 250 " else None.

Lemma bridge_dispute_simulates_witness :
  bridge_dispute 5 (dispute_request (run_escrow demo_keccak demo_dispute_ops (new_xmr 1 "b" "s" "a" 10))
    Buyer (Some "late"))
  = Ok (MkDisputeResp "DISPUTE" (Some "buyer") (Some "late") (Some 1700000000)).
Proof.
  rewrite (bridge_dispute_simulates demo_keccak demo_dispute_ops 1 "b" "s" "a" 10 5 Buyer (Some "late")).
  - vm_compute. reflexivity.
  - vm_compute. intros t [= <-]. reflexivity.
Defined.

Lemma bridge_arbiter_rounds_fail_witness :
  is_err (submit_r2 (fun _ _ => Ok "r3")
    (MkR2Req 1 "XMR_MSIG_R2" "arbiter" "info" (Some "b") (Some "s") None None)) = true
  /\ is_err (submit_r3 demo_keccak (fun _ _ => Ok "addr") (fun _ => Ok "addr")
    (MkR3Req 1 "XMR_MSIG_R3" "arbiter" "info" (Some "b") (Some "s") None None)) = true.
Proof. apply bridge_arbiter_rounds_fail; reflexivity. Defined.

Lemma funded_check_exact_witness :
  funded_check demo_fee_env (MkFundedReq "READY" 10000 10250) = Ok "FUNDED"%string
  /\ funded_check demo_fee_env (MkFundedReq "READY" 10000 10249) = Ok "READY"%string.
Proof.
  split.
  - apply (funded_check_exact demo_fee_env (MkFeePolicy 1 0 250) (MkQuote 250 10250) Ready 10000 10250);
      [vm_compute; reflexivity|unfold is_u64, U64_MAX; lia|vm_compute; reflexivity].
  - apply (funded_check_exact demo_fee_env (MkFeePolicy 1 0 250) (MkQuote 250 10250) Ready 10000 10249);
      [vm_compute; reflexivity|unfold is_u64, U64_MAX; lia|vm_compute; reflexivity].
Defined.
