(* ===== verification/Mailbox.v ===== *)
(** * The mailbox

    [crates/nxms-mailbox/src/db.rs], the limiter of [lib.rs] and the request
    handling of [api.rs]: messages wait in inboxes until they are leased by a
    pull and deleted by an acknowledgement or by expiry.  The table is a [table]
    of [Sql.v]; the clock is an argument, [serde_json] on envelopes an interface
    ([MailboxExt]) and the receipts of a pull a function from the position in
    the batch.  SQLite statements fail only on constraints. *)

From S2P Require Import Prelude RustString Sql Wire.

Class MailboxExt : Type := {
  envelope_to_string : NxmsEnvelope -> string;
  envelope_from_str : string -> option NxmsEnvelope;
}.
Class MailboxLaws `{MailboxExt} : Prop := {
  envelope_roundtrip : forall e, envelope_from_str (envelope_to_string e) = Some e;
}.

(** ** Data *)

Record MailboxLimits : Type := MkMailboxLimits {
  max_messages_per_inbox : Z; max_bytes_per_inbox : Z; max_rows_global : Z }.

Inductive PushRejection : Type := InboxMessageLimit | InboxBytesLimit | GlobalRowsLimit.
Record PushResult : Type := MkPushResult { pr_dedup : bool; pr_rejection : option PushRejection }.
Record LeasedMessage : Type := MkLeased { lm_receipt : string; lm_envelope : NxmsEnvelope }.
Record InboxStats : Type := MkInboxStats {
  is_to : string; is_backlog_count : Z; is_oldest_age_secs : Z; is_bytes : Z }.

Record msg_row : Type := MsgRow {
  mr_id : Z;
  mr_to : string;
  mr_from : string;
  mr_escrow_id_hex : string;
  mr_msg_type : string;
  mr_seq : Z;
  mr_envelope_json : string;
  mr_received_at_ms : Z;
  mr_expires_at_ms : Z;
  mr_lease_id : option string;
  mr_lease_until_ms : option Z;
}.

Notation mailbox := (table msg_row).

Inductive MailboxError : Type := MbSql (e : SqlError) | MbEnvelopeJson.

(** ** The table *)

(** The unique index on [(to_id, from_id, escrow_id_hex, seq)]. *)
Definition msg_key (r : msg_row) : string * string * string * Z :=
  (mr_to r, mr_from r, mr_escrow_id_hex r, mr_seq r).
Definition msg_clash (a b : msg_row) : bool := bool_decide (msg_key a = msg_key b).
Definition expired (now : Z) (r : msg_row) : bool := mr_expires_at_ms r <=? now.

(** [LENGTH] of a text counts characters, that is the bytes that do not
    continue a UTF-8 sequence. *)
Definition is_utf8_continuation (c : ascii) : bool := in_range 128 191 c.
Definition sql_length (s : string) : Z :=
  Z.of_nat (length (List.filter (fun c => negb (is_utf8_continuation c)) (bytes_of s))).
(** [COALESCE(SUM(LENGTH(envelope_json)), 0)] *)
Definition sum_length (l : list msg_row) : Z :=
  foldr Z.add 0 (map (fun r => sql_length (mr_envelope_json r)) l).

Definition empty_mailbox : mailbox := empty_table.

Definition delete_msgs {E} (p : msg_row -> bool) : M mailbox E Z :=
  fun m => (Table (t_seq m) (delete_rows p (t_rows m)), Ok (count_rows p (t_rows m))).

Section operations.
Context `{MailboxExt}.

Definition row_of (now expires_at_ms : Z) (env : NxmsEnvelope) (id : Z) : msg_row :=
  MsgRow id (ev_to env) (ev_from env) (ev_escrow_id_hex env) (msg_type_key (ev_msg_type env))
    (to_i64 (ev_seq env)) (envelope_to_string env) now expires_at_ms None None.

Definition same_key (env : NxmsEnvelope) (r : msg_row) : bool :=
  (mr_to r =? ev_to env)%string && (mr_from r =? ev_from env)%string
  && (mr_escrow_id_hex r =? ev_escrow_id_hex env)%string && (mr_seq r =? to_i64 (ev_seq env)).

(** [tx.commit()?; return Ok(..)] *)
Definition commit_ret {A} (a : A) : M (txn mailbox) MailboxError A :=
  let* _ := commit in sret a.

Definition push_sync (now : Z) (env : NxmsEnvelope) (ttl_secs : Z) (limits : MailboxLimits)
    : M mailbox MailboxError PushResult :=
  let ttl_ms := to_i64 (sat_mul_u64 ttl_secs 1000) in
  let expires_at_ms := sat_add_i64 now (Z.max ttl_ms 1) in
  let envelope_json := envelope_to_string env in
  let envelope_bytes := len envelope_json in
  transaction (
    let* _ := in_tx (delete_msgs (expired now)) in
    let* exists_ := in_tx (sget (fun m => existsb (same_key env) (t_rows m))) in
    if (exists_ : bool) then commit_ret (MkPushResult true None)
    else
      let* global_rows := in_tx (sget (fun m => Z.of_nat (length (t_rows m)))) in
      if max_rows_global limits <=? global_rows
      then commit_ret (MkPushResult false (Some GlobalRowsLimit))
      else
        let* inbox := in_tx (sget (fun m =>
          List.filter (fun r => mr_to r =? ev_to env)%string (t_rows m))) in
        let inbox_rows := Z.of_nat (length inbox) in
        let inbox_bytes := sum_length inbox in
        if max_messages_per_inbox limits <=? inbox_rows
        then commit_ret (MkPushResult false (Some InboxMessageLimit))
        else if max_bytes_per_inbox limits <? sat_add_u64 inbox_bytes envelope_bytes
        then commit_ret (MkPushResult false (Some InboxBytesLimit))
        else
          let* inserted := in_tx (fun m =>
            match insert_auto msg_clash (fun _ => true) (row_of now expires_at_ms env) m with
            | Ok m' => (m', Ok true)
            | Err ConstraintViolation => (m, Ok false)
            | Err e => (m, Err (MbSql e))
            end) in
          if (inserted : bool) then commit_ret (MkPushResult false None)
          else commit_ret (MkPushResult true None)).

(** [expires_at_ms > now AND (lease_until_ms IS NULL OR lease_until_ms < now)] *)
Definition available (to : string) (now : Z) (r : msg_row) : bool :=
  (mr_to r =? to)%string && (now <? mr_expires_at_ms r)
  && match mr_lease_until_ms r with None => true | Some t => t <? now end.

Definition set_lease (receipt : string) (until : Z) (r : msg_row) : msg_row :=
  MsgRow (mr_id r) (mr_to r) (mr_from r) (mr_escrow_id_hex r) (mr_msg_type r) (mr_seq r)
    (mr_envelope_json r) (mr_received_at_ms r) (mr_expires_at_ms r) (Some receipt) (Some until).

(** The loop over the selected rows; [i] counts the receipts drawn. *)
Fixpoint lease_rows (receipts : nat -> string) (until : Z) (i : nat) (selected : list msg_row)
    : M mailbox MailboxError (list LeasedMessage) :=
  match selected with
  | [] => sret []
  | row :: rest =>
      let* envelope := slift (ok_or (envelope_from_str (mr_envelope_json row)) MbEnvelopeJson) in
      let* _ := smodify (fun m => Table (t_seq m)
        (update_rows (fun r => mr_id r =? mr_id row) (set_lease (receipts i) until) (t_rows m))) in
      let* out := lease_rows receipts until (S i) rest in
      sret (MkLeased (receipts i) envelope :: out)
  end.

(** The deletion of expired rows is best effort in the source, its error dropped
    ([let _ =]); here it succeeds, as every statement does that breaks no
    constraint.  The query leaves out expired rows itself, so what is handed out
    does not depend on it. *)
Definition pull_sync (receipts : nat -> string) (now : Z) (to : string) (max lease_secs : Z)
    : M mailbox MailboxError (list LeasedMessage) :=
  let lease_ms := to_i64 (sat_mul_u64 lease_secs 1000) in
  let lease_until_ms := sat_add_i64 now (Z.max lease_ms 1) in
  let* _ := delete_msgs (expired now) in
  transaction (
    let* selected := in_tx (sget (fun m =>
      limit max (order_asc mr_id (List.filter (available to now) (t_rows m))))) in
    let* out := in_tx (lease_rows receipts lease_until_ms 0 selected) in
    let* _ := commit in
    sret out).

Definition ack_sync (receipt to : string) : M mailbox MailboxError bool :=
  let* n := delete_msgs (fun r => bool_decide (mr_lease_id r = Some receipt) && (mr_to r =? to)%string) in
  sret (0 <? n).

Definition cleanup_expired_sync (now : Z) : M mailbox MailboxError unit :=
  let* _ := delete_msgs (expired now) in
  sret tt.

(** One [GROUP BY to_id] row. *)
Definition inbox_stats (now : Z) (rows : list msg_row) (to : string) : InboxStats :=
  let inbox := List.filter (fun r => mr_to r =? to)%string rows in
  let oldest_ms := match map mr_received_at_ms inbox with [] => 0 | t :: l => foldl Z.min t l end in
  MkInboxStats to (Z.of_nat (length inbox))
    (if (oldest_ms <=? 0) || (now <? oldest_ms) then 0 else to_u64 ((now - oldest_ms) / 1000))
    (sum_length inbox).

(** Without the sizes of the files. *)
Definition stats_sync (now : Z) : M mailbox MailboxError (Z * list InboxStats) :=
  sget (fun m =>
    let live := List.filter (fun r => now <? mr_expires_at_ms r) (t_rows m) in
    (Z.of_nat (length live),
     order_desc is_backlog_count (map (inbox_stats now live) (remove_dups (map mr_to live))))).
End operations.
