(* ===== verification/MailboxInv.v ===== *)
(** * The mailbox: table invariant and closed forms

    What every reachable message table satisfies, and each operation of
    [Mailbox.v] as one equation on such a table: [pushed] and [push_verdict]
    for a push, [selected] and [leased_row] for a pull. *)

From S2P Require Import Prelude RustString Sql Wire Mailbox.
From Stdlib Require Import Sorting.Sorted.

(** ** Lists and tables *)

Lemma delete_rows_length {R} (p : R -> bool) l :
  (length (delete_rows p l) <= length l)%nat.
Proof. apply List.filter_length_le. Qed.

Lemma sorted_filter {R} (key : R -> Z) (p : R -> bool) l :
  StronglySorted Z.lt (map key l) -> StronglySorted Z.lt (map key (List.filter p l)).
Proof.
  induction l as [|r l IH]; simpl; [done|]. intros Hs. apply StronglySorted_inv in Hs as [Hs Hr].
  destruct (p r); simpl; [|by apply IH]. constructor; [by apply IH|].
  rewrite Forall_map in Hr |- *. rewrite Forall_forall in Hr |- *. intros x Hx.
  apply Hr. apply list_elem_of_In, List.filter_In in Hx as [Hx _]. by apply list_elem_of_In.
Qed.

Lemma sorted_NoDup (l : list Z) : StronglySorted Z.lt l -> NoDup l.
Proof.
  induction 1 as [|x l Hl IH Hx]; constructor; [|done].
  intros Hin. rewrite Forall_forall in Hx. specialize (Hx _ Hin). lia.
Qed.

Lemma ids_ok_delete {R} (key : R -> Z) p (t : table R) :
  ids_ok key t -> ids_ok key (Table (t_seq t) (delete_rows p (t_rows t))).
Proof.
  intros (Hs & Hf & Hr). split_and!; simpl; [by apply sorted_filter| |lia..].
  rewrite Forall_forall in Hf |- *. intros r [Hin _]%elem_of_delete. by apply Hf.
Qed.

(** Sorting rows that are already in the order of their ids changes nothing. *)
Lemma order_asc_sorted {R} (key : R -> Z) l :
  StronglySorted Z.lt (map key l) -> order_asc key l = l.
Proof.
  induction l as [|r l IH]; simpl; [done|]. intros Hs. apply StronglySorted_inv in Hs as [Hs Hr].
  unfold order_asc, order_by in *. simpl. rewrite IH by done. destruct l as [|x l]; [done|]. simpl.
  apply Forall_cons in Hr as [Hr _]. by rewrite (proj2 (Z.leb_le _ _)) by lia.
Qed.

Lemma filter_map_comm {A} (p : A -> bool) (f : A -> A) l :
  (forall x, p (f x) = p x) -> List.filter p (map f l) = map f (List.filter p l).
Proof.
  intros Hp. induction l as [|x l IH]; simpl; [done|]. rewrite Hp.
  destruct (p x); simpl; by rewrite IH.
Qed.

Lemma delete_rows_app {R} (p : R -> bool) l k :
  delete_rows p (l ++ k) = delete_rows p l ++ delete_rows p k.
Proof. apply List.filter_app. Qed.

(** ** Sizes *)

Lemma sql_length_bounds s : 0 <= sql_length s <= len s.
Proof.
  unfold sql_length, len. pose proof (List.filter_length_le
    (fun c => negb (is_utf8_continuation c)) (bytes_of s)) as Hl.
  rewrite length_bytes in Hl. lia.
Qed.

Lemma sum_length_nonneg l : 0 <= sum_length l.
Proof.
  unfold sum_length. induction l as [|r l IH]; simpl; [lia|].
  pose proof (sql_length_bounds (mr_envelope_json r)). lia.
Qed.

Lemma sum_length_app l k : sum_length (l ++ k) = sum_length l + sum_length k.
Proof. unfold sum_length. induction l as [|r l IH]; simpl; lia. Qed.

Lemma sum_length_filter p l : sum_length (List.filter p l) <= sum_length l.
Proof.
  unfold sum_length. induction l as [|r l IH]; simpl; [lia|].
  pose proof (sql_length_bounds (mr_envelope_json r)). destruct (p r); simpl; lia.
Qed.

Lemma sum_length_map f l :
  (forall r, mr_envelope_json (f r) = mr_envelope_json r) -> sum_length (map f l) = sum_length l.
Proof. intros Hf. unfold sum_length. induction l as [|r l IH]; simpl; [done|]. by rewrite Hf, IH. Qed.

(** ** The invariant *)

Section invariant.
Context `{MailboxExt}.

(** A row is the envelope that was pushed, byte for byte, under its key; it
    carries a lease completely or not at all. *)
Record row_ok (r : msg_row) : Prop := RowOk {
  ro_envelope : exists env, mr_envelope_json r = envelope_to_string env /\
    msg_key r = (ev_to env, ev_from env, ev_escrow_id_hex env, to_i64 (ev_seq env)) /\
    mr_msg_type r = msg_type_key (ev_msg_type env);
  ro_lease : is_Some (mr_lease_id r) <-> is_Some (mr_lease_until_ms r);
}.

Record mailbox_ok (m : mailbox) : Prop := MailboxOk {
  mo_ids : ids_ok mr_id m;
  mo_keys : NoDup (map msg_key (t_rows m));
  mo_rows : Forall row_ok (t_rows m);
}.

Lemma empty_mailbox_ok : mailbox_ok empty_mailbox.
Proof. constructor; [apply ids_ok_empty|constructor..]. Qed.

Lemma row_of_ok now expires_at_ms env id : row_ok (row_of now expires_at_ms env id).
Proof. constructor; [by exists env|]. simpl. split; intros [? ?]; done. Qed.

Lemma set_lease_ok receipt until r : row_ok r -> row_ok (set_lease receipt until r).
Proof. intros [He Hl]. constructor; [exact He|]. simpl. split; eauto. Qed.

(** ** Deletions *)

Definition deleted (p : msg_row -> bool) (m : mailbox) : mailbox :=
  Table (t_seq m) (delete_rows p (t_rows m)).

Lemma deleted_ok p m : mailbox_ok m -> mailbox_ok (deleted p m).
Proof.
  intros [Hi Hk Hr]. constructor; simpl; [by apply ids_ok_delete|by apply NoDup_delete|].
  rewrite Forall_forall in Hr |- *. intros r [Hin _]%elem_of_delete. by apply Hr.
Qed.

(** ** Push *)

(** The rows of an inbox. *)
Definition inbox_of (to : string) (m : mailbox) : list msg_row :=
  List.filter (fun r => mr_to r =? to)%string (t_rows m).

(** What a push answers on a table without expired rows, [None] for storing
    the message. *)
Definition push_verdict (env : NxmsEnvelope) (lim : MailboxLimits) (m : mailbox)
    : option PushResult :=
  if existsb (same_key env) (t_rows m) then Some (MkPushResult true None)
  else if max_rows_global lim <=? Z.of_nat (length (t_rows m))
  then Some (MkPushResult false (Some GlobalRowsLimit))
  else if max_messages_per_inbox lim <=? Z.of_nat (length (inbox_of (ev_to env) m))
  then Some (MkPushResult false (Some InboxMessageLimit))
  else if max_bytes_per_inbox lim
          <? sat_add_u64 (sum_length (inbox_of (ev_to env) m)) (len (envelope_to_string env))
  then Some (MkPushResult false (Some InboxBytesLimit))
  else None.

Definition expiry (now ttl_secs : Z) : Z :=
  sat_add_i64 now (Z.max (to_i64 (sat_mul_u64 ttl_secs 1000)) 1).

Definition stored (now ttl_secs : Z) (env : NxmsEnvelope) (m : mailbox) : mailbox :=
  Table (t_seq m + 1) (t_rows m ++ [row_of now (expiry now ttl_secs) env (t_seq m + 1)]).

Lemma same_key_spec env now e id r :
  same_key env r = true <-> msg_key r = msg_key (row_of now e env id).
Proof.
  unfold same_key, msg_key. simpl. rewrite !andb_true_iff, !String.eqb_eq, Z.eqb_eq.
  split; [intros [[[-> ->] ->] ->]; done|by intros [= -> -> -> ->]].
Qed.

Lemma same_key_clash env now e id r :
  same_key env r = false -> msg_clash (row_of now e env id) r = false.
Proof.
  intros Hs. apply bool_decide_eq_false_2. intros Hk. symmetry in Hk.
  apply (same_key_spec env) in Hk. congruence.
Qed.

Lemma insert_stored now ttl env m :
  existsb (same_key env) (t_rows m) = false -> t_seq m < I64_MAX ->
  insert_auto msg_clash (fun _ => true) (row_of now (expiry now ttl) env) m
  = Ok (stored now ttl env m).
Proof.
  intros Hs Hlt. unfold insert_auto, insert_row. rewrite (proj2 (Z.ltb_lt _ _)) by done.
  rewrite (proj2 (existsb_false _ _)); [done|]. intros x Hx.
  apply same_key_clash. rewrite existsb_false in Hs. by apply Hs.
Qed.

(** A push is: drop what has expired, then answer with the verdict or store;
    with the ids used up it fails and changes nothing. *)
Lemma push_sync_run now env ttl lim m :
  push_sync now env ttl lim m =
    let m1 := deleted (expired now) m in
    match push_verdict env lim m1 with
    | Some r => (m1, Ok r)
    | None => if t_seq m <? I64_MAX then (stored now ttl env m1, Ok (MkPushResult false None))
              else (m, Err (MbSql DatabaseFull))
    end.
Proof.
  unfold push_sync, push_verdict. cbv zeta.
  unfold transaction, sbind, in_tx, sget, commit_ret, delete_msgs. cbn [tx_working tx_committed t_rows].
  fold (deleted (expired now) m). set (m1 := deleted (expired now) m).
  change (delete_rows (expired now) (t_rows m)) with (t_rows m1).
  change (t_seq m) with (t_seq m1). clearbody m1.
  destruct (existsb (same_key env) (t_rows m1)) eqn:Ek; [done|].
  destruct (max_rows_global lim <=? _); [done|].
  fold (inbox_of (ev_to env) m1).
  destruct (max_messages_per_inbox lim <=? _); [done|].
  destruct (max_bytes_per_inbox lim <? _); [done|].
  fold (expiry now ttl). destruct (Z.ltb_spec (t_seq m1) I64_MAX) as [Hlt|Hge].
  - by rewrite insert_stored.
  - unfold insert_auto. by rewrite (proj2 (Z.ltb_ge _ _)).
Qed.

(** There is room for the envelope under all three limits. *)
Definition has_room (env : NxmsEnvelope) (lim : MailboxLimits) (m : mailbox) : Prop :=
  Z.of_nat (length (t_rows m)) < max_rows_global lim /\
  Z.of_nat (length (inbox_of (ev_to env) m)) < max_messages_per_inbox lim /\
  sat_add_u64 (sum_length (inbox_of (ev_to env) m)) (len (envelope_to_string env))
    <= max_bytes_per_inbox lim.

Lemma push_verdict_none env lim m :
  push_verdict env lim m = None ->
  existsb (same_key env) (t_rows m) = false /\ has_room env lim m.
Proof.
  unfold push_verdict, has_room. repeat case_match; try done. intros _.
  rewrite Z.leb_gt, Z.ltb_ge in *. done.
Qed.

Lemma push_verdict_some env lim m r :
  push_verdict env lim m = Some r ->
  pr_dedup r = existsb (same_key env) (t_rows m) /\
  ~ (pr_dedup r = false /\ pr_rejection r = None) /\
  ~ (existsb (same_key env) (t_rows m) = false /\ has_room env lim m).
Proof.
  unfold push_verdict, has_room. intros Hv.
  repeat case_match; simplify_eq; simpl; splits; try done; try (by intros [? ?]);
    rewrite ?Z.leb_le, ?Z.ltb_lt in *; lia.
Qed.

Lemma stored_ok now ttl env m :
  mailbox_ok m -> existsb (same_key env) (t_rows m) = false -> t_seq m < I64_MAX ->
  mailbox_ok (stored now ttl env m).
Proof.
  intros [Hi Hk Hr] Hs Hlt. constructor; simpl.
  - apply (ids_ok_snoc mr_id m (row_of now (expiry now ttl) env (t_seq m + 1))); done.
  - apply NoDup_map_snoc; [done|]. intros x Hx Ex. apply (same_key_spec env) in Ex.
    rewrite existsb_false in Hs. by rewrite Hs in Ex.
  - apply Forall_app_2; [done|]. constructor; [apply row_of_ok|constructor].
Qed.

(** ** Pull *)

(** The rows a pull leases, in the order of arrival. *)
Definition selected (to : string) (now max : Z) (m : mailbox) : list msg_row :=
  limit max (List.filter (available to now) (t_rows m)).

(** A row after the rows [sel] were leased with the receipts [receipts]. *)
Definition leased_row (receipts : nat -> string) (until : Z) (sel : list msg_row) (r : msg_row)
    : msg_row :=
  match list_find (fun s => mr_id s = mr_id r) sel with
  | Some (k, _) => set_lease (receipts k) until r
  | None => r
  end.
Definition leased (receipts : nat -> string) (until : Z) (sel : list msg_row) (m : mailbox) : mailbox :=
  Table (t_seq m) (map (leased_row receipts until sel) (t_rows m)).

(** The messages handed out for [sel]. *)
Definition deliveries (receipts : nat -> string) (sel : list msg_row) (out : list LeasedMessage) : Prop :=
  map lm_receipt out = map receipts (seq 0 (length sel)) /\
  map (fun d => envelope_to_string (lm_envelope d)) out = map mr_envelope_json sel.

Lemma leased_row_cons receipts until s sel r :
  leased_row receipts until (s :: sel) r =
    if decide (mr_id s = mr_id r) then set_lease (receipts 0%nat) until r
    else leased_row (fun k => receipts (S k)) until sel r.
Proof.
  unfold leased_row. simpl. destruct (decide (mr_id s = mr_id r)); [done|].
  destruct (list_find _ sel) as [[k x]|]; done.
Qed.

Lemma leased_row_none receipts until sel r :
  mr_id r ∉ map mr_id sel -> leased_row receipts until sel r = r.
Proof.
  intros Hr. unfold leased_row. rewrite (proj2 (list_find_None _ _)); [done|].
  apply Forall_forall. intros x Hx E. apply Hr. rewrite <- E. apply list_elem_of_fmap. eauto.
Qed.

Lemma leased_row_ext receipts receipts' until sel r :
  (forall k, receipts k = receipts' k) ->
  leased_row receipts until sel r = leased_row receipts' until sel r.
Proof. intros E. unfold leased_row. by destruct (list_find _ sel) as [[k x]|]; rewrite ?E. Qed.

Lemma leased_row_fields receipts until sel r :
  mr_id (leased_row receipts until sel r) = mr_id r /\
  msg_key (leased_row receipts until sel r) = msg_key r /\
  mr_to (leased_row receipts until sel r) = mr_to r /\
  mr_envelope_json (leased_row receipts until sel r) = mr_envelope_json r /\
  mr_expires_at_ms (leased_row receipts until sel r) = mr_expires_at_ms r.
Proof. unfold leased_row. by destruct (list_find _ sel) as [[k x]|]. Qed.

Lemma leased_ok receipts until sel m : mailbox_ok m -> mailbox_ok (leased receipts until sel m).
Proof.
  intros [(Hs & Hf & Hq) Hk Hr]. constructor; simpl.
  - split_and!; simpl; [|apply Forall_map|lia..].
    + rewrite map_map, (map_ext _ mr_id); [done|]. intros r. apply leased_row_fields.
    + eapply Forall_impl; [exact Hf|]. intros r. simpl.
      by rewrite (proj1 (leased_row_fields receipts until sel r)).
  - rewrite map_map, (map_ext _ msg_key); [done|]. intros r. apply leased_row_fields.
  - apply Forall_map. eapply Forall_impl; [exact Hr|]. intros r Hro. simpl.
    unfold leased_row. destruct (list_find _ sel) as [[k x]|]; [by apply set_lease_ok|done].
Qed.

Context `{!MailboxLaws}.

Lemma row_parses r :
  row_ok r -> exists env, envelope_from_str (mr_envelope_json r) = Some env /\
    envelope_to_string env = mr_envelope_json r.
Proof. intros [(env & E & _) _]. exists env. by rewrite E, envelope_roundtrip. Qed.

Lemma lease_rows_run receipts until i sel m :
  NoDup (map mr_id sel) -> Forall row_ok sel ->
  exists out, lease_rows receipts until i sel m
      = (leased (fun k => receipts (i + k)%nat) until sel m, Ok out) /\
    deliveries (fun k => receipts (i + k)%nat) sel out.
Proof.
  revert i m. induction sel as [|s sel IH]; intros i m Hnd Hok; simpl.
  { exists []. split; [|done]. unfold sret. f_equal. destruct m as [q rows]. unfold leased. simpl.
    by rewrite (map_ext _ id), map_id. }
  apply NoDup_cons in Hnd as [Hs Hnd]. apply Forall_cons in Hok as [Hso Hok].
  destruct (row_parses s Hso) as (env & -> & Hjson).
  unfold sbind, slift, smodify. cbn [ok_or].
  set (m1 := Table (t_seq m) _). destruct (IH (S i) m1 Hnd Hok) as (out & -> & Hr & He).
  exists (MkLeased (receipts i) env :: out). split.
  - unfold sret. f_equal. unfold leased. cbn [t_seq t_rows m1]. f_equal.
    unfold m1. cbn [t_rows]. unfold update_rows. rewrite map_map. apply map_ext. intros r.
    rewrite leased_row_cons. rewrite Nat.add_0_r. destruct (Z.eqb_spec (mr_id r) (mr_id s)) as [E|E].
    + rewrite decide_True by done. apply leased_row_none. simpl. by rewrite E.
    + rewrite decide_False by done. apply leased_row_ext. intros k. f_equal. lia.
  - split; simpl; [|by rewrite Hjson, He]. rewrite Nat.add_0_r. f_equal.
    rewrite Hr, <- seq_shift, !map_map. apply map_ext. intros k. f_equal. lia.
Qed.

Lemma selected_sublist to now max m :
  mailbox_ok m -> NoDup (map mr_id (selected to now max m)) /\ Forall row_ok (selected to now max m).
Proof.
  intros [(Hs & _) _ Hr]. unfold selected, limit. split.
  - assert (NoDup (map mr_id (List.filter (available to now) (t_rows m)))) as Hn.
    { by apply (sorted_NoDup _), sorted_filter. }
    rewrite <- (take_drop (Z.to_nat max) (List.filter _ _)), map_app in Hn.
    by apply NoDup_app in Hn as [Hn _].
  - apply Forall_take, Forall_forall. intros r Hin.
    apply list_elem_of_In, List.filter_In in Hin as [Hin _]. rewrite Forall_forall in Hr.
    by apply Hr, list_elem_of_In.
Qed.

Lemma selected_rows to now max m s :
  s ∈ selected to now max m -> s ∈ t_rows m /\ available to now s = true.
Proof.
  unfold selected, limit. intros Hs. apply elem_of_take in Hs as (k & Hs & _).
  apply list_elem_of_lookup_2, list_elem_of_In, List.filter_In in Hs as [Hs Ha].
  by rewrite list_elem_of_In.
Qed.

(** A pull is: drop what has expired, lease the oldest available rows. *)
Lemma pull_sync_run receipts now to max lease_secs m :
  mailbox_ok m ->
  let m1 := deleted (expired now) m in
  let sel := selected to now max m1 in
  exists out,
    pull_sync receipts now to max lease_secs m
      = (leased receipts (expiry now lease_secs) sel m1, Ok out) /\
    deliveries receipts sel out.
Proof.
  intros Hm m1 sel. assert (mailbox_ok m1) as Hm1 by by apply deleted_ok.
  destruct (selected_sublist to now max m1 Hm1) as [Hnd Hok].
  destruct (lease_rows_run receipts (expiry now lease_secs) 0 sel m1 Hnd Hok) as (out & Hrun & Hout).
  exists out. split; [|done]. unfold pull_sync. cbv zeta. fold (expiry now lease_secs).
  unfold transaction, sbind, in_tx, sget, delete_msgs, commit, sret. cbn [tx_working tx_committed].
  fold (deleted (expired now) m). fold m1. rewrite order_asc_sorted.
  - fold (selected to now max m1). fold sel. by rewrite Hrun.
  - apply sorted_filter, Hm1.
Qed.

(** ** Acknowledgement *)

Definition acked (receipt to : string) (r : msg_row) : bool :=
  bool_decide (mr_lease_id r = Some receipt) && (mr_to r =? to)%string.

Lemma ack_sync_run receipt to m :
  ack_sync receipt to m
  = (deleted (acked receipt to) m, Ok (0 <? count_rows (acked receipt to) (t_rows m))).
Proof. done. Qed.
End invariant.
