(* ===== verification/MailboxProps.v ===== *)
(** * The mailbox: properties

    Sequences of operations at arbitrary times: the table invariant and the
    quotas, what one push and one pull do, exclusive leases, no loss before
    expiry or acknowledgement, and acknowledgements confined to their inbox. *)

From S2P Require Import Prelude RustString Sql Wire Mailbox MailboxInv.

(** ** Runs *)

Inductive MailboxOp : Type :=
| OpPush (env : NxmsEnvelope) (ttl_secs : Z) (limits : MailboxLimits)
| OpPull (receipts : nat -> string) (to : string) (max lease_secs : Z)
| OpAck (receipt to : string)
| OpCleanup.
Inductive MailboxOutcome : Type :=
| OutPush (r : PushResult)
| OutPull (l : list LeasedMessage)
| OutAck (found : bool)
| OutCleanup.

Section runs.
Context `{MailboxExt}.

Definition run_mailbox_op (now : Z) (op : MailboxOp) : M mailbox MailboxError MailboxOutcome :=
  match op with
  | OpPush env ttl_secs limits => let* r := push_sync now env ttl_secs limits in sret (OutPush r)
  | OpPull receipts to max lease_secs =>
      let* l := pull_sync receipts now to max lease_secs in sret (OutPull l)
  | OpAck receipt to => let* b := ack_sync receipt to in sret (OutAck b)
  | OpCleanup => let* _ := cleanup_expired_sync now in sret OutCleanup
  end.

(** Operations with their times; every connection serialises on the database. *)
Fixpoint run_mailbox (ops : list (Z * MailboxOp)) (m : mailbox)
    : mailbox * list (result MailboxError MailboxOutcome) :=
  match ops with
  | [] => (m, [])
  | (now, op) :: rest =>
      let '(m1, r) := run_mailbox_op now op m in
      let '(m2, rs) := run_mailbox rest m1 in (m2, r :: rs)
  end.

(** The messages handed out in a run. *)
Definition delivered_in (rs : list (result MailboxError MailboxOutcome)) : list LeasedMessage :=
  concat (map (fun r => match r with Ok (OutPull l) => l | _ => [] end) rs).

Lemma run_mailbox_ind (I : mailbox -> Prop) ops m :
  (forall now op m, (now, op) ∈ ops -> I m -> I (run_mailbox_op now op m).1) ->
  I m -> I (run_mailbox ops m).1.
Proof.
  revert m. induction ops as [|[now op] ops IH]; intros m Hstep Hm; simpl; [done|].
  pose proof (Hstep now op m ltac:(set_solver) Hm) as H1.
  destruct (run_mailbox_op now op m) as [m1 r]. simpl in *.
  specialize (IH m1 (fun now' op' m' Hin => Hstep now' op' m' ltac:(set_solver)) H1).
  by destruct (run_mailbox ops m1).
Qed.

Context `{!MailboxLaws}.

(** What an operation does to a well-formed table. *)
Lemma run_op_cases now op m :
  mailbox_ok m ->
  let m1 := deleted (expired now) m in
  match op with
  | OpPush env ttl lim =>
      run_mailbox_op now op m =
        match push_verdict env lim m1 with
        | Some r => (m1, Ok (OutPush r))
        | None => if t_seq m <? I64_MAX
                  then (stored now ttl env m1, Ok (OutPush (MkPushResult false None)))
                  else (m, Err (MbSql DatabaseFull))
        end
  | OpPull receipts to max lease_secs =>
      exists out, run_mailbox_op now op m =
          (leased receipts (expiry now lease_secs) (selected to now max m1) m1, Ok (OutPull out)) /\
        deliveries receipts (selected to now max m1) out
  | OpAck receipt to =>
      run_mailbox_op now op m = (deleted (acked receipt to) m,
        Ok (OutAck (0 <? count_rows (acked receipt to) (t_rows m))))
  | OpCleanup => run_mailbox_op now op m = (m1, Ok OutCleanup)
  end.
Proof.
  intros Hm m1. destruct op as [env ttl lim|receipts to max lease|receipt to|]; simpl; [..|done|done].
  - rewrite sbind_run, push_sync_run. fold m1. cbv zeta.
    destruct (push_verdict env lim m1); [done|]. by destruct (t_seq m <? I64_MAX).
  - destruct (pull_sync_run receipts now to max lease m Hm) as (out & Hrun & Hout).
    exists out. rewrite sbind_run, Hrun. done.
Qed.

Lemma run_op_ok now op m : mailbox_ok m -> mailbox_ok (run_mailbox_op now op m).1.
Proof.
  intros Hm. pose proof (run_op_cases now op m Hm) as Hc.
  assert (mailbox_ok (deleted (expired now) m)) as Hm1 by by apply deleted_ok.
  destruct op; cbv zeta in Hc.
  - rewrite Hc. destruct (push_verdict _ _ _) eqn:Ev; [done|].
    apply push_verdict_none in Ev as [Hk _].
    destruct (Z.ltb_spec (t_seq m) I64_MAX); [by apply stored_ok|done].
  - destruct Hc as (out & -> & _). by apply leased_ok.
  - rewrite Hc. by apply deleted_ok.
  - by rewrite Hc.
Qed.

(** ** Quotas *)

Definition quota_ok (lim : MailboxLimits) (m : mailbox) : Prop :=
  Z.of_nat (length (t_rows m)) <= max_rows_global lim /\
  forall to, Z.of_nat (length (inbox_of to m)) <= max_messages_per_inbox lim /\
             sum_length (inbox_of to m) <= max_bytes_per_inbox lim.
(** The server passes the same limits to every push. *)
Definition pushes_with (lim : MailboxLimits) (ops : list (Z * MailboxOp)) : Prop :=
  forall now env ttl lim', (now, OpPush env ttl lim') ∈ ops -> lim' = lim.

Lemma inbox_deleted p to m :
  inbox_of to (deleted p m) = List.filter (fun r => negb (p r)) (inbox_of to m).
Proof.
  unfold inbox_of, deleted, delete_rows. simpl. induction (t_rows m) as [|r l IH]; simpl; [done|].
  destruct (p r) eqn:Ep, (mr_to r =? to)%string eqn:Et; simpl; rewrite ?Ep, ?Et, IH; done.
Qed.

Lemma inbox_leased receipts until sel to m :
  inbox_of to (leased receipts until sel m) = map (leased_row receipts until sel) (inbox_of to m).
Proof.
  unfold inbox_of, leased. simpl. apply filter_map_comm. intros r.
  by rewrite (proj1 (proj2 (proj2 (leased_row_fields receipts until sel r)))).
Qed.

Lemma deleted_quota lim p m : quota_ok lim m -> quota_ok lim (deleted p m).
Proof.
  intros [Hg Hi]. split.
  - simpl. pose proof (delete_rows_length p (t_rows m)). lia.
  - intros to. destruct (Hi to) as [Hc Hb]. rewrite inbox_deleted.
    pose proof (List.filter_length_le (fun r => negb (p r)) (inbox_of to m)).
    pose proof (sum_length_filter (fun r => negb (p r)) (inbox_of to m)). lia.
Qed.

Lemma leased_quota lim receipts until sel m :
  quota_ok lim m -> quota_ok lim (leased receipts until sel m).
Proof.
  intros [Hg Hi]. split; [simpl; by rewrite length_map|].
  intros to. rewrite inbox_leased, length_map, sum_length_map; [apply Hi|].
  intros r. apply leased_row_fields.
Qed.

Lemma stored_quota lim now ttl env m :
  max_bytes_per_inbox lim < U64_MAX ->
  quota_ok lim m -> push_verdict env lim m = None -> quota_ok lim (stored now ttl env m).
Proof.
  intros Hb [Hg Hi] Hv. apply push_verdict_none in Hv as [_ (Hrows & Hcount & Hbytes)]. split.
  - simpl. rewrite length_app. simpl. lia.
  - intros to. destruct (Hi to) as [Hc Hs]. unfold inbox_of in *. simpl.
    rewrite List.filter_app, length_app, sum_length_app. simpl.
    destruct (String.eqb_spec (ev_to env) to) as [<-|Hne]; simpl; [|unfold sum_length at 2; simpl; lia].
    split; [lia|]. unfold sum_length at 2. simpl. unfold sat_add_u64 in Hbytes.
    pose proof (sql_length_bounds (envelope_to_string env)). lia.
Qed.

Lemma run_op_quota lim now op m :
  max_bytes_per_inbox lim < U64_MAX ->
  (forall env ttl lim', op = OpPush env ttl lim' -> lim' = lim) ->
  mailbox_ok m -> quota_ok lim m -> quota_ok lim (run_mailbox_op now op m).1.
Proof.
  intros Hb Hl Hm Hq. pose proof (run_op_cases now op m Hm) as Hc.
  assert (quota_ok lim (deleted (expired now) m)) as Hq1 by by apply deleted_quota.
  destruct op as [env ttl lim'|receipts to max lease|receipt to|]; cbv zeta in Hc.
  - rewrite (Hl _ _ _ eq_refl) in *. rewrite Hc. destruct (push_verdict _ _ _) eqn:Ev; [done|].
    destruct (t_seq m <? I64_MAX); [by apply stored_quota|done].
  - destruct Hc as (out & -> & _). by apply leased_quota.
  - rewrite Hc. by apply deleted_quota.
  - by rewrite Hc.
Qed.

(** ** The life of a row *)

(** [op] acknowledges [r]. *)
Definition acks (op : MailboxOp) (r : msg_row) : bool :=
  match op with OpAck receipt to => acked receipt to r | _ => false end.

(** [op] at [now] hands out [r] again. *)
Definition leases (now : Z) (op : MailboxOp) (r : msg_row) : bool :=
  match op with OpPull _ to _ _ => available to now r | _ => false end.

Lemma elem_of_deleted p m r : r ∈ t_rows (deleted p m) <-> r ∈ t_rows m /\ p r = false.
Proof. apply elem_of_delete. Qed.

Lemma live_row_kept now m r :
  r ∈ t_rows m -> now < mr_expires_at_ms r -> r ∈ t_rows (deleted (expired now) m).
Proof.
  intros Hr Hlive. apply elem_of_deleted. split; [done|]. unfold expired. lia.
Qed.

(** Leasing [sel] does not touch a row that is not available. *)
Lemma leased_row_other receipts until to now max m r :
  mailbox_ok m -> r ∈ t_rows m -> available to now r = false ->
  leased_row receipts until (selected to now max m) r = r.
Proof.
  intros Hm Hr Ha. apply leased_row_none. intros Hin.
  apply list_elem_of_fmap in Hin as (s & E & Hs). apply selected_rows in Hs as [Hs Has].
  assert (s = r) as -> by (eapply (unique_row mr_id); [apply ids_ok_NoDup, Hm|done..]). congruence.
Qed.

(** Until it expires or is acknowledged, a row survives every operation, and
    only a lease changes it. *)
Lemma row_survives now op m r :
  mailbox_ok m -> r ∈ t_rows m -> now < mr_expires_at_ms r -> acks op r = false ->
  exists r', r' ∈ t_rows (run_mailbox_op now op m).1 /\ msg_key r' = msg_key r /\
    mr_envelope_json r' = mr_envelope_json r /\ mr_expires_at_ms r' = mr_expires_at_ms r /\
    (leases now op r = false -> r' = r) /\
    (mr_lease_id r' = mr_lease_id r \/ exists receipts to max lease k,
       op = OpPull receipts to max lease /\ mr_lease_id r' = Some (receipts k)).
Proof.
  intros Hm Hr Hlive Hack. pose proof (run_op_cases now op m Hm) as Hc.
  assert (r ∈ t_rows (deleted (expired now) m)) as Hr1 by by apply live_row_kept.
  destruct op as [env ttl lim|receipts to max lease|receipt to|]; cbv zeta in Hc.
  - exists r. splits; [|done|done|done|done|by left]. rewrite Hc. destruct (push_verdict _ _ _); [done|].
    destruct (t_seq m <? I64_MAX); [|done]. simpl. set_solver.
  - destruct Hc as (out & -> & _). simpl.
    set (sel := selected to now max _). exists (leased_row receipts (expiry now lease) sel r).
    pose proof (leased_row_fields receipts (expiry now lease) sel r) as (_ & Hk & _ & Hj & He).
    splits; [|done..| |].
    + apply list_elem_of_fmap. eauto.
    + intros Ha. apply leased_row_other; [by apply deleted_ok|done..].
    + unfold leased_row. destruct (list_find _ sel) as [[k x]|]; [|by left].
      right. by exists receipts, to, max, lease, k.
  - exists r. splits; [|done|done|done|done|by left]. rewrite Hc. by apply elem_of_deleted.
  - exists r. splits; [|done|done|done|done|by left]. by rewrite Hc.
Qed.

(** Every message a pull hands out is a row that was available. *)
Lemma delivered_row now op m d :
  mailbox_ok m -> d ∈ delivered_in [(run_mailbox_op now op m).2] ->
  exists r, r ∈ t_rows m /\ leases now op r = true /\
    envelope_to_string (lm_envelope d) = mr_envelope_json r.
Proof.
  intros Hm. pose proof (run_op_cases now op m Hm) as Hc. unfold delivered_in. simpl.
  rewrite app_nil_r. destruct op as [env ttl lim|receipts to max lease|receipt to|]; cbv zeta in Hc.
  - rewrite Hc. destruct (push_verdict _ _ _); [set_solver|]. destruct (t_seq m <? I64_MAX); set_solver.
  - destruct Hc as (out & -> & _ & Hj). simpl. intros Hd.
    assert (envelope_to_string (lm_envelope d) ∈ map mr_envelope_json
      (selected to now max (deleted (expired now) m))) as Hin.
    { rewrite <- Hj. apply list_elem_of_fmap. eauto. }
    apply list_elem_of_fmap in Hin as (r & E & Hr). exists r.
    apply selected_rows in Hr as [Hr Ha]. by apply elem_of_deleted in Hr as [Hr _].
  - rewrite Hc. set_solver.
  - rewrite Hc. set_solver.
Qed.

(** Two rows with the same text are the same row. *)
Lemma same_json_row m r s :
  mailbox_ok m -> r ∈ t_rows m -> s ∈ t_rows m -> mr_envelope_json r = mr_envelope_json s -> r = s.
Proof.
  intros [Hi Hk Hf] Hr Hs E. rewrite Forall_forall in Hf.
  destruct (Hf r Hr) as [(er & Er & Ekr & _) _], (Hf s Hs) as [(es & Es & Eks & _) _].
  eapply (unique_row msg_key); [done..|]. rewrite Ekr, Eks.
  assert (Some er = Some es) as [= ->] by (rewrite <- !envelope_roundtrip; congruence). done.
Qed.

Lemma delivered_in_cons r rs :
  delivered_in (r :: rs) = delivered_in [r] ++ delivered_in rs.
Proof. unfold delivered_in. simpl. by rewrite app_nil_r. Qed.

Lemma leased_not_available to now r L :
  mr_lease_until_ms r = Some L -> now <= L -> available to now r = false.
Proof.
  intros E Hle. unfold available. rewrite E. rewrite (proj2 (Z.ltb_ge L now)) by done. apply andb_false_r.
Qed.

Lemma lease_held ops m r L :
  mailbox_ok m -> r ∈ t_rows m -> mr_lease_until_ms r = Some L ->
  Forall (fun o => o.1 <= L /\ o.1 < mr_expires_at_ms r /\ acks o.2 r = false) ops ->
  r ∈ t_rows (run_mailbox ops m).1 /\
  forall d, d ∈ delivered_in (run_mailbox ops m).2 ->
    envelope_to_string (lm_envelope d) <> mr_envelope_json r.
Proof.
  intros Hm Hr HL Hops. revert m Hm Hr.
  induction Hops as [|[now op] ops (Hl & Hx & Ha) Hops IH]; intros m Hm Hr; simpl in *.
  { split; [done|]. set_solver. }
  pose proof (run_op_ok now op m Hm) as Hm1.
  assert (leases now op r = false) as Hnl by (destruct op; try done; by eapply leased_not_available).
  destruct (row_survives now op m r Hm Hr Hx Ha) as (r' & Hr' & _ & _ & _ & E & _).
  rewrite (E Hnl) in Hr'.
  pose proof (delivered_row now op m) as Hd. destruct (run_mailbox_op now op m) as [m1 o]. simpl in *.
  destruct (IH m1 Hm1 Hr') as [IH1 IH2]. destruct (run_mailbox ops m1) as [m2 rs]. simpl in *.
  split; [done|]. intros d. rewrite delivered_in_cons, elem_of_app. intros [Hin|Hin]; [|by apply IH2].
  intros Ej. destruct (Hd d Hm Hin) as (s & Hs & Hls & Es).
  assert (s = r) as -> by (apply (same_json_row m); [done..|congruence]). congruence.
Qed.

(** [op] acknowledges nothing in the inbox [to] that was [issued], and the
    receipts it hands out are [issued]. *)
Definition spares (issued : string -> Prop) (to : string) (op : MailboxOp) : Prop :=
  match op with
  | OpAck receipt to' => to' = to -> ~ issued receipt
  | OpPull receipts _ _ _ => forall k, issued (receipts k)
  | _ => True
  end.

Lemma row_kept (issued : string -> Prop) ops m r :
  mailbox_ok m -> r ∈ t_rows m -> (forall id, mr_lease_id r = Some id -> issued id) ->
  Forall (fun o => o.1 < mr_expires_at_ms r /\ spares issued (mr_to r) o.2) ops ->
  exists r', r' ∈ t_rows (run_mailbox ops m).1 /\ msg_key r' = msg_key r /\
    mr_envelope_json r' = mr_envelope_json r /\ mr_expires_at_ms r' = mr_expires_at_ms r.
Proof.
  revert m r. induction ops as [|[now op] ops IH]; intros m r Hm Hr Hid Hops.
  { exists r. done. }
  apply Forall_cons in Hops as [[Hx Ha] Hops]. simpl in *.
  pose proof (run_op_ok now op m Hm) as Hm1.
  destruct (row_survives now op m r Hm Hr Hx) as (r1 & Hr1 & Hk & Hj & He & _ & Hl).
  { destruct op as [| |receipt to|]; try done. simpl in *. apply andb_false_iff.
    destruct (String.eqb_spec (mr_to r) to) as [E|]; [left|by right].
    apply bool_decide_eq_false_2. intros Er. by apply (Ha (eq_sym E)), Hid. }
  assert (mr_to r1 = mr_to r) as Eto by (unfold msg_key in Hk; congruence).
  destruct (run_mailbox_op now op m) as [m1 o]. simpl in *.
  destruct (IH m1 r1 Hm1 Hr1) as (r2 & H1 & H2 & H3 & H4).
  - intros id Hid1. destruct Hl as [E|(receipts & to & max & lease & k & -> & E)].
    + apply Hid. congruence.
    + rewrite E in Hid1. injection Hid1 as <-. apply Ha.
  - by rewrite He, Eto.
  - destruct (run_mailbox ops m1) as [m2 rs]. simpl in *. exists r2. splits; [done|congruence..].
Qed.

(** ** Deliveries *)

Lemma delivered_selected receipts sel out d :
  deliveries receipts sel out -> d ∈ out ->
  exists k s, sel !! k = Some s /\ lm_receipt d = receipts k /\
    envelope_to_string (lm_envelope d) = mr_envelope_json s.
Proof.
  intros [Hr Hj] Hd. apply list_elem_of_lookup in Hd as [k Hk].
  assert (length out = length sel) as Hlen.
  { by rewrite <- (length_map lm_receipt out), Hr, length_map, length_seq. }
  destruct (lookup_lt_is_Some_2 sel k) as [s Hs].
  { rewrite <- Hlen. by eapply lookup_lt_Some. }
  exists k, s. split; [done|].
  assert (map lm_receipt out !! k = Some (lm_receipt d)) as E1 by (by rewrite list_lookup_fmap, Hk).
  assert (map (fun d => envelope_to_string (lm_envelope d)) out !! k
    = Some (envelope_to_string (lm_envelope d))) as E2 by (by rewrite list_lookup_fmap, Hk).
  rewrite Hr, list_lookup_fmap, lookup_seq_lt in E1 by (by eapply lookup_lt_Some).
  rewrite Hj, list_lookup_fmap, Hs in E2. simpl in *. split; congruence.
Qed.

Lemma selected_delivered receipts sel out k s :
  deliveries receipts sel out -> sel !! k = Some s ->
  exists d, d ∈ out /\ lm_receipt d = receipts k /\
    envelope_to_string (lm_envelope d) = mr_envelope_json s.
Proof.
  intros Hd Hs. pose proof Hd as [Hr Hj].
  assert (map (fun d => envelope_to_string (lm_envelope d)) out !! k = Some (mr_envelope_json s)) as E.
  { by rewrite Hj, list_lookup_fmap, Hs. }
  assert (map lm_receipt out !! k = Some (receipts k)) as E1.
  { rewrite Hr, list_lookup_fmap, lookup_seq_lt by (by eapply lookup_lt_Some). done. }
  rewrite list_lookup_fmap in E, E1. destruct (out !! k) as [d|] eqn:Eo; [|done]. simpl in *.
  exists d. split; [by eapply list_elem_of_lookup_2|]. split; congruence.
Qed.

Lemma leased_row_selected receipts until sel k s :
  NoDup (map mr_id sel) -> sel !! k = Some s ->
  leased_row receipts until sel s = set_lease (receipts k) until s.
Proof.
  revert receipts k. induction sel as [|x sel IH]; intros receipts k Hnd Hk; [done|].
  apply NoDup_cons in Hnd as [Hx Hnd]. rewrite leased_row_cons. destruct k as [|k]; simpl in Hk.
  - injection Hk as ->. by rewrite decide_True.
  - rewrite decide_False; [by apply (IH (fun j => receipts (S j)))|]. intros E. apply Hx. rewrite E.
    apply list_elem_of_fmap. exists s. split; [done|]. by eapply list_elem_of_lookup_2.
Qed.

(** What a pull handed out is now leased under the receipt it came with. *)
Lemma delivered_leased receipts now to max lease m m1 out d :
  mailbox_ok m -> pull_sync receipts now to max lease m = (m1, Ok out) -> d ∈ out ->
  exists s, s ∈ t_rows m /\ available to now s = true /\
    envelope_to_string (lm_envelope d) = mr_envelope_json s /\
    set_lease (lm_receipt d) (expiry now lease) s ∈ t_rows m1.
Proof.
  intros Hm Hrun Hd. destruct (pull_sync_run receipts now to max lease m Hm) as (out' & E & Hout).
  rewrite Hrun in E. injection E as -> ->.
  destruct (delivered_selected _ _ _ _ Hout Hd) as (k & s & Hk & Er & Ej).
  assert (s ∈ selected to now max (deleted (expired now) m)) as Hs by by eapply list_elem_of_lookup_2.
  apply selected_rows in Hs as [Hs Ha]. exists s. splits; [by apply elem_of_deleted in Hs as [? _]|done..|].
  simpl. apply list_elem_of_fmap. exists s. split; [|done]. symmetry. rewrite Er.
  apply leased_row_selected; [|done]. by apply selected_sublist, deleted_ok.
Qed.

Lemma row_envelope m r env :
  mailbox_ok m -> r ∈ t_rows m -> mr_envelope_json r = envelope_to_string env -> same_key env r = true.
Proof.
  intros [_ _ Hf] Hr E. rewrite Forall_forall in Hf. destruct (Hf r Hr) as [(e & Ee & Ek & _) _].
  assert (Some e = Some env) as [= ->] by (rewrite <- !envelope_roundtrip; congruence).
  by apply (same_key_spec env 0 0 0).
Qed.

Lemma push_stored now env ttl lim m m1 :
  mailbox_ok m -> push_sync now env ttl lim m = (m1, Ok (MkPushResult false None)) ->
  exists id, mailbox_ok m1 /\ row_of now (expiry now ttl) env id ∈ t_rows m1.
Proof.
  intros Hm. rewrite push_sync_run. cbv zeta. destruct (push_verdict _ _ _) as [r|] eqn:Ev.
  - intros [= <- ->]. apply push_verdict_some in Ev as (_ & Hns & _). by destruct Hns.
  - apply push_verdict_none in Ev as [Ek _]. destruct (Z.ltb_spec (t_seq m) I64_MAX) as [Hlt|]; [|done].
    intros [= <-]. exists (t_seq m + 1). split; [by apply stored_ok; [apply deleted_ok|..]|].
    simpl. set_solver.
Qed.

Lemma filter_length_impl {A} (p q : A -> bool) l :
  (forall x, p x = true -> q x = true) ->
  (length (List.filter p l) <= length (List.filter q l))%nat.
Proof.
  intros Hpq. induction l as [|x l IH]; simpl; [done|].
  destruct (p x) eqn:Ep; [rewrite (Hpq _ Ep); simpl; lia|]. destruct (q x); simpl; lia.
Qed.

(** A pull that asks for enough takes every available row. *)
Lemma selected_all to now max m r :
  r ∈ t_rows m -> available to now r = true -> Z.of_nat (length (inbox_of to m)) <= max ->
  r ∈ selected to now max m.
Proof.
  intros Hr Ha Hmax. unfold selected, limit. rewrite take_ge.
  - apply list_elem_of_In, List.filter_In. by rewrite <- list_elem_of_In.
  - unfold inbox_of in Hmax. pose proof (filter_length_impl (available to now)
      (fun r => mr_to r =? to)%string (t_rows m)) as Hle.
    assert (forall x, available to now x = true -> (mr_to x =? to)%string = true) as Hto
      by (intros x; unfold available; by destruct (mr_to x =? to)%string).
    specialize (Hle Hto). lia.
Qed.

(** ** Acknowledgements *)

Lemma acked_spec receipt to r :
  acked receipt to r = true <-> mr_lease_id r = Some receipt /\ mr_to r = to.
Proof. unfold acked. by rewrite andb_true_iff, bool_decide_eq_true, String.eqb_eq. Qed.

Lemma count_pos {R} (p : R -> bool) l : (0 <? count_rows p l) = true <-> exists r, r ∈ l /\ p r = true.
Proof.
  rewrite Z.ltb_lt. unfold count_rows. split.
  - intros Hl. destruct (List.filter p l) as [|r k] eqn:E; [simpl in Hl; lia|]. exists r.
    rewrite list_elem_of_In, <- List.filter_In, E. by left.
  - intros (r & Hr & Hp). assert (In r (List.filter p l)) as Hin
      by (apply List.filter_In; by rewrite <- list_elem_of_In).
    destruct (List.filter p l); [done|simpl; lia].
Qed.

Lemma ack_hit receipt until r m :
  set_lease receipt until r ∈ t_rows m ->
  ack_sync receipt (mr_to r) m = (deleted (acked receipt (mr_to r)) m, Ok true).
Proof.
  intros Hr. rewrite ack_sync_run. do 2 f_equal. apply count_pos. eexists. split; [exact Hr|].
  by apply acked_spec.
Qed.

Lemma ack_clears env m receipt until r :
  mailbox_ok m -> set_lease receipt until r ∈ t_rows m -> same_key env r = true ->
  forall x, x ∈ t_rows (deleted (acked receipt (mr_to r)) m) -> same_key env x = false.
Proof.
  intros Hm Hr Hk x [Hx Hna]%elem_of_deleted. destruct (same_key env x) eqn:Ex; [|done].
  assert (x = set_lease receipt until r) as ->.
  { apply (unique_row msg_key (t_rows m)); [apply Hm|done..|].
    apply (same_key_spec env 0 0 0) in Ex, Hk. unfold msg_key in *. simpl in *. congruence. }
  rewrite (proj2 (acked_spec _ _ _)) in Hna; done.
Qed.

Lemma delete_twice {R} (p : R -> bool) l : delete_rows p (delete_rows p l) = delete_rows p l.
Proof.
  unfold delete_rows. induction l as [|r l IH]; simpl; [done|].
  destruct (p r) eqn:E; simpl; rewrite ?E; simpl; congruence.
Qed.

Lemma ack_again receipt to m :
  ack_sync receipt to (deleted (acked receipt to) m) = (deleted (acked receipt to) m, Ok false).
Proof.
  rewrite ack_sync_run. unfold deleted. simpl. rewrite delete_twice. do 2 f_equal.
  rewrite (proj2 (count_zero _ _)); [done|]. by intros r [_ Hr]%elem_of_delete.
Qed.
End runs.

(** ** A printer for envelopes

    An instance of the interface, used to evaluate the model: the envelope is
    numbered and the number written in binary. *)

Definition msg_types : list MsgType :=
  [PrepareInfo; MakeInfo; ExchangeRound1; ExchangeRound2; ExportInfoReq; ExportInfoResp;
   TxSignReq; TxSignResp; MsgError].
#[global] Instance MsgType_eq_dec : EqDecision MsgType.
Proof. solve_decision. Defined.
#[global] Instance MsgType_countable : Countable MsgType.
Proof.
  refine (inj_countable (fun t => match list_find (eq t) msg_types with Some (k, _) => k | None => 9%nat end)
    (fun k => msg_types !! k) _).
  by intros [].
Defined.
(** The numbers of the fields, as a list. *)
Definition number_fields (e : NxmsEnvelope) : list positive :=
  encode (ev_msg_type e) :: encode (ev_seq e) :: map encode
    [ev_proto e; ev_kem_id e; ev_sig_id e; ev_escrow_id_hex e; ev_from e; ev_to e; ev_kem_ct_b64 e;
     ev_nonce_b64 e; ev_ciphertext_b64 e; ev_tag_b64 e; ev_sig_b64 e].
Definition unnumber_fields (l : list positive) : option NxmsEnvelope :=
  match l with
  | t :: seq :: fields =>
      match decode t, decode seq, mapM decode fields with
      | Some t, Some seq, Some [proto; kem; sig; esc; from; to; ct; nonce; c; tag; s] =>
          Some (MkEnvelope proto kem sig t esc from to seq ct nonce c tag s)
      | _, _, _ => None
      end
  | _ => None
  end.
Lemma unnumber_fields_number e : unnumber_fields (number_fields e) = Some e.
Proof.
  destruct e. unfold unnumber_fields, number_fields. cbn [map mapM].
  rewrite !decode_encode. done.
Qed.

Fixpoint print_bits (p : positive) : string :=
  match p with
  | xH => "" | xO q => String "0" (print_bits q) | xI q => String "1" (print_bits q)
  end.
Fixpoint parse_bits (s : string) : positive :=
  match s with
  | "" => xH | String c s' => if bool_decide (c = "1"%char) then xI (parse_bits s') else xO (parse_bits s')
  end.
Lemma parse_print_bits p : parse_bits (print_bits p) = p.
Proof. induction p; simpl; congruence. Qed.

Definition demo_mailbox_ext : MailboxExt := {|
  envelope_to_string e := print_bits (encode (number_fields e));
  envelope_from_str s := l ← decode (parse_bits s); unnumber_fields l |}.
Lemma demo_mailbox_laws : @MailboxLaws demo_mailbox_ext.
Proof.
  constructor. intros e. cbn [envelope_from_str envelope_to_string demo_mailbox_ext].
  rewrite parse_print_bits, decode_encode. apply unnumber_fields_number.
Qed.

Definition demo_env (to : string) (seq : Z) : NxmsEnvelope :=
  MkEnvelope "p" "k" "s" PrepareInfo "e" "a" to seq "x" "x" "x" "x" "x".
Definition demo_receipts (tag : string) (k : nat) : string := (tag ++ pretty k)%string.
Definition demo_limits : MailboxLimits := MkMailboxLimits 2 100000 3.
Definition demo_mailbox_ops : list (Z * MailboxOp) :=
  [(10, OpPush (demo_env "b" 1) 60 demo_limits); (20, OpPush (demo_env "b" 2) 60 demo_limits);
   (30, OpPush (demo_env "c" 1) 60 demo_limits)].
Definition demo_mailbox : mailbox := (@run_mailbox demo_mailbox_ext demo_mailbox_ops empty_mailbox).1.

Lemma demo_mailbox_ok : @mailbox_ok demo_mailbox_ext demo_mailbox.
Proof.
  apply (@run_mailbox_ind demo_mailbox_ext (@mailbox_ok demo_mailbox_ext) demo_mailbox_ops); [|apply empty_mailbox_ok].
  intros now op m _. apply (@run_op_ok demo_mailbox_ext demo_mailbox_laws).
Qed.

(** *** Bytes and characters *)

Definition is_ascii_byte : ascii -> bool := in_range 0 127.
(** The bytes the JSON texts of an inbox take. *)
Definition sum_bytes (l : list msg_row) : Z := foldr Z.add 0 (map (fun r => len (mr_envelope_json r)) l).

Definition starts_char (c : ascii) : bool := negb (is_utf8_continuation c).
Lemma lead_starts lo hi c : 191 < lo \/ hi < 128 -> in_range lo hi c = true -> starts_char c = true.
Proof. unfold starts_char, is_utf8_continuation, in_range. lia. Qed.

(** A character takes at most four bytes. *)
Lemma utf8_bytes_chars n l : (length l <= n)%nat -> utf8_bytes l = true -> (length l <= 4 * length (List.filter starts_char l))%nat.
Proof.
  revert l. induction n as [|n IH]; intros [|a l1] Hn; [intros _; simpl; lia|simpl in Hn; lia|intros _; simpl; lia|]. simpl.
  assert (forall k, (length k <= n)%nat -> utf8_bytes k = true -> (length k <= 4 * length (List.filter starts_char k))%nat) as IH' by auto.
  simpl in Hn. destruct (in_range 0 127 a) eqn:Ea.
  { intros Hu. rewrite (lead_starts 0 127) by (done || lia). simpl. specialize (IH' l1 ltac:(lia) Hu). lia. }
  destruct l1 as [|b l2]; [done|]. simpl in Hn. destruct (in_range 194 223 a) eqn:Eb.
  { intros [_ Hu]%andb_true_iff. rewrite (lead_starts 194 223 a) by (done || lia). specialize (IH' l2 ltac:(lia) Hu). simpl. destruct (starts_char b); simpl; lia. }
  destruct l2 as [|c l3]; [done|]. simpl in Hn. destruct (in_range 224 239 a) eqn:Ec.
  { intros [_ Hu]%andb_true_iff. rewrite (lead_starts 224 239 a) by (done || lia). specialize (IH' l3 ltac:(lia) Hu). simpl.
    destruct (starts_char b), (starts_char c); simpl; lia. }
  destruct l3 as [|d l4]; [done|]. simpl in Hn. intros [(((Ed & _)%andb_true_iff & _)%andb_true_iff & _)%andb_true_iff Hu]%andb_true_iff.
  rewrite (lead_starts 240 244 a) by (done || lia). specialize (IH' l4 ltac:(lia) Hu). simpl.
  destruct (starts_char b), (starts_char c), (starts_char d); simpl; lia.
Qed.
Lemma utf8_len s : utf8_valid s = true -> len s <= 4 * sql_length s.
Proof.
  intros Hu. unfold sql_length, len. fold starts_char. pose proof (utf8_bytes_chars _ (bytes_of s) (le_n _) Hu) as Hl. rewrite length_bytes in Hl. lia.
Qed.
Lemma ascii_len s : sall is_ascii_byte s = true -> len s = sql_length s.
Proof.
  intros Ha. unfold sql_length, len. fold starts_char. rewrite <- length_bytes. f_equal. induction s as [|c s IH]; [done|].
  simpl in *. apply andb_true_iff in Ha as [Hc Hs]. rewrite (lead_starts 0 127 c) by (done || lia). simpl. by rewrite IH.
Qed.
Lemma sum_bytes_le k l : 0 <= k -> Forall (fun r => len (mr_envelope_json r) <= k * sql_length (mr_envelope_json r)) l -> sum_bytes l <= k * sum_length l.
Proof. intros Hk. unfold sum_bytes, sum_length. induction 1 as [|r l Hr _ IH]; simpl; lia. Qed.

(** The bytes of an inbox whose characters stay within [n]. *)
Lemma inbox_bytes n l : sum_length l <= n ->
  (Forall (fun r => utf8_valid (mr_envelope_json r) = true) l -> sum_bytes l <= 4 * n) /\
  (Forall (fun r => sall is_ascii_byte (mr_envelope_json r) = true) l -> sum_bytes l <= n).
Proof.
  intros Hn. split; intros Hl.
  - etrans; [apply (sum_bytes_le 4); [lia|]|lia]. eapply Forall_impl; [exact Hl|]. intros r. apply utf8_len.
  - etrans; [apply (sum_bytes_le 1); [lia|]|lia]. eapply Forall_impl; [exact Hl|]. intros r Hr%ascii_len. simpl. lia.
Qed.

(** A JSON printer that writes a character of two bytes for every bit set. *)
Fixpoint print_wide (p : positive) : string :=
  match p with
  | xH => "" | xO q => String "0" (print_wide q) | xI q => String (ascii_of_nat 195) (String (ascii_of_nat 169) (print_wide q))
  end.
Fixpoint parse_wide (s : string) : positive :=
  match s with
  | "" => xH
  | String c s' => if bool_decide (c = "0"%char) then xO (parse_wide s') else match s' with String _ s'' => xI (parse_wide s'') | "" => xH end
  end.
Lemma parse_print_wide p : parse_wide (print_wide p) = p.
Proof. induction p; simpl; congruence. Qed.
Definition wide_mailbox_ext : MailboxExt := {|
  envelope_to_string e := print_wide (encode (number_fields e));
  envelope_from_str s := l ← decode (parse_wide s); unnumber_fields l |}.
Lemma wide_mailbox_laws : @MailboxLaws wide_mailbox_ext.
Proof.
  constructor. intros e. cbn [envelope_from_str envelope_to_string wide_mailbox_ext].
  rewrite parse_print_wide, decode_encode. apply unnumber_fields_number.
Qed.

(** ** Theorems *)

Section theorems.
Context `{MailboxExt}.

(** C23. Every sequence of pushes, pulls, acknowledgements and cleanups, at any
    times, leaves a table whose ids are increasing and never reused, in which no
    two messages have the same sender, recipient, escrow and sequence number,
    and every row is a pushed envelope, unaltered, under the key of that
    envelope, leased completely or not at all. *)
Theorem mailbox_invariant ops : MailboxLaws -> mailbox_ok (run_mailbox ops empty_mailbox).1.
Proof.
  intros Hl. apply run_mailbox_ind; [|apply empty_mailbox_ok].
  intros now op m _. apply run_op_ok.
Qed.

(** C26. When every push uses the server's limits, no sequence of operations makes
    the table exceed the global number of rows, or an inbox its number of messages
    or its size in characters, which is what SQLite's LENGTH adds up for the
    messages already stored.  The limit is documented in bytes: in bytes an inbox
    stays within it when its messages are ASCII, and within four times the limit
    whatever text they are; [byte_quota_exceeded] shows an inbox above it. *)
Theorem mailbox_quotas lim ops :
  MailboxLaws -> 0 <= max_rows_global lim -> 0 <= max_messages_per_inbox lim ->
  0 <= max_bytes_per_inbox lim < U64_MAX -> pushes_with lim ops ->
  let m := (run_mailbox ops empty_mailbox).1 in
  quota_ok lim m /\
  forall to,
    (Forall (fun r => sall is_ascii_byte (mr_envelope_json r) = true) (inbox_of to m) -> sum_bytes (inbox_of to m) <= max_bytes_per_inbox lim) /\
    (Forall (fun r => utf8_valid (mr_envelope_json r) = true) (inbox_of to m) -> sum_bytes (inbox_of to m) <= 4 * max_bytes_per_inbox lim).
Proof.
  intros Hl Hg Hn Hb Hp m. assert (mailbox_ok m /\ quota_ok lim m) as [_ Hq].
  2:{ split; [exact Hq|]. intros to. destruct (inbox_bytes _ _ (proj2 (proj2 Hq to))). done. }
  apply (run_mailbox_ind (fun m => mailbox_ok m /\ quota_ok lim m)).
  - intros now op m1 Hin [Hm Hq]. split; [by apply run_op_ok|].
    apply run_op_quota; [lia| |done..]. intros env ttl lim' ->. by eapply Hp.
  - split; [apply empty_mailbox_ok|]. split; [done|]. intros to. unfold inbox_of, sum_length. simpl. lia.
Qed.

(** A push drops what has expired and nothing else; it answers "duplicate"
    exactly when a live message has the same key, and stores the message, last
    in the table and with the given time to live, exactly when there is no
    such message and all three limits leave room. *)
Theorem push_exact now env ttl lim m :
  mailbox_ok m -> t_seq m < I64_MAX ->
  let live := deleted (expired now) m in
  let new := row_of now (expiry now ttl) env (t_seq m + 1) in
  exists r,
    (push_sync now env ttl lim m).2 = Ok r /\
    t_rows (push_sync now env ttl lim m).1
      = t_rows live ++ (if decide (pr_dedup r = false /\ pr_rejection r = None) then [new] else []) /\
    (pr_dedup r = true <-> exists x, x ∈ t_rows live /\ msg_key x = msg_key new) /\
    (pr_dedup r = false /\ pr_rejection r = None <->
       (forall x, x ∈ t_rows live -> msg_key x <> msg_key new) /\ has_room env lim live).
Proof.
  intros Hm Hlt live new. rewrite push_sync_run. cbv zeta. fold live.
  assert (forall x, same_key env x = true <-> msg_key x = msg_key new) as Hsk
    by (intros x; apply same_key_spec).
  assert (existsb (same_key env) (t_rows live) = true <->
    exists x, x ∈ t_rows live /\ msg_key x = msg_key new) as Hex.
  { rewrite existsb_exists. setoid_rewrite <- list_elem_of_In. by setoid_rewrite Hsk. }
  assert (existsb (same_key env) (t_rows live) = false <->
    forall x, x ∈ t_rows live -> msg_key x <> msg_key new) as Hno.
  { rewrite existsb_false. setoid_rewrite <- Hsk. by setoid_rewrite not_true_iff_false. }
  destruct (push_verdict env lim live) as [r|] eqn:Ev.
  - apply push_verdict_some in Ev as (Hd & Hns & Hnr). exists r. split; [done|].
    rewrite decide_False, app_nil_r by done. splits; [done|by rewrite Hd|].
    rewrite <- Hno. split; [done|]. intros Hr. by destruct Hnr.
  - apply push_verdict_none in Ev as [Ek Hr]. rewrite (proj2 (Z.ltb_lt _ _)) by done.
    eexists. split; [done|]. rewrite decide_True by done. splits; [done| |].
    + rewrite <- Hex, Ek. done.
    + rewrite <- Hno. done.
Qed.

(** A pull always succeeds on a well-formed table: it hands out the oldest
    messages of the inbox that are neither expired nor leased, at most [max]
    of them, in the order of arrival and as they were pushed; exactly these
    rows are leased under the receipts handed out, every other live row is
    left as it was. *)
Theorem pull_exact receipts now to max lease_secs m :
  MailboxLaws -> mailbox_ok m ->
  let live := deleted (expired now) m in
  let sel := selected to now max live in
  exists out,
    pull_sync receipts now to max lease_secs m
      = (leased receipts (expiry now lease_secs) sel live, Ok out) /\
    map lm_receipt out = map receipts (seq 0 (length sel)) /\
    map (fun d => envelope_to_string (lm_envelope d)) out = map mr_envelope_json sel /\
    (forall k s, sel !! k = Some s ->
       leased_row receipts (expiry now lease_secs) sel s = set_lease (receipts k) (expiry now lease_secs) s) /\
    (forall r, r ∈ t_rows live -> r ∉ sel -> leased_row receipts (expiry now lease_secs) sel r = r).
Proof.
  intros Hl Hm live sel. destruct (pull_sync_run receipts now to max lease_secs m Hm) as (out & Hrun & Hr & Hj).
  exists out. assert (mailbox_ok live) as Hm1 by by apply deleted_ok.
  destruct (selected_sublist to now max live Hm1) as [Hnd _]. splits; [done..| |].
  - intros k s Hs. by apply leased_row_selected.
  - intros r Hin Hnot. apply leased_row_none. intros Hid. apply Hnot.
    apply list_elem_of_fmap in Hid as (s & E & Hs).
    assert (s = r) as <-; [|done]. apply (unique_row mr_id (t_rows live)); [apply ids_ok_NoDup, Hm1| |done..].
    by apply selected_rows in Hs as [? _].
Qed.

(** C24. What a pull hands out is leased to its receiver: until the lease ends
    or the message expires, no sequence of pushes, pulls by anyone, cleanups
    and acknowledgements of other receipts makes the mailbox hand it out
    again, and it stays in the mailbox. *)
Theorem lease_exclusive receipts now to max lease_secs m m1 out d :
  MailboxLaws -> mailbox_ok m ->
  pull_sync receipts now to max lease_secs m = (m1, Ok out) -> d ∈ out ->
  exists r, r ∈ t_rows m1 /\ mr_envelope_json r = envelope_to_string (lm_envelope d) /\
    mr_lease_id r = Some (lm_receipt d) /\
    forall ops,
      Forall (fun o => o.1 <= expiry now lease_secs /\ o.1 < mr_expires_at_ms r /\
                       acks o.2 r = false) ops ->
      r ∈ t_rows (run_mailbox ops m1).1 /\
      lm_envelope d ∉ map lm_envelope (delivered_in (run_mailbox ops m1).2).
Proof.
  intros Hl Hm Hrun Hd.
  destruct (delivered_leased _ _ _ _ _ _ _ _ _ Hm Hrun Hd) as (s & _ & _ & Ej & Hs).
  eexists. split; [exact Hs|]. splits; [done|done|]. intros ops Hops.
  assert (mailbox_ok m1) as Hm1.
  { pose proof (pull_sync_run receipts now to max lease_secs m Hm) as (out' & E & _).
    rewrite Hrun in E. injection E as -> _. by apply leased_ok, deleted_ok. }
  destruct (lease_held ops m1 _ _ Hm1 Hs eq_refl Hops) as [Hkeep Hnot]. split; [done|].
  intros Hin. apply list_elem_of_fmap in Hin as (d' & E & Hd'). apply (Hnot d' Hd').
  simpl. by rewrite <- E.
Qed.

(** No message is lost: it stays, unaltered, through every sequence of
    operations before its expiry, unless its own inbox acknowledges a receipt
    under which a pull handed it out. *)
Theorem no_message_lost (issued : string -> Prop) ops m r :
  MailboxLaws -> mailbox_ok m -> r ∈ t_rows m ->
  (forall id, mr_lease_id r = Some id -> issued id) ->
  Forall (fun o => o.1 < mr_expires_at_ms r /\ spares issued (mr_to r) o.2) ops ->
  exists r', r' ∈ t_rows (run_mailbox ops m).1 /\ msg_key r' = msg_key r /\
    mr_envelope_json r' = mr_envelope_json r /\ mr_expires_at_ms r' = mr_expires_at_ms r.
Proof. intros Hl. apply row_kept. Qed.

(** C25. Push, pull, acknowledge: a message that was stored is handed out, equal
    to what was pushed, by a pull of its inbox before its expiry that asks for
    enough messages; acknowledging the receipt it came with succeeds and
    removes it, and a second acknowledgement finds nothing. *)
Theorem push_pull_ack_roundtrip now now' env ttl lim receipts max lease_secs m m1 :
  MailboxLaws -> mailbox_ok m ->
  push_sync now env ttl lim m = (m1, Ok (MkPushResult false None)) ->
  now' < expiry now ttl -> Z.of_nat (length (inbox_of (ev_to env) m1)) <= max ->
  exists m2 out d m3,
    pull_sync receipts now' (ev_to env) max lease_secs m1 = (m2, Ok out) /\ d ∈ out /\
    lm_envelope d = env /\
    ack_sync (lm_receipt d) (ev_to env) m2 = (m3, Ok true) /\
    (forall r, r ∈ t_rows m3 -> same_key env r = false) /\
    ack_sync (lm_receipt d) (ev_to env) m3 = (m3, Ok false).
Proof.
  intros Hl Hm Hpush Hnow Hmax.
  destruct (push_stored _ _ _ _ _ _ Hm Hpush) as (id & Hm1 & Hnew).
  destruct (pull_sync_run receipts now' (ev_to env) max lease_secs m1 Hm1) as (out & Hpull & Hout).
  set (live := deleted (expired now') m1) in *. set (sel := selected (ev_to env) now' max live) in *.
  assert (mailbox_ok live) as Hlive by by apply deleted_ok.
  set (new := row_of now (expiry now ttl) env id) in *.
  assert (new ∈ sel) as [k Hk]%list_elem_of_lookup.
  { apply selected_all; [by apply live_row_kept| |].
    - unfold available. simpl. rewrite String.eqb_refl, (proj2 (Z.ltb_lt _ _)) by done. done.
    - unfold live. rewrite inbox_deleted.
      pose proof (List.filter_length_le (fun r => negb (expired now' r)) (inbox_of (ev_to env) m1)). lia. }
  destruct (selected_delivered _ _ _ _ _ Hout Hk) as (d & Hd & Er & Ej).
  pose proof (leased_row_selected receipts (expiry now' lease_secs) sel k new
    (proj1 (selected_sublist _ _ _ _ Hlive)) Hk) as Enew.
  set (m2 := leased receipts (expiry now' lease_secs) sel live) in *.
  assert (set_lease (lm_receipt d) (expiry now' lease_secs) new ∈ t_rows m2) as Hin.
  { rewrite Er, <- Enew. apply list_elem_of_fmap. exists new. split; [done|].
    apply list_elem_of_lookup_2 in Hk. by apply selected_rows in Hk as [? _]. }
  exists m2, out, d. eexists. splits; [done|done|..].
  - assert (Some (lm_envelope d) = Some env) as [= ->]; [|done].
    rewrite <- !envelope_roundtrip. f_equal. exact Ej.
  - apply (ack_hit _ _ _ _ Hin).
  - apply (ack_clears env m2 _ _ _ (leased_ok _ _ _ _ Hlive) Hin).
    by apply (same_key_spec env now (expiry now ttl) id).
  - apply ack_again.
Qed.

(** An acknowledgement deletes the messages of the caller's inbox that are
    leased under the receipt and nothing else, whatever inbox the receipt was
    handed out for; it reports success exactly when there was such a message. *)
Theorem ack_exact receipt to m :
  exists m' found, ack_sync receipt to m = (m', Ok found) /\
    (found = true <-> exists r, r ∈ t_rows m /\ mr_lease_id r = Some receipt /\ mr_to r = to) /\
    (forall r, r ∈ t_rows m' <-> r ∈ t_rows m /\ ~ (mr_lease_id r = Some receipt /\ mr_to r = to)).
Proof.
  rewrite ack_sync_run. eexists _, _. split; [done|]. split.
  - rewrite count_pos. by setoid_rewrite acked_spec.
  - intros r. by rewrite elem_of_deleted, <- acked_spec, not_true_iff_false.
Qed.
End theorems.

(** ** Witnesses *)

Lemma mailbox_invariant_witness : @mailbox_ok demo_mailbox_ext demo_mailbox.
Proof. exact (@mailbox_invariant demo_mailbox_ext demo_mailbox_ops demo_mailbox_laws). Defined.

Lemma mailbox_quotas_witness : @quota_ok demo_limits demo_mailbox /\ sum_bytes (inbox_of "b" demo_mailbox) <= 100000.
Proof.
  enough (@quota_ok demo_limits demo_mailbox /\ forall to,
    (Forall (fun r => sall is_ascii_byte (mr_envelope_json r) = true) (inbox_of to demo_mailbox) -> sum_bytes (inbox_of to demo_mailbox) <= 100000) /\
    (Forall (fun r => utf8_valid (mr_envelope_json r) = true) (inbox_of to demo_mailbox) -> sum_bytes (inbox_of to demo_mailbox) <= 4 * 100000)) as [Hq Hb].
  { split; [exact Hq|]. apply (Hb "b"%string). apply Forall_forall. setoid_rewrite list_elem_of_In. apply List.forallb_forall. vm_compute. reflexivity. }
  apply (@mailbox_quotas demo_mailbox_ext demo_limits demo_mailbox_ops).
  - apply demo_mailbox_laws.
  - by vm_compute.
  - by vm_compute.
  - split; by vm_compute.
  - intros now env ttl lim Hin. unfold demo_mailbox_ops in Hin.
    repeat (apply elem_of_cons in Hin as [[= _ _ _ E]|Hin]; [exact E|]). by apply not_elem_of_nil in Hin.
Defined.

(** Messages of two-byte characters: the second push is accepted although the
    inbox then takes more bytes than its limit. *)
Definition wide_limits : MailboxLimits := MkMailboxLimits 10 (2 * len (@envelope_to_string wide_mailbox_ext (demo_env "b" 1)) - 1) 10.
Definition wide_mailbox : mailbox :=
  (@run_mailbox wide_mailbox_ext [(10, OpPush (demo_env "b" 1) 60 wide_limits); (20, OpPush (demo_env "b" 2) 60 wide_limits)] empty_mailbox).1.
Theorem byte_quota_exceeded :
  @MailboxLaws wide_mailbox_ext /\ Forall (fun r => utf8_valid (mr_envelope_json r) = true) (inbox_of "b" wide_mailbox) /\
  max_bytes_per_inbox wide_limits < sum_bytes (inbox_of "b" wide_mailbox).
Proof.
  split; [apply wide_mailbox_laws|]. split; [|vm_compute; reflexivity].
  apply Forall_forall. setoid_rewrite list_elem_of_In. apply List.forallb_forall. vm_compute. reflexivity.
Qed.

(** The third message for "b" hits the quota of its inbox. *)
Lemma push_exact_witness :
  exists r, (@push_sync demo_mailbox_ext 40 (demo_env "b" 3) 60 demo_limits demo_mailbox).2 = Ok r /\
    pr_rejection r <> None.
Proof.
  destruct (@push_exact demo_mailbox_ext 40 (demo_env "b" 3) 60 demo_limits demo_mailbox demo_mailbox_ok
    ltac:(by vm_compute)) as (r & Hr & _).
  exists r. split; [exact Hr|]. vm_compute in Hr. injection Hr as <-. discriminate.
Defined.

Lemma pull_exact_witness :
  exists out, (@pull_sync demo_mailbox_ext (demo_receipts "r") 50 "b" 10 30 demo_mailbox).2 = Ok out /\
    map lm_receipt out = ["r0"; "r1"].
Proof.
  destruct (@pull_exact demo_mailbox_ext (demo_receipts "r") 50 "b" 10 30 demo_mailbox demo_mailbox_laws demo_mailbox_ok)
    as (out & Hrun & Hr & _).
  exists out. rewrite Hrun. split; [reflexivity|]. rewrite Hr. vm_compute. reflexivity.
Defined.

(** While the lease of the first message runs, a second pull gets the next. *)
Lemma lease_exclusive_witness :
  demo_env "b" 1 ∉ map lm_envelope (delivered_in (@run_mailbox demo_mailbox_ext
    [(60, OpPull (demo_receipts "s") "b" 10 30)]
    (@pull_sync demo_mailbox_ext (demo_receipts "r") 50 "b" 1 30 demo_mailbox).1).2).
Proof.
  destruct (@lease_exclusive demo_mailbox_ext (demo_receipts "r") 50 "b" 1 30 demo_mailbox
    (@pull_sync demo_mailbox_ext (demo_receipts "r") 50 "b" 1 30 demo_mailbox).1
    [MkLeased "r0" (demo_env "b" 1)] (MkLeased "r0" (demo_env "b" 1)) demo_mailbox_laws demo_mailbox_ok)
    as (r & Hr & Hj & _ & Hops).
  - vm_compute. reflexivity.
  - apply list_elem_of_singleton. reflexivity.
  - apply (Hops [(60, OpPull (demo_receipts "s") "b" 10 30)]). apply list.Forall_singleton.
    split; [by vm_compute|]. split; [|reflexivity].
    assert (forallb (fun r => 60 <? mr_expires_at_ms r) (t_rows
      (@pull_sync demo_mailbox_ext (demo_receipts "r") 50 "b" 1 30 demo_mailbox).1) = true) as Hf
      by (vm_compute; reflexivity).
    rewrite forallb_forall in Hf. apply Z.ltb_lt, Hf, list_elem_of_In, Hr.
Defined.

Lemma no_message_lost_witness :
  exists r r', r ∈ t_rows demo_mailbox /\
    r' ∈ t_rows (@run_mailbox demo_mailbox_ext [(50, OpPull (demo_receipts "r") "b" 10 30);
                                        (55, OpAck "x" "b"); (56, OpAck "r0" "c")] demo_mailbox).1 /\
    msg_key r' = msg_key r.
Proof.
  destruct (t_rows demo_mailbox !! 0%nat) as [r|] eqn:E; [|by vm_compute in E].
  assert (r ∈ t_rows demo_mailbox) as Hr by (by eapply list_elem_of_lookup_2).
  destruct (@no_message_lost demo_mailbox_ext (fun id => exists k, id = demo_receipts "r" k)
    [(50, OpPull (demo_receipts "r") "b" 10 30); (55, OpAck "x" "b"); (56, OpAck "r0" "c")]
    demo_mailbox r demo_mailbox_laws demo_mailbox_ok Hr) as (r' & Hr' & Hk & _).
  - vm_compute in E. injection E as <-. discriminate.
  - vm_compute in E. injection E as <-. repeat constructor; simpl; [by eexists|..].
    + intros _ [k Hk]. unfold demo_receipts in Hk. discriminate.
    + discriminate.
  - exists r, r'. split; [exact Hr|]. split; [exact Hr'|exact Hk].
Defined.

Lemma push_pull_ack_roundtrip_witness :
  exists m2 out d,
    @pull_sync demo_mailbox_ext (demo_receipts "r") 20 "b" 10 30
      (@push_sync demo_mailbox_ext 10 (demo_env "b" 1) 60 demo_limits empty_mailbox).1 = (m2, Ok out) /\
    d ∈ out /\ lm_envelope d = demo_env "b" 1.
Proof.
  destruct (@push_pull_ack_roundtrip demo_mailbox_ext 10 20 (demo_env "b" 1) 60 demo_limits
    (demo_receipts "r") 10 30 empty_mailbox
    (@push_sync demo_mailbox_ext 10 (demo_env "b" 1) 60 demo_limits empty_mailbox).1 demo_mailbox_laws
    (@empty_mailbox_ok demo_mailbox_ext)) as (m2 & out & d & m3 & Hp & Hd & He & _).
  - vm_compute. reflexivity.
  - by vm_compute.
  - by vm_compute.
  - exists m2, out, d. split; [exact Hp|]. split; [exact Hd|exact He].
Defined.
