(* ===== verification/MailboxLimiter.v ===== *)
(** * The rate limiter of the mailbox

    [FixedWindowLimiter] of [crates/nxms-mailbox/src/lib.rs]: one counter per
    key, restarted every minute, with a cleanup of old counters when the map
    has grown.  The cleanup is shown to be invisible and the rate bounded. *)

From S2P Require Import Prelude RustString.

Record WindowCounter : Type := MkWindow { started_at : Z; wc_count : Z }.
Notation window_map := (gmap string WindowCounter).

Definition WINDOW_SECS : Z := 60.
Definition RETAIN_SECS : Z := 120.
Definition MAX_COUNTERS : Z := 50000.

(** The counter of the key, in the window of [now]. *)
Definition current_counter (c : option WindowCounter) (now : Z) : WindowCounter :=
  let counter := match c with Some c => c | None => MkWindow now 0 end in
  if WINDOW_SECS <=? sat_sub_u64 now (started_at counter) then MkWindow now 0 else counter.

(** [FixedWindowLimiter::check]: the new map and the seconds to wait. *)
Definition check (key : string) (limit_per_min now : Z) (m : window_map)
    : window_map * option Z :=
  if (limit_per_min =? 0) || is_empty (trim key) then (m, None)
  else
    let counter := current_counter (m !! key) now in
    if limit_per_min <=? wc_count counter then
      let elapsed := Z.min (sat_sub_u64 now (started_at counter)) WINDOW_SECS in
      (<[key := counter]> m, Some (WINDOW_SECS - elapsed))
    else
      let m' := <[key := MkWindow (started_at counter) (sat_add_u32 (wc_count counter) 1)]> m in
      (if MAX_COUNTERS <? Z.of_nat (size m')
       then filter (fun kv => sat_sub_u64 now (started_at kv.2) < RETAIN_SECS) m' else m',
       None).

(** ** Runs *)

(** Requests: key and time. *)
Fixpoint run_limiter (limit : Z) (l : list (string * Z)) (m : window_map) : list (option Z) :=
  match l with
  | [] => []
  | (key, now) :: l' => let '(m', r) := check key limit now m in r :: run_limiter limit l' m'
  end.

(** The limiter without the map: one counter, and the requests of one key. *)
Fixpoint run_counter (limit : Z) (l : list Z) (c : option WindowCounter) : list (option Z) :=
  match l with
  | [] => []
  | now :: l' =>
      let counter := current_counter c now in
      if limit <=? wc_count counter
      then Some (WINDOW_SECS - Z.min (sat_sub_u64 now (started_at counter)) WINDOW_SECS)
             :: run_counter limit l' (Some counter)
      else None :: run_counter limit l' (Some (MkWindow (started_at counter) (sat_add_u32 (wc_count counter) 1)))
  end.

(** What a run answered to one key. *)
Definition answers_to {A} (key : string) (l : list (string * Z)) (rs : list A) : list A :=
  map snd (List.filter (fun x => (x.1.1 =? key)%string) (zip l rs)).
Definition times_of (key : string) (l : list (string * Z)) : list Z :=
  map snd (List.filter (fun x => (x.1 =? key)%string) l).

Fixpoint monotone (t : Z) (l : list Z) : Prop :=
  match l with [] => True | t' :: l' => t <= t' /\ monotone t' l' end.

(** ** The cleanup is invisible *)

(** Two counters that answer alike from [now] on. *)
Definition counter_equiv (now : Z) (a b : option WindowCounter) : Prop :=
  a = b \/ forall t, now <= t -> current_counter a t = current_counter b t.

Lemma counter_equiv_later now t a b : counter_equiv now a b -> now <= t -> counter_equiv t a b.
Proof. intros [->|He] Hle; [by left|right]. intros t' Ht. apply He. lia. Qed.

Lemma counter_equiv_current now a b :
  counter_equiv now a b -> current_counter a now = current_counter b now.
Proof. intros [->|He]; [done|]. apply He. lia. Qed.

Lemma stale_counter now c :
  WINDOW_SECS <= sat_sub_u64 now (started_at c) -> counter_equiv now None (Some c).
Proof.
  intros Hs. right. intros t Ht. unfold current_counter, WINDOW_SECS in *. cbn [started_at].
  rewrite (proj2 (Z.leb_gt 60 (sat_sub_u64 t t))) by (unfold sat_sub_u64; lia).
  by rewrite (proj2 (Z.leb_le 60 (sat_sub_u64 t (started_at c)))) by (unfold sat_sub_u64 in *; lia).
Qed.

Definition active (limit : Z) (key : string) : Prop := limit <> 0 /\ is_empty (trim key) = false.

Lemma check_active key limit :
  active limit key -> (limit =? 0) || is_empty (trim key) = false.
Proof. intros [Hl Hk]. rewrite Hk, orb_false_r. by apply Z.eqb_neq. Qed.

(** A request of another key leaves the counter of [key], up to the cleanup. *)
Lemma check_other key key' limit now m :
  key' <> key -> counter_equiv now ((check key' limit now m).1 !! key) (m !! key).
Proof.
  intros Hne. unfold check. destruct (_ || _); [by left|]. cbv zeta.
  destruct (limit <=? _); cbn [fst]; [left; by rewrite lookup_insert_ne|].
  set (m' := insert _ _ _). assert (m' !! key = m !! key) as Em by (by apply lookup_insert_ne).
  destruct (MAX_COUNTERS <? _); [|by left]. rewrite <- Em.
  destruct (m' !! key) as [c|] eqn:E; [|left; by rewrite map_lookup_filter, E].
  destruct (decide (sat_sub_u64 now (started_at c) < RETAIN_SECS)) as [Hk|Hd].
  - left. by apply map_lookup_filter_Some.
  - assert (filter (fun kv => sat_sub_u64 now (started_at kv.2) < RETAIN_SECS) m' !! key = None) as ->.
    { apply map_lookup_filter_None. right. intros x Hx. simpl. rewrite E in Hx. by injection Hx as <-. }
    apply stale_counter. unfold RETAIN_SECS, WINDOW_SECS in *. lia.
Qed.

(** A request answers from its own counter, which the cleanup keeps: it is new. *)
Lemma check_own key limit now m :
  active limit key ->
  let counter := current_counter (m !! key) now in
  check key limit now m =
    (if limit <=? wc_count counter
     then (<[key := counter]> m, Some (WINDOW_SECS - Z.min (sat_sub_u64 now (started_at counter)) WINDOW_SECS))
     else ((check key limit now m).1, None)) /\
  (check key limit now m).1 !! key = Some (if limit <=? wc_count counter then counter
     else MkWindow (started_at counter) (sat_add_u32 (wc_count counter) 1)).
Proof.
  intros Ha counter. unfold check. rewrite check_active by done. fold counter. cbv zeta.
  destruct (limit <=? wc_count counter); cbn [fst]; [split; [done|apply lookup_insert_eq]|].
  split; [done|]. destruct (MAX_COUNTERS <? _); [|apply lookup_insert_eq].
  apply map_lookup_filter_Some. rewrite lookup_insert_eq. split; [done|]. simpl.
  unfold counter, current_counter, RETAIN_SECS, WINDOW_SECS. cbv zeta.
  set (c := match m !! key with Some c => c | None => _ end).
  destruct (Z.leb_spec 60 (sat_sub_u64 now (started_at c))); cbn [started_at]; unfold sat_sub_u64 in *; lia.
Qed.

Lemma check_own_answer key limit now m :
  active limit key ->
  (check key limit now m).2 = let counter := current_counter (m !! key) now in
    if limit <=? wc_count counter
    then Some (WINDOW_SECS - Z.min (sat_sub_u64 now (started_at counter)) WINDOW_SECS) else None.
Proof.
  intros Ha. destruct (check_own key limit now m Ha) as [-> _]. cbv zeta.
  by destruct (limit <=? _).
Qed.

Lemma run_limiter_counter limit key l : active limit key -> forall t m c,
  monotone t (map snd l) -> counter_equiv t (m !! key) c ->
  answers_to key l (run_limiter limit l m) = run_counter limit (times_of key l) c.
Proof.
  intros Ha. induction l as [|[k now] l IH]; intros t m c Hmon He; [done|].
  destruct Hmon as [Hle Hmon]. simpl in Hle, Hmon.
  assert (counter_equiv now (m !! key) c) as He1 by by eapply counter_equiv_later.
  cbn [run_limiter]. unfold answers_to, times_of.
  destruct (String.eqb_spec k key) as [->|Hne].
  - pose proof (check_own_answer key limit now m Ha) as Hans.
    pose proof (proj2 (check_own key limit now m Ha)) as Hm.
    destruct (check key limit now m) as [m' r]. cbn [fst snd] in *. cbv zeta in Hans.
    rewrite (counter_equiv_current _ _ _ He1) in Hans, Hm.
    cbn [zip zip_with List.filter map fst snd]. rewrite String.eqb_refl. cbn [map snd run_counter].
    rewrite Hans. fold (answers_to key l (run_limiter limit l m')). fold (times_of key l). cbv zeta.
    destruct (limit <=? wc_count (current_counter c now)); f_equal; apply (IH now); try done; by left.
  - pose proof (check_other key k limit now m Hne) as Ho.
    destruct (check k limit now m) as [m' r]. cbn [fst snd zip zip_with List.filter map] in *.
    rewrite (proj2 (String.eqb_neq _ _)) by done.
    apply (IH now m' c Hmon). destruct He1 as [<-|He1]; [done|].
    right. intros t' Ht. destruct Ho as [->|Ho]; [by apply He1|]. by rewrite Ho, He1.
Qed.

(** ** The rate *)

(** The requests a counter admits in [[t, t + 60)]. *)
Fixpoint admitted_in (t : Z) (l : list Z) (rs : list (option Z)) : Z :=
  match l, rs with
  | now :: l', r :: rs' =>
      (if (t <=? now) && (now <? t + WINDOW_SECS) && bool_decide (r = None) then 1 else 0)
      + admitted_in t l' rs'
  | _, _ => 0
  end.

Lemma current_counter_cases c now :
  0 <= now ->
  let k := current_counter (Some c) now in
  (k = c /\ now - started_at c < WINDOW_SECS) \/
  (k = MkWindow now 0 /\ WINDOW_SECS <= now - started_at c).
Proof.
  intros Hn. unfold current_counter, WINDOW_SECS, sat_sub_u64.
  destruct (Z.leb_spec 60 (Z.max 0 (now - started_at c))); [right|left]; split; [done|lia|done|lia].
Qed.

Lemma admitted_late t l : forall t0 rs, monotone t0 l -> t + WINDOW_SECS <= t0 -> admitted_in t l rs = 0.
Proof.
  induction l as [|now l IH]; intros t0 rs Hmon Hle; [done|]. destruct Hmon as [Hn Hmon].
  destruct rs as [|r rs]; [done|]. cbn [admitted_in].
  rewrite (proj2 (Z.ltb_ge now (t + WINDOW_SECS))), andb_false_r by lia. simpl.
  apply (IH now); [done|lia].
Qed.

Section rate.
Context (limit t : Z).
Hypothesis limit_u32 : 0 <= limit <= U32_MAX.

(** One request that stays in the window of [c]. *)
Lemma admitted_step now l c b :
  0 <= wc_count c <= limit -> current_counter (Some c) now = c ->
  (forall n, 0 <= n <= limit -> admitted_in t l (run_counter limit l (Some (MkWindow (started_at c) n)))
     <= limit - n + b) ->
  admitted_in t (now :: l) (run_counter limit (now :: l) (Some c)) <= limit - wc_count c + b.
Proof.
  intros Hc Hcur Hl. cbn [run_counter]. cbv zeta. rewrite Hcur. destruct c as [s n]. cbn [started_at wc_count] in *.
  destruct (Z.leb_spec limit n); cbn [admitted_in].
  - rewrite bool_decide_eq_false_2, andb_false_r by done. rewrite Z.add_0_l. by apply Hl.
  - rewrite bool_decide_eq_true_2 by done.
    assert (sat_add_u32 n 1 = n + 1) as -> by (unfold sat_add_u32; lia).
    specialize (Hl (n + 1) ltac:(lia)). destruct (_ && _); lia.
Qed.

Lemma current_counter_fresh now : current_counter (Some (MkWindow now 0)) now = MkWindow now 0.
Proof. unfold current_counter. by case_match. Qed.

Lemma run_counter_fresh now l c :
  current_counter c now = MkWindow now 0 ->
  run_counter limit (now :: l) c = run_counter limit (now :: l) (Some (MkWindow now 0)).
Proof.
  intros Hc. cbn [run_counter]. by rewrite Hc, current_counter_fresh.
Qed.

(** With a window that began at or after [t]: what the window has left. *)
Lemma admitted_same l : forall t0 c,
  0 <= t0 -> monotone t0 l -> t <= started_at c -> 0 <= wc_count c <= limit ->
  admitted_in t l (run_counter limit l (Some c)) <= limit - wc_count c + 0.
Proof.
  induction l as [|now l IH]; intros t0 c H0 Hmon Hs Hc; [simpl; lia|].
  destruct (current_counter_cases c now ltac:(destruct Hmon; lia)) as [[E Hw]|[E Hw]].
  - destruct Hmon as [Hle Hmon]. apply admitted_step; [done..|]. intros n Hn.
    apply (IH now); [lia|done..].
  - rewrite (admitted_late _ _ now); [lia|split; [lia|apply Hmon]|lia].
Qed.

(** From [t] on: what the window has left, and one more. *)
Lemma admitted_from l : forall t0 c,
  0 <= t0 -> t <= t0 -> monotone t0 l -> 0 <= wc_count c <= limit ->
  admitted_in t l (run_counter limit l (Some c)) <= limit - wc_count c + limit.
Proof.
  induction l as [|now l IH]; intros t0 c H0 Ht Hmon Hc; [simpl; lia|].
  destruct (current_counter_cases c now ltac:(destruct Hmon; lia)) as [[E Hw]|[E Hw]].
  - destruct Hmon as [Hle Hmon]. apply admitted_step; [done..|]. intros n Hn.
    apply (IH now); [lia|lia|done..].
  - rewrite run_counter_fresh by done. destruct Hmon as [Hle Hmon].
    pose proof (admitted_same (now :: l) t0 (MkWindow now 0) H0 (conj Hle Hmon)) as Hs.
    cbn [started_at wc_count] in Hs. specialize (Hs ltac:(lia) ltac:(lia)). lia.
Qed.

(** A window that has begun has admitted a request. *)
Lemma admitted_any l : forall t0 c,
  1 <= limit -> 0 <= t0 -> monotone t0 l -> 1 <= wc_count c <= limit ->
  admitted_in t l (run_counter limit l (Some c)) <= 2 * limit - 1.
Proof.
  induction l as [|now l IH]; intros t0 c H1 H0 Hm Hc; [simpl; lia|]. destruct Hm as [Hle Hmon].
  destruct (Z.leb_spec t now) as [Ht|Ht].
  - pose proof (admitted_from (now :: l) now c ltac:(lia) Ht
      (conj (Z.le_refl now) Hmon) ltac:(lia)). lia.
  - cbn [run_counter]. cbv zeta. set (k := current_counter (Some c) now).
    assert (0 <= wc_count k <= limit) as Hk.
    { unfold k. destruct (current_counter_cases c now ltac:(lia)) as [[-> _]|[-> _]]; simpl; lia. }
    destruct (Z.leb_spec limit (wc_count k)); cbn [admitted_in];
      rewrite (proj2 (Z.leb_gt t now)) by lia; cbn [andb]; rewrite Z.add_0_l;
      apply (IH now); try done; try lia. unfold sat_add_u32. cbn [wc_count]. lia.
Qed.
End rate.

(** Per key, the limiter behaves as a single counter with windows of a
    minute, whatever other keys are used and however often the map is cleaned
    up: on a clock that does not go back, the answers to a key in a run are
    those of the counter alone on the requests of that key. *)
Theorem limiter_per_key limit key l :
  limit <> 0 -> is_empty (trim key) = false -> monotone 0 (map snd l) ->
  answers_to key l (run_limiter limit l ∅) = run_counter limit (times_of key l) None.
Proof.
  intros Hl Hk Hm. apply (run_limiter_counter limit key l (conj Hl Hk) 0 ∅ None Hm).
  left. apply lookup_empty.
Qed.

Lemma limiter_per_key_witness :
  answers_to "a" [("a", 1); ("b", 2); ("a", 3); ("a", 4); ("a", 70)]
    (run_limiter 2 [("a", 1); ("b", 2); ("a", 3); ("a", 4); ("a", 70)] ∅)
  = [None; None; Some 57; None].
Proof.
  rewrite (limiter_per_key 2 "a"); [reflexivity|lia|reflexivity|]. simpl. lia.
Defined.

(** In any minute, wherever it begins, a key gets at most [2 * limit - 1]
    requests through the limiter. *)
Theorem limiter_rate_bound limit t l :
  1 <= limit <= U32_MAX -> monotone 0 l ->
  admitted_in t l (run_counter limit l None) <= 2 * limit - 1.
Proof.
  intros Hl Hm. destruct l as [|now l]; [simpl; lia|]. destruct Hm as [Hle Hm].
  rewrite run_counter_fresh; [|unfold current_counter, sat_sub_u64; cbn [started_at]; by rewrite Z.sub_diag].
  destruct (Z.leb_spec t now) as [Ht|Ht].
  - pose proof (admitted_same limit t ltac:(lia) (now :: l) 0 (MkWindow now 0) ltac:(lia) (conj Hle Hm)) as Hs.
    cbn [started_at wc_count] in Hs. specialize (Hs ltac:(lia) ltac:(lia)). lia.
  - cbn [run_counter]. rewrite (current_counter_fresh now). cbn [started_at wc_count]. cbv zeta.
    rewrite (proj2 (Z.leb_gt limit 0)) by lia. cbn [admitted_in]. rewrite (proj2 (Z.leb_gt t now)) by lia. cbn [andb]. rewrite Z.add_0_l.
    apply (admitted_any limit t ltac:(lia) l now); [lia|lia|done|]. unfold sat_add_u32. cbn. lia.
Qed.

(** The bound is reached across the boundary of two windows. *)
Lemma limiter_rate_bound_witness :
  admitted_in 59 [0; 59; 60; 61] (run_counter 2 [0; 59; 60; 61] None) = 3 /\
  admitted_in 59 [0; 59; 60; 61] (run_counter 2 [0; 59; 60; 61] None) <= 2 * 2 - 1.
Proof. split; [reflexivity|]. apply (limiter_rate_bound 2 59); [unfold U32_MAX; lia|simpl; lia]. Defined.
