(* ===== verification/MailboxConfig.v ===== *)
(** * The configuration of the mailbox

    [MailboxConfig::normalize] and the resolution of secrets, in
    [crates/nxms-mailbox/src/config.rs].  The environment, the files of the
    host and the parser of socket addresses are an interface ([ConfigExt]);
    [iter] is the order in which a [HashMap] is traversed.  Errors keep the
    label and leave out the wording. *)

From S2P Require Import Prelude RustString Sql Mailbox.
From Stdlib Require Import Sorting.Permutation.

Notation tokens := (gmap string string).

Record FileInfo : Type := MkFile { fi_is_file : bool; fi_mode : Z; fi_text : option string }.
Class ConfigExt : Type := {
  (** [bind.parse::<SocketAddr>()], then [ip().is_loopback()] *)
  parse_bind : string -> option bool;
  env_var : string -> option string;
  file_at : string -> option FileInfo;
}.

Record MailboxConfig : Type := MkMailboxConfig {
  mc_bind : string;
  mc_max_body_bytes : Z;
  mc_default_ttl_secs : Z;
  mc_max_ttl_secs : Z;
  mc_lease_secs : Z;
  mc_max_wait_ms : Z;
  mc_push_token : string;
  mc_pull_tokens : tokens;
  mc_ack_tokens : tokens;
  mc_admin_token : string;
  mc_cleanup_secs : Z;
  mc_checkpoint_secs : Z;
  mc_max_messages_per_inbox : Z;
  mc_max_bytes_per_inbox : Z;
  mc_max_rows_global : Z;
  mc_rate_limit_ip_per_min : Z;
  mc_rate_limit_to_per_min : Z;
  mc_production_hardening : bool;
}.

Record ApiConfig : Type := MkApiConfig {
  push_token : option string;
  pull_tokens : tokens;
  ack_tokens : tokens;
  admin_token : option string;
  max_body_bytes : Z;
  default_ttl_secs : Z;
  max_ttl_secs : Z;
  lease_secs : Z;
  max_wait_ms : Z;
  limits : MailboxLimits;
  rate_limit_ip_per_min : Z;
  rate_limit_to_per_min : Z;
}.

Inductive ConfigError : Type :=
| BadBind | BindNotLoopback
| SecretPrefixWithoutName (label : string) | SecretMissing (label : string)
| SecretEmpty (label : string) | SecretNotRegularFile (label : string)
| SecretFileMode (label : string) | SecretUnreadable (label : string)
| EmptyInboxKey (label : string) | DuplicateInbox (label : string)
| NoScopes (label : string) | ScopesDiffer | TokenReused (label : string)
| TokenTooShort (label : string) | TokenNotVault (label : string).

Definition api_config (c : MailboxConfig) : ApiConfig :=
  MkApiConfig (Some (mc_push_token c)) (mc_pull_tokens c) (mc_ack_tokens c) (Some (mc_admin_token c))
    (mc_max_body_bytes c) (mc_default_ttl_secs c) (mc_max_ttl_secs c) (mc_lease_secs c) (mc_max_wait_ms c)
    (MkMailboxLimits (mc_max_messages_per_inbox c) (mc_max_bytes_per_inbox c) (mc_max_rows_global c))
    (mc_rate_limit_ip_per_min c) (mc_rate_limit_to_per_min c).

Definition secret_uses_vault_reference (raw : string) : bool :=
  match strip_prefix "vault:" (trim raw) with Some v => negb (is_empty (trim v)) | None => false end.

Section config.
Context `{ConfigExt} (iter : tokens -> list (string * string)).

Definition read_secret_file (path label : string) (require_owner_only : bool)
    : result ConfigError string :=
  let? meta := ok_or (file_at path) (SecretMissing label) in
  let? _ := fail_if (negb (fi_is_file meta)) (SecretNotRegularFile label) in
  let? _ := fail_if (require_owner_only && negb (Z.land (Z.land (fi_mode meta) 511) 63 =? 0))
              (SecretFileMode label) in
  let? value := ok_or (fi_text meta) (SecretUnreadable label) in
  let out := trim value in
  let? _ := fail_if (is_empty out) (SecretEmpty label) in
  Ok out.

Definition resolve_secret_value (raw label : string) : result ConfigError string :=
  let trimmed := trim raw in
  match strip_prefix "env:" trimmed with
  | Some var_name =>
      let key := trim var_name in
      let? _ := fail_if (is_empty key) (SecretPrefixWithoutName label) in
      let? value := ok_or (env_var key) (SecretMissing label) in
      let out := trim value in
      let? _ := fail_if (is_empty out) (SecretEmpty label) in
      Ok out
  | None =>
  match strip_prefix "vault:" trimmed with
  | Some path_raw =>
      let path := trim path_raw in
      let? _ := fail_if (is_empty path) (SecretPrefixWithoutName label) in
      read_secret_file path label true
  | None =>
  match strip_prefix "file:" trimmed with
  | Some path_raw =>
      let path := trim path_raw in
      let? _ := fail_if (is_empty path) (SecretPrefixWithoutName label) in
      read_secret_file path label false
  | None =>
      let? _ := fail_if (is_empty trimmed) (SecretEmpty label) in
      Ok trimmed
  end end end.

(** The loop of [normalize_scoped_tokens] over the entries of the map. *)
Fixpoint normalize_entries (label : string) (raw : list (string * string)) (normalized : tokens)
    : result ConfigError tokens :=
  match raw with
  | [] => Ok normalized
  | (inbox_raw, token_raw) :: rest =>
      let inbox := trim inbox_raw in
      let? _ := fail_if (is_empty inbox) (EmptyInboxKey label) in
      let? token := resolve_secret_value token_raw (label +:+ "." +:+ inbox) in
      let? _ := fail_if (bool_decide (is_Some (normalized !! inbox))) (DuplicateInbox label) in
      normalize_entries label rest (<[inbox := token]> normalized)
  end.
Definition normalize_scoped_tokens (raw : tokens) (label : string) : result ConfigError tokens :=
  normalize_entries label (iter raw) ∅.

(** [if !seen.insert(token) { return Err(..) }] over a list of labelled tokens. *)
Fixpoint insert_tokens (l : list (string * string)) (seen : gset string)
    : result ConfigError (gset string) :=
  match l with
  | [] => Ok seen
  | (label, token) :: rest =>
      if bool_decide (token ∈ seen) then Err (TokenReused label)
      else insert_tokens rest ({[ token ]} ∪ seen)
  end.

(** [if token.len() < 16], then [if !refs.get(inbox).copied().unwrap_or(false)] *)
Fixpoint check_hardened (refs : gmap string bool) (l : list (string * string)) : result ConfigError unit :=
  match l with
  | [] => Ok tt
  | (inbox, token) :: rest =>
      let? _ := fail_if (len token <? 16) (TokenTooShort inbox) in
      let? _ := fail_if (negb (default false (refs !! inbox))) (TokenNotVault inbox) in
      check_hardened refs rest
  end.

Definition normalize (c : MailboxConfig) : result ConfigError MailboxConfig :=
  let push_token_from_vault_ref := secret_uses_vault_reference (mc_push_token c) in
  let admin_token_from_vault_ref := secret_uses_vault_reference (mc_admin_token c) in
  let pull_tokens_from_vault_refs := secret_uses_vault_reference <$> mc_pull_tokens c in
  let ack_tokens_from_vault_refs := secret_uses_vault_reference <$> mc_ack_tokens c in
  let? is_loopback := ok_or (parse_bind (mc_bind c)) BadBind in
  let? _ := fail_if (negb is_loopback) BindNotLoopback in
  let? push := resolve_secret_value (mc_push_token c) "push_token" in
  let? admin := resolve_secret_value (mc_admin_token c) "admin_token" in
  let? pull := normalize_scoped_tokens (mc_pull_tokens c) "pull_tokens" in
  let? ack := normalize_scoped_tokens (mc_ack_tokens c) "ack_tokens" in
  let? _ := fail_if (bool_decide (pull = ∅)) (NoScopes "pull_tokens") in
  let? _ := fail_if (bool_decide (ack = ∅)) (NoScopes "ack_tokens") in
  let? _ := fail_if (bool_decide (dom pull <> dom ack)) ScopesDiffer in
  let? seen := insert_tokens [("push_token", push); ("admin_token", admin)] ∅ in
  let? seen := insert_tokens (iter pull) seen in
  let? _ := insert_tokens (iter ack) seen in
  let default_ttl := Z.max (mc_default_ttl_secs c) 30 in
  let? _ :=
    if mc_production_hardening c then
      let? _ := fail_if (len push <? 16) (TokenTooShort "push_token") in
      let? _ := fail_if (len admin <? 16) (TokenTooShort "admin_token") in
      let? _ := fail_if (negb push_token_from_vault_ref) (TokenNotVault "push_token") in
      let? _ := fail_if (negb admin_token_from_vault_ref) (TokenNotVault "admin_token") in
      let? _ := check_hardened pull_tokens_from_vault_refs (iter pull) in
      check_hardened ack_tokens_from_vault_refs (iter ack)
    else Ok tt in
  Ok (MkMailboxConfig (mc_bind c) (Z.max (mc_max_body_bytes c) 1024) default_ttl
        (Z.max (mc_max_ttl_secs c) default_ttl) (Z.max (mc_lease_secs c) 1)
        (Z.max 1 (Z.min (mc_max_wait_ms c) 60000)) push pull ack admin
        (Z.max (mc_cleanup_secs c) 1) (Z.max (mc_checkpoint_secs c) 1)
        (Z.max (mc_max_messages_per_inbox c) 1) (Z.max (mc_max_bytes_per_inbox c) 1024)
        (Z.max (mc_max_rows_global c) 1) (mc_rate_limit_ip_per_min c) (mc_rate_limit_to_per_min c)
        (mc_production_hardening c)).
End config.

(** ** What the configuration promises to the request handlers *)

(** No secret serves two purposes: the tokens of the scopes are pairwise
    different, and the inboxes that can be read can be acknowledged. *)
Class TokensSeparate (a : ApiConfig) : Prop := {
  ts_push_admin : forall t, push_token a = Some t -> admin_token a <> Some t;
  ts_single : forall t i, push_token a = Some t \/ admin_token a = Some t ->
    pull_tokens a !! i <> Some t /\ ack_tokens a !! i <> Some t;
  ts_pull : forall i j t, pull_tokens a !! i = Some t -> pull_tokens a !! j = Some t -> i = j;
  ts_ack : forall i j t, ack_tokens a !! i = Some t -> ack_tokens a !! j = Some t -> i = j;
  ts_cross : forall i j t, pull_tokens a !! i = Some t -> ack_tokens a !! j <> Some t;
  ts_scopes : dom (pull_tokens a) = dom (ack_tokens a);
}.

Section lemmas.
Context `{ConfigExt} (iter : tokens -> list (string * string)).
(** A [HashMap] iterates over its entries, each once. *)
Hypothesis iter_entries : forall m, Permutation (iter m) (map_to_list m).

Lemma insert_tokens_ok l : forall seen seen',
  insert_tokens l seen = Ok seen' ->
  NoDup (map snd l) /\ (forall t, t ∈ map snd l -> t ∉ seen) /\
  (forall t, t ∈ seen' <-> t ∈ map snd l \/ t ∈ seen).
Proof.
  induction l as [|[label token] l IH]; intros seen seen' Hi; simpl in *.
  { injection Hi as ->. split_and!; [constructor|set_solver..]. }
  destruct (bool_decide_reflect (token ∈ seen)) as [|Hnew]; [done|].
  apply IH in Hi as (Hnd & Hdis & Hmem). split_and!.
  - constructor; [|done]. intros Ht. apply (Hdis _ Ht). set_solver.
  - intros t [->|Ht]%elem_of_cons; [done|]. specialize (Hdis t Ht). set_solver.
  - intros t. rewrite Hmem, elem_of_cons. set_solver.
Qed.

Lemma elem_of_iter (m : tokens) i t : (i, t) ∈ iter m <-> m !! i = Some t.
Proof. by rewrite iter_entries, elem_of_map_to_list. Qed.

Lemma iter_token (m : tokens) i t : m !! i = Some t -> t ∈ map snd (iter m).
Proof. intros Hm. apply list_elem_of_fmap. exists (i, t). by rewrite elem_of_iter. Qed.

Lemma iter_inj (m : tokens) i j t :
  NoDup (map snd (iter m)) -> m !! i = Some t -> m !! j = Some t -> i = j.
Proof.
  intros Hnd Hi%elem_of_iter Hj%elem_of_iter.
  assert ((i, t) = (j, t)) as [=]; [|done]. by apply (unique_row snd (iter m)).
Qed.

(** Keys of a normalised map. *)
Lemma normalize_entries_keys label raw : forall acc out i,
  normalize_entries label raw acc = Ok out -> is_Some (out !! i) ->
  is_Some (acc !! i) \/ trimmed i.
Proof.
  induction raw as [|[k v] raw IH]; intros acc out i Hn Hi; simpl in Hn; rok; [by left|].
  apply (IH _ _ i) in Hn as [Hs|?]; [|by right|done].
  rewrite lookup_insert_is_Some' in Hs. destruct Hs as [<-|?]; [right|by left].
  split; [apply trim_idem|done].
Qed.

Lemma check_hardened_ok refs l :
  check_hardened refs l = Ok tt ->
  forall i t, (i, t) ∈ l -> 16 <= len t /\ refs !! i = Some true.
Proof.
  induction l as [|[k v] l IH]; intros Hc i t; [set_solver|]. simpl in Hc. rok.
  intros [[= -> ->]|Hin]%elem_of_cons; [|by apply IH].
  split; [lia|]. destruct (refs !! k) as [[]|]; done.
Qed.

(** The tokens of a configuration, in the order in which they are compared. *)
Definition all_tokens (c : MailboxConfig) : list string :=
  mc_push_token c :: mc_admin_token c ::
    map snd (iter (mc_pull_tokens c)) ++ map snd (iter (mc_ack_tokens c)).

(** What [production_hardening] demands of the raw configuration [c] and the
    resolved one. *)
Definition hardened (c c' : MailboxConfig) : Prop :=
  Forall (fun t => 16 <= len t) (all_tokens c') /\
  secret_uses_vault_reference (mc_push_token c) = true /\
  secret_uses_vault_reference (mc_admin_token c) = true /\
  (forall i, is_Some (mc_pull_tokens c' !! i) ->
     exists raw, mc_pull_tokens c !! i = Some raw /\ secret_uses_vault_reference raw = true) /\
  (forall i, is_Some (mc_ack_tokens c' !! i) ->
     exists raw, mc_ack_tokens c !! i = Some raw /\ secret_uses_vault_reference raw = true).

Lemma hardened_scope (raw out : tokens) :
  check_hardened (secret_uses_vault_reference <$> raw) (iter out) = Ok tt ->
  Forall (fun t => 16 <= len t) (map snd (iter out)) /\
  forall i, is_Some (out !! i) ->
    exists r, raw !! i = Some r /\ secret_uses_vault_reference r = true.
Proof.
  intros Hc. pose proof (check_hardened_ok _ _ Hc) as Hall. split.
  - apply Forall_map, Forall_forall. intros [i t] Hin. by apply (Hall i t).
  - intros i [t Ht]. apply elem_of_iter in Ht. apply Hall in Ht as [_ Hr].
    rewrite lookup_fmap, fmap_Some in Hr. destruct Hr as (r & Hr & E). by exists r.
Qed.

Lemma normalize_inv c c' :
  normalize iter c = Ok c' ->
  parse_bind (mc_bind c') = Some true /\ NoDup (all_tokens c') /\
  dom (mc_pull_tokens c') = dom (mc_ack_tokens c') /\ mc_pull_tokens c' <> ∅ /\
  (forall i, is_Some (mc_pull_tokens c' !! i) -> trimmed i) /\
  (mc_production_hardening c = true -> hardened c c').
Proof.
  intros Hn. unfold normalize in Hn. rok. unfold all_tokens, hardened. cbn.
  match goal with
  | H1 : insert_tokens [_; _] _ = Ok _, H2 : insert_tokens (iter _) ?v8 = Ok ?v9,
    H3 : insert_tokens (iter _) ?v9 = Ok _ |- _ =>
      apply insert_tokens_ok in H1 as (Hnd1 & _ & Hm1);
      apply insert_tokens_ok in H3 as (Hnd3 & Hd3 & _);
      apply insert_tokens_ok in H2 as (Hnd2 & Hd2 & Hm2)
  end.
  cbn [map snd] in *. splits.
  - match goal with H : negb ?v = false |- _ => by destruct v end.
  - change (NoDup ([v1; v2] ++ map snd (iter v3) ++ map snd (iter v4))).
    apply NoDup_app. split_and!; [done| |apply NoDup_app; split_and!; [done| |done]].
    + intros t Ht [Hp|Ha]%elem_of_app; [apply (Hd2 _ Hp)|apply (Hd3 _ Ha)]; set_solver.
    + intros t Ht Ha. apply (Hd3 _ Ha). set_solver.
  - match goal with H : bool_decide (_ <> _) = false |- _ => apply bool_decide_eq_false in H end.
    by apply dec_stable.
  - match goal with H : bool_decide (v3 = _) = false |- _ => by apply bool_decide_eq_false in H end.
  - intros i Hi. match goal with H : normalize_scoped_tokens _ _ "pull_tokens" = Ok _ |- _ =>
      apply (normalize_entries_keys _ _ _ _ i) in H as [[? Hx]|?]; [by rewrite lookup_empty in Hx|done..] end.
  - intros Hprod. rewrite Hprod in *. rok.
    match goal with
    | Hp : check_hardened _ (iter v3) = Ok ?u, Ha : check_hardened _ (iter v4) = Ok ?u' |- _ =>
        destruct u, u'; apply hardened_scope in Hp as [Hp1 Hp2], Ha as [Ha1 Ha2]
    end.
    splits; [|by apply negb_false_iff..|done|done].
    unfold all_tokens. simpl. apply Forall_cons; split; [lia|]. apply Forall_cons; split; [lia|].
    by apply Forall_app_2.
Qed.
End lemmas.

Lemma distinct_separate iter c :
  (forall m, Permutation (iter m) (map_to_list m)) ->
  NoDup (all_tokens iter c) -> dom (mc_pull_tokens c) = dom (mc_ack_tokens c) ->
  TokensSeparate (api_config c).
Proof.
  intros Hit Hnd Hdom.
  unfold all_tokens in Hnd. apply NoDup_cons in Hnd as [Hpush [Hadmin Hnd]%NoDup_cons].
  apply NoDup_app in Hnd as (Hpull & Hcross & Hack).
  constructor; simpl; [..|done].
  - intros t Hp Ha. apply Hpush. assert (mc_push_token c = mc_admin_token c) as -> by congruence.
    apply elem_of_cons. by left.
  - intros t i Ht. split; intros Hi%(iter_token iter Hit); destruct Ht as [[= <-]|[= <-]]; set_solver.
  - intros i j t. by apply (iter_inj iter Hit).
  - intros i j t. by apply (iter_inj iter Hit).
  - intros i j t Hi%(iter_token iter Hit) Hj%(iter_token iter Hit). by apply (Hcross t).
Qed.

(** A configuration that was accepted keeps its secrets apart, whatever
    the traversal order of the maps: no two scopes share a token, so no token
    of one inbox or role opens another. *)
Theorem normalize_separates `{ConfigExt} iter c c' :
  (forall m, Permutation (iter m) (map_to_list m)) ->
  normalize iter c = Ok c' -> TokensSeparate (api_config c').
Proof.
  intros Hit Hn. apply normalize_inv in Hn as (_ & Hnd & Hdom & _); [|done].
  by eapply distinct_separate.
Qed.

(** Under [production_hardening] every token of an accepted configuration
    has at least 16 bytes and was given as a reference to the vault, and the
    server listens on a loopback address only. *)
Theorem normalize_hardens `{ConfigExt} iter c c' :
  (forall m, Permutation (iter m) (map_to_list m)) ->
  normalize iter c = Ok c' -> mc_production_hardening c = true ->
  hardened iter c c' /\ parse_bind (mc_bind c') = Some true.
Proof. intros Hit Hn Hp. apply normalize_inv in Hn as (? & _ & _ & _ & _ & Hh); [|done]. auto. Qed.

Definition demo_config_ext : ConfigExt := {|
  parse_bind s := Some true;
  env_var s := None;
  file_at s := Some (MkFile true 384 (Some (s +:+ "-0123456789abcdef"))) |}.
Definition demo_config : MailboxConfig :=
  MkMailboxConfig "127.0.0.1:4010" 4096 60 600 30 1000 "vault:push"
    {[ "b" := "vault:pull" ]} {[ "b" := "vault:ack" ]} "vault:admin" 30 300 10 4096 100 300 600 true.
Definition demo_normalized : MailboxConfig :=
  match @normalize demo_config_ext map_to_list demo_config with Ok c => c | Err _ => demo_config end.

Lemma demo_separate : TokensSeparate (api_config demo_normalized).
Proof.
  apply (distinct_separate map_to_list); [reflexivity| |vm_compute; reflexivity].
  apply (bool_decide_unpack _). vm_compute. exact I.
Qed.

Lemma normalize_separates_witness : TokensSeparate (api_config demo_normalized).
Proof.
  apply (@normalize_separates demo_config_ext map_to_list demo_config); [reflexivity|].
  vm_compute. reflexivity.
Defined.

Lemma normalize_hardens_witness : @hardened map_to_list demo_config demo_normalized.
Proof.
  apply (@normalize_hardens demo_config_ext map_to_list demo_config demo_normalized);
    [reflexivity|vm_compute; reflexivity|reflexivity].
Defined.
