(* ===== verification/MailboxApi.v ===== *)
(** * The request handlers of the mailbox

    [crates/nxms-mailbox/src/api.rs]: authentication, rate limits, the three
    handlers and the statistics.  A request's headers are a function from the
    header's name to its text ([headers.get(name)] followed by [to_str().ok()]);
    [serde_json] on a push request is an interface ([PushRequestExt]); the
    times at which the clocks are read are arguments.  While a long poll waits,
    other requests run: [po_others] is what they did to the state. *)

From S2P Require Import Prelude RustString Sql Wire Mailbox MailboxInv MailboxProps MailboxLimiter MailboxConfig FeePolicy.
From Stdlib Require Import Sorting.Permutation.

Definition AUTH_HEADER_COMPARE_MAX_LEN : nat := 1024.

Notation HeaderMap := (string -> option string).

Inductive StatusCode : Type :=
| INTERNAL_SERVER_ERROR | UNAUTHORIZED | FORBIDDEN | BAD_REQUEST | PAYLOAD_TOO_LARGE
| TOO_MANY_REQUESTS | INSUFFICIENT_STORAGE | NOT_FOUND.
Record ApiError : Type := MkApiError {
  status : StatusCode; detail : string; retry_after_secs : option Z }.
(** [ApiError::new], [ApiError::with_retry_after] *)
Definition api_error (s : StatusCode) (d : string) : ApiError := MkApiError s d None.
Definition with_retry_after (s : StatusCode) (d : string) (secs : Z) : ApiError :=
  MkApiError s d (Some (Z.max secs 1)).

Record PushRequest : Type := MkPushRequest { rq_envelope : NxmsEnvelope; rq_ttl_secs : option Z }.
Record PushResponse : Type := MkPushResponse { ps_ok : bool; ps_dedup : bool }.
Record PullRequest : Type := MkPullRequest { rq_to : string; rq_max : option Z; rq_wait_ms : option Z }.

Class PushRequestExt : Type := { push_request_from_slice : string -> option PushRequest }.

(** [AppState]: the database, the two limiters, and the inboxes whose waiters
    were notified, in order.  The configuration is a parameter. *)
Record AppState : Type := MkAppState {
  st_db : mailbox;
  st_by_ip : window_map;
  st_by_to : window_map;
  st_notified : list string;
}.

Definition on_db {E A} (m : M mailbox MailboxError A) (f : MailboxError -> E) : M AppState E A :=
  fun s => match m (st_db s) with
           | (db, r) => (MkAppState db (st_by_ip s) (st_by_to s) (st_notified s), map_err f r)
           end.
(** [RateLimits::check_to], [RateLimits::check_ip] *)
Definition check_to (to : string) (limit_per_min now : Z) : M AppState ApiError (option Z) :=
  fun s => let '(m, r) := check to limit_per_min now (st_by_to s) in
           (MkAppState (st_db s) (st_by_ip s) m (st_notified s), Ok r).
Definition check_ip (ip : string) (limit_per_min now : Z) : M AppState ApiError (option Z) :=
  fun s => let '(m, r) := check ip limit_per_min now (st_by_ip s) in
           (MkAppState (st_db s) m (st_by_to s) (st_notified s), Ok r).
Definition notify_inbox (to : string) : M AppState ApiError unit :=
  smodify (fun s => MkAppState (st_db s) (st_by_ip s) (st_by_to s) (st_notified s ++ [to])).

(** ** Authentication *)

Definition bearer (token : string) : string := "Bearer " +:+ token.
(** [headers.get(AUTHORIZATION).and_then(..).unwrap_or_default()] *)
Definition authorization (headers : HeaderMap) : string := default "" (headers "authorization").

Definition require_bearer (token : option string) (headers : HeaderMap) (missing_detail : string)
    : result ApiError unit :=
  match token with
  | None => Err (api_error INTERNAL_SERVER_ERROR missing_detail)
  | Some token =>
      fail_if (negb (timing_safe_eq_fixed AUTH_HEADER_COMPARE_MAX_LEN (authorization headers) (bearer token)))
        (api_error UNAUTHORIZED "unauthorized")
  end.

Definition require_push_auth (cfg : ApiConfig) (headers : HeaderMap) : result ApiError unit :=
  require_bearer (push_token cfg) headers "push auth is not configured".

Definition require_pull_auth_for_inbox (cfg : ApiConfig) (headers : HeaderMap) (inbox : string)
    : result ApiError unit :=
  match pull_tokens cfg !! inbox with
  | None => Err (api_error FORBIDDEN "inbox is not authorized for pull")
  | Some token => require_bearer (Some token) headers "pull auth is not configured"
  end.

Definition require_admin_auth (cfg : ApiConfig) (headers : HeaderMap) : result ApiError unit :=
  require_bearer (admin_token cfg) headers "admin auth is not configured".

(** [iter] is the order in which the map of tokens is traversed. *)
Definition authorized_inbox_for_token (iter : tokens -> list (string * string)) (toks : tokens)
    (headers : HeaderMap) (missing_detail : string) : result ApiError string :=
  let? _ := fail_if (bool_decide (toks = ∅)) (api_error INTERNAL_SERVER_ERROR missing_detail) in
  match List.find (fun it => timing_safe_eq_fixed AUTH_HEADER_COMPARE_MAX_LEN (authorization headers)
                               (bearer it.2)) (iter toks) with
  | Some (inbox, _) => Ok inbox
  | None => Err (api_error UNAUTHORIZED "unauthorized")
  end.

(** ** Rate limits *)

(** [s.split(',').next()] *)
Fixpoint before_comma (s : string) : string :=
  match s with
  | "" => ""
  | String c s' => if (byte_of c =? 44) then "" else String c (before_comma s')
  end.

(** [connect_info] is the printed address of the connection. *)
Definition extract_source_ip (connect_info : option string) (headers : HeaderMap) : string :=
  let forwarded := match headers "x-forwarded-for" with Some v => trim (before_comma v) | None => "" end in
  if negb (is_empty forwarded) then forwarded
  else
    let real := match headers "x-real-ip" with Some v => trim v | None => "" end in
    if negb (is_empty real) then real else default "unknown" connect_info.

Definition enforce_push_rate_limits (cfg : ApiConfig) (now_to now_ip : Z)
    (connect_info : option string) (headers : HeaderMap) (to : string) : M AppState ApiError unit :=
  let* limited := check_to to (rate_limit_to_per_min cfg) now_to in
  match limited with
  | Some secs => sfail (with_retry_after TOO_MANY_REQUESTS "rate limit exceeded for target inbox" secs)
  | None =>
      let source_ip := extract_source_ip connect_info headers in
      let* limited := check_ip source_ip (rate_limit_ip_per_min cfg) now_ip in
      match limited with
      | Some secs => sfail (with_retry_after TOO_MANY_REQUESTS "rate limit exceeded for source ip" secs)
      | None => sret tt
      end
  end.

Definition map_push_rejection (r : PushRejection) : ApiError :=
  match r with
  | InboxMessageLimit => api_error INSUFFICIENT_STORAGE "inbox message quota exceeded"
  | InboxBytesLimit => api_error INSUFFICIENT_STORAGE "inbox bytes quota exceeded"
  | GlobalRowsLimit => api_error INSUFFICIENT_STORAGE "global mailbox row quota exceeded"
  end.

(** ** Handlers *)

Definition db_error (e : MailboxError) : ApiError := api_error INTERNAL_SERVER_ERROR "database".

Section handlers.
Context `{MailboxExt, PushRequestExt} (cfg : ApiConfig).

(** The times at which the clock is read, in order. *)
Record PushClock : Type := MkPushClock { pc_to : Z; pc_ip : Z; pc_ms : Z }.

Definition body_too_large (max_body : Z) : ApiError :=
  api_error PAYLOAD_TOO_LARGE ("request body exceeds " +:+ dec max_body +:+ " bytes").

(** The wording of an error that quotes a parser or a validator is left out. *)
Definition push (clock : PushClock) (connect_info : option string) (headers : HeaderMap) (body : string)
    : M AppState ApiError PushResponse :=
  let* _ := slift (require_push_auth cfg headers) in
  let max_body := Z.max (max_body_bytes cfg) 1 in
  let* _ := slift (fail_if (match headers "content-length" with
                            | Some raw_len => match parse_u64 raw_len with
                                              | Some content_len => max_body <? content_len
                                              | None => false end
                            | None => false end) (body_too_large max_body)) in
  let* _ := slift (fail_if (max_body <? len body) (body_too_large max_body)) in
  let* req := slift (ok_or (push_request_from_slice body) (api_error BAD_REQUEST "invalid push json")) in
  let* _ := enforce_push_rate_limits cfg (pc_to clock) (pc_ip clock) connect_info headers (ev_to (rq_envelope req)) in
  let* _ := slift (map_err (fun _ => api_error BAD_REQUEST "invalid envelope") (validate_envelope (rq_envelope req))) in
  let ttl_secs := default (default_ttl_secs cfg) (rq_ttl_secs req) in
  let* _ := slift (fail_if (ttl_secs =? 0) (api_error BAD_REQUEST "ttl_secs must be > 0")) in
  let ttl_secs := Z.min ttl_secs (Z.max (max_ttl_secs cfg) 1) in
  let* result := on_db (push_sync (pc_ms clock) (rq_envelope req) ttl_secs (limits cfg)) db_error in
  match pr_rejection result with
  | Some rejection => sfail (map_push_rejection rejection)
  | None =>
      let* _ := if pr_dedup result then sret tt else notify_inbox (ev_to (rq_envelope req)) in
      sret (MkPushResponse true (pr_dedup result))
  end.

(** One round of the long poll: the receipts drawn and the time of the query,
    whether the deadline has passed after it, and otherwise how the wait ended
    and what other requests did meanwhile. *)
Inductive PollEvent : Type := Notified | Slept.
Record PollRound : Type := MkPollRound {
  po_receipts : nat -> string; po_now : Z; po_expired : bool;
  po_event : PollEvent; po_others : AppState -> AppState }.

(** [None] when the rounds given end with the request still waiting. *)
Fixpoint pull_loop (to : string) (max : Z) (rounds : list PollRound)
    : M AppState ApiError (option (list LeasedMessage)) :=
  match rounds with
  | [] => sret None
  | r :: rest =>
      let* leased := on_db (pull_sync (po_receipts r) (po_now r) to max (lease_secs cfg)) db_error in
      match leased with
      | _ :: _ => sret (Some leased)
      | [] =>
          if po_expired r then sret (Some [])
          else
            let* _ := smodify (po_others r) in
            match po_event r with
            | Notified => pull_loop to max rest
            | Slept => sret (Some [])
            end
      end
  end.

(** [req.max.unwrap_or(10).clamp(1, 50)] *)
Definition clamp_max (m : option Z) : Z := Z.min 50 (Z.max 1 (default 10 m)).

Definition pull (rounds : list PollRound) (headers : HeaderMap) (req : PullRequest)
    : M AppState ApiError (option (list LeasedMessage)) :=
  let* _ := slift (map_err (fun _ => api_error BAD_REQUEST "invalid to") (validate_peer_id (rq_to req))) in
  let* _ := slift (require_pull_auth_for_inbox cfg headers (rq_to req)) in
  pull_loop (rq_to req) (clamp_max (rq_max req)) rounds.

Definition ack (iter : tokens -> list (string * string)) (headers : HeaderMap) (receipt : string)
    : M AppState ApiError unit :=
  let* authorized_inbox := slift (authorized_inbox_for_token iter (ack_tokens cfg) headers
                                    "ack auth is not configured") in
  let receipt := trim receipt in
  let* _ := slift (fail_if (is_empty receipt) (api_error BAD_REQUEST "receipt must not be empty")) in
  let* ok := on_db (ack_sync receipt authorized_inbox) db_error in
  slift (fail_if (negb ok) (api_error NOT_FOUND "unknown receipt")).

(** Without the sizes of the files. *)
Definition admin_stats (now : Z) (headers : HeaderMap) : M AppState ApiError (Z * list InboxStats) :=
  let* _ := slift (require_admin_auth cfg headers) in
  on_db (stats_sync now) db_error.
End handlers.

(** ** Lemmas *)

Lemma require_bearer_ok token headers d :
  require_bearer (Some token) headers d = Ok tt -> authorization headers = bearer token.
Proof. simpl. intros Ha. rok. apply negb_false_iff, timing_safe_eq_spec in Ha as [_ Ha]. done. Qed.

Lemma bearer_inj a b : bearer a = bearer b -> a = b.
Proof. unfold bearer. by intros [= ?]. Qed.

Lemma pull_auth_ok cfg headers inbox :
  require_pull_auth_for_inbox cfg headers inbox = Ok tt ->
  exists token, pull_tokens cfg !! inbox = Some token /\ authorization headers = bearer token.
Proof.
  unfold require_pull_auth_for_inbox. destruct (pull_tokens cfg !! inbox) as [token|]; [|done].
  intros Ha. exists token. split; [done|]. by eapply require_bearer_ok.
Qed.

Section authorized.
Context (iter : tokens -> list (string * string)).
Hypothesis iter_entries : forall m, Permutation (iter m) (map_to_list m).

Lemma authorized_ok toks headers d inbox :
  authorized_inbox_for_token iter toks headers d = Ok inbox ->
  exists token, toks !! inbox = Some token /\ authorization headers = bearer token.
Proof.
  unfold authorized_inbox_for_token. intros Ha. rok.
  destruct (List.find _ _) as [[i t]|] eqn:Hf; [|done]. injection Ha as ->.
  apply find_some_elem in Hf as [Hin Heq]. exists t. split.
  - by rewrite iter_entries, elem_of_map_to_list in Hin.
  - by apply timing_safe_eq_spec in Heq as [_ ?].
Qed.

Lemma authorized_find toks headers token i :
  (forall i j t, toks !! i = Some t -> toks !! j = Some t -> i = j) ->
  toks !! i = Some token -> authorization headers = bearer token ->
  (String.length (authorization headers) <= AUTH_HEADER_COMPARE_MAX_LEN)%nat ->
  exists t, List.find (fun it => timing_safe_eq_fixed AUTH_HEADER_COMPARE_MAX_LEN
    (authorization headers) (bearer it.2)) (iter toks) = Some (i, t).
Proof.
  intros Hinj Hi Ha Hlen. destruct (List.find _ _) as [[j t]|] eqn:Hf.
  - exists t. apply find_some_elem in Hf as [Hin Heq].
    rewrite iter_entries, elem_of_map_to_list in Hin.
    apply timing_safe_eq_spec in Heq as [_ Heq]. simpl in Heq.
    assert (t = token) as -> by (apply bearer_inj; congruence). by rewrite (Hinj i j token).
  - rewrite find_none_elem in Hf. specialize (Hf (i, token)).
    rewrite (proj2 (timing_safe_eq_spec _ _ _)) in Hf; [|by simpl].
    assert ((i, token) ∈ iter toks) as Hin by (by rewrite iter_entries, elem_of_map_to_list).
    by specialize (Hf Hin).
Qed.
End authorized.

(** Under separate tokens the traversal order does not matter. *)
Lemma authorized_order iter iter' toks headers d :
  (forall m, Permutation (iter m) (map_to_list m)) ->
  (forall m, Permutation (iter' m) (map_to_list m)) ->
  (forall i j t, toks !! i = Some t -> toks !! j = Some t -> i = j) ->
  authorized_inbox_for_token iter toks headers d = authorized_inbox_for_token iter' toks headers d.
Proof.
  intros Hit Hit' Hinj. unfold authorized_inbox_for_token. destruct (fail_if _ _); [simpl|done].
  destruct (List.find _ (iter toks)) as [[i t]|] eqn:Hf.
  - apply find_some_elem in Hf as [Hin Heq].
    rewrite Hit, elem_of_map_to_list in Hin. apply timing_safe_eq_spec in Heq as [Hl Heq].
    destruct (authorized_find iter' Hit' toks headers t i Hinj Hin Heq Hl) as [t' ->]. done.
  - destruct (List.find _ (iter' toks)) as [[i t]|] eqn:Hf'; [|done].
    apply find_some_elem in Hf' as [Hin Heq].
    rewrite Hit', elem_of_map_to_list in Hin. apply timing_safe_eq_spec in Heq as [Hl Heq].
    destruct (authorized_find iter Hit toks headers t i Hinj Hin Heq Hl) as [t' Hf']. congruence.
Qed.

(** ** Scopes *)

(** What a request can ask for; [opens] is the check its handler makes. *)
Inductive Scope : Type := ScopePush | ScopeAdmin | ScopePull (inbox : string) | ScopeAck (inbox : string).

Definition opens (cfg : ApiConfig) (iter : tokens -> list (string * string)) (headers : HeaderMap)
    (s : Scope) : Prop :=
  match s with
  | ScopePush => require_push_auth cfg headers = Ok tt
  | ScopeAdmin => require_admin_auth cfg headers = Ok tt
  | ScopePull i => require_pull_auth_for_inbox cfg headers i = Ok tt
  | ScopeAck i => authorized_inbox_for_token iter (ack_tokens cfg) headers "ack auth is not configured" = Ok i
  end.

(** The token a scope asks for. *)
Definition scope_token (cfg : ApiConfig) (s : Scope) : option string :=
  match s with
  | ScopePush => push_token cfg
  | ScopeAdmin => admin_token cfg
  | ScopePull i => pull_tokens cfg !! i
  | ScopeAck i => ack_tokens cfg !! i
  end.

Lemma opens_token cfg iter headers s :
  (forall m, Permutation (iter m) (map_to_list m)) -> opens cfg iter headers s ->
  exists t, scope_token cfg s = Some t /\ authorization headers = bearer t.
Proof.
  intros Hit. destruct s as [| |i|i]; simpl.
  - unfold require_push_auth. destruct (push_token cfg) as [t|]; [|done].
    intros Ha%require_bearer_ok. by exists t.
  - unfold require_admin_auth. destruct (admin_token cfg) as [t|]; [|done].
    intros Ha%require_bearer_ok. by exists t.
  - apply pull_auth_ok.
  - by apply authorized_ok.
Qed.

Lemma scope_token_inj cfg `{!TokensSeparate cfg} a b t :
  scope_token cfg a = Some t -> scope_token cfg b = Some t -> a = b.
Proof.
  pose proof (ts_push_admin t) as H1. pose proof (ts_single t) as H2.
  pose proof (fun i j => ts_pull i j t) as H3. pose proof (fun i j => ts_ack i j t) as H4.
  pose proof (fun i j => ts_cross i j t) as H5.
  destruct a as [| |i|i], b as [| |j|j]; simpl; intros Ha Hb; try done;
    try (by destruct (H1 Ha)); try (by destruct (H1 Hb));
    try (destruct (H2 i (or_introl Hb)); done); try (destruct (H2 i (or_intror Hb)); done);
    try (destruct (H2 j (or_introl Ha)); done); try (destruct (H2 j (or_intror Ha)); done);
    try (exfalso; eapply H5; eassumption); f_equal; eauto.
Qed.

(** ** Databases behind the handlers *)

Definition app_ok `{MailboxExt} (s : AppState) : Prop := mailbox_ok (st_db s).
(** Other requests keep the table well formed. *)
Definition others_ok `{MailboxExt} (rounds : list PollRound) : Prop :=
  Forall (fun r => forall s, app_ok s -> app_ok (po_others r s)) rounds.

Section handlers_ok.
Context `{MailboxExt, !MailboxLaws} (cfg : ApiConfig).

Lemma on_db_run {A E} (m : M mailbox MailboxError A) (f : MailboxError -> E) s :
  on_db m f s = (MkAppState (m (st_db s)).1 (st_by_ip s) (st_by_to s) (st_notified s), map_err f (m (st_db s)).2).
Proof. unfold on_db. by destruct (m (st_db s)). Qed.

(** What a pull hands out of a well-formed table is addressed to the inbox. *)
Lemma pull_sync_to receipts now to max lease m :
  mailbox_ok m -> 0 <= max ->
  exists out, (pull_sync receipts now to max lease m).2 = Ok out /\
    mailbox_ok (pull_sync receipts now to max lease m).1 /\
    Forall (fun d => ev_to (lm_envelope d) = to) out /\ Z.of_nat (length out) <= max.
Proof.
  intros Hm Hmax. destruct (pull_sync_run receipts now to max lease m Hm) as (out & Hrun & Hr & Hj).
  exists out. rewrite Hrun. cbn [fst snd]. set (live := deleted (expired now) m) in *.
  assert (mailbox_ok live) as Hlive by by apply deleted_ok. splits; [done|by apply leased_ok| |].
  - apply Forall_forall. intros d Hd.
    assert (envelope_to_string (lm_envelope d) ∈ map mr_envelope_json (selected to now max live)) as Hin.
    { rewrite <- Hj. apply list_elem_of_fmap. eauto. }
    apply list_elem_of_fmap in Hin as (r & E & Hsel).
    apply selected_rows in Hsel as [Hrow Ha].
    destruct Hlive as [_ _ Hok]. rewrite Forall_forall in Hok.
    destruct (Hok r Hrow) as [(env & Ee & Ek & _) _].
    assert (Some (lm_envelope d) = Some env) as [= ->].
    { rewrite <- !envelope_roundtrip. congruence. }
    unfold available in Ha. apply andb_true_iff in Ha as [Ha _]. apply andb_true_iff in Ha as [Ha _].
    apply String.eqb_eq in Ha. unfold msg_key in Ek. congruence.
  - assert (length out = length (selected to now max live)) as ->
      by (by rewrite <- (length_map lm_receipt), Hr, length_map, length_seq).
    unfold selected, limit. rewrite length_take. lia.
Qed.

Lemma pull_loop_to to max rounds s :
  app_ok s -> others_ok rounds -> 0 <= max ->
  app_ok (pull_loop cfg to max rounds s).1 /\
  exists r, (pull_loop cfg to max rounds s).2 = Ok r /\
    forall out, r = Some out -> Forall (fun d => ev_to (lm_envelope d) = to) out /\ Z.of_nat (length out) <= max.
Proof.
  intros Hs Ho Hmax. revert s Hs.
  induction Ho as [|r rounds Hr Ho IH]; intros s Hs; simpl; [split; [done|by exists None]|].
  rewrite sbind_run, on_db_run.
  destruct (pull_sync_to (po_receipts r) (po_now r) to max (lease_secs cfg) (st_db s) Hs Hmax)
    as (out & Hout & Hok & Hto & Hlen).
  rewrite Hout. cbn [map_err]. destruct out as [|d out].
  - destruct (po_expired r); [split; [done|]; exists (Some []); split; [done|]; by intros ? [= <-]|].
    rewrite sbind_run. cbn. destruct (po_event r); [by apply IH, Hr|].
    split; [by apply Hr|]. exists (Some []). split; [done|]. by intros ? [= <-].
  - split; [done|]. exists (Some (d :: out)). split; [done|]. by intros ? [= <-].
Qed.
End handlers_ok.

Section push_ok.
Context `{MailboxExt, PushRequestExt} (cfg : ApiConfig).

(** The limiters do not touch the database. *)
Lemma rate_limits_db now_to now_ip ci headers to s :
  st_db (enforce_push_rate_limits cfg now_to now_ip ci headers to s).1 = st_db s.
Proof.
  unfold enforce_push_rate_limits, check_to, check_ip. rewrite sbind_run.
  destruct (check to _ now_to (st_by_to s)) as [m1 [secs|]]; [done|]. rewrite sbind_run. cbn.
  by destruct (check _ _ now_ip (st_by_ip s)) as [m2 [secs|]].
Qed.

(** What a push request is granted for. *)
Record push_granted (headers : HeaderMap) (body : string) (req : PushRequest) (ttl : Z) : Prop := PushGranted {
  pg_token : exists token, push_token cfg = Some token /\ authorization headers = bearer token;
  pg_size : len body <= Z.max (max_body_bytes cfg) 1;
  pg_request : push_request_from_slice body = Some req;
  pg_envelope : validate_envelope (rq_envelope req) = Ok tt;
  pg_ttl : ttl = Z.min (default (default_ttl_secs cfg) (rq_ttl_secs req)) (Z.max (max_ttl_secs cfg) 1) /\ ttl <> 0;
}.

(** A push either stops without touching the database, or was granted and is
    [push_sync] on it. *)
Lemma push_runs clock ci headers body s :
  let '(s', r) := push cfg clock ci headers body s in
  (st_db s' = st_db s /\ is_err r = true) \/
  exists req ttl, push_granted headers body req ttl /\
    st_db s' = (push_sync (pc_ms clock) (rq_envelope req) ttl (limits cfg) (st_db s)).1 /\
    match (push_sync (pc_ms clock) (rq_envelope req) ttl (limits cfg) (st_db s)).2 with
    | Ok pr => match pr_rejection pr with
               | None => r = Ok (MkPushResponse true (pr_dedup pr))
               | Some rej => r = Err (map_push_rejection rej)
               end
    | Err e => r = Err (db_error e)
    end.
Proof.
  unfold push. rewrite !sbind_run. unfold slift at 1.
  destruct (require_push_auth cfg headers) as [[]|e] eqn:Hauth; [|by left]. cbv zeta.
  rewrite sbind_run. unfold slift at 1. destruct (match headers "content-length" with Some _ => _ | None => _ end);
    [by left|]. cbn [fail_if].
  rewrite sbind_run. unfold slift at 1. destruct (Z.ltb_spec (Z.max (max_body_bytes cfg) 1) (len body)) as [|Hlen];
    [by left|]. cbn [fail_if].
  rewrite sbind_run. unfold slift at 1. destruct (push_request_from_slice body) as [req|] eqn:Hreq; [|by left].
  cbn [ok_or]. rewrite sbind_run.
  pose proof (rate_limits_db (pc_to clock) (pc_ip clock) ci headers (ev_to (rq_envelope req)) s) as Hdb.
  destruct (enforce_push_rate_limits _ _ _ _ _ _ s) as [s1 [[]|e]]; cbn [fst] in Hdb; [|left; by rewrite Hdb].
  rewrite sbind_run. unfold slift at 1.
  destruct (validate_envelope (rq_envelope req)) as [[]|e] eqn:Hval; cbn [map_err]; [|left; by rewrite Hdb].
  rewrite sbind_run. unfold slift at 1.
  destruct (Z.eqb_spec (default (default_ttl_secs cfg) (rq_ttl_secs req)) 0) as [|Hz]; cbn [fail_if];
    [left; by rewrite Hdb|].
  rewrite sbind_run, on_db_run, Hdb. set (ttl := Z.min _ _).
  assert (push_granted headers body req ttl) as Hg.
  { constructor; [|done..|split; [done|unfold ttl; lia]].
    unfold require_push_auth in Hauth. destruct (push_token cfg) as [t|]; [|done].
    exists t. split; [done|]. by eapply require_bearer_ok. }
  destruct (push_sync _ _ _ _ _) as [m' [pr|e]] eqn:Hps; cbn [fst snd map_err].
  - destruct (pr_rejection pr) as [rej|] eqn:Hrej.
    + right. exists req, ttl. rewrite Hps. cbn [fst snd]. by rewrite Hrej.
    + rewrite sbind_run. destruct (pr_dedup pr) eqn:Hd; cbn; right; exists req, ttl;
        rewrite Hps; cbn [fst snd]; by rewrite Hrej, Hd.
  - right. exists req, ttl. by rewrite Hps.
Qed.
End push_ok.

(** ** Theorems *)

(** A token opens one door: in an accepted configuration, a request that
    is authorised for two scopes (pushing, statistics, reading an inbox,
    acknowledging for an inbox) is authorised for the same scope twice. *)
Theorem one_token_one_scope cfg iter headers a b :
  TokensSeparate cfg -> (forall m, Permutation (iter m) (map_to_list m)) ->
  opens cfg iter headers a -> opens cfg iter headers b -> a = b.
Proof.
  intros Hs Hit Ha Hb. apply opens_token in Ha as (t & Ha & Ea); [|done].
  apply opens_token in Hb as (t' & Hb & Eb); [|done].
  assert (t' = t) as -> by (apply bearer_inj; congruence). by eapply scope_token_inj.
Qed.

(** Reading is confined: a pull that returns messages carried the token of
    the inbox it names, everything it returns is addressed to that inbox and
    there are at most 50 messages, whatever other requests do while it waits;
    a request without the token changes nothing. *)
Theorem pull_confined `{MailboxExt} cfg rounds headers req s :
  MailboxLaws -> app_ok s -> others_ok rounds ->
  match (pull cfg rounds headers req s).2 with
  | Ok r =>
      (exists token, pull_tokens cfg !! rq_to req = Some token /\ authorization headers = bearer token) /\
      forall out, r = Some out ->
        Forall (fun d => ev_to (lm_envelope d) = rq_to req) out /\ Z.of_nat (length out) <= 50
  | Err _ => (pull cfg rounds headers req s).1 = s
  end.
Proof.
  intros Hl Hs Ho. unfold pull. rewrite sbind_run. unfold slift at 1 2.
  destruct (validate_peer_id (rq_to req)) as [[]|e]; cbn [map_err]; [|done].
  rewrite sbind_run. unfold slift at 1 2.
  destruct (require_pull_auth_for_inbox cfg headers (rq_to req)) as [[]|e] eqn:Ha; [|done].
  destruct (pull_loop_to cfg (rq_to req) (clamp_max (rq_max req)) rounds s Hs Ho ltac:(unfold clamp_max; lia))
    as (_ & r & -> & Hr).
  split; [by apply pull_auth_ok|]. intros out E. destruct (Hr out E) as [Hto Hlen].
  split; [done|]. unfold clamp_max in Hlen. lia.
Qed.

(** Acknowledging is confined: whatever the outcome, a message is removed
    only when the request carries the acknowledgement token of the very inbox
    the message is in and names the receipt it is leased under; the traversal
    order of the token map does not matter. *)
Theorem ack_confined cfg iter headers receipt s :
  TokensSeparate cfg -> (forall m, Permutation (iter m) (map_to_list m)) ->
  (forall r, r ∈ t_rows (st_db s) -> r ∉ t_rows (st_db (ack cfg iter headers receipt s).1) ->
     mr_lease_id r = Some (trim receipt) /\
     exists token, ack_tokens cfg !! mr_to r = Some token /\ authorization headers = bearer token) /\
  (forall iter', (forall m, Permutation (iter' m) (map_to_list m)) ->
     ack cfg iter' headers receipt s = ack cfg iter headers receipt s).
Proof.
  intros Hs Hit. split.
  - intros r Hr. unfold ack. rewrite sbind_run. unfold slift at 1.
    destruct (authorized_inbox_for_token _ _ _ _) as [inbox|e] eqn:Ha; [|done].
    rewrite sbind_run. unfold slift at 1. destruct (is_empty (trim receipt)); [done|]. cbn [fail_if].
    rewrite sbind_run, on_db_run, ack_sync_run. cbn [fst snd map_err st_db]. intros Hout.
    destruct (acked (trim receipt) inbox r) eqn:Hk.
    + unfold acked in Hk. apply andb_true_iff in Hk as [Hid Hto].
      apply bool_decide_eq_true in Hid. apply String.eqb_eq in Hto. rewrite Hto.
      split; [done|]. by eapply authorized_ok.
    + destruct Hout. unfold slift. cbn. by apply elem_of_delete.
  - intros iter' Hit'. unfold ack. by rewrite (authorized_order iter' iter _ _ _ Hit' Hit (ts_ack)).
Qed.

(** Pushing is guarded: whatever the outcome, no live message is lost and
    the table stays well formed; a success means that the request carried the
    push token, fits the size limit and holds a valid envelope, which is now
    in the table under its key with a time to live within the server's
    maximum, or was already there. *)
Theorem push_guarded `{MailboxExt, PushRequestExt} cfg clock ci headers body s :
  app_ok s -> t_seq (st_db s) < I64_MAX ->
  let '(s', r) := push cfg clock ci headers body s in
  app_ok s' /\
  (forall x, x ∈ t_rows (st_db s) -> pc_ms clock < mr_expires_at_ms x -> x ∈ t_rows (st_db s')) /\
  (forall resp, r = Ok resp -> exists req ttl,
     push_granted cfg headers body req ttl /\ ttl <= Z.max (max_ttl_secs cfg) 1 /\
     exists x, x ∈ t_rows (st_db s') /\ same_key (rq_envelope req) x = true /\
       (ps_dedup resp = false ->
          mr_envelope_json x = envelope_to_string (rq_envelope req) /\
          mr_expires_at_ms x = expiry (pc_ms clock) ttl)).
Proof.
  intros Hs Hlt. pose proof (push_runs cfg clock ci headers body s) as Hr.
  destruct (push cfg clock ci headers body s) as [s' r].
  destruct Hr as [[Hdb He]|(req & ttl & Hg & Hdb & Hr)].
  { unfold app_ok. rewrite Hdb. splits; [done|done|]. intros resp ->. done. }
  rewrite push_sync_run in Hdb, Hr. cbv zeta in *. set (live := deleted (expired (pc_ms clock)) (st_db s)) in *.
  assert (mailbox_ok live) as Hlive by by apply deleted_ok.
  assert (forall x, x ∈ t_rows (st_db s) -> pc_ms clock < mr_expires_at_ms x -> x ∈ t_rows live) as Hkeep.
  { intros x Hx Hl. apply elem_of_delete. split; [done|]. unfold expired. lia. }
  rewrite (proj2 (Z.ltb_lt _ _)) in Hdb, Hr by done.
  destruct (push_verdict (rq_envelope req) (limits cfg) live) as [pr|] eqn:Hv; cbn [fst snd] in *.
  - unfold app_ok. rewrite Hdb. splits; [done|done|]. intros resp ->.
    destruct (pr_rejection pr) eqn:Hrej; [done|]. injection Hr as ->.
    exists req, ttl. split; [done|]. split; [destruct Hg as [_ _ _ _ [-> _]]; lia|].
    apply push_verdict_some in Hv as (Hd & Hns & _). cbn.
    destruct (pr_dedup pr) eqn:Ed; [|by destruct Hns].
    symmetry in Hd. apply existsb_exists in Hd as (x & Hx%list_elem_of_In & Ex). by exists x.
  - apply push_verdict_none in Hv as [Hk _]. unfold app_ok. rewrite Hdb. splits.
    + by apply stored_ok.
    + intros x Hx Hl. simpl. apply elem_of_app. left. by apply Hkeep.
    + intros resp ->. injection Hr as ->. exists req, ttl. split; [done|].
      split; [destruct Hg as [_ _ _ _ [-> _]]; lia|].
      eexists. split; [simpl; apply elem_of_app; right; by apply list_elem_of_singleton|].
      split; [|done]. by eapply same_key_spec.
Qed.

(** The key of the limiter per source address is chosen by the client: the
    first entry of [x-forwarded-for] takes precedence over the address of the
    connection. *)
Lemma forwarded_for_wins ci headers v :
  headers "x-forwarded-for" = Some v -> is_empty (trim (before_comma v)) = false ->
  extract_source_ip ci headers = trim (before_comma v).
Proof. intros Hv He. unfold extract_source_ip. by rewrite Hv, He. Qed.

(** ** Witnesses *)

Definition demo_api_config : ApiConfig := api_config demo_normalized.
Definition demo_headers (auth : string) : HeaderMap :=
  fun name => if (name =? "authorization")%string then Some auth else None.
Definition demo_valid_env : NxmsEnvelope :=
  MkEnvelope NXMS_PROTO_V1 NXMS_WIRE_KEM_ID_V1 NXMS_WIRE_SIG_ID_V1 PrepareInfo
    "00000000000000000000000000000000" "alice" "bob" 1 "x" "x" "x" "x" "x".
Definition demo_push_ext : PushRequestExt := {|
  push_request_from_slice s := Some (MkPushRequest demo_valid_env (Some 60)) |}.
Definition demo_app : AppState := MkAppState empty_mailbox ∅ ∅ [].
Definition demo_pushed : AppState * result ApiError PushResponse :=
  @push demo_mailbox_ext demo_push_ext demo_api_config (MkPushClock 1 1 1000) None
    (demo_headers "Bearer push-0123456789abcdef") "{}" demo_app.

Lemma one_token_one_scope_witness :
  opens demo_api_config map_to_list (demo_headers "Bearer pull-0123456789abcdef") (ScopePull "b") /\
  forall b, opens demo_api_config map_to_list (demo_headers "Bearer pull-0123456789abcdef") b -> b = ScopePull "b".
Proof.
  assert (opens demo_api_config map_to_list (demo_headers "Bearer pull-0123456789abcdef") (ScopePull "b")) as Ho
    by (vm_compute; reflexivity).
  split; [exact Ho|]. intros b Hb.
  exact (one_token_one_scope demo_api_config map_to_list (demo_headers "Bearer pull-0123456789abcdef")
    b (ScopePull "b") demo_separate (fun m => Permutation_refl _) Hb Ho).
Defined.

Lemma demo_app_ok : @app_ok demo_mailbox_ext demo_app.
Proof. apply (@empty_mailbox_ok demo_mailbox_ext). Qed.

Lemma push_guarded_witness :
  demo_pushed.2 = Ok (MkPushResponse true false) /\ @app_ok demo_mailbox_ext demo_pushed.1.
Proof.
  split; [vm_compute; reflexivity|].
  pose proof (@push_guarded demo_mailbox_ext demo_push_ext demo_api_config (MkPushClock 1 1 1000) None
    (demo_headers "Bearer push-0123456789abcdef") "{}" demo_app demo_app_ok ltac:(by vm_compute)) as Hp.
  unfold demo_pushed. destruct (push _ _ _ _ _ _) as [s' r]. exact (proj1 Hp).
Defined.

Definition demo_round : PollRound := MkPollRound (demo_receipts "r") 50 false Slept id.
Definition demo_pull_request : PullRequest := MkPullRequest "b" None None.
Definition demo_full_app : AppState := MkAppState demo_mailbox ∅ ∅ [].

Lemma demo_others_ok : @others_ok demo_mailbox_ext [demo_round].
Proof. apply list.Forall_singleton. by intros s Hs. Qed.

Lemma pull_confined_witness :
  exists out, (@pull demo_mailbox_ext demo_api_config [demo_round]
      (demo_headers "Bearer pull-0123456789abcdef") demo_pull_request demo_full_app).2 = Ok (Some out) /\
    length out = 2%nat /\ Forall (fun d => ev_to (lm_envelope d) = "b") out.
Proof.
  pose proof (@pull_confined demo_mailbox_ext demo_api_config [demo_round]
    (demo_headers "Bearer pull-0123456789abcdef") demo_pull_request demo_full_app
    demo_mailbox_laws demo_mailbox_ok demo_others_ok) as Hp.
  destruct (pull _ _ _ _ _) as [s' [[out|]|e]] eqn:E; cbn [fst snd] in *.
  - exists out. split; [reflexivity|]. split; [|apply (proj2 Hp out eq_refl)].
    vm_compute in E. injection E as _ <-. reflexivity.
  - vm_compute in E. discriminate.
  - vm_compute in E. discriminate.
Defined.

(** The receipt of another inbox is not found. *)
Lemma ack_confined_witness :
  (forall iter', (forall m, Permutation (iter' m) (map_to_list m)) ->
     ack demo_api_config iter' (demo_headers "Bearer ack-0123456789abcdef") " r0 " demo_full_app
     = ack demo_api_config map_to_list (demo_headers "Bearer ack-0123456789abcdef") " r0 " demo_full_app) /\
  (ack demo_api_config map_to_list (demo_headers "Bearer ack-0123456789abcdef") " r0 " demo_full_app).2
    = Err (api_error NOT_FOUND "unknown receipt").
Proof.
  split; [|vm_compute; reflexivity].
  exact (proj2 (ack_confined demo_api_config map_to_list (demo_headers "Bearer ack-0123456789abcdef")
    " r0 " demo_full_app demo_separate (fun m => Permutation_refl _))).
Defined.
