(* ===== verification/SignerDb.v ===== *)
(** * The signer's database

    [crates/nxms-signer/src/db.rs] and [audit_event.rs]: the tables with their
    constraints and every operation.  An [anyhow] error is its message; the
    texts of SQLite's own errors are a parameter ([sql_text]).  The clock
    readings are arguments.  The migrations of old schemas, the pragmas and the
    permissions of the file are left out.  An id is used up only by a row that
    is inserted. *)

From S2P Require Import Prelude RustString Sql.

Class SignerExt : Type := { sql_text : SqlError -> string }.

(** ** Data *)

Record PendingTxSign : Type := MkPending {
  pt_id : Z;
  pt_escrow_id_hex : string;
  pt_from_id : string;
  pt_to_id : string;
  pt_seq : Z;
  pt_action : string;
  pt_snapshot_hash_hex : string;
  pt_multisig_txset_hex : string;
  pt_txset_hash_hex : string;
  pt_describe_transfer_json : string;
  pt_status : string;
  pt_decision_reason : option string;
  pt_created_at_ms : Z;
  pt_updated_at_ms : Z;
}.

Record SnapshotRow : Type := MkSnapshotRow { sr_hash_hex : string; sr_snapshot_json : string }.

Record EscrowAdmissionArtifactRow : Type := MkAdmissionArtifactRow {
  ar_escrow_id_hex : string;
  ar_snapshot_hash_hex : string;
  ar_action : string;
  ar_runtime_trust_epoch : string;
  ar_artifact_hash_hex : string;
  ar_artifact_json : string;
  ar_created_at_ms : Z;
  ar_updated_at_ms : Z;
}.

Record SignEventAuditRow : Type := MkEventAudit {
  ea_role : string; ea_sign_round : string; ea_txset_hash_hex : string; ea_jti : string;
  ea_req_id : string; ea_created_at_ms : Z }.

Record AuditLogInsert : Type := MkAuditInsert {
  ai_event_kind : string;
  ai_escrow_id_hex : string;
  ai_from_id : option string;
  ai_to_id : option string;
  ai_seq : option Z;
  ai_envelope_hash_hex : option string;
  ai_payload_hash_hex : option string;
  ai_decision : option string;
  ai_detail : option string;
}.

Record AuditLogRow : Type := MkAuditRow {
  al_id : Z;
  al_event : AuditLogInsert;
  al_created_at_ms : Z;
}.

Record SnapshotSigRow : Type := MkSnapshotSig {
  sg_signer_id : string; sg_sig_pk_b64 : string; sg_sig_b64 : string; sg_hash_hex : string;
  sg_alg : string; sg_created_at_unix_ms : Z }.
Record SignRequestRow : Type := MkSignRequest {
  rr_req_id : string; rr_escrow_id_hex : string; rr_op : string; rr_sign_round : string;
  rr_txset_hash_hex : string; rr_status : string }.
Record SignEventRow : Type := MkSignEvent { ev_jti : string; ev_req_id : string }.

(** ** Tables *)

Record seen_row : Type := SeenRow {
  sn_escrow_id_hex : string; sn_from_id : string; sn_seq : Z; sn_seen_at_ms : Z }.
Record out_seq_row : Type := OutSeqRow {
  os_escrow_id_hex : string; os_from_id : string; os_last_seq : Z; os_updated_at_ms : Z }.
Record snapshot_row : Type := SnapRow {
  sp_hash_hex : string; sp_escrow_id_hex : string; sp_snapshot_json : string; sp_status : string;
  sp_created_at_ms : Z }.
Record sig_row : Type := SigRow { sx_id : Z; sx_sig : SnapshotSigRow }.
Record request_row : Type := RequestRow {
  rx_request : SignRequestRow; rx_created_at_ms : Z; rx_updated_at_ms : Z }.
Record result_row : Type := ResultRow {
  rs_req_id : string; rs_op : string; rs_response_json : string; rs_created_at_ms : Z }.
Record jti_row : Type := JtiRow {
  cj_jti : string; cj_escrow_id_hex : string; cj_op : string; cj_sign_round : string;
  cj_req_id : string; cj_exp_unix_s : Z; cj_consumed_at_ms : Z }.
Record event_row : Type := EventRow {
  ex_id : Z; ex_escrow_id_hex : string; ex_role : string; ex_sign_round : string;
  ex_txset_hash_hex : string; ex_jti : string; ex_req_id : string; ex_created_at_ms : Z }.

Record sdb : Type := Sdb {
  incoming_seen : list seen_row;
  out_seq : list out_seq_row;
  snapshots : list snapshot_row;
  admission_artifacts : list EscrowAdmissionArtifactRow;
  snapshot_sigs : table sig_row;
  pending_tx_sign : table PendingTxSign;
  sign_request_dedup : list request_row;
  sign_request_result : list result_row;
  consumed_action_jti : list jti_row;
  sign_events : table event_row;
  audit_log : table AuditLogRow;
}.

Definition empty_sdb : sdb :=
  Sdb [] [] [] [] empty_table empty_table [] [] [] empty_table empty_table.

(** One column of the record replaced. *)
Definition set_incoming_seen v d := Sdb v (out_seq d) (snapshots d) (admission_artifacts d)
  (snapshot_sigs d) (pending_tx_sign d) (sign_request_dedup d) (sign_request_result d)
  (consumed_action_jti d) (sign_events d) (audit_log d).
Definition set_out_seq v d := Sdb (incoming_seen d) v (snapshots d) (admission_artifacts d)
  (snapshot_sigs d) (pending_tx_sign d) (sign_request_dedup d) (sign_request_result d)
  (consumed_action_jti d) (sign_events d) (audit_log d).
Definition set_snapshots v d := Sdb (incoming_seen d) (out_seq d) v (admission_artifacts d)
  (snapshot_sigs d) (pending_tx_sign d) (sign_request_dedup d) (sign_request_result d)
  (consumed_action_jti d) (sign_events d) (audit_log d).
Definition set_admission_artifacts v d := Sdb (incoming_seen d) (out_seq d) (snapshots d) v
  (snapshot_sigs d) (pending_tx_sign d) (sign_request_dedup d) (sign_request_result d)
  (consumed_action_jti d) (sign_events d) (audit_log d).
Definition set_snapshot_sigs v d := Sdb (incoming_seen d) (out_seq d) (snapshots d)
  (admission_artifacts d) v (pending_tx_sign d) (sign_request_dedup d) (sign_request_result d)
  (consumed_action_jti d) (sign_events d) (audit_log d).
Definition set_pending_tx_sign v d := Sdb (incoming_seen d) (out_seq d) (snapshots d)
  (admission_artifacts d) (snapshot_sigs d) v (sign_request_dedup d) (sign_request_result d)
  (consumed_action_jti d) (sign_events d) (audit_log d).
Definition set_sign_request_dedup v d := Sdb (incoming_seen d) (out_seq d) (snapshots d)
  (admission_artifacts d) (snapshot_sigs d) (pending_tx_sign d) v (sign_request_result d)
  (consumed_action_jti d) (sign_events d) (audit_log d).
Definition set_sign_request_result v d := Sdb (incoming_seen d) (out_seq d) (snapshots d)
  (admission_artifacts d) (snapshot_sigs d) (pending_tx_sign d) (sign_request_dedup d) v
  (consumed_action_jti d) (sign_events d) (audit_log d).
Definition set_consumed_action_jti v d := Sdb (incoming_seen d) (out_seq d) (snapshots d)
  (admission_artifacts d) (snapshot_sigs d) (pending_tx_sign d) (sign_request_dedup d)
  (sign_request_result d) v (sign_events d) (audit_log d).
Definition set_sign_events v d := Sdb (incoming_seen d) (out_seq d) (snapshots d)
  (admission_artifacts d) (snapshot_sigs d) (pending_tx_sign d) (sign_request_dedup d)
  (sign_request_result d) (consumed_action_jti d) v (audit_log d).
Definition set_audit_log v d := Sdb (incoming_seen d) (out_seq d) (snapshots d)
  (admission_artifacts d) (snapshot_sigs d) (pending_tx_sign d) (sign_request_dedup d)
  (sign_request_result d) (consumed_action_jti d) (sign_events d) v.

(** *** Constraints *)

Definition is_one_of (l : list string) (s : string) : bool := existsb (String.eqb s) l.
Definition seen_key (r : seen_row) : string * string * Z := (sn_escrow_id_hex r, sn_from_id r, sn_seq r).
Definition seen_clash (a b : seen_row) : bool := bool_decide (seen_key a = seen_key b).
Definition out_seq_key (r : out_seq_row) : string * string := (os_escrow_id_hex r, os_from_id r).
Definition out_seq_same (a b : out_seq_row) : bool := bool_decide (out_seq_key a = out_seq_key b).
Definition snapshot_same (a b : snapshot_row) : bool := (sp_hash_hex a =? sp_hash_hex b)%string.
Definition snapshot_check (r : snapshot_row) : bool := is_one_of ["pending"; "active"] (sp_status r).
Definition artifact_same (a b : EscrowAdmissionArtifactRow) : bool :=
  (ar_escrow_id_hex a =? ar_escrow_id_hex b)%string.
Definition artifact_check (r : EscrowAdmissionArtifactRow) : bool := is_one_of ["release"; "refund"] (ar_action r).
Definition sig_key (r : sig_row) : string * string := (sg_hash_hex (sx_sig r), sg_signer_id (sx_sig r)).
Definition sig_same (a b : sig_row) : bool := bool_decide (sig_key a = sig_key b).
Definition pending_key (r : PendingTxSign) : string * string * Z := (pt_escrow_id_hex r, pt_from_id r, pt_seq r).
Definition pending_same (a b : PendingTxSign) : bool := bool_decide (pending_key a = pending_key b).
Definition pending_statuses : list string :=
  ["pending"; "approved"; "approved_sending"; "approved_sent"; "rejected_sending"; "rejected"; "failed_dead_letter"].
Definition pending_check (r : PendingTxSign) : bool := is_one_of pending_statuses (pt_status r).
Definition request_id (r : request_row) : string := rr_req_id (rx_request r).
Definition request_clash (a b : request_row) : bool := (request_id a =? request_id b)%string.
Definition result_clash (a b : result_row) : bool := (rs_req_id a =? rs_req_id b)%string.
Definition jti_clash (a b : jti_row) : bool := (cj_jti a =? cj_jti b)%string.
Definition event_key (r : event_row) : string * string * string * string :=
  (ex_escrow_id_hex r, ex_role r, ex_sign_round r, ex_txset_hash_hex r).
Definition event_clash (a b : event_row) : bool :=
  bool_decide (event_key a = event_key b)
  || bool_decide ((ex_jti a, ex_txset_hash_hex a) = (ex_jti b, ex_txset_hash_hex b))
  || (ex_req_id a =? ex_req_id b)%string.
Definition no_clash {R} (a b : R) : bool := false.

(** ** Operations *)

Section operations.
Context `{SignerExt}.

(** A statement on one table. *)
Definition exec_on {T A} (get : sdb -> T) (set : T -> sdb -> sdb) (f : T -> result SqlError (T * A))
    (err : SqlError -> string) : M sdb string A :=
  fun d => match f (get d) with Ok (t, a) => (set t d, Ok a) | Err e => (d, Err (err e)) end.
Definition write_on {T} (get : sdb -> T) (set : T -> sdb -> sdb) (f : T -> result SqlError T)
    (err : SqlError -> string) : M sdb string unit :=
  exec_on get set (fun t => let? t' := f t in Ok (t', tt)) err.
(** [is_unique_violation(&err)] selects the message. *)
Definition unique_or (msg : string) (e : SqlError) : string :=
  match e with ConstraintViolation => msg | _ => sql_text e end.

(** [SELECT MAX(seq)] *)
Definition max_seen (escrow_id_hex from_id : string) (l : list seen_row) : option Z :=
  match map sn_seq (List.filter (fun r => (sn_escrow_id_hex r =? escrow_id_hex)%string
                                          && (sn_from_id r =? from_id)%string) l) with
  | [] => None
  | q :: qs => Some (foldl Z.max q qs)
  end.

Definition record_incoming_seq_sync (now : Z) (escrow_id_hex from_id : string) (seq : Z) : M sdb string unit :=
  transaction (
    let seq_i64 := to_i64 seq in
    let* max_seen := in_tx (sget (fun d => max_seen escrow_id_hex from_id (incoming_seen d))) in
    let* _ := slift (match max_seen with
      | Some m => fail_if (seq_i64 <=? m)
          ("replay/out-of-order seq detected for (" +:+ escrow_id_hex +:+ ", " +:+ from_id +:+ "): "
           +:+ dec seq_i64 +:+ " <= " +:+ dec m)
      | None => Ok tt end) in
    let* _ := in_tx (write_on incoming_seen set_incoming_seen
      (insert_row seen_clash (fun _ => true) (SeenRow escrow_id_hex from_id seq_i64 (to_i64 now)))
      (unique_or ("replay seq detected for (" +:+ escrow_id_hex +:+ ", " +:+ from_id +:+ ", "
                  +:+ dec seq +:+ ")"))) in
    commit).

Definition last_out_seq (escrow_id_hex from_id : string) (l : list out_seq_row) : option Z :=
  os_last_seq <$> List.find (fun r => (os_escrow_id_hex r =? escrow_id_hex)%string
                                      && (os_from_id r =? from_id)%string) l.
Definition out_seq_merge (old new : out_seq_row) : out_seq_row :=
  OutSeqRow (os_escrow_id_hex old) (os_from_id old) (os_last_seq new) (os_updated_at_ms new).

Definition next_out_seq_sync (now : Z) (escrow_id_hex from_id : string) : M sdb string Z :=
  transaction (
    let* current := in_tx (sget (fun d => last_out_seq escrow_id_hex from_id (out_seq d))) in
    let next := Z.max (sat_add_i64 (default 0 current) 1) 1 in
    let* _ := in_tx (write_on out_seq set_out_seq
      (upsert_row out_seq_same no_clash (fun _ => true) out_seq_merge
         (OutSeqRow escrow_id_hex from_id next (to_i64 now))) sql_text) in
    let* _ := commit in
    sret (if 0 <=? next then next else U64_MAX)).

Definition snapshot_merge (old new : snapshot_row) : snapshot_row :=
  SnapRow (sp_hash_hex old) (sp_escrow_id_hex old) (sp_snapshot_json new) (sp_status old) (sp_created_at_ms old).

Definition put_snapshot_pending_sync (now : Z) (escrow_id_hex hash_hex snapshot_json : string)
    : M sdb string unit :=
  write_on snapshots set_snapshots
    (upsert_row snapshot_same no_clash snapshot_check snapshot_merge
       (SnapRow hash_hex escrow_id_hex snapshot_json "pending" (to_i64 now))) sql_text.

Definition sig_merge (old new : sig_row) : sig_row := SigRow (sx_id old) (sx_sig new).

Definition put_snapshot_signature_sync (sig : SnapshotSigRow) : M sdb string unit :=
  write_on snapshot_sigs set_snapshot_sigs
    (upsert_auto sig_same no_clash (fun _ => true) sig_merge (fun id => SigRow id
       (MkSnapshotSig (sg_signer_id sig) (sg_sig_pk_b64 sig) (sg_sig_b64 sig) (sg_hash_hex sig) (sg_alg sig)
          (to_i64 (sg_created_at_unix_ms sig))))) sql_text.

Definition sig_count (hash_hex : string) (d : sdb) : Z :=
  count_rows (fun r => sg_hash_hex (sx_sig r) =? hash_hex)%string (t_rows (snapshot_sigs d)).
Definition set_status (s : string) (r : snapshot_row) : snapshot_row :=
  SnapRow (sp_hash_hex r) (sp_escrow_id_hex r) (sp_snapshot_json r) s (sp_created_at_ms r).
Definition find_snapshot (hash_hex : string) (d : sdb) : option snapshot_row :=
  List.find (fun r => sp_hash_hex r =? hash_hex)%string (snapshots d).

Definition activate_snapshot_sync (hash_hex : string) (quorum : Z) : M sdb string unit :=
  transaction (
    let* sig_count := in_tx (sget (sig_count hash_hex)) in
    let* _ := slift (fail_if (sig_count <? quorum)
      ("snapshot " +:+ hash_hex +:+ " has " +:+ dec sig_count +:+ " signatures but quorum is " +:+ dec quorum)) in
    let* found := in_tx (sget (find_snapshot hash_hex)) in
    let* row := slift (ok_or found ("snapshot " +:+ hash_hex +:+ " not found")) in
    let* _ := in_tx (smodify (fun d => set_snapshots
      (update_rows (fun r => sp_escrow_id_hex r =? sp_escrow_id_hex row)%string (set_status "pending")
         (snapshots d)) d)) in
    let* _ := in_tx (smodify (fun d => set_snapshots
      (update_rows (fun r => sp_hash_hex r =? hash_hex)%string (set_status "active") (snapshots d)) d)) in
    commit).

(** [ORDER BY created_at_ms DESC LIMIT 1] *)
Definition active_snapshot_for_escrow_sync (escrow_id_hex : string) : M sdb string (option SnapshotRow) :=
  sget (fun d =>
    match order_desc sp_created_at_ms
            (List.filter (fun r => (sp_escrow_id_hex r =? escrow_id_hex)%string && (sp_status r =? "active")%string)
               (snapshots d)) with
    | r :: _ => Some (MkSnapshotRow (sp_hash_hex r) (sp_snapshot_json r))
    | [] => None
    end).

Definition artifact_merge (old new : EscrowAdmissionArtifactRow) : EscrowAdmissionArtifactRow :=
  MkAdmissionArtifactRow (ar_escrow_id_hex old) (ar_snapshot_hash_hex new) (ar_action new)
    (ar_runtime_trust_epoch new) (ar_artifact_hash_hex new) (ar_artifact_json new)
    (ar_created_at_ms old) (ar_updated_at_ms new).
(** A row as it comes from and goes to the table. *)
Definition artifact_times (f : Z -> Z) (r : EscrowAdmissionArtifactRow) : EscrowAdmissionArtifactRow :=
  MkAdmissionArtifactRow (ar_escrow_id_hex r) (ar_snapshot_hash_hex r) (ar_action r)
    (ar_runtime_trust_epoch r) (ar_artifact_hash_hex r) (ar_artifact_json r)
    (f (ar_created_at_ms r)) (f (ar_updated_at_ms r)).

Definition upsert_escrow_admission_artifact_sync (row : EscrowAdmissionArtifactRow) : M sdb string unit :=
  write_on admission_artifacts set_admission_artifacts
    (upsert_row artifact_same no_clash artifact_check artifact_merge (artifact_times to_i64 row)) sql_text.

Definition get_escrow_admission_artifact_sync (escrow_id_hex : string)
    : M sdb string (option EscrowAdmissionArtifactRow) :=
  sget (fun d => artifact_times to_u64 <$>
    List.find (fun r => ar_escrow_id_hex r =? escrow_id_hex)%string (admission_artifacts d)).

(** *** Pending requests *)

Definition pending_merge (old new : PendingTxSign) : PendingTxSign :=
  MkPending (pt_id old) (pt_escrow_id_hex old) (pt_from_id old) (pt_to_id old) (pt_seq old)
    (pt_action new) (pt_snapshot_hash_hex new) (pt_multisig_txset_hex new) (pt_txset_hash_hex new)
    (pt_describe_transfer_json new) (pt_status new) (pt_decision_reason new)
    (pt_created_at_ms old) (pt_updated_at_ms new).
Definition pending_row_of (p : PendingTxSign) (id : Z) : PendingTxSign :=
  MkPending id (pt_escrow_id_hex p) (pt_from_id p) (pt_to_id p) (to_i64 (pt_seq p))
    (pt_action p) (pt_snapshot_hash_hex p) (pt_multisig_txset_hex p) (pt_txset_hash_hex p)
    (pt_describe_transfer_json p) (pt_status p) (pt_decision_reason p)
    (to_i64 (pt_created_at_ms p)) (to_i64 (pt_updated_at_ms p)).
Definition row_to_pending (r : PendingTxSign) : PendingTxSign :=
  MkPending (pt_id r) (pt_escrow_id_hex r) (pt_from_id r) (pt_to_id r) (to_u64 (pt_seq r))
    (pt_action r) (pt_snapshot_hash_hex r) (pt_multisig_txset_hex r) (pt_txset_hash_hex r)
    (pt_describe_transfer_json r) (pt_status r) (pt_decision_reason r)
    (to_u64 (pt_created_at_ms r)) (to_u64 (pt_updated_at_ms r)).

Definition enqueue_pending_tx_sync (pending : PendingTxSign) : M sdb string unit :=
  write_on pending_tx_sign set_pending_tx_sign
    (upsert_auto pending_same no_clash pending_check pending_merge (pending_row_of pending)) sql_text.

Definition list_pending_sync : M sdb string (list PendingTxSign) :=
  sget (fun d => map row_to_pending (order_desc pt_created_at_ms (t_rows (pending_tx_sign d)))).
Definition get_pending_sync (id : Z) : M sdb string (option PendingTxSign) :=
  sget (fun d => row_to_pending <$> List.find (fun r => pt_id r =? id) (t_rows (pending_tx_sign d))).
(** [ORDER BY created_at_ms DESC, id DESC] *)
Definition list_pending_for_escrow_sync (escrow_id_hex : string) : M sdb string (list PendingTxSign) :=
  sget (fun d => map row_to_pending (order_desc pt_created_at_ms (order_desc pt_id
    (List.filter (fun r => pt_escrow_id_hex r =? escrow_id_hex)%string (t_rows (pending_tx_sign d)))))).

Definition with_status (status : string) (reason : option string) (now : Z) (r : PendingTxSign) : PendingTxSign :=
  MkPending (pt_id r) (pt_escrow_id_hex r) (pt_from_id r) (pt_to_id r) (pt_seq r)
    (pt_action r) (pt_snapshot_hash_hex r) (pt_multisig_txset_hex r) (pt_txset_hash_hex r)
    (pt_describe_transfer_json r) status reason (pt_created_at_ms r) (to_i64 now).

(** The [CHECK] on the status is tested on the rows the update touches. *)
Definition set_pending_status_sync (now id : Z) (status : string) (decision_reason : option string)
    : M sdb string unit :=
  let* n := exec_on pending_tx_sign set_pending_tx_sign (fun t =>
    let hit := fun r => pt_id r =? id in
    if existsb hit (t_rows t) && negb (is_one_of pending_statuses status) then Err ConstraintViolation
    else Ok (update_table hit (with_status status decision_reason now) t, count_rows hit (t_rows t))) sql_text in
  slift (fail_if (n =? 0) ("pending id " +:+ pretty id +:+ " not found")).

(** *** Sign requests *)

Definition start_sign_request_sync (now now2 : Z) (req_id escrow_id_hex op sign_round txset_hash_hex : string)
    : M sdb string unit :=
  write_on sign_request_dedup set_sign_request_dedup
    (insert_row request_clash (fun _ => true)
       (RequestRow (MkSignRequest req_id escrow_id_hex op sign_round txset_hash_hex "in_progress")
          (to_i64 now) (to_i64 now2)))
    (unique_or ("duplicate req_id: " +:+ req_id)).

Definition get_sign_request_sync (req_id : string) : M sdb string (option SignRequestRow) :=
  sget (fun d => rx_request <$> List.find (fun r => request_id r =? req_id)%string (sign_request_dedup d)).

Definition in_progress (req_id : string) (r : request_row) : bool :=
  (request_id r =? req_id)%string && (rr_status (rx_request r) =? "in_progress")%string.
Definition completed (now : Z) (r : request_row) : request_row :=
  let q := rx_request r in
  RequestRow (MkSignRequest (rr_req_id q) (rr_escrow_id_hex q) (rr_op q) (rr_sign_round q)
                (rr_txset_hash_hex q) "completed") (rx_created_at_ms r) (to_i64 now).
(** The [UPDATE .. SET status='completed'] and its check. *)
Definition complete_update (now : Z) (req_id : string) : M sdb string unit :=
  let* n := exec_on sign_request_dedup set_sign_request_dedup (fun l =>
    Ok (update_rows (in_progress req_id) (completed now) l, count_rows (in_progress req_id) l)) sql_text in
  slift (fail_if (n =? 0) ("sign request " +:+ req_id +:+ " not found or not in progress")).

Definition complete_sign_request_sync (now : Z) (req_id : string) : M sdb string unit :=
  complete_update now req_id.

Definition complete_sign_request_with_result_sync (now now2 : Z) (req_id op response_json : string)
    : M sdb string unit :=
  transaction (
    let* _ := in_tx (complete_update now req_id) in
    let* _ := in_tx (write_on sign_request_result set_sign_request_result
      (insert_row result_clash (fun _ => true) (ResultRow req_id op response_json (to_i64 now2))) sql_text) in
    commit).

Definition get_sign_request_result_sync (req_id : string) : M sdb string (option string) :=
  sget (fun d => rs_response_json <$> List.find (fun r => rs_req_id r =? req_id)%string (sign_request_result d)).

Definition abort_sign_request_sync (req_id : string) : M sdb string unit :=
  smodify (fun d => set_sign_request_dedup (delete_rows (in_progress req_id) (sign_request_dedup d)) d).

Definition consume_action_jti_sync (now : Z) (jti escrow_id_hex op sign_round req_id : string) (exp_unix_s : Z)
    : M sdb string unit :=
  write_on consumed_action_jti set_consumed_action_jti
    (insert_row jti_clash (fun _ => true)
       (JtiRow jti escrow_id_hex op sign_round req_id (to_i64 exp_unix_s) (to_i64 now)))
    (unique_or ("replayed jti: " +:+ jti)).

(** *** Sign events *)

Definition record_sign_event_sync (now : Z) (escrow_id_hex role sign_round txset_hash_hex jti req_id : string)
    : M sdb string unit :=
  write_on sign_events set_sign_events
    (insert_or_ignore event_clash (fun id =>
       EventRow id escrow_id_hex role sign_round txset_hash_hex jti req_id (to_i64 now))) sql_text.

Definition find_event (escrow_id_hex role sign_round txset_hash_hex : string) (d : sdb) : option event_row :=
  List.find (fun r => (ex_escrow_id_hex r =? escrow_id_hex)%string && (ex_role r =? role)%string
    && (ex_sign_round r =? sign_round)%string && (ex_txset_hash_hex r =? txset_hash_hex)%string)
    (t_rows (sign_events d)).
Definition has_sign_event_sync (escrow_id_hex role sign_round txset_hash_hex : string) : M sdb string bool :=
  sget (fun d => match find_event escrow_id_hex role sign_round txset_hash_hex d with Some _ => true | None => false end).
Definition get_sign_event_sync (escrow_id_hex role sign_round txset_hash_hex : string)
    : M sdb string (option SignEventRow) :=
  sget (fun d => (fun r => MkSignEvent (ex_jti r) (ex_req_id r))
                   <$> find_event escrow_id_hex role sign_round txset_hash_hex d).
Definition list_sign_events_for_escrow_sync (escrow_id_hex : string) : M sdb string (list SignEventAuditRow) :=
  sget (fun d => map (fun r => MkEventAudit (ex_role r) (ex_sign_round r) (ex_txset_hash_hex r) (ex_jti r)
                                 (ex_req_id r) (to_u64 (ex_created_at_ms r)))
    (order_desc ex_created_at_ms (order_desc ex_id
      (List.filter (fun r => ex_escrow_id_hex r =? escrow_id_hex)%string (t_rows (sign_events d)))))).

(** *** The audit log *)

Definition CHALLENGE_ISSUED : string := "challenge_issued".
Definition CHALLENGE_VERIFIED : string := "challenge_verified".
Definition TOKEN_ISSUED : string := "token_issued".
Definition SIGN_SHADOW_ALLOW : string := "sign_shadow_allow".
Definition SUBMIT_SHADOW_ALLOW : string := "submit_shadow_allow".
Definition KNOWN_EVENT_KINDS : list string :=
  [CHALLENGE_ISSUED; CHALLENGE_VERIFIED; TOKEN_ISSUED; "rx_rejected_replay"; "rx_validated";
   "tx_sign_req_rejected"; "rx_unsupported_msg_type"; "pending_enqueued"; "tx_sent"; "decision_error";
   "decision_approved"; "decision_rejected"; "proposal_attempt"; "proposal_success"; "sign_attempt";
   "sign_reject"; "sign_success"; SIGN_SHADOW_ALLOW; "submit_attempt"; "submit_reject"; "submit_success";
   SUBMIT_SHADOW_ALLOW].

Definition normalize_auth_event_kind (raw : string) : result string string :=
  let k := to_ascii_lowercase (trim raw) in
  if is_one_of [CHALLENGE_ISSUED; CHALLENGE_VERIFIED; TOKEN_ISSUED] k then Ok k
  else Err "auth event kind must be one of: challenge_issued|challenge_verified|token_issued".
Definition validate_known_audit_event_kind (event_kind : string) : result string unit :=
  fail_if (negb (is_one_of KNOWN_EVENT_KINDS event_kind)) ("unknown audit event kind '" +:+ event_kind +:+ "'").

Definition stored_event (e : AuditLogInsert) : AuditLogInsert :=
  MkAuditInsert (ai_event_kind e) (ai_escrow_id_hex e) (ai_from_id e) (ai_to_id e) (to_i64 <$> ai_seq e)
    (ai_envelope_hash_hex e) (ai_payload_hash_hex e) (ai_decision e) (ai_detail e).

Definition append_audit_log_sync (now : Z) (event : AuditLogInsert) : M sdb string unit :=
  let* _ := slift (validate_known_audit_event_kind (ai_event_kind event)) in
  write_on audit_log set_audit_log
    (insert_auto no_clash (fun _ => true) (fun id => MkAuditRow id (stored_event event) (to_i64 now))) sql_text.

(** A row as the queries return it. *)
Definition loaded_event (e : AuditLogInsert) : AuditLogInsert :=
  MkAuditInsert (ai_event_kind e) (ai_escrow_id_hex e) (ai_from_id e) (ai_to_id e)
    (ai_seq e ≫= fun v => if 0 <=? v then Some v else None)
    (ai_envelope_hash_hex e) (ai_payload_hash_hex e) (ai_decision e) (ai_detail e).
Definition loaded_audit (r : AuditLogRow) : AuditLogRow :=
  MkAuditRow (al_id r) (loaded_event (al_event r)) (to_u64 (al_created_at_ms r)).
Definition list_audit_logs_sync (lim : Z) : M sdb string (list AuditLogRow) :=
  sget (fun d => map loaded_audit
    (limit (Z.min (Z.max lim 1) 5000) (order_desc al_id (t_rows (audit_log d))))).
Definition list_audit_logs_for_escrow_sync (escrow_id_hex : string) (lim : Z) : M sdb string (list AuditLogRow) :=
  sget (fun d => map loaded_audit
    (limit (Z.min (Z.max lim 1) 20000) (order_desc al_id
      (List.filter (fun r => ai_escrow_id_hex (al_event r) =? escrow_id_hex)%string (t_rows (audit_log d)))))).
End operations.
