(* ===== verification/SignerInv.v ===== *)
(** * The signer's database: runs and invariant

    Every write of [SignerDb.v] as an operation, sequences of them, and what
    every reachable database satisfies: the keys of each table, the statuses,
    at most one active snapshot per escrow, a stored result only for a
    completed request, and only known kinds in the audit log. *)

From S2P Require Import Prelude RustString Sql SignerDb.

(** ** Runs *)

Inductive SignerOp : Type :=
| OpIncoming (now : Z) (escrow_id_hex from_id : string) (seq : Z)
| OpOutSeq (now : Z) (escrow_id_hex from_id : string)
| OpPutSnapshot (now : Z) (escrow_id_hex hash_hex snapshot_json : string)
| OpPutSignature (sig : SnapshotSigRow)
| OpActivate (hash_hex : string) (quorum : Z)
| OpArtifact (row : EscrowAdmissionArtifactRow)
| OpEnqueue (pending : PendingTxSign)
| OpStatus (now id : Z) (status : string) (decision_reason : option string)
| OpStart (now now2 : Z) (req_id escrow_id_hex op sign_round txset_hash_hex : string)
| OpComplete (now : Z) (req_id : string)
| OpCompleteWith (now now2 : Z) (req_id op response_json : string)
| OpAbort (req_id : string)
| OpConsumeJti (now : Z) (jti escrow_id_hex op sign_round req_id : string) (exp_unix_s : Z)
| OpSignEvent (now : Z) (escrow_id_hex role sign_round txset_hash_hex jti req_id : string)
| OpAudit (now : Z) (event : AuditLogInsert).

Section runs.
Context `{SignerExt}.

(** The answer of an operation, with the number [next_out_seq] hands out. *)
Definition run_signer_op (op : SignerOp) : M sdb string (option Z) :=
  let unit_op (m : M sdb string unit) := let* _ := m in sret None in
  match op with
  | OpIncoming now e f seq => unit_op (record_incoming_seq_sync now e f seq)
  | OpOutSeq now e f => let* n := next_out_seq_sync now e f in sret (Some n)
  | OpPutSnapshot now e h j => unit_op (put_snapshot_pending_sync now e h j)
  | OpPutSignature sig => unit_op (put_snapshot_signature_sync sig)
  | OpActivate h quorum => unit_op (activate_snapshot_sync h quorum)
  | OpArtifact row => unit_op (upsert_escrow_admission_artifact_sync row)
  | OpEnqueue p => unit_op (enqueue_pending_tx_sync p)
  | OpStatus now id s r => unit_op (set_pending_status_sync now id s r)
  | OpStart now now2 q e o sr t => unit_op (start_sign_request_sync now now2 q e o sr t)
  | OpComplete now q => unit_op (complete_sign_request_sync now q)
  | OpCompleteWith now now2 q o j => unit_op (complete_sign_request_with_result_sync now now2 q o j)
  | OpAbort q => unit_op (abort_sign_request_sync q)
  | OpConsumeJti now j e o sr q x => unit_op (consume_action_jti_sync now j e o sr q x)
  | OpSignEvent now e r sr t j q => unit_op (record_sign_event_sync now e r sr t j q)
  | OpAudit now ev => unit_op (append_audit_log_sync now ev)
  end.

(** Every connection serialises on the database. *)
Fixpoint run_signer (ops : list SignerOp) (d : sdb) : sdb * list (result string (option Z)) :=
  match ops with
  | [] => (d, [])
  | op :: rest =>
      let '(d1, r) := run_signer_op op d in
      let '(d2, rs) := run_signer rest d1 in (d2, r :: rs)
  end.

Lemma run_signer_ind (I : sdb -> Prop) ops d :
  (forall op d, I d -> I (run_signer_op op d).1) -> I d -> I (run_signer ops d).1.
Proof.
  revert d. induction ops as [|op ops IH]; intros d Hstep Hd; simpl; [done|].
  pose proof (Hstep op d Hd) as H1. destruct (run_signer_op op d) as [d1 r]. simpl in *.
  specialize (IH d1 Hstep H1). by destruct (run_signer ops d1).
Qed.

(** ** Statements *)

Lemma write_on_run {T} get set (f : T -> result SqlError T) err d :
  write_on get set f err d =
    match f (get d) with Ok t => (set t d, Ok tt) | Err e => (d, Err (err e)) end.
Proof. unfold write_on, exec_on. by destruct (f (get d)). Qed.

Lemma preserves_write {T} (I : sdb -> Prop) get set (f : T -> result SqlError T) err :
  (forall d t, I d -> f (get d) = Ok t -> I (set t d)) -> preserves I (write_on get set f err).
Proof.
  intros Hf d Hd. rewrite write_on_run. destruct (f (get d)) eqn:E; simpl; [by eapply Hf|done].
Qed.

Lemma preserves_modify {S E'} (I : S -> Prop) (f : S -> S) :
  (forall s, I s -> I (f s)) -> preserves I (@smodify S E' f).
Proof. intros Hf s Hs. by apply Hf. Qed.

(** ** The invariant *)

Definition snapshots_ok (l : list snapshot_row) : Prop :=
  NoDup (map sp_hash_hex l) /\ Forall (fun r => snapshot_check r = true) l /\
  forall x y, x ∈ l -> y ∈ l -> sp_status x = "active"%string -> sp_status y = "active"%string ->
    sp_escrow_id_hex x = sp_escrow_id_hex y -> sp_hash_hex x = sp_hash_hex y.
Definition request_statuses : list string := ["in_progress"; "completed"].
Definition requests_ok (l : list request_row) : Prop :=
  NoDup (map request_id l) /\ Forall (fun r => is_one_of request_statuses (rr_status (rx_request r)) = true) l.
(** A result belongs to a completed request. *)
Definition results_ok (l : list request_row) (k : list result_row) : Prop :=
  NoDup (map rs_req_id k) /\
  forall s, s ∈ k -> exists r, r ∈ l /\ request_id r = rs_req_id s /\
    rr_status (rx_request r) = "completed"%string.

Record signer_ok (d : sdb) : Prop := SignerOk {
  so_seen : NoDup (map seen_key (incoming_seen d));
  so_out : NoDup (map out_seq_key (out_seq d)) /\
           Forall (fun r => 1 <= os_last_seq r <= I64_MAX) (out_seq d);
  so_snapshots : snapshots_ok (snapshots d);
  so_artifacts : NoDup (map ar_escrow_id_hex (admission_artifacts d)) /\
                 Forall (fun r => artifact_check r = true) (admission_artifacts d);
  so_sigs : ids_ok sx_id (snapshot_sigs d) /\ NoDup (map sig_key (t_rows (snapshot_sigs d)));
  so_pending : ids_ok pt_id (pending_tx_sign d) /\ NoDup (map pending_key (t_rows (pending_tx_sign d))) /\
               Forall (fun r => pending_check r = true) (t_rows (pending_tx_sign d));
  so_requests : requests_ok (sign_request_dedup d);
  so_results : results_ok (sign_request_dedup d) (sign_request_result d);
  so_jti : NoDup (map cj_jti (consumed_action_jti d));
  so_events : ids_ok ex_id (sign_events d) /\ NoDup (map event_key (t_rows (sign_events d))) /\
              NoDup (map ex_req_id (t_rows (sign_events d))) /\
              NoDup (map (fun r => (ex_jti r, ex_txset_hash_hex r)) (t_rows (sign_events d)));
  so_audit : ids_ok al_id (audit_log d) /\
             Forall (fun r => is_one_of KNOWN_EVENT_KINDS (ai_event_kind (al_event r)) = true)
               (t_rows (audit_log d));
}.

Lemma empty_signer_ok : signer_ok empty_sdb.
Proof.
  constructor; simpl; unfold snapshots_ok, requests_ok, results_ok; simpl; splits;
    first [apply ids_ok_empty|apply NoDup_nil_2|apply Forall_nil_2|set_solver].
Qed.

(** *** Rows *)

Lemma out_seq_same_spec r x : out_seq_same r x = true <-> out_seq_key x = out_seq_key r.
Proof. unfold out_seq_same. rewrite bool_decide_eq_true. naive_solver. Qed.

Lemma sig_same_spec r x : sig_same r x = true <-> sig_key x = sig_key r.
Proof. unfold sig_same. rewrite bool_decide_eq_true. naive_solver. Qed.

Lemma put_snapshots_ok now e h j l :
  snapshots_ok l -> snapshots_ok (upserted snapshot_same snapshot_merge (SnapRow h e j "pending" (to_i64 now)) l).
Proof.
  intros (Hn & Hc & Ha). set (r := SnapRow h e j "pending" (to_i64 now)).
  assert (forall x, x ∈ upserted snapshot_same snapshot_merge r l ->
            sp_status x = "active"%string -> exists y, y ∈ l /\ sp_status y = "active"%string /\
              sp_escrow_id_hex y = sp_escrow_id_hex x /\ sp_hash_hex y = sp_hash_hex x) as Hback.
  { intros x Hx Hs. unfold upserted in Hx. destruct (existsb _ l).
    - apply elem_of_update in Hx as (y & Hy & ->). exists y. by destruct (snapshot_same r y).
    - apply elem_of_app in Hx as [Hx| ->%list_elem_of_singleton]; [by exists x|done]. }
  split_and!.
  - apply NoDup_upserted; [done| |done]. intros x. unfold snapshot_same.
    rewrite String.eqb_eq. naive_solver.
  - apply Forall_upserted; [done|done|]. intros x Hx _. exact Hx.
  - intros x y Hx Hy Sx Sy E.
    destruct (Hback x Hx Sx) as (x' & ? & ? & Ex & <-). destruct (Hback y Hy Sy) as (y' & ? & ? & Ey & <-).
    apply Ha; congruence.
Qed.

(** The two updates of an activation. *)
Definition activated (row : snapshot_row) (l : list snapshot_row) : list snapshot_row :=
  update_rows (fun r => sp_hash_hex r =? sp_hash_hex row)%string (set_status "active")
    (update_rows (fun r => sp_escrow_id_hex r =? sp_escrow_id_hex row)%string (set_status "pending") l).
Definition activated_row (row r : snapshot_row) : snapshot_row :=
  if (sp_hash_hex r =? sp_hash_hex row)%string then set_status "active" r
  else if (sp_escrow_id_hex r =? sp_escrow_id_hex row)%string then set_status "pending" r else r.

Lemma activated_map row l : activated row l = map (activated_row row) l.
Proof.
  unfold activated, update_rows. rewrite map_map. apply map_ext. intros r. unfold activated_row.
  destruct (sp_escrow_id_hex r =? _)%string; simpl; by destruct (sp_hash_hex r =? _)%string.
Qed.

Lemma activated_row_fields row r :
  sp_hash_hex (activated_row row r) = sp_hash_hex r /\
  sp_escrow_id_hex (activated_row row r) = sp_escrow_id_hex r /\
  sp_snapshot_json (activated_row row r) = sp_snapshot_json r.
Proof. unfold activated_row. repeat case_match; done. Qed.

Lemma activated_status row r :
  sp_status (activated_row row r) = "active"%string ->
  sp_hash_hex r = sp_hash_hex row \/
  (sp_escrow_id_hex r <> sp_escrow_id_hex row /\ sp_status r = "active"%string).
Proof.
  unfold activated_row. destruct (String.eqb_spec (sp_hash_hex r) (sp_hash_hex row)); [by left|].
  destruct (String.eqb_spec (sp_escrow_id_hex r) (sp_escrow_id_hex row)); [done|]. intros ?. by right.
Qed.

Lemma activated_ok row l : snapshots_ok l -> row ∈ l -> snapshots_ok (activated row l).
Proof.
  intros (Hn & Hc & Ha) Hrow. rewrite activated_map. split_and!.
  - rewrite map_map. erewrite map_ext; [exact Hn|]. intros r. apply activated_row_fields.
  - apply Forall_map. eapply Forall_impl; [exact Hc|]. intros r Hr. unfold activated_row.
    repeat case_match; done.
  - intros x y Hx Hy Sx Sy E.
    apply list_elem_of_fmap in Hx as (x' & -> & Hx). apply list_elem_of_fmap in Hy as (y' & -> & Hy).
    destruct (activated_row_fields row x') as (-> & Ex & _). rewrite Ex in E.
    destruct (activated_row_fields row y') as (-> & Ey & _). rewrite Ey in E.
    apply activated_status in Sx, Sy.
    destruct Sx as [Kx|[Kx Sx]], Sy as [Ky|[Ky Sy]]; [congruence|..|by apply Ha].
    + assert (x' = row) as -> by (eapply (unique_row sp_hash_hex); eauto). done.
    + assert (y' = row) as -> by (eapply (unique_row sp_hash_hex); eauto). done.
Qed.

(** ** Closed forms *)

(** The channel of [escrow_id_hex] and [from_id]. *)
Definition on_channel (e f : string) (r : seen_row) : bool :=
  (sn_escrow_id_hex r =? e)%string && (sn_from_id r =? f)%string.
(** The sequence numbers a channel has accepted, in order. *)
Definition seen_seqs (e f : string) (d : sdb) : list Z :=
  map sn_seq (List.filter (on_channel e f) (incoming_seen d)).
Definition fresh_seq (e f : string) (q : Z) (d : sdb) : bool :=
  match max_seen e f (incoming_seen d) with Some m => m <? q | None => true end.

Lemma foldl_max_spec (l : list Z) m :
  m <= foldl Z.max m l /\ (forall x, x ∈ l -> x <= foldl Z.max m l) /\
  (foldl Z.max m l = m \/ foldl Z.max m l ∈ l).
Proof.
  revert m. induction l as [|y l IH]; intros m; simpl; [split_and!; [lia|set_solver|by left]|].
  destruct (IH (Z.max m y)) as (H1 & H2 & H3). split_and!; [lia| |].
  - intros x [->|Hx]%elem_of_cons; [lia|by apply H2].
  - destruct H3 as [H3|H3]; [|right; set_solver]. rewrite H3.
    destruct (Z.max_spec m y) as [[_ ->]|[_ ->]]; [right; set_solver|by left].
Qed.

(** A number is fresh when it exceeds every number the channel accepted. *)
Lemma fresh_seq_spec e f q d :
  fresh_seq e f q d = true <-> forall x, x ∈ seen_seqs e f d -> x < q.
Proof.
  unfold fresh_seq, max_seen, seen_seqs, on_channel. destruct (map sn_seq _) as [|y l]; [set_solver|].
  destruct (foldl_max_spec l y) as (H1 & H2 & H3). rewrite Z.ltb_lt. split.
  - intros Hq x [->|Hx]%elem_of_cons; [lia|]. specialize (H2 x Hx). lia.
  - intros Hq. destruct H3 as [->|H3]; [apply Hq; set_solver|apply Hq; set_solver].
Qed.

Definition accept_seq (now : Z) (e f : string) (seq : Z) (d : sdb) : sdb :=
  set_incoming_seen (incoming_seen d ++ [SeenRow e f (to_i64 seq) (to_i64 now)]) d.

Lemma fresh_no_clash now e f q d x :
  fresh_seq e f q d = true -> x ∈ incoming_seen d -> seen_clash (SeenRow e f q now) x = false.
Proof.
  intros Hf Hx. apply bool_decide_eq_false_2. unfold seen_key. simpl. intros [= He Hfr Hq].
  assert (sn_seq x < q); [|lia]. eapply fresh_seq_spec; [exact Hf|]. apply list_elem_of_fmap.
  exists x. split; [done|]. apply list_elem_of_In, List.filter_In.
  split; [by apply list_elem_of_In|]. unfold on_channel. by rewrite <- He, <- Hfr, !String.eqb_refl.
Qed.

Lemma incoming_run now e f seq d :
  exists err, record_incoming_seq_sync now e f seq d =
    if fresh_seq e f (to_i64 seq) d then (accept_seq now e f seq d, Ok tt) else (d, Err err).
Proof.
  assert (fresh_seq e f (to_i64 seq) d = true ->
    insert_row seen_clash (fun _ => true) (SeenRow e f (to_i64 seq) (to_i64 now)) (incoming_seen d)
    = Ok (incoming_seen d ++ [SeenRow e f (to_i64 seq) (to_i64 now)])) as Hins.
  { intros Hf. unfold insert_row. rewrite (proj2 (existsb_false _ _)); [done|].
    intros x Hx. by eapply fresh_no_clash. }
  unfold record_incoming_seq_sync, transaction, sbind, in_tx, sget, slift, fail_if, commit.
  cbn [tx_working tx_committed]. destruct (max_seen e f (incoming_seen d)) as [m|] eqn:Em.
  - destruct (Z.leb_spec (to_i64 seq) m) as [Hle|Hlt].
    + eexists. unfold fresh_seq. rewrite Em, (proj2 (Z.ltb_ge _ _)) by done. done.
    + exists ""%string. assert (fresh_seq e f (to_i64 seq) d = true) as Hf
        by (unfold fresh_seq; rewrite Em; by apply Z.ltb_lt).
      rewrite Hf, write_on_run, Hins by done. done.
  - exists ""%string. assert (fresh_seq e f (to_i64 seq) d = true) as Hf
      by (unfold fresh_seq; by rewrite Em).
    rewrite Hf, write_on_run, Hins by done. done.
Qed.

(** The number a channel hands out next. *)
Definition next_seq (e f : string) (d : sdb) : Z :=
  Z.max (sat_add_i64 (default 0 (last_out_seq e f (out_seq d))) 1) 1.

Lemma upsert_plain {R} (same : R -> R -> bool) (merge : R -> R -> R) r l :
  upsert_row same no_clash (fun _ => true) merge r l = Ok (upserted same merge r l).
Proof.
  unfold upsert_row, upserted. simpl. destruct (existsb (same r) l).
  - rewrite (proj2 (existsb_false _ _)); [done|]. done.
  - rewrite (proj2 (existsb_false _ _)); [done|]. done.
Qed.

Lemma out_seq_run now e f d :
  next_out_seq_sync now e f d =
    (set_out_seq (upserted out_seq_same out_seq_merge
       (OutSeqRow e f (next_seq e f d) (to_i64 now)) (out_seq d)) d, Ok (next_seq e f d)).
Proof.
  unfold next_out_seq_sync, transaction, sbind, in_tx, sget, sret, commit. cbn [tx_working tx_committed].
  fold (next_seq e f d). rewrite write_on_run, upsert_plain. cbn [tx_working tx_committed].
  assert (0 <=? next_seq e f d = true) as -> by (unfold next_seq; lia). done.
Qed.

Lemma activate_run h quorum d :
  exists err, activate_snapshot_sync h quorum d =
    if quorum <=? sig_count h d
    then match find_snapshot h d with
         | Some row => (set_snapshots (activated row (snapshots d)) d, Ok tt)
         | None => (d, Err err) end
    else (d, Err err).
Proof.
  unfold activate_snapshot_sync, transaction, sbind, in_tx, sget, slift, smodify, fail_if, commit.
  cbn [tx_working tx_committed]. destruct (Z.ltb_spec (sig_count h d) quorum) as [Hlt|Hge].
  - eexists. by rewrite (proj2 (Z.leb_gt _ _)).
  - rewrite (proj2 (Z.leb_le _ _)) by done. destruct (find_snapshot h d) as [row|] eqn:Ef; [|by eexists].
    exists ""%string. simpl. apply find_some_elem in Ef as [_ <-%String.eqb_eq]. done.
Qed.

(** *** Sign requests *)

Definition is_request (q : string) (r : request_row) : bool := (request_id r =? q)%string.
Definition find_request (q : string) (d : sdb) : option request_row :=
  List.find (is_request q) (sign_request_dedup d).
Definition is_result (q : string) (r : result_row) : bool := (rs_req_id r =? q)%string.
Definition find_result (q : string) (d : sdb) : option result_row :=
  List.find (is_result q) (sign_request_result d).
(** Whether a request is waiting for its result. *)
Definition open_request (q : string) (d : sdb) : bool := existsb (in_progress q) (sign_request_dedup d).

Definition set_completed (now : Z) (q : string) (d : sdb) : sdb :=
  set_sign_request_dedup (update_rows (in_progress q) (completed now) (sign_request_dedup d)) d.

Lemma count_zero_existsb {R} (p : R -> bool) l : (count_rows p l =? 0) = negb (existsb p l).
Proof.
  destruct (existsb p l) eqn:E; simpl.
  - apply Z.eqb_neq. intros H0. rewrite count_zero in H0. apply existsb_exists in E as (x & Hx & E).
    rewrite H0 in E; [done|by apply list_elem_of_In].
  - apply Z.eqb_eq, count_zero. by apply existsb_false.
Qed.

Lemma update_none {R} (p : R -> bool) f l : existsb p l = false -> update_rows p f l = l.
Proof.
  intros Hp. unfold update_rows. rewrite <- (map_id l) at 2. apply map_ext_in. intros r Hr.
  rewrite existsb_false in Hp. by rewrite Hp by by apply list_elem_of_In.
Qed.

Lemma set_completed_none now q d : open_request q d = false -> set_completed now q d = d.
Proof. intros Ho. unfold set_completed. rewrite update_none by done. by destruct d. Qed.

Lemma complete_update_run now q d :
  exists err, complete_update now q d =
    if open_request q d then (set_completed now q d, Ok tt) else (d, Err err).
Proof.
  unfold complete_update, sbind, exec_on, slift. rewrite count_zero_existsb.
  fold (open_request q d) (set_completed now q d). eexists.
  destruct (open_request q d) eqn:Eo; simpl; [done|]. by rewrite set_completed_none.
Qed.

Lemma open_request_row q d :
  open_request q d = true -> exists r, r ∈ sign_request_dedup d /\ request_id r = q /\
    rr_status (rx_request r) = "in_progress"%string.
Proof.
  intros (r & Hr & Hp)%existsb_exists. apply andb_true_iff in Hp as [Hq%String.eqb_eq Hs%String.eqb_eq].
  exists r. by rewrite list_elem_of_In.
Qed.

(** While a request is open it has no result. *)
Lemma open_no_result q d x :
  signer_ok d -> open_request q d = true -> x ∈ sign_request_result d -> is_result q x = false.
Proof.
  intros Hd (r & Hr & <- & Hs)%open_request_row Hx. destruct (so_results _ Hd) as [_ Hres].
  destruct (Hres x Hx) as (r' & Hr' & Hq & Hs').
  unfold is_result. apply String.eqb_neq. intros Heq.
  assert (r = r') as -> by (eapply (unique_row request_id); [apply (so_requests _ Hd)|done|done|congruence]).
  congruence.
Qed.

Definition add_result (now : Z) (q op json : string) (d : sdb) : sdb :=
  set_sign_request_result (sign_request_result d ++ [ResultRow q op json (to_i64 now)]) d.

Lemma complete_with_run now now2 q op json d :
  signer_ok d ->
  exists err, complete_sign_request_with_result_sync now now2 q op json d =
    if open_request q d then (add_result now2 q op json (set_completed now q d), Ok tt) else (d, Err err).
Proof.
  intros Hd. unfold complete_sign_request_with_result_sync.
  destruct (complete_update_run now q d) as [err Hrun]. exists err.
  unfold transaction, sbind, in_tx, commit. cbn [tx_working tx_committed]. rewrite Hrun.
  destruct (open_request q d) eqn:Eo; [|done]. cbn [tx_working tx_committed]. rewrite write_on_run.
  unfold insert_row. rewrite (proj2 (existsb_false _ _)); [done|].
  intros x Hx. unfold result_clash. rewrite String.eqb_sym. by eapply open_no_result.
Qed.

Definition new_request (now now2 : Z) (q e op sr t : string) : request_row :=
  RequestRow (MkSignRequest q e op sr t "in_progress") (to_i64 now) (to_i64 now2).
Definition add_request (r : request_row) (d : sdb) : sdb :=
  set_sign_request_dedup (sign_request_dedup d ++ [r]) d.

Lemma existsb_find {R} (p : R -> bool) l : existsb p l = match List.find p l with Some _ => true | None => false end.
Proof. induction l as [|x l IH]; simpl; [done|]. by destruct (p x). Qed.

Lemma existsb_ext {R} (p q : R -> bool) l : (forall x, p x = q x) -> existsb p l = existsb q l.
Proof. intros Hpq. induction l as [|x l IH]; simpl; [done|]. by rewrite Hpq, IH. Qed.

Lemma start_run now now2 q e op sr t d :
  start_sign_request_sync now now2 q e op sr t d =
    match find_request q d with
    | Some _ => (d, Err ("duplicate req_id: " +:+ q))
    | None => (add_request (new_request now now2 q e op sr t) d, Ok tt)
    end.
Proof.
  unfold start_sign_request_sync. rewrite write_on_run. unfold insert_row. simpl.
  rewrite (existsb_ext _ (is_request q)) by (intros x; apply String.eqb_sym).
  rewrite existsb_find. fold (find_request q d). by destruct (find_request q d).
Qed.

Definition find_jti (jti : string) (d : sdb) : option jti_row :=
  List.find (fun r => cj_jti r =? jti)%string (consumed_action_jti d).
Definition add_jti (r : jti_row) (d : sdb) : sdb :=
  set_consumed_action_jti (consumed_action_jti d ++ [r]) d.

Lemma jti_run now jti e op sr q x d :
  consume_action_jti_sync now jti e op sr q x d =
    match find_jti jti d with
    | Some _ => (d, Err ("replayed jti: " +:+ jti))
    | None => (add_jti (JtiRow jti e op sr q (to_i64 x) (to_i64 now)) d, Ok tt)
    end.
Proof.
  unfold consume_action_jti_sync. rewrite write_on_run. unfold insert_row. simpl.
  rewrite (existsb_ext _ (fun r => cj_jti r =? jti)%string) by (intros y; apply String.eqb_sym).
  rewrite existsb_find. fold (find_jti jti d). by destruct (find_jti jti d).
Qed.

(** *** Preservation, one operation at a time *)

Lemma last_out_seq_range e f d :
  signer_ok d -> 0 <= default 0 (last_out_seq e f (out_seq d)) <= I64_MAX.
Proof.
  intros Hd. unfold last_out_seq. destruct (List.find _ (out_seq d)) as [r|] eqn:Ef; simpl; [|by vm_compute].
  apply find_some_elem in Ef as [Hr _]. destruct (so_out _ Hd) as [_ Ho].
  rewrite Forall_forall in Ho. specialize (Ho r Hr). lia.
Qed.

Lemma next_seq_range e f d : signer_ok d -> 1 <= next_seq e f d <= I64_MAX.
Proof. intros Hd. pose proof (last_out_seq_range e f d Hd). unfold next_seq. mlia. Qed.

Lemma incoming_ok now e f seq d : signer_ok d -> signer_ok (record_incoming_seq_sync now e f seq d).1.
Proof.
  intros Hd. destruct (incoming_run now e f seq d) as [err ->]. destruct (fresh_seq _ _ _ _) eqn:Ef; [|done].
  destruct Hd. constructor; try done. simpl. apply NoDup_map_snoc; [done|]. intros x Hx Hk.
  pose proof (fresh_no_clash (to_i64 now) _ _ _ _ _ Ef Hx) as Hc. unfold seen_clash in Hc.
  apply bool_decide_eq_false_1 in Hc. by rewrite Hk in Hc.
Qed.

Lemma out_seq_ok now e f d : signer_ok d -> signer_ok (next_out_seq_sync now e f d).1.
Proof.
  intros Hd. rewrite out_seq_run. pose proof (next_seq_range e f d Hd).
  destruct Hd as [? [Hn Hr] ?????????]. constructor; try done. simpl. split.
  - apply NoDup_upserted; [done|apply out_seq_same_spec|done].
  - apply Forall_upserted; simpl; auto.
Qed.

Lemma put_snapshot_ok now e h j : preserves signer_ok (put_snapshot_pending_sync now e h j).
Proof.
  apply preserves_write. intros d t [] (_ & -> & _)%upsert_row_ok. constructor; try done.
  by apply put_snapshots_ok.
Qed.

Lemma put_signature_ok sig : preserves signer_ok (put_snapshot_signature_sync sig).
Proof.
  apply preserves_write. intros d t [???? [Hi Hn] ??????] Hu. constructor; try done. simpl. split.
  - eapply ids_ok_upsert; [exact Hi| | |exact Hu]; done.
  - apply upsert_auto_ok in Hu as [_ ->]. apply NoDup_upserted; [done|apply sig_same_spec|].
    intros x Hx. symmetry. by apply sig_same_spec.
Qed.

Lemma activate_ok h quorum d : signer_ok d -> signer_ok (activate_snapshot_sync h quorum d).1.
Proof.
  intros Hd. destruct (activate_run h quorum d) as [err ->]. case_match; [|done].
  destruct (find_snapshot h d) as [row|] eqn:Ef; [|done]. apply find_some_elem in Ef as [Hrow _].
  destruct Hd. constructor; try done. by apply activated_ok.
Qed.

Lemma artifact_ok row : preserves signer_ok (upsert_escrow_admission_artifact_sync row).
Proof.
  apply preserves_write. intros d t [??? [Hn Hc] ???????] (Hr & -> & _)%upsert_row_ok.
  constructor; try done. simpl. split.
  - apply NoDup_upserted; [done| |done]. intros x. unfold artifact_same. rewrite String.eqb_eq. naive_solver.
  - by apply Forall_upserted.
Qed.

Lemma enqueue_ok p : preserves signer_ok (enqueue_pending_tx_sync p).
Proof.
  apply preserves_write. intros d t [????? (Hi & Hn & Hc) ?????] Hu. constructor; try done. simpl. split_and!.
  - eapply ids_ok_upsert; [exact Hi| | |exact Hu]; done.
  - apply upsert_auto_ok in Hu as [_ ->]. apply NoDup_upserted; [done| |done].
    intros x. unfold pending_same. rewrite bool_decide_eq_true. naive_solver.
  - apply upsert_auto_ok in Hu as [Hr ->]. by apply Forall_upserted.
Qed.

Lemma status_ok now id st reason : preserves signer_ok (set_pending_status_sync now id st reason).
Proof.
  apply preserves_bind; [|intros n; apply preserves_lift]. intros d Hd. unfold exec_on.
  destruct (existsb _ _) eqn:Eh; cbn [andb].
  - destruct (is_one_of pending_statuses st) eqn:Es; cbn [negb]; [|done].
    destruct Hd as [????? (Hi & Hn & Hc) ?????]. constructor; try done. simpl. split_and!.
    + by apply ids_ok_update.
    + by rewrite map_update.
    + apply Forall_update; [done|]. intros r _ _. exact Es.
  - unfold update_table. rewrite update_none by done. by destruct d as [????? [] ?????].
Qed.

Lemma start_ok now now2 q e op sr t d : signer_ok d -> signer_ok (start_sign_request_sync now now2 q e op sr t d).1.
Proof.
  intros Hd. rewrite start_run. destruct (find_request q d) as [r|] eqn:Ef; [done|].
  unfold find_request in Ef. rewrite find_none_elem in Ef.
  destruct Hd as [?????? [Hn Hs] [Hr Hres] ???]. constructor; try done; simpl; split; [| |done|].
  - apply NoDup_map_snoc; [done|]. intros x Hx Hk. specialize (Ef x Hx). unfold is_request in Ef.
    rewrite Hk in Ef. unfold request_id in Ef. simpl in Ef. by rewrite String.eqb_refl in Ef.
  - apply Forall_app_2; [done|by constructor].
  - intros s Hsr. destruct (Hres s Hsr) as (r & Hin & ?). exists r. split; [set_solver|done].
Qed.

Lemma set_completed_ok now q d : signer_ok d -> signer_ok (set_completed now q d).
Proof.
  intros [?????? [Hn Hs] [Hr Hres] ???]. constructor; try done; simpl; split; [| |done|].
  - by rewrite map_update.
  - apply Forall_update; [done|]. done.
  - intros s Hsr. destruct (Hres s Hsr) as (r & Hin & Hq & Hst).
    exists (if in_progress q r then completed now r else r). split; [apply elem_of_update; eauto|].
    by destruct (in_progress q r).
Qed.

Lemma complete_ok now q : preserves signer_ok (complete_update now q).
Proof.
  intros d Hd. destruct (complete_update_run now q d) as [err ->].
  destruct (open_request q d); [by apply set_completed_ok|done].
Qed.

Lemma set_completed_row now q d :
  open_request q d = true -> exists r, r ∈ sign_request_dedup (set_completed now q d) /\
    request_id r = q /\ rr_status (rx_request r) = "completed"%string.
Proof.
  intros (r & Hr & Hp)%existsb_exists. exists (completed now r). split_and!; [|by apply andb_true_iff in Hp as [Hq%String.eqb_eq _]|done].
  apply elem_of_update. exists r. rewrite Hp. by rewrite list_elem_of_In.
Qed.

Lemma complete_with_ok now now2 q op json d :
  signer_ok d -> signer_ok (complete_sign_request_with_result_sync now now2 q op json d).1.
Proof.
  intros Hd. destruct (complete_with_run now now2 q op json d Hd) as [err ->].
  destruct (open_request q d) eqn:Eo; [|done]. pose proof (set_completed_ok now q d Hd) as Hc.
  pose proof (set_completed_row now q d Eo) as Hrow.
  destruct Hc as [??????? [Hr Hres] ???]. constructor; try done; simpl. split.
  - apply NoDup_map_snoc; [done|]. intros x Hx Hk.
    pose proof (open_no_result q d x Hd Eo Hx) as Hno. unfold is_result in Hno.
    rewrite Hk in Hno. simpl in Hno. by rewrite String.eqb_refl in Hno.
  - intros s [Hs| ->%list_elem_of_singleton]%elem_of_app; [by apply Hres|exact Hrow].
Qed.

Lemma abort_ok q : preserves signer_ok (abort_sign_request_sync q).
Proof.
  apply preserves_modify. intros d [?????? [Hn Hs] [Hr Hres] ???]. constructor; try done; simpl; split.
  - by apply NoDup_delete.
  - rewrite Forall_forall in Hs |- *. intros r [Hin _]%elem_of_delete. by apply Hs.
  - done.
  - intros s Hsr. destruct (Hres s Hsr) as (r & Hin & Hq & Hst). exists r. split; [|done].
    apply elem_of_delete. split; [done|]. unfold in_progress. rewrite Hst. by rewrite andb_false_r.
Qed.

Lemma jti_ok now jti e op sr q x d : signer_ok d -> signer_ok (consume_action_jti_sync now jti e op sr q x d).1.
Proof.
  intros Hd. rewrite jti_run. destruct (find_jti jti d) as [r|] eqn:Ef; [done|].
  unfold find_jti in Ef. rewrite find_none_elem in Ef. destruct Hd. constructor; try done. simpl.
  apply NoDup_map_snoc; [done|]. intros y Hy Hk. specialize (Ef y Hy). simpl in *.
  rewrite Hk in Ef. by rewrite String.eqb_refl in Ef.
Qed.

Lemma event_clash_false a b :
  event_clash a b = false -> event_key b <> event_key a /\ ex_req_id b <> ex_req_id a /\
    (ex_jti b, ex_txset_hash_hex b) <> (ex_jti a, ex_txset_hash_hex a).
Proof.
  unfold event_clash. rewrite !orb_false_iff. intros [[H1 H2] H3].
  apply bool_decide_eq_false_1 in H1, H2. apply String.eqb_neq in H3. split_and!; congruence.
Qed.

Lemma sign_event_ok now e r sr t j q : preserves signer_ok (record_sign_event_sync now e r sr t j q).
Proof.
  apply preserves_write. intros d t' Hd Hi. unfold insert_or_ignore in Hi.
  destruct (insert_auto _ _ _ _) as [t1|[]] eqn:Ei; simplify_eq; [|by destruct d].
  destruct Hd as [????????? (Hid & Hk & Hq & Hj) ?]. constructor; try done. simpl.
  assert (ids_ok ex_id t') as Hid' by (eapply ids_ok_insert; [exact Hid| |exact Ei]; done).
  apply insert_auto_ok in Ei as (_ & -> & Hc). split_and!; [exact Hid'|..];
    apply NoDup_map_snoc; try done; intros x Hx; apply (event_clash_false _ _ (Hc x Hx)).
Qed.

Lemma audit_ok now ev : preserves signer_ok (append_audit_log_sync now ev).
Proof.
  apply preserves_lift_bind. intros [] Hv. apply preserves_write. intros d t [?????????? [Hi Hk]] Hu.
  constructor; try done. simpl. split; [eapply ids_ok_insert; [exact Hi| |exact Hu]; done|].
  apply insert_auto_ok in Hu as (_ & -> & _). apply Forall_app_2; [done|]. apply list.Forall_singleton. simpl.
  apply fail_if_ok in Hv. by apply negb_false_iff in Hv.
Qed.

Lemma run_signer_op_ok op d : signer_ok d -> signer_ok (run_signer_op op d).1.
Proof.
  assert (forall {A B} (m : M sdb string A) (g : A -> B), (forall d, signer_ok d -> signer_ok (m d).1) ->
    preserves signer_ok (sbind m (fun a => sret (g a)))) as Hu
    by (intros A B m g Hm; apply preserves_bind; [exact Hm|intros; apply preserves_ret]).
  intros Hd. revert d Hd. change (preserves signer_ok (run_signer_op op)). destruct op; simpl; apply Hu; intros d Hd.
  - by apply incoming_ok.
  - by apply out_seq_ok.
  - by apply put_snapshot_ok.
  - by apply put_signature_ok.
  - by apply activate_ok.
  - by apply artifact_ok.
  - by apply enqueue_ok.
  - by apply status_ok.
  - by apply start_ok.
  - by apply complete_ok.
  - by apply complete_with_ok.
  - by apply abort_ok.
  - by apply jti_ok.
  - by apply sign_event_ok.
  - by apply audit_ok.
Qed.

Lemma run_signer_ok ops d : signer_ok d -> signer_ok (run_signer ops d).1.
Proof. apply run_signer_ind. apply run_signer_op_ok. Qed.
End runs.

#[export] Hint Resolve empty_signer_ok run_signer_op_ok run_signer_ok : preserve.
