(* ===== verification/SignerProps.v ===== *)
(** * The signer's database: properties

    Over arbitrary sequences of writes: sequence numbers are accepted and
    handed out in order, a token id is consumed once, a request id goes
    through its life cycle once and its answer never changes, sign events and
    the audit log only grow, and an escrow has one active snapshot, which had
    its quorum of signatures. *)

From S2P Require Import Prelude RustString Sql SignerDb SignerInv.
From Stdlib Require Import Sorting.Sorted.

(** ** What an operation leaves alone *)

Lemma frame_of {T A} (proj : sdb -> T) (m : M sdb string A) d :
  preserves (fun d' => proj d' = proj d) m -> proj (m d).1 = proj d.
Proof. intros Hp. by apply Hp. Qed.

(** Proves [preserves (fun d' => proj d' = proj d) m] for an [m] that writes
    other tables. *)
Ltac frame_step :=
  first [ apply preserves_transaction | apply preserves_in_tx | apply preserves_commit
        | apply preserves_lift | apply preserves_get | apply preserves_ret
        | apply preserves_write; intros; assumption
        | apply preserves_modify; intros; assumption
        | apply preserves_bind; [|intros] ].
Ltac frame_exec := intros ? ?; unfold exec_on; repeat case_match; simpl; assumption.
Ltac frame op :=
  destruct op; try done; intros _ ?; apply frame_of; simpl; unfold record_incoming_seq_sync, next_out_seq_sync, put_snapshot_pending_sync,
    put_snapshot_signature_sync, activate_snapshot_sync, upsert_escrow_admission_artifact_sync,
    enqueue_pending_tx_sync, set_pending_status_sync, start_sign_request_sync,
    complete_sign_request_sync, complete_sign_request_with_result_sync, complete_update,
    abort_sign_request_sync, consume_action_jti_sync, record_sign_event_sync, append_audit_log_sync;
    repeat first [frame_step | frame_exec].

Section frames.
Context `{SignerExt}.

Definition is_incoming (op : SignerOp) : bool := match op with OpIncoming _ _ _ _ => true | _ => false end.
Definition is_out_seq (op : SignerOp) : bool := match op with OpOutSeq _ _ _ => true | _ => false end.
Definition is_consume (op : SignerOp) : bool :=
  match op with OpConsumeJti _ _ _ _ _ _ _ => true | _ => false end.
Definition is_event (op : SignerOp) : bool :=
  match op with OpSignEvent _ _ _ _ _ _ _ => true | _ => false end.
Definition is_audit (op : SignerOp) : bool := match op with OpAudit _ _ => true | _ => false end.
Definition is_snapshot_op (op : SignerOp) : bool :=
  match op with OpPutSnapshot _ _ _ _ | OpActivate _ _ => true | _ => false end.
Definition is_request_op (op : SignerOp) : bool :=
  match op with
  | OpStart _ _ _ _ _ _ _ | OpComplete _ _ | OpCompleteWith _ _ _ _ _ | OpAbort _ => true
  | _ => false
  end.

Lemma frame_incoming op : is_incoming op = false -> forall d, incoming_seen (run_signer_op op d).1 = incoming_seen d.
Proof. frame op. Qed.
Lemma frame_out_seq op : is_out_seq op = false -> forall d, out_seq (run_signer_op op d).1 = out_seq d.
Proof. frame op. Qed.
Lemma frame_jti op : is_consume op = false -> forall d, consumed_action_jti (run_signer_op op d).1 = consumed_action_jti d.
Proof. frame op. Qed.
Lemma frame_events op : is_event op = false -> forall d, sign_events (run_signer_op op d).1 = sign_events d.
Proof. frame op. Qed.
Lemma frame_audit op : is_audit op = false -> forall d, audit_log (run_signer_op op d).1 = audit_log d.
Proof. frame op. Qed.
Lemma frame_snapshots op : is_snapshot_op op = false -> forall d, snapshots (run_signer_op op d).1 = snapshots d.
Proof. frame op. Qed.
Lemma frame_requests op : is_request_op op = false -> forall d,
  sign_request_dedup (run_signer_op op d).1 = sign_request_dedup d.
Proof. frame op. Qed.
Lemma frame_results op : is_request_op op = false -> forall d,
  sign_request_result (run_signer_op op d).1 = sign_request_result d.
Proof. frame op. Qed.

(** The outcomes of a run, tagged with their operations. *)
Definition collect {A} (f : SignerOp -> result string (option Z) -> list A)
    (ops : list SignerOp) (rs : list (result string (option Z))) : list A :=
  concat (zip_with f ops rs).

(** Lifts a step equation on a log of the database to runs. *)
Lemma run_collect {A} (f : SignerOp -> result string (option Z) -> list A) (log : sdb -> list A) ops d :
  (forall op d, signer_ok d -> log (run_signer_op op d).1 = log d ++ f op (run_signer_op op d).2) ->
  signer_ok d -> log (run_signer ops d).1 = log d ++ collect f ops (run_signer ops d).2.
Proof.
  intros Hstep. revert d. induction ops as [|op ops IH]; intros d Hd; simpl.
  - by rewrite app_nil_r.
  - pose proof (Hstep op d Hd) as H1. pose proof (run_signer_op_ok op d Hd) as H2.
    destruct (run_signer_op op d) as [d1 r]. simpl in *. specialize (IH d1 H2).
    destruct (run_signer ops d1) as [d2 rs]. simpl in *. unfold collect in *. simpl.
    by rewrite IH, H1, app_assoc.
Qed.
End frames.

(** ** Incoming sequence numbers *)

Section sequences.
Context `{SignerExt}.

(** A successful [record_incoming_seq] on a channel, by its number. *)
Definition accepted_of (e f : string) (op : SignerOp) (r : result string (option Z)) : list Z :=
  match op, r with
  | OpIncoming _ e' f' seq, Ok _ => if (e' =? e)%string && (f' =? f)%string then [seq] else []
  | _, _ => []
  end.
Definition accepted (e f : string) : list SignerOp -> list (result string (option Z)) -> list Z :=
  collect (accepted_of e f).

Lemma seen_seqs_step e f op d :
  seen_seqs e f (run_signer_op op d).1 =
    seen_seqs e f d ++ map to_i64 (accepted_of e f op (run_signer_op op d).2).
Proof.
  destruct (is_incoming op) eqn:Ei.
  2:{ unfold seen_seqs. rewrite frame_incoming by done. by destruct op; rewrite ?app_nil_r. }
  destruct op as [now e' f' seq| | | | | | | | | | | | | |]; try done. simpl.
  rewrite sbind_run. destruct (incoming_run now e' f' seq d) as [err ->].
  destruct (fresh_seq _ _ _ _); simpl; [|by rewrite app_nil_r].
  unfold seen_seqs. simpl. rewrite List.filter_app, map_app. f_equal. unfold on_channel. simpl.
  by destruct (_ && _).
Qed.

Lemma fresh_sorted e f op d :
  StronglySorted Z.lt (seen_seqs e f d) -> StronglySorted Z.lt (seen_seqs e f (run_signer_op op d).1).
Proof.
  intros Hs. rewrite seen_seqs_step. destruct op as [now e' f' seq| | | | | | | | | | | | | |];
    simpl accepted_of; simpl map; rewrite ?app_nil_r; try done.
  simpl run_signer_op. rewrite sbind_run. destruct (incoming_run now e' f' seq d) as [err ->].
  destruct (fresh_seq e' f' (to_i64 seq) d) eqn:Ef; simpl; rewrite ?app_nil_r; [|done].
  destruct (String.eqb_spec e' e) as [->|]; simpl; rewrite ?app_nil_r; [|done].
  destruct (String.eqb_spec f' f) as [->|]; simpl; rewrite ?app_nil_r; [|done].
  apply sorted_snoc; [done|]. rewrite Forall_forall. by apply fresh_seq_spec.
Qed.

Lemma to_i64_lt a b : to_i64 a < to_i64 b -> a < b.
Proof. mlia. Qed.

Lemma sorted_unmap (l : list Z) : StronglySorted Z.lt (map to_i64 l) -> StronglySorted Z.lt l.
Proof.
  induction l as [|x l IH]; simpl; [constructor|]. intros [Hs Hx]%StronglySorted_inv.
  constructor; [by apply IH|]. rewrite Forall_map in Hx. eapply Forall_impl; [exact Hx|].
  intros y. apply to_i64_lt.
Qed.

Lemma seen_after_run e f ops :
  seen_seqs e f (run_signer ops empty_sdb).1 = map to_i64 (accepted e f ops (run_signer ops empty_sdb).2).
Proof.
  assert (seen_seqs e f (run_signer ops empty_sdb).1 = seen_seqs e f empty_sdb ++
    collect (fun op r => map to_i64 (accepted_of e f op r)) ops (run_signer ops empty_sdb).2) as ->.
  { apply (run_collect _ (seen_seqs e f)); [|apply empty_signer_ok]. intros op d _. apply seen_seqs_step. }
  simpl. unfold accepted, collect. generalize (run_signer ops empty_sdb).2 as rs.
  induction ops as [|op ops IH]; intros [|r rs]; simpl; [done..|]. by rewrite map_app, IH.
Qed.

Lemma fresh_elems (l : list Z) q :
  (forall x, x ∈ map to_i64 l -> x < q) <-> (forall x, x ∈ l -> to_i64 x < q).
Proof. setoid_rewrite list_elem_of_fmap. naive_solver. Qed.

(** C20. Whatever is written to the database and in whatever order, the
    sequence numbers accepted from a sender on an escrow are strictly
    increasing, so that no message is accepted twice; and the next number is
    accepted exactly when it is larger than all of them (as stored, where a
    number beyond [i64::MAX] counts as [i64::MAX]). *)
Theorem incoming_never_replayed e f ops :
  let d := (run_signer ops empty_sdb).1 in
  let acc := accepted e f ops (run_signer ops empty_sdb).2 in
  StronglySorted Z.lt acc /\
  forall now seq, is_ok (record_incoming_seq_sync now e f seq d).2 = true <->
    forall x, x ∈ acc -> to_i64 x < to_i64 seq.
Proof.
  intros d acc. pose proof (seen_after_run e f ops) as Hseen. fold d acc in Hseen. split.
  - apply sorted_unmap. rewrite <- Hseen. unfold d.
    apply (run_signer_ind (fun d => StronglySorted Z.lt (seen_seqs e f d))); [|constructor].
    intros op d'. apply fresh_sorted.
  - intros now seq. destruct (incoming_run now e f seq d) as [err ->].
    rewrite <- (fresh_elems acc), <- Hseen, <- fresh_seq_spec. by destruct (fresh_seq _ _ _ _).
Qed.

(** ** Outgoing sequence numbers *)

Definition issued_of (e f : string) (op : SignerOp) (r : result string (option Z)) : list Z :=
  match op, r with
  | OpOutSeq _ e' f', Ok (Some n) => if (e' =? e)%string && (f' =? f)%string then [n] else []
  | _, _ => []
  end.
(** The numbers [next_out_seq] handed out on a channel. *)
Definition issued (e f : string) : list SignerOp -> list (result string (option Z)) -> list Z :=
  collect (issued_of e f).
(** How often it was called. *)
Definition out_calls (e f : string) (ops : list SignerOp) : nat :=
  length (List.filter (fun op => match op with
    | OpOutSeq _ e' f' => (e' =? e)%string && (f' =? f)%string | _ => false end) ops).
Definition last_seq (e f : string) (d : sdb) : Z := default 0 (last_out_seq e f (out_seq d)).

Lemma last_seq_step e f op d :
  signer_ok d ->
  last_seq e f (run_signer_op op d).1 =
    match issued_of e f op (run_signer_op op d).2 with n :: _ => n | [] => last_seq e f d end /\
  issued_of e f op (run_signer_op op d).2 =
    match op with
    | OpOutSeq _ e' f' => if (e' =? e)%string && (f' =? f)%string then [next_seq e f d] else []
    | _ => []
    end.
Proof.
  intros Hd. destruct (is_out_seq op) eqn:Ei.
  2:{ unfold last_seq. rewrite frame_out_seq by done. by destruct op. }
  destruct op as [|now e' f'| | | | | | | | | | | | |]; try done.
  change (run_signer_op _ d) with (sbind (next_out_seq_sync now e' f') (fun n => sret (Some n)) d).
  rewrite sbind_run, out_seq_run. unfold sret, issued_of, last_seq, last_out_seq. cbn [fst snd set_out_seq out_seq].
  rewrite (find_upserted_key out_seq_key _ (e, f)); [..|apply out_seq_same_spec|done]; simpl.
  - destruct (String.eqb_spec e' e) as [->|]; simpl; [|done].
    destruct (String.eqb_spec f' f) as [->|]; simpl; [|done]. by destruct (List.find _ _).
  - intros x. unfold out_seq_key. rewrite andb_true_iff, !String.eqb_eq. naive_solver.
Qed.

Lemma next_seq_last e f d : signer_ok d -> next_seq e f d = Z.min (last_seq e f d + 1) I64_MAX.
Proof. intros Hd. pose proof (last_out_seq_range e f d Hd). unfold next_seq, last_seq. mlia. Qed.

Lemma issued_from e f ops d :
  signer_ok d ->
  issued e f ops (run_signer ops d).2 =
    map (fun k => Z.min (last_seq e f d + Z.of_nat k) I64_MAX) (seq 1 (out_calls e f ops)).
Proof.
  revert d. induction ops as [|op ops IH]; intros d Hd; [done|]. unfold issued, collect, out_calls in *. simpl.
  destruct (last_seq_step e f op d Hd) as [Hlast Hiss]. pose proof (run_signer_op_ok op d Hd) as Hd1.
  pose proof (next_seq_last e f d Hd) as Hnext. pose proof (last_out_seq_range e f d Hd) as Hr.
  fold (last_seq e f d) in Hr.
  destruct (run_signer_op op d) as [d1 r]. cbn [fst snd] in *. specialize (IH d1 Hd1).
  destruct (run_signer ops d1) as [d2 rs]. simpl in *. rewrite IH, Hiss, Hlast, Hiss.
  set (hit := match op with OpOutSeq _ e' f' => (e' =? e)%string && (f' =? f)%string | _ => false end).
  replace (match op with OpOutSeq _ e' f' => if (e' =? e)%string && (f' =? f)%string
             then [next_seq e f d] else [] | _ => [] end)
    with (if hit then [next_seq e f d] else []) by (by destruct op).
  destruct hit; [|done]. simpl. f_equal; [lia|].
  rewrite <- (seq_shift _ 1), map_map. apply map_ext. intros k. rewrite Hnext. lia.
Qed.

(** [next_out_seq] always succeeds and hands out 1, 2, 3, .. on each
    channel, whatever happens to the rest of the database and to the other
    channels; at [i64::MAX] it stays there. *)
Theorem outgoing_consecutive e f ops :
  issued e f ops (run_signer ops empty_sdb).2 =
    map (fun k => Z.min (Z.of_nat k) I64_MAX) (seq 1 (out_calls e f ops)).
Proof. rewrite issued_from by apply empty_signer_ok. done. Qed.
End sequences.

(** ** Token ids *)

Section tokens.
Context `{SignerExt}.

(** What a token id was consumed for. *)
Definition jti_binding (r : jti_row) : string * (string * string * string * string) :=
  (cj_jti r, (cj_escrow_id_hex r, cj_op r, cj_sign_round r, cj_req_id r)).
Definition consumed_of (op : SignerOp) (r : result string (option Z))
    : list (string * (string * string * string * string)) :=
  match op, r with
  | OpConsumeJti _ j e o sr q _, Ok _ => [(j, (e, o, sr, q))]
  | _, _ => []
  end.
Definition consumed_in : list SignerOp -> list (result string (option Z)) ->
    list (string * (string * string * string * string)) := collect consumed_of.

Lemma consumed_step op d :
  map jti_binding (consumed_action_jti (run_signer_op op d).1) =
    map jti_binding (consumed_action_jti d) ++ consumed_of op (run_signer_op op d).2.
Proof.
  destruct (is_consume op) eqn:Ei.
  2:{ rewrite frame_jti by done. by destruct op; rewrite ?app_nil_r. }
  destruct op as [| | | | | | | | | | | |now j e o sr q x| |]; try done. simpl.
  rewrite sbind_run, jti_run. destruct (find_jti j d); simpl; [by rewrite app_nil_r|].
  by rewrite map_app.
Qed.

(** C21. Over any sequence of writes a token id is consumed at most once: the
    ids of the successful calls of [consume_action_jti] are pairwise distinct,
    the table remembers exactly what each was consumed for, and a further call
    succeeds exactly for an id that is not among them, the refusal naming the
    replayed id. *)
Theorem jti_consumed_once ops :
  let d := (run_signer ops empty_sdb).1 in
  let used := consumed_in ops (run_signer ops empty_sdb).2 in
  map jti_binding (consumed_action_jti d) = used /\ NoDup (map fst used) /\
  forall now j e o sr q x,
    (consume_action_jti_sync now j e o sr q x d).2 =
      if bool_decide (j ∈ map fst used) then Err ("replayed jti: " +:+ j) else Ok tt.
Proof.
  intros d used.
  assert (map jti_binding (consumed_action_jti d) = used) as Hused.
  { apply (run_collect _ (fun d => map jti_binding (consumed_action_jti d)) ops empty_sdb);
      [|apply empty_signer_ok]. intros op d' _. apply consumed_step. }
  assert (map fst used = map cj_jti (consumed_action_jti d)) as Hfst by (rewrite <- Hused; by rewrite map_map).
  split_and!; [done| |].
  - rewrite Hfst. apply so_jti. apply run_signer_ok, empty_signer_ok.
  - intros now j e o sr q x. rewrite jti_run, Hfst. destruct (find_jti j d) as [r|] eqn:Ef; simpl.
    + rewrite bool_decide_eq_true_2; [done|]. apply find_some_elem in Ef as [Hr <-%String.eqb_eq].
      apply list_elem_of_fmap. eauto.
    + rewrite bool_decide_eq_false_2; [done|]. intros (r & -> & Hr)%list_elem_of_fmap.
      unfold find_jti in Ef. rewrite find_none_elem in Ef. specialize (Ef r Hr). simpl in Ef.
      by rewrite String.eqb_refl in Ef.
Qed.
End tokens.

(** ** The life cycle of a request id *)

(** What a request id was started for. *)
Record request_info : Type := MkInfo {
  ri_escrow_id_hex : string; ri_op : string; ri_sign_round : string; ri_txset_hash_hex : string }.
Inductive req_state : Type :=
| ReqFresh
| ReqOpen (info : request_info)
| ReqDone (info : request_info) (answer : option string).

(** The abstract step: the state of the request id [q] after [op], and
    whether [op], when it is about [q], succeeds. *)
Definition req_step (q : string) (op : SignerOp) (s : req_state) : req_state * bool :=
  match op with
  | OpStart _ _ q' e o sr t =>
      if (q' =? q)%string
      then match s with ReqFresh => (ReqOpen (MkInfo e o sr t), true) | _ => (s, false) end
      else (s, true)
  | OpComplete _ q' =>
      if (q' =? q)%string then match s with ReqOpen i => (ReqDone i None, true) | _ => (s, false) end
      else (s, true)
  | OpCompleteWith _ _ q' _ json =>
      if (q' =? q)%string then match s with ReqOpen i => (ReqDone i (Some json), true) | _ => (s, false) end
      else (s, true)
  | OpAbort q' =>
      if (q' =? q)%string then match s with ReqOpen _ => (ReqFresh, true) | _ => (s, true) end
      else (s, true)
  | _ => (s, true)
  end.
Definition about_request (q : string) (op : SignerOp) : bool :=
  match op with
  | OpStart _ _ q' _ _ _ _ | OpComplete _ q' | OpCompleteWith _ _ q' _ _ | OpAbort q' => (q' =? q)%string
  | _ => false
  end.

Section requests.
Context `{SignerExt}.

Definition info_of (r : request_row) : request_info :=
  let q := rx_request r in MkInfo (rr_escrow_id_hex q) (rr_op q) (rr_sign_round q) (rr_txset_hash_hex q).
Definition answer_of (q : string) (d : sdb) : option string := rs_response_json <$> find_result q d.
(** The state of a request id, read from the two tables. *)
Definition req_view (q : string) (d : sdb) : req_state :=
  match find_request q d with
  | None => ReqFresh
  | Some r => if (rr_status (rx_request r) =? "in_progress")%string then ReqOpen (info_of r)
              else ReqDone (info_of r) (answer_of q d)
  end.

(** An id is open when its row is. *)
Lemma open_find q d :
  signer_ok d -> open_request q d =
    match find_request q d with
    | Some r => (rr_status (rx_request r) =? "in_progress")%string | None => false end.
Proof.
  intros Hd. destruct (find_request q d) as [r|] eqn:Ef.
  - apply find_some_elem in Ef as [Hr Hq%String.eqb_eq].
    destruct (rr_status (rx_request r) =? _)%string eqn:Es.
    + apply existsb_exists. exists r. split; [by apply list_elem_of_In|].
      unfold in_progress. by rewrite Hq, String.eqb_refl, Es.
    + apply existsb_false. intros x Hx. destruct (in_progress q x) eqn:Ep; [|done].
      apply andb_true_iff in Ep as [Hxq%String.eqb_eq Hxs].
      assert (x = r) as -> by (eapply (unique_row request_id); [apply (so_requests _ Hd)|done|done|congruence]).
      congruence.
  - unfold find_request in Ef. rewrite find_none_elem in Ef. apply existsb_false. intros x Hx.
    specialize (Ef x Hx). unfold in_progress, is_request in *. by rewrite Ef.
Qed.

Lemma find_request_completed now q q' d :
  find_request q (set_completed now q' d) =
    (fun r => if in_progress q' r then completed now r else r) <$> find_request q d.
Proof.
  unfold find_request. simpl. rewrite find_update by done. by destruct (List.find _ _).
Qed.

Lemma in_progress_other q q' r : request_id r = q -> (q' =? q)%string = false -> in_progress q' r = false.
Proof. intros <- Hq. unfold in_progress. by rewrite String.eqb_sym, Hq. Qed.

Lemma fresh_no_answer q d : signer_ok d -> find_request q d = None -> answer_of q d = None.
Proof.
  intros Hd Ef. unfold answer_of. destruct (find_result q d) as [s|] eqn:Es; [|done]. exfalso.
  apply find_some_elem in Es as [Hs Hq%String.eqb_eq]. destruct (so_results _ Hd) as [_ Hres].
  destruct (Hres s Hs) as (r & Hr & Hrq & _). unfold find_request in Ef. rewrite find_none_elem in Ef.
  specialize (Ef r Hr). unfold is_request in Ef. rewrite Hrq, Hq in Ef. by rewrite String.eqb_refl in Ef.
Qed.

Lemma open_no_answer q d : signer_ok d -> open_request q d = true -> answer_of q d = None.
Proof.
  intros Hd Ho. unfold answer_of. destruct (find_result q d) as [s|] eqn:Es; [|done]. exfalso.
  apply find_some_elem in Es as [Hs Hq]. by rewrite (open_no_result q d s) in Hq.
Qed.

Lemma answer_add now q q' op json d :
  answer_of q (add_result now q' op json d) =
    match answer_of q d with Some a => Some a | None => if (q' =? q)%string then Some json else None end.
Proof.
  unfold answer_of, find_result. simpl. rewrite find_app_fresh.
  destruct (List.find _ _); [done|]. unfold is_result. simpl. by destruct (q' =? q)%string.
Qed.

(** The view after each of the four writes. *)
Lemma view_completed now q q' d :
  signer_ok d ->
  req_view q (set_completed now q' d) =
    if (q' =? q)%string then match req_view q d with ReqOpen i => ReqDone i None | s => s end
    else req_view q d.
Proof.
  intros Hd. unfold req_view. rewrite find_request_completed.
  change (answer_of q (set_completed now q' d)) with (answer_of q d).
  pose proof (open_find q d Hd) as Ho. pose proof (open_no_answer q d Hd) as Ha.
  destruct (find_request q d) as [r|] eqn:Ef; simpl; [|by destruct (q' =? q)%string].
  apply find_some_elem in Ef as [_ Hq%String.eqb_eq]. destruct (q' =? q)%string eqn:Eq.
  - apply String.eqb_eq in Eq as ->. unfold in_progress. rewrite Hq, String.eqb_refl. simpl.
    destruct (rr_status (rx_request r) =? "in_progress")%string eqn:Es; simpl; [by rewrite Ha|by rewrite Es].
  - by rewrite (in_progress_other q q' r).
Qed.

Lemma view_add_request r q d :
  req_view q (add_request r d) =
    match find_request q d with
    | Some _ => req_view q d
    | None => if is_request q r then
                if (rr_status (rx_request r) =? "in_progress")%string then ReqOpen (info_of r)
                else ReqDone (info_of r) (answer_of q d)
              else ReqFresh
    end.
Proof.
  unfold req_view, find_request. simpl. rewrite find_app_fresh.
  change (answer_of q (add_request r d)) with (answer_of q d).
  destruct (List.find _ _); [done|]. by destruct (is_request q r).
Qed.

Lemma view_add_result now q q' op json d :
  req_view q (add_result now q' op json d) =
    match req_view q d with
    | ReqDone i None => ReqDone i (if (q' =? q)%string then Some json else None)
    | s => s
    end.
Proof.
  unfold req_view. change (find_request q (add_result now q' op json d)) with (find_request q d).
  rewrite answer_add. destruct (find_request q d); [|done]. destruct (_ =? "in_progress")%string; [done|].
  by destruct (answer_of q d).
Qed.

Lemma find_deleted {R} (p q : R -> bool) (l : list R) :
  (forall x, x ∈ l -> p x = true -> q x = false) -> List.find p (delete_rows q l) = List.find p l.
Proof.
  induction l as [|x l IH]; intros Hx; [done|]. unfold delete_rows in *. simpl.
  assert (forall y, y ∈ l -> p y = true -> q y = false) as Hl by (intros y ?; apply Hx; set_solver).
  destruct (q x) eqn:Eq; simpl; [|by destruct (p x); [|apply IH]].
  destruct (p x) eqn:Ep; [|by apply IH]. rewrite Hx in Eq; [done|set_solver|done].
Qed.

Lemma view_aborted q q' d :
  signer_ok d ->
  req_view q (set_sign_request_dedup (delete_rows (in_progress q') (sign_request_dedup d)) d) =
    if (q' =? q)%string then match req_view q d with ReqOpen _ => ReqFresh | s => s end else req_view q d.
Proof.
  intros Hd. unfold req_view, find_request. simpl.
  change (answer_of q (set_sign_request_dedup _ d)) with (answer_of q d).
  destruct (q' =? q)%string eqn:Eq.
  - apply String.eqb_eq in Eq as ->. pose proof (open_find q d Hd) as Ho. unfold find_request in Ho.
    destruct (List.find (is_request q) (sign_request_dedup d)) as [r|] eqn:Ef.
    + destruct (rr_status (rx_request r) =? "in_progress")%string eqn:Es.
      * rewrite (proj2 (find_none_elem _ _)); [done|]. intros x [Hx Hp]%elem_of_delete.
        destruct (is_request q x) eqn:Ex; [|done]. exfalso.
        apply find_some_elem in Ef as [Hr Hq%String.eqb_eq]. apply String.eqb_eq in Ex as Hxq.
        assert (x = r) as -> by (eapply (unique_row request_id); [apply (so_requests _ Hd)|done|done|congruence]).
        unfold in_progress in Hp. rewrite Hq, String.eqb_refl, Es in Hp. done.
      * rewrite find_deleted, Ef, Es; [done|]. intros x Hx _. unfold open_request in Ho.
        rewrite existsb_false in Ho. by apply Ho.
    + rewrite find_deleted, Ef; [done|]. intros x Hx _. unfold open_request in Ho.
      rewrite existsb_false in Ho. by apply Ho.
  - rewrite find_deleted; [done|]. intros x _ Hx%String.eqb_eq. by apply (in_progress_other q).
Qed.

Lemma open_view q d : signer_ok d -> open_request q d = match req_view q d with ReqOpen _ => true | _ => false end.
Proof.
  intros Hd. rewrite open_find by done. unfold req_view. destruct (find_request q d); [|done].
  by destruct (_ =? "in_progress")%string.
Qed.

Lemma fresh_view q d : find_request q d = None <-> req_view q d = ReqFresh.
Proof. unfold req_view. destruct (find_request q d); [|done]. by case_match. Qed.

Lemma request_step_refines q op d :
  signer_ok d ->
  req_view q (run_signer_op op d).1 = (req_step q op (req_view q d)).1 /\
  (about_request q op = true -> is_ok (run_signer_op op d).2 = (req_step q op (req_view q d)).2).
Proof.
  intros Hd. destruct (is_request_op op) eqn:Ei.
  2:{ unfold req_view, find_request, answer_of, find_result.
      rewrite frame_requests, frame_results by done. by destruct op. }
  destruct op as [| | | | | | | |now now2 q' e o sr t|now q'|now now2 q' o json|q'| | |]; try done;
    cbn [run_signer_op about_request req_step]; rewrite sbind_run.
  - rewrite start_run. pose proof (fresh_view q' d) as Hf. destruct (find_request q' d) as [r|] eqn:Ef; simpl.
    + destruct (String.eqb_spec q' q) as [->|]; simpl; [|done].
      destruct (req_view q d) eqn:Ev; [|done..]. discriminate (proj2 Hf eq_refl).
    + rewrite view_add_request. unfold is_request. cbn [request_id rx_request rr_req_id new_request].
      destruct (String.eqb_spec q' q) as [->|]; simpl.
      * by rewrite Ef, (proj1 Hf).
      * unfold req_view. by destruct (find_request q d).
  - unfold complete_sign_request_sync. destruct (complete_update_run now q' d) as [err ->].
    rewrite open_view by done. destruct (String.eqb_spec q' q) as [->|Hne].
    + destruct (req_view q d) eqn:Ev; simpl; [by rewrite Ev| |by rewrite Ev].
      by rewrite view_completed, String.eqb_refl, Ev.
    + destruct (req_view q' d); simpl; [done| |done]. rewrite view_completed by done.
      by rewrite (proj2 (String.eqb_neq _ _)).
  - destruct (complete_with_run now now2 q' o json d Hd) as [err ->].
    rewrite open_view by done. destruct (String.eqb_spec q' q) as [->|Hne].
    + destruct (req_view q d) eqn:Ev; simpl; [by rewrite Ev| |by rewrite Ev].
      by rewrite view_add_result, view_completed, String.eqb_refl, Ev.
    + destruct (req_view q' d); simpl; [done| |done]. rewrite view_add_result, view_completed by done.
      rewrite (proj2 (String.eqb_neq q' q)) by done. by destruct (req_view q d) as [| |? []].
  - unfold abort_sign_request_sync, smodify. simpl. rewrite view_aborted by done.
    destruct (String.eqb_spec q' q) as [->|]; [|done]. by destruct (req_view q d).
Qed.

(** The abstract run, and the successes of its operations on [q]. *)
Fixpoint req_run (q : string) (ops : list SignerOp) (s : req_state) : req_state * list bool :=
  match ops with
  | [] => (s, [])
  | op :: rest =>
      let '(s1, b) := req_step q op s in
      let '(s2, bs) := req_run q rest s1 in (s2, if about_request q op then b :: bs else bs)
  end.
Definition answers_on (q : string) : list SignerOp -> list (result string (option Z)) -> list bool :=
  collect (fun op r => if about_request q op then [is_ok r] else []).

Lemma request_run_refines q ops d :
  signer_ok d ->
  (req_view q (run_signer ops d).1, answers_on q ops (run_signer ops d).2) = req_run q ops (req_view q d).
Proof.
  revert d. induction ops as [|op ops IH]; intros d Hd; [done|]. simpl.
  destruct (request_step_refines q op d Hd) as [Hv Ha]. pose proof (run_signer_op_ok op d Hd) as Hd1.
  destruct (run_signer_op op d) as [d1 r]. cbn [fst snd] in *.
  destruct (req_step q op (req_view q d)) as [s1 b]. cbn [fst snd] in *. subst s1.
  specialize (IH d1 Hd1). destruct (run_signer ops d1) as [d2 rs]. simpl in *. rewrite <- IH.
  unfold answers_on, collect in *. simpl. destruct (about_request q op); [|done].
  by rewrite Ha.
Qed.

Lemma done_row q d i a :
  signer_ok d -> req_view q d = ReqDone i a ->
  exists r, find_request q d = Some r /\ rr_status (rx_request r) = "completed"%string /\
    info_of r = i /\ answer_of q d = a.
Proof.
  intros Hd. unfold req_view. destruct (find_request q d) as [r|] eqn:Ef; [|done].
  destruct (_ =? "in_progress")%string eqn:Es; [done|]. intros [= <- <-]. exists r. split_and!; try done.
  apply find_some_elem in Ef as [Hr _]. destruct (so_requests _ Hd) as [_ Hst].
  rewrite Forall_forall in Hst. specialize (Hst r Hr). unfold is_one_of, request_statuses in Hst. simpl in Hst.
  rewrite Es in Hst. simpl in Hst. rewrite orb_false_r in Hst. by apply String.eqb_eq.
Qed.

Lemma done_run q ops i a : (req_run q ops (ReqDone i a)).1 = ReqDone i a.
Proof.
  induction ops as [|op ops IH]; [done|]. simpl.
  assert ((req_step q op (ReqDone i a)).1 = ReqDone i a) as Hs by (destruct op; simpl; repeat case_match; done).
  destruct (req_step q op (ReqDone i a)) as [s1 b]. simpl in Hs. subst s1.
  by destruct (req_run q ops (ReqDone i a)).
Qed.

(** C22. The dedup and result tables implement, for every request id, a small
    automaton: fresh, open, done with an optional answer.  Over any sequence of
    writes the state of the id and the success or failure of each call about
    it are those of the automaton, and calls about other ids do not matter. *)
Theorem request_lifecycle q ops :
  req_run q ops ReqFresh =
    (req_view q (run_signer ops empty_sdb).1, answers_on q ops (run_signer ops empty_sdb).2).
Proof. symmetry. apply (request_run_refines q ops empty_sdb), empty_signer_ok. Qed.

(** Once a request is completed with an answer, every later look-up of
    its id returns that answer, byte for byte, and the request as it was
    started, with status completed; starting the id again is refused. *)
Theorem answer_is_final pre now now2 q op json post :
  let d := (run_signer pre empty_sdb).1 in
  is_ok (complete_sign_request_with_result_sync now now2 q op json d).2 = true ->
  let d1 := (complete_sign_request_with_result_sync now now2 q op json d).1 in
  let d2 := (run_signer post d1).1 in
  (get_sign_request_result_sync q d2).2 = Ok (Some json) /\
  (exists r, (get_sign_request_sync q d2).2 = Ok (Some r) /\ rr_status r = "completed"%string /\
     forall r0, (get_sign_request_sync q d).2 = Ok (Some r0) ->
       (rr_escrow_id_hex r, rr_op r, rr_sign_round r, rr_txset_hash_hex r)
       = (rr_escrow_id_hex r0, rr_op r0, rr_sign_round r0, rr_txset_hash_hex r0)) /\
  forall t1 t2 e o sr t, start_sign_request_sync t1 t2 q e o sr t d2 = (d2, Err ("duplicate req_id: " +:+ q)).
Proof.
  intros d Hok d1 d2. assert (signer_ok d) as Hd by apply run_signer_ok, empty_signer_ok.
  assert (exists i, req_view q d = ReqOpen i /\ req_view q d1 = ReqDone i (Some json)) as (i & Hv & Hv1).
  { unfold d1. destruct (complete_with_run now now2 q op json d Hd) as [err Hrun]. rewrite Hrun in Hok |- *.
    rewrite open_view in Hok |- * by done. destruct (req_view q d) as [|i|] eqn:Ev; [done| |done].
    exists i. simpl. by rewrite view_add_result, view_completed, String.eqb_refl, Ev. }
  assert (signer_ok d1) as Hd1 by by apply complete_with_ok.
  assert (req_view q d2 = ReqDone i (Some json)) as Hv2.
  { pose proof (request_run_refines q post d1 Hd1) as Hr. rewrite Hv1 in Hr. fold d2 in Hr.
    pose proof (done_run q post i (Some json)) as Hdone. rewrite <- Hr in Hdone. exact Hdone. }
  assert (signer_ok d2) as Hd2 by by apply run_signer_ok.
  destruct (done_row q d2 i (Some json) Hd2 Hv2) as (r & Hf & Hs & Hi & Ha). splits.
  - unfold get_sign_request_result_sync, sget. simpl. f_equal. exact Ha.
  - exists (rx_request r). unfold get_sign_request_sync, sget. simpl. fold (is_request q) (find_request q d2).
    split; [by rewrite Hf|]. split; [done|]. intros r0 Hr0. unfold req_view in Hv.
    fold (is_request q) (find_request q d) in Hr0. destruct (find_request q d) as [x|]; [|done].
    simpl in Hr0. injection Hr0 as <-. destruct (_ =? "in_progress")%string; [|done].
    injection Hv as <-. unfold info_of in Hi. congruence.
  - intros t1 t2 e o sr t. rewrite start_run, Hf. done.
Qed.
End requests.

(** ** Snapshots *)

Section snapshots.
Context `{SignerExt}.

Definition active_for (e : string) (r : snapshot_row) : bool :=
  (sp_escrow_id_hex r =? e)%string && (sp_status r =? "active")%string.
Definition active_snapshot (e : string) (d : sdb) : option SnapshotRow :=
  match (active_snapshot_for_escrow_sync e d).2 with Ok s => s | Err _ => None end.

Lemma active_for_spec e r :
  active_for e r = true <-> sp_escrow_id_hex r = e /\ sp_status r = "active"%string.
Proof. unfold active_for. by rewrite andb_true_iff, !String.eqb_eq. Qed.

Lemma active_snapshot_spec e d s :
  signer_ok d ->
  active_snapshot e d = Some s <-> exists r, r ∈ snapshots d /\ active_for e r = true /\
    s = MkSnapshotRow (sp_hash_hex r) (sp_snapshot_json r).
Proof.
  intros Hd. unfold active_snapshot, active_snapshot_for_escrow_sync, sget. simpl.
  fold (active_for e). set (l := order_desc _ _).
  assert (forall r, r ∈ l <-> r ∈ snapshots d /\ active_for e r = true) as Hl.
  { intros r. unfold l, order_desc. rewrite elem_of_order_by, list_elem_of_In, List.filter_In.
    by rewrite list_elem_of_In. }
  destruct l as [|r0 l'].
  - split; [done|]. intros (r & Hr & Ha & _). destruct (not_elem_of_nil r). by apply Hl.
  - destruct (proj1 (Hl r0)) as [Hr0 Ha0]; [set_solver|]. split.
    + intros [= <-]. by exists r0.
    + intros (r & Hr & Ha & ->). apply active_for_spec in Ha0, Ha. destruct (so_snapshots _ Hd) as (Hn & _ & Hu).
      assert (r = r0) as ->; [|done]. eapply (unique_row sp_hash_hex); [done..|]. apply Hu; naive_solver.
Qed.

(** [activate_snapshot] succeeds exactly when the snapshot is stored and
    has at least [quorum] signatures, and changes nothing otherwise.  After a
    success it is the snapshot in force of its escrow, and the snapshots in
    force of the other escrows are what they were. *)
Theorem activation_exact ops h quorum :
  let d := (run_signer ops empty_sdb).1 in
  let d' := (activate_snapshot_sync h quorum d).1 in
  if quorum <=? sig_count h d
  then match find_snapshot h d with
       | Some row => (activate_snapshot_sync h quorum d).2 = Ok tt /\
           active_snapshot (sp_escrow_id_hex row) d' = Some (MkSnapshotRow h (sp_snapshot_json row)) /\
           forall e, e <> sp_escrow_id_hex row -> active_snapshot e d' = active_snapshot e d
       | None => d' = d /\ is_err (activate_snapshot_sync h quorum d).2 = true
       end
  else d' = d /\ is_err (activate_snapshot_sync h quorum d).2 = true.
Proof.
  intros d d'. assert (signer_ok d) as Hd by apply run_signer_ok, empty_signer_ok.
  assert (signer_ok d') as Hd' by by apply activate_ok.
  subst d'. destruct (activate_run h quorum d) as [err Hrun]. rewrite Hrun in Hd' |- *.
  destruct (quorum <=? sig_count h d); [|done].
  destruct (find_snapshot h d) as [row|] eqn:Ef; [|done]. apply find_some_elem in Ef as [Hrow Hh%String.eqb_eq].
  split; [done|]. cbn [fst snd] in *. split.
  - apply active_snapshot_spec; [done|]. exists (activated_row row row). simpl. rewrite activated_map.
    split; [apply list_elem_of_fmap; eauto|]. unfold activated_row. rewrite String.eqb_refl. simpl.
    rewrite active_for_spec. by rewrite <- Hh.
  - intros e He. apply option_eq. intros s. rewrite !active_snapshot_spec by done. simpl. rewrite activated_map.
    split.
    + intros (r & (x & -> & Hx)%list_elem_of_fmap & [Hre Hra]%active_for_spec & ->).
      destruct (activated_row_fields row x) as (Eh & Ee & Ej). rewrite Eh, Ej. rewrite Ee in Hre.
      exists x. split; [done|]. split; [|done]. apply active_for_spec. split; [done|].
      apply activated_status in Hra as [Hk|[_ Hk]]; [|done]. exfalso. apply He.
      assert (x = row) as -> by (eapply (unique_row sp_hash_hex); [apply (so_snapshots _ Hd)|done..]). done.
    + intros (x & Hx & [Hxe Hxa]%active_for_spec & ->). exists x. split; [|split; [by apply active_for_spec|done]].
      apply list_elem_of_fmap. exists x. split; [|done]. unfold activated_row.
      destruct (String.eqb_spec (sp_hash_hex x) (sp_hash_hex row)) as [Hk|_].
      * exfalso. apply He. assert (x = row) as -> by (eapply (unique_row sp_hash_hex); [apply (so_snapshots _ Hd)|done..]). done.
      * by rewrite (proj2 (String.eqb_neq _ _)) by congruence.
Qed.

(** *** Signatures behind the snapshots in force *)

Definition is_signature (op : SignerOp) : bool := match op with OpPutSignature _ => true | _ => false end.

(** The signers on record for a snapshot. *)
Definition signers_of (h : string) (d : sdb) : list string :=
  map (fun r => sg_signer_id (sx_sig r))
    (List.filter (fun r => sg_hash_hex (sx_sig r) =? h)%string (t_rows (snapshot_sigs d))).

Lemma signers_count h d : Z.of_nat (length (signers_of h d)) = sig_count h d.
Proof. unfold signers_of. by rewrite length_map. Qed.

Lemma signers_of_keys h d : signers_of h d = map snd (List.filter (fun k => k.1 =? h)%string (map sig_key (t_rows (snapshot_sigs d)))).
Proof.
  unfold signers_of. induction (t_rows (snapshot_sigs d)) as [|r l IH]; simpl; [done|].
  destruct (_ =? h)%string; simpl; by rewrite IH.
Qed.

(** No signer is counted twice. *)
Lemma signers_distinct h d : signer_ok d -> NoDup (signers_of h d).
Proof.
  intros Hd. rewrite signers_of_keys. destruct (so_sigs _ Hd) as [_ Hn]. revert Hn.
  generalize (map sig_key (t_rows (snapshot_sigs d))) as l. intros l Hn.
  induction Hn as [|k l Hk Hn IH]; simpl; [constructor|].
  destruct (String.eqb_spec k.1 h) as [<-|]; simpl; [|done]. constructor; [|done].
  intros (k' & Hs & Hk')%list_elem_of_fmap. apply Hk.
  apply list_elem_of_In, List.filter_In in Hk' as [Hin Hh%String.eqb_eq]. apply list_elem_of_In.
  destruct k as [h1 s1], k' as [h2 s2]. simpl in *. by subst.
Qed.

Lemma frame_sigs op : is_signature op = false -> forall d, snapshot_sigs (run_signer_op op d).1 = snapshot_sigs d.
Proof. frame op. Qed.

(** Signatures are never removed. *)
Lemma sig_count_mono h op d : sig_count h d <= sig_count h (run_signer_op op d).1.
Proof.
  destruct (is_signature op) eqn:Ei; [|unfold sig_count; rewrite frame_sigs by done; lia].
  destruct op as [| | |sig| | | | | | | | | | |]; try done. simpl. unfold put_snapshot_signature_sync.
  rewrite sbind_run, write_on_run. destruct (upsert_auto _ _ _ _ _ _) as [t|] eqn:Eu; [|simpl; lia].
  apply upsert_auto_ok in Eu as [_ Eu]. unfold sig_count. simpl. rewrite Eu. unfold upserted.
  destruct (existsb _ _); [|rewrite count_rows_app; pose proof (count_rows_nonneg
    (fun r => sg_hash_hex (sx_sig r) =? h)%string [SigRow (t_seq (snapshot_sigs d) + 1) (MkSnapshotSig
      (sg_signer_id sig) (sg_sig_pk_b64 sig) (sg_sig_b64 sig) (sg_hash_hex sig) (sg_alg sig)
      (to_i64 (sg_created_at_unix_ms sig)))]); lia].
  rewrite count_update_id; [lia|]. intros r Hr. apply sig_same_spec in Hr. unfold sig_key in Hr. simpl in *.
  injection Hr as -> _. done.
Qed.

Definition quorums_at_least (k : Z) (ops : list SignerOp) : Prop :=
  Forall (fun op => match op with OpActivate _ quorum => k <= quorum | _ => True end) ops.
(** Every snapshot in force has [k] signatures. *)
Definition active_signed (k : Z) (d : sdb) : Prop :=
  forall r, r ∈ snapshots d -> sp_status r = "active"%string -> k <= sig_count (sp_hash_hex r) d.

Lemma active_signed_step k op d :
  match op with OpActivate _ quorum => k <= quorum | _ => True end ->
  signer_ok d -> active_signed k d -> active_signed k (run_signer_op op d).1.
Proof.
  intros Hq Hd Ha. assert (forall r, r ∈ snapshots d -> sp_status r = "active"%string ->
    k <= sig_count (sp_hash_hex r) (run_signer_op op d).1) as Hold.
  { intros r Hr Hs. etrans; [by apply Ha|]. apply sig_count_mono. }
  destruct (is_snapshot_op op) eqn:Ei.
  2:{ intros r. rewrite frame_snapshots by done. apply Hold. }
  destruct op as [| |now e h j| |h quorum| | | | | | | | | |]; try done; simpl in Hold |- *; intros r.
  - unfold put_snapshot_pending_sync in *. rewrite sbind_run, write_on_run in *.
    destruct (upsert_row _ _ _ _ _ _) as [l|] eqn:Eu; [|apply Hold]. simpl.
    apply upsert_row_ok in Eu as (_ & -> & _). unfold upserted. destruct (existsb _ _).
    + intros (x & Hx & ->)%elem_of_update. destruct (snapshot_same _ x); exact (Ha x Hx).
    + intros [Hr| ->%list_elem_of_singleton]%elem_of_app; [exact (Ha r Hr)|done].
  - rewrite sbind_run in *. destruct (activate_run h quorum d) as [err Hrun]. rewrite Hrun in *.
    destruct (Z.leb_spec quorum (sig_count h d)) as [Hle|]; [|apply Hold].
    destruct (find_snapshot h d) as [row|] eqn:Ef; [|apply Hold]. simpl. rewrite activated_map.
    intros (x & -> & Hx)%list_elem_of_fmap Hs. rewrite (proj1 (activated_row_fields row x)).
    apply activated_status in Hs as [->|[_ Hs]]; [|exact (Ha x Hx Hs)].
    apply find_some_elem in Ef as [_ ->%String.eqb_eq].
    change (sig_count h (set_snapshots _ d)) with (sig_count h d). lia.
Qed.

(** When every activation asks for at least [k] signatures, whatever
    snapshot is in force for an escrow has the signatures of at least [k]
    different signers on record, whatever else is written. *)
Theorem active_snapshot_quorum k ops e s :
  quorums_at_least k ops -> active_snapshot e (run_signer ops empty_sdb).1 = Some s ->
  NoDup (signers_of (sr_hash_hex s) (run_signer ops empty_sdb).1) /\
  k <= Z.of_nat (length (signers_of (sr_hash_hex s) (run_signer ops empty_sdb).1)).
Proof.
  intros Hq Hs. assert (signer_ok (run_signer ops empty_sdb).1) as Hd by apply run_signer_ok, empty_signer_ok.
  split; [by apply signers_distinct|]. rewrite signers_count.
  assert (forall d, signer_ok d /\ active_signed k d -> active_signed k (run_signer ops d).1) as Hrun.
  { clear Hs Hd. induction Hq as [|op ops Hop Hq IH]; intros d [Hd Ha]; [done|]. simpl.
    pose proof (active_signed_step k op d Hop Hd Ha) as Ha1. pose proof (run_signer_op_ok op d Hd) as Hd1.
    destruct (run_signer_op op d) as [d1 r]. specialize (IH d1 (conj Hd1 Ha1)). simpl.
    by destruct (run_signer ops d1). }
  apply active_snapshot_spec in Hs as (r & Hr & [_ Hra]%active_for_spec & ->); [|done]. simpl.
  apply (Hrun empty_sdb); [|done..]. split; [apply empty_signer_ok|].
  intros x Hx. by apply not_elem_of_nil in Hx.
Qed.
End snapshots.

(** ** Sign events and the audit log only grow *)

Section logs.
Context `{SignerExt}.

Lemma order_desc_sorted {R} (key : R -> Z) l :
  StronglySorted Z.lt (map key l) -> order_desc key l = rev l.
Proof.
  induction l as [|r l IH]; intros Hs; [done|]. simpl in Hs. apply StronglySorted_inv in Hs as [Hs Hr].
  unfold order_desc, order_by in *. simpl. rewrite IH by done.
  assert (Forall (fun x => key r < key x) (rev l)) as Hk.
  { rewrite Forall_map in Hr. rewrite Forall_forall in Hr |- *. intros x Hx. apply Hr.
    apply list_elem_of_In. apply list_elem_of_In in Hx. by apply List.in_rev. }
  revert Hk. generalize (rev l) as k. intros k Hk. induction Hk as [|x k Hx Hk IHk]; simpl; [done|].
  rewrite (proj2 (Z.leb_gt _ _)) by lia. by rewrite IHk.
Qed.

Lemma events_step op d :
  t_rows (sign_events d) `prefix_of` t_rows (sign_events (run_signer_op op d).1).
Proof.
  destruct (is_event op) eqn:Ei; [|by rewrite frame_events].
  destruct op as [| | | | | | | | | | | | |now e r sr t j q|]; try done. simpl.
  unfold record_sign_event_sync. rewrite sbind_run, write_on_run. unfold insert_or_ignore.
  destruct (insert_auto _ _ _ _) as [t1|[]] eqn:Ea; simpl; [|done..].
  apply insert_auto_ok in Ea as (_ & -> & _). simpl. by eexists.
Qed.

Lemma find_prefix {R} (p : R -> bool) l k x : l `prefix_of` k -> List.find p l = Some x -> List.find p k = Some x.
Proof.
  intros [m ->]. induction l as [|y l IH]; simpl; [done|]. by destruct (p y).
Qed.

(** A recorded sign event is permanent: the proof that a role signed a
    transaction set in a round, with its token and request ids, is returned
    unchanged after any further writes.  The first record wins: a second
    event for the same role, round and set changes nothing. *)
Theorem sign_event_permanent pre post e role sr t ev :
  let d := (run_signer pre empty_sdb).1 in
  (get_sign_event_sync e role sr t d).2 = Ok (Some ev) ->
  (get_sign_event_sync e role sr t (run_signer post d).1).2 = Ok (Some ev) /\
  forall now jti req_id,
    record_sign_event_sync now e role sr t jti req_id d = (d, Ok tt) \/ I64_MAX <= t_seq (sign_events d).
Proof.
  intros d Hget. unfold get_sign_event_sync, sget in *. simpl in *.
  destruct (find_event e role sr t d) as [r|] eqn:Ef; [|done]. simpl in Hget. injection Hget as <-. split.
  - assert (t_rows (sign_events d) `prefix_of` t_rows (sign_events (run_signer post d).1)) as Hpre.
    { apply (run_signer_ind (fun d' => t_rows (sign_events d) `prefix_of` t_rows (sign_events d'))); [|done].
      intros op d' Hd'. etrans; [exact Hd'|]. apply events_step. }
    unfold find_event in *. by rewrite (find_prefix _ _ _ _ Hpre Ef).
  - intros now jti req_id. destruct (Z.lt_ge_cases (t_seq (sign_events d)) I64_MAX) as [Hlt|]; [left|by right].
    apply find_some_elem in Ef as [Hr Hk]. rewrite !andb_true_iff, !String.eqb_eq in Hk.
    destruct Hk as [[[He Hro] Hsr] Ht].
    unfold record_sign_event_sync. rewrite write_on_run. unfold insert_or_ignore, insert_auto, insert_row.
    rewrite (proj2 (Z.ltb_lt _ _)) by done.
    assert (existsb (event_clash (EventRow (t_seq (sign_events d) + 1) e role sr t jti req_id (to_i64 now)))
              (t_rows (sign_events d)) = true) as ->; [|by destruct d].
    apply existsb_exists. exists r. split; [by apply list_elem_of_In|]. unfold event_clash.
    rewrite bool_decide_eq_true_2; [done|]. unfold event_key. simpl. congruence.
Qed.

(** What an append stores. *)
Definition logged_of (op : SignerOp) (r : result string (option Z)) : list AuditLogInsert :=
  match op, r with OpAudit _ ev, Ok _ => [stored_event ev] | _, _ => [] end.
Definition logged : list SignerOp -> list (result string (option Z)) -> list AuditLogInsert := collect logged_of.

Lemma audit_step op d :
  map al_event (t_rows (audit_log (run_signer_op op d).1)) =
    map al_event (t_rows (audit_log d)) ++ logged_of op (run_signer_op op d).2.
Proof.
  destruct (is_audit op) eqn:Ei.
  2:{ rewrite frame_audit by done. by destruct op; rewrite ?app_nil_r. }
  destruct op as [| | | | | | | | | | | | | |now ev]; try done. simpl. unfold append_audit_log_sync.
  rewrite !sbind_run. unfold slift. destruct (validate_known_audit_event_kind _); simpl; [|by rewrite app_nil_r].
  rewrite write_on_run. destruct (insert_auto _ _ _ _) as [t1|] eqn:Ea; simpl; [|by rewrite app_nil_r].
  apply insert_auto_ok in Ea as (_ & -> & _). simpl. by rewrite map_app.
Qed.

(** The audit log is append-only and complete: [list_audit_logs] returns,
    newest first, exactly the events whose append succeeded, up to the limit
    (clamped to 1..5000), whatever else happened. *)
Theorem audit_log_complete ops lim :
  let d := (run_signer ops empty_sdb).1 in
  exists rows, (list_audit_logs_sync lim d).2 = Ok rows /\
    map al_event rows =
      take (Z.to_nat (Z.min (Z.max lim 1) 5000))
        (rev (map loaded_event (logged ops (run_signer ops empty_sdb).2))).
Proof.
  intros d. assert (signer_ok d) as Hd by apply run_signer_ok, empty_signer_ok.
  assert (map al_event (t_rows (audit_log d)) = logged ops (run_signer ops empty_sdb).2) as Hlog.
  { apply (run_collect _ (fun d => map al_event (t_rows (audit_log d))) ops empty_sdb); [|apply empty_signer_ok].
    intros op d' _. apply audit_step. }
  eexists. split; [done|]. rewrite <- Hlog, map_map. unfold limit.
  destruct (so_audit _ Hd) as [(Hs & _) _]. rewrite order_desc_sorted by done.
  by rewrite map_map, <- map_rev, firstn_map.
Qed.
End logs.

Section reachable.
Context `{SignerExt}.

(** C19. Every database the operations can produce satisfies the invariant
    [signer_ok]: each table has its unique keys and admissible values, at most
    one snapshot per escrow is active, ids are handed out in order, a result
    exists only for a completed request, and the audit log holds only known
    event kinds. *)
Theorem signer_invariant ops : signer_ok (run_signer ops empty_sdb).1.
Proof. apply run_signer_ok, empty_signer_ok. Qed.
End reachable.

(** ** Witnesses *)

#[local] Instance demo_signer_ext : SignerExt :=
  {| sql_text e := match e with ConstraintViolation => "constraint failed" | DatabaseFull => "database full" end |}.

Definition demo_sig (who : string) : SnapshotSigRow := MkSnapshotSig who "pk" "sig" "h1" "ed25519" 5.
Definition demo_ops : list SignerOp :=
  [OpPutSnapshot 1 "e1" "h1" "json"; OpPutSignature (demo_sig "buyer"); OpPutSignature (demo_sig "seller");
   OpPutSignature (demo_sig "buyer"); OpActivate "h1" 2;
   OpIncoming 2 "e1" "buyer" 7; OpIncoming 3 "e1" "buyer" 7; OpIncoming 4 "e1" "buyer" 9;
   OpOutSeq 5 "e1" "arbiter"; OpOutSeq 6 "e1" "arbiter";
   OpConsumeJti 7 "j1" "e1" "sign_multisig" "1" "q1" 99; OpConsumeJti 8 "j1" "e1" "sign_multisig" "1" "q2" 99;
   OpStart 9 9 "q1" "e1" "sign_multisig" "1" "tx"; OpSignEvent 10 "e1" "buyer" "1" "tx" "j1" "q1"].

Lemma answer_is_final_witness :
  (get_sign_request_result_sync "q1" (run_signer demo_ops
     (complete_sign_request_with_result_sync 11 11 "q1" "sign_multisig" "answer"
        (run_signer demo_ops empty_sdb).1).1).1).2 = Ok (Some "answer"%string).
Proof.
  apply (answer_is_final demo_ops 11 11 "q1" "sign_multisig" "answer" demo_ops). vm_compute. reflexivity.
Defined.

Lemma active_snapshot_quorum_witness :
  2 <= Z.of_nat (length (signers_of "h1" (run_signer demo_ops empty_sdb).1)).
Proof.
  apply (active_snapshot_quorum 2 demo_ops "e1" (MkSnapshotRow "h1" "json")).
  - repeat constructor; simpl; lia.
  - vm_compute. reflexivity.
Defined.

Lemma sign_event_permanent_witness :
  (get_sign_event_sync "e1" "buyer" "1" "tx" (run_signer demo_ops (run_signer demo_ops empty_sdb).1).1).2
  = Ok (Some (MkSignEvent "j1" "q1")).
Proof.
  apply (sign_event_permanent demo_ops demo_ops "e1" "buyer" "1" "tx" (MkSignEvent "j1" "q1")).
  vm_compute. reflexivity.
Defined.

(** The replays of the run above are refused, the rest goes through. *)
Example demo_run : map is_ok (run_signer demo_ops empty_sdb).2 =
  [true; true; true; true; true; true; false; true; true; true; true; false; true; true].
Proof. vm_compute. reflexivity. Qed.
