(* ===== verification/SignerMetrics.v ===== *)
(** * Security metrics of the signer

    The reports over the audit log in [crates/nxms-signer/src/db.rs]: counts
    per event kind, the labels a detail text is classified under, the
    dashboard with its five buckets and the alert report.  A [BTreeMap] is a
    list of entries in the order of its keys. *)

From S2P Require Import Prelude RustString Sql SignerDb.

(** ** Ordered maps *)

Section btree.
Context {V : Type}.

(** [*m.entry(k).or_insert(..)] replaced by [f] of the old value. *)
Fixpoint bt_update (k : string) (f : option V -> V) (m : list (string * V)) : list (string * V) :=
  match m with
  | [] => [(k, f None)]
  | (k', v) :: m' =>
      match String.compare k k' with
      | Eq => (k', f (Some v)) :: m'
      | Lt => (k, f None) :: m
      | Gt => (k', v) :: bt_update k f m'
      end
  end.
Fixpoint bt_get (k : string) (m : list (string * V)) : option V :=
  match m with
  | [] => None
  | (k', v) :: m' => if (k =? k')%string then Some v else bt_get k m'
  end.
End btree.
(** [+= 1]; a table cannot hold enough rows for the sum to overflow. *)
Definition one_more (o : option Z) : Z := default 0 o + 1.

(** ** Data *)

Record AuditMetricRow : Type := MkAuditMetric { am_event_kind : string; am_count : Z }.
Record SecurityMetricRow : Type := MkSecurityMetric { sm_metric : string; sm_count : Z }.
Record SecurityMetricBucket : Type := MkBucket { sb_total : Z; sb_reasons : list (string * Z) }.
Record SecurityDashboard : Type := MkSecurityDashboard {
  sd_token_reject : SecurityMetricBucket;
  sd_replay_reject : SecurityMetricBucket;
  sd_policy_reject : SecurityMetricBucket;
  sd_rpc_fail : SecurityMetricBucket;
  sd_shadow_allow : SecurityMetricBucket;
}.
Record SecurityAlertThresholds : Type := MkSecurityThresholds {
  st_token_reject_total : Z;
  st_replay_reject_total : Z;
  st_policy_reject_total : Z;
  st_rpc_fail_total : Z;
  st_shadow_allow_total : Z;
}.
Definition default_thresholds : SecurityAlertThresholds := MkSecurityThresholds 5 3 1 2 1.
Record SecurityAlertItem : Type := MkSecurityAlert {
  sa_metric : string; sa_observed : Z; sa_threshold : Z; sa_severity : string; sa_action : string }.
Record SecurityAlertReport : Type := MkSecurityReport {
  sp_generated_at_ms : Z;
  sp_window_ms : Z;
  sp_thresholds : SecurityAlertThresholds;
  sp_dashboard : SecurityDashboard;
  sp_alerts : list SecurityAlertItem;
  sp_ok : bool;
}.

(** ** Classification *)

(** The first reason whose needle the text contains. *)
Fixpoint first_match (rules : list (string * string)) (text : string) : option string :=
  match rules with
  | [] => None
  | (needle, reason) :: rest => if contains needle text then Some reason else first_match rest text
  end.
Definition any_contained (needles : list string) (text : string) : bool :=
  existsb (fun n => contains n text) needles.

Definition classify_token_reject_reason (detail_lc : string) : option string :=
  if negb (any_contained ["action token"; "token required"; "issuer mismatch"; "audience mismatch";
       "scope/op mismatch"; "sign_round mismatch"; "role mismatch"; "wallet_id mismatch";
       "sandbox_id mismatch"; "escrow_id mismatch"; "nettype mismatch"] detail_lc)
  then None
  else Some (default "other" (first_match
    [("replayed jti", "replayed_jti"); ("scope/op mismatch", "scope_op_mismatch");
     ("sign_round mismatch", "sign_round_mismatch"); ("role mismatch", "role_mismatch");
     ("issuer mismatch", "issuer_mismatch"); ("audience mismatch", "audience_mismatch");
     ("wallet_id mismatch", "wallet_id_mismatch"); ("sandbox_id mismatch", "sandbox_id_mismatch");
     ("escrow_id mismatch", "escrow_id_mismatch"); ("nettype mismatch", "nettype_mismatch");
     ("required", "missing_token")] detail_lc))%string.

Definition classify_replay_reject_reason (event_kind detail_lc : string) : option string :=
  if (event_kind =? "rx_rejected_replay")%string then Some "seq_replay"%string
  else first_match [("replayed jti", "jti_replay"); ("duplicate req_id", "req_id_duplicate")]%string detail_lc.

Definition classify_policy_reject_reason (detail_lc : string) : option string :=
  first_match
    [("submit denied: missing local quorum proof", "missing_local_quorum");
     ("submit denied: missing seller quorum proof", "missing_seller_quorum");
     ("describe_transfer", "describe_transfer");
     ("snapshot mismatch", "snapshot_mismatch"); ("no active snapshot", "snapshot_mismatch");
     ("policy check failed", "policy_mismatch"); ("policy", "policy_mismatch")]%string detail_lc.

Definition classify_rpc_fail_reason (detail_lc : string) : option string :=
  if negb (any_contained ["wallet-rpc"; "wallet rpc"; "connection refused"; "timed out"; "rpc"] detail_lc)
  then None
  else Some (default "other" (first_match
    [("timed out", "timeout"); ("connection", "transport"); ("refused", "transport");
     ("http status", "http_status")] detail_lc))%string.

Definition classify_shadow_allow_reason (event_kind : string) : option string :=
  if (event_kind =? SIGN_SHADOW_ALLOW)%string then Some "sign_multisig"%string
  else if (event_kind =? SUBMIT_SHADOW_ALLOW)%string then Some "submit_multisig"%string else None.

(** One label, if there is a reason. *)
Definition labelled (prefix : string) (reason : option string) : list string :=
  match reason with Some r => [prefix +:+ "." +:+ r] | None => [] end.
Definition classify_security_metric_labels (event_kind : string) (detail : option string) : list string :=
  let detail_lc := to_ascii_lowercase (default "" detail)%string in
  labelled "token_reject_reason" (classify_token_reject_reason detail_lc)
  ++ labelled "replay_reject" (classify_replay_reject_reason event_kind detail_lc)
  ++ labelled "policy_reject" (classify_policy_reject_reason detail_lc)
  ++ labelled "rpc_fail" (classify_rpc_fail_reason detail_lc)
  ++ labelled "shadow_allow" (classify_shadow_allow_reason event_kind).

(** ** Reports *)

(** [GROUP BY event_kind ORDER BY c DESC, event_kind ASC] *)
Definition audit_metrics_sync : M sdb string (list AuditMetricRow) :=
  sget (fun d =>
    let groups := foldl (fun m r => bt_update (ai_event_kind (al_event r)) one_more m) [] (t_rows (audit_log d)) in
    map (fun '(k, c) => MkAuditMetric k (to_u64 c)) (order_desc snd groups)).

Definition in_window (since_ms : option Z) (r : AuditLogRow) : bool :=
  match since_ms with Some s => to_i64 s <=? al_created_at_ms r | None => true end.
Definition labels_of (r : AuditLogRow) : list string :=
  classify_security_metric_labels (ai_event_kind (al_event r)) (ai_detail (al_event r)).
Definition window_rows (since_ms : option Z) (d : sdb) : list AuditLogRow :=
  List.filter (in_window since_ms) (t_rows (audit_log d)).

Definition audit_security_metrics_sync (since_ms : option Z) : M sdb string (list SecurityMetricRow) :=
  sget (fun d =>
    let out := foldl (fun m r => foldl (fun m l => bt_update l one_more m) m (labels_of r))
                 [] (order_asc al_id (window_rows since_ms d)) in
    map (fun '(k, c) => MkSecurityMetric k c) out).

Definition empty_bucket : SecurityMetricBucket := MkBucket 0 [].
Definition empty_dashboard : SecurityDashboard :=
  MkSecurityDashboard empty_bucket empty_bucket empty_bucket empty_bucket empty_bucket.
Definition bucket_add (reason : string) (count : Z) (b : SecurityMetricBucket) : SecurityMetricBucket :=
  MkBucket (sat_add_u64 (sb_total b) count)
    (bt_update reason (fun o => match o with Some v => sat_add_u64 v count | None => count end) (sb_reasons b)).
Definition dashboard_add (d : SecurityDashboard) (row : SecurityMetricRow) : SecurityDashboard :=
  match split_once "." (sm_metric row) with
  | None => d
  | Some (prefix, reason) =>
      let add := bucket_add reason (sm_count row) in
      let '(MkSecurityDashboard t r p f s) := d in
      if (prefix =? "token_reject_reason")%string then MkSecurityDashboard (add t) r p f s
      else if (prefix =? "replay_reject")%string then MkSecurityDashboard t (add r) p f s
      else if (prefix =? "policy_reject")%string then MkSecurityDashboard t r (add p) f s
      else if (prefix =? "rpc_fail")%string then MkSecurityDashboard t r p (add f) s
      else if (prefix =? "shadow_allow")%string then MkSecurityDashboard t r p f (add s)
      else d
  end.
Definition audit_security_dashboard_sync (since_ms : option Z) : M sdb string SecurityDashboard :=
  let* rows := audit_security_metrics_sync since_ms in
  sret (foldl dashboard_add empty_dashboard rows).

(** One [if total >= threshold { alerts.push(..) }]. *)
Definition alert_if (metric : string) (bucket : SecurityMetricBucket) (threshold : Z) (severity action : string)
    : list SecurityAlertItem :=
  if threshold <=? sb_total bucket
  then [MkSecurityAlert metric (sb_total bucket) threshold severity action] else [].
Definition build_security_alert_report (now window_ms : Z) (thresholds : SecurityAlertThresholds)
    (dashboard : SecurityDashboard) : SecurityAlertReport :=
  let alerts :=
    alert_if "token_reject_total" (sd_token_reject dashboard) (st_token_reject_total thresholds) "high"
      "Investigate capability-token issuance/validation drift and clock skew; rotate auth keys if suspicious"
    ++ alert_if "replay_reject_total" (sd_replay_reject dashboard) (st_replay_reject_total thresholds) "high"
      "Investigate replay attempts (jti/req_id/seq), block offending actors, verify single-use token enforcement"
    ++ alert_if "policy_reject_total" (sd_policy_reject dashboard) (st_policy_reject_total thresholds) "critical"
      "Pause release/refund automation for affected escrow IDs and review snapshot vs txset policy mismatches"
    ++ alert_if "rpc_fail_total" (sd_rpc_fail dashboard) (st_rpc_fail_total thresholds) "critical"
      "Check wallet-rpc/node health, transport path, and sandbox connectivity before resuming submit flow"
    ++ alert_if "shadow_allow_total" (sd_shadow_allow dashboard) (st_shadow_allow_total thresholds) "high"
      "Complete Stage-2 shadow window and force hard-fail action-token mode for sign/submit paths" in
  MkSecurityReport now window_ms thresholds dashboard alerts (match alerts with [] => true | _ => false end).

Definition audit_security_dashboard_window (now window_ms : Z) : M sdb string SecurityDashboard :=
  audit_security_dashboard_sync (Some (sat_sub_u64 now (Z.max window_ms 1))).
(** The clock is read for the window and again for the report. *)
Definition audit_security_alert_report (now now2 window_ms : Z) (thresholds : SecurityAlertThresholds)
    : M sdb string SecurityAlertReport :=
  let* dashboard := audit_security_dashboard_window now window_ms in
  sret (build_security_alert_report now2 window_ms thresholds dashboard).

(** ** The dashboard counts the classified rows *)

(** The prefix of a label, the part before the first dot. *)
Definition under (prefix label : string) : bool :=
  match split_once "." label with Some (p, _) => (p =? prefix)%string | None => false end.
Definition weight (p : string -> bool) (m : list (string * Z)) : Z :=
  foldr (fun e n => (if p e.1 then e.2 else 0) + n) 0 m.
Definition hits (p : string -> bool) (labels : list string) : Z := Z.of_nat (length (List.filter p labels)).

Lemma weight_update p k m : weight p (bt_update k one_more m) = weight p m + (if p k then 1 else 0).
Proof.
  induction m as [|[k' v] m IH]; simpl; [unfold one_more; simpl; destruct (p k); lia|].
  destruct (String.compare k k') eqn:E; simpl.
  - apply String.compare_eq_iff in E as ->. unfold one_more. simpl. destruct (p k'); lia.
  - unfold one_more. simpl. destruct (p k); lia.
  - rewrite IH. lia.
Qed.

Lemma hits_app p l k : hits p (l ++ k) = hits p l + hits p k.
Proof. unfold hits. rewrite List.filter_app, length_app. lia. Qed.

Lemma weight_labels p labels m :
  weight p (foldl (fun m l => bt_update l one_more m) m labels) = weight p m + hits p labels.
Proof.
  revert m. induction labels as [|l labels IH]; intros m; [unfold hits; simpl; lia|].
  change (foldl _ m (l :: labels)) with (foldl (fun m l => bt_update l one_more m) (bt_update l one_more m) labels).
  rewrite IH, weight_update. unfold hits. simpl. destruct (p l); simpl; lia.
Qed.

(** The counters as the metrics query leaves them. *)
Definition label_counts (rows : list AuditLogRow) : list (string * Z) :=
  foldl (fun m r => foldl (fun m l => bt_update l one_more m) m (labels_of r)) [] rows.

Lemma label_counts_concat rows :
  label_counts rows = foldl (fun m l => bt_update l one_more m) [] (concat (map labels_of rows)).
Proof.
  unfold label_counts. generalize (@nil (string * Z)) as m. induction rows as [|r rows IH]; intros m; [done|].
  simpl. by rewrite foldl_app, IH.
Qed.

Lemma counts_nonneg labels m :
  Forall (fun e => 0 <= e.2) m -> Forall (fun e => 0 <= e.2) (foldl (fun m l => bt_update l one_more m) m labels).
Proof.
  revert m. induction labels as [|l labels IH]; intros m Hm; [done|]. simpl. apply IH.
  clear IH. induction Hm as [|[k v] m Hv Hm IH]; simpl; [by repeat constructor|]. simpl in Hv.
  destruct (String.compare l k); repeat constructor; simpl; unfold one_more; simpl; try done; lia.
Qed.

Lemma hits_concat p (f : AuditLogRow -> bool) rows :
  (forall r, hits p (labels_of r) = if f r then 1 else 0) ->
  hits p (concat (map labels_of rows)) = count_rows f rows.
Proof.
  intros Hf. unfold count_rows. induction rows as [|r rows IH]; [done|]. simpl. rewrite hits_app, IH, Hf.
  destruct (f r); simpl; lia.
Qed.

Lemma count_perm {R} (f : R -> bool) l k : Permutation l k -> count_rows f l = count_rows f k.
Proof.
  unfold count_rows. induction 1 as [|x l k _ IH|x y l|l k m _ IH1 _ IH2]; simpl; [done| | |by rewrite IH1].
  - destruct (f x); simpl; lia.
  - destruct (f x), (f y); simpl; lia.
Qed.

(** A bucket's total after a pass over the metrics. *)
Lemma fold_total (sel : SecurityDashboard -> SecurityMetricBucket) prefix m d :
  (forall d row, sb_total (sel (dashboard_add d row)) =
     if under prefix (sm_metric row) then sat_add_u64 (sb_total (sel d)) (sm_count row) else sb_total (sel d)) ->
  Forall (fun e => 0 <= e.2) m -> is_u64 (sb_total (sel d)) ->
  sb_total (sel (foldl dashboard_add d (map (fun '(k, c) => MkSecurityMetric k c) m)))
  = Z.min U64_MAX (sb_total (sel d) + weight (under prefix) m).
Proof.
  intros Hsel Hm. revert d. induction Hm as [|[k c] m Hc Hm IH]; intros d Hd; simpl; [mlia|].
  simpl in Hc. assert (0 <= weight (under prefix) m) as Hw.
  { clear -Hm. induction Hm as [|[k c] m Hc Hm IH]; simpl; [lia|]. simpl in Hc. destruct (under prefix k); lia. }
  rewrite IH; rewrite Hsel; simpl; destruct (under prefix k); mlia.
Qed.

Lemma under_labelled prefix p reason :
  free_of "." p -> hits (under prefix) (labelled p reason) =
    if (p =? prefix)%string then (if reason then 1 else 0) else 0.
Proof.
  intros Hp. unfold hits. destruct reason as [r|]; simpl; [|by destruct (p =? prefix)%string].
  unfold under. change ("." +:+ r) with (String "." r). rewrite split_once_app by done.
  by destruct (p =? prefix)%string.
Qed.

Definition detail_lc (r : AuditLogRow) : string := to_ascii_lowercase (default "" (ai_detail (al_event r)))%string.
Definition some {A} (o : option A) : bool := match o with Some _ => true | None => false end.

Lemma row_hits prefix r :
  hits (under prefix) (labels_of r) =
    hits (under prefix) (labelled "token_reject_reason" (classify_token_reject_reason (detail_lc r)))
    + hits (under prefix) (labelled "replay_reject" (classify_replay_reject_reason (ai_event_kind (al_event r)) (detail_lc r)))
    + hits (under prefix) (labelled "policy_reject" (classify_policy_reject_reason (detail_lc r)))
    + hits (under prefix) (labelled "rpc_fail" (classify_rpc_fail_reason (detail_lc r)))
    + hits (under prefix) (labelled "shadow_allow" (classify_shadow_allow_reason (ai_event_kind (al_event r)))).
Proof.
  unfold labels_of, classify_security_metric_labels. rewrite !hits_app. fold (detail_lc r). lia.
Qed.

Lemma dashboard_total (sel : SecurityDashboard -> SecurityMetricBucket) prefix (f : AuditLogRow -> bool) since d :
  sb_total (sel empty_dashboard) = 0 ->
  (forall d row, sb_total (sel (dashboard_add d row)) =
     if under prefix (sm_metric row) then sat_add_u64 (sb_total (sel d)) (sm_count row) else sb_total (sel d)) ->
  (forall r, hits (under prefix) (labels_of r) = if f r then 1 else 0) ->
  forall db, (audit_security_dashboard_sync since d).2 = Ok db ->
  sb_total (sel db) = Z.min U64_MAX (count_rows f (window_rows since d)).
Proof.
  intros H0 Hsel Hf db [= <-]. fold (label_counts (order_asc al_id (window_rows since d))).
  rewrite (fold_total sel prefix); [|done| |by rewrite H0].
  - rewrite H0, label_counts_concat, weight_labels, (hits_concat _ f) by done. simpl.
    unfold order_asc. by rewrite (count_perm f _ _ (order_by_perm _ _)).
  - rewrite label_counts_concat. by apply counts_nonneg.
Qed.

Lemma sel_step sel prefix :
  (sel, prefix) ∈ [(sd_token_reject, "token_reject_reason"); (sd_replay_reject, "replay_reject");
     (sd_policy_reject, "policy_reject"); (sd_rpc_fail, "rpc_fail"); (sd_shadow_allow, "shadow_allow")]%string ->
  forall d row, sb_total (sel (dashboard_add d row)) =
    if under prefix (sm_metric row) then sat_add_u64 (sb_total (sel d)) (sm_count row) else sb_total (sel d).
Proof.
  intros Hin d row. unfold dashboard_add, under. destruct (split_once "." (sm_metric row)) as [[p reason]|]; [|done].
  destruct d as [t r po f s]. rewrite !elem_of_cons in Hin.
  destruct Hin as [[= -> ->]|[[= -> ->]|[[= -> ->]|[[= -> ->]|[[= -> ->]|Hin]]]]]; [..|by apply not_elem_of_nil in Hin];
    repeat match goal with |- context [(p =? ?x)%string] => destruct (String.eqb_spec p x); [subst p; done|] end; done.
Qed.

(** The rows of a window each bucket stands for. *)
Definition token_rejects (r : AuditLogRow) : bool := some (classify_token_reject_reason (detail_lc r)).
Definition replay_rejects (r : AuditLogRow) : bool :=
  some (classify_replay_reject_reason (ai_event_kind (al_event r)) (detail_lc r)).
Definition policy_rejects (r : AuditLogRow) : bool := some (classify_policy_reject_reason (detail_lc r)).
Definition rpc_fails (r : AuditLogRow) : bool := some (classify_rpc_fail_reason (detail_lc r)).
Definition shadow_allows (r : AuditLogRow) : bool :=
  some (classify_shadow_allow_reason (ai_event_kind (al_event r))).
Definition window_count (f : AuditLogRow -> bool) (since : option Z) (d : sdb) : Z :=
  Z.min U64_MAX (count_rows f (window_rows since d)).

Ltac bucket_total since d db Hdb :=
  match goal with
  | |- sb_total (?sel db) = window_count ?f _ _ =>
      eapply (dashboard_total sel _ f since d); [done|apply sel_step; repeat constructor| |exact Hdb];
      intros r; rewrite row_hits, !under_labelled by done; simpl; unfold f;
      match goal with |- context [some ?o] => destruct o; done end
  end.

Lemma dashboard_totals since d db :
  (audit_security_dashboard_sync since d).2 = Ok db ->
  sb_total (sd_token_reject db) = window_count token_rejects since d /\
  sb_total (sd_replay_reject db) = window_count replay_rejects since d /\
  sb_total (sd_policy_reject db) = window_count policy_rejects since d /\
  sb_total (sd_rpc_fail db) = window_count rpc_fails since d /\
  sb_total (sd_shadow_allow db) = window_count shadow_allows since d.
Proof.
  intros Hdb. splits; bucket_total since d db Hdb.
Qed.

(** The five watched quantities of a window with their thresholds. *)
Definition watched (th : SecurityAlertThresholds) (since : option Z) (d : sdb) : list (string * Z * Z) :=
  [("token_reject_total", window_count token_rejects since d, st_token_reject_total th);
   ("replay_reject_total", window_count replay_rejects since d, st_replay_reject_total th);
   ("policy_reject_total", window_count policy_rejects since d, st_policy_reject_total th);
   ("rpc_fail_total", window_count rpc_fails since d, st_rpc_fail_total th);
   ("shadow_allow_total", window_count shadow_allows since d, st_shadow_allow_total th)]%string.

Lemma alert_if_shape metric b th severity action :
  map (fun a => (sa_metric a, sa_observed a, sa_threshold a)) (alert_if metric b th severity action)
  = List.filter (fun w => w.2 <=? w.1.2) [(metric, sb_total b, th)].
Proof. unfold alert_if. simpl. by destruct (th <=? sb_total b). Qed.

(** The security alert report is exact: it raises one alert for each of
    the five metrics whose count of audit rows in the window, classified
    directly from their kind and detail, reaches its threshold, with that count
    and threshold, and no other; it is ok exactly when there is none.  The way
    through labels, the ordered map and the dashboard's buckets loses and adds
    nothing. *)
Theorem security_report_exact now now2 window_ms th d :
  let since := Some (sat_sub_u64 now (Z.max window_ms 1)) in
  exists report, audit_security_alert_report now now2 window_ms th d = (d, Ok report) /\
    map (fun a => (sa_metric a, sa_observed a, sa_threshold a)) (sp_alerts report)
      = List.filter (fun w => w.2 <=? w.1.2) (watched th since d) /\
    (sp_ok report = true <-> Forall (fun w => w.1.2 < w.2) (watched th since d)).
Proof.
  intros since. unfold audit_security_alert_report, audit_security_dashboard_window. rewrite sbind_run. fold since.
  destruct (audit_security_dashboard_sync since d) as [d' [db|e]] eqn:Hrun; [|done].
  injection Hrun as <- Hdb. eexists. split; [done|].
  destruct (dashboard_totals since d db) as (E1 & E2 & E3 & E4 & E5); [cbn; by rewrite Hdb|]. clear Hdb.
  set (report := build_security_alert_report _ _ _ _).
  assert (map (fun a => (sa_metric a, sa_observed a, sa_threshold a)) (sp_alerts report)
      = List.filter (fun w => w.2 <=? w.1.2) (watched th since d)) as Hmap.
  { subst report. unfold build_security_alert_report. cbn [sp_alerts]. rewrite !map_app, !alert_if_shape.
    rewrite E1, E2, E3, E4, E5, <- !List.filter_app. done. }
  split; [exact Hmap|].
  assert (sp_ok report = true <-> sp_alerts report = []) as ->
    by (subst report; unfold build_security_alert_report; cbn [sp_ok sp_alerts]; by case_match).
  assert (sp_alerts report = [] <-> List.filter (fun w => w.2 <=? w.1.2) (watched th since d) = []) as ->
    by (rewrite <- Hmap; by destruct (sp_alerts report)).
  clear. induction (watched th since d) as [|w l IH]; simpl; [split; [constructor|done]|].
  rewrite Forall_cons, <- IH. destruct (Z.leb_spec w.2 w.1.2); split; [done|lia|intros ->; done|by intros [_ ->]].
Qed.
