(* ===== verification/AgentSupport.v ===== *)
(** * Helpers of the signer's agent

    [crates/nxms-signer/src/agent_support.rs] and the free functions of
    [agent.rs]: validation of transaction data, the recipients of a proposal,
    the texts written to the audit log with their redaction of secrets, and
    the treatment of retries.  Slicing a string inside a character panics;
    [None] and [Panic] stand for that. *)

From S2P Require Import Prelude RustString Sql Wire Admission Snapshot ActionToken TokenVerifier.

(** An [anyhow] error by its message, or a panic of the task. *)
Inductive AgentError : Type :=
| Anyhow (msg : string)
| Panic.

(** ** Strings *)

Fixpoint replace_byte (a b : ascii) (s : string) : string :=
  match s with
  | EmptyString => EmptyString
  | String c s' => String (if (c =? a)%char then b else c) (replace_byte a b s')
  end.
Definition LF : ascii := Ascii.ascii_of_N 10.
Definition CR : ascii := Ascii.ascii_of_N 13.

(** [&s[..n]] for [n < s.len()]: the index has to be the start of a character. *)
Definition slice_to (n : nat) (s : string) : option string :=
  match String.get n s with
  | Some c => if in_range 128 191 c then None else Some (String.substring 0 n s)
  | None => Some s
  end.

Definition trim_for_log (input : string) (max_len : nat) : option string :=
  let compact := trim (replace_byte CR " " (replace_byte LF " " input)) in
  if (len compact <=? Z.of_nat max_len) then Some compact
  else (fun p => p +:+ "...") <$> slice_to max_len compact.

(** [split_whitespace], [cur] being the word read so far. *)
Definition flush (cur : list ascii) : list (list ascii) := match cur with [] => [] | _ => [cur] end.
Fixpoint words (cur l : list ascii) : list (list ascii) :=
  match l with
  | [] => flush cur
  | a :: l1 =>
      if ws1 a then flush cur ++ words [] l1 else
      match l1 with
      | b :: l2 =>
          if ws2 a b then flush cur ++ words [] l2 else
          match l2 with
          | c :: l3 => if ws3 a b c then flush cur ++ words [] l3 else words (cur ++ [a]) l1
          | [] => words (cur ++ [a]) l1
          end
      | [] => words (cur ++ [a]) l1
      end
  end.
Definition split_whitespace (s : string) : list (list ascii) := words [] (bytes_of s).
(** [parts.join(" ")] *)
Fixpoint join_words (ws : list (list ascii)) : list ascii :=
  match ws with
  | [] => []
  | [w] => w
  | w :: rest => w ++ " "%char :: join_words rest
  end.

(** [trim_matches(p)] for a set of ASCII characters that stay; a byte of a
    longer character is not one of them. *)
Fixpoint drop_until (p : ascii -> bool) (l : list ascii) : list ascii :=
  match l with [] => [] | a :: l' => if p a then l else drop_until p l' end.
Definition keep_between (p : ascii -> bool) (l : list ascii) : list ascii :=
  rev (drop_until p (rev (drop_until p l))).
(** [split(c)] *)
Fixpoint split_at (c : ascii) (cur l : list ascii) : list (list ascii) :=
  match l with
  | [] => [cur]
  | a :: l' => if (a =? c)%char then cur :: split_at c [] l' else split_at c (cur ++ [a]) l'
  end.

(** ** Redaction *)

Definition is_token_part (c : ascii) : bool :=
  is_ascii_alphanumeric c || (c =? "-")%char || (c =? "_")%char || (c =? "=")%char.
Definition is_token_byte (c : ascii) : bool := is_token_part c || (c =? ".")%char.

Definition looks_like_jwt_token (token : list ascii) : bool :=
  match split_at "." [] (keep_between is_token_byte token) with
  | [a; b; c] =>
      negb ((length a <? 8)%nat || (length b <? 8)%nat || (length c <? 8)%nat)
      && forallb (forallb is_token_part) [a; b; c]
  | _ => false
  end.
Definition contains_probable_jwt (raw : string) : bool :=
  existsb looks_like_jwt_token (split_whitespace raw).
Definition REDACTED_JWT : list ascii := bytes_of "<redacted.jwt>".
Definition redact_probable_jwt_tokens (raw : string) : string :=
  of_bytes (join_words (map (fun t => if looks_like_jwt_token t then REDACTED_JWT else t)
    (split_whitespace raw))).

Definition QUOTE : string := String (Ascii.ascii_of_N 34) EmptyString.
Definition SENSITIVE : list string :=
  ["authorization: bearer"; "action_token="; "wallet_password"; "password="; QUOTE +:+ "password" +:+ QUOTE].
Definition sanitize_runtime_detail (raw : string) : option string :=
  compact ← trim_for_log raw 1024;
  let lower := to_ascii_lowercase compact in
  if existsb (fun m => contains m lower) SENSITIVE then Some "redacted_sensitive_detail"%string
  else if contains_probable_jwt compact then Some (redact_probable_jwt_tokens compact)
  else Some compact.

Definition or_dash (o : option string) : string := default "-"%string o.
Definition audit_security_detail (op role sign_round : string) (req_id : option string)
    (txset_hash_hex snapshot_hash_hex : string) (jti : option string) (exp : option Z)
    (result : string) (reason : option string) : option string :=
  reason ← match reason with Some r => sanitize_runtime_detail r | None => Some "-"%string end;
  Some ("op=" +:+ op +:+ " role=" +:+ role +:+ " sign_round=" +:+ sign_round +:+ " req_id=" +:+ or_dash req_id
    +:+ " txset_hash=" +:+ txset_hash_hex +:+ " snapshot_hash=" +:+ snapshot_hash_hex +:+ " jti=" +:+ or_dash jti
    +:+ " exp=" +:+ or_dash (dec <$> exp) +:+ " result=" +:+ result +:+ " reason=" +:+ reason).

(** ** Transaction data *)

Definition normalize_hex_exact (value : string) (expected_len : Z) (label : string) : result AgentError string :=
  ok_or (hex_exact expected_len value) (Anyhow (label +:+ " must be " +:+ dec expected_len +:+ " hex chars")).

Definition tx_hex (field value : string) (max_hex_len : Z) : result AgentError string :=
  let hex_raw := trim value in
  let? _ := fail_if (is_empty hex_raw) (Anyhow (field +:+ " must not be empty")) in
  let? _ := fail_if (max_hex_len <? len hex_raw) (Anyhow (field +:+ " too large")) in
  let? _ := fail_if (negb (len hex_raw mod 2 =? 0) || negb (sall is_ascii_hexdigit hex_raw))
              (Anyhow (field +:+ " must be valid even-length hex")) in
  Ok hex_raw.
Definition validate_tx_data_hex (value : string) (max_hex_len : Z) : result AgentError string :=
  let? hex_raw := tx_hex "tx_data_hex" value max_hex_len in Ok (to_ascii_lowercase hex_raw).

(** *** Message bodies, [crates/nxms-transport/src/wire.rs] *)

Record TxSignReqBody : Type := MkTxSignReq {
  tq_escrow_id_hex : string;
  tq_action : EscrowAction;
  tq_multisig_txset_hex : string;
  tq_snapshot_hash_hex : string;
  tq_escrow_admission_artifact : option EscrowAdmissionArtifact;
  tq_human_hint : option string;
}.
Record TxSignRespBody : Type := MkTxSignResp {
  tp_escrow_id_hex : string;
  tp_approved : bool;
  tp_signed_tx_data_hex : option string;
  tp_tx_hash_list : list string;
  tp_reason : option string;
}.
Record EscrowErrBody : Type := MkEscrowErr {
  ee_escrow_id_hex : string; ee_code : string; ee_reason : string }.
Record ContractPropose : Type := MkContractPropose {
  cp_escrow_id_hex : string; cp_snapshot_hash_hex : string; cp_snapshot_json_b64 : string }.
Record ContractSig : Type := MkContractSig {
  ct_escrow_id_hex : string; ct_snapshot_hash_hex : string; ct_signer_id : string;
  ct_sig_pk_b64 : string; ct_sig_b64 : string; ct_alg : string }.
Inductive EscrowBody : Type :=
| BContractPropose (b : ContractPropose)
| BContractSig (b : ContractSig)
| BTxSignReq (b : TxSignReqBody)
| BTxSignResp (b : TxSignRespBody)
| BErr (b : EscrowErrBody).

Definition validate_tx_sign_req (payload : NxmsPayload) (req : TxSignReqBody) (max_hex_len : Z)
    : result AgentError unit :=
  let? _ := fail_if (negb (tq_escrow_id_hex req =? pl_escrow_id_hex payload)%string)
              (Anyhow "tx_sign_req escrow_id mismatch payload vs body") in
  let? _ := tx_hex "multisig_txset_hex" (tq_multisig_txset_hex req) max_hex_len in
  let? _ := normalize_hex_exact (tq_snapshot_hash_hex req) 64 "snapshot_hash_hex" in
  Ok tt.

(** [hex::decode] *)
Definition hex_value (c : ascii) : option N :=
  if is_ascii_digit c then Some (Ascii.N_of_ascii c - 48)%N
  else if in_range 97 102 c then Some (Ascii.N_of_ascii c - 87)%N
  else if in_range 65 70 c then Some (Ascii.N_of_ascii c - 55)%N
  else None.
Fixpoint hex_decode (s : string) : option string :=
  match s with
  | EmptyString => Some EmptyString
  | String a (String b s') =>
      x ← hex_value a; y ← hex_value b; r ← hex_decode s'; Some (String (Ascii.ascii_of_N (16 * x + y)) r)
  | String _ EmptyString => None
  end.

(** The text of [hex::FromHexError] is [hex_text]. *)
Definition decode_escrow_id_hex (hex_text : string -> string) (hex_id : string) : result AgentError string :=
  let? raw := ok_or (hex_decode hex_id) (Anyhow (hex_text hex_id)) in
  let? _ := fail_if (negb (len raw =? 16)) (Anyhow "escrow_id_hex must be 32 hex chars (16 bytes)") in
  Ok raw.

Definition txset_sha256_hex (sha256 : string -> string) (multisig_txset_hex : string) : result AgentError string :=
  let raw := trim multisig_txset_hex in
  let? _ := fail_if (is_empty raw) (Anyhow "multisig_txset_hex must not be empty") in
  let? txset_bytes := ok_or (hex_decode raw) (Anyhow "multisig_txset_hex must be hex") in
  Ok (hex_encode (sha256 txset_bytes)).

(** ** Proposals *)

Definition rule_recipient (amount_override_atomic : option Z) (rule : RecipientRule)
    : result AgentError TransferRecipient :=
  let? amount := match rr_amount rule with
    | Exact amount => Ok amount
    | Range min max =>
        let? override_amount := ok_or amount_override_atomic (Anyhow
          ("amount_override_atomic is required for range recipient '" +:+ rr_address rule +:+ "'")) in
        let? _ := fail_if ((override_amount <? min) || (max <? override_amount)) (Anyhow
          ("amount_override_atomic=" +:+ dec override_amount +:+ " outside [" +:+ dec min +:+ ".."
           +:+ dec max +:+ "] for '" +:+ rr_address rule +:+ "'")) in
        Ok override_amount
    end in
  Ok (MkTransferRecipient (rr_address rule) amount).
Fixpoint rule_recipients (amount_override_atomic : option Z) (rules : list RecipientRule)
    : result AgentError (list TransferRecipient) :=
  match rules with
  | [] => Ok []
  | r :: rest =>
      let? x := rule_recipient amount_override_atomic r in
      let? xs := rule_recipients amount_override_atomic rest in Ok (x :: xs)
  end.
Definition candidate_rules (policy : PayoutPolicy) : list RecipientRule :=
  if existsb rr_required (pp_allowed_recipients policy)
  then List.filter rr_required (pp_allowed_recipients policy) else pp_allowed_recipients policy.
Definition proposal_recipients_from_snapshot (snapshot : ContractSnapshot) (action : EscrowAction)
    (amount_override_atomic : option Z) : result AgentError (list TransferRecipient) :=
  let candidates := candidate_rules (policy_for snapshot action) in
  let? _ := match candidates with [] => Err (Anyhow "snapshot policy has no recipients") | _ => Ok tt end in
  rule_recipients amount_override_atomic candidates.

(** ** Retries *)

Definition NON_RETRYABLE : list string :=
  ["sender '"; "not in allowlist"; "envelope addressed to"; "unexpected cipher suite ids";
   "unsupported msg_type"; "invalid action token"; "action token scope/op mismatch";
   "action token ttl exceeds"; "action token jti invalid"; "action token wallet_id mismatch";
   "action token sandbox_id mismatch"; "action token nettype mismatch"; "replayed jti";
   "replay/out-of-order seq detected"; "replay seq detected"; "tx_sign_req payload kind mismatch";
   "payload too large"; "seq must be > 0"; "must be 64 hex chars"].
Definition should_ack_non_retryable_process_error (err : string) : bool :=
  let lower := to_ascii_lowercase err in existsb (fun marker => contains marker lower) NON_RETRYABLE.

Definition mailbox_retry_backoff_ms (base_backoff_ms attempt : Z) : Z :=
  let exp := Z.min (Z.max (attempt - 1) 0) 6 in
  Z.min (Z.max (sat_mul_u64 base_backoff_ms (Z.shiftl 1 exp)) 50) 10000.

(** ** Splitting and joining words *)

Section words.

(** No whitespace character starts anywhere in [cur] when [l] follows. *)
Definition calm (cur l : list ascii) : Prop :=
  forall k m, cur = k ++ m -> m <> [] -> no_front_ws ws2 ws3 (m ++ l) = true.

Lemma calm_nil l : calm [] l.
Proof. intros k m Hk Hm. symmetry in Hk. apply app_nil in Hk as [_ ->]. done. Qed.

Lemma calm_snoc cur a l : calm cur (a :: l) -> no_front_ws ws2 ws3 (a :: l) = true -> calm (cur ++ [a]) l.
Proof.
  intros Hc Ha k m Hk Hm. destruct m as [|x m] using rev_ind; [done|].
  rewrite app_assoc in Hk. apply app_inj_tail in Hk as [-> ->]. rewrite <- app_assoc. simpl.
  destruct m as [|y m]; [done|]. by eapply Hc.
Qed.

Lemma calm_flush cur l : calm cur l -> calm cur [].
Proof.
  intros Hc k m Hk Hm. rewrite app_nil_r. eapply no_front_ws_prefix. by eapply Hc.
Qed.

Lemma words_step cur a l :
  no_front_ws ws2 ws3 (a :: l) = true -> words cur (a :: l) = words (cur ++ [a]) l.
Proof.
  intros Hn. simpl in *. apply andb_true_iff in Hn as [->%negb_true_iff Hn].
  destruct l as [|b l2]; [done|]. apply andb_true_iff in Hn as [->%negb_true_iff Hn].
  destruct l2 as [|c l3]; [done|]. apply negb_true_iff in Hn as ->. done.
Qed.

(** Reading a word that is followed by [l]. *)
Lemma words_read cur w l :
  calm w l -> words cur (w ++ l) = words (cur ++ w) l.
Proof.
  revert cur. induction w as [|a w IH]; intros cur Hc; simpl app; [by rewrite app_nil_r|].
  rewrite words_step by (apply (Hc [] (a :: w)); done). rewrite IH.
  - by rewrite <- app_assoc.
  - intros k m -> Hm. by apply (Hc (a :: k) m).
Qed.

Definition word_ok (w : list ascii) : Prop := w <> [] /\ calm w [].

Lemma flush_ok cur : calm cur [] -> Forall word_ok (flush cur).
Proof. intros Hc. destruct cur; repeat constructor; done. Qed.

Lemma words_ok cur l : calm cur l -> Forall word_ok (words cur l).
Proof.
  revert cur. induction l as [l IH] using (induction_ltof1 _ length). unfold ltof in IH. intros cur Hc.
  destruct l as [|a l1]; [by apply flush_ok|].
  destruct (no_front_ws ws2 ws3 (a :: l1)) eqn:Hn.
  - rewrite words_step by done. apply IH; [simpl; lia|]. by apply calm_snoc.
  - assert (Forall word_ok (flush cur)) as Hf by (apply flush_ok; by eapply calm_flush).
    simpl in *. destruct (ws1 a) eqn:E1.
    { apply Forall_app_2; [done|]. apply IH; [simpl; lia|apply calm_nil]. }
    destruct l1 as [|b l2]; [done|]. destruct (ws2 a b) eqn:E2.
    { apply Forall_app_2; [done|]. apply IH; [simpl; lia|apply calm_nil]. }
    destruct l2 as [|c l3]; [done|]. destruct (ws3 a b c) eqn:E3; [|done].
    apply Forall_app_2; [done|]. apply IH; [simpl; lia|apply calm_nil].
Qed.

Lemma ws_space a b : ws2 a " " = false /\ ws3 a b " " = false /\ forall c, ws3 a " " c = false.
Proof.
  split_and!; [|unfold ws3|intros c; unfold ws3]; unfold ws2; simpl; rewrite ?andb_false_r; simpl;
    rewrite ?andb_false_r, ?orb_false_r; done.
Qed.

(** A space does not complete a longer whitespace character. *)
Lemma calm_space w l : calm w [] -> calm w (" "%char :: l).
Proof.
  intros Hc k m Hk Hm. specialize (Hc k m Hk Hm). rewrite app_nil_r in Hc.
  destruct m as [|a [|b [|c m]]]; simpl in *; [done|..]; rewrite ?andb_true_iff, ?negb_true_iff in *;
    destruct (ws_space a " "%char) as (H1 & _ & H3); rewrite ?H1; [destruct l; rewrite ?H3; naive_solver| |naive_solver].
  destruct (ws_space a b) as (_ & H2 & _). rewrite H2. naive_solver.
Qed.

Lemma split_join ws : Forall word_ok ws -> words [] (join_words ws) = ws.
Proof.
  induction 1 as [|w ws [Hne Hc] Hws IH]; [done|].
  destruct ws as [|w' ws].
  - simpl. rewrite <- (app_nil_r w), words_read by (by rewrite ?app_nil_r). simpl. rewrite app_nil_r.
    by destruct w.
  - change (join_words (w :: w' :: ws)) with (w ++ " "%char :: join_words (w' :: ws)).
    rewrite words_read by (by apply calm_space). revert IH. generalize (join_words (w' :: ws)) as l. intros l IH.
    simpl app. change (words w (" "%char :: l)) with (flush w ++ words [] l). rewrite IH. by destruct w.
Qed.
End words.

Lemma redacted_calm : word_ok REDACTED_JWT.
Proof.
  split; [done|]. intros k m Hk Hm. rewrite app_nil_r.
  assert (forallb (fun n => match drop n REDACTED_JWT with [] => true | l => no_front_ws ws2 ws3 l end)
            (seq 0 15) = true) as Hall by (by vm_compute).
  rewrite forallb_forall in Hall. specialize (Hall (length k)).
  rewrite Hk, drop_app_length in Hall. destruct m as [|a m]; [done|]. apply Hall.
  apply in_seq. assert (length REDACTED_JWT = length k + length (a :: m))%nat as Hl by (by rewrite Hk, length_app).
  change (length REDACTED_JWT) with 14%nat in Hl. lia.
Qed.

(** What goes to the audit log after redaction contains no word that
    looks like a JWT, whatever the text was: the words that do are replaced
    and joining the rest does not make a new one. *)
Theorem sanitized_has_no_jwt raw out :
  sanitize_runtime_detail raw = Some out -> contains_probable_jwt out = false.
Proof.
  unfold sanitize_runtime_detail. destruct (trim_for_log raw 1024) as [compact|]; [|done].
  cbn [mbind option_bind]. cbv zeta. destruct (existsb _ SENSITIVE); [intros [= <-]; by vm_compute|].
  destruct (contains_probable_jwt compact) eqn:Ej; [|by intros [= <-]]. intros [= <-].
  unfold contains_probable_jwt, redact_probable_jwt_tokens, split_whitespace. rewrite bytes_of_of.
  set (ws := words [] (bytes_of compact)).
  rewrite split_join.
  - apply not_true_is_false. intros (t & (w & <- & Hw)%in_map_iff & Ht)%existsb_exists.
    destruct (looks_like_jwt_token w) eqn:Ew; [by vm_compute in Ht|congruence].
  - apply Forall_map. eapply Forall_impl; [apply (words_ok [] (bytes_of compact)), calm_nil|].
    intros w Hw. destruct (looks_like_jwt_token w); [apply redacted_calm|done].
Qed.

Lemma sanitized_has_no_jwt_witness :
  contains_probable_jwt "token <redacted.jwt> refused" = false.
Proof.
  apply (sanitized_has_no_jwt "token eyJhbGciOiJF.eyJzY29wZSI6.c2lnbmF0dXJl refused"). vm_compute. reflexivity.
Defined.

(** A text of 1023 letters and the two bytes of [e] with an accent. *)
Definition accented_text : string :=
  repeat_byte "a" 1023 +:+ String (Ascii.ascii_of_N 195) (String (Ascii.ascii_of_N 169) EmptyString).

(** The redaction panics on a text longer than 1024 bytes whose byte
    1024 is inside a character: the text is cut there without looking for the
    boundary.  Such a text comes from an error of the wallet or from the detail
    of an authentication event. *)
Theorem long_detail_panics : sanitize_runtime_detail accented_text = None.
Proof. vm_compute. reflexivity. Qed.

(** ** Proposals satisfy the policy they are made from *)

Definition check_of (recipients : list TransferRecipient) (fee : Z) : TransferCheck :=
  MkTransferCheck 1 recipients fee 0 0.

Lemma rule_recipient_ok over rule r :
  rule_recipient over rule = Ok r -> tr_address r = rr_address rule /\ check_amount r (rr_amount rule) = Ok tt.
Proof.
  unfold rule_recipient, check_amount. intros Hr. rok. destruct (rr_amount rule) as [a|mn mx]; rok; simpl.
  - by rewrite Z.eqb_refl.
  - match goal with H : _ || _ = false |- _ => by rewrite H end.
Qed.

Lemma rule_recipients_ok over rules out :
  rule_recipients over rules = Ok out -> Forall2 (fun rule r =>
    tr_address r = rr_address rule /\ check_amount r (rr_amount rule) = Ok tt) rules out.
Proof.
  revert out. induction rules as [|rule rules IH]; simpl; intros out Hr; rok; [constructor|].
  constructor; [by eapply rule_recipient_ok|by apply IH].
Qed.

Lemma rule_for_unique policy rule :
  NoDup (map rr_address (pp_allowed_recipients policy)) -> rule ∈ pp_allowed_recipients policy ->
  rule_for policy (rr_address rule) = Some rule.
Proof.
  intros Hn Hr. unfold rule_for. eapply (find_unique rr_address); [done..|by rewrite String.eqb_refl|].
  intros x Hx. by apply String.eqb_eq.
Qed.

Lemma candidate_allowed policy rule : rule ∈ candidate_rules policy -> rule ∈ pp_allowed_recipients policy.
Proof.
  unfold candidate_rules. case_match; [|done]. rewrite !list_elem_of_In, List.filter_In. naive_solver.
Qed.

Lemma candidates_pass policy rules out :
  NoDup (map rr_address (pp_allowed_recipients policy)) ->
  (forall rule, rule ∈ rules -> rule ∈ pp_allowed_recipients policy) ->
  Forall2 (fun rule r => tr_address r = rr_address rule /\ check_amount r (rr_amount rule) = Ok tt) rules out ->
  check_recipients policy out = Ok tt.
Proof.
  intros Hn Hin Hf. induction Hf as [|rule r rules out [Ha Hc] Hf IH]; simpl; [done|].
  rewrite Ha, rule_for_unique by (done || (apply Hin; set_solver)). simpl. rewrite Hc. simpl.
  apply IH. intros x Hx. apply Hin. set_solver.
Qed.

Lemma required_covered recipients rules :
  (forall rule, rule ∈ rules -> exists r, r ∈ recipients /\ tr_address r = rr_address rule) ->
  check_required recipients rules = Ok tt.
Proof.
  induction rules as [|rule rules IH]; intros Hc; simpl; [done|].
  destruct (Hc rule ltac:(set_solver)) as (r & Hr & Ha).
  assert (existsb (fun r => tr_address r =? rr_address rule)%string recipients = true) as ->.
  { apply existsb_exists. exists r. rewrite <- list_elem_of_In. by rewrite Ha, String.eqb_refl. }
  simpl. apply IH. intros x Hx. apply Hc. set_solver.
Qed.

(** The recipients [propose] computes from a snapshot satisfy the policy
    of that very snapshot: a transaction that pays exactly them, in one
    transfer with a fee under the cap, is one that every signer's policy check
    lets through (the policy naming each address once). *)
Theorem proposal_passes_policy s action over out fee :
  proposal_recipients_from_snapshot s action over = Ok out ->
  NoDup (map rr_address (pp_allowed_recipients (policy_for s action))) -> fee <= cs_fee_cap_atomic s ->
  validate_transfer_against_snapshot s action (check_of out fee) = Ok tt.
Proof.
  unfold proposal_recipients_from_snapshot. intros Hp Hn Hfee. rok.
  apply rule_recipients_ok in Hp. set (policy := policy_for s action) in *.
  unfold validate_transfer_against_snapshot. fold policy. unfold check_of.
  cbn [tc_tx_count tc_fee tc_unlock_time tc_dummy_outputs tc_recipients].
  rewrite !andb_false_r, (proj2 (Z.ltb_ge _ _)) by done. simpl.
  rewrite (candidates_pass policy (candidate_rules policy) out); [|done|apply candidate_allowed|done]. simpl.
  apply required_covered. intros rule Hr.
  assert (rule ∈ candidate_rules policy) as Hc.
  { unfold candidate_rules. destruct (existsb rr_required _) eqn:Ex; [done|].
    apply list_elem_of_In, List.filter_In in Hr as [Hr Hq]. rewrite existsb_false in Ex.
    rewrite Ex in Hq; [done|by apply list_elem_of_In]. }
  apply list_elem_of_lookup in Hc as [i Hi]. destruct (Forall2_lookup_l _ _ _ _ _ Hp Hi) as (r & Hir & Ha & _).
  exists r. split; [by apply list_elem_of_lookup_2 in Hir|done].
Qed.

Definition demo_policy : PayoutPolicy :=
  MkPayoutPolicy [MkRecipientRule "seller" (Range 10 20) true; MkRecipientRule "fee" (Exact 3) true;
    MkRecipientRule "tip" (Exact 1) false] false false.
Definition demo_snapshot : ContractSnapshot :=
  MkSnapshot "ESCROW/1" "e1" Xmr "buyer" "seller" "arbiter" demo_policy demo_policy 100 true 0 0.

Lemma proposal_passes_policy_witness :
  validate_transfer_against_snapshot demo_snapshot Release
    (check_of [MkTransferRecipient "seller" 15; MkTransferRecipient "fee" 3] 7) = Ok tt.
Proof.
  apply (proposal_passes_policy demo_snapshot Release (Some 15)).
  - vm_compute. reflexivity.
  - simpl. apply (bool_decide_unpack _). vm_compute. exact I.
  - simpl. lia.
Defined.

(** The waits between retries grow to ten seconds and not further. *)
Lemma backoff_bounds base attempt : 50 <= mailbox_retry_backoff_ms base attempt <= 10000.
Proof. unfold mailbox_retry_backoff_ms. lia. Qed.

(** [hex::decode] undoes [hex::encode]. *)
Lemma hex_value_digit n : (n < 16)%N -> hex_value (hex_digit n) = Some n.
Proof.
  intros Hn. assert (Forall (fun n => hex_value (hex_digit n) = Some n) (map N.of_nat (seq 0 16))) as Hall
    by (vm_compute; repeat constructor).
  rewrite Forall_forall in Hall. apply Hall. apply list_elem_of_In, in_map_iff.
  exists (N.to_nat n). split; [lia|]. apply in_seq. lia.
Qed.

Lemma hex_decode_encode s : hex_decode (hex_encode s) = Some s.
Proof.
  induction s as [|c s IH]; [done|]. cbn [hex_encode]. cbv zeta. cbn [hex_decode].
  assert (Ascii.N_of_ascii c < 256)%N as Hc by (destruct c as [[] [] [] [] [] [] [] []]; vm_compute; done).
  rewrite !hex_value_digit by (first [apply N.Div0.div_lt_upper_bound; lia | apply N.mod_lt; lia]).
  cbn [mbind option_bind]. rewrite IH. cbn [mbind option_bind]. do 2 f_equal.
  rewrite <- N.div_mod by lia. apply Ascii.ascii_N_embedding.
Qed.
