(* ===== verification/AgentState.v ===== *)
(** * The signer's agent: state and environment

    What the flows of [crates/nxms-signer/src/agent] work on: the database,
    the limiter inside the token verifier and a log of the calls to the wallet,
    the orchestrator process and the mailbox.  The environment is a parameter:
    clocks, environment variables, files, the answers of the outside, which may
    depend on everything called before, and the writes other tasks of the
    process make to the database between any two accesses of this one. *)

From S2P Require Import Prelude RustString Sql Json Wire Admission Snapshot ActionToken TokenVerifier.
From S2P Require Import SignerDb SignerInv AgentSupport.

Record SignedMultisigTx : Type := MkSigned { sg_tx_data_hex : string; sg_tx_hash_list : list string }.

(** Calls to the outside. *)
Inductive Effect : Type :=
| EOpen
| EDescribe (tx : string)
| ESign (tx : string)
| ESubmit (tx : string)
| ETransfer (recipients : list TransferRecipient)
| EOrchestrator (args : list string)
| EPush (env : NxmsEnvelope)
| EPull
| EAck (receipt : string).

Record agent : Type := Agent {
  ag_db : sdb;
  ag_limiter : VerifyRateLimiter;
  ag_ticks : nat;
  ag_log : list Effect;
}.

(** The row of the request cache, [SignRequestCachedResult]. *)
Record SignRequestCachedResult : Type := MkCached {
  cr_op : string; cr_tx_data_hex : option string; cr_tx_hash_list : list string }.
(** [ApprovedSendState] and [RejectedSendState] of [pending.rs]. *)
Record ApprovedSendState : Type := MkApprovedState {
  av_signed_tx_data_hex : string; av_tx_hash_list : list string; av_out_seq : option Z }.
Record RejectedSendState : Type := MkRejectedState { rj_reason : string; rj_out_seq : option Z }.
Record ProofBundle : Type := MkProofBundle {
  pb_escrow_id_hex : string;
  pb_txset_hash_hex : string;
  pb_proof_arbiter_jti : string;
  pb_proof_arbiter_req_id : string;
  pb_proof_seller_jti : string;
  pb_proof_seller_req_id : string;
  pb_arbiter_proof_updated_at_ms : Z;
  pb_seller_proof_updated_at_ms : Z;
  pb_generated_at_ms : Z;
}.
(** What [std::fs] says about a secret file. *)
Record secret_file : Type := SecretFile { sf_is_file : bool; sf_mode : Z; sf_content : result string string }.
Record Peer : Type := MkPeer { pe_kem_pk_b64 : string; pe_sig_pk_b64 : string }.
Record SealedPacket : Type := MkSealed {
  sl_kem_ct_b64 : string; sl_nonce_b64 : string; sl_ciphertext_b64 : string; sl_tag_b64 : string; sl_sig_b64 : string }.

(** [serde_json] and the other libraries. *)
Class AgentLib : Type := {
  sha256 : string -> string;
  sha3_256 : string -> string;
  b64_decode : string -> option string;
  b64_text : string -> string;
  hex_text : string -> string;
  falcon_verify : string -> string -> string -> bool;
  json_to_vec : json -> string;
  snapshot_to_value : ContractSnapshot -> json;
  snapshot_from_str : string -> result string ContractSnapshot;
  artifact_from_str : string -> result string EscrowAdmissionArtifact;
  artifact_to_str : EscrowAdmissionArtifact -> string;
  cached_from_str : string -> result string SignRequestCachedResult;
  cached_to_str : SignRequestCachedResult -> string;
  action_from_str : string -> result string EscrowAction;
  action_to_str : EscrowAction -> string;
  approved_from_str : string -> result string ApprovedSendState;
  approved_to_str : ApprovedSendState -> string;
  rejected_from_str : string -> result string RejectedSendState;
  rejected_to_str : RejectedSendState -> string;
  bundle_from_str : string -> result string ProofBundle;
  body_from_str : string -> result string EscrowBody;
  body_to_str : EscrowBody -> string;
  payload_from_slice : string -> result string NxmsPayload;
  payload_to_vec : NxmsPayload -> string;
  envelope_to_vec : NxmsEnvelope -> string;
  (** the texts of the errors of the components the agent calls *)
  verify_text : VerifyError -> string;
  snapshot_text : SnapshotError -> string;
  admission_error_text : AdmissionError -> string;
  wire_text : WireError -> string;
  (** the iteration order of the limiter's map *)
  limiter_iter : rate_map -> list (string * VerifyRateEntry);
}.

Class AgentEnv : Type := {
  env_now : nat -> nat -> Z;
  env_now_s : nat -> nat -> Z;
  env_others : nat -> list SignerOp;
  env_others_limiter : nat -> VerifyRateLimiter -> VerifyRateLimiter;
  env_var : string -> option string;
  env_file : string -> result string secret_file;
  wallet_open : list Effect -> result string unit;
  wallet_describe : list Effect -> string -> result string (TransferCheck * string);
  wallet_sign : list Effect -> string -> result string SignedMultisigTx;
  wallet_submit : list Effect -> string -> result string (list string);
  wallet_transfer : list Effect -> list TransferRecipient -> result string string;
  orchestrator_process : list Effect -> list string -> result string string;
  mailbox_push : list Effect -> NxmsEnvelope -> result string bool;
  mailbox_pull : list Effect -> result string (list (string * NxmsEnvelope));
  mailbox_ack : list Effect -> string -> result string unit;
  (** sealing is randomised: the first argument tells two calls apart *)
  nxms_encrypt : nat -> string -> string -> string -> string -> Z -> string -> string -> string -> result string SealedPacket;
  nxms_decrypt : string -> string -> string -> string -> Z -> SealedPacket -> string -> string -> result string string;
}.

(** The fields of [SignerAgent] and of its configuration the flows read. *)
Record SignerAgent `{Jwt} : Type := MkSignerAgent {
  sa_local_id : string;
  sa_signer_role : Role;
  sa_max_txset_hex_len : Z;
  sa_production_hardening : bool;
  sa_mailbox_retry_attempts : Z;
  sa_peers : gmap string Peer;
  sa_kem_sk : result string string;
  sa_sig_sk : result string string;
  sa_verifier : option ActionTokenVerifier;
  sa_runtime_trust_bundle : option TrustBundle;
}.

(** ** Computations of a task *)

Notation AG := (M agent AgentError).

Section computations.
Context `{SignerExt} `{AgentEnv}.

Definition set_db (d : sdb) (s : agent) : agent := Agent d (ag_limiter s) (S (ag_ticks s)) (ag_log s).
Definition push_log (e : Effect) (s : agent) : agent := Agent (ag_db s) (ag_limiter s) (ag_ticks s) (ag_log s ++ [e]).

(** The database as this task finds it at its next access. *)
Definition interfered (s : agent) : sdb := (run_signer (env_others (ag_ticks s)) (ag_db s)).1.
(** One access to the database, with the clock readings of the operation. *)
Definition access {A} (m : Z -> Z -> M sdb string A) : AG A :=
  fun s => let '(d, r) := m (env_now (ag_ticks s) 0) (env_now (ag_ticks s) 1) (interfered s) in
           (set_db d s, map_err Anyhow r).
Definition read {A} (m : M sdb string A) : AG A := access (fun _ _ => m).
Definition clock : AG Z := fun s => (set_db (interfered s) s, Ok (env_now (ag_ticks s) 0)).

(** A call to the outside. *)
Definition call {A} (e : Effect) (answer : list Effect -> result string A) : AG A :=
  fun s => (push_log e s, map_err Anyhow (answer (ag_log s))).
(** [match m.await { Ok(..) => .., Err(err) => .. }]; a panic is not caught. *)
Definition attempt {A} (m : AG A) : AG (result string A) :=
  fun s => match m s with
           | (s', Ok a) => (s', Ok (Ok a))
           | (s', Err (Anyhow e)) => (s', Ok (Err e))
           | (s', Err Panic) => (s', Err Panic)
           end.
(** [let _ = m.await] *)
Definition ignore {A} (m : AG A) : AG unit := let* _ := attempt m in sret tt.
Definition lift_text {E A} (text : E -> string) (r : result E A) : AG A :=
  slift (map_err (fun e => Anyhow (text e)) r).
Definition lift {A} (r : result string A) : AG A := slift (map_err Anyhow r).
Definition fail {A} (msg : string) : AG A := sfail (Anyhow msg).
Definition or_panic {A} (o : option A) : AG A := slift (ok_or o Panic).
(** [.ok_or_else(|| anyhow!(..))?] *)
Definition require {A} (o : option A) (msg : string) : AG A := slift (ok_or o (Anyhow msg)).
Definition fail_when (b : bool) (msg : string) : AG unit := slift (fail_if b (Anyhow msg)).
(** [.map_err(|e| anyhow!("prefix{}", e))?] *)
Definition with_prefix {A} (prefix : string) (m : AG A) : AG A :=
  let* r := attempt m in
  match r with Ok a => sret a | Err e => fail (prefix +:+ e) end.
End computations.
