(* ===== verification/OrchBridge.v ===== *)
(** * The signer's bridge to the orchestrator

    [crates/nxms-signer/src/orchestrator_bridge.rs]: when proofs of signatures
    are stored with the orchestrator and checked against it, the bridge token
    and the arguments of the orchestrator process.  The process itself and the
    files are the environment's. *)

From S2P Require Import Prelude RustString Sql Json Wire Admission Snapshot ActionToken TokenVerifier.
From S2P Require Import SignerDb SignerInv AgentSupport AgentState.

Definition ENV_STORE : string := "NXMS_SIGNER_ORCH_QUORUM_PROOF_STORE".
Definition ENV_STORE_REQUIRED : string := "NXMS_SIGNER_ORCH_QUORUM_PROOF_STORE_REQUIRED".
Definition ENV_VERIFY : string := "NXMS_SIGNER_ORCH_QUORUM_PROOF_VERIFY".
Definition ENV_ORCH_CONFIG_PATH : string := "NXMS_ORCH_CONFIG_PATH".
Definition ENV_BRIDGE_TOKEN : string := "NXMS_SIGNER_ORCH_BRIDGE_TOKEN".
Definition ENV_BRIDGE_TOKEN_REF : string := "NXMS_SIGNER_ORCH_BRIDGE_TOKEN_REF".

Inductive SecretRefKind : Type := RefEnv | RefFile | RefVault | RefLiteral.
#[export] Instance SecretRefKind_eq : EqDecision SecretRefKind.
Proof. solve_decision. Defined.

(** [normalize_hex_exact] of this file lower-cases before it measures. *)
Definition bridge_hex_exact (value : string) (expected_len : Z) (label : string) : result string string :=
  let out := to_ascii_lowercase (trim value) in
  let? _ := fail_if (negb (len out =? expected_len) || negb (sall is_ascii_hexdigit out))
              (label +:+ " must be " +:+ dec expected_len +:+ " hex chars") in
  Ok out.
Definition normalize_non_empty (value label : string) : result string string :=
  let out := trim value in
  let? _ := fail_if (is_empty out) (label +:+ " must not be empty") in Ok out.

Fixpoint redact_args (redact_next : bool) (args : list string) : list string :=
  match args with
  | [] => []
  | arg :: rest =>
      if redact_next then "<redacted>"%string :: redact_args false rest
      else arg :: redact_args (arg =? "--bridge-token")%string rest
  end.
Definition redact_args_for_log (args : list string) : string := String.concat " " (redact_args false args).

(** The mode is the octal number of the permission bits. *)
Definition group_or_other (mode : Z) : bool := negb (Z.land (Z.land mode 511) 63 =? 0).
Definition octal3 (mode : Z) : string :=
  let m := Z.land mode 511 in dec (m / 64) +:+ dec (m / 8 mod 8) +:+ dec (m mod 8).

Section bridge.
Context `{Jwt} `{SignerExt} `{AgentLib} `{AgentEnv}.

Definition env_true (name : string) : bool :=
  let trimmed := trim (default ""%string (env_var name)) in
  eq_ignore_ascii_case trimmed "true" || (trimmed =? "1")%string.

Definition resolve_submit_verify_mode (production_hardening verify_env_enabled : bool) : result string bool :=
  if verify_env_enabled then Ok true
  else if production_hardening
  then Err ("production_hardening=true requires " +:+ ENV_VERIFY +:+ "=true") else Ok false.

Definition read_secret_file (path label : string) (require_owner_only : bool) : result string string :=
  let? f := map_err (fun e => label +:+ " failed to read metadata for '" +:+ path +:+ "': " +:+ e) (env_file path) in
  let? _ := fail_if (negb (sf_is_file f))
              (label +:+ " secret source '" +:+ path +:+ "' is not a regular file") in
  let? _ := fail_if (require_owner_only && group_or_other (sf_mode f))
              (label +:+ " vault file '" +:+ path +:+ "' must not be group/other accessible (mode "
               +:+ octal3 (sf_mode f) +:+ ")") in
  let? value := map_err (fun e => label +:+ " failed to read file '" +:+ path +:+ "': " +:+ e) (sf_content f) in
  let out := trim value in
  let? _ := fail_if (is_empty out) (label +:+ " file '" +:+ path +:+ "' is empty") in
  Ok out.

Definition resolve_secret_reference (raw label : string) (vault_owner_only : bool)
    : result string (string * SecretRefKind) :=
  let trimmed := trim raw in
  match strip_prefix "env:" trimmed with
  | Some var_name =>
      let key := trim var_name in
      let? _ := fail_if (is_empty key) (label +:+ " env: prefix without variable name") in
      let? value := ok_or (env_var key) (label +:+ " env variable '" +:+ key +:+ "' is missing") in
      let out := trim value in
      let? _ := fail_if (is_empty out) (label +:+ " env variable '" +:+ key +:+ "' is empty") in
      Ok (out, RefEnv)
  | None =>
  match strip_prefix "vault:" trimmed with
  | Some path_raw =>
      let path := trim path_raw in
      let? _ := fail_if (is_empty path) (label +:+ " vault: prefix without path") in
      let? value := read_secret_file path label vault_owner_only in
      Ok (value, RefVault)
  | None =>
  match strip_prefix "file:" trimmed with
  | Some path_raw =>
      let path := trim path_raw in
      let? _ := fail_if (is_empty path) (label +:+ " file: prefix without path") in
      let? value := read_secret_file path label false in
      Ok (value, RefFile)
  | None => Ok (trimmed, RefLiteral)
  end end end.

Definition bridge_token : result string (option (string * SecretRefKind)) :=
  match env_var ENV_BRIDGE_TOKEN_REF with
  | Some raw_ref =>
      let trimmed_ref := trim raw_ref in
      let? _ := fail_if (is_empty trimmed_ref) (ENV_BRIDGE_TOKEN_REF +:+ " is set but empty") in
      let? found := resolve_secret_reference trimmed_ref ENV_BRIDGE_TOKEN_REF true in
      Ok (Some found)
  | None =>
      Ok ((fun v => (v, RefLiteral)) <$> opt_non_blank (env_var ENV_BRIDGE_TOKEN))
  end.

Definition orchestrator_config_path : option string := opt_non_blank (env_var ENV_ORCH_CONFIG_PATH).
Definition require_orchestrator_config_path : result string string :=
  ok_or orchestrator_config_path ("missing orchestrator config path: set " +:+ ENV_ORCH_CONFIG_PATH
    +:+ " to the canonical orchestrator TOML").

Definition enforce_production_requirements (production_hardening : bool) : result string unit :=
  let? verify_enabled := resolve_submit_verify_mode production_hardening (env_true ENV_VERIFY) in
  if negb (env_true ENV_STORE || env_true ENV_STORE_REQUIRED || verify_enabled) then Ok tt
  else
    let? _ := require_orchestrator_config_path in
    let? found := bridge_token in
    let? (token, source) := ok_or found ("missing bridge token: set " +:+ ENV_BRIDGE_TOKEN_REF
      +:+ "=vault:/path (preferred) or " +:+ ENV_BRIDGE_TOKEN +:+ " (legacy)") in
    let? _ := fail_if (len token <? 32) ("bridge token must have min 32 chars (source: " +:+
      match source with RefEnv => "env reference" | RefFile => "file reference"
                      | RefVault => "vault reference" | RefLiteral => "legacy env" end +:+ ")") in
    if production_hardening then
      let? _ := fail_if (negb (bool_decide (source = RefVault)))
        ("production_hardening=true requires " +:+ ENV_BRIDGE_TOKEN_REF +:+ " to use vault:/path (legacy "
         +:+ ENV_BRIDGE_TOKEN +:+ " is not allowed)") in
      fail_if (match env_var ENV_BRIDGE_TOKEN_REF with Some v => is_empty (trim v) | None => false end)
        ("production_hardening=true requires non-empty " +:+ ENV_BRIDGE_TOKEN_REF)
    else Ok tt.

(** The configuration path and the token are read before the process starts. *)
Definition run_orchestrator_command (args : list string) : AG string :=
  let* _ := lift require_orchestrator_config_path in
  let* _ := lift bridge_token in
  call (EOrchestrator args) (fun log => orchestrator_process log args).

Definition store_quorum_sign_proof (escrow_id_hex role sign_round txset_hash_hex jti req_id : string) : AG unit :=
  let* escrow_id_hex := lift (bridge_hex_exact escrow_id_hex 32 "escrow_id_hex") in
  let* role := lift (normalize_non_empty role "role") in
  let* sign_round := lift (normalize_non_empty sign_round "sign_round") in
  let* txset_hash_hex := lift (bridge_hex_exact txset_hash_hex 64 "txset_hash_hex") in
  let* jti := lift (normalize_non_empty jti "jti") in
  let* _ := fail_when (256 <? len jti) "jti too long (max 256 chars)" in
  let* req_id := lift (bridge_hex_exact req_id 64 "req_id") in
  let* _ := run_orchestrator_command
    ["quorum-proof"; "set"; "--escrow-id-hex"; escrow_id_hex; "--role"; role; "--sign-round"; sign_round;
     "--txset-hash-hex"; txset_hash_hex; "--jti"; jti; "--req-id"; req_id]%string in
  sret tt.

Definition maybe_store_quorum_sign_proof (escrow_id_hex role sign_round txset_hash_hex jti req_id : string) : AG unit :=
  if negb (env_true ENV_STORE) then sret tt
  else
    let required := env_true ENV_STORE_REQUIRED in
    let* r := attempt (store_quorum_sign_proof escrow_id_hex role sign_round txset_hash_hex jti req_id) in
    match r with
    | Ok _ => sret tt
    | Err err => if required then fail err else sret tt
    end.

Definition fetch_submit_multisig_proof_bundle (escrow_id_hex txset_hash_hex : string) : AG ProofBundle :=
  let* escrow_id_hex := lift (bridge_hex_exact escrow_id_hex 32 "escrow_id_hex") in
  let* txset_hash_hex := lift (bridge_hex_exact txset_hash_hex 64 "txset_hash_hex") in
  let* stdout := run_orchestrator_command
    ["quorum-proof"; "submit-bundle"; "--escrow-id-hex"; escrow_id_hex; "--txset-hash-hex"; txset_hash_hex]%string in
  let* bundle := lift (map_err (fun e => "orchestrator quorum-proof submit-bundle decode failed: " +:+ e)
                         (bundle_from_str stdout)) in
  let* _ := fail_when (negb (pb_escrow_id_hex bundle =? escrow_id_hex)%string
                       || negb (pb_txset_hash_hex bundle =? txset_hash_hex)%string)
              "orchestrator quorum-proof submit-bundle mismatch for escrow/hash" in
  sret bundle.

Definition verify_submit_seller_quorum_proof (escrow_id_hex txset_hash_hex token_seller_jti token_seller_req_id : string)
    (production_hardening : bool) : AG unit :=
  let* verify_enabled := lift (resolve_submit_verify_mode production_hardening (env_true ENV_VERIFY)) in
  if negb verify_enabled then sret tt
  else
    let* bundle := fetch_submit_multisig_proof_bundle escrow_id_hex txset_hash_hex in
    fail_when (negb (pb_proof_seller_jti bundle =? token_seller_jti)%string
               || negb (pb_proof_seller_req_id bundle =? token_seller_req_id)%string)
      "submit denied: orchestrator seller quorum proof mismatch (token vs orchestrator)".

Definition verify_submit_quorum_proof_bundle (escrow_id_hex txset_hash_hex token_arbiter_jti token_arbiter_req_id
    token_seller_jti token_seller_req_id : string) (production_hardening : bool) : AG unit :=
  let* verify_enabled := lift (resolve_submit_verify_mode production_hardening (env_true ENV_VERIFY)) in
  if negb verify_enabled then sret tt
  else
    let* bundle := fetch_submit_multisig_proof_bundle escrow_id_hex txset_hash_hex in
    fail_when (negb (pb_proof_arbiter_jti bundle =? token_arbiter_jti)%string
               || negb (pb_proof_arbiter_req_id bundle =? token_arbiter_req_id)%string
               || negb (pb_proof_seller_jti bundle =? token_seller_jti)%string
               || negb (pb_proof_seller_req_id bundle =? token_seller_req_id)%string)
      "submit token issuance denied: orchestrator quorum proof bundle mismatch".
End bridge.
