(* ===== verification/AgentFlows.v ===== *)
(** * The signing and submitting flows

    [crates/nxms-signer/src/agent/flow_ops.rs] and the admission checks of
    [agent.rs].  The two flows share their beginning ([prepare]: the snapshot
    in force, the admission, the policy check of what the wallet says the
    transaction does) and the gate in front of the wallet ([token_gate]: the
    token, the request id, the token id). *)

From S2P Require Import Prelude RustString Sql Json Wire Admission Snapshot ActionToken TokenVerifier.
From S2P Require Import SignerDb SignerInv AgentSupport AgentState OrchBridge.

(** What the audit entries of a flow say about the token. *)
Record audit_ctx : Type := AuditCtx {
  ac_role : string; ac_sign_round : string; ac_req_id : option string; ac_jti : option string; ac_exp : option Z }.
(** To whom a rejection is addressed: [to_id] and [seq] of the audit entry. *)
Record audit_peer : Type := AuditPeer { ap_to_id : option string; ap_seq : option Z }.
Definition no_peer : audit_peer := AuditPeer None None.

Inductive gate_result : Type :=
| GateOpen (ctx : audit_ctx) (verified : option VerifiedSignToken)
| GateCached (ctx : audit_ctx) (json : string).

Definition action_eqb (a b : EscrowAction) : bool :=
  match a, b with Release, Release | Refund, Refund => true | _, _ => false end.
Definition action_debug (a : EscrowAction) : string :=
  match a with Release => "Release" | Refund => "Refund" end.
Definition signer_role_key : Role -> string := role_key.
Definition default_sign_round : Role -> string := expected_sign_round.
Definition default_submit_round : Role -> string := expected_submit_round.

(** What differs between the two operations. *)
Definition op_name (op : ActionTokenOp) : string := op_claim_value op.
Definition op_verb (op : ActionTokenOp) : string := match op with SignMultisig => "sign" | SubmitMultisig => "submit" end.
Definition op_round (op : ActionTokenOp) (r : Role) : string :=
  match op with SignMultisig => default_sign_round r | SubmitMultisig => default_submit_round r end.

Section flows.
Context `{Jwt} `{SignerExt} `{AgentLib} `{AgentEnv}.
Context (self : SignerAgent).

Definition best_effort_audit (event : AuditLogInsert) : AG unit :=
  ignore (access (fun now _ => append_audit_log_sync now event)).

(** [audit_security_detail] followed by [best_effort_audit]. *)
Definition security_audit (op : ActionTokenOp) (kind escrow_id_hex : string) (peer : audit_peer)
    (txset_hash_hex snapshot_hash : string) (ctx : audit_ctx) (result decision : string) (reason : option string) : AG unit :=
  let* detail := or_panic (audit_security_detail (op_name op) (ac_role ctx) (ac_sign_round ctx) (ac_req_id ctx)
    txset_hash_hex snapshot_hash (ac_jti ctx) (ac_exp ctx) result reason) in
  best_effort_audit (MkAuditInsert kind escrow_id_hex (Some (sa_local_id self)) (ap_to_id peer) (ap_seq peer) None
    (Some txset_hash_hex) (Some decision) (Some detail)).

(** The rejection every failing branch of the gate ends with. *)
Definition reject {A} (op : ActionTokenOp) (escrow_id_hex : string) (peer : audit_peer)
    (txset_hash_hex snapshot_hash : string) (ctx : audit_ctx) (err : string) : AG A :=
  let* _ := security_audit op (op_verb op +:+ "_reject") escrow_id_hex peer txset_hash_hex snapshot_hash ctx
              "reject" "rejected" (Some err) in
  fail err.

(** ** Admission *)

Definition requires_escrow_admission : bool :=
  match sa_runtime_trust_bundle self with Some _ => true | None => false end.

Definition verify_escrow_admission_artifact (artifact : EscrowAdmissionArtifact) (escrow_id_hex snapshot_hash_hex : string)
    (action : EscrowAction) : AG string :=
  let* bundle := require (sa_runtime_trust_bundle self) "runtime trust bundle not configured" in
  let* _ := lift_text admission_error_text
    (verify_against_bundle sha256 json_to_vec b64_decode falcon_verify artifact bundle) in
  let* _ := fail_when (negb (eq_ignore_ascii_case (aa_escrow_id_hex artifact) escrow_id_hex))
              "escrow admission escrow_id mismatch" in
  let* _ := fail_when (negb (eq_ignore_ascii_case (aa_snapshot_hash_hex artifact) snapshot_hash_hex))
              "escrow admission snapshot_hash mismatch" in
  let* _ := fail_when (negb (action_eqb (aa_action artifact) action)) "escrow admission action mismatch" in
  sret (artifact_hash_hex sha256 json_to_vec artifact).

Definition validate_stored_escrow_admission (escrow_id_hex snapshot_hash_hex : string) (action : EscrowAction)
    (expected_hash_hex : option string) : AG unit :=
  match sa_runtime_trust_bundle self with
  | None => sret tt
  | Some _ =>
      let* found := read (get_escrow_admission_artifact_sync escrow_id_hex) in
      let* row := require found ("missing escrow admission artifact for escrow " +:+ escrow_id_hex) in
      let* artifact := lift (artifact_from_str (ar_artifact_json row)) in
      let* actual_hash_hex := verify_escrow_admission_artifact artifact escrow_id_hex snapshot_hash_hex action in
      let* _ := fail_when (negb (eq_ignore_ascii_case actual_hash_hex (ar_artifact_hash_hex row)))
                  "stored escrow admission hash drift detected" in
      match expected_hash_hex with
      | Some expected =>
          let* expected := slift (normalize_hex_exact expected 64 "action_token.escrow_admission_hash") in
          fail_when (negb (actual_hash_hex =? expected)%string) "action token escrow_admission_hash mismatch"
      | None => sret tt
      end
  end.

Definition policy_hash (snapshot : ContractSnapshot) : string :=
  canonical_policy_hash_sha256_hex sha256 snapshot_to_value json_to_vec snapshot.

(** ** Before the gate *)

(** What a flow knows when it reaches the gate. *)
Record prepared : Type := Prepared {
  pr_escrow_id_hex : string; pr_tx_data_hex : string; pr_txset_hash_hex : string; pr_snapshot_hash : string }.

(** The wallet's description of a transaction satisfies the policy. *)
Definition describe_and_validate (during tx : string) (snapshot : ContractSnapshot) (action : EscrowAction) : AG unit :=
  let* (check, _) := with_prefix ("describe_transfer failed during " +:+ during +:+ ": ")
    (call (EDescribe tx) (fun log => wallet_describe log tx)) in
  lift_text snapshot_text (validate_transfer_against_snapshot snapshot action check).

Definition load_active_snapshot (escrow_id_hex : string) : AG ContractSnapshot :=
  let* found := read (active_snapshot_for_escrow_sync escrow_id_hex) in
  let* active := require found ("no active snapshot for escrow " +:+ escrow_id_hex) in
  lift (snapshot_from_str (sr_snapshot_json active)).

Definition open_wallet : AG unit := call EOpen wallet_open.

Definition prepare (op : ActionTokenOp) (escrow_id_hex : string) (action : EscrowAction) (tx_data_hex : string)
    : AG prepared :=
  let* escrow_id_hex := slift (normalize_hex_exact escrow_id_hex 32 "escrow_id_hex") in
  let* tx_data_hex := slift (validate_tx_data_hex tx_data_hex (sa_max_txset_hex_len self)) in
  let* txset_hash_hex := slift (txset_sha256_hex sha256 tx_data_hex) in
  let* snapshot := load_active_snapshot escrow_id_hex in
  let snapshot_hash_for_token := policy_hash snapshot in
  let* _ := if requires_escrow_admission
            then validate_stored_escrow_admission escrow_id_hex snapshot_hash_for_token action None else sret tt in
  let* _ := open_wallet in
  let* _ := describe_and_validate (op_verb op) tx_data_hex snapshot action in
  sret (Prepared escrow_id_hex tx_data_hex txset_hash_hex snapshot_hash_for_token).

(** ** The gate *)

Definition verify_op (op : ActionTokenOp) (v : ActionTokenVerifier) (now1 now2 now3 : Z) (token : Token) (p : prepared)
    : M VerifyRateLimiter VerifyError VerifiedSignToken :=
  match op with
  | SignMultisig => verify_sign_multisig sha256 limiter_iter v now1 now2 now3 token
      (pr_escrow_id_hex p) (pr_txset_hash_hex p) (pr_snapshot_hash p)
  | SubmitMultisig => verify_submit_multisig sha256 limiter_iter v now1 now2 now3 token
      (pr_escrow_id_hex p) (pr_txset_hash_hex p) (pr_snapshot_hash p)
  end.
(** The limiter inside the verifier is shared with the other tasks. *)
Definition verify_token (op : ActionTokenOp) (v : ActionTokenVerifier) (token : Token) (p : prepared)
    : AG (result string VerifiedSignToken) :=
  fun s =>
    let t := ag_ticks s in
    let '(l, r) := verify_op op v (env_now_s t 0) (env_now_s t 1) (env_now_s t 2) token p
                     (env_others_limiter t (ag_limiter s)) in
    (Agent (interfered s) l (S t) (ag_log s), Ok (map_err verify_text r)).

Definition token_ctx (v : VerifiedSignToken) : audit_ctx :=
  let c := vt_claims v in
  AuditCtx (c_role c) (c_sign_round c) (Some (vt_req_id v)) (Some (c_jti c)) (Some (c_exp c)).
Definition initial_ctx (op : ActionTokenOp) : audit_ctx :=
  AuditCtx (signer_role_key (sa_signer_role self)) (op_round op (sa_signer_role self)) None None None.

Definition start_request (op : ActionTokenOp) (v : VerifiedSignToken) (p : prepared) : AG unit :=
  access (fun now now2 => start_sign_request_sync now now2 (vt_req_id v) (pr_escrow_id_hex p) (op_name op)
                            (c_sign_round (vt_claims v)) (pr_txset_hash_hex p)).
Definition consume_jti (op : ActionTokenOp) (v : VerifiedSignToken) (p : prepared) : AG unit :=
  access (fun now _ => consume_action_jti_sync now (c_jti (vt_claims v)) (pr_escrow_id_hex p) (op_name op)
                         (c_sign_round (vt_claims v)) (vt_req_id v) (c_exp (vt_claims v))).
Definition abort_request (req_id : string) : AG unit := ignore (read (abort_sign_request_sync req_id)).

Definition metadata_match (op : ActionTokenOp) (v : VerifiedSignToken) (p : prepared) (existing : SignRequestRow) : bool :=
  (rr_escrow_id_hex existing =? pr_escrow_id_hex p)%string && (rr_op existing =? op_name op)%string
  && (rr_sign_round existing =? c_sign_round (vt_claims v))%string
  && eq_ignore_ascii_case (rr_txset_hash_hex existing) (pr_txset_hash_hex p).

(** A request id that is already in the table. *)
Definition duplicate_request (op : ActionTokenOp) (v : VerifiedSignToken) (p : prepared) : AG gate_result :=
  let ctx := token_ctx v in
  let rej {A} : string -> AG A := reject op (pr_escrow_id_hex p) no_peer (pr_txset_hash_hex p) (pr_snapshot_hash p) ctx in
  let* found := read (get_sign_request_sync (vt_req_id v)) in
  let* existing := require found ("duplicate req_id " +:+ vt_req_id v +:+ " reported but no request row found") in
  if negb (metadata_match op v p existing)
  then rej ("duplicate req_id " +:+ vt_req_id v +:+ " has conflicting request metadata")
  else if (rr_status existing =? "completed")%string then
    let* r := attempt (consume_jti op v p) in
    match r with
    | Err err => rej err
    | Ok _ =>
        let* cached := read (get_sign_request_result_sync (vt_req_id v)) in
        let* cached_json := require cached
          ("duplicate req_id " +:+ vt_req_id v +:+ " completed but cached result missing") in
        sret (GateCached ctx cached_json)
    end
  else rej ("req_id " +:+ vt_req_id v +:+ " already in progress").

Definition token_gate (op : ActionTokenOp) (p : prepared) (action : EscrowAction) (action_token : option Token)
    : AG gate_result :=
  match sa_verifier self with
  | None => sret (GateOpen (initial_ctx op) None)
  | Some verifier =>
      let rej {A} (ctx : audit_ctx) : string -> AG A :=
        reject op (pr_escrow_id_hex p) no_peer (pr_txset_hash_hex p) (pr_snapshot_hash p) ctx in
      match action_token with
      | None => rej (initial_ctx op) ("action token required for " +:+ op_verb op +:+ " in current signer configuration")
      | Some token =>
          let* r := verify_token op verifier token p in
          match r with
          | Err err => rej (initial_ctx op) err
          | Ok v =>
              let ctx := token_ctx v in
              let* _ := if requires_escrow_admission
                        then validate_stored_escrow_admission (pr_escrow_id_hex p) (pr_snapshot_hash p) action
                               (c_escrow_admission_hash (vt_claims v)) else sret tt in
              let* r := attempt (start_request op v p) in
              match r with
              | Err err => if contains "duplicate req_id" err then duplicate_request op v p else rej ctx err
              | Ok _ =>
                  let* r := attempt (consume_jti op v p) in
                  match r with
                  | Err err => let* _ := abort_request (vt_req_id v) in rej ctx err
                  | Ok _ => sret (GateOpen ctx (Some v))
                  end
              end
          end
      end
  end.

(** ** The cache *)

Definition serialize_sign_cached_result (signed : SignedMultisigTx) : string :=
  cached_to_str (MkCached "sign_multisig" (Some (sg_tx_data_hex signed)) (sg_tx_hash_list signed)).
Definition serialize_submit_cached_result (tx_hash_list : list string) : string :=
  cached_to_str (MkCached "submit_multisig" None tx_hash_list).
Definition parse_cached_sign_result (raw : string) : result string SignedMultisigTx :=
  let? parsed := cached_from_str raw in
  let? _ := fail_if (negb (cr_op parsed =? "sign_multisig")%string)
              ("cached result op mismatch for sign_multisig: " +:+ cr_op parsed) in
  let? tx_data_hex := ok_or (cr_tx_data_hex parsed) "cached sign result missing tx_data_hex"%string in
  let? _ := fail_if (is_empty (trim tx_data_hex)) "cached sign result has empty tx_data_hex"%string in
  Ok (MkSigned tx_data_hex (cr_tx_hash_list parsed)).
Definition parse_cached_submit_result (raw : string) : result string (list string) :=
  let? parsed := cached_from_str raw in
  let? _ := fail_if (negb (cr_op parsed =? "submit_multisig")%string)
              ("cached result op mismatch for submit_multisig: " +:+ cr_op parsed) in
  Ok (cr_tx_hash_list parsed).

(** ** Signing *)

Definition abort_if (req_id : option string) : AG unit :=
  match req_id with Some req_id => abort_request req_id | None => sret tt end.
Definition complete_if (op : ActionTokenOp) (req_id : option string) (cached_json : string) : AG unit :=
  match req_id with
  | Some req_id => access (fun now now2 => complete_sign_request_with_result_sync now now2 req_id (op_name op) cached_json)
  | None => sret tt
  end.
Definition hashes_reason (tx_hash_list : list string) : string := "tx_hashes=" +:+ String.concat "," tx_hash_list.

Definition record_event (ctx : audit_ctx) (p : prepared) (txset_hash jti req_id : string) : AG unit :=
  access (fun now _ => record_sign_event_sync now (pr_escrow_id_hex p) (ac_role ctx) (ac_sign_round ctx)
                         txset_hash jti req_id).
Definition store_proof (ctx : audit_ctx) (p : prepared) (txset_hash jti req_id : string) : AG unit :=
  maybe_store_quorum_sign_proof (pr_escrow_id_hex p) (ac_role ctx) (ac_sign_round ctx) txset_hash jti req_id.

(** The events and proofs of a signature: once for the requested transaction
    and once for the signed one. *)
Definition record_signature (ctx : audit_ctx) (p : prepared) (signed : SignedMultisigTx) : AG unit :=
  match ac_jti ctx, ac_req_id ctx with
  | Some jti, Some req_id =>
      let* _ := record_event ctx p (pr_txset_hash_hex p) jti req_id in
      let* _ := store_proof ctx p (pr_txset_hash_hex p) jti req_id in
      let* signed_txset_hash_hex := slift (txset_sha256_hex sha256 (sg_tx_data_hex signed)) in
      let artifact_req_id := sign_req_id sha256 (pr_escrow_id_hex p) "sign_multisig" (ac_sign_round ctx) signed_txset_hash_hex in
      let* _ := record_event ctx p signed_txset_hash_hex jti artifact_req_id in
      store_proof ctx p signed_txset_hash_hex jti artifact_req_id
  | _, _ => sret tt
  end.

(** From the open gate to the answer. *)
Definition sign_and_record (p : prepared) (ctx : audit_ctx) : AG SignedMultisigTx :=
  let audit := security_audit SignMultisig in
  let* _ := audit "sign_attempt"%string (pr_escrow_id_hex p) no_peer (pr_txset_hash_hex p) (pr_snapshot_hash p) ctx
              "attempt"%string "attempt"%string None in
  let* r := attempt (call (ESign (pr_tx_data_hex p)) (fun log => wallet_sign log (pr_tx_data_hex p))) in
  match r with
  | Err err =>
      let* _ := abort_if (ac_req_id ctx) in
      reject SignMultisig (pr_escrow_id_hex p) no_peer (pr_txset_hash_hex p) (pr_snapshot_hash p) ctx err
  | Ok signed =>
      let* _ := complete_if SignMultisig (ac_req_id ctx) (serialize_sign_cached_result signed) in
      let* _ := record_signature ctx p signed in
      let* _ := audit "sign_success"%string (pr_escrow_id_hex p) no_peer (pr_txset_hash_hex p) (pr_snapshot_hash p) ctx
                  "success"%string "approved"%string (Some (hashes_reason (sg_tx_hash_list signed))) in
      sret signed
  end.

Definition sign_multisig_flow (escrow_id_hex : string) (action : EscrowAction) (tx_data_hex : string)
    (action_token : option Token) : AG SignedMultisigTx :=
  let* p := prepare SignMultisig escrow_id_hex action tx_data_hex in
  let* g := token_gate SignMultisig p action action_token in
  match g with
  | GateCached ctx cached_json =>
      let* cached := lift (parse_cached_sign_result cached_json) in
      let* _ := security_audit SignMultisig "sign_success" (pr_escrow_id_hex p) no_peer (pr_txset_hash_hex p)
                  (pr_snapshot_hash p) ctx "success" "approved" (Some "cached_replay"%string) in
      sret cached
  | GateOpen ctx _ => sign_and_record p ctx
  end.

(** ** Proposing *)

Record ProposedMultisigTx : Type := MkProposed { pm_tx_data_hex : string; pm_txset_hash_hex : string }.

Definition recipient_text (r : TransferRecipient) : string := tr_address r +:+ ":" +:+ dec (tr_amount r).
Definition propose_multisig_flow (escrow_id_hex : string) (action : EscrowAction) (amount_override_atomic : option Z)
    : AG ProposedMultisigTx :=
  let* escrow_id_hex := slift (normalize_hex_exact escrow_id_hex 32 "escrow_id_hex") in
  let* snapshot := load_active_snapshot escrow_id_hex in
  let* recipients := slift (proposal_recipients_from_snapshot snapshot action amount_override_atomic) in
  let* _ := best_effort_audit (MkAuditInsert "proposal_attempt" escrow_id_hex (Some (sa_local_id self)) None None None None
    (Some "attempt"%string) (Some ("action=" +:+ action_debug action +:+ " recipients="
      +:+ String.concat "," (map recipient_text recipients)))) in
  let* _ := open_wallet in
  let* tx_data_hex := with_prefix "transfer do_not_relay failed during proposal: "
    (call (ETransfer recipients) (fun log => wallet_transfer log recipients)) in
  let* tx_data_hex := slift (validate_tx_data_hex tx_data_hex (sa_max_txset_hex_len self)) in
  let* txset_hash_hex := slift (txset_sha256_hex sha256 tx_data_hex) in
  let* _ := describe_and_validate "proposal" tx_data_hex snapshot action in
  let* _ := best_effort_audit (MkAuditInsert "proposal_success" escrow_id_hex (Some (sa_local_id self)) None None None
    (Some txset_hash_hex) (Some "success"%string) (Some ("action=" +:+ action_debug action))) in
  sret (MkProposed tx_data_hex txset_hash_hex).

(** ** Submitting *)

(** The proofs a submit token has to carry: the local event of the arbiter's
    signature with the very token and request id, and the seller's proof as the
    orchestrator holds it. *)
Definition check_quorum_proofs (p : prepared) (ctx : audit_ctx) (v : VerifiedSignToken) : AG unit :=
  let c := vt_claims v in
  let denied {A} (err : string) : AG A :=
    let* _ := abort_request (vt_req_id v) in
    reject SubmitMultisig (pr_escrow_id_hex p) no_peer (pr_txset_hash_hex p) (pr_snapshot_hash p) ctx err in
  let* found := read (get_sign_event_sync (pr_escrow_id_hex p) "arbiter" "arbiter_first" (pr_txset_hash_hex p)) in
  match found with
  | None => denied "submit denied: missing local quorum proof event arbiter_first"%string
  | Some proof =>
      let* token_arbiter_jti := require (opt_non_blank (c_proof_arbiter_jti c)) "submit denied: missing proof_arbiter_jti" in
      let* token_arbiter_req_id := require (opt_non_blank (c_proof_arbiter_req_id c))
        "submit denied: missing proof_arbiter_req_id" in
      if negb (ev_jti proof =? token_arbiter_jti)%string || negb (ev_req_id proof =? token_arbiter_req_id)%string
      then denied "submit denied: local arbiter quorum proof mismatch (token vs signer db)"%string
      else
        match opt_non_blank (c_proof_seller_jti c) with
        | None => denied "submit denied: missing seller quorum proof in action token"%string
        | Some token_seller_jti =>
            match opt_non_blank (c_proof_seller_req_id c) with
            | None => denied "submit denied: missing seller req_id quorum proof in action token"%string
            | Some token_seller_req_id =>
                let* r := attempt (verify_submit_seller_quorum_proof (pr_escrow_id_hex p) (pr_txset_hash_hex p)
                                     token_seller_jti token_seller_req_id (sa_production_hardening self)) in
                match r with Ok _ => sret tt | Err err => denied err end
            end
        end
  end.

Definition submit_and_record (p : prepared) (ctx : audit_ctx) : AG (list string) :=
  let audit := security_audit SubmitMultisig in
  let* _ := audit "submit_attempt"%string (pr_escrow_id_hex p) no_peer (pr_txset_hash_hex p) (pr_snapshot_hash p) ctx
              "attempt"%string "attempt"%string None in
  let* r := attempt (call (ESubmit (pr_tx_data_hex p)) (fun log => wallet_submit log (pr_tx_data_hex p))) in
  match r with
  | Err err =>
      let* _ := abort_if (ac_req_id ctx) in
      reject SubmitMultisig (pr_escrow_id_hex p) no_peer (pr_txset_hash_hex p) (pr_snapshot_hash p) ctx err
  | Ok tx_hash_list =>
      let* _ := complete_if SubmitMultisig (ac_req_id ctx) (serialize_submit_cached_result tx_hash_list) in
      let* _ := audit "submit_success"%string (pr_escrow_id_hex p) no_peer (pr_txset_hash_hex p) (pr_snapshot_hash p) ctx
                  "success"%string "submitted"%string (Some (hashes_reason tx_hash_list)) in
      sret tx_hash_list
  end.

Definition submit_multisig_flow (escrow_id_hex : string) (action : EscrowAction) (tx_data_hex : string)
    (action_token : option Token) : AG (list string) :=
  let* p := prepare SubmitMultisig escrow_id_hex action tx_data_hex in
  let* g := token_gate SubmitMultisig p action action_token in
  match g with
  | GateCached ctx cached_json =>
      let* cached := lift (parse_cached_submit_result cached_json) in
      let* _ := security_audit SubmitMultisig "submit_success" (pr_escrow_id_hex p) no_peer (pr_txset_hash_hex p)
                  (pr_snapshot_hash p) ctx "success" "submitted" (Some "cached_replay"%string) in
      sret cached
  | GateOpen ctx v =>
      let* _ := match v with Some v => check_quorum_proofs p ctx v | None => sret tt end in
      submit_and_record p ctx
  end.
End flows.
