(* ===== verification/AgentMail.v ===== *)
(** * Receiving and sending messages

    [crates/nxms-signer/src/agent/transport.rs] and the mailbox loop of
    [agent.rs]: an envelope is checked, opened, checked against replays and, if
    it asks for a signature, queued for the operator; answers are sealed, sent
    under the next sequence number and retried. *)

From S2P Require Import Prelude RustString Sql Json Wire Admission Snapshot ActionToken TokenVerifier.
From S2P Require Import SignerDb SignerInv AgentSupport AgentState OrchBridge AgentFlows.

(** ** Bounded retries *)

Section retries.
Context `{SignerExt} `{AgentEnv}.

(** The attempts after the first one. *)
Fixpoint retry_after {A} (more : nat) (m : AG A) : AG A :=
  match more with
  | O => m
  | S n => let* r := attempt m in
           match r with Ok a => sret a | Err _ => retry_after n m end
  end.
(** [for attempt in 1..=attempts.max(1)], the last error returned. *)
Definition with_retry {A} (attempts : Z) (m : AG A) : AG A :=
  retry_after (Nat.pred (Z.to_nat (Z.max attempts 1))) m.
End retries.

Section mail.
Context `{Jwt} `{SignerExt} `{AgentLib} `{AgentEnv}.
Context (self : SignerAgent).

Definition mailbox_push_with_retry (env : NxmsEnvelope) : AG bool :=
  with_retry (sa_mailbox_retry_attempts self) (call (EPush env) (fun log => mailbox_push log env)).
Definition mailbox_pull_with_retry : AG (list (string * NxmsEnvelope)) :=
  with_retry (sa_mailbox_retry_attempts self) (call EPull mailbox_pull).
Definition mailbox_ack_with_retry (receipt : string) : AG unit :=
  with_retry (sa_mailbox_retry_attempts self) (call (EAck receipt) (fun log => mailbox_ack log receipt)).

Definition suite_kem_id : string := NXMS_WIRE_KEM_ID_V1.
Definition suite_sig_id : string := NXMS_WIRE_SIG_ID_V1.
Definition sha3_hex (input : string) : string := hex_encode (sha3_256 input).
Definition b64_bytes (s : string) : AG string := require (b64_decode s) (b64_text s).

(** ** Sending *)

Definition seal (peer_pk sk from to msg_type escrow_id : string) (seq : Z) (plain : string) : AG SealedPacket :=
  fun s => (s, map_err Anyhow (nxms_encrypt (ag_ticks s) from to msg_type escrow_id seq peer_pk sk plain)).

Definition out_seq_for (escrow_id_hex : string) : AG Z :=
  access (fun now _ => next_out_seq_sync now escrow_id_hex (sa_local_id self)).

Definition out_payload (to escrow_id_hex : string) (msg_type : MsgType) (body : EscrowBody) (seq : Z) : NxmsPayload :=
  MkPayload ESCROW_APP_PROTO_V1 msg_type escrow_id_hex (sa_local_id self) to seq (body_to_str body).
Definition out_envelope (to escrow_id_hex : string) (msg_type : MsgType) (seq : Z) (x : SealedPacket) : NxmsEnvelope :=
  MkEnvelope "NXMS/1" suite_kem_id suite_sig_id msg_type escrow_id_hex (sa_local_id self) to seq
    (sl_kem_ct_b64 x) (sl_nonce_b64 x) (sl_ciphertext_b64 x) (sl_tag_b64 x) (sl_sig_b64 x).

Definition send_body_with_seq (to escrow_id_hex : string) (msg_type : MsgType) (body : EscrowBody)
    (seq_override : option Z) : AG Z :=
  let* peer := require (sa_peers self !! to) ("peer '" +:+ to +:+ "' not in allowlist") in
  let* escrow_id_raw := slift (decode_escrow_id_hex hex_text escrow_id_hex) in
  let* seq := match seq_override with Some v => sret v | None => out_seq_for escrow_id_hex end in
  let payload := out_payload to escrow_id_hex msg_type body seq in
  let plain := payload_to_vec payload in
  let* peer_kem_pk := b64_bytes (pe_kem_pk_b64 peer) in
  let* self_sig_sk := lift (sa_sig_sk self) in
  let* sealed := seal peer_kem_pk self_sig_sk (sa_local_id self) to (msg_type_key msg_type) escrow_id_raw seq plain in
  let env := out_envelope to escrow_id_hex msg_type seq sealed in
  let* _ := mailbox_push_with_retry env in
  let* _ := best_effort_audit (MkAuditInsert "tx_sent" escrow_id_hex (Some (sa_local_id self)) (Some to) (Some seq)
    (Some (sha3_hex (envelope_to_vec env))) (Some (sha3_hex (pl_data payload))) (Some "sent"%string) None) in
  sret seq.

Definition send_body (to escrow_id_hex : string) (msg_type : MsgType) (body : EscrowBody) : AG unit :=
  let* _ := send_body_with_seq to escrow_id_hex msg_type body None in sret tt.

(** ** Receiving *)

Definition trim_quotes (s : string) : string :=
  of_bytes (keep_between (fun c => negb (byte_of c =? 34)) (bytes_of s)).
Definition build_admission_row (artifact : EscrowAdmissionArtifact) : AG EscrowAdmissionArtifactRow :=
  let* now_ms := clock in
  sret (MkAdmissionArtifactRow (aa_escrow_id_hex artifact) (aa_snapshot_hash_hex artifact)
    (trim_quotes (action_to_str (aa_action artifact))) (aa_runtime_trust_epoch artifact)
    (artifact_hash_hex sha256 json_to_vec artifact) (artifact_to_str artifact) now_ms now_ms).

(** The admission a request has to bring along. *)
Definition store_request_admission (req : TxSignReqBody) (snapshot_hash : string) : AG unit :=
  if requires_escrow_admission self then
    let* artifact := require (tq_escrow_admission_artifact req) "tx_sign_req missing escrow_admission_artifact" in
    let* _ := verify_escrow_admission_artifact self artifact (tq_escrow_id_hex req) snapshot_hash (tq_action req) in
    let* row := build_admission_row artifact in
    read (upsert_escrow_admission_artifact_sync row)
  else sret tt.

Definition handle_tx_sign_req (payload : NxmsPayload) (body_raw : string) : AG unit :=
  let* body := lift (body_from_str body_raw) in
  match body with
  | BTxSignReq req =>
      let* _ := slift (validate_tx_sign_req payload req (sa_max_txset_hex_len self)) in
      let* found := read (active_snapshot_for_escrow_sync (tq_escrow_id_hex req)) in
      let* active := require found ("no active snapshot for escrow " +:+ tq_escrow_id_hex req) in
      let* _ := fail_when (negb (eq_ignore_ascii_case (trim (tq_snapshot_hash_hex req)) (sr_hash_hex active)))
                  ("tx_sign_req snapshot_hash mismatch: req=" +:+ tq_snapshot_hash_hex req +:+ " active=" +:+ sr_hash_hex active) in
      let* snapshot := lift (snapshot_from_str (sr_snapshot_json active)) in
      let* _ := store_request_admission req (policy_hash snapshot) in
      let* _ := open_wallet in
      let* (check, raw_desc) := with_prefix "describe_transfer failed: "
        (call (EDescribe (tq_multisig_txset_hex req)) (fun log => wallet_describe log (tq_multisig_txset_hex req))) in
      let* _ := lift_text snapshot_text (validate_transfer_against_snapshot snapshot (tq_action req) check) in
      let* now_ms := clock in
      let* txset_hash_hex := slift (txset_sha256_hex sha256 (tq_multisig_txset_hex req)) in
      let pending := MkPending 0 (tq_escrow_id_hex req) (pl_from payload) (pl_to payload) (pl_seq payload)
        (action_to_str (tq_action req)) (sr_hash_hex active) (tq_multisig_txset_hex req) txset_hash_hex raw_desc
        "pending" None now_ms now_ms in
      let* _ := read (enqueue_pending_tx_sync pending) in
      best_effort_audit (MkAuditInsert "pending_enqueued" (pt_escrow_id_hex pending) (Some (pt_from_id pending))
        (Some (pt_to_id pending)) (Some (pt_seq pending)) None (Some (pt_txset_hash_hex pending))
        (Some "pending"%string) (Some "awaiting_manual_approval"%string))
  | _ => fail "tx_sign_req payload kind mismatch"
  end.

(** The checks before the message counts as received. *)
Definition open_envelope (env : NxmsEnvelope) : AG NxmsPayload :=
  let* _ := lift_text wire_text (validate_envelope env) in
  let* _ := fail_when (negb (ev_to env =? sa_local_id self)%string)
    ("envelope addressed to '" +:+ ev_to env +:+ "' but signer id is '" +:+ sa_local_id self +:+ "'") in
  let* _ := fail_when (negb (ev_kem_id env =? suite_kem_id)%string || negb (ev_sig_id env =? suite_sig_id)%string)
    "unexpected cipher suite ids" in
  let* peer := require (sa_peers self !! ev_from env) ("sender '" +:+ ev_from env +:+ "' not in allowlist") in
  let* escrow_id_raw := slift (decode_escrow_id_hex hex_text (ev_escrow_id_hex env)) in
  let sealed := MkSealed (ev_kem_ct_b64 env) (ev_nonce_b64 env) (ev_ciphertext_b64 env) (ev_tag_b64 env) (ev_sig_b64 env) in
  let* peer_sig_pk := b64_bytes (pe_sig_pk_b64 peer) in
  let* self_kem_sk := lift (sa_kem_sk self) in
  let* plain := lift (nxms_decrypt (ev_from env) (ev_to env) (msg_type_key (ev_msg_type env)) escrow_id_raw (ev_seq env)
                        sealed self_kem_sk peer_sig_pk) in
  let* payload := lift (payload_from_slice plain) in
  let* _ := lift_text wire_text (validate_matches_envelope payload env) in
  sret payload.

Definition record_seq (payload : NxmsPayload) : AG unit :=
  access (fun now _ => record_incoming_seq_sync now (pl_escrow_id_hex payload) (pl_from payload) (pl_seq payload)).

Definition process_envelope (env : NxmsEnvelope) : AG unit :=
  let* payload := open_envelope env in
  let envelope_hash_hex := sha3_hex (envelope_to_vec env) in
  let payload_hash_hex := sha3_hex (pl_data payload) in
  let audit (kind : string) (decision detail : option string) : AG unit :=
    best_effort_audit (MkAuditInsert kind (pl_escrow_id_hex payload) (Some (pl_from payload)) (Some (pl_to payload))
      (Some (pl_seq payload)) (Some envelope_hash_hex) (Some payload_hash_hex) decision detail) in
  let* r := attempt (record_seq payload) in
  match r with
  | Err err =>
      let* _ := audit "rx_rejected_replay"%string (Some "rejected"%string) (Some err) in fail err
  | Ok _ =>
      let* _ := audit "rx_validated"%string None None in
      match pl_msg_type payload with
      | TxSignReq =>
          let* r := attempt (handle_tx_sign_req payload (pl_data payload)) in
          match r with
          | Err err =>
              let* _ := audit "tx_sign_req_rejected"%string (Some "rejected"%string) (Some err) in fail err
          | Ok _ => sret tt
          end
      | _ =>
          let* _ := send_body (pl_from payload) (pl_escrow_id_hex payload) MsgError
            (BErr (MkEscrowErr (pl_escrow_id_hex payload) "unsupported_msg_type"
              ("manual signer supports only tx_sign_req, got " +:+ msg_type_key (pl_msg_type payload)))) in
          audit "rx_unsupported_msg_type"%string (Some "rejected"%string) (Some "unsupported msg_type"%string)
      end
  end.

(** ** The loop *)

(** One message of a batch: acknowledged when processed or beyond repair. *)
Definition handle_message (msg : string * NxmsEnvelope) : AG unit :=
  let '(receipt, envelope) := msg in
  let* r := attempt (process_envelope envelope) in
  match r with
  | Ok _ => ignore (mailbox_ack_with_retry receipt)
  | Err err =>
      if should_ack_non_retryable_process_error err then ignore (mailbox_ack_with_retry receipt) else sret tt
  end.
Fixpoint handle_messages (msgs : list (string * NxmsEnvelope)) : AG unit :=
  match msgs with
  | [] => sret tt
  | msg :: rest => let* _ := handle_message msg in handle_messages rest
  end.
(** One turn of [run]; the sleeps and ctrl-c aside. *)
Definition run_once : AG unit :=
  let* r := attempt mailbox_pull_with_retry in
  match r with Ok messages => handle_messages messages | Err _ => sret tt end.

Definition mark_pending_error (pending : PendingTxSign) (detail : string) : AG unit :=
  let* _ := ignore (access (fun now _ => set_pending_status_sync now (pt_id pending) "failed_dead_letter" (Some detail))) in
  best_effort_audit (MkAuditInsert "decision_error" (pt_escrow_id_hex pending) (Some (sa_local_id self))
    (Some (pt_from_id pending)) (Some (pt_seq pending)) None (Some (pt_txset_hash_hex pending))
    (Some "dead_letter"%string) (Some detail)).
End mail.
