(* ===== verification/AgentPending.v ===== *)
(** * Decisions of the operator

    [crates/nxms-signer/src/agent/pending.rs]: a queued request is approved,
    which signs it behind the gate of the signing flow, stages the answer and
    sends it, or rejected; an answer that was staged and not sent is sent
    again from the staged state. *)

From S2P Require Import Prelude RustString Sql Json Wire Admission Snapshot ActionToken TokenVerifier.
From S2P Require Import SignerDb SignerInv AgentSupport AgentState OrchBridge AgentFlows AgentMail.

Section pending.
Context `{Jwt} `{SignerExt} `{AgentLib} `{AgentEnv}.
Context (self : SignerAgent).

Definition parse_pending_action (action_json : string) : result string EscrowAction :=
  map_err (fun e => "invalid stored action JSON '" +:+ action_json +:+ "': " +:+ e) (action_from_str action_json).

Definition parse_approved_send_state (id : Z) (raw : option string) : result string ApprovedSendState :=
  let? raw := ok_or raw ("pending id " +:+ pretty id +:+ " has status approved_sending but missing staged send payload") in
  let? staged := map_err (fun e => "pending id " +:+ pretty id
    +:+ " has invalid staged send payload for approved_sending: " +:+ e) (approved_from_str raw) in
  let? _ := fail_if (is_empty (trim (av_signed_tx_data_hex staged)))
    ("pending id " +:+ pretty id +:+ " has empty signed_tx_data_hex in staged send payload") in
  Ok staged.
Definition parse_rejected_send_state (id : Z) (raw : option string) : result string RejectedSendState :=
  let? raw := ok_or raw ("pending id " +:+ pretty id +:+ " has status rejected_sending but missing staged send payload") in
  let? staged := map_err (fun e => "pending id " +:+ pretty id
    +:+ " has invalid staged send payload for rejected_sending: " +:+ e) (rejected_from_str raw) in
  let? _ := fail_if (is_empty (trim (rj_reason staged)))
    ("pending id " +:+ pretty id +:+ " has empty reject reason in staged send payload") in
  Ok staged.

Definition set_status (id : Z) (status : string) (reason : option string) : AG unit :=
  access (fun now _ => set_pending_status_sync now id status reason).
Definition find_pending (id : Z) : AG PendingTxSign :=
  let* found := read (get_pending_sync id) in
  require found ("pending id " +:+ pretty id +:+ " not found").

(** The audit entry of a decision. *)
Definition decision_audit (pending : PendingTxSign) (kind decision detail : string) : AG unit :=
  best_effort_audit (MkAuditInsert kind (pt_escrow_id_hex pending) (Some (sa_local_id self)) (Some (pt_from_id pending))
    (Some (pt_seq pending)) None (Some (pt_txset_hash_hex pending)) (Some decision) (Some detail)).

Definition approval_body (pending : PendingTxSign) (tx_data_hex : string) (tx_hash_list : list string) : EscrowBody :=
  BTxSignResp (MkTxSignResp (pt_escrow_id_hex pending) true (Some tx_data_hex) tx_hash_list None).
Definition rejection_body (pending : PendingTxSign) (reason : string) : EscrowBody :=
  BErr (MkEscrowErr (pt_escrow_id_hex pending) "tx_sign_rejected" reason).

(** [None]: under a new number; [Some]: under the number that was staged. *)
Definition send_answer (pending : PendingTxSign) (msg_type : MsgType) (body : EscrowBody) (out_seq : option Z) : AG unit :=
  let* _ := send_body_with_seq self (pt_from_id pending) (pt_escrow_id_hex pending) msg_type body out_seq in
  sret tt.

(** ** Approving *)

(** The rest of a decision that was staged. *)
Definition resend_approved (id : Z) (pending : PendingTxSign) : AG unit :=
  let* staged := lift (parse_approved_send_state id (pt_decision_reason pending)) in
  let* _ := send_answer pending TxSignResp
    (approval_body pending (av_signed_tx_data_hex staged) (av_tx_hash_list staged)) (av_out_seq staged) in
  let* _ := set_status id "approved_sent" None in
  decision_audit pending "decision_approved" "approved" "retry_send_from_staged_state".

(** A check whose failure makes the row a dead letter. *)
Definition dead_letter_when (b : bool) (pending : PendingTxSign) (detail : string) : AG unit :=
  if b then let* _ := mark_pending_error self pending detail in fail detail else sret tt.

Definition approve_prepare (pending : PendingTxSign) : AG (prepared * EscrowAction) :=
  let* computed := slift (txset_sha256_hex sha256 (pt_multisig_txset_hex pending)) in
  let legacy := sha3_hex (pt_multisig_txset_hex pending) in
  let* _ := dead_letter_when
    (negb (eq_ignore_ascii_case computed (pt_txset_hash_hex pending))
     && negb (eq_ignore_ascii_case legacy (pt_txset_hash_hex pending))) pending
    ("txset hash mismatch for pending_id=" +:+ pretty (pt_id pending) +:+ ": computed_sha256=" +:+ computed
     +:+ " stored=" +:+ pt_txset_hash_hex pending) in
  let* pending_snapshot_hash :=
    slift (normalize_hex_exact (pt_snapshot_hash_hex pending) 64 "pending.snapshot_hash_hex") in
  let* found := read (active_snapshot_for_escrow_sync (pt_escrow_id_hex pending)) in
  let* active := require found ("no active snapshot for escrow " +:+ pt_escrow_id_hex pending) in
  let* _ := dead_letter_when (negb (eq_ignore_ascii_case pending_snapshot_hash (sr_hash_hex active))) pending
    ("pending snapshot mismatch for pending_id=" +:+ pretty (pt_id pending) +:+ ": pending=" +:+ pending_snapshot_hash
     +:+ " active=" +:+ sr_hash_hex active) in
  let* snapshot := lift (snapshot_from_str (sr_snapshot_json active)) in
  let snapshot_hash_for_token := policy_hash snapshot in
  let* action := lift (parse_pending_action (pt_action pending)) in
  let* _ := if requires_escrow_admission self
            then validate_stored_escrow_admission self (pt_escrow_id_hex pending) snapshot_hash_for_token action None
            else sret tt in
  let* _ := open_wallet in
  let* (check, _) := with_prefix "describe_transfer failed during approval: "
    (call (EDescribe (pt_multisig_txset_hex pending)) (fun log => wallet_describe log (pt_multisig_txset_hex pending))) in
  match validate_transfer_against_snapshot snapshot action check with
  | Err err =>
      let detail := "policy check failed during approval for pending_id=" +:+ pretty (pt_id pending) +:+ ": "
                    +:+ snapshot_text err in
      let* _ := mark_pending_error self pending detail in fail detail
  | Ok _ => sret (Prepared (pt_escrow_id_hex pending) (pt_multisig_txset_hex pending) computed snapshot_hash_for_token, action)
  end.

(** The gate: unlike that of [sign_multisig_flow] it has no answer for a
    request id that is already there. *)
Definition approve_gate (peer : audit_peer) (p : prepared) (action : EscrowAction) (action_token : option Token) : AG audit_ctx :=
  match sa_verifier self with
  | None => sret (initial_ctx self SignMultisig)
  | Some verifier =>
      let rej {A} (ctx : audit_ctx) : string -> AG A :=
        reject self SignMultisig (pr_escrow_id_hex p) peer (pr_txset_hash_hex p) (pr_snapshot_hash p) ctx in
      match action_token with
      | None =>
          if av_required verifier
          then rej (initial_ctx self SignMultisig) "action token required for approve in current signer configuration"
          else rej (initial_ctx self SignMultisig) "action token required for approve_pending in current signer configuration"
      | Some token =>
          let* r := verify_token SignMultisig verifier token p in
          match r with
          | Err err => rej (initial_ctx self SignMultisig) err
          | Ok v =>
              let ctx := token_ctx v in
              let* _ := if requires_escrow_admission self
                        then validate_stored_escrow_admission self (pr_escrow_id_hex p) (pr_snapshot_hash p) action
                               (c_escrow_admission_hash (vt_claims v)) else sret tt in
              let* r := attempt (start_request SignMultisig v p) in
              match r with
              | Err err => rej ctx err
              | Ok _ =>
                  let* r := attempt (consume_jti SignMultisig v p) in
                  match r with
                  | Err err => let* _ := abort_request (vt_req_id v) in rej ctx err
                  | Ok _ => sret ctx
                  end
              end
          end
      end
  end.

(** The events of a signature, for the requested and for the signed set. *)
Definition record_approval (ctx : audit_ctx) (p : prepared) (signed : SignedMultisigTx) : AG unit :=
  match ac_jti ctx, ac_req_id ctx with
  | Some jti, Some req_id =>
      let* _ := record_event ctx p (pr_txset_hash_hex p) jti req_id in
      let* signed_txset_hash_hex := slift (txset_sha256_hex sha256 (sg_tx_data_hex signed)) in
      record_event ctx p signed_txset_hash_hex jti
        (sign_req_id sha256 (pr_escrow_id_hex p) "sign_multisig" (ac_sign_round ctx) signed_txset_hash_hex)
  | _, _ => sret tt
  end.

(** From the signature to the answer sent. *)
Definition deliver_approval (id : Z) (pending : PendingTxSign) (ctx : audit_ctx) (signed : SignedMultisigTx) : AG unit :=
  let* out_seq := out_seq_for self (pt_escrow_id_hex pending) in
  let staged := MkApprovedState (sg_tx_data_hex signed) (sg_tx_hash_list signed) (Some out_seq) in
  let* _ := set_status id "approved_sending" (Some (approved_to_str staged)) in
  let* _ := send_answer pending TxSignResp (approval_body pending (sg_tx_data_hex signed) (sg_tx_hash_list signed))
              (av_out_seq staged) in
  let* _ := set_status id "approved_sent" None in
  decision_audit pending "decision_approved" "approved"
    ("pending_id=" +:+ pretty id +:+ " req_id=" +:+ or_dash (ac_req_id ctx) +:+ " sign_round=" +:+ ac_sign_round ctx
     +:+ " role=" +:+ ac_role ctx +:+ " jti=" +:+ or_dash (ac_jti ctx) +:+ " exp=" +:+ or_dash (dec <$> ac_exp ctx)).

Definition approve_and_send (id : Z) (pending : PendingTxSign) (peer : audit_peer) (p : prepared) (ctx : audit_ctx) : AG unit :=
  let audit := security_audit self SignMultisig in
  let* _ := audit "sign_attempt"%string (pr_escrow_id_hex p) peer (pr_txset_hash_hex p) (pr_snapshot_hash p) ctx
              "attempt"%string "attempt"%string None in
  let* r := attempt (call (ESign (pr_tx_data_hex p)) (fun log => wallet_sign log (pr_tx_data_hex p))) in
  match r with
  | Err err =>
      let* _ := abort_if (ac_req_id ctx) in
      reject self SignMultisig (pr_escrow_id_hex p) peer (pr_txset_hash_hex p) (pr_snapshot_hash p) ctx err
  | Ok signed =>
      let* _ := complete_if SignMultisig (ac_req_id ctx) (serialize_sign_cached_result signed) in
      let* _ := record_approval ctx p signed in
      let* _ := audit "sign_success"%string (pr_escrow_id_hex p) peer (pr_txset_hash_hex p) (pr_snapshot_hash p) ctx
                  "success"%string "approved"%string (Some (hashes_reason (sg_tx_hash_list signed))) in
      deliver_approval id pending ctx signed
  end.

Definition approve_pending (id : Z) (action_token : option Token) : AG unit :=
  let* pending := find_pending id in
  if (pt_status pending =? "approved_sending")%string then resend_approved id pending
  else
    let* _ := fail_when (negb (pt_status pending =? "pending")%string)
      ("pending id " +:+ pretty id +:+ " has status '" +:+ pt_status pending
       +:+ "', expected 'pending' or 'approved_sending'") in
    let* (p, action) := approve_prepare pending in
    let peer := AuditPeer (Some (pt_from_id pending)) (Some (pt_seq pending)) in
    let* ctx := approve_gate peer p action action_token in
    approve_and_send id pending peer p ctx.

(** ** Rejecting *)

Definition resend_rejected (id : Z) (pending : PendingTxSign) : AG unit :=
  let* staged := lift (parse_rejected_send_state id (pt_decision_reason pending)) in
  let* _ := send_answer pending MsgError (rejection_body pending (rj_reason staged)) (rj_out_seq staged) in
  let* _ := set_status id "rejected" (Some (rj_reason staged)) in
  decision_audit pending "decision_rejected" "rejected" "retry_send_from_staged_state".

Definition reject_pending (id : Z) (reason : string) : AG unit :=
  let* pending := find_pending id in
  if (pt_status pending =? "rejected_sending")%string then resend_rejected id pending
  else
    let* _ := fail_when (negb (pt_status pending =? "pending")%string)
      ("pending id " +:+ pretty id +:+ " has status '" +:+ pt_status pending
       +:+ "', expected 'pending' or 'rejected_sending'") in
    let* out_seq := out_seq_for self (pt_escrow_id_hex pending) in
    let staged := MkRejectedState reason (Some out_seq) in
    let* _ := set_status id "rejected_sending" (Some (rejected_to_str staged)) in
    let* _ := send_answer pending MsgError (rejection_body pending reason) (rj_out_seq staged) in
    let* _ := set_status id "rejected" (Some reason) in
    decision_audit pending "decision_rejected" "rejected" reason.
End pending.
