(* ===== verification/AgentProps.v ===== *)
(** * What the flows guarantee

    Whatever the outside answers and whatever other tasks write to the
    database in between: the wallet signs or submits only what passed the
    policy check and what a fresh token was spent on, one token makes the
    wallet sign or submit once, and a completed request is answered from the cache. *)

From S2P Require Import Prelude RustString Sql Json Wire Admission Snapshot ActionToken TokenVerifier.
From S2P Require Import SignerDb SignerInv SignerProps AgentSupport AgentState OrchBridge AgentFlows.

(** ** Databases that follow one another *)

Section reach.
Context `{SignerExt}.

Definition reach (d d' : sdb) : Prop := exists ops, (run_signer ops d).1 = d'.

Lemma run_signer_app ops1 ops2 d :
  (run_signer (ops1 ++ ops2) d).1 = (run_signer ops2 (run_signer ops1 d).1).1.
Proof.
  revert d. induction ops1 as [|op ops1 IH]; intros d; [done|]. simpl.
  destruct (run_signer_op op d) as [d1 r]. specialize (IH d1).
  destruct (run_signer (ops1 ++ ops2) d1) as [d2 rs]. destruct (run_signer ops1 d1) as [d3 rs']. simpl in *. exact IH.
Qed.

#[export] Instance reach_preorder : PreOrder reach.
Proof.
  split; [intros d; by exists []|]. intros d1 d2 d3 [ops1 <-] [ops2 <-]. exists (ops1 ++ ops2). apply run_signer_app.
Qed.

Lemma reach_ok d d' : reach d d' -> signer_ok d -> signer_ok d'.
Proof. intros [ops <-]. apply run_signer_ok. Qed.

Lemma reach_op op d : reach d (run_signer_op op d).1.
Proof. exists [op]. simpl. by destruct (run_signer_op op d). Qed.

Lemma reach_unit {A B} (m : M sdb string A) (f : A -> B) d d' :
  reach d (sbind m (fun a => sret (f a)) d').1 -> reach d (m d').1.
Proof. unfold sbind, sret. by destruct (m d') as [d1 [a|e]]. Qed.

(** Rows of consumed token ids stay. *)
Lemma reach_jti d d' jti r : reach d d' -> find_jti jti d = Some r -> find_jti jti d' = Some r.
Proof.
  intros [ops <-] Hf.
  apply (run_signer_ind (fun d => find_jti jti d = Some r)); [|done]. clear d Hf. intros op d Hf.
  destruct (is_consume op) eqn:Ei; [|unfold find_jti; by rewrite frame_jti].
  destruct op as [| | | | | | | | | | | |now j e o sr q x| |]; try done. simpl. rewrite sbind_run, jti_run.
  destruct (find_jti j d) eqn:Ej; [done|]. unfold find_jti. simpl. rewrite find_app_fresh.
  unfold find_jti in Hf. by rewrite Hf.
Qed.

Lemma reach_jti_none d d' jti : reach d d' -> find_jti jti d' = None -> find_jti jti d = None.
Proof.
  intros Hr Hn. destruct (find_jti jti d) as [r|] eqn:Ef; [|done].
  rewrite (reach_jti d d' jti r Hr Ef) in Hn. done.
Qed.
End reach.

(** ** Tasks that do not sign or submit *)

Definition commits (e : Effect) : bool := match e with ESign _ | ESubmit _ => true | _ => false end.
(** The signatures and submissions asked of the wallet. *)
Definition committed (l : list Effect) : list Effect := List.filter commits l.

Section quiet.
Context `{Jwt} `{SignerExt} `{AgentLib} `{AgentEnv}.

(** From [s] to [s'] the database went through writes, the log grew, and the
    wallet was asked for exactly [ops]. *)
Record went (ops : list Effect) (s s' : agent) : Prop := Went {
  wn_db : reach (ag_db s) (ag_db s');
  wn_log : committed (ag_log s') = committed (ag_log s) ++ ops;
}.

Lemma went_refl s : went [] s s.
Proof. constructor; [done|by rewrite app_nil_r]. Qed.

Lemma went_trans ops1 ops2 s1 s2 s3 : went ops1 s1 s2 -> went ops2 s2 s3 -> went (ops1 ++ ops2) s1 s3.
Proof.
  intros [D1 L1] [D2 L2]. constructor; [by etrans|]. by rewrite L2, L1, app_assoc.
Qed.

Lemma went_quiet s1 s2 s3 ops : went [] s1 s2 -> went ops s2 s3 -> went ops s1 s3.
Proof. intros H12 H23. apply (went_trans [] ops s1 s2 s3 H12 H23). Qed.

Lemma went_then s1 s2 s3 ops : went ops s1 s2 -> went [] s2 s3 -> went ops s1 s3.
Proof. intros H12 H23. rewrite <- (app_nil_r ops). exact (went_trans ops [] s1 s2 s3 H12 H23). Qed.

Definition quiet {A} (m : AG A) : Prop := forall s, went [] s (m s).1.

Lemma quiet_ret {A} (a : A) : quiet (sret a).
Proof. intros s. apply went_refl. Qed.
Lemma quiet_lift {A} (r : result AgentError A) : quiet (slift r).
Proof. intros s. apply went_refl. Qed.
Lemma quiet_fail {A} e : quiet (@sfail agent AgentError A e).
Proof. intros s. apply went_refl. Qed.
Lemma quiet_bind {A B} (m : AG A) (k : A -> AG B) : quiet m -> (forall a, quiet (k a)) -> quiet (sbind m k).
Proof.
  intros Hm Hk s. specialize (Hm s). unfold sbind. destruct (m s) as [s1 [a|e]]; [|done].
  eapply went_quiet; [exact Hm|]. apply Hk.
Qed.
Lemma quiet_attempt {A} (m : AG A) : quiet m -> quiet (attempt m).
Proof. intros Hm s. specialize (Hm s). unfold attempt. by destruct (m s) as [s1 [a|[]]]. Qed.

Lemma interfered_reach s : reach (ag_db s) (interfered s).
Proof. by eexists. Qed.

Lemma quiet_access {A} (m : Z -> Z -> M sdb string A) :
  (forall n1 n2 d, reach d (m n1 n2 d).1) -> quiet (access m).
Proof.
  intros Hm s. unfold access. specialize (Hm (env_now (ag_ticks s) 0) (env_now (ag_ticks s) 1) (interfered s)).
  destruct (m _ _ _) as [d r]. constructor; simpl; [|by rewrite app_nil_r]. etrans; [apply interfered_reach|exact Hm].
Qed.

Lemma quiet_get {A} (f : sdb -> A) : quiet (read (sget f)).
Proof. apply quiet_access. intros n1 n2 d. done. Qed.

Lemma quiet_call {A} e (f : list Effect -> result string A) : commits e = false -> quiet (call e f).
Proof.
  intros He s. constructor; [done|]. simpl. unfold committed. rewrite List.filter_app. simpl. by rewrite He.
Qed.
End quiet.

Create HintDb quiet.
#[export] Hint Resolve quiet_ret quiet_lift quiet_fail quiet_attempt quiet_get : quiet.

(** Decides [quiet] by following the shape of the computation. *)
Ltac quiet_step :=
  lazymatch goal with
  | |- forall _, _ => intros ?
  | |- quiet (sbind _ _) => apply quiet_bind
  | |- quiet (match ?x with _ => _ end) => destruct x
  | |- quiet (let '_ := ?x in _) => destruct x
  | |- quiet (attempt _) => apply quiet_attempt
  | |- quiet (call _ _) => apply quiet_call; reflexivity
  | |- quiet _ => first [ assumption | solve [auto with quiet nocore] ]
  end.
Ltac quieten := repeat quiet_step.
Ltac opening := unfold with_prefix, ignore; unfold lift, lift_text, require, fail_when, fail, or_panic.

Section writes.
Context `{Jwt} `{SignerExt} `{AgentLib} `{AgentEnv}.
Context (self : SignerAgent).

Ltac by_op op := apply quiet_access; intros n1 n2 d; eapply reach_unit; apply (reach_op (op n1 n2)).

Lemma quiet_audit ev : quiet (best_effort_audit ev).
Proof.
  unfold best_effort_audit, ignore. apply quiet_bind; [|intros; apply quiet_ret]. apply quiet_attempt.
  by_op (fun n1 n2 : Z => OpAudit n1 ev).
Qed.
Lemma quiet_security_audit op kind e peer t h ctx r dn reason :
  quiet (security_audit self op kind e peer t h ctx r dn reason).
Proof. unfold security_audit, or_panic. apply quiet_bind; [apply quiet_lift|]. intros a. apply quiet_audit. Qed.
Lemma quiet_reject {A} op e peer t h ctx err : quiet (reject (A:=A) self op e peer t h ctx err).
Proof. unfold reject, fail. apply quiet_bind; [apply quiet_security_audit|]. intros _. apply quiet_fail. Qed.
Lemma quiet_start op v p : quiet (start_request op v p).
Proof.
  by_op (fun n1 n2 : Z => OpStart n1 n2 (vt_req_id v) (pr_escrow_id_hex p) (op_name op)
           (c_sign_round (vt_claims v)) (pr_txset_hash_hex p)).
Qed.
Lemma quiet_consume op v p : quiet (consume_jti op v p).
Proof.
  by_op (fun n1 n2 : Z => OpConsumeJti n1 (c_jti (vt_claims v)) (pr_escrow_id_hex p) (op_name op)
           (c_sign_round (vt_claims v)) (vt_req_id v) (c_exp (vt_claims v))).
Qed.
Lemma quiet_abort q : quiet (abort_request q).
Proof.
  unfold abort_request, ignore. apply quiet_bind; [|intros; apply quiet_ret]. apply quiet_attempt.
  by_op (fun n1 n2 : Z => OpAbort q).
Qed.
Lemma quiet_complete op q json : quiet (complete_if op q json).
Proof.
  destruct q as [q|]; [|apply quiet_ret].
  by_op (fun n1 n2 : Z => OpCompleteWith n1 n2 q (op_name op) json).
Qed.
Lemma quiet_event ctx p t j q : quiet (record_event ctx p t j q).
Proof.
  by_op (fun n1 n2 : Z => OpSignEvent n1 (pr_escrow_id_hex p) (ac_role ctx) (ac_sign_round ctx) t j q).
Qed.
Lemma quiet_verify op v tok p : quiet (verify_token op v tok p).
Proof.
  intros s. unfold verify_token. cbv zeta. case_match. constructor; simpl; [apply interfered_reach|by rewrite app_nil_r].
Qed.
End writes.
#[export] Hint Resolve quiet_audit quiet_security_audit quiet_reject quiet_start quiet_consume quiet_abort
  quiet_complete quiet_event quiet_verify : quiet.

Section quiet_flows.
Context `{Jwt} `{SignerExt} `{AgentLib} `{AgentEnv}.
Context (self : SignerAgent).

Lemma quiet_orchestrator args : quiet (run_orchestrator_command args).
Proof. unfold run_orchestrator_command. opening. quieten. Qed.
Hint Resolve quiet_orchestrator : quiet.
Lemma quiet_store e r sr t j q : quiet (maybe_store_quorum_sign_proof e r sr t j q).
Proof. unfold maybe_store_quorum_sign_proof, store_quorum_sign_proof. opening. cbv zeta. quieten. Qed.
Lemma quiet_seller_proof e t j q b : quiet (verify_submit_seller_quorum_proof e t j q b).
Proof.
  unfold verify_submit_seller_quorum_proof, fetch_submit_multisig_proof_bundle. opening. cbv zeta. quieten.
Qed.
Hint Resolve quiet_store quiet_seller_proof : quiet.
Lemma quiet_admission_artifact a e h act : quiet (verify_escrow_admission_artifact self a e h act).
Proof. unfold verify_escrow_admission_artifact. opening. quieten. Qed.
Hint Resolve quiet_admission_artifact : quiet.
Lemma quiet_admission e h act exp : quiet (validate_stored_escrow_admission self e h act exp).
Proof.
  unfold validate_stored_escrow_admission, get_escrow_admission_artifact_sync. opening. quieten.
Qed.
Hint Resolve quiet_admission : quiet.
Lemma quiet_active e : quiet (load_active_snapshot e).
Proof. unfold load_active_snapshot, active_snapshot_for_escrow_sync. opening. quieten. Qed.
Lemma quiet_describe during tx sn act : quiet (describe_and_validate during tx sn act).
Proof. unfold describe_and_validate. opening. quieten. Qed.
Hint Resolve quiet_active quiet_describe : quiet.
Lemma quiet_prepare op e act tx : quiet (prepare self op e act tx).
Proof. unfold prepare, open_wallet. cbv zeta. quieten. Qed.
Lemma quiet_duplicate op v p : quiet (duplicate_request self op v p).
Proof.
  unfold duplicate_request, get_sign_request_sync, get_sign_request_result_sync. opening. cbv zeta. quieten.
Qed.
Hint Resolve quiet_prepare quiet_duplicate : quiet.
Lemma quiet_gate op p act tok : quiet (token_gate self op p act tok).
Proof. unfold token_gate. cbv zeta. quieten. Qed.
Lemma quiet_signature ctx p signed : quiet (record_signature ctx p signed).
Proof. unfold record_signature, store_proof. cbv zeta. quieten. Qed.
Lemma quiet_quorum p ctx v : quiet (check_quorum_proofs self p ctx v).
Proof. unfold check_quorum_proofs, get_sign_event_sync. opening. cbv zeta. quieten. Qed.
End quiet_flows.
#[export] Hint Resolve quiet_prepare quiet_gate quiet_signature quiet_quorum quiet_active quiet_describe
  quiet_admission quiet_admission_artifact : quiet.


(** ** What a flow has established when it reaches the wallet *)

Section authorised.
Context `{Jwt} `{SignerExt} `{AgentLib} `{AgentEnv}.
Context (self : SignerAgent).

Lemma quiet_run {A} (m : AG A) s s' r : quiet m -> m s = (s', r) -> went [] s s'.
Proof. intros Hq Hm. specialize (Hq s). by rewrite Hm in Hq. Qed.

Lemma slift_inv {A} (r : result AgentError A) (s s' : agent) a : slift r s = (s', Ok a) -> s' = s /\ r = Ok a.
Proof. by intros [= <- ->]. Qed.
Lemma lift_inv {A} (r : result string A) s s' a : lift r s = (s', Ok a) -> s' = s /\ r = Ok a.
Proof. unfold lift. intros [-> Hr]%slift_inv. by rewrite map_err_ok in Hr. Qed.
Lemma lift_text_inv {E A} (text : E -> string) (r : result E A) s s' a :
  lift_text text r s = (s', Ok a) -> s' = s /\ r = Ok a.
Proof. unfold lift_text. intros [-> Hr]%slift_inv. by rewrite map_err_ok in Hr. Qed.
Lemma require_inv {A} (o : option A) msg s s' a : require o msg s = (s', Ok a) -> s' = s /\ o = Some a.
Proof. unfold require. intros [-> Hr]%slift_inv. by rewrite ok_or_ok in Hr. Qed.
Lemma fail_when_inv b msg s s' u : fail_when b msg s = (s', Ok u) -> s' = s /\ b = false.
Proof. unfold fail_when. intros [-> Hr]%slift_inv. by rewrite fail_if_ok in Hr. Qed.
Lemma read_inv {A} (f : sdb -> A) s s' a :
  read (sget f) s = (s', Ok a) -> s' = set_db (interfered s) s /\ a = f (interfered s).
Proof. by intros [= <- <-]. Qed.

(** The admission that allows the escrow: signed by the guards of the trust
    bundle for this escrow, snapshot and action. *)
Definition admitted (e h : string) (act : EscrowAction) : Prop :=
  forall bundle, sa_runtime_trust_bundle self = Some bundle ->
  exists a, verify_against_bundle sha256 json_to_vec b64_decode falcon_verify a bundle = Ok tt /\
    eq_ignore_ascii_case (aa_escrow_id_hex a) e = true /\
    eq_ignore_ascii_case (aa_snapshot_hash_hex a) h = true /\ aa_action a = act.

Lemma action_eqb_eq a b : action_eqb a b = true -> a = b.
Proof. by destruct a, b. Qed.

Lemma stored_admission_ok e h act exp s s' u :
  validate_stored_escrow_admission self e h act exp s = (s', Ok u) -> admitted e h act.
Proof.
  unfold validate_stored_escrow_admission. intros Hv bundle Hb. rewrite Hb in Hv.
  apply sbind_ok in Hv as (s1 & found & _ & Hv). apply sbind_ok in Hv as (s2 & row & _ & Hv).
  apply sbind_ok in Hv as (s3 & a & _ & Hv). apply sbind_ok in Hv as (s4 & hash & Ha & _).
  unfold verify_escrow_admission_artifact in Ha.
  apply sbind_ok in Ha as (s5 & b & [-> Eb]%require_inv & Ha).
  apply sbind_ok in Ha as (s6 & [] & [-> Hver]%lift_text_inv & Ha).
  apply sbind_ok in Ha as (s7 & u1 & [-> He]%fail_when_inv & Ha).
  apply sbind_ok in Ha as (s8 & u2 & [-> Hh]%fail_when_inv & Ha).
  apply sbind_ok in Ha as (s9 & u3 & [-> Hact]%fail_when_inv & _).
  assert (b = bundle) as -> by congruence.
  exists a. apply negb_false_iff in He, Hh, Hact. split_and!; [done..|]. by apply action_eqb_eq.
Qed.

(** The policy side: [p] is what the request normalises to, [snapshot] was in
    force at some moment of the run, and the wallet described the transaction
    as one the snapshot allows. *)
Record cleared (e : string) (act : EscrowAction) (tx : string) (s s' : agent) (p : prepared)
    (snapshot : ContractSnapshot) : Prop := Cleared {
  cl_escrow : normalize_hex_exact e 32 "escrow_id_hex" = Ok (pr_escrow_id_hex p);
  cl_tx : validate_tx_data_hex tx (sa_max_txset_hex_len self) = Ok (pr_tx_data_hex p);
  cl_hash : txset_sha256_hex sha256 (pr_tx_data_hex p) = Ok (pr_txset_hash_hex p);
  cl_snapshot : exists d row, reach (ag_db s) d /\ reach d (ag_db s') /\
    active_snapshot (pr_escrow_id_hex p) d = Some row /\ snapshot_from_str (sr_snapshot_json row) = Ok snapshot;
  cl_snapshot_hash : pr_snapshot_hash p = policy_hash snapshot;
  cl_admitted : admitted (pr_escrow_id_hex p) (pr_snapshot_hash p) act;
  cl_policy : exists log check raw, wallet_describe log (pr_tx_data_hex p) = Ok (check, raw) /\
    validate_transfer_against_snapshot snapshot act check = Ok tt;
}.

Lemma load_active_ok e s s' snapshot :
  load_active_snapshot e s = (s', Ok snapshot) ->
  exists row, s' = set_db (interfered s) s /\ active_snapshot e (interfered s) = Some row /\
    snapshot_from_str (sr_snapshot_json row) = Ok snapshot.
Proof.
  unfold load_active_snapshot. intros Hl.
  apply sbind_ok in Hl as (s1 & found & [-> ->]%read_inv & Hl).
  apply sbind_ok in Hl as (s2 & row & [-> Hrow]%require_inv & [-> Hsnap]%lift_inv).
  exists row. split_and!; [done| |done]. exact Hrow.
Qed.

Lemma describe_ok during tx snapshot act s s' u :
  describe_and_validate during tx snapshot act s = (s', Ok u) ->
  exists log check raw, wallet_describe log tx = Ok (check, raw) /\
    validate_transfer_against_snapshot snapshot act check = Ok tt.
Proof.
  unfold describe_and_validate. intros Hd. apply sbind_ok in Hd as (s1 & [check raw] & Hc & Hv).
  apply lift_text_inv in Hv as [_ Hv]. destruct u. exists (ag_log s), check, raw. split; [|done].
  unfold with_prefix in Hc. apply sbind_ok in Hc as (s2 & r & Hr & Hc). unfold attempt, call in Hr.
  destruct (wallet_describe (ag_log s) tx) as [a|e]; simpl in Hr; injection Hr as <- <-; [|done].
  by injection Hc as _ <-.
Qed.

Lemma prepare_cleared op e act tx s s' p :
  prepare self op e act tx s = (s', Ok p) -> exists snapshot, cleared e act tx s s' p snapshot.
Proof.
  unfold prepare. cbv zeta. intros Hp.
  apply sbind_ok in Hp as (? & e' & [-> He]%slift_inv & Hp).
  apply sbind_ok in Hp as (? & tx' & [-> Ht]%slift_inv & Hp).
  apply sbind_ok in Hp as (? & h & [-> Hh]%slift_inv & Hp).
  apply sbind_ok in Hp as (s1 & snapshot & Hl & Hp). apply load_active_ok in Hl as (row & -> & Ha & Hs).
  apply sbind_ok in Hp as (s2 & u2 & Hadm & Hp).
  apply sbind_ok in Hp as (s3 & u3 & Hopen & Hp). apply sbind_ok in Hp as (s4 & u4 & Hd & Hp).
  injection Hp as <- <-. exists snapshot.
  assert (went [] (set_db (interfered s) s) s2) as W2.
  { eapply quiet_run; [|exact Hadm]. destruct (requires_escrow_admission self); auto with quiet. }
  assert (went [] s2 s3) as W3 by (eapply quiet_run; [|exact Hopen]; by apply quiet_call).
  assert (went [] s3 s4) as W4 by (eapply quiet_run; [|exact Hd]; auto with quiet).
  constructor; simpl; try done.
  - exists (interfered s), row. split_and!; [apply interfered_reach| |done|done].
    etrans; [apply W2|]. etrans; [apply W3|apply W4].
  - intros bundle Hb. unfold requires_escrow_admission in Hadm. rewrite Hb in Hadm.
    by apply stored_admission_ok in Hadm; apply Hadm.
  - by apply describe_ok in Hd.
Qed.

(** The token side: [v] is what the verifier made of the token, its id was
    unused before and is used up, for exactly this request, after. *)
Record spent (op : ActionTokenOp) (tok : option Token) (p : prepared) (v : VerifiedSignToken) (s s' : agent) : Prop := Spent {
  sp_verified : forall verifier, sa_verifier self = Some verifier -> exists token now1 now2 now3 limiter,
    tok = Some token /\ (verify_op op verifier now1 now2 now3 token p limiter).2 = Ok v;
  sp_fresh : find_jti (c_jti (vt_claims v)) (ag_db s) = None;
  sp_used : exists r, find_jti (c_jti (vt_claims v)) (ag_db s') = Some r /\
    jti_binding r = (c_jti (vt_claims v),
      (pr_escrow_id_hex p, op_name op, c_sign_round (vt_claims v), vt_req_id v));
}.

(** A consumption that succeeds: the id was free up to that moment and is
    bound to the request afterwards. *)
Lemma consume_ok op v p s s' u :
  attempt (consume_jti op v p) s = (s', Ok (Ok u)) ->
  find_jti (c_jti (vt_claims v)) (ag_db s) = None /\
  exists r, find_jti (c_jti (vt_claims v)) (ag_db s') = Some r /\
    jti_binding r = (c_jti (vt_claims v),
      (pr_escrow_id_hex p, op_name op, c_sign_round (vt_claims v), vt_req_id v)).
Proof.
  unfold attempt, consume_jti, access. rewrite jti_run.
  destruct (find_jti (c_jti (vt_claims v)) (interfered s)) as [r|] eqn:Ef; [done|]. intros [= <- <-]. split.
  - eapply reach_jti_none; [apply interfered_reach|done].
  - eexists. split; [unfold find_jti in *; simpl; rewrite find_app_fresh, Ef; simpl; by rewrite String.eqb_refl|].
    done.
Qed.

Lemma verify_token_ok op verifier tok p s s' v :
  verify_token op verifier tok p s = (s', Ok (Ok v)) ->
  exists now1 now2 now3 limiter, (verify_op op verifier now1 now2 now3 tok p limiter).2 = Ok v.
Proof.
  unfold verify_token. cbv zeta. destruct (verify_op _ _ _ _ _ _ _ _) as [l r] eqn:Ev. intros [= _ Hr].
  rewrite map_err_ok in Hr. eexists _, _, _, _. by rewrite Ev.
Qed.

Lemma reject_not_ok {A} op e peer t h ctx err s s' (a : A) : reject self op e peer t h ctx err s <> (s', Ok a).
Proof. unfold reject. intros Hr. apply sbind_ok in Hr as (s1 & u & _ & Hr). done. Qed.

Lemma duplicate_not_open op v p s s' ctx o : duplicate_request self op v p s <> (s', Ok (GateOpen ctx o)).
Proof.
  unfold duplicate_request. cbv zeta. intros Hd.
  apply sbind_ok in Hd as (s1 & found & _ & Hd). apply sbind_ok in Hd as (s2 & ex & _ & Hd).
  destruct (negb _); [by apply reject_not_ok in Hd|].
  destruct (_ =? "completed")%string; [|by apply reject_not_ok in Hd].
  apply sbind_ok in Hd as (s3 & r & _ & Hd). destruct r as [u|err]; [|by apply reject_not_ok in Hd].
  apply sbind_ok in Hd as (s4 & c & _ & Hd). by apply sbind_ok in Hd as (s5 & j & _ & Hd).
Qed.

Lemma gate_spent op p act tok s s' ctx v :
  token_gate self op p act tok s = (s', Ok (GateOpen ctx (Some v))) ->
  spent op tok p v s s' /\ ctx = token_ctx v.
Proof.
  unfold token_gate. destruct (sa_verifier self) as [verifier|] eqn:Ev; [|by intros [= _ _]].
  destruct tok as [token|]; [|intros Hr; by apply reject_not_ok in Hr]. intros Hg.
  apply sbind_ok in Hg as (s1 & r & Hver & Hg).
  assert (went [] s s1) as W1 by (eapply quiet_run; [|exact Hver]; auto with quiet).
  destruct r as [v'|err]; [|by apply reject_not_ok in Hg]. cbv zeta in Hg.
  apply sbind_ok in Hg as (s2 & u2 & Hadm & Hg).
  assert (went [] s1 s2) as W2.
  { eapply quiet_run; [|exact Hadm]. destruct (requires_escrow_admission self); auto with quiet. }
  apply sbind_ok in Hg as (s3 & r3 & Hst & Hg).
  assert (went [] s2 s3) as W3 by (eapply quiet_run; [|exact Hst]; auto with quiet).
  destruct r3 as [u3|err].
  2:{ destruct (contains _ err); [|by apply reject_not_ok in Hg]. exfalso. by eapply duplicate_not_open. }
  apply sbind_ok in Hg as (s4 & r4 & Hc & Hg). destruct r4 as [u4|err].
  2:{ apply sbind_ok in Hg as (s5 & u5 & _ & Hg). by apply reject_not_ok in Hg. }
  injection Hg as <- <- <-. apply consume_ok in Hc as [Hfresh Hused]. split; [|done]. constructor; [|..|exact Hused].
  - intros w Hw. rewrite Hw in Ev. injection Ev as ->. apply verify_token_ok in Hver as (n1 & n2 & n3 & l & Hl).
    by exists token, n1, n2, n3, l.
  - eapply reach_jti_none; [|exact Hfresh]. etrans; [apply W1|]. etrans; [apply W2|apply W3].
Qed.

Lemma gate_unverified op p act tok s s' ctx :
  token_gate self op p act tok s = (s', Ok (GateOpen ctx None)) -> sa_verifier self = None.
Proof.
  unfold token_gate. destruct (sa_verifier self) as [verifier|] eqn:Ev; [|done].
  destruct tok as [token|]; [|intros Hr; by apply reject_not_ok in Hr]. intros Hg.
  apply sbind_ok in Hg as (s1 & r & Hver & Hg). destruct r as [v'|err]; [|by apply reject_not_ok in Hg]. cbv zeta in Hg.
  apply sbind_ok in Hg as (s2 & u2 & Hadm & Hg). apply sbind_ok in Hg as (s3 & r3 & Hst & Hg). destruct r3 as [u3|err].
  2:{ destruct (contains _ err); [|by apply reject_not_ok in Hg]. exfalso. by eapply duplicate_not_open. }
  apply sbind_ok in Hg as (s4 & r4 & Hc & Hg). destruct r4 as [u4|err]; [done|].
  apply sbind_ok in Hg as (s5 & u5 & _ & Hg). by apply reject_not_ok in Hg.
Qed.
End authorised.

(** ** The wallet signs and submits only behind the gate *)

Section gated.
Context `{Jwt} `{SignerExt} `{AgentLib} `{AgentEnv}.
Context (self : SignerAgent).

Lemma cleared_later e act tx s s1 s' p sn :
  cleared self e act tx s s1 p sn -> reach (ag_db s1) (ag_db s') -> cleared self e act tx s s' p sn.
Proof.
  intros [] Hr. constructor; try done. destruct cl_snapshot0 as (d & row & Hd & Hd' & Ha & Hs).
  exists d, row. split_and!; [done| |done|done]. by etrans.
Qed.

Lemma spent_wider op tok p v s0 s s1 s' :
  spent self op tok p v s s1 -> reach (ag_db s0) (ag_db s) -> reach (ag_db s1) (ag_db s') ->
  spent self op tok p v s0 s'.
Proof.
  intros [Hv Hf (r & Hu & Hb)] Hr0 Hr1. constructor; [done|by eapply reach_jti_none|].
  exists r. split; [by eapply reach_jti|done].
Qed.

(** Asks for at most one signature or submission, [e]. *)
Definition commits_once (e : Effect) (s s' : agent) : Prop := went [] s s' \/ went [e] s s'.

Lemma call_commits {A} e (f : list Effect -> result string A) s s' r :
  commits e = true -> attempt (call e f) s = (s', r) -> went [e] s s'.
Proof.
  intros He. unfold attempt, call. intros Hc.
  assert (s' = push_log e s) as -> by (by destruct (map_err Anyhow (f (ag_log s))) as [|[]]; injection Hc as <- _).
  constructor; [done|]. simpl. unfold committed. rewrite List.filter_app. simpl. by rewrite He.
Qed.

(** A quiet beginning, one call to the wallet, a quiet rest. *)
Lemma commits_once_shape {A B C} e (m : AG A) (f : list Effect -> result string B) (k : result string B -> AG C) s :
  commits e = true -> quiet m -> (forall r, quiet (k r)) ->
  commits_once e s (sbind m (fun _ => sbind (attempt (call e f)) k) s).1.
Proof.
  intros He Hm Hk. specialize (Hm s). unfold sbind at 1. destruct (m s) as [s1 [a|err]]; [|by left].
  right. unfold sbind. destruct (attempt (call e f) s1) as [s2 r] eqn:Ec.
  pose proof (call_commits e f s1 s2 r He Ec) as Hw. simpl in Hm.
  assert (went [e] s s2) as Hw' by (by eapply went_quiet).
  destruct r as [r|err]; [|done]. specialize (Hk r s2). by eapply went_then.
Qed.

Lemma sign_and_record_once p ctx s : commits_once (ESign (pr_tx_data_hex p)) s (sign_and_record self p ctx s).1.
Proof.
  apply commits_once_shape; [done|auto with quiet|]. intros r. unfold abort_if. quieten.
Qed.

Lemma submit_and_record_once p ctx s : commits_once (ESubmit (pr_tx_data_hex p)) s (submit_and_record self p ctx s).1.
Proof.
  apply commits_once_shape; [done|auto with quiet|]. intros r. unfold abort_if. quieten.
Qed.

Lemma sign_gated_aux e act tx tok s s' r :
  sign_multisig_flow self e act tx tok s = (s', r) ->
  went [] s s' \/
  exists p snapshot, went [ESign (pr_tx_data_hex p)] s s' /\ cleared self e act tx s s' p snapshot /\
    (sa_verifier self <> None -> exists v, spent self SignMultisig tok p v s s').
Proof.
  unfold sign_multisig_flow. rewrite sbind_run. intros Hf.
  destruct (prepare self SignMultisig e act tx s) as [s1 rp] eqn:Ep.
  assert (went [] s s1) as W1 by (eapply quiet_run; [|exact Ep]; auto with quiet).
  destruct rp as [p|err]; [|injection Hf as <- _; by left].
  apply prepare_cleared in Ep as [snapshot Hcl]. rewrite sbind_run in Hf.
  destruct (token_gate self SignMultisig p act tok s1) as [s2 rg] eqn:Eg.
  assert (went [] s1 s2) as W2 by (eapply quiet_run; [|exact Eg]; auto with quiet).
  assert (went [] s s2) as W12 by (by eapply went_quiet).
  destruct rg as [[ctx v|ctx json]|err]; [| |injection Hf as <- _; by left].
  - pose proof (sign_and_record_once p ctx s2) as Ho. rewrite Hf in Ho. cbn [fst] in Ho.
    destruct Ho as [Ho|Ho]; [left; by eapply went_quiet|]. right. exists p, snapshot.
    split; [by eapply went_quiet|]. split.
    + eapply cleared_later; [exact Hcl|]. etrans; [apply W2|apply Ho].
    + intros Hv. destruct v as [v|]; [|by apply gate_unverified in Eg].
      apply gate_spent in Eg as [Hsp _]. exists v. eapply spent_wider; [exact Hsp|apply W1|apply Ho].
  - left. eapply went_quiet; [exact W12|]. revert Hf. generalize s2. clear. intros s2 Hf.
    eapply quiet_run; [|exact Hf]. unfold lift. quieten.
Qed.

(** C8. [sign_multisig_flow] asks the wallet for a signature at most once,
    and then only for the normalised transaction of the request, which the
    wallet described as one that the snapshot in force of the escrow allows,
    with a guard-signed admission where one is required; and when the signer
    verifies tokens, only after a token for this escrow, transaction set and
    snapshot was verified and its id, unused before, was consumed for this
    request.  This holds for every behaviour of the wallet, the orchestrator
    and the other tasks writing to the database. *)
Theorem sign_gated e act tx tok s s' r :
  sign_multisig_flow self e act tx tok s = (s', r) ->
  went [] s s' \/
  exists p snapshot, went [ESign (pr_tx_data_hex p)] s s' /\ cleared self e act tx s s' p snapshot /\
    (sa_verifier self <> None -> exists v, spent self SignMultisig tok p v s s').
Proof. apply sign_gated_aux. Qed.

(** What a submission needs besides: the arbiter's own signature of this very
    transaction set is on record with the token and request id the token
    names, and the orchestrator, asked when it has to be, confirmed the seller's. *)
Record quorum_checked (p : prepared) (v : VerifiedSignToken) (s s' : agent) : Prop := QuorumChecked {
  qc_arbiter : exists d ev, reach (ag_db s) d /\ reach d (ag_db s') /\
    (get_sign_event_sync (pr_escrow_id_hex p) "arbiter" "arbiter_first" (pr_txset_hash_hex p) d).2 = Ok (Some ev) /\
    opt_non_blank (c_proof_arbiter_jti (vt_claims v)) = Some (ev_jti ev) /\
    opt_non_blank (c_proof_arbiter_req_id (vt_claims v)) = Some (ev_req_id ev);
  qc_seller : exists seller_jti seller_req,
    opt_non_blank (c_proof_seller_jti (vt_claims v)) = Some seller_jti /\
    opt_non_blank (c_proof_seller_req_id (vt_claims v)) = Some seller_req /\
    (sa_production_hardening self = true \/ env_true ENV_VERIFY = true -> exists log args stdout b,
       orchestrator_process log args = Ok stdout /\ bundle_from_str stdout = Ok b /\
       bridge_hex_exact (pr_escrow_id_hex p) 32 "escrow_id_hex" = Ok (pb_escrow_id_hex b) /\
       bridge_hex_exact (pr_txset_hash_hex p) 64 "txset_hash_hex" = Ok (pb_txset_hash_hex b) /\
       pb_proof_seller_jti b = seller_jti /\ pb_proof_seller_req_id b = seller_req);
}.

Lemma fetch_bundle_ok e t s s' b :
  fetch_submit_multisig_proof_bundle e t s = (s', Ok b) -> exists log args stdout,
    orchestrator_process log args = Ok stdout /\ bundle_from_str stdout = Ok b /\
    bridge_hex_exact e 32 "escrow_id_hex" = Ok (pb_escrow_id_hex b) /\
    bridge_hex_exact t 64 "txset_hash_hex" = Ok (pb_txset_hash_hex b).
Proof.
  unfold fetch_submit_multisig_proof_bundle. intros Hf.
  apply sbind_ok in Hf as (? & e' & [-> He]%lift_inv & Hf). apply sbind_ok in Hf as (? & t' & [-> Ht]%lift_inv & Hf).
  apply sbind_ok in Hf as (s2 & out & Ho & Hf). apply sbind_ok in Hf as (? & b' & [-> Hb]%lift_inv & Hf).
  apply sbind_ok in Hf as (? & u' & [-> Heq]%fail_when_inv & Hf). injection Hf as <- <-.
  apply orb_false_iff in Heq as [He'%negb_false_iff%String.eqb_eq Ht'%negb_false_iff%String.eqb_eq].
  rewrite map_err_ok in Hb. unfold run_orchestrator_command in Ho.
  apply sbind_ok in Ho as (? & ? & _ & Ho). apply sbind_ok in Ho as (s3 & ? & _ & Ho).
  injection Ho as _ Ho. rewrite map_err_ok in Ho. eexists _, _, out. split_and!; try done; congruence.
Qed.

Lemma verify_mode_on b on :
  resolve_submit_verify_mode b (env_true ENV_VERIFY) = Ok on -> b = true \/ env_true ENV_VERIFY = true -> on = true.
Proof. unfold resolve_submit_verify_mode. destruct (env_true ENV_VERIFY), b; naive_solver. Qed.

Lemma seller_proof_ok e t j q b s s' u :
  verify_submit_seller_quorum_proof e t j q b s = (s', Ok u) ->
  b = true \/ env_true ENV_VERIFY = true -> exists log args stdout bd,
    orchestrator_process log args = Ok stdout /\ bundle_from_str stdout = Ok bd /\
    bridge_hex_exact e 32 "escrow_id_hex" = Ok (pb_escrow_id_hex bd) /\
    bridge_hex_exact t 64 "txset_hash_hex" = Ok (pb_txset_hash_hex bd) /\
    pb_proof_seller_jti bd = j /\ pb_proof_seller_req_id bd = q.
Proof.
  unfold verify_submit_seller_quorum_proof. intros Hv Hon.
  apply sbind_ok in Hv as (? & on & [-> Hmode]%lift_inv & Hv). rewrite (verify_mode_on _ _ Hmode Hon) in Hv.
  simpl in Hv. apply sbind_ok in Hv as (s1 & bd & Hf & Hv). apply fail_when_inv in Hv as [-> Heq].
  apply orb_false_iff in Heq as [Hj%negb_false_iff%String.eqb_eq Hq%negb_false_iff%String.eqb_eq].
  apply fetch_bundle_ok in Hf as (log & args & out & Hf). exists log, args, out, bd. naive_solver.
Qed.

Lemma denied_not_ok {A} op e peer t h ctx err q s s' (a : A) :
  sbind (abort_request q) (fun _ => reject self op e peer t h ctx err) s <> (s', Ok a).
Proof. intros Hd. apply sbind_ok in Hd as (s1 & u & _ & Hd). by apply reject_not_ok in Hd. Qed.

Lemma quorum_proofs_ok p ctx v s s' u :
  check_quorum_proofs self p ctx v s = (s', Ok u) -> quorum_checked p v s s'.
Proof.
  unfold check_quorum_proofs. cbv zeta. intros Hc.
  apply sbind_ok in Hc as (s1 & found & Hread & Hc). apply read_inv in Hread as [-> Hfound].
  destruct found as [ev|]; [|by apply denied_not_ok in Hc].
  apply sbind_ok in Hc as (? & aj & [-> Haj]%require_inv & Hc).
  apply sbind_ok in Hc as (? & aq & [-> Haq]%require_inv & Hc).
  destruct (_ || _) eqn:Em; [by apply denied_not_ok in Hc|].
  apply orb_false_iff in Em as [<-%negb_false_iff%String.eqb_eq <-%negb_false_iff%String.eqb_eq].
  destruct (opt_non_blank (c_proof_seller_jti _)) as [sj|] eqn:Esj; [|by apply denied_not_ok in Hc].
  destruct (opt_non_blank (c_proof_seller_req_id _)) as [sq|] eqn:Esq; [|by apply denied_not_ok in Hc].
  apply sbind_ok in Hc as (s2 & r & Hr & Hc).
  assert (went [] (set_db (interfered s) s) s2) as W by (eapply quiet_run; [|exact Hr]; apply quiet_attempt, quiet_seller_proof).
  destruct r as [u'|err]; [|by apply denied_not_ok in Hc]. injection Hc as <- <-. constructor.
  - exists (interfered s), ev. split_and!; [apply interfered_reach|apply W| |done|done].
    unfold get_sign_event_sync, sget. simpl. by rewrite <- Hfound.
  - exists sj, sq. split_and!; [done..|]. intros Hon. unfold attempt in Hr.
    destruct (verify_submit_seller_quorum_proof _ _ _ _ _ _) as [s3 [u3|[]]] eqn:Ev; [|done|done].
    by eapply seller_proof_ok.
Qed.

Lemma quorum_wider p v s0 s s1 s' :
  quorum_checked p v s s1 -> reach (ag_db s0) (ag_db s) -> reach (ag_db s1) (ag_db s') -> quorum_checked p v s0 s'.
Proof.
  intros [(d & ev & Hd & Hd' & Hev) Hs] Hr0 Hr1. constructor; [|done].
  exists d, ev. split; [by etrans|]. split; [by etrans|done].
Qed.

Lemma submit_gated_aux e act tx tok s s' r :
  submit_multisig_flow self e act tx tok s = (s', r) ->
  went [] s s' \/
  exists p snapshot, went [ESubmit (pr_tx_data_hex p)] s s' /\ cleared self e act tx s s' p snapshot /\
    (sa_verifier self <> None -> exists v, spent self SubmitMultisig tok p v s s' /\ quorum_checked p v s s').
Proof.
  unfold submit_multisig_flow. rewrite sbind_run. intros Hf.
  destruct (prepare self SubmitMultisig e act tx s) as [s1 rp] eqn:Ep.
  assert (went [] s s1) as W1 by (eapply quiet_run; [|exact Ep]; auto with quiet).
  destruct rp as [p|err]; [|injection Hf as <- _; by left].
  apply prepare_cleared in Ep as [snapshot Hcl]. rewrite sbind_run in Hf.
  destruct (token_gate self SubmitMultisig p act tok s1) as [s2 rg] eqn:Eg.
  assert (went [] s1 s2) as W2 by (eapply quiet_run; [|exact Eg]; auto with quiet).
  assert (went [] s s2) as W12 by (by eapply went_quiet).
  destruct rg as [[ctx v|ctx json]|err]; [| |injection Hf as <- _; by left].
  - rewrite sbind_run in Hf.
    destruct (match v with Some v => check_quorum_proofs self p ctx v | None => sret tt end s2) as [s3 rq] eqn:Eq.
    assert (went [] s2 s3) as W3 by (eapply quiet_run; [|exact Eq]; destruct v; auto with quiet).
    assert (went [] s s3) as W13 by (by eapply went_quiet).
    destruct rq as [u|err]; [|injection Hf as <- _; by left].
    pose proof (submit_and_record_once p ctx s3) as Ho. rewrite Hf in Ho. cbn [fst] in Ho.
    destruct Ho as [Ho|Ho]; [left; by eapply went_quiet|]. right. exists p, snapshot.
    split; [by eapply went_quiet|]. split.
    + eapply cleared_later; [exact Hcl|]. etrans; [apply W2|]. etrans; [apply W3|apply Ho].
    + intros Hv. destruct v as [v|]; [|by apply gate_unverified in Eg].
      apply gate_spent in Eg as [Hsp _]. exists v. split.
      * eapply spent_wider; [exact Hsp|apply W1|]. etrans; [apply W3|apply Ho].
      * eapply quorum_wider; [by eapply quorum_proofs_ok|apply W12|apply Ho].
  - left. eapply went_quiet; [exact W12|]. revert Hf. generalize s2. clear. intros s2 Hf.
    eapply quiet_run; [|exact Hf]. unfold lift. quieten.
Qed.

(** C9. [submit_multisig_flow] asks the wallet to submit at most once, and
    then under the conditions of [sign_gated] for the submit operation; when
    the signer verifies tokens, also only after the quorum was checked: the
    arbiter's signature of this very transaction set is on record under the
    token and request ids the submit token names, and in production, or when
    verification is on, the orchestrator returned the seller's proof with the
    ids of the token for this escrow and transaction set. *)
Theorem submit_gated e act tx tok s s' r :
  submit_multisig_flow self e act tx tok s = (s', r) ->
  went [] s s' \/
  exists p snapshot, went [ESubmit (pr_tx_data_hex p)] s s' /\ cleared self e act tx s s' p snapshot /\
    (sa_verifier self <> None -> exists v, spent self SubmitMultisig tok p v s s' /\ quorum_checked p v s s').
Proof. apply submit_gated_aux. Qed.
End gated.
