(* ===== verification/AgentMailProps.v ===== *)
(** * What receiving guarantees

    No message makes the wallet sign or submit; an envelope counts once, and what happens to
    it the second time does not depend on what came of it the first time. *)

From S2P Require Import Prelude RustString Sql Json Wire Admission Snapshot ActionToken TokenVerifier.
From S2P Require Import SignerDb SignerInv SignerProps AgentSupport AgentState OrchBridge AgentFlows.
From S2P Require Import AgentMail AgentProps.

(** ** Messages do not sign or submit *)

Section quiet_mail.
Context `{Jwt} `{SignerExt} `{AgentLib} `{AgentEnv}.
Context (self : SignerAgent).

Lemma quiet_retry {A} attempts (m : AG A) : quiet m -> quiet (with_retry attempts m).
Proof.
  intros Hm. unfold with_retry. induction (Nat.pred _) as [|n IH]; simpl; [done|]. quieten.
Qed.
Hint Resolve quiet_retry : quiet.
Lemma quiet_push env : quiet (mailbox_push_with_retry self env).
Proof. apply quiet_retry. by apply quiet_call. Qed.
Lemma quiet_ack receipt : quiet (mailbox_ack_with_retry self receipt).
Proof. apply quiet_retry. by apply quiet_call. Qed.
Lemma quiet_pull : quiet (mailbox_pull_with_retry self).
Proof. apply quiet_retry. by apply quiet_call. Qed.
Lemma quiet_clock : quiet clock.
Proof. intros s. constructor; simpl; [apply interfered_reach|by rewrite app_nil_r]. Qed.
Lemma quiet_seal pk sk f t m e q plain : quiet (seal pk sk f t m e q plain).
Proof. intros s. apply went_refl. Qed.
Lemma quiet_out_seq e : quiet (out_seq_for self e).
Proof.
  apply quiet_access. intros n1 n2 d. eapply (reach_unit _ Some). apply (reach_op (OpOutSeq n1 e (sa_local_id self))).
Qed.
Lemma quiet_record_seq pl : quiet (record_seq pl).
Proof.
  apply quiet_access. intros n1 n2 d. eapply reach_unit.
  apply (reach_op (OpIncoming n1 (pl_escrow_id_hex pl) (pl_from pl) (pl_seq pl))).
Qed.
Lemma quiet_artifact row : quiet (read (upsert_escrow_admission_artifact_sync row)).
Proof. apply quiet_access. intros n1 n2 d. eapply reach_unit. apply (reach_op (OpArtifact row)). Qed.
Lemma quiet_enqueue p : quiet (read (enqueue_pending_tx_sync p)).
Proof. apply quiet_access. intros n1 n2 d. eapply reach_unit. apply (reach_op (OpEnqueue p)). Qed.
Lemma quiet_status id status reason : quiet (access (fun now _ => set_pending_status_sync now id status reason)).
Proof. apply quiet_access. intros n1 n2 d. eapply reach_unit. apply (reach_op (OpStatus n1 id status reason)). Qed.
Hint Resolve quiet_push quiet_ack quiet_pull quiet_clock quiet_seal quiet_out_seq quiet_record_seq quiet_artifact
  quiet_enqueue quiet_status : quiet.

Lemma quiet_send_seq to e t body o : quiet (send_body_with_seq self to e t body o).
Proof. unfold send_body_with_seq, b64_bytes. opening. cbv zeta. quieten. Qed.
Hint Resolve quiet_send_seq : quiet.
Lemma quiet_handle payload raw : quiet (handle_tx_sign_req self payload raw).
Proof.
  unfold handle_tx_sign_req, store_request_admission, build_admission_row, active_snapshot_for_escrow_sync, open_wallet.
  opening. cbv zeta. quieten.
Qed.
Hint Resolve quiet_handle : quiet.
Lemma quiet_open env : quiet (open_envelope self env).
Proof. unfold open_envelope, b64_bytes. opening. cbv zeta. quieten. Qed.
Hint Resolve quiet_open : quiet.
Lemma quiet_process env : quiet (process_envelope self env).
Proof. unfold process_envelope, send_body. opening. cbv zeta. quieten. Qed.
Hint Resolve quiet_process : quiet.
Lemma quiet_messages msgs : quiet (handle_messages self msgs).
Proof.
  induction msgs as [|[receipt env] rest IH]; simpl; [auto with quiet|]. unfold handle_message. opening. quieten.
Qed.
Hint Resolve quiet_messages : quiet.
Lemma quiet_run_once : quiet (run_once self).
Proof. unfold run_once. quieten. Qed.
Lemma quiet_mark pending detail : quiet (mark_pending_error self pending detail).
Proof. unfold mark_pending_error. opening. quieten. Qed.
End quiet_mail.
#[export] Hint Resolve quiet_retry quiet_push quiet_ack quiet_pull quiet_clock quiet_seal quiet_out_seq quiet_record_seq
  quiet_artifact quiet_enqueue quiet_status quiet_send_seq quiet_handle quiet_open quiet_process quiet_messages
  quiet_run_once quiet_mark : quiet.

(** ** An envelope counts once *)

Section once.
Context `{Jwt} `{SignerExt} `{AgentLib} `{AgentEnv}.
Context (self : SignerAgent).

(** Computations that neither read nor write the state. *)
Definition pure {A} (m : AG A) : Prop := exists r, forall s, m s = (s, r).
Lemma pure_lift {A} (r : result AgentError A) : pure (slift r).
Proof. by exists r. Qed.
Lemma pure_ret {A} (a : A) : pure (sret a).
Proof. by exists (Ok a). Qed.
Lemma pure_bind {A B} (m : AG A) (k : A -> AG B) : pure m -> (forall a, pure (k a)) -> pure (sbind m k).
Proof.
  intros [[a|e] Hm] Hk; unfold sbind.
  - destruct (Hk a) as [r Hr]. exists r. intros s. by rewrite Hm, Hr.
  - exists (Err e). intros s. by rewrite Hm.
Qed.

Lemma open_pure env : pure (open_envelope self env).
Proof.
  unfold open_envelope, b64_bytes. opening. cbv zeta.
  repeat first [apply pure_bind; [apply pure_lift|intros ?] | apply pure_ret].
Qed.

(** The channel of [payload] has accepted its number, or a larger one. *)
Definition counted (payload : NxmsPayload) (d : sdb) : Prop :=
  fresh_seq (pl_escrow_id_hex payload) (pl_from payload) (to_i64 (pl_seq payload)) d = false.

Lemma seen_grows e f d d' : reach d d' -> exists l, seen_seqs e f d' = seen_seqs e f d ++ l.
Proof.
  intros [ops <-]. apply (run_signer_ind (fun d' => exists l, seen_seqs e f d' = seen_seqs e f d ++ l)).
  - intros op d1 [l Hl]. rewrite seen_seqs_step, Hl, <- app_assoc. by eexists.
  - exists []. by rewrite app_nil_r.
Qed.

Lemma counted_reach payload d d' : reach d d' -> counted payload d -> counted payload d'.
Proof.
  unfold counted. intros Hr Hc. apply not_true_iff_false. apply not_true_iff_false in Hc. contradict Hc.
  rewrite fresh_seq_spec in *. intros x Hx. apply Hc.
  destruct (seen_grows (pl_escrow_id_hex payload) (pl_from payload) d d' Hr) as [l ->]. set_solver.
Qed.

Lemma accept_counted now payload d :
  counted payload (accept_seq now (pl_escrow_id_hex payload) (pl_from payload) (pl_seq payload) d).
Proof.
  unfold counted. apply not_true_iff_false. rewrite fresh_seq_spec. intros Hf.
  assert (to_i64 (pl_seq payload) < to_i64 (pl_seq payload)); [|lia]. apply Hf.
  unfold seen_seqs, accept_seq. simpl. rewrite List.filter_app, map_app. unfold on_channel at 2. simpl.
  rewrite !String.eqb_refl. set_solver.
Qed.

Definition REPLAY : string := "replay/out-of-order seq detected".

Lemma incoming_stale now e f seq d :
  fresh_seq e f (to_i64 seq) d = false ->
  exists rest, record_incoming_seq_sync now e f seq d = (d, Err (REPLAY +:+ rest)).
Proof.
  unfold fresh_seq. destruct (max_seen e f (incoming_seen d)) as [m|] eqn:Em; [|done]. intros Hle%Z.ltb_ge.
  unfold record_incoming_seq_sync, transaction, sbind, in_tx, sget, slift, fail_if, commit.
  cbn [tx_working tx_committed]. rewrite Em, (proj2 (Z.leb_le _ _) Hle).
  eexists (" for (" +:+ _). reflexivity.
Qed.

Lemma record_seq_run payload s :
  (counted payload (interfered s) /\ exists rest, attempt (record_seq payload) s = (set_db (interfered s) s, Ok (Err (REPLAY +:+ rest))))
  \/ (counted payload (ag_db (attempt (record_seq payload) s).1) /\ exists s', attempt (record_seq payload) s = (s', Ok (Ok tt)) /\ ag_log s' = ag_log s).
Proof.
  unfold counted at 1. destruct (fresh_seq _ _ _ (interfered s)) eqn:Ef.
  - right. unfold attempt, record_seq, access.
    destruct (incoming_run (env_now (ag_ticks s) 0) (pl_escrow_id_hex payload) (pl_from payload) (pl_seq payload) (interfered s))
      as [err ->]. rewrite Ef. simpl. split; [apply accept_counted|by eexists].
  - left. split; [done|]. unfold attempt, record_seq, access.
    destruct (incoming_stale (env_now (ag_ticks s) 0) _ _ (pl_seq payload) (interfered s) Ef) as [rest ->]. by exists rest.
Qed.

Lemma replay_acked rest : should_ack_non_retryable_process_error (REPLAY +:+ rest) = true.
Proof.
  unfold should_ack_non_retryable_process_error. rewrite lowercase_app.
  apply existsb_exists. exists REPLAY. split; [unfold NON_RETRYABLE, REPLAY; simpl; tauto|].
  change (to_ascii_lowercase REPLAY) with REPLAY. apply contains_prefix.
Qed.

Lemma audit_silent ev s : exists s', best_effort_audit ev s = (s', Ok tt) /\ ag_log s' = ag_log s.
Proof.
  unfold best_effort_audit, ignore, sbind, attempt, access. destruct (append_audit_log_sync _ _ _) as [d [u|e]]; by eexists.
Qed.

(** Processing leaves the number counted, whatever comes of it. *)
Lemma process_counted env payload s s' r :
  open_envelope self env s = (s, Ok payload) -> process_envelope self env s = (s', r) -> counted payload (ag_db s').
Proof.
  intros Ho. unfold process_envelope. rewrite sbind_run, Ho. cbv zeta. rewrite sbind_run.
  assert (quiet (record_seq payload)) as Hq by auto with quiet.
  destruct (record_seq_run payload s) as [[Hc [rest ->]]|[Hc (s1 & Hs1 & _)]].
  - intros Hp. assert (went [] (set_db (interfered s) s) s') as W.
    { eapply quiet_run; [|exact Hp]. unfold fail. quieten. }
    eapply counted_reach; [apply W|exact Hc].
  - rewrite Hs1 in *. cbn [fst] in Hc. intros Hp. assert (went [] s1 s') as W.
    { eapply quiet_run; [|exact Hp]. unfold fail, send_body. quieten. }
    eapply counted_reach; [apply W|exact Hc].
Qed.

(** A counted envelope is rejected as a replay before anything is done with it. *)
Lemma process_replay env payload s :
  open_envelope self env s = (s, Ok payload) -> counted payload (ag_db s) ->
  exists s' rest, process_envelope self env s = (s', Err (Anyhow (REPLAY +:+ rest))) /\ ag_log s' = ag_log s.
Proof.
  intros Ho Hc. unfold process_envelope. rewrite sbind_run, Ho. cbv zeta. rewrite sbind_run.
  assert (counted payload (interfered s)) as Hi by (eapply counted_reach; [apply interfered_reach|done]).
  destruct (incoming_stale (env_now (ag_ticks s) 0) _ _ (pl_seq payload) (interfered s) Hi) as [rest Hr].
  unfold attempt, record_seq, access. rewrite Hr. simpl. rewrite sbind_run.
  edestruct audit_silent as (s' & -> & Hl). exists s', rest. split; [done|]. by rewrite Hl.
Qed.

(** The calls of a retried operation. *)
Lemma retry_log {A} n e (f : list Effect -> result string A) s :
  exists k, (1 <= k <= S n)%nat /\ ag_log (retry_after n (call e f) s).1 = ag_log s ++ replicate k e.
Proof.
  revert s. induction n as [|n IH]; intros s; simpl; [by exists 1%nat|].
  unfold sbind, attempt, call. destruct (f (ag_log s)) as [a|err]; simpl; [exists 1%nat; split; [lia|done]|].
  destruct (IH (push_log e s)) as (k & Hk & Hl). exists (S k). split; [lia|].
  unfold call in Hl. rewrite Hl. simpl. by rewrite <- app_assoc.
Qed.
Lemma with_retry_log {A} attempts e (f : list Effect -> result string A) s :
  exists k, 1 <= Z.of_nat k <= Z.max attempts 1 /\ ag_log (with_retry attempts (call e f) s).1 = ag_log s ++ replicate k e.
Proof. destruct (retry_log (Nat.pred (Z.to_nat (Z.max attempts 1))) e f s) as (k & Hk & Hl). exists k. split; [lia|done]. Qed.

(** An envelope counts once.  After it was opened and processed, with
    whatever result, a second delivery, however much later, is acknowledged to
    the mailbox, at most as often as retries are configured, and nothing else is done with it:
    no message is handled twice, and none whose first handling failed is
    handled again. *)
Theorem redelivery_discarded env payload receipt s s1 r1 s2 :
  open_envelope self env s = (s, Ok payload) -> process_envelope self env s = (s1, r1) ->
  reach (ag_db s1) (ag_db s2) ->
  (process_envelope self env s2).2 <> Ok tt /\
  exists k, 1 <= Z.of_nat k <= Z.max (sa_mailbox_retry_attempts self) 1 /\
    ag_log (handle_message self (receipt, env) s2).1 = ag_log s2 ++ replicate k (EAck receipt).
Proof.
  intros Ho Hp Hr. pose proof (process_counted _ _ _ _ _ Ho Hp) as Hc. apply (counted_reach _ _ _ Hr) in Hc.
  destruct (open_pure env) as [r Hpure]. rewrite Hpure in Ho. injection Ho as ->.
  destruct (process_replay env payload s2 (Hpure s2) Hc) as (s3 & rest & Hp2 & Hl). split; [by rewrite Hp2|].
  unfold handle_message. rewrite sbind_run. unfold attempt at 1. rewrite Hp2, replay_acked.
  unfold ignore, mailbox_ack_with_retry. rewrite sbind_run.
  destruct (with_retry_log (sa_mailbox_retry_attempts self) (EAck receipt) (fun log => mailbox_ack log receipt) s3) as (k & Hk & Hlog).
  exists k. split; [done|]. unfold attempt. destruct (with_retry _ _ s3) as [s4 [u|[]]]; simpl in *; by rewrite Hlog, Hl.
Qed.
End once.
