(* ===== verification/AgentPendingProps.v ===== *)
(** * What decisions guarantee

    Approving signs only a queued request that still matches the snapshot in
    force and only for a fresh token; a staged answer is sent again without the
    wallet; and over all calls of the signer one token buys one signature or submission. *)

From S2P Require Import Prelude RustString Sql Json Wire Admission Snapshot ActionToken TokenVerifier.
From S2P Require Import SignerDb SignerInv SignerProps AgentSupport AgentState OrchBridge AgentFlows.
From S2P Require Import AgentMail AgentPending AgentProps AgentMailProps.

Section quiet_pending.
Context `{Jwt} `{SignerExt} `{AgentLib} `{AgentEnv}.
Context (self : SignerAgent).

Lemma quiet_set_status id status reason : quiet (set_status id status reason).
Proof. apply quiet_status. Qed.
Hint Resolve quiet_set_status : quiet.
Lemma quiet_find id : quiet (find_pending id).
Proof. unfold find_pending, get_pending_sync. opening. quieten. Qed.
Lemma quiet_answer pending t body o : quiet (send_answer self pending t body o).
Proof. unfold send_answer. quieten. Qed.
Lemma quiet_decision pending k d t : quiet (decision_audit self pending k d t).
Proof. unfold decision_audit. auto with quiet. Qed.
Lemma quiet_dead_letter b pending d : quiet (dead_letter_when self b pending d).
Proof. unfold dead_letter_when. opening. quieten. Qed.
Hint Resolve quiet_find quiet_answer quiet_decision quiet_dead_letter : quiet.
Lemma quiet_resend_approved id pending : quiet (resend_approved self id pending).
Proof. unfold resend_approved. opening. quieten. Qed.
Lemma quiet_approve_prepare pending : quiet (approve_prepare self pending).
Proof. unfold approve_prepare, active_snapshot_for_escrow_sync, open_wallet. opening. cbv zeta. quieten. Qed.
Lemma quiet_approve_gate peer p act tok : quiet (approve_gate self peer p act tok).
Proof. unfold approve_gate. cbv zeta. quieten. Qed.
Lemma quiet_deliver id pending ctx signed : quiet (deliver_approval self id pending ctx signed).
Proof. unfold deliver_approval. cbv zeta. quieten. Qed.
Lemma quiet_record_approval ctx p signed : quiet (record_approval ctx p signed).
Proof. unfold record_approval. quieten. Qed.
Lemma quiet_reject_pending id reason : quiet (reject_pending self id reason).
Proof. unfold reject_pending, resend_rejected. opening. cbv zeta. quieten. Qed.
End quiet_pending.
#[export] Hint Resolve quiet_set_status quiet_find quiet_answer quiet_decision quiet_dead_letter quiet_resend_approved
  quiet_approve_prepare quiet_approve_gate quiet_deliver quiet_record_approval quiet_reject_pending : quiet.

Section approval.
Context `{Jwt} `{SignerExt} `{AgentLib} `{AgentEnv}.
Context (self : SignerAgent).

(** What is known of an approved row: it was queued, its hash is that of its
    transaction set, the snapshot it was queued under is the one in force, and
    the wallet described the set as one the snapshot allows. *)
Record approvable (id : Z) (pending : PendingTxSign) (act : EscrowAction) (snapshot : ContractSnapshot)
    (p : prepared) (s s' : agent) : Prop := Approvable {
  ap_queued : exists d, reach (ag_db s) d /\ reach d (ag_db s') /\
    (get_pending_sync id d).2 = Ok (Some pending) /\ pt_status pending = "pending"%string;
  ap_escrow : pr_escrow_id_hex p = pt_escrow_id_hex pending;
  ap_tx : pr_tx_data_hex p = pt_multisig_txset_hex pending;
  ap_hash : txset_sha256_hex sha256 (pt_multisig_txset_hex pending) = Ok (pr_txset_hash_hex p);
  ap_stored : eq_ignore_ascii_case (pr_txset_hash_hex p) (pt_txset_hash_hex pending) = true \/
    eq_ignore_ascii_case (sha3_hex (pt_multisig_txset_hex pending)) (pt_txset_hash_hex pending) = true;
  ap_active : exists d row hash, reach (ag_db s) d /\ reach d (ag_db s') /\
    active_snapshot (pt_escrow_id_hex pending) d = Some row /\ snapshot_from_str (sr_snapshot_json row) = Ok snapshot /\
    normalize_hex_exact (pt_snapshot_hash_hex pending) 64 "pending.snapshot_hash_hex" = Ok hash /\
    eq_ignore_ascii_case hash (sr_hash_hex row) = true;
  ap_policy_hash : pr_snapshot_hash p = policy_hash snapshot;
  ap_action : action_from_str (pt_action pending) = Ok act;
  ap_admitted : admitted self (pr_escrow_id_hex p) (pr_snapshot_hash p) act;
  ap_policy : exists log check raw, wallet_describe log (pr_tx_data_hex p) = Ok (check, raw) /\
    validate_transfer_against_snapshot snapshot act check = Ok tt;
}.

Lemma dead_letter_inv b pending d s s' u :
  dead_letter_when self b pending d s = (s', Ok u) -> b = false /\ s' = s.
Proof.
  unfold dead_letter_when. destruct b; [|by intros [= <- _]]. intros Hd.
  apply sbind_ok in Hd as (s1 & u1 & _ & Hd). done.
Qed.

Lemma find_pending_ok id s s' pending :
  find_pending id s = (s', Ok pending) ->
  s' = set_db (interfered s) s /\ (get_pending_sync id (interfered s)).2 = Ok (Some pending).
Proof.
  unfold find_pending. intros Hf. apply sbind_ok in Hf as (s1 & found & [-> ->]%read_inv & Hf).
  apply require_inv in Hf as [-> Hf]. split; [done|]. unfold get_pending_sync, sget. simpl. by rewrite <- Hf.
Qed.

(** [with_prefix] hides nothing of the answer. *)
Lemma with_prefix_call {A} prefix e (f : list Effect -> result string A) s s' a :
  with_prefix prefix (call e f) s = (s', Ok a) -> f (ag_log s) = Ok a.
Proof.
  unfold with_prefix. intros Hc. apply sbind_ok in Hc as (s2 & r & Hr & Hc). unfold attempt, call in Hr.
  destruct (f (ag_log s)) as [b|e']; simpl in Hr; injection Hr as <- <-; [|done]. by injection Hc as _ <-.
Qed.

Lemma approve_prepare_ok id pending s0 s s' p act :
  reach (ag_db s0) (ag_db s) -> (get_pending_sync id (ag_db s)).2 = Ok (Some pending) -> pt_status pending = "pending"%string ->
  approve_prepare self pending s = (s', Ok (p, act)) -> exists snapshot, approvable id pending act snapshot p s0 s'.
Proof.
  intros Hr0 Hfound Hst Hp. pose proof (quiet_run _ _ _ _ (quiet_approve_prepare self pending) Hp) as W.
  unfold approve_prepare in Hp. cbv zeta in Hp.
  apply sbind_ok in Hp as (? & computed & [-> Hh]%slift_inv & Hp).
  apply sbind_ok in Hp as (? & u1 & [Hstored ->]%dead_letter_inv & Hp).
  apply sbind_ok in Hp as (? & hash & [-> Hhash]%slift_inv & Hp).
  apply sbind_ok in Hp as (? & found & [-> Hact]%read_inv & Hp).
  apply sbind_ok in Hp as (? & row & [-> Hrow]%require_inv & Hp).
  apply sbind_ok in Hp as (? & u2 & [Hmatch ->]%dead_letter_inv & Hp).
  apply sbind_ok in Hp as (? & snapshot & [-> Hsnap]%lift_inv & Hp).
  apply sbind_ok in Hp as (? & action & [-> Haction]%lift_inv & Hp).
  apply sbind_ok in Hp as (s2 & u3 & Hadm & Hp).
  apply sbind_ok in Hp as (s3 & u4 & Hopen & Hp). apply sbind_ok in Hp as (s4 & [check raw] & Hd & Hp).
  assert (went [] s3 s4) as W4 by (eapply quiet_run; [|exact Hd]; opening; quieten).
  apply with_prefix_call in Hd.
  destruct (validate_transfer_against_snapshot snapshot action check) as [[]|err] eqn:Epol.
  2:{ by apply sbind_ok in Hp as (s5 & u5 & _ & Hp). }
  injection Hp as <- <- <-. exists snapshot. unfold parse_pending_action in Haction. rewrite map_err_ok in Haction.
  assert (reach (interfered s) (ag_db s4)) as Hr4.
  { assert (went [] (set_db (interfered s) s) s2) as W2
      by (eapply quiet_run; [|exact Hadm]; destruct (requires_escrow_admission self); auto with quiet).
    assert (went [] s2 s3) as W3 by (eapply quiet_run; [|exact Hopen]; by apply quiet_call).
    etrans; [apply W2|]. etrans; [apply W3|apply W4]. }
  constructor; simpl; try done.
  - exists (ag_db s). split_and!; [done|apply W|done|done].
  - apply andb_false_iff in Hstored as [?%negb_false_iff|?%negb_false_iff]; [by left|by right].
  - exists (interfered s), row, hash. split_and!; [etrans; [exact Hr0|apply interfered_reach]|done| |done|done|].
    + unfold active_snapshot_for_escrow_sync, sget in Hact. by rewrite <- Hrow, Hact.
    + by apply negb_false_iff in Hmatch.
  - intros bundle Hb. unfold requires_escrow_admission in Hadm. rewrite Hb in Hadm.
    by apply stored_admission_ok in Hadm; apply Hadm.
  - by exists (ag_log s3), check, raw.
Qed.

Lemma approve_gate_spent peer p act tok s s' ctx :
  approve_gate self peer p act tok s = (s', Ok ctx) -> sa_verifier self <> None ->
  exists v, spent self SignMultisig tok p v s s' /\ ctx = token_ctx v.
Proof.
  intros Hg Hv. unfold approve_gate in Hg. destruct (sa_verifier self) as [verifier|] eqn:Ev; [|done]. cbv zeta in Hg.
  destruct tok as [token|].
  2:{ destruct (av_required verifier); by apply reject_not_ok in Hg. }
  apply sbind_ok in Hg as (s1 & r & Hver & Hg).
  assert (went [] s s1) as W1 by (eapply quiet_run; [|exact Hver]; auto with quiet).
  destruct r as [v|err]; [|by apply reject_not_ok in Hg].
  apply sbind_ok in Hg as (s2 & u2 & Hadm & Hg).
  assert (went [] s1 s2) as W2.
  { eapply quiet_run; [|exact Hadm]. destruct (requires_escrow_admission self); auto with quiet. }
  apply sbind_ok in Hg as (s3 & r3 & Hst & Hg).
  assert (went [] s2 s3) as W3 by (eapply quiet_run; [|exact Hst]; auto with quiet).
  destruct r3 as [u3|err]; [|by apply reject_not_ok in Hg].
  apply sbind_ok in Hg as (s4 & r4 & Hc & Hg). destruct r4 as [u4|err].
  2:{ apply sbind_ok in Hg as (s5 & u5 & _ & Hg). by apply reject_not_ok in Hg. }
  injection Hg as <- <-. apply consume_ok in Hc as [Hfresh Hused]. exists v. split; [|done]. constructor; [|..|exact Hused].
  - intros w Hw. rewrite Hw in Ev. injection Ev as ->. apply verify_token_ok in Hver as (n1 & n2 & n3 & l & Hl).
    by exists token, n1, n2, n3, l.
  - eapply reach_jti_none; [|exact Hfresh]. etrans; [apply W1|]. etrans; [apply W2|apply W3].
Qed.

Lemma approve_and_send_once id pending peer p ctx s :
  commits_once (ESign (pr_tx_data_hex p)) s (approve_and_send self id pending peer p ctx s).1.
Proof.
  apply commits_once_shape; [done|auto with quiet|]. intros r. unfold abort_if. quieten.
Qed.

Lemma approvable_later id pending act sn p s s1 s' :
  approvable id pending act sn p s s1 -> reach (ag_db s1) (ag_db s') -> approvable id pending act sn p s s'.
Proof.
  intros [] Hr. constructor; try done.
  - destruct ap_queued0 as (d & ? & ? & ? & ?). exists d. split_and!; try done. by etrans.
  - destruct ap_active0 as (d & row & h & ? & ? & ? & ? & ? & ?). exists d, row, h. split_and!; try done. by etrans.
Qed.

Lemma approve_gated_aux id tok s s' r :
  approve_pending self id tok s = (s', r) ->
  went [] s s' \/
  exists pending act snapshot p, went [ESign (pt_multisig_txset_hex pending)] s s' /\
    approvable id pending act snapshot p s s' /\
    (sa_verifier self <> None -> exists v, spent self SignMultisig tok p v s s').
Proof.
  unfold approve_pending. rewrite sbind_run. intros Hf.
  destruct (find_pending id s) as [s1 [pending|err]] eqn:Ef.
  2:{ left. injection Hf as <- _. eapply quiet_run; [|exact Ef]; auto with quiet. }
  assert (went [] s s1) as W1 by (eapply quiet_run; [|exact Ef]; auto with quiet).
  apply find_pending_ok in Ef as [-> Hfound].
  destruct (pt_status pending =? "approved_sending")%string.
  { left. eapply went_quiet; [exact W1|]. eapply quiet_run; [|exact Hf]. auto with quiet. }
  rewrite sbind_run in Hf. unfold fail_when at 1, slift, fail_if in Hf.
  destruct (String.eqb_spec (pt_status pending) "pending") as [Hst|]; simpl negb in Hf; cbv iota in Hf.
  2:{ left. by injection Hf as <- _. }
  rewrite sbind_run in Hf. destruct (approve_prepare self pending _) as [s2 rp] eqn:Ep.
  assert (went [] (set_db (interfered s) s) s2) as W2 by (eapply quiet_run; [|exact Ep]; auto with quiet).
  assert (went [] s s2) as W12 by (by eapply went_quiet).
  destruct rp as [[p act]|err]; [|injection Hf as <- _; by left].
  apply (approve_prepare_ok id _ s) in Ep as [snapshot Hok]; [|apply W1|done|done].
  cbv zeta in Hf. rewrite sbind_run in Hf. destruct (approve_gate self _ p act tok s2) as [s3 rg] eqn:Eg.
  assert (went [] s2 s3) as W3 by (eapply quiet_run; [|exact Eg]; auto with quiet).
  assert (went [] s s3) as W13 by (by eapply went_quiet).
  destruct rg as [ctx|err]; [|injection Hf as <- _; by left].
  pose proof (approve_and_send_once id pending (AuditPeer (Some (pt_from_id pending)) (Some (pt_seq pending))) p ctx s3) as Ho.
  rewrite Hf in Ho. cbn [fst] in Ho. destruct Ho as [Ho|Ho]; [left; by eapply went_quiet|].
  right. exists pending, act, snapshot, p. rewrite (ap_tx _ _ _ _ _ _ _ Hok) in Ho.
  split; [by eapply went_quiet|]. split.
  - eapply approvable_later; [exact Hok|]. etrans; [apply W3|apply Ho].
  - intros Hv. apply approve_gate_spent in Eg as (v & Hsp & _); [|done]. exists v.
    eapply spent_wider; [exact Hsp|apply W12|apply Ho].
Qed.

(** C11. [approve_pending] asks the wallet for a signature at most once, and
    then only for the transaction set of a row that was queued and undecided,
    whose stored hash is that of the set, queued under the snapshot that is in
    force, for which the wallet's description passes the policy and, where
    required, a guard-signed admission exists; and when the signer verifies
    tokens, only after a token for this very set was verified and its id,
    unused before, consumed. *)
Theorem approve_gated id tok s s' r :
  approve_pending self id tok s = (s', r) ->
  went [] s s' \/
  exists pending act snapshot p, went [ESign (pt_multisig_txset_hex pending)] s s' /\
    approvable id pending act snapshot p s s' /\
    (sa_verifier self <> None -> exists v, spent self SignMultisig tok p v s s').
Proof. apply approve_gated_aux. Qed.
End approval.

(** * Staged answers

    A decision whose answer could not be sent is finished from the staged
    state, under the number and with the content that was staged. *)

Section resend.
Context `{Jwt} `{SignerExt} `{AgentLib} `{AgentEnv}.
Context (self : SignerAgent).

(** Computations without calls to the outside. *)
Definition silent {A} (m : AG A) : Prop := forall s, ag_log (m s).1 = ag_log s.
Lemma silent_run {A} (m : AG A) s s' r : silent m -> m s = (s', r) -> ag_log s' = ag_log s.
Proof. intros Hm Hr. specialize (Hm s). by rewrite Hr in Hm. Qed.
Lemma silent_access {A} (m : Z -> Z -> M sdb string A) : silent (access m).
Proof. intros s. unfold access. by destruct (m _ _ _). Qed.
Lemma silent_audit ev : silent (best_effort_audit ev).
Proof. intros s. destruct (audit_silent ev s) as (s' & -> & Hl). done. Qed.
Lemma silent_bind {A B} (m : AG A) (k : A -> AG B) : silent m -> (forall a, silent (k a)) -> silent (sbind m k).
Proof.
  intros Hm Hk s. specialize (Hm s). unfold sbind. destruct (m s) as [s1 [a|e]]; [|done]. rewrite (Hk a s1). done.
Qed.

(** [env] carries [body] from the signer to [to] under number [n]. *)
Definition carries (env : NxmsEnvelope) (to escrow_id_hex : string) (t : MsgType) (body : EscrowBody) (n : Z) : Prop :=
  exists tick pk sk raw sealed,
    nxms_encrypt tick (sa_local_id self) to (msg_type_key t) raw n pk sk
      (payload_to_vec (out_payload self to escrow_id_hex t body n)) = Ok sealed /\
    env = out_envelope self to escrow_id_hex t n sealed.

(** Up to the configured number of pushes, of one envelope with that content,
    and nothing else. *)
Definition pushes (to escrow_id_hex : string) (t : MsgType) (body : EscrowBody) (n : Z) (s s' : agent) : Prop :=
  ag_log s' = ag_log s \/
  exists env k, carries env to escrow_id_hex t body n /\ 1 <= Z.of_nat k <= Z.max (sa_mailbox_retry_attempts self) 1 /\
    ag_log s' = ag_log s ++ replicate k (EPush env).

Lemma pushes_then to e t body n s s1 s' : pushes to e t body n s s1 -> ag_log s' = ag_log s1 -> pushes to e t body n s s'.
Proof. unfold pushes. by intros Hp ->. Qed.
Lemma pushes_after to e t body n s0 s s' : ag_log s = ag_log s0 -> pushes to e t body n s s' -> pushes to e t body n s0 s'.
Proof. unfold pushes. by intros ->. Qed.

Lemma send_pushes to e t body n s : pushes to e t body n s (send_body_with_seq self to e t body (Some n) s).1.
Proof.
  unfold send_body_with_seq, require, b64_bytes, lift. cbv zeta.
  rewrite sbind_run. unfold slift at 1. destruct (ok_or (sa_peers self !! to) _) as [peer|]; [|by left].
  rewrite sbind_run. unfold slift at 1. destruct (decode_escrow_id_hex hex_text e) as [raw|]; [|by left].
  rewrite sbind_run. unfold sret at 1. cbv iota beta.
  rewrite sbind_run. unfold require, slift at 1. destruct (ok_or (b64_decode (pe_kem_pk_b64 peer)) _) as [pk|]; [|by left].
  rewrite sbind_run. unfold slift at 1. destruct (map_err Anyhow (sa_sig_sk self)) as [sk|]; [|by left].
  rewrite sbind_run. unfold seal at 1. destruct (nxms_encrypt _ _ _ _ _ _ _ _ _) as [sealed|] eqn:Es; [|by left].
  simpl map_err. cbv iota beta. set (env := out_envelope self to e t n sealed).
  right. destruct (with_retry_log (sa_mailbox_retry_attempts self) (EPush env) (fun log => mailbox_push log env) s) as (k & Hk & Hl).
  exists env, k. split; [by eexists _, _, _, _, _|]. split; [done|]. rewrite sbind_run.
  unfold mailbox_push_with_retry. destruct (with_retry _ _ s) as [s1 [u|err]]; [|done]. cbn [fst] in Hl. rewrite <- Hl.
  apply (silent_bind (best_effort_audit _) (fun _ => sret n)); [apply silent_audit|done].
Qed.

Lemma answer_pushes pending t body n s : pushes (pt_from_id pending) (pt_escrow_id_hex pending) t body n s
  (send_answer self pending t body (Some n) s).1.
Proof.
  unfold send_answer. rewrite sbind_run.
  pose proof (send_pushes (pt_from_id pending) (pt_escrow_id_hex pending) t body n s) as Hp.
  by destruct (send_body_with_seq _ _ _ _ _ _ s) as [s1 [u|e]].
Qed.

(** Sending an answer, then writing about it. *)
Lemma answer_then {A} pending t body n (k : unit -> AG A) s :
  (forall u, silent (k u)) ->
  pushes (pt_from_id pending) (pt_escrow_id_hex pending) t body n s (sbind (send_answer self pending t body (Some n)) k s).1.
Proof.
  intros Hk. rewrite sbind_run. pose proof (answer_pushes pending t body n s) as Hp.
  destruct (send_answer self pending t body (Some n) s) as [s1 [u|e]]; [|done].
  eapply pushes_then; [exact Hp|]. apply Hk.
Qed.

Lemma silent_finish id status reason pending k d t :
  silent (sbind (set_status id status reason) (fun _ => decision_audit self pending k d t)).
Proof. apply silent_bind; [apply silent_access|]. intros _. apply silent_audit. Qed.

Lemma find_pending_run id pending s :
  (get_pending_sync id (interfered s)).2 = Ok (Some pending) ->
  find_pending id s = (set_db (interfered s) s, Ok pending).
Proof.
  unfold get_pending_sync, sget. cbn [snd]. intros [= Hf]. unfold find_pending, read, access, get_pending_sync, sget, sbind, require, slift.
  simpl. by rewrite Hf.
Qed.

(** An approval whose answer was staged is finished without token and
    without wallet: the only calls are pushes, at most as many as configured,
    of one envelope that carries the staged signature under the staged number. *)
Theorem approval_resumes id tok s pending raw st n :
  (get_pending_sync id (interfered s)).2 = Ok (Some pending) -> pt_status pending = "approved_sending"%string ->
  pt_decision_reason pending = Some raw -> approved_from_str raw = Ok st -> av_out_seq st = Some n ->
  pushes (pt_from_id pending) (pt_escrow_id_hex pending) TxSignResp
    (approval_body pending (av_signed_tx_data_hex st) (av_tx_hash_list st)) n s (approve_pending self id tok s).1.
Proof.
  intros Hf Hst Hreason Hparse Hn. unfold approve_pending. rewrite sbind_run, (find_pending_run _ _ _ Hf). cbv iota beta.
  rewrite Hst, String.eqb_refl. unfold resend_approved, parse_approved_send_state, lift. rewrite sbind_run, Hreason.
  simpl. rewrite Hparse. simpl. unfold fail_if.
  destruct (is_empty (trim (av_signed_tx_data_hex st))); [by left|]. simpl. rewrite Hn.
  eapply (pushes_after _ _ _ _ _ s (set_db (interfered s) s)); [done|]. apply answer_then. intros u. apply silent_finish.
Qed.

(** A rejection staged with a blank reason, which [reject_pending] takes,
    can be finished by neither call of the operator: every further
    [reject_pending] and [approve_pending] fails, sends nothing and writes
    nothing. *)
Theorem blank_rejection_stuck id reason tok s pending raw st :
  (get_pending_sync id (interfered s)).2 = Ok (Some pending) -> pt_status pending = "rejected_sending"%string ->
  pt_decision_reason pending = Some raw -> rejected_from_str raw = Ok st -> trim (rj_reason st) = ""%string ->
  exists e1 e2, reject_pending self id reason s = (set_db (interfered s) s, Err (Anyhow e1)) /\
    approve_pending self id tok s = (set_db (interfered s) s, Err (Anyhow e2)).
Proof.
  intros Hf Hst Hreason Hparse Hblank. eexists _, _. split.
  - unfold reject_pending. rewrite sbind_run, (find_pending_run _ _ _ Hf). cbv iota beta.
    rewrite Hst, String.eqb_refl. unfold resend_rejected, parse_rejected_send_state, lift. rewrite sbind_run, Hreason.
    simpl. rewrite Hparse. simpl. rewrite Hblank. reflexivity.
  - unfold approve_pending. rewrite sbind_run, (find_pending_run _ _ _ Hf). cbv iota beta. rewrite Hst. reflexivity.
Qed.
End resend.
