(* ===== verification/AgentRuns.v ===== *)
(** * Runs of the signer

    All entry points of the agent in any order: signing, submitting, proposing,
    the operator's decisions and the mailbox loop. *)

From S2P Require Import Prelude RustString Sql Json Wire Admission Snapshot ActionToken TokenVerifier.
From S2P Require Import SignerDb SignerInv SignerProps AgentSupport AgentState OrchBridge AgentFlows.
From S2P Require Import AgentMail AgentPending AgentProps AgentMailProps AgentPendingProps.

Section calls.
Context `{Jwt} `{SignerExt} `{AgentLib} `{AgentEnv}.
Context (self : SignerAgent).

Inductive AgentCall : Type :=
| CallSign (escrow_id_hex : string) (action : EscrowAction) (tx_data_hex : string) (action_token : option Token)
| CallSubmit (escrow_id_hex : string) (action : EscrowAction) (tx_data_hex : string) (action_token : option Token)
| CallPropose (escrow_id_hex : string) (action : EscrowAction) (amount_override_atomic : option Z)
| CallApprove (id : Z) (action_token : option Token)
| CallReject (id : Z) (reason : string)
| CallRunOnce.

(** The state after a call, whatever it returned. *)
Definition run_call (c : AgentCall) (s : agent) : agent :=
  match c with
  | CallSign e a tx tok => (sign_multisig_flow self e a tx tok s).1
  | CallSubmit e a tx tok => (submit_multisig_flow self e a tx tok s).1
  | CallPropose e a amount => (propose_multisig_flow self e a amount s).1
  | CallApprove id tok => (approve_pending self id tok s).1
  | CallReject id reason => (reject_pending self id reason s).1
  | CallRunOnce => (run_once self s).1
  end.
Definition run_calls (cs : list AgentCall) (s : agent) : agent := foldl (fun s c => run_call c s) s cs.

Lemma quiet_propose e act amount : quiet (propose_multisig_flow self e act amount).
Proof.
  unfold propose_multisig_flow, open_wallet, with_prefix, fail. cbv zeta. quieten.
Qed.

Lemma consumed_prefix d d' : reach d d' -> consumed_action_jti d `prefix_of` consumed_action_jti d'.
Proof.
  intros [ops <-]. apply (run_signer_ind (fun d' => consumed_action_jti d `prefix_of` consumed_action_jti d')); [|done].
  intros op d1 Hd1. etrans; [exact Hd1|]. destruct (is_consume op) eqn:Ei; [|by rewrite frame_jti].
  destruct op as [| | | | | | | | | | | |now j e o sr q x| |]; try done. simpl. rewrite sbind_run, jti_run.
  destruct (find_jti j d1); simpl; [done|]. by eexists.
Qed.

(** A token spent makes the table of consumed ids longer. *)
Lemma spent_longer op tok p v s s' :
  spent self op tok p v s s' -> reach (ag_db s) (ag_db s') ->
  (S (length (consumed_action_jti (ag_db s))) <= length (consumed_action_jti (ag_db s')))%nat.
Proof.
  intros [_ Hf (r & Hu & _)] Hr. destruct (consumed_prefix _ _ Hr) as [k Hk].
  rewrite Hk, length_app. destruct k as [|x k]; simpl; [|lia]. exfalso.
  rewrite app_nil_r in Hk. unfold find_jti in *. rewrite Hk in Hu. congruence.
Qed.

Lemma call_reach c s : reach (ag_db s) (ag_db (run_call c s)).
Proof.
  destruct c as [e a tx tok|e a tx tok|e a amount|id tok|id reason|]; simpl.
  - destruct (sign_multisig_flow self e a tx tok s) as [s' r] eqn:Ef. apply sign_gated_aux in Ef.
    by destruct Ef as [[Hr _]|(p & sn & [Hr _] & _)].
  - destruct (submit_multisig_flow self e a tx tok s) as [s' r] eqn:Ef. apply submit_gated_aux in Ef.
    by destruct Ef as [[Hr _]|(p & sn & [Hr _] & _)].
  - apply quiet_propose.
  - destruct (approve_pending self id tok s) as [s' r] eqn:Ef. apply approve_gated_aux in Ef.
    by destruct Ef as [[Hr _]|(pending & act & sn & p & [Hr _] & _)].
  - apply quiet_reject_pending.
  - apply quiet_run_once.
Qed.

Lemma call_spends c s :
  sa_verifier self <> None ->
  (length (committed (ag_log (run_call c s))) + length (consumed_action_jti (ag_db s))
   <= length (committed (ag_log s)) + length (consumed_action_jti (ag_db (run_call c s))))%nat.
Proof.
  intros Hv.
  assert (forall s', went [] s s' -> (length (committed (ag_log s')) + length (consumed_action_jti (ag_db s))
    <= length (committed (ag_log s)) + length (consumed_action_jti (ag_db s')))%nat) as Hquiet.
  { intros s' [Hr Hl]. rewrite Hl, app_nil_r. pose proof (prefix_length _ _ (consumed_prefix _ _ Hr)). lia. }
  assert (forall e s' op tok p v, went [e] s s' -> spent self op tok p v s s' ->
    (length (committed (ag_log s')) + length (consumed_action_jti (ag_db s))
     <= length (committed (ag_log s)) + length (consumed_action_jti (ag_db s')))%nat) as Hone.
  { intros e s' op tok p v [Hr Hl] Hsp. pose proof (spent_longer _ _ _ _ _ _ Hsp Hr).
    rewrite Hl, length_app. simpl. lia. }
  destruct c as [e a tx tok|e a tx tok|e a amount|id tok|id reason|]; simpl.
  - destruct (sign_multisig_flow self e a tx tok s) as [s' r] eqn:Ef. apply sign_gated_aux in Ef.
    destruct Ef as [Hw|(p & sn & Hw & _ & Hs)]; [by apply Hquiet|]. destruct (Hs Hv) as [v Hsp]. by eapply Hone.
  - destruct (submit_multisig_flow self e a tx tok s) as [s' r] eqn:Ef. apply submit_gated_aux in Ef.
    destruct Ef as [Hw|(p & sn & Hw & _ & Hs)]; [by apply Hquiet|]. destruct (Hs Hv) as (v & Hsp & _). by eapply Hone.
  - apply Hquiet, quiet_propose.
  - destruct (approve_pending self id tok s) as [s' r] eqn:Ef. apply approve_gated_aux in Ef.
    destruct Ef as [Hw|(pending & act & sn & p & Hw & _ & Hs)]; [by apply Hquiet|]. destruct (Hs Hv) as [v Hsp]. by eapply Hone.
  - apply Hquiet, quiet_reject_pending.
  - apply Hquiet, quiet_run_once.
Qed.

Lemma calls_spend cs s0 :
  sa_verifier self <> None -> signer_ok (ag_db s0) ->
  (length (committed (ag_log (run_calls cs s0))) + length (consumed_action_jti (ag_db s0))
   <= length (committed (ag_log s0)) + length (consumed_action_jti (ag_db (run_calls cs s0))))%nat /\
  signer_ok (ag_db (run_calls cs s0)).
Proof.
  intros Hv. revert s0. induction cs as [|c cs IH]; intros s0 Hok; [simpl; split; [lia|done]|].
  pose proof (call_spends c s0 Hv) as Hc. destruct (IH (run_call c s0)) as [Hcs Hok']; [by eapply reach_ok; [apply call_reach|]|].
  change (run_calls (c :: cs) s0) with (run_calls cs (run_call c s0)). split; [lia|done].
Qed.

(** C12. From any state of the database the signer can be in, over any sequence
    of calls to the signer's entry points and turns of its mailbox loop, with any
    other writes to the database in between, the wallet is asked to sign or submit
    at most as often as token ids are consumed, and no id is consumed twice: no
    token buys a second signature or submission, no call gets one without a token.
    Opening the wallet file, describing a set and building an unrelayed proposal
    are not counted: they need no action token. *)
Theorem wallet_commits_per_token cs s0 :
  sa_verifier self <> None -> signer_ok (ag_db s0) ->
  let s := run_calls cs s0 in
  (length (committed (ag_log s)) + length (consumed_action_jti (ag_db s0))
   <= length (committed (ag_log s0)) + length (consumed_action_jti (ag_db s)))%nat /\
  NoDup (map cj_jti (consumed_action_jti (ag_db s))).
Proof. intros Hv Hok s. destruct (calls_spend cs s0 Hv Hok) as [Hl Hok']. split; [exact Hl|]. by apply so_jti. Qed.
End calls.
