(* ===== verification/AgentAuth.v ===== *)
(** * Auth events

    [append_auth_event] of [crates/nxms-signer/src/agent.rs]: what the operator's
    tools write to the audit log when a challenge or a token is issued. *)

From S2P Require Import Prelude RustString Sql Json Wire Admission Snapshot ActionToken TokenVerifier.
From S2P Require Import SignerDb SignerInv SignerProps AgentSupport AgentState OrchBridge AgentFlows.
From S2P Require Import AgentProps.

Record AuthEventContext : Type := MkAuthContext {
  cx_op : option string;
  cx_txset_hash_hex : option string;
  cx_proof_arbiter_jti : option string;
  cx_proof_arbiter_req_id : option string;
  cx_proof_seller_jti : option string;
  cx_proof_seller_req_id : option string;
}.

(** [.map(f).transpose()?] *)
Definition transpose {A} (f : A -> result AgentError A) (o : option A) : result AgentError (option A) :=
  match o with Some a => let? b := f a in Ok (Some b) | None => Ok None end.
Definition context_hex (label : string) (o : option string) : result AgentError (option string) :=
  transpose (fun v => normalize_hex_exact v 64 label) (opt_non_blank o).
Definition normalize_context_jti (value : option string) (label : string) : result AgentError (option string) :=
  match opt_non_blank value with
  | None => Ok None
  | Some v => let? _ := fail_if (256 <? len v) (Anyhow (label +:+ " too long (max 256 chars)")) in Ok (Some v)
  end.

Definition normalize_auth_event_context (context : option AuthEventContext)
    : result AgentError (option AuthEventContext) :=
  match context with
  | None => Ok None
  | Some c =>
      let op := to_ascii_lowercase <$> opt_non_blank (cx_op c) in
      let? _ := match op with
        | Some op => fail_if (negb (op =? "sign_multisig")%string && negb (op =? "submit_multisig")%string)
                       (Anyhow "auth event context op must be one of: sign_multisig|submit_multisig")
        | None => Ok tt
        end in
      let? txset := context_hex "context.txset_hash_hex" (cx_txset_hash_hex c) in
      let? arbiter_jti := normalize_context_jti (cx_proof_arbiter_jti c) "context.proof_arbiter_jti" in
      let? seller_jti := normalize_context_jti (cx_proof_seller_jti c) "context.proof_seller_jti" in
      let? arbiter_req := context_hex "context.proof_arbiter_req_id" (cx_proof_arbiter_req_id c) in
      let? seller_req := context_hex "context.proof_seller_req_id" (cx_proof_seller_req_id c) in
      Ok (Some (MkAuthContext op txset arbiter_jti arbiter_req seller_jti seller_req))
  end.

Definition is_op (name : string) (op : option string) : bool :=
  match op with Some op => (op =? name)%string | None => false end.

Section auth.
Context `{Jwt} `{SignerExt} `{AgentLib} `{AgentEnv}.
Context (self : SignerAgent).

Definition enforce_token_issued_context_requirements (escrow_id_hex : string) (context : option AuthEventContext)
    (production_hardening : bool) : result AgentError unit :=
  if negb production_hardening then Ok tt else
  let? context := ok_or context (Anyhow "production_hardening requires token_issued auth event context") in
  let? op := ok_or (cx_op context) (Anyhow "production_hardening requires token_issued context op") in
  if (op =? "submit_multisig")%string then
    match cx_txset_hash_hex context, cx_proof_arbiter_jti context, cx_proof_arbiter_req_id context,
          cx_proof_seller_jti context, cx_proof_seller_req_id context with
    | Some txset, Some _, Some arbiter_req, Some _, Some seller_req =>
        let expected round := sign_req_id sha256 escrow_id_hex "sign_multisig" round txset in
        fail_if (negb (arbiter_req =? expected "arbiter_first"%string)%string
                 || negb (seller_req =? expected "seller_second"%string)%string)
          (Anyhow "token_issued submit_multisig proof req_id mismatch expected sign req_id contract")
    | _, _, _, _, _ => Err (Anyhow "token_issued submit_multisig requires txset_hash_hex and all proof_* fields")
    end
  else Ok tt.

Definition part (name : string) (o : option string) : list string :=
  match o with Some v => [name +:+ "=" +:+ v] | None => [] end.
Definition context_parts (c : AuthEventContext) : list string :=
  part "op" (cx_op c) ++ part "txset_hash_hex" (cx_txset_hash_hex c)
  ++ part "proof_arbiter_jti" (cx_proof_arbiter_jti c) ++ part "proof_arbiter_req_id" (cx_proof_arbiter_req_id c)
  ++ part "proof_seller_jti" (cx_proof_seller_jti c) ++ part "proof_seller_req_id" (cx_proof_seller_req_id c).
Definition merged_auth_event_detail (detail : option string) (context : option AuthEventContext)
    : result AgentError (option string) :=
  let parts := match opt_non_blank detail with Some d => [d] | None => [] end
               ++ match context with Some c => context_parts c | None => [] end in
  match parts with
  | [] => Ok None
  | _ =>
      let merged := String.concat " " parts in
      let? _ := fail_if (1024 <? len merged) (Anyhow "auth event detail too long after context merge") in
      Ok (Some merged)
  end.

Definition check_detail (detail : option string) : result AgentError (option string) :=
  let? detail := match opt_non_blank detail with
    | Some d => let? v := ok_or (sanitize_runtime_detail d) Panic in Ok (Some v)
    | None => Ok None
    end in
  match detail with
  | None => Ok None
  | Some v =>
      let? _ := fail_if (1024 <? len v) (Anyhow "detail too long (max 1024 chars)") in
      let? _ := fail_if (contains_probable_jwt v) (Anyhow "detail must not include raw JWT material") in
      let? _ := fail_if (v =? "redacted_sensitive_detail")%string
                  (Anyhow "detail must not include secrets/token/password markers") in
      Ok (Some v)
  end.

(** A token for submitting is recorded as issued only with its proofs. *)
Definition check_token_issued (escrow_id_hex : string) (context : option AuthEventContext) : AG unit :=
  let* _ := slift (enforce_token_issued_context_requirements escrow_id_hex context (sa_production_hardening self)) in
  match context with
  | Some ctx =>
      if is_op "submit_multisig" (cx_op ctx) then
        let* txset := require (cx_txset_hash_hex ctx) "token_issued missing txset_hash_hex" in
        let* arbiter_jti := require (cx_proof_arbiter_jti ctx) "token_issued missing proof_arbiter_jti" in
        let* arbiter_req := require (cx_proof_arbiter_req_id ctx) "token_issued missing proof_arbiter_req_id" in
        let* seller_jti := require (cx_proof_seller_jti ctx) "token_issued missing proof_seller_jti" in
        let* seller_req := require (cx_proof_seller_req_id ctx) "token_issued missing proof_seller_req_id" in
        verify_submit_quorum_proof_bundle escrow_id_hex txset arbiter_jti arbiter_req seller_jti seller_req
          (sa_production_hardening self)
      else sret tt
  | None => sret tt
  end.

Definition auth_decision (event_kind : string) : string :=
  if (event_kind =? CHALLENGE_ISSUED)%string then "issued"
  else if (event_kind =? CHALLENGE_VERIFIED)%string then "verified"
  else if (event_kind =? TOKEN_ISSUED)%string then "issued" else "recorded".

Definition append_auth_event (escrow_id_hex event_kind : string) (actor_id detail : option string)
    (context : option AuthEventContext) : AG unit :=
  let* escrow_id_hex := slift (normalize_hex_exact escrow_id_hex 32 "escrow_id_hex") in
  let* event_kind := lift (normalize_auth_event_kind event_kind) in
  let* context := slift (normalize_auth_event_context context) in
  let actor_id := opt_non_blank actor_id in
  let* _ := fail_when (128 <? default 0 (len <$> actor_id)) "actor_id too long (max 128 chars)" in
  let* detail := slift (check_detail detail) in
  let* _ := if (event_kind =? TOKEN_ISSUED)%string then check_token_issued escrow_id_hex context else sret tt in
  let* detail := slift (merged_auth_event_detail detail context) in
  access (fun now _ => append_audit_log_sync now (MkAuditInsert event_kind escrow_id_hex actor_id (Some (sa_local_id self))
    None None None (Some (auth_decision event_kind)) detail)).

Lemma bundle_proof_ok e t aj ar sj sr s s' u :
  verify_submit_quorum_proof_bundle e t aj ar sj sr true s = (s', Ok u) -> exists log args stdout bd,
    orchestrator_process log args = Ok stdout /\ bundle_from_str stdout = Ok bd /\
    bridge_hex_exact e 32 "escrow_id_hex" = Ok (pb_escrow_id_hex bd) /\
    bridge_hex_exact t 64 "txset_hash_hex" = Ok (pb_txset_hash_hex bd) /\
    pb_proof_arbiter_jti bd = aj /\ pb_proof_arbiter_req_id bd = ar /\
    pb_proof_seller_jti bd = sj /\ pb_proof_seller_req_id bd = sr.
Proof.
  unfold verify_submit_quorum_proof_bundle. intros Hv.
  apply sbind_ok in Hv as (? & on & [-> Hmode]%lift_inv & Hv).
  rewrite (verify_mode_on _ _ Hmode (or_introl eq_refl)) in Hv.
  simpl in Hv. apply sbind_ok in Hv as (s1 & bd & Hf & Hv). apply fail_when_inv in Hv as [-> Heq].
  rewrite !orb_false_iff, !negb_false_iff, !String.eqb_eq in Heq.
  apply fetch_bundle_ok in Hf as (log & args & out & Hf). exists log, args, out, bd. naive_solver.
Qed.

Lemma requirements_ok e c :
  enforce_token_issued_context_requirements e (Some c) true = Ok tt -> cx_op c = Some "submit_multisig"%string ->
  exists txset aj sj, c = MkAuthContext (Some "submit_multisig"%string) (Some txset) (Some aj)
    (Some (sign_req_id sha256 e "sign_multisig" "arbiter_first" txset)) (Some sj)
    (Some (sign_req_id sha256 e "sign_multisig" "seller_second" txset)).
Proof.
  destruct c as [op [txset|] [aj|] [ar|] [sj|] [sr|]]; unfold enforce_token_issued_context_requirements;
    simpl; intros Hr ->; simpl in Hr; try done.
  destruct (negb (ar =? _)%string || _) eqn:Eb; [done|].
  rewrite orb_false_iff, !negb_false_iff, !String.eqb_eq in Eb. destruct Eb as [-> ->].
  by exists txset, aj, sj.
Qed.

(** In production a token is recorded as issued only together with the
    operation it is for; and for a submission only with the token and request
    ids of both signatures, the request ids being those of this escrow and
    transaction set, after the orchestrator's bundle confirmed all four of them. *)
Theorem token_issued_backed e kind actor detail ctx s s' :
  sa_production_hardening self = true -> to_ascii_lowercase (trim kind) = TOKEN_ISSUED ->
  append_auth_event e kind actor detail ctx s = (s', Ok tt) ->
  exists c e', normalize_hex_exact e 32 "escrow_id_hex" = Ok e' /\ normalize_auth_event_context ctx = Ok (Some c) /\
    (cx_op c = Some "sign_multisig"%string \/
     exists txset aj sj, let req round := sign_req_id sha256 e' "sign_multisig" round txset in
       c = MkAuthContext (Some "submit_multisig"%string) (Some txset) (Some aj) (Some (req "arbiter_first"%string))
             (Some sj) (Some (req "seller_second"%string)) /\
       exists log args stdout bd, orchestrator_process log args = Ok stdout /\ bundle_from_str stdout = Ok bd /\
         bridge_hex_exact e' 32 "escrow_id_hex" = Ok (pb_escrow_id_hex bd) /\
         bridge_hex_exact txset 64 "txset_hash_hex" = Ok (pb_txset_hash_hex bd) /\
         pb_proof_arbiter_jti bd = aj /\ pb_proof_arbiter_req_id bd = req "arbiter_first"%string /\
         pb_proof_seller_jti bd = sj /\ pb_proof_seller_req_id bd = req "seller_second"%string).
Proof.
  intros Hprod Hkind. unfold append_auth_event. cbv zeta. intros Ha.
  apply sbind_ok in Ha as (? & e' & [-> He]%slift_inv & Ha).
  apply sbind_ok in Ha as (? & k & [-> Hk]%lift_inv & Ha).
  assert (k = TOKEN_ISSUED) as -> by (unfold normalize_auth_event_kind in Hk; rewrite Hkind in Hk; by injection Hk as <-).
  apply sbind_ok in Ha as (? & nc & [-> Hc]%slift_inv & Ha). apply sbind_ok in Ha as (? & u1 & [-> _]%fail_when_inv & Ha).
  apply sbind_ok in Ha as (? & dt & [-> _]%slift_inv & Ha). apply sbind_ok in Ha as (s1 & u2 & Hi & _).
  rewrite String.eqb_refl in Hi. unfold check_token_issued in Hi. rewrite Hprod in Hi.
  apply sbind_ok in Hi as (? & [] & [-> Hreq]%slift_inv & Hi). destruct nc as [c|]; [|done].
  exists c, e'. split; [done|]. split; [done|].
  assert (cx_op c = Some "sign_multisig"%string \/ cx_op c = Some "submit_multisig"%string) as [Hop|Hop]; [|by left|right].
  { destruct (cx_op c) as [op|] eqn:Eop; [|unfold enforce_token_issued_context_requirements in Hreq; simpl in Hreq; by rewrite Eop in Hreq].
    revert Hc. destruct ctx as [ctx|]; [|done]. unfold normalize_auth_event_context. cbv zeta.
    destruct (to_ascii_lowercase <$> opt_non_blank (cx_op ctx)) as [op'|] eqn:Eo; intros Hc.
    - apply rbind_ok in Hc as (u & Hu & Hc). rewrite fail_if_ok, andb_false_iff, !negb_false_iff, !String.eqb_eq in Hu.
      rok. simpl in Eop. injection Eop as <-. destruct Hu as [->| ->]; auto.
    - rok. done. }
  apply requirements_ok in Hreq as (txset & aj & sj & ->); [|done]. exists txset, aj, sj. split; [done|].
  simpl in Hi. repeat (apply sbind_ok in Hi as (? & ? & [-> [= <-]]%require_inv & Hi)).
  by eapply bundle_proof_ok.
Qed.
End auth.
