(* ===== verification/AgentCache.v ===== *)
(** * Completed requests are answered from the cache

    The request id of a signature is determined by escrow, role and
    transaction set, so a repeated request meets the row of the first one. *)

From S2P Require Import Prelude RustString Sql Json Wire Admission Snapshot ActionToken TokenVerifier.
From S2P Require Import SignerDb SignerInv SignerProps AgentSupport AgentState OrchBridge AgentFlows.
From S2P Require Import AgentMail AgentPending AgentProps AgentMailProps AgentPendingProps.

Section cache.
Context `{Jwt} `{SignerExt} `{AgentLib} `{AgentEnv}.
Context (self : SignerAgent).

Lemma reach_done d d' q i a :
  reach d d' -> signer_ok d -> req_view q d = ReqDone i a -> req_view q d' = ReqDone i a.
Proof.
  intros [ops <-] Hd Hv. pose proof (request_run_refines q ops d Hd) as Hr. rewrite Hv in Hr.
  pose proof (done_run q ops i a) as Hdone. by rewrite <- Hr in Hdone.
Qed.

(** The request id the verifier derives. *)
Lemma common_req_id verifier now1 now2 now3 token op round e t h lim v :
  (verify_common sha256 limiter_iter verifier now1 now2 now3 token op round e t h lim).2 = Ok v ->
  exists t', hex_exact 64 t = Some t' /\ vt_req_id v = sign_req_id sha256 e op round t'.
Proof.
  unfold verify_common. rewrite sbind_run. destruct (limiter_check _ _ _ _ lim) as [l [u|err]]; [|done].
  rewrite sbind_run. unfold slift. destruct (jwt_decode _ _ _ _ _) as [claims|]; simpl; [|done].
  intros Hc. unfold check_claims in Hc. cbv zeta in Hc. rok.
  match goal with H : negb (c_sign_round claims =? round)%string = false |- _ =>
    apply negb_false_iff, String.eqb_eq in H as -> end.
  unfold normalize_hex_64 in *. rok. eauto.
Qed.

Lemma hex_exact_encode n digest t : hex_exact n (hex_encode digest) = Some t -> t = hex_encode digest.
Proof.
  unfold hex_exact. rewrite (hex_norm_trim _ _ (hex_encode_norm digest)). case_match; [done|].
  intros [= <-]. apply lower_hex_id, hex_encode_lower.
Qed.

Lemma txset_hash_encoded tx h : txset_sha256_hex sha256 tx = Ok h -> exists digest, h = hex_encode digest.
Proof. unfold txset_sha256_hex. intros Ht. rok. eauto. Qed.

(** The id of a signature request, which no token can choose. *)
Definition sign_request_id (verifier : ActionTokenVerifier) (e h : string) : string :=
  sign_req_id sha256 e "sign_multisig" (expected_sign_round (av_signer_role verifier)) h.

Lemma sign_req_id_of verifier now1 now2 now3 token p lim v tx :
  txset_sha256_hex sha256 tx = Ok (pr_txset_hash_hex p) ->
  (verify_op SignMultisig verifier now1 now2 now3 token p lim).2 = Ok v ->
  vt_req_id v = sign_request_id verifier (pr_escrow_id_hex p) (pr_txset_hash_hex p).
Proof.
  intros [digest Hd]%txset_hash_encoded Hv. simpl in Hv. unfold verify_sign_multisig in Hv.
  apply common_req_id in Hv as (t' & Ht & ->). rewrite Hd in Ht |- *. by apply hex_exact_encode in Ht as ->.
Qed.

(** Starting a request that is done is reported as a duplicate. *)
Lemma start_done op v p s i a :
  signer_ok (ag_db s) -> req_view (vt_req_id v) (ag_db s) = ReqDone i a ->
  exists s1, attempt (start_request op v p) s = (s1, Ok (Err ("duplicate req_id: " +:+ vt_req_id v))).
Proof.
  intros Hok Hv. assert (req_view (vt_req_id v) (interfered s) = ReqDone i a) as Hi
    by (eapply reach_done; [apply interfered_reach|done|done]).
  unfold attempt, start_request, access. rewrite start_run.
  destruct (find_request (vt_req_id v) (interfered s)) eqn:Ef; [by eexists|].
  apply fresh_view in Ef. congruence.
Qed.

(** The gate hands out the answer on record. *)
Lemma duplicate_answer op v p s s' ctx json i a :
  signer_ok (ag_db s) -> req_view (vt_req_id v) (ag_db s) = ReqDone i a ->
  duplicate_request self op v p s = (s', Ok (GateCached ctx json)) -> a = Some json.
Proof.
  intros Hok Hv. unfold duplicate_request. cbv zeta. intros Hd.
  apply sbind_ok in Hd as (s1 & found & Hr1 & Hd). apply sbind_ok in Hd as (s2 & ex & [-> _]%require_inv & Hd).
  destruct (negb _); [by apply reject_not_ok in Hd|].
  destruct (_ =? "completed")%string; [|by apply reject_not_ok in Hd].
  apply sbind_ok in Hd as (s3 & r & Hr3 & Hd). destruct r as [u|err]; [|by apply reject_not_ok in Hd].
  apply sbind_ok in Hd as (s4 & c & [-> ->]%read_inv & Hd).
  apply sbind_ok in Hd as (s5 & j & [-> Hj]%require_inv & Hd). injection Hd as _ _ <-.
  assert (went [] s s1) as W1 by (eapply quiet_run; [|exact Hr1]; apply quiet_get).
  assert (went [] s1 s3) as W3 by (eapply quiet_run; [|exact Hr3]; auto with quiet).
  assert (reach (ag_db s) (interfered s3)) as Hr
    by (etrans; [apply W1|]; etrans; [apply W3|apply interfered_reach]).
  pose proof (reach_done _ _ _ _ _ Hr Hok Hv) as Hdone.
  destruct (done_row _ _ _ _ (reach_ok _ _ Hr Hok) Hdone) as (row & _ & _ & _ & Ha).
  unfold answer_of in Ha. unfold find_result, is_result in Ha. by rewrite Ha in Hj.
Qed.

Lemma gate_done verifier p act tok s s' r i a tx :
  sa_verifier self = Some verifier -> signer_ok (ag_db s) ->
  txset_sha256_hex sha256 tx = Ok (pr_txset_hash_hex p) ->
  req_view (sign_request_id verifier (pr_escrow_id_hex p) (pr_txset_hash_hex p)) (ag_db s) = ReqDone i a ->
  token_gate self SignMultisig p act tok s = (s', Ok r) ->
  exists ctx json, r = GateCached ctx json /\ a = Some json.
Proof.
  intros Ev Hok Htx Hdone. unfold token_gate. rewrite Ev.
  destruct tok as [token|]; [|intros Hr; by apply reject_not_ok in Hr]. intros Hg.
  apply sbind_ok in Hg as (s1 & rv & Hver & Hg).
  assert (went [] s s1) as W1 by (eapply quiet_run; [|exact Hver]; auto with quiet).
  destruct rv as [v|err]; [|by apply reject_not_ok in Hg]. cbv zeta in Hg.
  apply verify_token_ok in Hver as (n1 & n2 & n3 & lim & Hver).
  rewrite <- (sign_req_id_of _ _ _ _ _ _ _ _ _ Htx Hver) in Hdone.
  apply sbind_ok in Hg as (s2 & u2 & Hadm & Hg).
  assert (went [] s1 s2) as W2.
  { eapply quiet_run; [|exact Hadm]. destruct (requires_escrow_admission self); auto with quiet. }
  assert (reach (ag_db s) (ag_db s2)) as Hr2 by (etrans; [apply W1|apply W2]).
  pose proof (reach_ok _ _ Hr2 Hok) as Hok2. pose proof (reach_done _ _ _ _ _ Hr2 Hok Hdone) as Hdone2.
  apply sbind_ok in Hg as (s3 & r3 & Hst & Hg).
  assert (went [] s2 s3) as W3 by (eapply quiet_run; [|exact Hst]; auto with quiet).
  destruct (start_done SignMultisig v p s2 i a Hok2 Hdone2) as [s3' Hst']. rewrite Hst' in Hst. injection Hst as <- <-.
  change ("duplicate req_id: " +:+ vt_req_id v) with ("duplicate req_id" +:+ (": " +:+ vt_req_id v)) in Hg.
  rewrite contains_prefix in Hg.
  destruct r as [ctx o|ctx json]; [by apply duplicate_not_open in Hg|].
  exists ctx, json. split; [done|]. eapply duplicate_answer; [| |exact Hg].
  - by eapply reach_ok; [apply W3|].
  - by eapply reach_done; [apply W3| |].
Qed.

(** Once the signature request of a transaction set is completed, the
    wallet is never asked to sign it again, whatever tokens are presented and
    whatever else happens; and whoever gets an answer gets the one on record. *)
Theorem completed_never_resigned verifier e act tx tok s s' r e' tx' h i a :
  sa_verifier self = Some verifier -> signer_ok (ag_db s) ->
  normalize_hex_exact e 32 "escrow_id_hex" = Ok e' ->
  validate_tx_data_hex tx (sa_max_txset_hex_len self) = Ok tx' -> txset_sha256_hex sha256 tx' = Ok h ->
  req_view (sign_request_id verifier e' h) (ag_db s) = ReqDone i a ->
  sign_multisig_flow self e act tx tok s = (s', r) ->
  went [] s s' /\ forall signed, r = Ok signed ->
    exists json, a = Some json /\ parse_cached_sign_result json = Ok signed.
Proof.
  intros Ev Hok He Ht Hh Hdone. unfold sign_multisig_flow. rewrite sbind_run. intros Hf.
  destruct (prepare self SignMultisig e act tx s) as [s1 rp] eqn:Ep.
  assert (went [] s s1) as W1 by (eapply quiet_run; [|exact Ep]; auto with quiet).
  destruct rp as [p|err]; [|injection Hf as <- <-; done].
  apply prepare_cleared in Ep as [snapshot []].
  assert (pr_escrow_id_hex p = e') as <- by congruence. assert (pr_tx_data_hex p = tx') as <- by congruence.
  assert (pr_txset_hash_hex p = h) as <- by congruence. rewrite sbind_run in Hf.
  destruct (token_gate self SignMultisig p act tok s1) as [s2 rg] eqn:Eg.
  assert (went [] s1 s2) as W2 by (eapply quiet_run; [|exact Eg]; auto with quiet).
  assert (went [] s s2) as W12 by (by eapply went_quiet).
  destruct rg as [g|err]; [|injection Hf as <- <-; done].
  eapply gate_done in Eg as (ctx & json & -> & ->);
    [|done|by eapply reach_ok; [apply W1|]|exact Hh|by eapply reach_done; [apply W1| |]].
  split.
  - eapply went_quiet; [exact W12|]. eapply quiet_run; [|exact Hf]. unfold lift. quieten.
  - intros signed ->. exists json. split; [done|].
    apply sbind_ok in Hf as (s3 & cached & [-> Hc]%lift_inv & Hf). apply sbind_ok in Hf as (s4 & u & _ & Hf).
    injection Hf as _ <-. done.
Qed.

(** The gate of an approval refuses what is done. *)
Lemma approve_gate_done verifier peer p act tok s s' ctx i a tx :
  sa_verifier self = Some verifier -> signer_ok (ag_db s) ->
  txset_sha256_hex sha256 tx = Ok (pr_txset_hash_hex p) ->
  req_view (sign_request_id verifier (pr_escrow_id_hex p) (pr_txset_hash_hex p)) (ag_db s) = ReqDone i a ->
  approve_gate self peer p act tok s <> (s', Ok ctx).
Proof.
  intros Ev Hok Htx Hdone. unfold approve_gate. rewrite Ev. cbv zeta.
  destruct tok as [token|]; [|destruct (av_required verifier); intros Hr; by apply reject_not_ok in Hr]. intros Hg.
  apply sbind_ok in Hg as (s1 & rv & Hver & Hg).
  assert (went [] s s1) as W1 by (eapply quiet_run; [|exact Hver]; auto with quiet).
  destruct rv as [v|err]; [|by apply reject_not_ok in Hg].
  apply verify_token_ok in Hver as (n1 & n2 & n3 & lim & Hver).
  rewrite <- (sign_req_id_of _ _ _ _ _ _ _ _ _ Htx Hver) in Hdone.
  apply sbind_ok in Hg as (s2 & u2 & Hadm & Hg).
  assert (went [] s1 s2) as W2.
  { eapply quiet_run; [|exact Hadm]. destruct (requires_escrow_admission self); auto with quiet. }
  assert (reach (ag_db s) (ag_db s2)) as Hr2 by (etrans; [apply W1|apply W2]).
  pose proof (reach_ok _ _ Hr2 Hok) as Hok2. pose proof (reach_done _ _ _ _ _ Hr2 Hok Hdone) as Hdone2.
  apply sbind_ok in Hg as (s3 & r3 & Hst & Hg).
  destruct (start_done SignMultisig v p s2 i a Hok2 Hdone2) as [s3' Hst']. rewrite Hst' in Hst. injection Hst as <- <-.
  by apply reject_not_ok in Hg.
Qed.

(** Once the signature request of a transaction set is completed, a row
    of the queue for that set cannot be approved: every call fails, whatever
    token it brings, and the wallet is not asked.  So a request that is sent
    again after its approval was signed, or whose approval was interrupted
    before the answer was staged, is never answered. *)
Theorem approve_completed_fails verifier id tok s s' r pending h i a :
  sa_verifier self = Some verifier -> signer_ok (ag_db s) ->
  (get_pending_sync id (interfered s)).2 = Ok (Some pending) -> pt_status pending = "pending"%string ->
  txset_sha256_hex sha256 (pt_multisig_txset_hex pending) = Ok h ->
  req_view (sign_request_id verifier (pt_escrow_id_hex pending) h) (ag_db s) = ReqDone i a ->
  approve_pending self id tok s = (s', r) ->
  went [] s s' /\ r <> Ok tt.
Proof.
  intros Ev Hok Hfound Hst Hh Hdone. unfold approve_pending. rewrite sbind_run.
  rewrite (find_pending_run _ _ _ Hfound).
  rewrite Hst. cbn. intros Hf. rewrite sbind_run in Hf. change (fail_when false _ ?x) with (x, Ok tt) in Hf.
  set (s1 := set_db (interfered s) s) in *.
  assert (went [] s s1) as W1 by (constructor; [apply interfered_reach|by rewrite app_nil_r]).
  destruct (approve_prepare self pending s1) as [s2 rp] eqn:Ep.
  assert (went [] s1 s2) as W2 by (eapply quiet_run; [|exact Ep]; auto with quiet).
  assert (went [] s s2) as W12 by (by eapply went_quiet).
  destruct rp as [[p act]|err]; [|injection Hf as <- <-; by split].
  apply (approve_prepare_ok self id _ s) in Ep as [snapshot Hap]; [|apply W1|done|done].
  rewrite sbind_run in Hf. destruct (approve_gate self _ p act tok s2) as [s3 rg] eqn:Eg.
  assert (went [] s2 s3) as W3 by (eapply quiet_run; [|exact Eg]; auto with quiet).
  destruct rg as [ctx|err]; [|injection Hf as <- <-; split; [by eapply went_quiet|done]]. exfalso.
  rewrite (ap_hash _ _ _ _ _ _ _ _ Hap) in Hh. injection Hh as <-.
  eapply approve_gate_done; [exact Ev| | | |exact Eg].
  - eapply reach_ok; [apply W12|done].
  - exact (ap_hash _ _ _ _ _ _ _ _ Hap).
  - rewrite (ap_escrow _ _ _ _ _ _ _ _ Hap). eapply reach_done; [apply W12|done|exact Hdone].
Qed.
End cache.
