(* ===== verification/AgentDemo.v ===== *)
(** * The flows on a concrete signer

    An arbiter with an active snapshot, a wallet that answers and an
    orchestrator process that fails on its first call: the witnesses of the
    theorems on the flows, and what becomes of a proof that could not be stored. *)

From S2P Require Import Prelude RustString Sql Json Wire Admission Snapshot ActionToken TokenVerifier.
From S2P Require Import SignerDb SignerInv SignerProps AgentSupport AgentState OrchBridge AgentFlows.
From S2P Require Import AgentMail AgentPending AgentProps AgentMailProps AgentPendingProps.
From S2P Require Import AgentRuns AgentAuth AgentCache.

(** A token is its claims. *)
#[local] Instance plain_jwt : Jwt := {|
  EncodingKey := string; DecodingKey := string; Token := ActionClaims; token_text := c_jti;
  encoding_key_from_pem := fun _ _ => None; jwt_encode := fun _ _ _ => None;
  jwt_decode := fun _ _ _ _ c => Some c; key_pair := eq |}.
#[local] Instance plain_sql : SignerExt := {| sql_text := fun _ => "sql"%string |}.

Fixpoint sum_bytes (s : string) : Z :=
  match s with EmptyString => 0 | String c s' => byte_of c + sum_bytes s' end.
Definition toy_sha (s : string) : string := repeat_byte (Ascii.ascii_of_N (Z.to_N (sum_bytes s mod 256))) 32.
Definition plain_escrow : string := "00112233445566778899aabbccddeeff".
Definition requested_tx : string := "00aa".
Definition hash_of (tx : string) : string :=
  match txset_sha256_hex toy_sha tx with Ok h => h | Err _ => ""%string end.

(** A buyer's request for a signature, and the bundle of both signatures. *)
Definition snapshot_hash : string := repeat_byte "a" 64.
Definition request_body : TxSignReqBody := MkTxSignReq plain_escrow Release requested_tx snapshot_hash None None.
Definition request_payload : NxmsPayload :=
  MkPayload ESCROW_APP_PROTO_V1 TxSignReq plain_escrow "buyer-1" "arbiter-1" 7 "body".
Definition request_envelope : NxmsEnvelope :=
  MkEnvelope "NXMS/1" suite_kem_id suite_sig_id TxSignReq plain_escrow "buyer-1" "arbiter-1" 7 "k" "n" "c" "t" "s".
Definition sign_req (round : string) : string := sign_req_id toy_sha plain_escrow "sign_multisig" round (hash_of requested_tx).
Definition plain_bundle : ProofBundle :=
  MkProofBundle plain_escrow (hash_of requested_tx) "ja" (sign_req "arbiter_first") "js" (sign_req "seller_second") 1 2 3.

Definition no_parse {A} (_ : string) : result string A := Err "unexpected"%string.

#[local] Instance plain_lib : AgentLib := {|
  sha256 := toy_sha; sha3_256 := toy_sha;
  b64_decode := fun s => Some s; b64_text := fun _ => ""%string; hex_text := fun _ => ""%string;
  falcon_verify := fun _ _ _ => true;
  json_to_vec := fun _ => "policy"%string; snapshot_to_value := fun _ => JNull;
  snapshot_from_str := fun _ => Ok demo_snapshot;
  artifact_from_str := no_parse; artifact_to_str := fun _ => ""%string;
  cached_from_str := fun s => Ok (MkCached "sign_multisig" (Some s) []);
  cached_to_str := fun c => default ""%string (cr_tx_data_hex c);
  action_from_str := fun _ => Ok Release; action_to_str := action_debug;
  approved_from_str := fun raw => Ok (MkApprovedState raw [] (Some 1)); approved_to_str := av_signed_tx_data_hex;
  rejected_from_str := fun raw => Ok (MkRejectedState raw (Some 1)); rejected_to_str := rj_reason;
  bundle_from_str := fun raw => if (raw =? "bundle")%string then Ok plain_bundle else Err "unexpected"%string;
  body_from_str := fun _ => Ok (BTxSignReq request_body); body_to_str := fun _ => "body"%string;
  payload_from_slice := fun _ => Ok request_payload; payload_to_vec := fun _ => ""%string; envelope_to_vec := fun _ => ""%string;
  verify_text := fun _ => "invalid action token"%string; snapshot_text := fun _ => "policy"%string;
  admission_error_text := fun _ => "admission"%string; wire_text := fun _ => "wire"%string;
  limiter_iter := map_to_list |}.

Definition is_orchestrator (e : Effect) : bool := match e with EOrchestrator _ => true | _ => false end.
(** The orchestrator process is down the first time it is called. *)
Definition flaky_orchestrator (log : list Effect) (_ : list string) : result string string :=
  if existsb is_orchestrator log then Ok "bundle"%string else Err "orchestrator command timed out"%string.
Definition plain_var (name : string) : option string :=
  if (name =? ENV_STORE)%string || (name =? ENV_STORE_REQUIRED)%string then Some "true"%string
  else if (name =? ENV_ORCH_CONFIG_PATH)%string then Some "orch.toml"%string else None.

Definition env_with (var : string -> option string) : AgentEnv := {|
  env_now := fun t _ => Z.of_nat t; env_now_s := fun _ _ => 1001;
  env_others := fun _ => []; env_others_limiter := fun _ l => l;
  env_var := var; env_file := no_parse;
  wallet_open := fun _ => Ok tt;
  wallet_describe := fun _ _ => Ok (check_of [MkTransferRecipient "seller" 15; MkTransferRecipient "fee" 3] 7, "{}"%string);
  wallet_sign := fun _ _ => Ok (MkSigned "00bb" ["txhash"%string]);
  wallet_submit := fun _ _ => Ok ["txhash"%string];
  wallet_transfer := fun _ _ => Ok "00aa"%string;
  orchestrator_process := flaky_orchestrator;
  mailbox_push := fun _ _ => Err "mailbox down"%string; mailbox_pull := fun _ => Err ""%string; mailbox_ack := fun _ _ => Ok tt;
  nxms_encrypt := fun _ _ _ _ _ _ _ _ _ => Ok (MkSealed "k" "n" "c" "t" "s"); nxms_decrypt := fun _ _ _ _ _ _ _ _ => Ok "plain"%string |}.

#[local] Instance plain_env : AgentEnv := env_with plain_var.

Definition plain_verifier : ActionTokenVerifier :=
  MkVerifier _ true "nexum" "sandbox" EdDSA "key" 5 60 Arbiter "sandbox-1" "wallet-1" "stagenet" None.
Definition plain_agent : SignerAgent :=
  MkSignerAgent _ "arbiter-1" Arbiter 4096 false 3 {["buyer-1"%string := MkPeer "pk" "pk"]} (Ok "kem"%string) (Ok "sig"%string) (Some plain_verifier) None.

Definition plain_claims (jti : string) : ActionClaims :=
  MkClaims "nexum" "sandbox" "ops" "sign_multisig" "sign_multisig" "arbiter" "arbiter_first" plain_escrow "wallet-1"
    "sandbox-1" (hash_of requested_tx) (policy_hash demo_snapshot) "stagenet" None None 1000 1000 1060 jti None None None None.

Definition plain_db : sdb :=
  (run_signer [OpPutSnapshot 1 plain_escrow "h1" "{}"; OpPutSignature (demo_sig "buyer"); OpActivate "h1" 1] empty_sdb).1.
Definition plain_start : agent := Agent plain_db (new_limiter 5 60 64) 0 [].
Definition ask (jti : string) (s : agent) : agent * result AgentError SignedMultisigTx :=
  sign_multisig_flow plain_agent plain_escrow Release requested_tx (Some (plain_claims jti)) s.

Lemma plain_db_ok : signer_ok plain_db.
Proof. apply run_signer_ok, empty_signer_ok. Qed.

Example first_request : (ask "j1" plain_start).2 = Err (Anyhow "orchestrator command timed out").
Proof. vm_compute. reflexivity. Qed.

(** The same signer asked to submit, with the proofs of both signatures. *)
Definition submit_claims (jti : string) : ActionClaims :=
  MkClaims "nexum" "sandbox" "ops" "submit_multisig" "submit_multisig" "arbiter" "arbiter_submit" plain_escrow "wallet-1"
    "sandbox-1" (hash_of requested_tx) (policy_hash demo_snapshot) "stagenet" None None 1000 1000 1060 jti
    (Some "ja"%string) (Some "js"%string) (Some (sign_req "arbiter_first")) (Some (sign_req "seller_second")).
Definition signed_db : sdb :=
  (run_signer [OpSignEvent 5 plain_escrow "arbiter" "arbiter_first" (hash_of requested_tx) "ja"
     (sign_req "arbiter_first")] plain_db).1.
Definition signed_start : agent := Agent signed_db (new_limiter 5 60 64) 0 [].
Definition ask_submit (jti : string) (s : agent) : agent * result AgentError (list string) :=
  submit_multisig_flow plain_agent plain_escrow Release requested_tx (Some (submit_claims jti)) s.

Example submitted : (ask_submit "j9" signed_start).2 = Ok ["txhash"%string].
Proof. vm_compute. reflexivity. Qed.

Lemma sign_gated_witness :
  exists p snapshot v, let s' := (ask "j1" plain_start).1 in
    went [ESign (pr_tx_data_hex p)] plain_start s' /\
    cleared plain_agent plain_escrow Release requested_tx plain_start s' p snapshot /\
    spent plain_agent SignMultisig (Some (plain_claims "j1")) p v plain_start s'.
Proof.
  destruct (sign_gated plain_agent plain_escrow Release requested_tx (Some (plain_claims "j1")) plain_start
    (ask "j1" plain_start).1 (ask "j1" plain_start).2) as [W|(p & snapshot & W & C & V)].
  - apply surjective_pairing.
  - exfalso. apply wn_log in W. vm_compute in W. discriminate.
  - destruct V as [v V]; [discriminate|]. by exists p, snapshot, v.
Defined.

Lemma submit_gated_witness :
  exists p snapshot v, let s' := (ask_submit "j9" signed_start).1 in
    went [ESubmit (pr_tx_data_hex p)] signed_start s' /\
    cleared plain_agent plain_escrow Release requested_tx signed_start s' p snapshot /\
    spent plain_agent SubmitMultisig (Some (submit_claims "j9")) p v signed_start s' /\
    quorum_checked plain_agent p v signed_start s'.
Proof.
  destruct (submit_gated plain_agent plain_escrow Release requested_tx (Some (submit_claims "j9")) signed_start
    (ask_submit "j9" signed_start).1 (ask_submit "j9" signed_start).2) as [W|(p & snapshot & W & C & V)].
  - apply surjective_pairing.
  - exfalso. apply wn_log in W. vm_compute in W. discriminate.
  - destruct V as (v & V & Q); [discriminate|]. by exists p, snapshot, v.
Defined.

(** One token, presented three times: one signature, one consumed id. *)
Definition asked_thrice : list AgentCall :=
  [CallSign plain_escrow Release requested_tx (Some (plain_claims "j1")); CallRunOnce;
   CallSign plain_escrow Release requested_tx (Some (plain_claims "j1"));
   CallSign plain_escrow Release requested_tx (Some (plain_claims "j1"))].
Lemma wallet_commits_per_token_witness :
  let s := run_calls plain_agent asked_thrice plain_start in
  committed (ag_log s) = [ESign requested_tx] /\ map cj_jti (consumed_action_jti (ag_db s)) = ["j1"%string] /\
  (1 + 0 <= 0 + length (consumed_action_jti (ag_db s)))%nat /\
  NoDup (map cj_jti (consumed_action_jti (ag_db s))).
Proof.
  cbv zeta. split; [vm_compute; reflexivity|]. split; [vm_compute; reflexivity|].
  exact (wallet_commits_per_token plain_agent asked_thrice plain_start ltac:(discriminate) plain_db_ok).
Defined.

Lemma completed_never_resigned_witness :
  let s := (ask "j1" plain_start).1 in
  went [] s (ask "j2" s).1 /\ forall signed, (ask "j2" s).2 = Ok signed ->
    exists json, Some "00bb"%string = Some json /\ parse_cached_sign_result json = Ok signed.
Proof.
  intros s. assert (signer_ok (ag_db s)) as Hok.
  { destruct (sign_gated_aux plain_agent plain_escrow Release requested_tx (Some (plain_claims "j1")) plain_start
      s (ask "j1" plain_start).2 (surjective_pairing _)) as [W|(p & sn & W & _)];
      (eapply reach_ok; [apply W|apply plain_db_ok]). }
  eapply (completed_never_resigned plain_agent plain_verifier plain_escrow Release requested_tx (Some (plain_claims "j2"))
    s (ask "j2" s).1 (ask "j2" s).2 plain_escrow requested_tx (hash_of requested_tx)).
  1: reflexivity. 1: exact Hok. 1-4: vm_compute; reflexivity. apply surjective_pairing.
Defined.

(** A signature whose proof could not be stored with the orchestrator is lost
    to the quorum: the request is already completed, the retry is answered from
    the cache without another attempt to store it, and the event of the signed
    transaction set, which [submit_multisig_flow] looks for, is never recorded. *)
Theorem sign_retry_loses_proof :
  let first := ask "j1" plain_start in
  let second := ask "j2" first.1 in
  first.2 = Err (Anyhow "orchestrator command timed out") /\
  second.2 = Ok (MkSigned "00bb" []) /\
  List.filter is_orchestrator (ag_log second.1) = List.filter is_orchestrator (ag_log first.1) /\
  map ex_txset_hash_hex (t_rows (sign_events (ag_db second.1))) = [hash_of requested_tx] /\
  hash_of "00bb" <> hash_of requested_tx.
Proof. vm_compute. repeat split; discriminate. Qed.

(** ** The mailbox and the operator *)

Definition activate : list SignerOp :=
  [OpPutSnapshot 1 plain_escrow snapshot_hash "{}"; OpPutSignature (MkSnapshotSig "buyer" "pk" "sig" snapshot_hash "falcon" 5);
   OpActivate snapshot_hash 1].
Definition after_ops (ops : list SignerOp) (s : agent) : agent :=
  Agent (run_signer ops (ag_db s)).1 (ag_limiter s) (ag_ticks s) (ag_log s).
Definition unstarted : agent := Agent empty_sdb (new_limiter 5 60 64) 0 [].

(** The request arrives before the snapshot is in force here, an error the
    loop means to retry; when the mailbox delivers it again, it is discarded. *)
Lemma redelivery_discarded_witness :
  let first := process_envelope plain_agent request_envelope unstarted in
  let later := after_ops activate first.1 in
  first.2 = Err (Anyhow ("no active snapshot for escrow " +:+ plain_escrow)) /\
  should_ack_non_retryable_process_error ("no active snapshot for escrow " +:+ plain_escrow) = false /\
  (process_envelope plain_agent request_envelope later).2 <> Ok tt /\
  exists k, 1 <= Z.of_nat k <= 3 /\
    ag_log (handle_message plain_agent ("r1"%string, request_envelope) later).1 = ag_log later ++ replicate k (EAck "r1").
Proof.
  intros first later. split; [vm_compute; reflexivity|]. split; [vm_compute; reflexivity|].
  apply (redelivery_discarded plain_agent request_envelope request_payload "r1" unstarted first.1 first.2 later).
  - vm_compute. reflexivity.
  - apply surjective_pairing.
  - exists activate. reflexivity.
Defined.

Definition queued : agent := (process_envelope plain_agent request_envelope (after_ops activate unstarted)).1.
Definition approve (jti : string) (s : agent) : agent * result AgentError unit :=
  approve_pending plain_agent 1 (Some (plain_claims jti)) s.
Definition statuses (s : agent) : list (Z * string) := map (fun r => (pt_id r, pt_status r)) (t_rows (pending_tx_sign (ag_db s))).

(** Signed and staged; the mailbox is down. *)
Example approved_not_sent :
  statuses queued = [(1, "pending"%string)] /\ (approve "j1" queued).2 = Err (Anyhow "mailbox down") /\
  statuses (approve "j1" queued).1 = [(1, "approved_sending"%string)].
Proof. vm_compute. repeat split. Qed.

Lemma approve_gated_witness :
  exists pending act snapshot p v, let s' := (approve "j1" queued).1 in
    went [ESign (pt_multisig_txset_hex pending)] queued s' /\
    approvable plain_agent 1 pending act snapshot p queued s' /\
    spent plain_agent SignMultisig (Some (plain_claims "j1")) p v queued s'.
Proof.
  destruct (approve_gated plain_agent 1 (Some (plain_claims "j1")) queued (approve "j1" queued).1 (approve "j1" queued).2)
    as [W|(pending & act & snapshot & p & W & C & V)].
  - apply surjective_pairing.
  - exfalso. apply wn_log in W. vm_compute in W. discriminate.
  - destruct V as [v V]; [discriminate|]. by exists pending, act, snapshot, p, v.
Defined.

Definition found_row (id : Z) (s : agent) : PendingTxSign :=
  match (get_pending_sync id (interfered s)).2 with Ok (Some r) => r | _ => row_to_pending (pending_row_of (MkPending 0 "" "" "" 0 "" "" "" "" "" "" None 0 0) 0) end.

Lemma approval_resumes_witness :
  let s := (approve "j1" queued).1 in
  pushes plain_agent "buyer-1" plain_escrow TxSignResp (approval_body (found_row 1 s) "00bb" []) 1 s
    (approve_pending plain_agent 1 None s).1.
Proof.
  intros s. apply (approval_resumes plain_agent 1 None s (found_row 1 s) "00bb" (MkApprovedState "00bb" [] (Some 1)) 1);
    vm_compute; reflexivity.
Defined.

(** A rejection without a reason while the mailbox is down. *)
Lemma blank_rejection_stuck_witness :
  let s := (reject_pending plain_agent 1 " " queued).1 in
  statuses s = [(1, "rejected_sending"%string)] /\
  exists e1 e2, reject_pending plain_agent 1 "again" s = (set_db (interfered s) s, Err (Anyhow e1)) /\
    approve_pending plain_agent 1 None s = (set_db (interfered s) s, Err (Anyhow e2)).
Proof.
  intros s. split; [vm_compute; reflexivity|].
  apply (blank_rejection_stuck plain_agent 1 "again" None s (found_row 1 s) " " (MkRejectedState " " (Some 1)));
    vm_compute; reflexivity.
Defined.

Lemma reach_queued : reach empty_sdb (ag_db queued).
Proof.
  transitivity (ag_db (after_ops activate unstarted)); [by exists activate|].
  exact (wn_db _ _ _ (quiet_process plain_agent request_envelope (after_ops activate unstarted))).
Qed.

Lemma reach_approved : reach empty_sdb (ag_db (approve "j1" queued).1).
Proof.
  transitivity (ag_db queued); [exact reach_queued|]. unfold approve. generalize queued. intros s.
  exact (call_reach plain_agent (@CallApprove plain_jwt 1 (Some (plain_claims "j1"))) s).
Qed.

(** The buyer asks again, under the next number, for the set signed before. *)
Definition asked_again : agent :=
  after_ops [OpEnqueue (MkPending 0 plain_escrow "buyer-1" "arbiter-1" 8 "release" snapshot_hash requested_tx
    (hash_of requested_tx) "{}" "pending" None 9 9)] (approve "j1" queued).1.

Lemma approve_completed_fails_witness :
  let r := approve_pending plain_agent 2 (Some (plain_claims "j2")) asked_again in
  went [] asked_again r.1 /\ r.2 <> Ok tt.
Proof.
  intros r. eapply (approve_completed_fails plain_agent plain_verifier 2 (Some (plain_claims "j2")) asked_again r.1 r.2
    (found_row 2 asked_again) (hash_of requested_tx)).
  1: reflexivity.
  1: { eapply reach_ok; [|apply empty_signer_ok]. etrans; [apply reach_approved|]. by eexists. }
  1-4: vm_compute; reflexivity. apply surjective_pairing.
Defined.

(** ** Recording an issued token *)

Definition hardened_agent : SignerAgent :=
  MkSignerAgent _ "arbiter-1" Arbiter 4096 true 3 ∅ (Ok "kem"%string) (Ok "sig"%string) (Some plain_verifier) None.
Definition submit_context : AuthEventContext :=
  MkAuthContext (Some "Submit_Multisig"%string) (Some (hash_of requested_tx)) (Some "ja"%string) (Some (sign_req "arbiter_first"))
    (Some "js"%string) (Some (sign_req "seller_second")).
Definition warmed_up : agent := Agent empty_sdb (new_limiter 5 60 64) 0 [EOrchestrator []].
Definition verifying_env : AgentEnv :=
  env_with (fun name => if (name =? ENV_VERIFY)%string then Some "true"%string else plain_var name).
Definition record_issued : agent * result AgentError unit :=
  @append_auth_event _ _ _ verifying_env hardened_agent plain_escrow "TOKEN_ISSUED" None None (Some submit_context) warmed_up.

Lemma token_issued_backed_witness :
  exists c e', normalize_hex_exact plain_escrow 32 "escrow_id_hex" = Ok e' /\
    normalize_auth_event_context (Some submit_context) = Ok (Some c) /\
    (cx_op c = Some "sign_multisig"%string \/
     exists txset aj sj, let req round := sign_req_id toy_sha e' "sign_multisig" round txset in
       c = MkAuthContext (Some "submit_multisig"%string) (Some txset) (Some aj) (Some (req "arbiter_first"%string))
             (Some sj) (Some (req "seller_second"%string)) /\
       exists log args stdout bd, flaky_orchestrator log args = Ok stdout /\ bundle_from_str stdout = Ok bd /\
         bridge_hex_exact e' 32 "escrow_id_hex" = Ok (pb_escrow_id_hex bd) /\
         bridge_hex_exact txset 64 "txset_hash_hex" = Ok (pb_txset_hash_hex bd) /\
         pb_proof_arbiter_jti bd = aj /\ pb_proof_arbiter_req_id bd = req "arbiter_first"%string /\
         pb_proof_seller_jti bd = sj /\ pb_proof_seller_req_id bd = req "seller_second"%string).
Proof.
  apply (@token_issued_backed plain_jwt plain_sql plain_lib verifying_env hardened_agent plain_escrow "TOKEN_ISSUED"
    None None (Some submit_context) warmed_up record_issued.1).
  - reflexivity.
  - vm_compute. reflexivity.
  - vm_compute. reflexivity.
Defined.

(** The context is not redacted: an event whose detail would be refused for a
    raw token is recorded with one in the context. *)
Theorem context_token_logged :
  let jwt := "eyJhbGciOiJF.eyJzY29wZSI6.c2lnbmF0dXJl"%string in
  let context := MkAuthContext None None (Some jwt) None None None in
  let s := append_auth_event plain_agent plain_escrow "challenge_issued" None None (Some context) unstarted in
  s.2 = Ok tt /\
  map (fun r => contains_probable_jwt (default ""%string (ai_detail (al_event r)))) (t_rows (audit_log (ag_db s.1))) = [true].
Proof. vm_compute. repeat split. Qed.
