(* ===== verification/SignerStart.v ===== *)
(** * Starting a signer

    [SignerAgent::from_config] in [crates/nxms-signer/src/agent.rs], the wallet
    provisioning of [agent_support.rs] and the construction of the token verifier
    in [action_token.rs]: how the configuration, the vault, the trust bundle and
    the wallet become an agent.  The wallet tool, the wallet and the mailbox
    client answer as parameters. *)

From S2P Require Import Prelude RustString Bytes Sql Json Wire Admission Snapshot Packet TransportCrypto Trust TrustProps TrustFiles Vault.
From S2P Require Import Bootstrap SignerConfig SignerConfigProps ActionToken TokenVerifier SignerDb SignerInv AgentSupport AgentState OrchBridge.

Inductive StartError : Type :=
| StProduction (e : string) | StPeers (e : TrustError) | StVault (e : VaultError) | StTrust (e : SignerTrustError) | StDb (e : string)
| StMailbox (e : string) | StWallet (e : string) | StNotReady | StBadStatus | StNoProvision | StCli (e : string) | StCliStatus
| StAlgorithm | StPemNotRegular | StPemMode | StPemKey | StIo (path : string).
#[export] Instance start_io_error : IoError StartError := StIo.

Record WalletMultisigStatus : Type := MkMultisigStatus { ms_multisig : bool; ms_ready : bool; ms_threshold : Z; ms_total : Z }.

(** ** Paths *)

Definition is_absolute (p : string) : bool := String.prefix "/" p.
(** [dir.join(p)] for a directory that is not the empty path. *)
Definition path_join (dir p : string) : string :=
  if is_absolute p then p else if ends_with "/" dir then dir +:+ p else dir +:+ "/" +:+ p.
Definition resolve_wallet_cli_wallet_file (cfg : SignerConfig) (wallet_dir : option string) : string :=
  let wallet_path := trim (wr_wallet_name (sc_wallet_rpc cfg)) in
  if is_absolute wallet_path then wallet_path
  else match wallet_dir with Some dir => path_join dir wallet_path | None => wallet_path end.

(** ** Readiness of the wallet *)

Definition enforce_wallet_multisig_ready (cfg : SignerConfig) (status : WalletMultisigStatus) : result StartError unit :=
  let require_ready := sc_production_hardening cfg || opt_enabled (sc_wallet_provision cfg) in
  if negb (ms_multisig status) || negb (ms_ready status) then fail_if require_ready StNotReady
  else fail_if ((ms_total status =? 0) || (ms_threshold status =? 0) || (ms_total status <? ms_threshold status)) StBadStatus.

(** ** The wallet tool *)

Definition wallet_cli_args (cfg : SignerConfig) (provision : WalletProvisionConfig) (wallet_file password_file command : string) : list string :=
  ["--wallet-file"%string; wallet_file; "--password-file"%string; password_file]
  ++ match wp_daemon_address provision with Some d => ["--daemon-address"%string; d] | None => [] end
  ++ (if wp_trusted_daemon provision then ["--trusted-daemon"%string] else [])
  ++ (if (sc_nettype cfg =? "stagenet")%string then ["--stagenet"%string]
      else if (sc_nettype cfg =? "testnet")%string then ["--testnet"%string] else [])
  ++ wp_extra_args provision ++ ["--command"%string; command].

Section start.
Context `{Jwt} {ext : SignerExt} `{AgentLib} `{AgentEnv} {lib : BootLib}.
Context (decoding_key_from_pem : Algorithm -> string -> option DecodingKey).
Context (io : io_op -> string -> bool) (partial : string -> string) (umask_mode : Z).
Notation ST := (M fs StartError).

(** [TemporarySecretFile]: written, then made private; removed when dropped. *)
Definition temp_secret_new (path secret : string) : ST unit :=
  let* _ := fs_write io partial umask_mode path (with_newline secret) in
  fs_chmod io path MODE_600.
Definition temp_secret_drop (path : string) (f : fs) : fs := if io IoRemove path then delete path f else f.

(** The tool: given its arguments, its input and the files it finds, it does not
    start or times out, or ends with or without success. *)
Context (cli : string -> list string -> option string -> fs -> result string bool).
(** The name of the temporary file: the clock makes it new for every call. *)
Context (temp_path : nat -> string).

Definition run_wallet_cli_command (n : nat) (cfg : SignerConfig) (provision : WalletProvisionConfig) (wallet_file command : string)
    (stdin_line : option string) : ST unit :=
  let path := temp_path n in
  let* _ := temp_secret_new path (wr_wallet_password (sc_wallet_rpc cfg)) in
  fun f =>
    let r := match cli (wp_wallet_cli_path provision) (wallet_cli_args cfg provision wallet_file path command)
                     (option_map with_newline stdin_line) f with
             | Err e => Err (StCli e)
             | Ok success => fail_if (negb success) StCliStatus
             end in
    (temp_secret_drop path f, r).
(** Both commands are attempts: only a missing section is an error. *)
Definition provision_wallet_multisig_enable (cfg : SignerConfig) : ST unit :=
  let* provision := slift (ok_or (sc_wallet_provision cfg) StNoProvision) in
  if negb (wp_enabled provision) then sret tt
  else
    let wallet_file := resolve_wallet_cli_wallet_file cfg (wp_wallet_dir provision) in
    fun f =>
      let '(f1, r) := run_wallet_cli_command 0 cfg provision wallet_file "set enable-multisig-experimental 1"
                        (Some (wr_wallet_password (sc_wallet_rpc cfg))) f in
      match r with
      | Err _ => (f1, Ok tt)
      | Ok _ => let '(f2, _) := run_wallet_cli_command 1 cfg provision wallet_file "save" None f1 in (f2, Ok tt)
      end.

(** ** The token verifier *)

Definition trust_cfg (c : SignerConfig) : TrustCfg :=
  MkTrustCfg (sc_local_id c) (sc_peers_path c) (sc_runtime_trust_bundle_path c)
    (option_map (fun a => MkActionTokenCfg (ac_issuer a) (ac_algorithm a) (ac_public_key_pem_path a)) (sc_action_token c)).

Definition validate_public_key_pem_metadata (f : file) : result StartError unit :=
  let? _ := fail_if (negb (f_regular f)) StPemNotRegular in
  fail_if (unsafe_write (f_mode f)) StPemMode.
Definition read_public_key_pem_checked (path : string) : ST string :=
  let* f := fs_read io path in
  let* _ := slift (validate_public_key_pem_metadata f) in
  sret (f_bytes f).

Local Notation load_trust := (load_runtime_trust_bundle_from_config io bl_bundle_from_slice bl_sha256 bl_json_to_vec bl_b64_decode bl_falcon_verify).
Definition from_signer_config (cfg : SignerConfig) : ST (option (ActionTokenVerifier * VerifyRateLimiter)) :=
  match sc_action_token cfg with
  | None => sret None
  | Some a =>
      let* algorithm := slift (ok_or (parse_algorithm (ac_algorithm a)) StAlgorithm) in
      let* pem := read_public_key_pem_checked (ac_public_key_pem_path a) in
      let* key := slift (ok_or (decoding_key_from_pem algorithm pem) StPemKey) in
      let audience := default ("sandbox:" +:+ sc_sandbox_id cfg) (ac_audience a) in
      let* bundle := smap_err StTrust (load_trust (trust_cfg cfg)) in
      sret (Some (MkVerifier _ (ac_required a) (ac_issuer a) audience algorithm key (ac_clock_skew_secs a) (ac_max_ttl_secs a)
                    (sc_signer_role cfg) (sc_sandbox_id cfg) (sc_wallet_id cfg) (sc_nettype cfg) (option_map rb_trust_epoch bundle),
                  new_limiter (ac_verify_rate_limit_max_attempts a) (ac_verify_rate_limit_window_secs a) (ac_verify_rate_limit_max_keys a)))
  end.

(** ** The agent *)

Local Notation load_keys := (load_host_keys bl_sodium_init bl_opslimit bl_memlimit bl_pwhash bl_aead_decrypt io bl_b64_decode bl_host_from_slice).
Local Notation validate_trust := (validate_runtime_trust_projection io bl_peers_from_slice bl_bundle_from_slice bl_sha256 bl_json_to_vec
  bl_b64_decode bl_falcon_verify).

(** [peers.get(id)] finds the first peer of that id. *)
Definition peers_of (book : PeerBook) : gmap string Peer :=
  list_to_map (map (fun p => (bp_id p, MkPeer (bp_kem_pk_b64 p) (bp_sig_pk_b64 p))) (pbk_peers book)).
Definition show_crypto (r : result CryptoError string) : result string string := map_err (fun _ => "invalid key"%string) r.

(** How opening the database, building the mailbox client and the wallet
    client, and the wallet itself answer. *)
Record Answers : Type := MkAnswers {
  an_db : result string unit; an_mailbox : result string unit; an_client : result string unit;
  an_open : result string unit; an_status : result string WalletMultisigStatus }.

Definition from_config (ans : Answers) (cfg : SignerConfig) : ST (SignerAgent * VerifyRateLimiter) :=
  let* _ := slift (map_err StProduction (enforce_production_requirements (sc_production_hardening cfg))) in
  let* peers := smap_err StPeers (peer_book_load io bl_peers_from_slice (sc_peers_path cfg)) in
  let* keys := smap_err StVault (load_keys (sc_host_vault_dir cfg) (sc_host_vault_passphrase cfg)) in
  let* bundle := smap_err StTrust (validate_trust (trust_cfg cfg) keys) in
  let* _ := slift (map_err StDb (an_db ans)) in
  let* _ := slift (map_err StMailbox (an_mailbox ans)) in
  let* _ := slift (map_err StWallet (an_client ans)) in
  let* _ := (if opt_enabled (sc_wallet_provision cfg) then provision_wallet_multisig_enable cfg else sret tt) in
  let* _ := slift (map_err StWallet (an_open ans)) in
  let* status := slift (map_err StWallet (an_status ans)) in
  let* _ := slift (enforce_wallet_multisig_ready cfg status) in
  let* verifier := from_signer_config cfg in
  sret (MkSignerAgent _ (sc_local_id cfg) (sc_signer_role cfg) (sc_max_txset_hex_len cfg) (sc_production_hardening cfg)
          (sc_mailbox_retry_attempts cfg) (peers_of peers) (show_crypto (kem_sk bl_b64_decode keys)) (show_crypto (sig_sk bl_b64_decode keys))
          (option_map fst verifier) (option_map trusted bundle),
        match verifier with Some (_, l) => l | None => new_limiter 1 1 64 end).
End start.
