(* ===== verification/SignerStartProps.v ===== *)
(** * Properties of a starting signer

    What an agent built from an accepted, hardened configuration has: a trust
    bundle both guards signed, the peers of that bundle, a verifier for tokens of
    its own sandbox under that bundle, and a wallet that is ready. *)

From S2P Require Import Prelude RustString Bytes Sql Json Wire Admission Snapshot Packet TransportCrypto Trust TrustProps TrustFiles Vault.
From S2P Require Import Bootstrap SignerConfig SignerConfigProps ActionToken TokenVerifier SignerDb SignerInv AgentSupport AgentState OrchBridge SignerStart AgentDemo.

Section start.
Context `{Jwt} {ext : SignerExt} `{AgentLib} `{AgentEnv} {lib : BootLib}.
Context (decoding_key_from_pem : Algorithm -> string -> option DecodingKey).
Context (io : io_op -> string -> bool) (partial : string -> string) (umask_mode : Z).
Context (cli : string -> list string -> option string -> fs -> result string bool) (temp_path : nat -> string).
Notation run_cli := (run_wallet_cli_command io partial umask_mode cli temp_path).
Notation provision := (provision_wallet_multisig_enable io partial umask_mode cli temp_path).
Notation start := (from_config decoding_key_from_pem io partial umask_mode cli temp_path).
Notation load := (load_verified io bl_bundle_from_slice bl_sha256 bl_json_to_vec bl_b64_decode bl_falcon_verify).
Notation quorum := (verify_guard_quorum bl_sha256 bl_json_to_vec bl_b64_decode bl_falcon_verify).

(** ** The wallet tool touches its temporary files only *)

Lemma run_cli_others n cfg p w c i f f' r q : run_cli n cfg p w c i f = (f', r) -> q <> temp_path n -> f' !! q = f !! q.
Proof.
  unfold run_wallet_cli_command, temp_secret_new, temp_secret_drop, fs_write, fs_chmod, must, sbind, sget, slift, smodify, sfail, fail_if.
  intros Hr Hq. repeat (case_match; simplify_eq/=);
    rewrite ?lookup_delete_ne, ?lookup_alter_ne, ?lookup_insert_ne by congruence; done.
Qed.
Lemma provision_others cfg f f' r q : provision cfg f = (f', r) -> (forall n, q <> temp_path n) -> f' !! q = f !! q.
Proof.
  unfold provision_wallet_multisig_enable. intros Hp Hq. rewrite sbind_run in Hp. unfold slift in Hp.
  destruct (ok_or _ _) as [p|e]; [|by simplify_eq]. destruct (negb (wp_enabled p)); [unfold sret in Hp; by simplify_eq|].
  destruct (run_cli 0 _ _ _ _ _ f) as [f1 r1] eqn:E1. pose proof (run_cli_others _ _ _ _ _ _ _ _ _ q E1 (Hq 0%nat)) as H1'.
  destruct r1; [|by simplify_eq]. destruct (run_cli 1 _ _ _ _ _ f1) as [f2 r2] eqn:E2.
  pose proof (run_cli_others _ _ _ _ _ _ _ _ _ q E2 (Hq 1%nat)) as H2'. simplify_eq. by rewrite H2'.
Qed.

(** The password is gone when the tool is done. *)
Lemma password_removed n cfg p w c i f f' r :
  io IoRemove (temp_path n) = true -> io IoWrite (temp_path n) = true -> io IoChmod (temp_path n) = true ->
  run_cli n cfg p w c i f = (f', r) -> f' !! temp_path n = None.
Proof.
  intros Hrm Hw Hc. unfold run_wallet_cli_command, temp_secret_new, temp_secret_drop, fs_write, fs_chmod, must, sbind, sget, slift, smodify, fail_if.
  rewrite Hrm, Hw, Hc. cbn. intros Hr. simplify_eq. by rewrite lookup_delete_eq.
Qed.
(** When the mode cannot be set, the password stays behind with the mode of a new file. *)
Lemma password_left_behind n cfg p w c i f :
  io IoWrite (temp_path n) = true -> io IoChmod (temp_path n) = false -> f !! temp_path n = None ->
  run_cli n cfg p w c i f
  = (<[temp_path n := File true umask_mode (with_newline (wr_wallet_password (sc_wallet_rpc cfg)))]> f, Err (StIo (temp_path n))).
Proof.
  intros Hw Hc Hf. unfold run_wallet_cli_command, temp_secret_new, fs_write, fs_chmod, must, sbind, sget, slift, smodify, fail_if.
  rewrite Hw, Hc, Hf. done.
Qed.

(** ** Reading does not write *)

Lemma peer_book_load_run path f : exists r, peer_book_load io bl_peers_from_slice path f = (f, r).
Proof.
  unfold peer_book_load. rewrite sbind_run. destruct (fs_read_run (E := TrustError) io path f) as [[x|e] ->]; [|by eexists].
  unfold sbind, slift, sret. destruct (ok_or _ _) as [b|]; [|by eexists]. destruct (pbk_peers b); by eexists.
Qed.
Lemma load_keys_run dir pass f :
  exists r, load_host_keys bl_sodium_init bl_opslimit bl_memlimit bl_pwhash bl_aead_decrypt io bl_b64_decode bl_host_from_slice dir pass f = (f, r).
Proof.
  unfold load_host_keys, load_host_vault, crypto_step, TransportCrypto.read_secret_file. rewrite !sbind_run. unfold slift.
  destruct (init_sodium _); [|by eexists]. rewrite sbind_run. destruct (validate_passphrase _); [|by eexists]. rewrite sbind_run, sbind_run.
  destruct (fs_read_run (E := CryptoError) io (vault_bin_path dir) f) as [[x|e] ->]; [|by eexists]. rewrite sbind_run.
  destruct (validate_secret_file_metadata x); [|by eexists]. unfold sret, sbind. cbn [map_err].
  destruct (host_open _ _ _ _ _ _); [|by eexists]. destruct (ok_or _ _); [|by eexists]. destruct (validate_host_vault _ _); by eexists.
Qed.
Lemma projection_run cfg keys f : exists r, validate_runtime_trust_projection io bl_peers_from_slice bl_bundle_from_slice bl_sha256 bl_json_to_vec
  bl_b64_decode bl_falcon_verify cfg keys f = (f, r).
Proof.
  unfold validate_runtime_trust_projection. destruct (tc_runtime_trust_bundle_path cfg) as [path|]; [|by eexists].
  rewrite sbind_run. unfold slift. destruct (ok_or _ _) as [a|]; [|by eexists]. rewrite sbind_run. unfold trust_step, verify_runtime_trust_projection.
  rewrite sbind_run. destruct (load_run io bl_bundle_from_slice bl_sha256 bl_json_to_vec bl_b64_decode bl_falcon_verify path f) as [[b|e] ->]; [|by eexists].
  unfold slift. rewrite sbind_run. destruct (validate_local_keys _ _ _); [|by eexists]. rewrite sbind_run.
  destruct (peer_book_for _ _) as [book|]; [|by eexists]. rewrite sbind_run. destruct (peer_book_load_run (tc_peers_path cfg) f) as [[bk|e] ->]; [|by eexists].
  rewrite sbind_run. destruct (fail_if _ _); [|by eexists]. rewrite sbind_run. unfold read_public_text. rewrite sbind_run.
  destruct (fs_read_run (E := TrustError) io (at_public_key_pem_path a) f) as [[x|e] ->]; [|by eexists]. unfold slift, sbind, sret.
  repeat (destruct (fail_if _ _); [|by eexists]). cbn [map_err]. destruct (validate_action_token_config_against_bundle _ _); by eexists.
Qed.

(** ** The agent *)

(** The agent of an accepted configuration [cfg], started under bundle [b]. *)
Record trusted_agent (cfg : SignerConfig) (b : RuntimeTrustBundle) (a : SignerAgent) : Prop := TrustedAgent {
  ta_bundle : sa_runtime_trust_bundle a = Some (trusted b);
  ta_quorum : quorum b = Ok tt;
  ta_hardened : sa_production_hardening a = true /\ env_true ENV_VERIFY = true;
  ta_verifier : exists v, sa_verifier a = Some v /\ av_required v = true /\ av_audience v = ("sandbox:" +:+ sc_sandbox_id cfg)%string
    /\ av_max_ttl_secs v <= 120 /\ av_clock_skew_secs v <= 120 /\ av_sandbox_id v = sc_sandbox_id cfg /\ av_wallet_id v = sc_wallet_id cfg
    /\ av_runtime_trust_epoch v = Some (rb_trust_epoch b);
  ta_peers : forall id p, sa_peers a !! id = Some p -> exists q, q ∈ rb_peers b /\ rp_id q = id /\ rp_id q <> trim (sc_local_id cfg)
    /\ pe_kem_pk_b64 p = rp_kem_pk_b64 q /\ pe_sig_pk_b64 p = rp_sig_pk_b64 q;
}.

Lemma production_verifies : enforce_production_requirements true = Ok tt -> env_true ENV_VERIFY = true.
Proof.
  unfold enforce_production_requirements, resolve_submit_verify_mode. destruct (env_true ENV_VERIFY); [done|]. done.
Qed.

Lemma from_signer_config_ok cfg f f' r : from_signer_config decoding_key_from_pem io cfg f = (f', Ok r) ->
  match sc_action_token cfg with
  | None => r = None
  | Some a => exists alg key b lim, load_runtime_trust_bundle_from_config io bl_bundle_from_slice bl_sha256 bl_json_to_vec bl_b64_decode bl_falcon_verify
      (trust_cfg cfg) f = (f, Ok b) /\ r = Some (MkVerifier _ (ac_required a) (ac_issuer a) (default ("sandbox:" +:+ sc_sandbox_id cfg) (ac_audience a))
        alg key (ac_clock_skew_secs a) (ac_max_ttl_secs a) (sc_signer_role cfg) (sc_sandbox_id cfg) (sc_wallet_id cfg) (sc_nettype cfg)
        (option_map rb_trust_epoch b), lim)
  end.
Proof.
  unfold from_signer_config. destruct (sc_action_token cfg) as [a|]; [|by intros [= _ <-]]. intros Hr.
  apply sbind_ok in Hr as (f1 & alg & [= <- _] & Hr). apply sbind_ok in Hr as (f2 & pem & Hp & Hr).
  apply sbind_ok in Hp as (g1 & x & Hx & Hp). destruct (fs_read_run (E := StartError) io (ac_public_key_pem_path a) f) as [rx Ex]. rewrite Ex in Hx.
  injection Hx as <- ->. apply sbind_ok in Hp as (g2 & [] & [= <- _] & [= <- _]).
  apply sbind_ok in Hr as (f3 & key & [= <- _] & Hr). apply sbind_ok in Hr as (f4 & b & Hb & [= _ <-]). apply smap_err_ok in Hb.
  assert (f4 = f) as ->; [|by eexists _, _, _, _].
  unfold load_runtime_trust_bundle_from_config in Hb. destruct (tc_runtime_trust_bundle_path _) as [path|]; [|by injection Hb].
  apply sbind_ok in Hb as (g3 & b1 & Hl & Hb). apply sbind_ok in Hb as (g4 & [] & [= <- _] & [= <- _]).
  apply trust_step_ok in Hl. destruct (load_run io bl_bundle_from_slice bl_sha256 bl_json_to_vec bl_b64_decode bl_falcon_verify path f) as [rl El].
  rewrite El in Hl. by injection Hl as <-.
Qed.

Lemma projection_loads cfg keys f f' b path :
  tc_runtime_trust_bundle_path cfg = Some path ->
  validate_runtime_trust_projection io bl_peers_from_slice bl_bundle_from_slice bl_sha256 bl_json_to_vec bl_b64_decode bl_falcon_verify
    cfg keys f = (f', Ok b) -> exists b', b = Some b' /\ load path f = (f, Ok b').
Proof.
  intros Hp Hv. unfold validate_runtime_trust_projection in Hv. rewrite Hp in Hv. apply sbind_ok in Hv as (f1 & a & [= <- _] & Hv).
  apply sbind_ok in Hv as (f2 & b1 & Hb & Hv). apply sbind_ok in Hv as (f3 & [] & [= <- _] & [= _ <-]). exists b1. split; [done|].
  apply trust_step_ok in Hb. apply sbind_ok in Hb as (g1 & b2 & Hl & Hb).
  destruct (load_run io bl_bundle_from_slice bl_sha256 bl_json_to_vec bl_b64_decode bl_falcon_verify path f) as [rl El].
  rewrite El in Hl. injection Hl as <- ->. rewrite El. do 2 f_equal.
  apply sbind_ok in Hb as (g2 & [] & [= <- _] & Hb). apply sbind_ok in Hb as (g3 & pb & [= <- _] & Hb).
  apply sbind_ok in Hb as (g4 & ac & _ & Hb). apply sbind_ok in Hb as (g5 & [] & [= <- _] & Hb).
  apply sbind_ok in Hb as (g6 & pem & _ & Hb). by apply sbind_ok in Hb as (g7 & [] & _ & [= _ <-]).
Qed.

(** The epoch the verifier takes is that of the same bundle. *)
Lemma epoch_same cfg path f f' b r :
  tc_runtime_trust_bundle_path cfg = Some path -> load path f = (f, Ok b) -> f' !! path = f !! path ->
  load_runtime_trust_bundle_from_config io bl_bundle_from_slice bl_sha256 bl_json_to_vec bl_b64_decode bl_falcon_verify cfg f' = (f', Ok r) -> r = Some b.
Proof.
  intros Hp Hl Hf Hr. unfold load_runtime_trust_bundle_from_config in Hr. rewrite Hp in Hr.
  apply sbind_ok in Hr as (g1 & b1 & Hl1 & Hr). apply sbind_ok in Hr as (g2 & [] & [= <- _] & [= _ <-]). apply trust_step_ok in Hl1.
  pose proof (load_same io bl_bundle_from_slice bl_sha256 bl_json_to_vec bl_b64_decode bl_falcon_verify path f' f Hf) as Hs.
  rewrite Hl, Hl1 in Hs. cbn in Hs. by injection Hs as ->.
Qed.

Lemma peers_of_listed book id p : peers_of book !! id = Some p ->
  exists q, q ∈ pbk_peers book /\ bp_id q = id /\ p = MkPeer (bp_kem_pk_b64 q) (bp_sig_pk_b64 q).
Proof.
  unfold peers_of. intros Hp. apply elem_of_list_to_map_2 in Hp. apply list_elem_of_fmap in Hp as (q & [= -> ->] & Hq). by exists q.
Qed.

Lemma book_same path f book file book' : peer_book_load io bl_peers_from_slice path f = (f, Ok book) ->
  f !! path = Some file -> bl_peers_from_slice (f_bytes file) = Some book' -> book = book'.
Proof.
  intros Hl Hf Hb. apply sbind_ok in Hl as (f1 & x & Hx & Hl). apply sbind_ok in Hl as (f2 & b & [= _ Hp] & Hl).
  apply sbind_ok in Hl as (f3 & u & _ & [= _ <-]). unfold fs_read, must, sbind, sget, slift in Hx. rewrite Hf in Hx.
  destruct (fail_if _ _); [|done]. injection Hx as _ <-. rewrite Hb in Hp. by injection Hp.
Qed.

(** C35. A hardened signer runs under trust it has verified: an agent that
    starts from a configuration accepted with production hardening holds a bundle
    that passed the check of the guards' quorum ([verify_guard_quorum], which
    accepts no bundle without both guards' signatures), knows as peers only hosts of that bundle other than
    itself, with the keys listed there, and accepts tokens only for its own
    sandbox and wallet, issued under the epoch of that bundle and for at most two
    minutes; proofs are checked with the orchestrator, and the wallet reported a
    finished multisig set-up. *)
Theorem hardened_agent_trusted url env files readable c cfg ans a lim f f'
    (Hnorm : normalize url env files readable c = Ok cfg) (Hprod : sc_production_hardening cfg = true)
    (Htemp : forall n path, sc_runtime_trust_bundle_path cfg = Some path -> path <> temp_path n)
    (Hstart : start ans cfg f = (f', Ok (a, lim))) :
  (exists b, trusted_agent cfg b a)
  /\ exists st, an_status ans = Ok st /\ ms_multisig st = true /\ ms_ready st = true /\ ms_threshold st <> 0 /\ ms_threshold st <= ms_total st.
Proof.
  pose proof (signer_config_inv url env files readable c cfg Hnorm) as Hacc.
  destruct (hardened_aux url env files readable c cfg Hacc Hprod) as [(path & Hpath & _) _ _ _ (ac & Hac & Haud & Httl) _].
  apply ad_isolated in Hacc. destruct (ci_token _ _ Hacc) as (ac' & Hac' & [Hreq _ _ (Hskew & _)]). rewrite Hac in Hac'. injection Hac' as <-.
  unfold from_config in Hstart. rewrite Hprod in Hstart. apply sbind_ok in Hstart as (f1 & [] & [= <- Henv] & Hs). apply map_err_ok in Henv.
  apply sbind_ok in Hs as (f2 & book & Hbook & Hs). apply smap_err_ok in Hbook. destruct (peer_book_load_run (sc_peers_path cfg) f) as [r1 E1].
  rewrite E1 in Hbook. injection Hbook as <- ->.
  apply sbind_ok in Hs as (f3 & keys & Hk & Hs). apply smap_err_ok in Hk.
  destruct (load_keys_run (sc_host_vault_dir cfg) (sc_host_vault_passphrase cfg) f) as [r2 E2]. rewrite E2 in Hk. injection Hk as <- ->.
  apply sbind_ok in Hs as (f4 & bo & Hv & Hs). apply smap_err_ok in Hv. destruct (projection_run (trust_cfg cfg) keys f) as [r3 E3].
  rewrite E3 in Hv. injection Hv as <- ->. destruct (projection_loads (trust_cfg cfg) keys f f bo path Hpath E3) as (b & -> & Hload).
  apply sbind_ok in Hs as (f5 & [] & [= <- _] & Hs). apply sbind_ok in Hs as (f6 & [] & [= <- _] & Hs).
  apply sbind_ok in Hs as (f7 & [] & [= <- _] & Hs). apply sbind_ok in Hs as (f8 & u & Hprov & Hs).
  assert (Hsame : f8 !! path = f !! path).
  { destruct (opt_enabled _); [|by injection Hprov as <-]. eapply provision_others; [exact Hprov|]. intros n. by apply Htemp. }
  apply sbind_ok in Hs as (f9 & [] & [= <- _] & Hs). apply sbind_ok in Hs as (f10 & st & [= <- Hst] & Hs). apply map_err_ok in Hst.
  apply sbind_ok in Hs as (f11 & [] & [= <- Hready] & Hs). apply sbind_ok in Hs as (f12 & ver & Hver & [= _ <- _]).
  apply from_signer_config_ok in Hver. rewrite Hac in Hver. destruct Hver as (alg & key & b2 & l2 & Hb2 & ->).
  pose proof (epoch_same (trust_cfg cfg) path f f8 b b2 Hpath Hload Hsame Hb2) as ->. split.
  - exists b. destruct (signer_trusted_aux io bl_peers_from_slice bl_bundle_from_slice bl_sha256 bl_json_to_vec bl_b64_decode bl_falcon_verify
      (trust_cfg cfg) keys f f b E3) as (Hq & _ & file & book' & Hfile & Hparse & Hpeers).
    constructor; cbn [sa_runtime_trust_bundle sa_production_hardening sa_verifier sa_peers option_map].
    + done.
    + done.
    + split; [done|]. by apply production_verifies.
    + eexists. split; [reflexivity|]. cbn. rewrite Haud. cbn. split_and!; done.
    + intros id p Hp. apply peers_of_listed in Hp as (q & Hq' & <- & ->). rewrite (book_same _ _ _ _ _ E1 Hfile Hparse) in Hq'.
      apply Hpeers in Hq' as (x & Hx & -> & Hne). by exists x.
  - exists st. split; [done|]. revert Hready. unfold enforce_wallet_multisig_ready. rewrite Hprod. cbn [orb].
    destruct (ms_multisig st), (ms_ready st); cbn; try done. unfold fail_if.
    destruct (_ || _ || _) eqn:Eb; [done|]. intros _. apply orb_false_iff in Eb as [[Et Eth]%orb_false_iff Elt]. split_and!; try done; lia.
Qed.
End start.

(** * A signer that starts

    The hardened configuration of [SignerConfigProps] with a vault, a trust
    bundle signed by both guards, its projection and a wallet that is ready. *)

#[local] Existing Instance plain_jwt.
#[local] Existing Instance plain_sql.
#[local] Existing Instance plain_lib.

Definition start_var (name : string) : option string :=
  if (name =? ENV_VERIFY)%string then Some "true"%string
  else if (name =? ENV_ORCH_CONFIG_PATH)%string then Some "orch.toml"%string
  else if (name =? ENV_BRIDGE_TOKEN_REF)%string then Some "vault:/vault/bridge"%string else None.
#[local] Instance start_env : AgentEnv := {|
  env_now := fun _ _ => 0; env_now_s := fun _ _ => 0; env_others := fun _ => []; env_others_limiter := fun _ l => l;
  env_var := start_var; env_file := fun _ => Ok (SecretFile true 384 (Ok (repeat_byte "b" 32)));
  wallet_open := fun _ => Ok tt; wallet_describe := fun _ _ => Err EmptyString; wallet_sign := fun _ _ => Err EmptyString;
  wallet_submit := fun _ _ => Err EmptyString; wallet_transfer := fun _ _ => Err EmptyString;
  orchestrator_process := fun _ _ => Err EmptyString; mailbox_push := fun _ _ => Err EmptyString; mailbox_pull := fun _ => Err EmptyString;
  mailbox_ack := fun _ _ => Err EmptyString; nxms_encrypt := fun _ _ _ _ _ _ _ _ _ => Err EmptyString; nxms_decrypt := fun _ _ _ _ _ _ _ _ => Err EmptyString |}.

Definition start_keys : Keys := MkKeys (repeat_byte "k" 64) (repeat_byte "p" 64) "ks" "ks".
Definition start_peer (id role key : string) : RuntimeTrustPeer := MkRuntimePeer id role (id +:+ ".onion") 443 (repeat_byte "p" 64) key.
Definition start_unsigned : RuntimeTrustBundle :=
  MkRuntimeBundle RUNTIME_TRUST_BUNDLE_SCHEMA_V1 "epoch-7"
    [start_peer "signer-a" "signer" "ks"; start_peer "guard-a" "ag-01" "ka"; start_peer "guard-b" "ag-02" "kb"]
    (MkIssuer "nxms-auth" "EDDSA" "-----BEGIN PUBLIC KEY-----") [].
Definition start_bundle : RuntimeTrustBundle := trust_signed "guard-b" "ag-02" "kb" (trust_signed "guard-a" "ag-01" "ka" start_unsigned).
Definition start_book : PeerBook := MkPeerBook (map book_peer (tail (rb_peers start_bundle))).

#[local] Instance start_lib : BootLib := {|
  bl_sodium_init := 0; bl_opslimit := 2; bl_memlimit := 67108864; bl_pwhash := fun pass salt _ _ => Some (pass +:+ salt);
  bl_aead_encrypt := fun m _ _ _ => Some (m +:+ repeat_byte "t" 16); bl_aead_decrypt := fun c _ _ _ => Some (stake (String.length c - 16) c);
  bl_b64_encode := fun s => s; bl_b64_decode := Some;
  bl_host_to_vec := hv_local_id; bl_host_from_slice := fun id => Some (MkHostVault HOST_VAULT_SCHEMA_V1 id NXMS_KEM_ID NXMS_SIG_ID start_keys);
  bl_issuer_to_vec := fun _ => EmptyString; bl_issuer_from_slice := fun _ => None;
  bl_identity_to_vec := hi_host_id; bl_identity_from_slice := fun _ => None;
  bl_issuer_bundle_to_vec := fun _ => EmptyString; bl_issuer_bundle_from_slice := fun _ => None;
  bl_bundle_to_vec := fun _ => "bundle"%string; bl_bundle_from_slice := fun s => if (s =? "bundle")%string then Some start_bundle else None;
  bl_peers_to_vec := fun _ => "peers"%string; bl_peers_from_slice := fun s => if (s =? "peers")%string then Some start_book else None;
  bl_sha256 := sha_32; bl_json_to_vec := fun _ => "json"%string;
  bl_falcon_sign := demo_falcon_sign; bl_falcon_verify := demo_falcon_verify;
  bl_ed25519_public := fun _ => None; bl_p256_public := fun _ => None;
|}.

Definition start_files : fs :=
  (store_host_vault 0 2 67108864 bl_pwhash bl_aead_encrypt good_io (fun s => s) 18 7 Some bl_host_to_vec "/vault" "0123456789abcdef" "signer-a"
     start_keys (repeat_byte "s" 16) (repeat_byte "n" 24)
     {[ "trust.json"%string := File true 420 "bundle"; "peers.json"%string := File true 420 "peers";
        "key.pem"%string := File true 420 "-----BEGIN PUBLIC KEY-----" ]}).1.
Definition start_answers : Answers := MkAnswers (Ok tt) (Ok tt) (Ok tt) (Ok tt) (Ok (MkMultisigStatus true true 2 3)).
Definition start_temp (n : nat) : string := "/tmp/nxms_signer_" +:+ dec (Z.of_nat n).
Definition start_key (_ : Algorithm) (pem : string) : option DecodingKey := Some pem.
Definition started := from_config start_key good_io (fun s => s) 420 (fun _ _ _ _ => Ok true) start_temp start_answers demo_normalized start_files.
Definition started_agent : option SignerAgent := match started.2 with Ok (a, _) => Some a | Err _ => None end.

Lemma hardened_agent_trusted_witness : exists a b, started_agent = Some a /\ trusted_agent demo_normalized b a.
Proof.
  destruct started as [f' [[a lim]|e]] eqn:E; [|vm_compute in E; discriminate E].
  destruct (hardened_agent_trusted start_key good_io (fun s => s) 420 (fun _ _ _ _ => Ok true) start_temp demo_url demo_env demo_files
    (fun _ => true) demo_signer_config demo_normalized start_answers a lim start_files f') as [(b & Hb) _].
  - vm_compute. reflexivity.
  - vm_compute. reflexivity.
  - intros n path Hp. vm_compute in Hp. injection Hp as <-. discriminate.
  - exact E.
  - exists a, b. split; [|exact Hb]. unfold started_agent. rewrite E. reflexivity.
Defined.
