(* ===== verification/SignerCli.v ===== *)
(** * The signer's command line

    The commands of [crates/nxms-signer/src/main.rs] that do more than call one
    modelled operation: activating a snapshot from signature files, and the
    evidence bundle of an escrow. *)

From S2P Require Import Prelude RustString Sql Json Wire Admission Snapshot ActionToken SignerDb SignerInv SignerProps AgentSupport.

Inductive CliError : Type := CliLoad (e : string) | CliSnapshot (e : SnapshotError) | CliDb (e : string) | CliAction | CliHex (e : AgentError).
Notation CLI := (M sdb CliError).

Definition parse_action (raw : string) : result CliError EscrowAction :=
  let v := to_ascii_lowercase (trim raw) in
  if (v =? "release")%string then Ok Release else if (v =? "refund")%string then Ok Refund else Err CliAction.

Section cli.
Context {ext : SignerExt}.
Context (sha3_256 sha256 : string -> string) (snapshot_to_vec : ContractSnapshot -> string) (json_to_vec : json -> string).
Context (b64_decode : string -> option string) (falcon_verify : string -> string -> string -> bool).
Local Notation hash := (canonical_hash_hex sha3_256 snapshot_to_vec).
Local Notation verify := (verify_snapshot_signature sha3_256 snapshot_to_vec b64_decode falcon_verify).

(** ** [snapshot activate] *)

Definition sig_row_of (sig : SnapshotSignature) : SnapshotSigRow :=
  SignerDb.MkSnapshotSig (ss_signer_id sig) (ss_sig_pk_b64 sig) (ss_sig_b64 sig) (ss_hash_hex sig) (ss_alg sig) (ss_created_at_unix_ms sig).
(** Each file is loaded, verified and stored before the next one. *)
Fixpoint store_signatures (snap : ContractSnapshot) (files : list (result string SnapshotSignature)) : CLI unit :=
  match files with
  | [] => sret tt
  | file :: rest =>
      let* sig := slift (map_err CliLoad file) in
      let* _ := slift (map_err CliSnapshot (verify snap sig)) in
      let* _ := smap_err CliDb (put_snapshot_signature_sync (sig_row_of sig)) in
      store_signatures snap rest
  end.
Definition snapshot_activate (now quorum : Z) (snap : result string ContractSnapshot) (files : list (result string SnapshotSignature)) : CLI string :=
  let* snap := slift (map_err CliLoad snap) in
  let hash_hex := hash snap in
  let* _ := smap_err CliDb (put_snapshot_pending_sync now (cs_escrow_id_hex snap) hash_hex (snapshot_to_vec snap)) in
  let* _ := store_signatures snap files in
  let* _ := smap_err CliDb (activate_snapshot_sync hash_hex quorum) in
  sret hash_hex.

(** ** [audit evidence-bundle] *)

Record EvidenceSectionHashes : Type := MkSectionHashes {
  eh_active_snapshot : option string; eh_sign_events : string; eh_pending : string; eh_audit_logs : string }.
Record EvidenceBundlePayload : Type := MkEvidencePayload {
  ep_version : string; ep_generated_at_ms : Z; ep_escrow_id_hex : string; ep_active_snapshot : option SnapshotRow;
  ep_sign_events : list SignEventAuditRow; ep_pending : list PendingTxSign; ep_audit_logs : list AuditLogRow;
  ep_section_hashes : EvidenceSectionHashes }.
Record EvidenceBundleEnvelope : Type := MkEvidenceEnvelope { ee_format : string; ee_bundle_hash_sha256 : string; ee_payload : EvidenceBundlePayload }.
(** [serde_json::to_value] of the sections and of the payload. *)
Context (snapshot_json : SnapshotRow -> json) (events_json : list SignEventAuditRow -> json) (pending_json : list PendingTxSign -> json)
  (audit_json : list AuditLogRow -> json) (payload_json : EvidenceBundlePayload -> json).
Local Notation sha256_for := (canonical_json_sha256_hex sha256 json_to_vec).

Definition evidence_bundle (now : Z) (escrow_id_hex : string) (audit_limit : Z) : CLI EvidenceBundleEnvelope :=
  let* escrow := slift (map_err CliHex (normalize_hex_exact escrow_id_hex 32 "escrow_id_hex")) in
  let* active_snapshot := smap_err CliDb (active_snapshot_for_escrow_sync escrow) in
  let* sign_events := smap_err CliDb (list_sign_events_for_escrow_sync escrow) in
  let* pending := smap_err CliDb (list_pending_for_escrow_sync escrow) in
  let* audit_logs := smap_err CliDb (list_audit_logs_for_escrow_sync escrow (Z.max audit_limit 1)) in
  let hashes := MkSectionHashes (option_map (fun s => sha256_for (snapshot_json s)) active_snapshot)
    (sha256_for (events_json sign_events)) (sha256_for (pending_json pending)) (sha256_for (audit_json audit_logs)) in
  let payload := MkEvidencePayload "nxms_evidence_bundle_v1" now escrow active_snapshot sign_events pending audit_logs hashes in
  sret (MkEvidenceEnvelope "nxms_evidence_envelope_v1" (sha256_for (payload_json payload)) payload).

(** ** What activation guarantees *)

(** The signature was checked with the key it names. *)
Definition row_verified (snap : ContractSnapshot) (r : SnapshotSigRow) : Prop :=
  sg_hash_hex r = hash snap /\ exists pk sig, b64_decode (sg_sig_pk_b64 r) = Some pk /\ b64_decode (sg_sig_b64 r) = Some sig
    /\ falcon_verify pk (snapshot_digest sha3_256 snapshot_to_vec snap) sig = true.
Definition sigs_verified (snap : ContractSnapshot) (d : sdb) : Prop :=
  forall r, r ∈ t_rows (snapshot_sigs d) -> sg_hash_hex (sx_sig r) = hash snap -> row_verified snap (sx_sig r).

Lemma verify_row snap sig : verify snap sig = Ok tt -> row_verified snap (sig_row_of sig).
Proof.
  unfold verify_snapshot_signature. intros H. rok.
  repeat match goal with K : negb _ = false |- _ => apply negb_false_iff in K end.
  split; [by symmetry; apply String.eqb_eq|]. by eexists _, _.
Qed.

Lemma put_signature_verified snap sig d d' :
  sigs_verified snap d -> row_verified snap sig -> put_snapshot_signature_sync sig d = (d', Ok tt) -> sigs_verified snap d'.
Proof.
  intros Hd Hs Hp. unfold put_snapshot_signature_sync in Hp. rewrite write_on_run in Hp.
  destruct (upsert_auto _ _ _ _ _ _) as [t|] eqn:Eu; [|done]. injection Hp as <-. apply upsert_auto_ok in Eu as [_ Eu].
  intros r Hr Hh. cbn in Hr. rewrite Eu in Hr. unfold upserted in Hr. destruct (existsb _ _).
  - apply elem_of_update in Hr as (x & Hx & ->). destruct (sig_same _ x); [exact Hs|by apply Hd].
  - apply elem_of_app in Hr as [Hr| ->%list_elem_of_singleton]; [by apply Hd|exact Hs].
Qed.

Lemma store_signatures_ok snap files : forall d d', signer_ok d -> sigs_verified snap d ->
  store_signatures snap files d = (d', Ok tt) -> signer_ok d' /\ sigs_verified snap d' /\ snapshots d' = snapshots d.
Proof.
  induction files as [|file rest IH]; intros d d' Hok Hv H; [by injection H as <-|]. cbn [store_signatures] in H.
  apply sbind_ok in H as (d1 & sig & [= <- _] & H). apply sbind_ok in H as (d2 & [] & [= <- Hsig] & H). apply map_err_ok in Hsig.
  apply sbind_ok in H as (d3 & [] & Hput & H). apply smap_err_ok in Hput.
  pose proof (put_signature_ok (sig_row_of sig) d Hok) as Hok3. rewrite Hput in Hok3.
  apply verify_row in Hsig. pose proof (put_signature_verified snap _ _ _ Hv Hsig Hput) as Hv3.
  destruct (IH d3 d' Hok3 Hv3 H) as (? & ? & ->). split_and!; try done.
  unfold put_snapshot_signature_sync in Hput. rewrite write_on_run in Hput. destruct (upsert_auto _ _ _ _ _ _); [|done]. by injection Hput as <-.
Qed.

Lemma find_activated h row d : find_snapshot h d = Some row ->
  find_snapshot h (set_snapshots (activated row (snapshots d)) d) = Some (set_status "active" row).
Proof.
  unfold find_snapshot. cbn. rewrite activated_map. induction (snapshots d) as [|r l IH]; [done|]. cbn.
  rewrite (proj1 (activated_row_fields row r)). destruct (sp_hash_hex r =? h)%string eqn:E; [|exact IH].
  intros [= <-]. unfold activated_row. by rewrite String.eqb_refl.
Qed.

(** A snapshot that the command activates has its signatures: at least
    [quorum] different signers are on record for its hash, and every signature on
    record was verified over the snapshot with the key it names, provided the
    ones stored before were. *)
Theorem activation_verified now quorum snap files d d' h
    (Hok : signer_ok d) (Hold : sigs_verified snap d) (Hrun : snapshot_activate now quorum (Ok snap) files d = (d', Ok h)) :
  h = hash snap /\ sigs_verified snap d' /\ NoDup (signers_of h d') /\ quorum <= Z.of_nat (length (signers_of h d'))
  /\ exists row, find_snapshot h d' = Some row /\ sp_status row = "active"%string.
Proof.
  unfold snapshot_activate in Hrun. apply sbind_ok in Hrun as (d1 & s & [= <- <-] & H). cbv zeta in H.
  apply sbind_ok in H as (d2 & [] & Hput & H). apply smap_err_ok in Hput. apply sbind_ok in H as (d3 & [] & Hstore & H).
  apply sbind_ok in H as (d4 & [] & Hact & [= <- <-]). apply smap_err_ok in Hact.
  pose proof (put_snapshot_ok now (cs_escrow_id_hex snap) (hash snap) (snapshot_to_vec snap) d Hok) as Hok2. rewrite Hput in Hok2.
  assert (Hv2 : sigs_verified snap d2).
  { unfold put_snapshot_pending_sync in Hput. rewrite write_on_run in Hput. destruct (upsert_row _ _ _ _ _ _); [|done]. by injection Hput as <-. }
  destruct (store_signatures_ok snap files d2 d3 Hok2 Hv2 Hstore) as (Hok3 & Hv3 & _).
  destruct (activate_run (hash snap) quorum d3) as [err Hrun]. rewrite Hact in Hrun.
  destruct (Z.leb_spec quorum (sig_count (hash snap) d3)) as [Hq|]; [|done].
  destruct (find_snapshot (hash snap) d3) as [row|] eqn:Ef; [|done]. injection Hrun as ->.
  split_and!; [done|exact Hv3|by apply (signers_distinct _ d3)|by rewrite <- (signers_count _ d3) in Hq|].
  eexists. split; [by apply find_activated|done].
Qed.
End cli.

(** ** Instances *)

#[local] Instance cli_sql : SignerExt := {| sql_text := fun _ => "sql"%string |}.
Definition cli_sha (_ : string) : string := repeat_byte "h" 32.
Definition cli_text (_ : ContractSnapshot) : string := "{}".
(** A signature verifies with the key that made it. *)
Definition cli_verify (pk _m sig : string) : bool := (pk =? sig)%string.
Definition named_signature (name key : string) : result string SnapshotSignature :=
  Ok (Snapshot.MkSnapshotSig name key key (canonical_hash_hex cli_sha cli_text demo_snapshot) "Falcon-1024-CT" 1).
Definition cli_activate (files : list (result string SnapshotSignature)) : sdb * result CliError string :=
  snapshot_activate cli_sha cli_text Some cli_verify 1 2 (Ok demo_snapshot) files empty_sdb.
Definition cli_hash : string := canonical_hash_hex cli_sha cli_text demo_snapshot.

Lemma activation_verified_witness :
  let d' := (cli_activate [named_signature "buyer" "kb"; named_signature "seller" "ks"]).1 in
  2 <= Z.of_nat (length (signers_of cli_hash d')).
Proof.
  intros d'. refine (proj1 (proj2 (proj2 (proj2 (activation_verified cli_sha cli_text Some cli_verify 1 2 demo_snapshot
    [named_signature "buyer" "kb"; named_signature "seller" "ks"] empty_sdb d' cli_hash empty_signer_ok _ _))))).
  - intros r Hr. vm_compute in Hr. inversion Hr.
  - vm_compute. reflexivity.
Defined.

(** The name of a signer is neither signed nor compared with the key: one
    signature under two names meets a quorum of two. *)
Lemma one_signature_meets_quorum :
  (cli_activate [named_signature "buyer" "kb"; named_signature "seller" "kb"]).2 = Ok cli_hash.
Proof. vm_compute. reflexivity. Qed.
Lemma name_not_verified sha3 to_vec dec fv snap sig name :
  verify_snapshot_signature sha3 to_vec dec fv snap
    (Snapshot.MkSnapshotSig name (ss_sig_pk_b64 sig) (ss_sig_b64 sig) (ss_hash_hex sig) (ss_alg sig) (ss_created_at_unix_ms sig))
  = verify_snapshot_signature sha3 to_vec dec fv snap sig.
Proof. done. Qed.
