(* ===== verification/Digest.v ===== *)
(** * HTTP digest authentication

    The parts of [crates/nxms-signer/src/wallet_rpc.rs] and
    [crates/nxms-monero-core/src/rpc/wallet_rpc.rs] that answer the digest
    challenge of [monero-wallet-rpc]: reading the attributes of a
    [WWW-Authenticate] header and writing those of an [Authorization] header.
    The two files share these functions verbatim; where they differ each has
    its own definition ([WalletRpc], [CoreRpc]).  MD5 is a parameter and the
    random bytes of the client nonce are an argument. *)

From S2P Require Import Prelude RustString Bytes.

Definition DQ : ascii := Ascii.ascii_of_N 34.
Definition BACKSLASH : ascii := Ascii.ascii_of_N 92.

Record DigestChallenge : Type := MkChallenge {
  dc_realm : string; dc_nonce : string; dc_qop : option string; dc_algorithm : string; dc_opaque : option string; dc_stale : bool }.

(** ** Text *)

(** [s.replace(c, with)] for one byte. *)
Fixpoint replace_char (c : ascii) (by_ : string) (s : string) : string :=
  match s with
  | EmptyString => EmptyString
  | String d s' => (if (d =? c)%char then by_ else String d EmptyString) +:+ replace_char c by_ s'
  end.
(** [s.replace("ab", "c")]: matches are found from the left and do not overlap. *)
Fixpoint replace_pair (a b c : ascii) (s : string) : string :=
  match s with
  | String x ((String y s'') as s') =>
      if (x =? a)%char && (y =? b)%char then String c (replace_pair a b c s'') else String x (replace_pair a b c s')
  | _ => s
  end.
(** [s.split(c)] *)
Fixpoint split_char (c : ascii) (s : string) : list string :=
  match s with
  | EmptyString => [EmptyString]
  | String d s' =>
      if (d =? c)%char then EmptyString :: split_char c s' else
      match split_char c s' with h :: t => String d h :: t | [] => [String d EmptyString] end
  end.
Definition snoc (s : string) (c : ascii) : string := s +:+ String c EmptyString.
(** [&s[1..s.len() - 1]] of a string of at least two bytes. *)
Definition inner (s : string) : string := String.substring 1 (String.length s - 2) s.

Definition escape_digest_value (value : string) : string :=
  replace_char DQ (String BACKSLASH (String DQ EmptyString)) (replace_char BACKSLASH (String BACKSLASH (String BACKSLASH EmptyString)) value).
Definition unescape (value : string) : string := replace_pair BACKSLASH BACKSLASH BACKSLASH (replace_pair BACKSLASH DQ DQ value).

(** ** Attributes *)

Definition starts_with_char (c : ascii) (s : string) : bool := match s with String d _ => (d =? c)%char | EmptyString => false end.
Definition unquote (value : string) : string :=
  if starts_with_char DQ value && ends_with (String DQ EmptyString) value && (2 <=? len value) then unescape (inner value) else value.
Definition push_part (out : gmap string string) (raw_part : string) : gmap string string :=
  let p := trim raw_part in
  if is_empty p then out else
  match split_once "=" p with
  | Some (k, v) => <[to_ascii_lowercase (trim k) := unquote (trim v)]> out
  | None => out
  end.
Fixpoint scan_attributes (escaped in_quotes : bool) (part : string) (out : gmap string string) (input : string) : gmap string string * string :=
  match input with
  | EmptyString => (out, part)
  | String ch rest =>
      if escaped then scan_attributes false in_quotes (snoc part ch) out rest
      else if (ch =? BACKSLASH)%char then scan_attributes true in_quotes (snoc part ch) out rest
      else if (ch =? DQ)%char then scan_attributes false (negb in_quotes) (snoc part ch) out rest
      else if (ch =? ",")%char && negb in_quotes then scan_attributes false in_quotes EmptyString (push_part out part) rest
      else scan_attributes false in_quotes (snoc part ch) out rest
  end.
Definition parse_digest_attributes (input : string) : gmap string string :=
  let '(out, part) := scan_attributes false false EmptyString ∅ input in
  if is_empty (trim part) then out else push_part out part.

Definition choose_qop (raw : string) : option string :=
  let tokens := split_char "," raw in
  if existsb (fun token => eq_ignore_ascii_case (trim token) "auth") tokens then Some "auth"%string
  else match tokens with
       | first :: _ => if is_empty (trim first) then None else Some (trim first)
       | [] => None
       end.

(** [DigestChallenge::parse_header]. *)
Definition challenge_of_attributes (attrs : gmap string string) : option DigestChallenge :=
  realm ← attrs !! "realm"%string;
  nonce ← attrs !! "nonce"%string;
  Some (MkChallenge realm nonce (attrs !! "qop"%string ≫= choose_qop) (default "MD5"%string (attrs !! "algorithm"%string))
          (attrs !! "opaque"%string) (match attrs !! "stale"%string with Some v => eq_ignore_ascii_case v "true" | None => false end)).
Definition parse_header (raw : string) : option DigestChallenge :=
  let trimmed := trim raw in
  if negb (String.prefix "digest " (to_ascii_lowercase trimmed)) then None
  else challenge_of_attributes (parse_digest_attributes (String.substring 7 (String.length trimmed - 7) trimmed)).
(** [HeaderValue::to_str] fails on a byte that is no visible ASCII ([None]). *)
Fixpoint from_headers (parse : string -> option DigestChallenge) (www_authenticate : list (option string)) : option DigestChallenge :=
  match www_authenticate with
  | [] => None
  | None :: l => from_headers parse l
  | Some raw :: l => match parse raw with Some c => Some c | None => from_headers parse l end
  end.

(** ** The answer *)

Section authorization.
Context (md5 : string -> string).

Definition md5_hex (data : string) : string := hex_encode (md5 data).
Definition random_cnonce (os_rng : string) : string := hex_encode os_rng.
Definition quoted (key value : string) : string := key +:+ "=" +:+ String DQ (value +:+ String DQ EmptyString).

Definition digest_ha1 (c : DigestChallenge) (username password cnonce : string) : string :=
  let ha1_base := md5_hex (username +:+ ":" +:+ dc_realm c +:+ ":" +:+ password) in
  if (to_ascii_uppercase (dc_algorithm c) =? "MD5-SESS")%string then md5_hex (ha1_base +:+ ":" +:+ dc_nonce c +:+ ":" +:+ cnonce)
  else ha1_base.
Definition digest_response (c : DigestChallenge) (method uri username password nc cnonce : string) : string :=
  let ha1 := digest_ha1 c username password cnonce in
  let ha2 := md5_hex (method +:+ ":" +:+ uri) in
  match dc_qop c with
  | Some qop => md5_hex (ha1 +:+ ":" +:+ dc_nonce c +:+ ":" +:+ nc +:+ ":" +:+ cnonce +:+ ":" +:+ qop +:+ ":" +:+ ha2)
  | None => md5_hex (ha1 +:+ ":" +:+ dc_nonce c +:+ ":" +:+ ha2)
  end.
Definition build_digest_authorization (c : DigestChallenge) (method uri username password nc cnonce : string) : string :=
  let parts :=
    [quoted "username" (escape_digest_value username);
     quoted "realm" (escape_digest_value (dc_realm c));
     quoted "nonce" (escape_digest_value (dc_nonce c));
     quoted "uri" (escape_digest_value uri);
     quoted "response" (digest_response c method uri username password nc cnonce);
     ("algorithm=" +:+ to_ascii_uppercase (dc_algorithm c))%string]
    ++ match dc_opaque c with Some opaque => [quoted "opaque" (escape_digest_value opaque)] | None => [] end
    ++ match dc_qop c with
       | Some qop => ["qop=" +:+ qop; "nc=" +:+ nc; quoted "cnonce" (escape_digest_value cnonce)]%string
       | None => []
       end in
  "Digest " +:+ String.concat ", " parts.
End authorization.

(** ** Escaping *)

Definition escape_char (c : ascii) : string :=
  if (c =? BACKSLASH)%char || (c =? DQ)%char then String BACKSLASH (String c EmptyString) else String c EmptyString.

Lemma replace_char_app c r s t : replace_char c r (s +:+ t) = replace_char c r s +:+ replace_char c r t.
Proof. induction s as [|d s IH]; [done|]. rewrite sapp_cons. simpl. by rewrite IH, sapp_assoc. Qed.

Lemma escape_cons c v : escape_digest_value (String c v) = escape_char c +:+ escape_digest_value v.
Proof.
  unfold escape_digest_value, escape_char. simpl.
  destruct (Ascii.eqb_spec c BACKSLASH) as [->|N1]; rewrite replace_char_app; simpl; [done|].
  by destruct (Ascii.eqb_spec c DQ) as [->|N2].
Qed.

Definition escape_backslash (c : ascii) : string :=
  if (c =? BACKSLASH)%char then String BACKSLASH (String c EmptyString) else String c EmptyString.
Fixpoint flat (f : ascii -> string) (s : string) : string :=
  match s with EmptyString => EmptyString | String c s' => f c +:+ flat f s' end.

Lemma escape_flat v : escape_digest_value v = flat escape_char v.
Proof. induction v as [|c v IH]; [done|]. by rewrite escape_cons, IH. Qed.

Lemma replace_skip a b c x s : x <> a -> replace_pair a b c (String x s) = String x (replace_pair a b c s).
Proof. intros N. simpl. destruct s; [done|]. by rewrite (proj2 (Ascii.eqb_neq x a) N). Qed.

Lemma replace_other a b c x y s :
  y <> b -> replace_pair a b c (String x (String y s)) = String x (replace_pair a b c (String y s)).
Proof. intros N. simpl. by rewrite (proj2 (Ascii.eqb_neq y b) N), andb_false_r. Qed.

Lemma unescape_quotes v : replace_pair BACKSLASH DQ DQ (flat escape_char v) = flat escape_backslash v.
Proof.
  assert (forall x s, x <> DQ -> replace_pair BACKSLASH DQ DQ (String BACKSLASH (String x s)) = String BACKSLASH (replace_pair BACKSLASH DQ DQ (String x s))) as Hbs.
  { intros. by apply replace_other. }
  induction v as [|c v IH]; [done|]. simpl flat. unfold escape_char at 1, escape_backslash at 1.
  destruct (Ascii.eqb_spec c BACKSLASH) as [->|N1]; [|destruct (Ascii.eqb_spec c DQ) as [->|N2]]; cbn [orb].
  - rewrite !sapp_cons. change (EmptyString +:+ ?x) with x. rewrite Hbs by done. f_equal.
    destruct v as [|d v]; [done|]. rewrite <- IH. simpl flat. unfold escape_char.
    destruct ((d =? BACKSLASH)%char || (d =? DQ)%char) eqn:E; rewrite !sapp_cons; [done|].
    apply orb_false_iff in E as [E1 E2]. apply replace_other. by apply Ascii.eqb_neq.
  - rewrite !sapp_cons. change (EmptyString +:+ ?x) with x. rewrite <- IH. done.
  - rewrite !sapp_cons. change (EmptyString +:+ ?x) with x. rewrite replace_skip by done. by rewrite IH.
Qed.

(** Unescaping gives back any text that was escaped. *)
Lemma unescape_escape v : unescape (escape_digest_value v) = v.
Proof.
  unfold unescape. rewrite escape_flat, unescape_quotes. induction v as [|c v IH]; [done|]. simpl flat.
  unfold escape_backslash at 1. destruct (Ascii.eqb_spec c BACKSLASH) as [->|N]; rewrite !sapp_cons; change (EmptyString +:+ ?x) with x.
  - simpl. by rewrite IH.
  - rewrite replace_skip by done. by rewrite IH.
Qed.

(** ** Scanning *)

Definition plain (c : ascii) : bool := negb ((c =? BACKSLASH)%char || (c =? DQ)%char || (c =? ",")%char).

Lemma snoc_app s c t : snoc s c +:+ t = s +:+ String c t.
Proof. unfold snoc. by rewrite sapp_assoc. Qed.

Lemma scan_plain t q part out rest :
  sall plain t = true -> scan_attributes false q part out (t +:+ rest) = scan_attributes false q (part +:+ t) out rest.
Proof.
  revert part. induction t as [|c t IH]; intros part; [by rewrite sapp_nil_r|].
  simpl sall. rewrite andb_true_iff. unfold plain at 1. rewrite negb_true_iff, !orb_false_iff. intros [[[E1 E2] E3] Ht].
  rewrite sapp_cons. simpl scan_attributes. rewrite E1, E2, E3. simpl. rewrite IH by done. by rewrite snoc_app.
Qed.

Lemma scan_escaped v part out rest :
  scan_attributes false true part out (escape_digest_value v +:+ rest)
  = scan_attributes false true (part +:+ escape_digest_value v) out rest.
Proof.
  revert part. induction v as [|c v IH]; intros part; [by rewrite sapp_nil_r|].
  rewrite escape_cons, sapp_assoc. unfold escape_char.
  destruct (Ascii.eqb_spec c BACKSLASH) as [->|N1]; [|destruct (Ascii.eqb_spec c DQ) as [->|N2]];
    cbn [orb]; rewrite !sapp_cons; change (EmptyString +:+ ?x) with x.
  1-2: change (scan_attributes false true part out (String BACKSLASH (String ?x ?s)))
         with (scan_attributes false true (snoc (snoc part BACKSLASH) x) out s); rewrite IH; by rewrite !snoc_app.
  simpl scan_attributes. rewrite (proj2 (Ascii.eqb_neq _ _) N1), (proj2 (Ascii.eqb_neq _ _) N2), andb_false_r.
  rewrite IH. by rewrite snoc_app.
Qed.

(** ** Printed attributes *)

Lemma trim_space s : trim (String " " s) = trim s.
Proof. reflexivity. Qed.

Lemma trim_tight s c m x d :
  s = String c m -> s = x +:+ String d EmptyString -> is_graphic c = true -> is_graphic d = true -> trim s = s.
Proof.
  intros E1 E2 Hc Hd. unfold trim, trim_start_bytes, trim_end_bytes.
  rewrite (strip_ws_id ws2 ws3).
  - rewrite strip_ws_id; [by rewrite rev_involutive, of_bytes_of|].
    rewrite E2, bytes_app, rev_app_distr. simpl. revert Hd. unfold is_graphic, in_range, ws1, in_range, ws2, ws3, in_range.
    intros. destruct (rev (bytes_of x)) as [|a [|b l]]; lia.
  - rewrite E1. simpl. revert Hc. unfold is_graphic, in_range, ws1, in_range, ws2, ws3.
    intros. change (String.list_ascii_of_string m) with (bytes_of m). destruct (bytes_of m) as [|a [|b l]]; lia.
Qed.

(** The text of one attribute: its value quoted, or bare. *)
Inductive attribute : Type :=
| Quoted (key value : string)
| Bare (key value : string).
Definition attr_key (a : attribute) : string := match a with Quoted k _ | Bare k _ => k end.
Definition attr_value (a : attribute) : string := match a with Quoted _ v | Bare _ v => v end.
Definition print_attr (a : attribute) : string :=
  match a with Quoted k v => quoted k (escape_digest_value v) | Bare k v => k +:+ "=" +:+ v end.

(** Keys are lower-case words; a bare value holds none of the bytes that structure the header. *)
Definition key_char (c : ascii) : bool := is_ascii_lower c.
Definition token_char (c : ascii) : bool := is_graphic c && plain c.
Definition attr_ok (a : attribute) : Prop :=
  sall key_char (attr_key a) = true /\ is_empty (attr_key a) = false
  /\ match a with Bare _ v => sall token_char v = true | Quoted _ _ => True end.

Lemma token_plain : forall c, token_char c = true -> plain c = true.
Proof. unfold token_char. intros c H. by apply andb_true_iff in H as [_ H]. Qed.
Lemma token_graphic : forall c, token_char c = true -> is_graphic c = true.
Proof. unfold token_char. intros c H. by apply andb_true_iff in H as [H _]. Qed.
Lemma key_token : forall c, key_char c = true -> token_char c && negb (c =? "=")%char && (ascii_lower c =? c)%char = true.
Proof. byte_impl. Qed.
Lemma key_plain k : sall key_char k = true -> sall plain k = true.
Proof. apply sall_impl. intros c H. apply key_token in H. apply token_plain. by destruct (token_char c). Qed.
Lemma key_graphic k : sall key_char k = true -> sall is_graphic k = true.
Proof. apply sall_impl. intros c H. apply key_token in H. apply token_graphic. by destruct (token_char c). Qed.
Lemma key_free k : sall key_char k = true -> free_of "=" k.
Proof. apply sall_impl. intros c H. apply key_token in H. by destruct (c =? "=")%char; rewrite ?andb_false_r in H. Qed.
Lemma key_lower k : sall key_char k = true -> to_ascii_lowercase k = k.
Proof.
  unfold to_ascii_lowercase. induction k as [|c k IH]; [done|]. simpl. rewrite andb_true_iff. intros [Hc Hk].
  apply key_token in Hc. rewrite IH by done. f_equal. destruct (Ascii.eqb_spec (ascii_lower c) c); [done|]. by rewrite andb_false_r in Hc.
Qed.

Definition value_text (a : attribute) : string :=
  match a with Quoted _ v => String DQ (escape_digest_value v +:+ String DQ EmptyString) | Bare _ v => v end.

Lemma print_attr_eq a : print_attr a = attr_key a +:+ String "=" (value_text a).
Proof. by destruct a. Qed.

Lemma last_char s : s <> EmptyString -> exists x d, s = x +:+ String d EmptyString.
Proof.
  induction s as [|c s IH]; [done|]. intros _. destruct s as [|e s]; [by exists EmptyString, c|].
  destruct IH as (x & d & E); [done|]. exists (String c x), d. by rewrite sapp_cons, <- E.
Qed.

Lemma graphic_last s x d : sall is_graphic s = true -> s = x +:+ String d EmptyString -> is_graphic d = true.
Proof. intros H ->. rewrite sall_app in H. apply andb_true_iff in H as [_ H]. simpl in H. by apply andb_true_iff in H as [H _]. Qed.

(** The text of an attribute begins and ends with a printable byte. *)
Lemma print_tight a : attr_ok a -> trim (print_attr a) = print_attr a /\ is_empty (print_attr a) = false.
Proof.
  intros (Hk & Hne & Hv). rewrite print_attr_eq. destruct (attr_key a) as [|c k] eqn:Ek; [done|]. split; [|done].
  assert (exists x d, String "=" (value_text a) = x +:+ String d EmptyString /\ is_graphic d = true) as (x & d & E & Hd).
  { destruct a as [k' v|k' v]; simpl.
    - exists (String "=" (String DQ (escape_digest_value v))), DQ. split; [by rewrite !sapp_cons|done].
    - destruct (last_char (String "=" v)) as (x & d & E); [done|]. exists x, d. split; [done|].
      apply (graphic_last (String "=" v) x); [|done]. simpl. apply (sall_impl token_char); [apply token_graphic|done]. }
  apply (trim_tight _ c (k +:+ String "=" (value_text a)) (String c k +:+ x) d); [done| |by apply key_graphic, andb_true_iff in Hk as []|done].
  by rewrite E, sapp_assoc.
Qed.

Lemma inner_quoted s : inner (String DQ (s +:+ String DQ EmptyString)) = s.
Proof.
  unfold inner. simpl String.length. rewrite length_sapp. simpl String.length. simpl String.substring.
  replace (String.length s + 1 - 1)%nat with (String.length s) by lia.
  induction s as [|c s IH]; [done|]. simpl. by rewrite IH.
Qed.

Lemma value_read a : attr_ok a -> unquote (trim (value_text a)) = attr_value a.
Proof.
  intros (_ & _ & Hv). destruct a as [k v|k v]; simpl in *.
  - rewrite (trim_tight _ DQ (escape_digest_value v +:+ String DQ EmptyString) (String DQ (escape_digest_value v)) DQ) by done.
    unfold unquote. simpl starts_with_char.
    change (String DQ (escape_digest_value v +:+ String DQ EmptyString)) with (String DQ (escape_digest_value v) +:+ String DQ EmptyString) at 1.
    rewrite ends_with_app. replace (2 <=? _) with true.
    + simpl. by rewrite inner_quoted, unescape_escape.
    + symmetry. apply Z.leb_le. unfold len. simpl String.length. rewrite length_sapp. simpl. lia.
  - rewrite trim_graphic by (by apply (sall_impl token_char); [apply token_graphic|]).
    unfold unquote. destruct v as [|c v]; [done|]. simpl in *. apply andb_true_iff in Hv as [Hc _].
    apply token_plain in Hc. unfold plain in Hc. by destruct (c =? DQ)%char; rewrite ?orb_true_r in Hc.
Qed.

Lemma push_print a out : attr_ok a -> push_part out (print_attr a) = <[attr_key a := attr_value a]> out.
Proof.
  intros Ha. unfold push_part. destruct (print_tight a Ha) as [-> ->]. rewrite print_attr_eq.
  pose proof Ha as (Hk & Hne & _). rewrite split_once_app by by apply key_free.
  rewrite trim_graphic by by apply key_graphic. by rewrite key_lower, value_read.
Qed.

Lemma push_print_space a out : attr_ok a -> push_part out (String " " (print_attr a)) = <[attr_key a := attr_value a]> out.
Proof. intros Ha. rewrite <- push_print by done. unfold push_part. by rewrite trim_space. Qed.

(** Outside quotes an attribute is read to its end. *)
Lemma scan_print a part out rest : attr_ok a ->
  scan_attributes false false part out (print_attr a +:+ rest) = scan_attributes false false (part +:+ print_attr a) out rest.
Proof.
  intros (Hk & Hne & Hv). rewrite print_attr_eq, sapp_assoc, scan_plain by by apply key_plain.
  rewrite sapp_cons. change (String "=" (value_text a +:+ rest)) with (String "=" EmptyString +:+ (value_text a +:+ rest)).
  rewrite scan_plain by done. destruct a as [k v|k v]; simpl value_text.
  - rewrite sapp_cons. simpl scan_attributes at 1. rewrite !sapp_assoc, scan_escaped.
    change (String DQ EmptyString +:+ rest) with (String DQ rest). simpl scan_attributes at 1. f_equal.
    unfold snoc. by rewrite !sapp_assoc.
  - rewrite scan_plain by (by apply (sall_impl token_char); [apply token_plain|]). f_equal. by rewrite !sapp_assoc.
Qed.

Definition attributes_of (l : list attribute) : gmap string string := foldl (fun m a => <[attr_key a := attr_value a]> m) ∅ l.

Lemma finish_scan a pre out : attr_ok a -> pre = EmptyString \/ pre = String " " EmptyString ->
  (let '(out, part) := scan_attributes false false pre out (print_attr a) in if is_empty (trim part) then out else push_part out part)
  = <[attr_key a := attr_value a]> out.
Proof.
  intros Ha Hp. rewrite <- (sapp_nil_r (print_attr a)), scan_print by done. simpl.
  destruct Hp as [->| ->]; [change (EmptyString +:+ ?x) with x|change (String " " EmptyString +:+ ?x) with (String " " x); rewrite trim_space];
    destruct (print_tight a Ha) as [E1 E2]; rewrite E1, E2; [by apply push_print|by apply push_print_space].
Qed.

Lemma scan_printed l a pre out : Forall attr_ok (a :: l) -> pre = EmptyString \/ pre = String " " EmptyString ->
  (let '(out, part) := scan_attributes false false pre out (String.concat ", " (map print_attr (a :: l))) in
   if is_empty (trim part) then out else push_part out part)
  = foldl (fun m a => <[attr_key a := attr_value a]> m) out (a :: l).
Proof.
  revert a pre out. induction l as [|b l IH]; intros a pre out Hl Hp; apply Forall_cons in Hl as [Ha Hl]; [by apply finish_scan|].
  change (String.concat ", " (map print_attr (a :: b :: l)))
    with (print_attr a +:+ String "," (String " " (String.concat ", " (map print_attr (b :: l))))).
  rewrite scan_print by done.
  change (scan_attributes false false ?p ?o (String "," (String " " ?t)))
    with (scan_attributes false false (String " " EmptyString) (push_part o p) t).
  rewrite IH by auto. simpl foldl. f_equal. f_equal.
  destruct Hp as [->| ->]; [by apply push_print|by apply push_print_space].
Qed.

Lemma parse_printed l : Forall attr_ok l -> parse_digest_attributes (String.concat ", " (map print_attr l)) = attributes_of l.
Proof. intros Hl. destruct l as [|a l]; [done|]. apply scan_printed; auto. Qed.

(** ** The challenge and its answer read back *)

Definition opt_attr (f : string -> attribute) (o : option string) : list attribute := match o with Some v => [f v] | None => [] end.

Definition challenge_attributes (c : DigestChallenge) : list attribute :=
  [Quoted "realm" (dc_realm c); Quoted "nonce" (dc_nonce c)] ++ opt_attr (Quoted "qop") (dc_qop c)
  ++ [Bare "algorithm" (dc_algorithm c)] ++ opt_attr (Quoted "opaque") (dc_opaque c)
  ++ [Bare "stale" (if dc_stale c then "true" else "false")]%string.
Definition print_challenge (c : DigestChallenge) : string := "Digest " +:+ String.concat ", " (map print_attr (challenge_attributes c)).

Definition authorization_attributes (md5 : string -> string) (c : DigestChallenge) (method uri username password nc cnonce : string) : list attribute :=
  [Quoted "username" username; Quoted "realm" (dc_realm c); Quoted "nonce" (dc_nonce c); Quoted "uri" uri;
   Quoted "response" (digest_response md5 c method uri username password nc cnonce);
   Bare "algorithm" (to_ascii_uppercase (dc_algorithm c))]
  ++ opt_attr (Quoted "opaque") (dc_opaque c)
  ++ match dc_qop c with Some qop => [Bare "qop" qop; Bare "nc" nc; Quoted "cnonce" cnonce] | None => [] end.

Lemma escape_plain v : sall plain v = true -> escape_digest_value v = v.
Proof.
  induction v as [|c v IH]; [done|]. simpl. rewrite andb_true_iff. intros [Hc Hv]. rewrite escape_cons, IH by done.
  unfold plain in Hc. unfold escape_char. apply negb_true_iff, orb_false_iff in Hc as [Hc _]. by rewrite Hc.
Qed.
Lemma lower_hex_plain : forall c, is_lower_hex c = true -> token_char c && plain c = true.
Proof. byte_impl. Qed.
Lemma hex_plain s : sall plain (hex_encode s) = true.
Proof. apply (sall_impl is_lower_hex); [|apply hex_encode_lower]. intros c H. by apply lower_hex_plain, andb_true_iff in H as []. Qed.
Lemma hex_token s : sall token_char (hex_encode s) = true.
Proof. apply (sall_impl is_lower_hex); [|apply hex_encode_lower]. intros c H. by apply lower_hex_plain, andb_true_iff in H as []. Qed.

Lemma response_plain md5 c m u n p nc cn : sall plain (digest_response md5 c m u n p nc cn) = true.
Proof. unfold digest_response. case_match; apply hex_plain. Qed.

Lemma authorization_printed md5 c m u n p nc cn :
  build_digest_authorization md5 c m u n p nc cn
  = "Digest " +:+ String.concat ", " (map print_attr (authorization_attributes md5 c m u n p nc cn)).
Proof.
  unfold build_digest_authorization, authorization_attributes. rewrite !map_app. do 2 f_equal.
  f_equal; [simpl|by destruct (dc_opaque c), (dc_qop c)].
  by rewrite (escape_plain (digest_response _ _ _ _ _ _ _ _)) by apply response_plain.
Qed.

(** A challenge whose unquoted fields are tokens. *)
Definition tokens_ok (c : DigestChallenge) : Prop :=
  sall token_char (to_ascii_uppercase (dc_algorithm c)) = true
  /\ match dc_qop c with Some q => sall token_char q = true | None => True end.

Lemma authorization_attributes_ok md5 c m u n p nc cn :
  tokens_ok c -> sall token_char nc = true -> Forall attr_ok (authorization_attributes md5 c m u n p nc cn).
Proof.
  intros [Ha Hq] Hn. unfold authorization_attributes, opt_attr.
  destruct (dc_opaque c), (dc_qop c); repeat constructor; done.
Qed.

Lemma strip_digest t : strip_prefix "Digest " ("Digest " +:+ t) = Some t.
Proof. apply strip_prefix_app. Qed.

(** What the answer says, attribute by attribute. *)
Lemma authorization_read_aux md5 c m u n p nc cn :
  tokens_ok c -> sall token_char nc = true ->
  exists t, strip_prefix "Digest " (build_digest_authorization md5 c m u n p nc cn) = Some t
  /\ parse_digest_attributes t = attributes_of (authorization_attributes md5 c m u n p nc cn).
Proof.
  intros Hc Hn. rewrite authorization_printed. eexists. split; [apply strip_digest|].
  by apply parse_printed, authorization_attributes_ok.
Qed.

Lemma challenge_attributes_ok c : sall token_char (dc_algorithm c) = true -> Forall attr_ok (challenge_attributes c).
Proof.
  intros Ha. unfold challenge_attributes, opt_attr. destruct (dc_opaque c), (dc_qop c), (dc_stale c); repeat constructor; done.
Qed.

Lemma challenge_tight c : sall token_char (dc_algorithm c) = true -> trim (print_challenge c) = print_challenge c.
Proof.
  intros Ha. unfold print_challenge, challenge_attributes.
  set (w := (if dc_stale c then "true" else "false")%string).
  assert (exists x, map print_attr (([Quoted "realm" (dc_realm c); Quoted "nonce" (dc_nonce c)] ++ opt_attr (Quoted "qop") (dc_qop c)
    ++ [Bare "algorithm" (dc_algorithm c)] ++ opt_attr (Quoted "opaque") (dc_opaque c) ++ [Bare "stale" w])) = x ++ [print_attr (Bare "stale" w)]) as [x ->].
  { eexists. by rewrite !app_assoc, map_app. }
  assert (exists y, String.concat ", " (x ++ [print_attr (Bare "stale" w)]) = y +:+ print_attr (Bare "stale" w)) as [y ->].
  { clear. induction x as [|a x [y IH]]; [by exists EmptyString|]. exists (a +:+ ", " +:+ y).
    rewrite !sapp_assoc, <- IH. destruct x; done. }
  assert (exists z, "Digest " +:+ y +:+ print_attr (Bare "stale" w) = z +:+ String "e" EmptyString) as [z E].
  { destruct (dc_stale c); subst w; [exists ("Digest " +:+ y +:+ "stale=tru")|exists ("Digest " +:+ y +:+ "stale=fals")];
      by rewrite !sapp_assoc. }
  by eapply (trim_tight _ "D").
Qed.

Ltac read_map := repeat (rewrite lookup_insert_eq || rewrite lookup_insert_ne by done || rewrite lookup_empty).

(** A challenge printed with its texts quoted is read back, whatever the texts. *)
Lemma challenge_read_aux c :
  sall token_char (dc_algorithm c) = true -> dc_qop c = None \/ dc_qop c = Some "auth"%string ->
  parse_header (print_challenge c) = Some c.
Proof.
  intros Ha Hq. unfold parse_header. rewrite challenge_tight by done. unfold print_challenge.
  set (t := String.concat ", " _). replace (String.prefix "digest " _) with true by (symmetry; rewrite lowercase_app; apply prefix_app).
  replace (String.substring 7 _ ("Digest " +:+ t)) with t.
  - unfold t. rewrite parse_printed by by apply challenge_attributes_ok. clear t.
    unfold attributes_of, challenge_of_attributes, challenge_attributes, opt_attr. destruct c as [r n q al o st]; simpl in *.
    destruct Hq as [-> | ->], o; simpl; read_map; simpl; destruct st; done.
  - change (t = String.substring 0 (String.length t) t). by rewrite substring_all.
Qed.

(** A digest challenge that states realm, nonce and opaque as quoted text is read as it was written: whatever bytes those texts hold, quotes, backslashes and commas included, the client sees the same challenge. *)
Theorem challenge_reads_back c :
  sall token_char (dc_algorithm c) = true -> dc_qop c = None \/ dc_qop c = Some "auth"%string ->
  parse_header (print_challenge c) = Some c.
Proof. apply challenge_read_aux. Qed.

Definition tricky_challenge : DigestChallenge :=
  MkChallenge (String "a" (String DQ (String "," (String BACKSLASH " b=")))) (String BACKSLASH (String DQ EmptyString)) (Some "auth"%string) "MD5-sess"
    (Some (String BACKSLASH EmptyString)) true.

Lemma challenge_reads_back_witness : parse_header (print_challenge tricky_challenge) = Some tricky_challenge.
Proof. apply (challenge_reads_back tricky_challenge); [reflexivity|right; reflexivity]. Defined.

(** The answer to a challenge says what it has to: read with the same grammar it names the user, the realm, nonce and opaque of the challenge, the URI, the response computed from them, and, when the challenge asks for it, the count and the client nonce; no text in a quoted field can add or change another. *)
Theorem authorization_reads_back md5 c method uri username password nc cnonce :
  tokens_ok c -> sall token_char nc = true ->
  exists t, strip_prefix "Digest " (build_digest_authorization md5 c method uri username password nc cnonce) = Some t
  /\ let said := parse_digest_attributes t in
     said !! "username"%string = Some username /\ said !! "realm"%string = Some (dc_realm c)
     /\ said !! "nonce"%string = Some (dc_nonce c) /\ said !! "uri"%string = Some uri
     /\ said !! "response"%string = Some (digest_response md5 c method uri username password nc cnonce)
     /\ said !! "algorithm"%string = Some (to_ascii_uppercase (dc_algorithm c))
     /\ said !! "opaque"%string = dc_opaque c /\ said !! "qop"%string = dc_qop c
     /\ said !! "nc"%string = ((fun _ => nc) <$> dc_qop c) /\ said !! "cnonce"%string = ((fun _ => cnonce) <$> dc_qop c).
Proof.
  intros Hc Hn. destruct (authorization_read_aux md5 c method uri username password nc cnonce Hc Hn) as (t & Ht & Hs).
  exists t. split; [done|]. rewrite Hs. clear. unfold attributes_of, authorization_attributes, opt_attr.
  destruct (dc_opaque c), (dc_qop c); simpl; splits; by read_map.
Qed.

Definition toy_md5 (s : string) : string := stake 4 s.

Lemma authorization_reads_back_witness :
  exists t, strip_prefix "Digest " (build_digest_authorization toy_md5 tricky_challenge "POST" "/json_rpc" (String DQ "u") "p" "00000001" "c") = Some t
  /\ parse_digest_attributes t !! "username"%string = Some (String DQ "u").
Proof.
  destruct (authorization_reads_back toy_md5 tricky_challenge "POST" "/json_rpc" (String DQ "u") "p" "00000001" "c") as (t & Ht & Hu & _);
    [split; reflexivity|reflexivity|]. exists t. split; [exact Ht|exact Hu].
Defined.

(** The algorithm is written without quotes: one that holds a comma adds an attribute of the server's choice. *)
Definition injected : option DigestChallenge :=
  parse_header ("Digest realm=r, nonce=n, algorithm=" +:+ String DQ ("MD5, uri=/other" +:+ String DQ EmptyString)).
Lemma algorithm_injects :
  (c ← injected; t ← strip_prefix "Digest " (build_digest_authorization toy_md5 c "POST" "/json_rpc" "u" "p" "00000001" "c");
   parse_digest_attributes t !! "uri"%string) = Some "/OTHER"%string.
Proof. vm_compute. reflexivity. Qed.
