(* ===== verification/WalletRpc.v ===== *)
(** * The signer's wallet client

    [crates/nxms-signer/src/wallet_rpc.rs]: JSON-RPC over HTTP to
    [monero-wallet-rpc], each call answering digest challenges, and the summary
    of a transaction set that the policy check works on.  The client's state is
    the counter and the nonce it belongs to; beside it stands the log of the
    requests.  The wallet is a parameter that answers from the requests made so
    far; the URL parser, MD5, the random bytes and what [reqwest] and serde make
    of a response are parameters as well. *)

From S2P Require Import Prelude RustString Bytes Json Snapshot SignerConfig AgentState SignerStart Digest.

Record RpcErrorObject : Type := MkRpcError { re_code : Z; re_message : string }.
Record RpcResponse (T : Type) : Type := MkRpcResponse { rr_result : option T; rr_error : option RpcErrorObject }.
Arguments MkRpcResponse {T} _ _.
Arguments rr_result {T} _.
Arguments rr_error {T} _.
Record SignMultisigResponse : Type := MkSignResponse { sm_tx_data_hex : option string; sm_tx_hash_list : option (list string) }.
Record SubmitMultisigResponse : Type := MkSubmitResponse { sb_tx_hash_list : option (list string) }.
Record IsMultisigResponse : Type := MkIsMultisig {
  im_multisig : option bool; im_ready : option bool; im_threshold : option Z; im_total : option Z }.
Record TransferResponse : Type := MkTransferResponse { tr_multisig_txset : option string }.
Record DescribeRecipient : Type := MkDescribeRecipient { dr_address : option string; dr_amount : option Z }.
Record DescribeTransferRow : Type := MkDescribeRow {
  dt_recipients : option (list DescribeRecipient); dt_fee : option Z; dt_unlock_time : option Z; dt_dummy_outputs : option Z }.
Record DescribeTransferResponse : Type := MkDescribe { dt_desc : option (list DescribeTransferRow) }.

(** A request and what comes back. *)
Record Sent : Type := MkSent { sn_url : string; sn_auth : option string; sn_payload : json }.
Record Response : Type := MkResponse { rp_status : Z; rp_www_authenticate : list (option string); rp_body : string }.
Definition UNAUTHORIZED : Z := 401.
Definition is_success (status : Z) : bool := (200 <=? status) && (status <? 300).

Class WalletLib : Type := {
  md5 : string -> string;
  os_rng : nat -> string;
  (** the path and the query of a URL *)
  url_path_query : string -> result string (string * option string);
  wallet_server : list Sent -> Sent -> result string Response;
  (** [bytes()] and [text()] read the body and may fail *)
  body_bytes : Response -> result string unit;
  body_text : Response -> result string string;
  json_value : Response -> result string (RpcResponse json);
  json_sign : Response -> result string (RpcResponse SignMultisigResponse);
  json_submit : Response -> result string (RpcResponse SubmitMultisigResponse);
  json_transfer : Response -> result string (RpcResponse TransferResponse);
  json_multisig : Response -> result string (RpcResponse IsMultisigResponse);
  json_describe : Response -> result string (RpcResponse DescribeTransferResponse);
}.

Record WalletRpcClient : Type := MkWalletRpcClient {
  wc_endpoint : string; wc_wallet_name : string; wc_wallet_password : string; wc_username : string; wc_password : string }.
(** The shared cells [digest_nc] and [digest_nonce], and the requests sent. *)
Record wire : Type := Wire { digest_nc : Z; digest_nonce : option string; sent : list Sent }.
Notation RPC := (M wire string).

Definition new_client (endpoint wallet_name wallet_password username password : string) : WalletRpcClient :=
  MkWalletRpcClient (trim_end_slashes (trim endpoint)) wallet_name wallet_password username password.
Definition new_wire : wire := Wire 0 None [].

(** ** The transaction set, summarised *)

Definition multisig_status_from_rpc (r : IsMultisigResponse) : WalletMultisigStatus :=
  MkMultisigStatus (default false (im_multisig r)) (default false (im_ready r)) (default 0 (im_threshold r)) (default 0 (im_total r)).

Inductive DescError : Type :=
| DescEmpty | MissingFee (row : nat) | MissingUnlock (row : nat) | MissingDummy (row : nat) | MissingRecipients (row : nat)
| EmptyRecipients (row : nat) | UnlockMismatch (a b : Z)
| MissingAddress (row idx : nat) | EmptyAddress (row idx : nat) | MissingAmount (row idx : nat) | NoRecipients.

Fixpoint row_recipients (i r_idx : nat) (l : list DescribeRecipient) (acc : list TransferRecipient) : result DescError (list TransferRecipient) :=
  match l with
  | [] => Ok acc
  | r :: l' =>
      let? address := ok_or (dr_address r) (MissingAddress i r_idx) in
      let? _ := fail_if (is_empty (trim address)) (EmptyAddress i r_idx) in
      let? amount := ok_or (dr_amount r) (MissingAmount i r_idx) in
      row_recipients i (S r_idx) l' (acc ++ [MkTransferRecipient address amount])
  end.

(** The variables of the loop. *)
Record desc_acc : Type := DescAcc {
  da_recipients : list TransferRecipient; da_fee : Z; da_unlock : option Z; da_dummy : Z }.
Fixpoint desc_rows (i : nat) (desc : list DescribeTransferRow) (a : desc_acc) : result DescError desc_acc :=
  match desc with
  | [] => Ok a
  | item :: desc' =>
      let? fee := ok_or (dt_fee item) (MissingFee i) in
      let? item_unlock := ok_or (dt_unlock_time item) (MissingUnlock i) in
      let? dummy := ok_or (dt_dummy_outputs item) (MissingDummy i) in
      let? rows := ok_or (dt_recipients item) (MissingRecipients i) in
      let? _ := fail_if (match rows with [] => true | _ => false end) (EmptyRecipients i) in
      let? unlock := match da_unlock a with
                     | None => Ok item_unlock
                     | Some v => if v =? item_unlock then Ok v else Err (UnlockMismatch v item_unlock)
                     end in
      let? recipients := row_recipients i 0 rows (da_recipients a) in
      desc_rows (S i) desc' (DescAcc recipients (sat_add_u64 (da_fee a) fee) (Some unlock) (sat_add_u64 (da_dummy a) dummy))
  end.

Definition transfer_check_from_desc (desc : list DescribeTransferRow) : result DescError TransferCheck :=
  let? _ := fail_if (match desc with [] => true | _ => false end) DescEmpty in
  let? a := desc_rows 0 desc (DescAcc [] 0 None 0) in
  let? _ := fail_if (match da_recipients a with [] => true | _ => false end) NoRecipients in
  Ok (MkTransferCheck (Z.min U64_MAX (Z.of_nat (length desc))) (da_recipients a) (da_fee a) (default 0 (da_unlock a)) (da_dummy a)).

(** [serde_json::to_value] of the description: the entries in key order. *)
Definition opt_json {A} (f : A -> json) (o : option A) : json := match o with Some a => f a | None => JNull end.
Definition u64_json (n : Z) : json := JNumber (dec n).
Definition recipient_to_value (r : DescribeRecipient) : json :=
  JObject [("address", opt_json JString (dr_address r)); ("amount", opt_json u64_json (dr_amount r))]%string.
Definition row_to_value (r : DescribeTransferRow) : json :=
  JObject [("dummy_outputs", opt_json u64_json (dt_dummy_outputs r)); ("fee", opt_json u64_json (dt_fee r));
           ("recipients", opt_json (fun l => JArray (map recipient_to_value l)) (dt_recipients r));
           ("unlock_time", opt_json u64_json (dt_unlock_time r))]%string.
Definition describe_to_value (r : DescribeTransferResponse) : json :=
  JObject [("desc", opt_json (fun l => JArray (map row_to_value l)) (dt_desc r))]%string.

(** ** The nonce counter *)

(** [format!("{next:08x}")] of a [u32]. *)
Definition hex08 (n : Z) : string := hex_encode (u32_be n).
Definition next_digest_nc (w : wire) : wire * Z :=
  let next := (digest_nc w + 1) mod 2 ^ 32 in
  (Wire next (digest_nonce w) (sent w), Z.max next 1).
(** The part under the lock. *)
Definition note_nonce (nonce : string) (w : wire) : wire :=
  if bool_decide (digest_nonce w = Some nonce) then w else Wire 0 (Some nonce) (sent w).
Definition next_digest_nc_for_nonce (nonce : string) (w : wire) : wire * Z := next_digest_nc (note_nonce nonce w).

Section client.
Context `{WalletLib} (self : WalletRpcClient) (desc_text : DescError -> string).

Definition json_rpc_url : string := wc_endpoint self +:+ "/json_rpc".

Definition digest_uri_for_request (url : string) : result string string :=
  let? pq := url_path_query url in
  let uri := if is_empty pq.1 then "/"%string else pq.1 in
  Ok (match pq.2 with Some query => uri +:+ "?" +:+ query | None => uri end).

Definition post_json_rpc (url : string) (payload : json) (auth_header : option string) : RPC Response := fun w =>
  let req := MkSent url auth_header payload in
  (Wire (digest_nc w) (digest_nonce w) (sent w ++ [req]), wallet_server (sent w) req).
Definition post_json_rpc_with_digest (url : string) (payload : json) (uri : string) (c : DigestChallenge) : RPC Response :=
  let* nc := fun w => let '(w', n) := next_digest_nc_for_nonce (dc_nonce c) w in (w', Ok (hex08 n)) in
  let* cnonce := sget (fun w => random_cnonce (os_rng (length (sent w)))) in
  post_json_rpc url payload (Some (build_digest_authorization md5 c "POST" uri (wc_username self) (wc_password self) nc cnonce)).

(** The rounds of [for _ in 0..3]. *)
Fixpoint answer_challenges (rounds : nat) (url : string) (payload : json) (uri : string) (resp : Response) : RPC Response :=
  match rounds with
  | O => sret resp
  | S rounds' =>
      if negb (rp_status resp =? UNAUTHORIZED) then sret resp else
      let* challenge := slift (ok_or (from_headers parse_header (rp_www_authenticate resp)) "wallet-rpc returned 401 without digest challenge"%string) in
      let* _ := slift (body_bytes resp) in
      let* resp := post_json_rpc_with_digest url payload uri challenge in
      answer_challenges rounds' url payload uri resp
  end.

Definition rpc_payload (method : string) (params : json) : json :=
  JObject [("id", JString "0"); ("jsonrpc", JString "2.0"); ("method", JString method); ("params", params)]%string.
Definition i64_text (n : Z) : string := if n <? 0 then "-" +:+ dec (- n) else dec n.
Definition rpc_result {R} (decode : Response -> result string (RpcResponse R)) (method : string) (resp : Response) : result string R :=
  if negb (is_success (rp_status resp)) then
    Err ("wallet-rpc http " +:+ dec (rp_status resp) +:+ ": " +:+ match body_text resp with Ok t => t | Err _ => EmptyString end)
  else
    let? wrapper := decode resp in
    match rr_error wrapper with
    | Some err => Err ("wallet-rpc rpc code=" +:+ i64_text (re_code err) +:+ " msg=" +:+ re_message err)
    | None => ok_or (rr_result wrapper) ("wallet-rpc missing result for method " +:+ method)
    end.
Definition call {R} (decode : Response -> result string (RpcResponse R)) (method : string) (params : json) : RPC R :=
  let payload := rpc_payload method params in
  let* resp := post_json_rpc json_rpc_url payload None in
  let* uri := slift (digest_uri_for_request json_rpc_url) in
  let* resp := answer_challenges 3 json_rpc_url payload uri resp in
  slift (rpc_result decode method resp).

Definition ignore {A} (m : RPC A) : RPC unit := fun w => ((m w).1, Ok tt).

Definition ensure_wallet_open : RPC unit :=
  let* _ := ignore (call json_value "close_wallet" (JObject [])) in
  let* _ := call json_value "open_wallet"
    (JObject [("filename", JString (wc_wallet_name self)); ("password", JString (wc_wallet_password self))]%string) in
  sret tt.
Definition close_wallet_best_effort : RPC unit := ignore (call json_value "close_wallet" (JObject [])).
Definition tx_params (tx_data_hex : string) : json := JObject [("tx_data_hex", JString tx_data_hex)]%string.
Definition sign_multisig (tx_data_hex : string) : RPC SignedMultisigTx :=
  let* result := call json_sign "sign_multisig" (tx_params tx_data_hex) in
  let* tx := slift (ok_or (sm_tx_data_hex result) "sign_multisig returned no tx_data_hex"%string) in
  sret (MkSigned tx (default [] (sm_tx_hash_list result))).
Definition submit_multisig (tx_data_hex : string) : RPC (list string) :=
  let* result := call json_submit "submit_multisig" (tx_params tx_data_hex) in
  sret (default [] (sb_tx_hash_list result)).
Definition destination (r : TransferRecipient) : json :=
  JObject [("address", JString (tr_address r)); ("amount", u64_json (tr_amount r))]%string.
Definition transfer_multisig_do_not_relay (recipients : list TransferRecipient) : RPC string :=
  let* _ := slift (fail_if (match recipients with [] => true | _ => false end) "transfer recipients must not be empty"%string) in
  let* result := call json_transfer "transfer"
    (JObject [("destinations", JArray (map destination recipients)); ("do_not_relay", JBool true)]%string) in
  let* multisig_txset := slift (ok_or (tr_multisig_txset result) "transfer returned no multisig_txset"%string) in
  let trimmed := trim multisig_txset in
  let* _ := slift (fail_if (is_empty trimmed) "transfer returned empty multisig_txset"%string) in
  sret trimmed.
Definition multisig_status : RPC WalletMultisigStatus :=
  let* result := call json_multisig "is_multisig" (JObject []) in
  sret (multisig_status_from_rpc result).
Definition describe_transfer (multisig_txset_hex : string) : RPC (TransferCheck * json) :=
  let* result := call json_describe "describe_transfer" (JObject [("multisig_txset", JString multisig_txset_hex)]%string) in
  let raw := describe_to_value result in
  let* desc := slift (ok_or (dt_desc result) "describe_transfer returned no desc"%string) in
  let* _ := slift (fail_if (match desc with [] => true | _ => false end) "describe_transfer returned empty desc"%string) in
  let* check := slift (map_err desc_text (transfer_check_from_desc desc)) in
  sret (check, raw).
End client.
