(* ===== verification/WalletRpcProps.v ===== *)
(** * Properties of the signer's wallet client

    The summary of a transaction set is exact and says enough for the policy
    check; a call makes a bounded number of requests, all for the same method;
    the counts of one nonce are never issued twice, whatever the interleaving
    of tasks. *)

From S2P Require Import Prelude RustString Bytes Json Snapshot SignerConfig ActionToken SignerDb AgentState AgentFlows AgentRuns SignerStart.
From S2P Require Import Digest WalletRpc.

(** ** The summary *)

Definition sum_Z (l : list Z) : Z := foldr Z.add 0 l.

(** One transaction of a set: what its row says. *)
Record described_tx : Type := DescribedTx { dx_fee : Z; dx_unlock : Z; dx_dummy : Z; dx_payments : list TransferRecipient }.
Definition recipient_is (r : DescribeRecipient) (p : TransferRecipient) : Prop :=
  dr_address r = Some (tr_address p) /\ is_empty (trim (tr_address p)) = false /\ dr_amount r = Some (tr_amount p).
Record row_is (item : DescribeTransferRow) (x : described_tx) : Prop := RowIs {
  ri_fee : dt_fee item = Some (dx_fee x);
  ri_unlock : dt_unlock_time item = Some (dx_unlock x);
  ri_dummy : dt_dummy_outputs item = Some (dx_dummy x);
  ri_payments : exists rows, dt_recipients item = Some rows /\ rows <> [] /\ Forall2 recipient_is rows (dx_payments x);
}.
(** The numbers of a row are [u64]. *)
Definition row_u64 (item : DescribeTransferRow) : Prop :=
  (forall n, dt_fee item = Some n -> 0 <= n) /\ (forall n, dt_dummy_outputs item = Some n -> 0 <= n).

Definition summary (txs : list described_tx) : TransferCheck :=
  MkTransferCheck (Z.min U64_MAX (Z.of_nat (length txs))) (concat (map dx_payments txs))
    (Z.min U64_MAX (sum_Z (map dx_fee txs))) (match txs with x :: _ => dx_unlock x | [] => 0 end)
    (Z.min U64_MAX (sum_Z (map dx_dummy txs))).
(** The set can be summarised: it is not empty, every row is complete and all have one unlock time. *)
Definition describes (desc : list DescribeTransferRow) (txs : list described_tx) : Prop :=
  desc <> [] /\ Forall2 row_is desc txs /\ forall x y, x ∈ txs -> y ∈ txs -> dx_unlock x = dx_unlock y.

Lemma row_recipients_iff i k l acc out :
  row_recipients i k l acc = Ok out <-> exists ps, Forall2 recipient_is l ps /\ out = acc ++ ps.
Proof.
  revert k acc. induction l as [|r l IH]; intros k acc; simpl.
  - split; [intros [= <-]; exists []; by rewrite app_nil_r|]. intros (ps & Hp & ->). inversion Hp. by rewrite app_nil_r.
  - split.
    + destruct (dr_address r) as [a|] eqn:E1; [|done]. simpl. destruct (is_empty (trim a)) eqn:E2; [done|]. simpl.
      destruct (dr_amount r) as [n|] eqn:E3; [|done]. simpl. intros (ps & Hp & ->)%IH. exists (MkTransferRecipient a n :: ps).
      split; [by constructor|]. by rewrite <- app_assoc.
    + intros (ps & Hp & ->). inversion Hp as [|? [a n] ? ps' (H1 & H2 & H3) Hps]; subst. simpl in *.
      rewrite H1. simpl. rewrite H2. simpl. rewrite H3. simpl. apply IH. exists ps'. split; [done|]. by rewrite <- app_assoc.
Qed.

(** A row of the loop, once it is complete. *)
Definition advance (a : desc_acc) (x : described_tx) : desc_acc :=
  DescAcc (da_recipients a ++ dx_payments x) (sat_add_u64 (da_fee a) (dx_fee x))
    (Some (default (dx_unlock x) (da_unlock a))) (sat_add_u64 (da_dummy a) (dx_dummy x)).
Fixpoint unlocks_agree (o : option Z) (txs : list described_tx) : Prop :=
  match txs with [] => True | x :: l => default (dx_unlock x) o = dx_unlock x /\ unlocks_agree (Some (dx_unlock x)) l end.

Lemma row_step i item desc a b :
  desc_rows i (item :: desc) a = Ok b <->
  exists x, row_is item x /\ default (dx_unlock x) (da_unlock a) = dx_unlock x /\ desc_rows (S i) desc (advance a x) = Ok b.
Proof.
  simpl. split.
  - destruct (dt_fee item) as [fee|] eqn:E1; [|done]. destruct (dt_unlock_time item) as [u|] eqn:E2; [|done].
    destruct (dt_dummy_outputs item) as [d|] eqn:E3; [|done]. destruct (dt_recipients item) as [rows|] eqn:E4; [|done]. simpl.
    destruct rows as [|r rows]; [done|]. simpl fail_if. cbn [rbind]. intros H. apply rbind_ok in H as (v & Hv & H).
    apply rbind_ok in H as (ps & Hps & H). apply row_recipients_iff in Hps as (q & Hq & ->).
    exists (DescribedTx fee u d q). split; [constructor; simpl; eauto; eexists; eauto|].
    unfold advance. simpl. destruct (da_unlock a) as [v'|]; simpl; [|by simplify_eq].
    destruct (Z.eqb_spec v' u); [|done]. by simplify_eq.
  - intros (x & [E1 E2 E3 (rows & E4 & Hne & Hr)] & Hu & H). rewrite E1, E2, E3, E4. simpl.
    destruct rows as [|r rows]; [done|]. simpl fail_if. cbn [rbind].
    rewrite (proj2 (row_recipients_iff i 0 (r :: rows) (da_recipients a) (da_recipients a ++ dx_payments x))) by eauto.
    unfold advance in H. destruct (da_unlock a) as [v|]; simpl in *; [|done]. by rewrite Hu, Z.eqb_refl in *.
Qed.

Lemma desc_rows_iff i desc a b :
  desc_rows i desc a = Ok b <->
  exists txs, Forall2 row_is desc txs /\ unlocks_agree (da_unlock a) txs /\ b = foldl advance a txs.
Proof.
  revert i a. induction desc as [|item desc IH]; intros i a.
  - simpl. split; [intros [= <-]; by exists []|]. intros (txs & H2 & _ & ->). by inversion H2.
  - rewrite row_step. setoid_rewrite IH. split.
    + intros (x & Hx & Hu & txs & H2 & Hl & ->). exists (x :: txs). split; [by constructor|]. simpl. split; [split; [done|]|done].
      unfold advance in Hl. simpl in Hl. by rewrite Hu in Hl.
    + intros (txs & H2 & Hl & ->). inversion H2 as [|? x ? l Hx Hxs]; subst. destruct Hl as [Hu Hl].
      exists x. split; [done|]. split; [done|]. exists l. split; [done|]. split; [|done]. unfold advance. simpl. by rewrite Hu.
Qed.

Lemma unlocks_agree_iff txs : unlocks_agree None txs <-> forall x y, x ∈ txs -> y ∈ txs -> dx_unlock x = dx_unlock y.
Proof.
  assert (forall v l, unlocks_agree (Some v) l <-> forall x, x ∈ l -> dx_unlock x = v) as Hs.
  { intros v l. revert v. induction l as [|x l IH]; intros v; simpl; [set_solver|]. rewrite IH. split.
    - intros [-> H] y [->|Hy]%elem_of_cons; auto.
    - intros H. split; [symmetry; apply H; set_solver|]. intros y Hy. rewrite (H y), (H x); set_solver. }
  destruct txs as [|x l]; simpl; [set_solver|]. rewrite Hs. split.
  - intros [_ H] y z Hy Hz. assert (forall y, y ∈ x :: l -> dx_unlock y = dx_unlock x) as E by (intros w [->|Hw]%elem_of_cons; auto).
    by rewrite (E y), (E z).
  - intros H. split; [done|]. intros y Hy. apply H; set_solver.
Qed.

Lemma sat_sum a l : 0 <= a -> Forall (Z.le 0) l -> foldl sat_add_u64 (Z.min U64_MAX a) l = Z.min U64_MAX (a + sum_Z l).
Proof.
  intros Ha Hl. revert a Ha. induction Hl as [|x l Hx Hl IH]; intros a Ha; simpl; [by rewrite Z.add_0_r|].
  replace (sat_add_u64 (Z.min U64_MAX a) x) with (Z.min U64_MAX (a + x)) by (unfold sat_add_u64; lia).
  rewrite IH by lia. by rewrite Z.add_assoc.
Qed.

Lemma advance_fields txs a :
  da_recipients (foldl advance a txs) = da_recipients a ++ concat (map dx_payments txs)
  /\ da_fee (foldl advance a txs) = foldl sat_add_u64 (da_fee a) (map dx_fee txs)
  /\ da_dummy (foldl advance a txs) = foldl sat_add_u64 (da_dummy a) (map dx_dummy txs)
  /\ default 0 (da_unlock (foldl advance a txs)) = default 0 (match da_unlock a with Some v => Some v | None => dx_unlock <$> head txs end).
Proof.
  revert a. induction txs as [|x txs IH]; intros a; simpl; [by rewrite app_nil_r; destruct (da_unlock a)|].
  destruct (IH (advance a x)) as (-> & -> & -> & ->). simpl. rewrite <- app_assoc. by destruct (da_unlock a).
Qed.

Lemma rows_nonneg desc txs : Forall row_u64 desc -> Forall2 row_is desc txs ->
  Forall (Z.le 0) (map dx_fee txs) /\ Forall (Z.le 0) (map dx_dummy txs).
Proof.
  intros Hu H2. induction H2 as [|item x desc txs [H1 _ H3 _] H2 IH]; [by split; constructor|].
  apply Forall_cons in Hu as [[Hf Hd] Hu]. destruct (IH Hu). simpl. split; constructor; auto.
Qed.

Lemma payments_nonempty desc txs : Forall2 row_is desc txs -> desc <> [] -> concat (map dx_payments txs) <> [].
Proof.
  intros H2 Hne. destruct H2 as [|item x desc txs [_ _ _ (rows & _ & Hr & Hp)] H2]; [done|]. simpl.
  destruct Hp; [done|]. done.
Qed.

Lemma transfer_check_iff desc t : Forall row_u64 desc ->
  transfer_check_from_desc desc = Ok t <-> exists txs, describes desc txs /\ t = summary txs.
Proof.
  intros Hu. unfold transfer_check_from_desc, describes. destruct desc as [|item desc]; simpl fail_if; cbn [rbind].
  { split; [done|]. by intros (txs & (? & _) & _). }
  set (d := item :: desc) in *.
  assert (forall txs, Forall2 row_is d txs ->
    let b := foldl advance (DescAcc [] 0 None 0) txs in
    da_recipients b <> [] /\ MkTransferCheck (Z.min U64_MAX (Z.of_nat (length d))) (da_recipients b) (da_fee b) (default 0 (da_unlock b)) (da_dummy b) = summary txs) as Hs.
  { intros txs H2. cbv zeta. rewrite (Forall2_length _ _ _ H2). destruct (advance_fields txs (DescAcc [] 0 None 0)) as (-> & -> & -> & ->). simpl.
    split; [by eapply payments_nonempty|]. destruct (rows_nonneg d txs Hu H2) as [Hf Hd].
    rewrite !(sat_sum 0) by done. unfold summary. simpl. f_equal. by destruct txs. }
  split.
  - intros H. apply rbind_ok in H as (b & Hb & H). apply desc_rows_iff in Hb as (txs & H2 & Hl & ->).
    exists txs. destruct (Hs txs H2) as [Hne E]. rewrite <- E. split; [split; [done|]; split; [done|]; by apply unlocks_agree_iff|].
    simpl in *. destruct (da_recipients _); [done|]. by injection H.
  - intros (txs & (Hne & H2 & Hl) & ->). rewrite (proj2 (desc_rows_iff 0 d (DescAcc [] 0 None 0) (foldl advance (DescAcc [] 0 None 0) txs))).
    + cbn [rbind]. destruct (Hs txs H2) as [Hn E]. rewrite E. by destruct (da_recipients _).
    + exists txs. split; [done|]. split; [by apply unlocks_agree_iff|done].
Qed.

(** The signer's summary of a transaction set is exact: it is produced just when the set is not empty, every row states fee, unlock time, dummy outputs and at least one complete recipient, and all rows agree on the unlock time; it then counts the transactions, lists all payments in order and adds fees and dummy outputs, stopping at the largest [u64]. *)
Theorem transfer_check_exact desc t : Forall row_u64 desc ->
  transfer_check_from_desc desc = Ok t <-> exists txs, describes desc txs /\ t = summary txs.
Proof. apply transfer_check_iff. Qed.

Definition demo_row : DescribeTransferRow :=
  MkDescribeRow (Some [MkDescribeRecipient (Some "seller"%string) (Some 100)]) (Some 9) (Some 0) (Some 0).
Lemma transfer_check_exact_witness :
  exists txs, describes [demo_row; demo_row] txs
  /\ MkTransferCheck 2 [MkTransferRecipient "seller" 100; MkTransferRecipient "seller" 100] 18 0 0 = summary txs.
Proof.
  apply (transfer_check_exact [demo_row; demo_row]).
  - repeat constructor; simpl; intros n [= <-]; discriminate.
  - reflexivity.
Defined.

(** ** The policy, transaction by transaction *)

Lemma sum_zero l : Forall (Z.le 0) l -> sum_Z l <= 0 -> Forall (eq 0) l.
Proof.
  intros Hl. induction Hl as [|x l Hx Hl IH]; simpl; intros Hs; [done|].
  assert (0 <= sum_Z l). { clear -Hl. induction Hl; simpl; lia. }
  constructor; [lia|]. apply IH. lia.
Qed.

Lemma policy_per_tx s action desc txs :
  Forall row_u64 desc -> describes desc txs -> cs_fee_cap_atomic s < U64_MAX -> transfer_allowed s action (summary txs) ->
  sum_Z (map dx_fee txs) <= cs_fee_cap_atomic s
  /\ (pp_allow_split_tx (policy_for s action) = false -> length txs = 1%nat)
  /\ (pp_allow_dummy_outputs (policy_for s action) = false -> Forall (fun x => dx_dummy x = 0) txs)
  /\ (cs_require_unlock_time_zero s = true -> Forall (fun x => dx_unlock x = 0) txs)
  /\ Forall (fun x => Forall (payment_allowed (policy_for s action)) (dx_payments x)) txs.
Proof.
  intros Hu (Hne & H2 & Hl) Hcap [Hsplit Hfee Hun Hdum Hpay _]. destruct (rows_nonneg desc txs Hu H2) as [Hf Hd]. simpl in *.
  splits.
  - revert Hcap. unfold U64_MAX in *. lia.
  - intros E. rewrite E in Hsplit. destruct Hsplit as [?|Hs]; [done|]. unfold U64_MAX in Hs. lia.
  - intros E. rewrite E in Hdum. destruct Hdum as [?|Hs]; [done|].
    assert (Forall (eq 0) (map dx_dummy txs)) as Hz by (apply sum_zero; [done|unfold U64_MAX in Hs; lia]).
    rewrite Forall_map in Hz. eapply Forall_impl; [exact Hz|]. simpl. auto.
  - intros E. apply Forall_forall. intros x Hx. specialize (Hun E). destruct txs as [|y txs]; [set_solver|].
    rewrite <- Hun. apply Hl; set_solver.
  - apply Forall_forall. intros x Hx. apply Forall_forall. intros p Hp. apply (proj1 (Forall_forall _ _) Hpay).
    apply list_elem_of_In, in_concat. exists (dx_payments x). split; [apply in_map, list_elem_of_In, Hx|by apply list_elem_of_In].
Qed.

(** ** The requests of a call *)

Section calls.
Context `{WalletLib} (self : WalletRpcClient).
Notation sends := (Prelude.sends sent).

(** A request with payload [payload] to [url], without credentials or with a digest. *)
Definition request_for (url : string) (payload : json) (r : Sent) : Prop :=
  sn_url r = url /\ sn_payload r = payload
  /\ match sn_auth r with
     | None => True
     | Some a => exists c uri nc cnonce, a = build_digest_authorization md5 c "POST" uri (wc_username self) (wc_password self) nc cnonce
     end.

Lemma sends_post url payload auth :
  request_for url payload (MkSent url auth payload) -> sends 1 1 (request_for url payload) (post_json_rpc url payload auth).
Proof. intros Hr w. exists [MkSent url auth payload]. split; [done|]. split; [simpl; lia|]. by apply Forall_singleton. Qed.

Lemma sends_digest url payload uri c : sends 0 1 (request_for url payload) (post_json_rpc_with_digest self url payload uri c).
Proof.
  unfold post_json_rpc_with_digest. apply (sends_bind 0 0 1).
  { apply sends_none. intros w. unfold next_digest_nc_for_nonce, note_nonce. by case_bool_decide. }
  intros nc. apply (sends_bind 0 0 1); [by apply sends_none|]. intros cnonce w.
  destruct (sends_post url payload (Some (build_digest_authorization md5 c "POST" uri (wc_username self) (wc_password self) nc cnonce))) with (w := w)
    as (l & ? & ? & ?); [split; [done|]; split; [done|]; simpl; eauto|]. exists l. split; [done|]. split; [lia|done].
Qed.

Lemma sends_rounds n url payload uri resp : sends 0 n (request_for url payload) (answer_challenges self n url payload uri resp).
Proof.
  revert resp. induction n as [|n IH]; intros resp; simpl; [by apply sends_none|].
  destruct (negb _); [eapply sends_weaken; [by apply sends_none|lia..]|].
  apply (sends_bind 0 0 (S n)); [apply sends_lift|]. intros c. apply (sends_bind 0 0 (S n)); [apply sends_lift|]. intros _.
  apply (sends_bind 0 1 n); [apply sends_digest|apply IH].
Qed.

Lemma sends_call {R} (decode : Response -> result string (RpcResponse R)) method params :
  sends 1 4 (request_for (json_rpc_url self) (rpc_payload method params)) (call self decode method params).
Proof.
  unfold call. cbv zeta. apply (sends_bind 1 1 3); [by apply sends_post|]. intros resp.
  apply (sends_bind 0 0 3); [apply sends_lift|]. intros uri.
  apply (sends_bind 0 3 0); [apply sends_rounds|]. intros r. apply sends_lift.
Qed.

(** The last request is one for [payload], and [resp] is the answer to it. *)
Definition answered (url : string) (payload : json) (w : wire) (resp : Response) : Prop :=
  exists before req, sent w = before ++ [req] /\ request_for url payload req /\ wallet_server before req = Ok resp.

Lemma post_answered url payload auth w w' resp :
  request_for url payload (MkSent url auth payload) -> post_json_rpc url payload auth w = (w', Ok resp) -> answered url payload w' resp.
Proof. intros Hr. unfold post_json_rpc. intros [= <- E]. by exists (sent w), (MkSent url auth payload). Qed.

Lemma digest_answered url payload uri c w w' resp :
  post_json_rpc_with_digest self url payload uri c w = (w', Ok resp) -> answered url payload w' resp.
Proof.
  unfold post_json_rpc_with_digest. intros (w1 & nc & Hn & Hp)%sbind_ok. apply sbind_ok in Hp as (w2 & cn & Hc & Hp).
  eapply post_answered; [|exact Hp]. split; [done|]. split; [done|]. simpl. eauto.
Qed.

Lemma rounds_answered n url payload uri resp w w' resp' :
  answered url payload w resp -> answer_challenges self n url payload uri resp w = (w', Ok resp') -> answered url payload w' resp'.
Proof.
  revert resp w. induction n as [|n IH]; intros resp w Ha; simpl; [by intros [= <- <-]|].
  destruct (negb _); [by intros [= <- <-]|]. intros (w1 & c & [= <- Hc] & Hp)%sbind_ok.
  apply sbind_ok in Hp as (w2 & u & [= <- Hb] & Hp). apply sbind_ok in Hp as (w3 & r & Hd & Hp).
  eapply IH; [|exact Hp]. by eapply digest_answered.
Qed.

Lemma call_answered {R} (decode : Response -> result string (RpcResponse R)) method params w w' r :
  call self decode method params w = (w', Ok r) ->
  exists resp, answered (json_rpc_url self) (rpc_payload method params) w' resp /\ is_success (rp_status resp) = true
  /\ decode resp = Ok (MkRpcResponse (Some r) None).
Proof.
  unfold call. cbv zeta. intros (w1 & r1 & H1 & Hp)%sbind_ok. apply sbind_ok in Hp as (w2 & u & [= <- Hu] & Hp).
  apply sbind_ok in Hp as (w3 & resp & H3 & Hp). unfold slift in Hp. injection Hp as <- Hr. exists resp.
  split; [by eapply rounds_answered, H3; eapply post_answered, H1|]. unfold rpc_result in Hr.
  destruct (is_success (rp_status resp)); [|done]. split; [done|]. simpl in Hr.
  destruct (decode resp) as [[o e]|]; [|done]. simpl in Hr. destruct e; [done|]. by destruct o; simplify_eq/=.
Qed.

(** A call to the wallet ends after at most four requests, whatever the wallet answers: one without credentials and at most three answers to challenges. All carry the payload of this call, and credentials leave the signer only as a digest. *)
Theorem call_bounded {R} (decode : Response -> result string (RpcResponse R)) method params w :
  exists l, sent (call self decode method params w).1 = sent w ++ l /\ (1 <= length l <= 4)%nat
  /\ Forall (request_for (json_rpc_url self) (rpc_payload method params)) l.
Proof. apply sends_call. Qed.

(** A transaction is only ever built, not sent to the network: every request of [transfer_multisig_do_not_relay] says so. *)
Theorem transfer_not_relayed recipients w :
  exists l, sent (transfer_multisig_do_not_relay self recipients w).1 = sent w ++ l /\ (length l <= 4)%nat
  /\ Forall (fun r => sn_payload r = rpc_payload "transfer"
       (JObject [("destinations", JArray (map destination recipients)); ("do_not_relay", JBool true)]%string)) l.
Proof.
  assert (sends 0 4 (fun r => sn_payload r = rpc_payload "transfer"
    (JObject [("destinations", JArray (map destination recipients)); ("do_not_relay", JBool true)]%string))
    (transfer_multisig_do_not_relay self recipients)) as Hs.
  { unfold transfer_multisig_do_not_relay. apply (sends_bind 0 0 4); [apply sends_lift|]. intros _.
    apply (sends_bind 0 4 0).
    - intros w1. destruct (sends_call json_transfer "transfer"
        (JObject [("destinations", JArray (map destination recipients)); ("do_not_relay", JBool true)]%string) w1) as (l & ? & ? & Hl).
      exists l. split; [done|]. split; [lia|]. eapply Forall_impl; [exact Hl|]. by intros r (_ & ? & _).
    - intros res. apply (sends_bind 0 0 0); [apply sends_lift|]. intros t. cbv zeta.
      apply (sends_bind 0 0 0); [apply sends_lift|]. intros _. by apply sends_none. }
  destruct (Hs w) as (l & ? & ? & ?). exists l. split; [done|]. split; [lia|done].
Qed.

(** ** What a description is worth *)

(** serde reads the numbers of a description as [u64]. *)
Context (describe_u64 : forall resp d desc, json_describe resp = Ok (MkRpcResponse (Some d) None) -> dt_desc d = Some desc -> Forall row_u64 desc).
Context (desc_text : DescError -> string).

Lemma describe_answered tx w w' check raw :
  describe_transfer self desc_text tx w = (w', Ok (check, raw)) ->
  exists resp desc txs, answered (json_rpc_url self) (rpc_payload "describe_transfer" (JObject [("multisig_txset", JString tx)]%string)) w' resp
  /\ json_describe resp = Ok (MkRpcResponse (Some (MkDescribe (Some desc))) None)
  /\ Forall row_u64 desc /\ describes desc txs /\ check = summary txs.
Proof using describe_u64.
  unfold describe_transfer. intros (w1 & d & Hc & Hp)%sbind_ok. apply call_answered in Hc as (resp & Ha & _ & Hd).
  cbv zeta in Hp. apply sbind_ok in Hp as (w2 & desc & [= <- Hdesc] & Hp). apply ok_or_ok in Hdesc.
  apply sbind_ok in Hp as (w3 & u & [= <- Hu] & Hp). apply sbind_ok in Hp as (w4 & t & [= <- Ht] & Hp).
  apply map_err_ok in Ht. unfold sret in Hp. injection Hp as <- <- _.
  pose proof (describe_u64 resp d desc Hd Hdesc) as H64. apply transfer_check_iff in Ht as (txs & Htx & ->); [|done].
  exists resp, desc, txs. destruct d as [o]. simpl in Hdesc. subst o. done.
Qed.
End calls.

(** ** Counts of a nonce *)

(** The two atomic parts of [next_digest_nc_for_nonce]: tasks that share the client interleave them. *)
Inductive nc_op : Type :=
| NoteNonce (nonce : string)
| TakeCount.
(** The cells, and the counts taken. *)
Definition nc_step (s : wire * list Z) (op : nc_op) : wire * list Z :=
  match op with
  | NoteNonce n => (note_nonce n s.1, s.2)
  | TakeCount => let '(w, k) := next_digest_nc s.1 in (w, s.2 ++ [k])
  end.
Definition is_take (op : nc_op) : bool := match op with TakeCount => true | NoteNonce _ => false end.
Definition takes (ops : list nc_op) : Z := Z.of_nat (length (List.filter is_take ops)).
(** No other nonce than [n] comes up. *)
Definition only_nonce (n : string) (op : nc_op) : Prop := op = NoteNonce n \/ op = TakeCount.

Lemma nc_counts n ops w l : Forall (only_nonce n) ops -> digest_nonce w = Some n -> 0 <= digest_nc w -> digest_nc w + takes ops < 2 ^ 32 ->
  (foldl nc_step (w, l) ops).2 = l ++ seqZ (1 + digest_nc w) (takes ops).
Proof.
  intros Hops. revert w l. induction Hops as [|op ops Hop Hops IH]; intros w l Hn H0 Ht; [by rewrite app_nil_r|]. cbn [foldl].
  assert (0 <= takes ops) by (unfold takes; lia).
  destruct Hop as [-> | ->]; cbn [nc_step fst snd].
  - unfold note_nonce. rewrite bool_decide_true by done. change (takes (NoteNonce n :: ops)) with (takes ops) in *. by apply IH.
  - replace (takes (TakeCount :: ops)) with (1 + takes ops) in * by (unfold takes; simpl; lia).
    unfold next_digest_nc. rewrite (Z.mod_small (digest_nc w + 1)) by lia. rewrite IH by (simpl; lia || done).
    cbn [digest_nc]. rewrite Z.max_l by lia. rewrite seqZ_app by lia.
    change (seqZ (1 + digest_nc w) 1) with [Z.of_nat 0 + (1 + digest_nc w)]. rewrite <- app_assoc. do 2 f_equal; f_equal; lia.
Qed.

(** C39. While the wallet's nonce stays the same, no count is sent with it twice: whatever the tasks that share the client interleave, from the moment a nonce is noted until another one comes up the counts taken are consecutive, starting at 1 for a new nonce and after the last count for a known one, as long as 2^32 is not reached. *)
Theorem nonce_counts_unique n ops w :
  let start := if bool_decide (digest_nonce w = Some n) then digest_nc w else 0 in
  Forall (only_nonce n) ops -> 0 <= digest_nc w -> start + takes ops < 2 ^ 32 ->
  let counts := (foldl nc_step (w, []) (NoteNonce n :: ops)).2 in counts = seqZ (1 + start) (takes ops) /\ NoDup counts.
Proof.
  cbv zeta. intros Hops H0 Ht. cbn [foldl nc_step fst snd].
  assert (digest_nonce (note_nonce n w) = Some n /\ digest_nc (note_nonce n w) = (if bool_decide (digest_nonce w = Some n) then digest_nc w else 0)) as [E1 E2]
    by (unfold note_nonce; by case_bool_decide).
  rewrite <- E2 in *. assert (0 <= digest_nc (note_nonce n w)) by (rewrite E2; case_bool_decide; lia).
  rewrite (nc_counts n) by done. split; [done|]. apply NoDup_seqZ.
Qed.

Lemma nonce_counts_unique_witness :
  (foldl nc_step (Wire 7 (Some "a"%string) [], []) [NoteNonce "b"; NoteNonce "b"; TakeCount; TakeCount; NoteNonce "b"; TakeCount]).2 = seqZ 1 3.
Proof.
  destruct (nonce_counts_unique "b" [NoteNonce "b"; TakeCount; TakeCount; NoteNonce "b"; TakeCount] (Wire 7 (Some "a"%string) [])) as [E _].
  - repeat constructor; (left; reflexivity) || (right; reflexivity).
  - discriminate.
  - vm_compute. reflexivity.
  - exact E.
Defined.

(** After the counter wraps, the count 1 is issued twice in a row. *)
Lemma count_repeats_after_wrap nonce sent :
  let '(w1, n1) := next_digest_nc (Wire (2 ^ 32 - 1) nonce sent) in (next_digest_nc w1).2 = n1 /\ n1 = 1.
Proof. done. Qed.

(** A nonce the wallet comes back to is counted from 1 again. *)
Lemma count_repeats_after_return :
  let '(w1, n1) := next_digest_nc_for_nonce "a" new_wire in
  let '(w2, _) := next_digest_nc_for_nonce "b" w1 in (next_digest_nc_for_nonce "a" w2).2 = n1.
Proof. done. Qed.
