(* ===== verification/WalletAgent.v ===== *)
(** * The agent on the wallet client

    The wallet of the agent's environment, implemented by [WalletRpc]: the calls
    logged so far are replayed on the client, so its counter and nonce are those
    the code would have.  What the policy check accepts is then a statement
    about the rows the wallet returned. *)

From S2P Require Import Prelude RustString Bytes Json Wire Snapshot SignerConfig ActionToken TokenVerifier SignerDb SignerInv AgentState AgentFlows AgentProps SignerStart.
From S2P Require Import Digest WalletRpc WalletRpcProps AgentDemo.

Section environment.
Context `{WalletLib} (client : WalletRpcClient) (desc_text : DescError -> string) (value_text : json -> string).

Definition wallet_effect (e : Effect) : RPC unit :=
  match e with
  | EOpen => ensure_wallet_open client
  | EDescribe tx => WalletRpc.ignore (describe_transfer client desc_text tx)
  | ESign tx => WalletRpc.ignore (sign_multisig client tx)
  | ESubmit tx => WalletRpc.ignore (submit_multisig client tx)
  | ETransfer recipients => WalletRpc.ignore (transfer_multisig_do_not_relay client recipients)
  | _ => sret tt
  end.
Definition wallet_after (log : list Effect) : wire := foldl (fun w e => (wallet_effect e w).1) new_wire log.
Definition ask {A} (m : RPC A) (log : list Effect) : result string A := (m (wallet_after log)).2.

(** The environment [base] with this wallet in it. *)
Definition rpc_env (base : AgentEnv) : AgentEnv := {|
  env_now := env_now; env_now_s := env_now_s; env_others := env_others; env_others_limiter := env_others_limiter;
  env_var := env_var; env_file := env_file;
  wallet_open := ask (ensure_wallet_open client);
  wallet_describe := fun log tx => let? (check, raw) := ask (describe_transfer client desc_text tx) log in Ok (check, value_text raw);
  wallet_sign := fun log tx => ask (sign_multisig client tx) log;
  wallet_submit := fun log tx => ask (submit_multisig client tx) log;
  wallet_transfer := fun log recipients => ask (transfer_multisig_do_not_relay client recipients) log;
  orchestrator_process := orchestrator_process; mailbox_push := mailbox_push; mailbox_pull := mailbox_pull; mailbox_ack := mailbox_ack;
  nxms_encrypt := nxms_encrypt; nxms_decrypt := nxms_decrypt |}.

Context (describe_u64 : forall resp d desc, json_describe resp = Ok (MkRpcResponse (Some d) None) -> dt_desc d = Some desc -> Forall row_u64 desc).

Lemma ask_describe log tx check raw (base : AgentEnv) :
  wallet_describe (AgentEnv := rpc_env base) log tx = Ok (check, raw) ->
  exists w value, describe_transfer client desc_text tx (wallet_after log) = (w, Ok (check, value)).
Proof.
  simpl. unfold ask. destruct (describe_transfer client desc_text tx (wallet_after log)) as [w [[c v]|e]]; simpl; [|done].
  intros [= <- <-]. eauto.
Qed.

(** C13. When the signer's policy check passes, the policy holds of every single transaction the wallet described: the wallet was asked about this very transaction set and answered with rows that, one by one, pay only allowed recipients and amounts, with unlock time zero and without dummy outputs where the contract demands it, in one transaction unless splitting is allowed, and whose fees, added up without saturation, stay within the cap. The cap is assumed below 2^64 - 1, where the sums saturate. *)
Theorem policy_holds_per_tx `{AgentLib} (base : AgentEnv) during tx snapshot action s s' :
  cs_fee_cap_atomic snapshot < U64_MAX ->
  @describe_and_validate _ (rpc_env base) during tx snapshot action s = (s', Ok tt) ->
  exists before req resp desc txs,
    sn_payload req = rpc_payload "describe_transfer" (JObject [("multisig_txset", JString tx)]%string)
    /\ wallet_server before req = Ok resp
    /\ json_describe resp = Ok (MkRpcResponse (Some (MkDescribe (Some desc))) None)
    /\ describes desc txs
    /\ sum_Z (map dx_fee txs) <= cs_fee_cap_atomic snapshot
    /\ (pp_allow_split_tx (policy_for snapshot action) = false -> length txs = 1%nat)
    /\ (pp_allow_dummy_outputs (policy_for snapshot action) = false -> Forall (fun x => dx_dummy x = 0) txs)
    /\ (cs_require_unlock_time_zero snapshot = true -> Forall (fun x => dx_unlock x = 0) txs)
    /\ Forall (fun x => Forall (payment_allowed (policy_for snapshot action)) (dx_payments x)) txs.
Proof.
  intros Hcap Hd. apply describe_ok in Hd as (log & check & raw & Hw & Hv). apply ask_describe in Hw as (w & value & Hw).
  apply describe_answered in Hw as (resp & desc & txs & (before & req & _ & (_ & Hp & _) & Hs) & Hj & H64 & Htx & ->); [|done].
  apply validate_transfer_iff in Hv. pose proof (policy_per_tx snapshot action desc txs H64 Htx Hcap Hv) as Hall.
  exists before, req, resp, desc, txs. done.
Qed.
End environment.

(** ** An instance: a wallet that asks for credentials and then describes one payment *)

Definition toy_challenge : string := print_challenge (MkChallenge "monero-rpc" "n1" (Some "auth"%string) "MD5" None false).
Definition toy_server (_ : list Sent) (req : Sent) : result string Response :=
  match sn_auth req with
  | None => Ok (MkResponse 401 [Some toy_challenge] EmptyString)
  | Some _ => Ok (MkResponse 200 [] "described")
  end.
Definition toy_answer {A} (a : A) (_ : Response) : result string (RpcResponse A) := Ok (MkRpcResponse (Some a) None).
#[local] Instance toy_wallet : WalletLib := {|
  md5 := toy_md5; os_rng := fun _ => "rng"%string; url_path_query := fun _ => Ok ("/json_rpc"%string, None); wallet_server := toy_server;
  body_bytes := fun _ => Ok tt; body_text := fun r => Ok (rp_body r);
  json_value := toy_answer (JObject []); json_sign := toy_answer (MkSignResponse (Some "00bb"%string) None);
  json_submit := toy_answer (MkSubmitResponse None); json_transfer := toy_answer (MkTransferResponse (Some "00aa"%string));
  json_multisig := toy_answer (MkIsMultisig (Some true) (Some true) (Some 2) (Some 3));
  json_describe := toy_answer (MkDescribe (Some [demo_row])) |}.
Definition toy_client : WalletRpcClient := new_client "http://127.0.0.1:18083/" "escrow" "pw" "user" "secret".

Lemma policy_holds_per_tx_witness :
  exists txs, describes [demo_row] txs /\ length txs = 1%nat /\ sum_Z (map dx_fee txs) <= 10.
Proof.
  destruct (policy_holds_per_tx toy_client (fun _ => EmptyString) (fun _ => EmptyString)) with
    (H0 := plain_lib) (base := plain_env) (during := "sign"%string) (tx := "00aa"%string) (snapshot := demo_snapshot) (action := Release)
    (s := unstarted) (s' := push_log (EDescribe "00aa") unstarted)
    as (before & req & resp & desc & txs & _ & _ & Hd & Htx & Hf & Hs & _).
  - intros resp d desc [= <-] [= <-]. repeat constructor; simpl; intros n [= <-]; discriminate.
  - reflexivity.
  - vm_compute. reflexivity.
  - injection Hd as <-. exists txs. split; [exact Htx|]. split; [apply Hs; reflexivity|exact Hf].
Defined.
