(* ===== verification/CoreRpc.v ===== *)
(** * The escrow service's wallet client

    [crates/nxms-monero-core/src/rpc/wallet_rpc.rs]: [HttpWalletRpcClient], its
    digest authentication, the opening of a wallet with retries and the flows of
    the [WalletRpcClient] trait.  The functions this file shares verbatim with
    the signer's client are in [Digest] and [WalletRpc].  The wallet process is
    a parameter that answers from the requests made so far; a request during
    which the timer of [call_with_timeout] runs out is a request the wallet
    [stalls] on.  Environment variables are read once per process, so the
    environment is a parameter. *)

From S2P Require Import Prelude RustString Bytes Json Escrow FeePolicy Bridge SignerConfig Digest WalletRpc.

Record WalletRpcConfig : Type := MkCoreConfig {
  cc_endpoint : string; cc_wallet_name : string; cc_wallet_password : string; cc_username : string; cc_password : string;
  cc_language : string; cc_create_if_missing : bool }.
Record SignedMultisigTx : Type := MkCoreSigned { cs_tx_data_hex : string; cs_tx_hash_list : list string }.
Record TransferDestination : Type := MkDestination { td_address : string; td_amount : Z }.
Record TransferByTxid : Type := MkTransferByTxid {
  tb_txid : string; tb_transfer_type : string; tb_confirmations : Z; tb_double_spend_seen : bool;
  tb_address : option string; tb_amount : option Z; tb_destinations : list TransferDestination }.
Record WalletMultisigStatus : Type := MkCoreStatus { cm_multisig : bool; cm_ready : bool; cm_threshold : Z; cm_total : Z }.
Inductive MultisigMode : Type := Legacy | Auto | Strict.
#[global] Instance MultisigMode_eq_dec : EqDecision MultisigMode.
Proof. solve_decision. Defined.
Record WalletOpenRetryConfig : Type := MkRetry { rc_attempts : Z; rc_timeout_s : Z; rc_backoff_base_ms : Z; rc_backoff_max_ms : Z }.

Record MultisigInfoResponse : Type := MkInfoResponse { mi_multisig_info : option string }.
Record ExportMultisigInfoResponse : Type := MkExportResponse { ex_info : option string }.
Record ImportMultisigInfoResponse : Type := MkImportResponse { im_n_outputs : option Z }.
Record BalanceResponse : Type := MkBalanceResponse { ba_balance : option Z; ba_unlocked_balance : option Z }.
Record AddressResponse : Type := MkAddressResponse { ad_address : option string }.
Record GetAddressResponse : Type := MkGetAddressResponse { ga_address : option string; ga_addresses : option (list (option string)) }.
Record TransferDestinationEntry : Type := MkDestinationEntry { te_address : option string; te_amount : option Z }.
Record TransferByTxidEntry : Type := MkTransferEntry {
  ti_txid : option string; ti_transfer_type : option string; ti_confirmations : option Z; ti_double_spend_seen : option bool;
  ti_address : option string; ti_amount : option Z; ti_destinations : option (list TransferDestinationEntry) }.
Record GetTransferByTxidResponse : Type := MkGetTransfer { gt_transfer : option TransferByTxidEntry; gt_transfers : option (list TransferByTxidEntry) }.
Record GetVersionResponse : Type := MkVersion { gv_version : option Z }.

Class CoreLib : Type := {
  core_md5 : string -> string;
  core_rng : nat -> string;
  core_url : string -> result string (string * option string);
  core_server : list Sent -> Sent -> result string Response;
  core_stalls : list Sent -> Sent -> bool;
  core_text : Response -> result string string;
  cj_value : Response -> result string (RpcResponse json);
  cj_info : Response -> result string (RpcResponse MultisigInfoResponse);
  cj_export : Response -> result string (RpcResponse ExportMultisigInfoResponse);
  cj_import : Response -> result string (RpcResponse ImportMultisigInfoResponse);
  cj_sign : Response -> result string (RpcResponse SignMultisigResponse);
  cj_submit : Response -> result string (RpcResponse SubmitMultisigResponse);
  cj_balance : Response -> result string (RpcResponse BalanceResponse);
  cj_finalize : Response -> result string (RpcResponse AddressResponse);
  cj_address : Response -> result string (RpcResponse GetAddressResponse);
  cj_transfer : Response -> result string (RpcResponse GetTransferByTxidResponse);
  cj_version : Response -> result string (RpcResponse GetVersionResponse);
  cj_multisig : Response -> result string (RpcResponse IsMultisigResponse);
}.

(** ** Settings *)

Section settings.
Context (env : string -> option string).

Definition parse_u32 (s : string) : option Z := n ← parse_u64 s; if n <=? U32_MAX then Some n else None.
Definition positive (o : option Z) : option Z := n ← o; if 0 <? n then Some n else None.

Definition multisig_mode_from_env : MultisigMode :=
  let raw := match env "XMR_MULTISIG_MODE" with Some v => to_ascii_lowercase (trim v) | None => "auto"%string end in
  if (raw =? "legacy")%string then Legacy
  else if (raw =? "")%string || (raw =? "auto")%string then Auto
  else if (raw =? "strict")%string then Strict
  else Auto.
Definition wallet_open_retry_config_from_env : WalletOpenRetryConfig :=
  let attempts := default 3 (positive (env "XMR_WALLET_RPC_OPEN_ATTEMPTS" ≫= parse_u32)) in
  let timeout_s := default 30 (positive (env "XMR_WALLET_RPC_OPEN_TIMEOUT_SECS" ≫= parse_u64)) in
  let backoff_base_ms := default 300 (positive (env "XMR_WALLET_RPC_OPEN_RETRY_BASE_MS" ≫= parse_u64)) in
  let backoff_max_ms := default 2500
    (n ← env "XMR_WALLET_RPC_OPEN_RETRY_MAX_MS" ≫= parse_u64; if backoff_base_ms <=? n then Some n else None) in
  MkRetry attempts timeout_s backoff_base_ms backoff_max_ms.
End settings.

(** ** Errors *)

Definition is_transient (e : WalletRpcError) : bool :=
  match e with
  | Transport _ => true
  | HttpStatus status _ => (500 <=? status) || (status =? 429) || (status =? 408)
  | _ => false
  end.
Definition error_contains (needles : list string) (e : WalletRpcError) : bool :=
  let text := to_ascii_lowercase (rpc_error_text e) in existsb (fun needle => contains needle text) needles.

Definition is_wallet_not_found_error (err : MoneroError) : bool :=
  match err with
  | WalletRpc e =>
      error_contains ["wallet"%string] e
      && error_contains ["not found"; "no wallet"; "does not exist"; "doesn't exist"; "file not found"; "no such file"]%string e
  | _ => false
  end.
Definition is_wallet_already_exists_error (err : MoneroError) : bool :=
  match err with
  | WalletRpc e => error_contains ["wallet"%string] e && error_contains ["already exists"; "exist already"; "file exists"]%string e
  | _ => false
  end.
(** No call of this crate yields an [Io] error. *)
Definition is_wallet_open_retryable_error (err : MoneroError) : bool :=
  match err with
  | WalletRpc e =>
      is_transient e || error_contains ["timed out"; "timeout"; "busy"; "temporar"; "connection reset"; "broken pipe"]%string e
  | _ => false
  end.
Definition is_multisig_disabled_error (err : MoneroError) : bool :=
  match err with WalletRpc e => error_contains ["multisig is disabled"; "enable-multisig-experimental"]%string e | _ => false end.

Definition transport_err (msg : string) : MoneroError := WalletRpc (Transport msg).
Definition protocol_err (msg : string) : MoneroError := WalletRpc (Protocol msg).
Definition invalid_response (msg : string) : MoneroError := WalletRpc (InvalidResponse msg).
Definition wallet_rpc_http (status : Z) (detail : string) : MoneroError :=
  WalletRpc (HttpStatus status (if is_empty detail then "<empty body>"%string else detail)).

(** ** Payloads *)

Definition validate_hex_payload (value label : string) (max_len : Z) : result MoneroError string :=
  let trimmed := trim value in
  let? _ := fail_if (is_empty trimmed) (MissingData (label +:+ " must not be empty")) in
  let? _ := fail_if (max_len <? len trimmed) (InvalidArgument (label +:+ " too long (max " +:+ dec max_len +:+ " chars)")) in
  let? _ := fail_if (negb (len trimmed mod 2 =? 0) || negb (sall is_ascii_hexdigit trimmed))
              (InvalidArgument (label +:+ " must be valid even-length hex")) in
  Ok trimmed.
Definition validate_txid (value : string) : result MoneroError string :=
  let trimmed := trim value in
  if negb (len trimmed =? 64) || negb (sall is_ascii_hexdigit trimmed) then Err InvalidTxid else Ok trimmed.

(** ** Digest *)

Definition parse_header (raw : string) : option DigestChallenge :=
  c ← Digest.parse_header raw;
  let algorithm_lc := to_ascii_lowercase (dc_algorithm c) in
  if negb (algorithm_lc =? "md5")%string && negb (algorithm_lc =? "md5-sess")%string then None else Some c.
Definition next_digest_nc (w : wire) : wire * string :=
  let next := (digest_nc w + 1) mod 2 ^ 32 in
  if next =? 0 then (Wire 1 (digest_nonce w) (sent w), "00000001"%string)
  else (Wire next (digest_nonce w) (sent w), hex08 next).
Definition next_digest_nc_for_nonce (nonce : string) (w : wire) : wire * string := next_digest_nc (note_nonce nonce w).
Definition build_digest_authorization (md5 : string -> string) (c : DigestChallenge) (method uri username password : string)
    (cnonce_override nc_override : option string) (rng : string) : string :=
  Digest.build_digest_authorization md5 c method uri username password
    (default "00000001"%string nc_override) (default (random_cnonce rng) cnonce_override).

(** ** The client *)

Record HttpWalletRpcClient : Type := MkHttpClient { hc_cfg : WalletRpcConfig; hc_multisig_mode : MultisigMode }.
Definition with_endpoint (endpoint : string) (c : WalletRpcConfig) : WalletRpcConfig :=
  MkCoreConfig endpoint (cc_wallet_name c) (cc_wallet_password c) (cc_username c) (cc_password c) (cc_language c) (cc_create_if_missing c).
Definition new_http_client (env : string -> option string) (cfg : WalletRpcConfig) : HttpWalletRpcClient :=
  MkHttpClient (with_endpoint (trim_end_slashes (trim (cc_endpoint cfg))) cfg) (multisig_mode_from_env env).
Definition endpoint_key (c : HttpWalletRpcClient) : string := cc_endpoint (hc_cfg c).

(** The client's cells and requests, and the pauses made between attempts. *)
Record core_wire : Type := CoreWire { cw_wire : wire; cw_slept : list Z }.
Notation CR := (M core_wire MoneroError).
Definition on_wire {A} (f : wire -> wire * A) : CR A := fun s => let '(w, a) := f (cw_wire s) in (CoreWire w (cw_slept s), Ok a).
Definition try {A} (m : CR A) : CR (result MoneroError A) := fun s => let '(s', r) := m s in (s', Ok r).
Definition sleep (ms : Z) : CR unit := smodify (fun s => CoreWire (cw_wire s) (cw_slept s ++ [ms])).

Section client.
Context `{CoreLib} (env : string -> option string) (self : HttpWalletRpcClient).
Notation cfg := (hc_cfg self).

Definition core_json_rpc_url : string := trim_end_slashes (cc_endpoint cfg) +:+ "/json_rpc".
Definition core_digest_uri (url : string) : result MoneroError string :=
  let? pq := map_err protocol_err (core_url url) in
  let uri := if is_empty pq.1 then "/"%string else pq.1 in
  Ok (match pq.2 with Some query => uri +:+ "?" +:+ query | None => uri end).

(** [late] is the error of the surrounding [timeout], when there is one. *)
Definition core_post (late : option MoneroError) (url : string) (payload : json) (auth_header : option string) : CR Response := fun s =>
  let w := cw_wire s in
  let req := MkSent url auth_header payload in
  let s' := CoreWire (Wire (digest_nc w) (digest_nonce w) (sent w ++ [req])) (cw_slept s) in
  match late with
  | Some e => if core_stalls (sent w) req then (s', Err e) else (s', map_err transport_err (core_server (sent w) req))
  | None => (s', map_err transport_err (core_server (sent w) req))
  end.
Definition core_post_digest (late : option MoneroError) (url : string) (payload : json) (digest_uri : string) (c : DigestChallenge) : CR Response :=
  let* nc := on_wire (next_digest_nc_for_nonce (dc_nonce c)) in
  let* rng := sget (fun s => core_rng (length (sent (cw_wire s)))) in
  core_post late url payload
    (Some (build_digest_authorization core_md5 c "POST" digest_uri (cc_username cfg) (cc_password cfg) None (Some nc) rng)).

(** The answer to a first challenge, and once more when the nonce has changed. *)
Definition core_answer (late : option MoneroError) (url : string) (payload : json) (resp : Response) : CR Response :=
  if negb (rp_status resp =? UNAUTHORIZED) then sret resp else
  let* challenge_1 := slift (ok_or (from_headers parse_header (rp_www_authenticate resp))
                               (WalletRpc (Auth "wallet-rpc returned 401 without digest challenge"))) in
  let* digest_uri := slift (core_digest_uri url) in
  let* resp := core_post_digest late url payload digest_uri challenge_1 in
  if negb (rp_status resp =? UNAUTHORIZED) then sret resp else
  match from_headers parse_header (rp_www_authenticate resp) with
  | Some challenge_2 =>
      if dc_stale challenge_2 || negb (dc_nonce challenge_2 =? dc_nonce challenge_1)%string
      then core_post_digest late url payload digest_uri challenge_2 else sret resp
  | None => sret resp
  end.
Definition core_result {R} (decode : Response -> result string (RpcResponse R)) (resp : Response) : result MoneroError R :=
  if negb (is_success (rp_status resp)) then
    Err (wallet_rpc_http (rp_status resp) (trim (match core_text resp with Ok t => t | Err _ => EmptyString end)))
  else
    let? wrapper := map_err invalid_response (decode resp) in
    match rr_error wrapper with
    | Some err => Err (WalletRpc (Rpc (re_code err) (re_message err)))
    | None => ok_or (rr_result wrapper) (invalid_response "missing result in wallet-rpc response")
    end.
Definition core_call_in {R} (late : option MoneroError) (decode : Response -> result string (RpcResponse R)) (method : string) (params : json) : CR R :=
  let payload := rpc_payload method params in
  let* resp := core_post late core_json_rpc_url payload None in
  let* resp := core_answer late core_json_rpc_url payload resp in
  slift (core_result decode resp).
Definition core_call {R} (decode : Response -> result string (RpcResponse R)) := core_call_in (R := R) None decode.
Definition call_with_timeout {R} (decode : Response -> result string (RpcResponse R)) (method : string) (params : json) (timeout_s : Z) : CR R :=
  core_call_in (Some (protocol_err ("wallet-rpc " +:+ method +:+ " timed out after " +:+ dec timeout_s +:+ "s"))) decode method params.
End client.

(** * Opening a wallet, and the flows of the wallet RPC

    The second half of [crates/nxms-monero-core/src/rpc/wallet_rpc.rs]: the
    opening of a wallet with its retries and the methods of the trait
    [WalletRpcClient]; then the callers of the trait,
    [crypto/multisig.rs] and [multisig/wallet.rs]. *)

Section open.
Context `{CoreLib} (env : string -> option string) (self : HttpWalletRpcClient).
Notation cfg := (hc_cfg self).
Notation call := (core_call self).

Definition core_close_wallet (timeout_s : Z) : CR unit :=
  let* _ := try (call_with_timeout self cj_value "close_wallet" (JObject []) timeout_s) in sret tt.
Definition open_wallet_once (timeout_s : Z) : CR unit :=
  let* _ := call_with_timeout self cj_value "open_wallet"
    (JObject [("filename", JString (cc_wallet_name cfg)); ("password", JString (cc_wallet_password cfg))]%string) timeout_s in
  sret tt.
Definition create_wallet_once (timeout_s : Z) : CR unit :=
  let* _ := call_with_timeout self cj_value "create_wallet"
    (JObject [("filename", JString (cc_wallet_name cfg)); ("language", JString (cc_language cfg));
              ("password", JString (cc_wallet_password cfg))]%string) timeout_s in
  sret tt.
Definition nonblank (o : option string) : bool := match o with Some v => negb (is_empty (trim v)) | None => false end.
Definition open_wallet_probe_once (timeout_s : Z) : CR unit :=
  let* result := call_with_timeout self cj_address "get_address" (JObject []) timeout_s in
  if nonblank (ga_address result) then sret tt
  else if match ga_addresses result with Some items => existsb nonblank items | None => false end then sret tt
  else sfail (invalid_response "wallet-rpc open probe (get_address) returned no usable address").

(** One attempt; an error of the computation is an early return. *)
Definition ensure_once (timeout_s : Z) : CR (result MoneroError unit) :=
  let* opened := try (open_wallet_once timeout_s) in
  match opened with
  | Ok _ => try (open_wallet_probe_once timeout_s)
  | Err err =>
      if is_wallet_not_found_error err then
        if negb (cc_create_if_missing cfg) then sfail err else
        let* created := try (create_wallet_once timeout_s) in
        match created with
        | Ok _ => try (open_wallet_probe_once timeout_s)
        | Err create_err =>
            if is_wallet_already_exists_error create_err then
              let* opened := try (open_wallet_once timeout_s) in
              match opened with
              | Ok _ => try (open_wallet_probe_once timeout_s)
              | Err open_err => sret (Err open_err)
              end
            else sfail create_err
        end
      else sret (Err err)
  end.

(** The attempts from number [attempt] on, [n] of them. *)
Fixpoint open_attempts (rc : WalletOpenRetryConfig) (n : nat) (attempt backoff_ms : Z) (last_err : option MoneroError) : CR unit :=
  match n with
  | O => sfail (default (protocol_err ("wallet-rpc failed to open wallet after " +:+ dec (rc_attempts rc) +:+ " attempts")) last_err)
  | S n' =>
      let* r := ensure_once (rc_timeout_s rc) in
      match r with
      | Ok _ => sret tt
      | Err err =>
          let retryable := is_wallet_open_retryable_error err || is_wallet_not_found_error err in
          let final_attempt := rc_attempts rc <=? attempt in
          if negb retryable || final_attempt then sfail err else
          let* backoff_ms :=
            if attempt <? rc_attempts rc then
              let* _ := core_close_wallet (rc_timeout_s rc) in
              let* _ := sleep backoff_ms in
              sret (Z.min (sat_mul_u64 backoff_ms 2) (rc_backoff_max_ms rc))
            else sret backoff_ms in
          open_attempts rc n' (attempt + 1) backoff_ms (Some err)
      end
  end.
Definition core_ensure_wallet_open : CR unit :=
  let rc := wallet_open_retry_config_from_env env in
  open_attempts rc (Z.to_nat (rc_attempts rc)) 1 (rc_backoff_base_ms rc) None.

(** ** Multisig methods *)

Definition persist_wallet_metadata : CR unit :=
  let* _ := call cj_value "change_wallet_password"
    (JObject [("new_password", JString (cc_wallet_password cfg)); ("old_password", JString (cc_wallet_password cfg))]%string) in
  sret tt.
Definition mode_name (m : MultisigMode) : string := match m with Legacy => "legacy" | Auto => "auto" | Strict => "strict" end.
Definition disabled_hint (m : MultisigMode) : string :=
  match m with
  | Strict => "; strict never retries with experimental bootstrap"
  | Legacy => "; run prepare_multisig with enable_multisig_experimental=true first"
  | Auto => "; auto only retries experimental bootstrap during prepare_multisig"
  end.
Definition call_multisig {R} (decode : Response -> result string (RpcResponse R)) (method : string) (params : json) : CR R :=
  let* r := try (call decode method params) in
  match r with
  | Ok v => sret v
  | Err err =>
      if is_multisig_disabled_error err
      then sfail (protocol_err ("wallet-rpc multisig disabled for method " +:+ method +:+ " in " +:+ mode_name (hc_multisig_mode self)
                                +:+ " mode" +:+ disabled_hint (hc_multisig_mode self)))
      else sfail err
  end.
Definition wallet_rpc_version : CR (option Z) :=
  let* r := try (call cj_version "get_version" (JObject [])) in
  sret (match r with Ok v => gv_version v | Err _ => None end).
Definition auto_should_force_experimental (version : option Z) : bool :=
  match version with Some v => v <=? 65565 | None => false end.
Definition store_wallet : CR unit := let* _ := call cj_value "store" (JObject []) in sret tt.

Definition experimental_params : json := JObject [("enable_multisig_experimental", JBool true)]%string.
Definition prepare_experimental : CR (MultisigInfoResponse * bool) :=
  let* v := call cj_info "prepare_multisig" experimental_params in sret (v, true).
(** The response and whether the experimental bootstrap was used. *)
Definition prepare_call : CR (MultisigInfoResponse * bool) :=
  match hc_multisig_mode self with
  | Strict =>
      let* r := try (call cj_info "prepare_multisig" (JObject [])) in
      match r with
      | Ok v => sret (v, false)
      | Err err => if is_multisig_disabled_error err
                   then sfail (protocol_err "wallet-rpc prepare_multisig reports multisig disabled in strict mode") else sfail err
      end
  | Legacy => prepare_experimental
  | Auto =>
      let* r := try (call cj_info "prepare_multisig" (JObject [])) in
      match r with
      | Ok v =>
          let* version := wallet_rpc_version in
          if auto_should_force_experimental version then prepare_experimental else sret (v, false)
      | Err err => if is_multisig_disabled_error err then prepare_experimental else sfail err
      end
  end.
Definition prepare_multisig_flow : CR string :=
  let* _ := core_ensure_wallet_open in
  let* (result, used_experimental) := prepare_call in
  let* out := slift (ok_or (mi_multisig_info result) (invalid_response "prepare_multisig returned no multisig_info")) in
  let* _ := if (used_experimental : bool) then persist_wallet_metadata else sret tt in
  let* _ := store_wallet in
  sret out.

Definition strings_json (l : list string) : json := JArray (map JString l).
Definition no_items {A} (l : list A) : bool := match l with [] => true | _ => false end.
Definition make_multisig_flow (multisig_info : list string) (threshold : Z) : CR string :=
  let* _ := core_ensure_wallet_open in
  let* result := call_multisig cj_info "make_multisig"
    (JObject [("multisig_info", strings_json multisig_info); ("password", JString (cc_wallet_password cfg)); ("threshold", JNumber (dec threshold))]%string) in
  let* out := slift (ok_or (mi_multisig_info result) (invalid_response "make_multisig returned no multisig_info")) in
  let* _ := store_wallet in
  sret out.
Definition info_params (multisig_info : list string) : json :=
  JObject [("multisig_info", strings_json multisig_info); ("password", JString (cc_wallet_password cfg))]%string.
Definition exchange_multisig_keys_optional_flow (multisig_info : list string) : CR (option string) :=
  let* _ := slift (fail_if (no_items multisig_info) (MissingData "multisig_info must not be empty")) in
  let* _ := core_ensure_wallet_open in
  let* result := call_multisig cj_info "exchange_multisig_keys" (info_params multisig_info) in
  let* _ := store_wallet in
  sret (v ← mi_multisig_info result; if is_empty (trim v) then None else Some v).
Definition exchange_multisig_keys_flow (multisig_info : list string) : CR string :=
  let* _ := slift (fail_if (no_items multisig_info) (MissingData "multisig_info must not be empty")) in
  let* _ := core_ensure_wallet_open in
  let* result := call_multisig cj_info "exchange_multisig_keys" (info_params multisig_info) in
  let* _ := store_wallet in
  slift (ok_or (v ← mi_multisig_info result; if is_empty (trim v) then None else Some v)
           (invalid_response "exchange_multisig_keys returned no multisig_info")).
Definition finalize_multisig_flow (multisig_info : list string) : CR string :=
  let* _ := slift (fail_if (no_items multisig_info) (MissingData "multisig_info must not be empty")) in
  let* _ := core_ensure_wallet_open in
  let* result := call_multisig cj_finalize "finalize_multisig" (info_params multisig_info) in
  let* _ := store_wallet in
  slift (ok_or (ad_address result) (invalid_response "finalize_multisig returned no address")).
Definition export_multisig_info_flow : CR string :=
  let* _ := core_ensure_wallet_open in
  let* result := call_multisig cj_export "export_multisig_info" (JObject []) in
  let* _ := store_wallet in
  slift (ok_or (ex_info result) (invalid_response "export_multisig_info returned no info")).
Definition import_multisig_info_flow (info : list string) : CR Z :=
  let* _ := slift (fail_if (no_items info) (MissingData "info must not be empty")) in
  let* _ := core_ensure_wallet_open in
  let* result := call_multisig cj_import "import_multisig_info" (JObject [("info", strings_json info)]%string) in
  let* _ := store_wallet in
  sret (default 0 (im_n_outputs result)).
Definition sign_multisig_flow (tx_data_hex : string) : CR SignedMultisigTx :=
  let* tx_data_hex := slift (validate_hex_payload tx_data_hex "tx_data_hex" (tx_hex_max_len env)) in
  let* _ := core_ensure_wallet_open in
  let* result := call_multisig cj_sign "sign_multisig" (tx_params tx_data_hex) in
  let* _ := store_wallet in
  let* tx := slift (ok_or (sm_tx_data_hex result) (invalid_response "sign_multisig returned no tx_data_hex")) in
  sret (MkCoreSigned tx (default [] (sm_tx_hash_list result))).
Definition submit_multisig_flow (tx_data_hex : string) : CR (list string) :=
  let* tx_data_hex := slift (validate_hex_payload tx_data_hex "tx_data_hex" (tx_hex_max_len env)) in
  let* _ := core_ensure_wallet_open in
  let* result := call_multisig cj_submit "submit_multisig" (tx_params tx_data_hex) in
  let* _ := store_wallet in
  sret (default [] (sb_tx_hash_list result)).

(** ** Queries *)

Definition usable_address (r : GetAddressResponse) : option string :=
  let keep := fun o : option string => v ← o; if is_empty (trim v) then None else Some v in
  match keep (ga_address r) with
  | Some a => Some a
  | None => head (omap keep (default [] (ga_addresses r)))
  end.
Definition get_address_flow : CR string :=
  let* _ := core_ensure_wallet_open in
  let* result := call cj_address "get_address" (JObject []) in
  slift (ok_or (usable_address result) (invalid_response "get_address returned no usable address")).
Definition get_balance_flow : CR (Z * Z) :=
  let* _ := core_ensure_wallet_open in
  let* result := call cj_balance "get_balance" (JObject []) in
  sret (default 0 (ba_balance result), default 0 (ba_unlocked_balance result)).
Definition get_multisig_status_flow : CR WalletMultisigStatus :=
  let* _ := core_ensure_wallet_open in
  let* result := call cj_multisig "is_multisig" (JObject []) in
  sret (MkCoreStatus (default false (im_multisig result)) (default false (im_ready result)) (default 0 (im_threshold result)) (default 0 (im_total result))).

Definition entry_destination (raw : TransferDestinationEntry) : option TransferDestination :=
  address ← te_address raw; amount ← te_amount raw;
  if is_empty (trim address) then None else Some (MkDestination address amount).
Definition transfer_of_response (txid : string) (r : GetTransferByTxidResponse) : result MoneroError TransferByTxid :=
  let? transfer := ok_or (match gt_transfer r with Some primary => Some primary | None => gt_transfers r ≫= head end)
                     (invalid_response "get_transfer_by_txid returned no transfer object") in
  let transfer_txid := default EmptyString (ti_txid transfer) in
  let? _ := fail_if (negb (transfer_txid =? txid)%string) (invalid_response "get_transfer_by_txid returned mismatched txid") in
  Ok (MkTransferByTxid transfer_txid (default EmptyString (ti_transfer_type transfer)) (default 0 (ti_confirmations transfer))
        (default false (ti_double_spend_seen transfer))
        (v ← ti_address transfer; if is_empty (trim v) then None else Some (trim v))
        (ti_amount transfer) (omap entry_destination (default [] (ti_destinations transfer)))).
Definition get_transfer_by_txid_flow (txid : string) : CR TransferByTxid :=
  let* txid := slift (validate_txid txid) in
  let* _ := core_ensure_wallet_open in
  let* result := call cj_transfer "get_transfer_by_txid" (JObject [("txid", JString txid)]%string) in
  slift (transfer_of_response txid result).
End open.
