(* ===== verification/CoreRpcProps.v ===== *)
(** * Properties of the escrow service's wallet client

    Bounds on the requests and pauses of a call and of the opening of a wallet,
    what a successful opening has seen of the wallet, when a wallet may be
    created, that strict mode never asks for the experimental bootstrap, and
    that what a flow returns has been stored. *)

From S2P Require Import Prelude RustString Bytes Json Escrow FeePolicy Bridge SignerConfig Digest WalletRpc CoreRpc.

Definition core_log (s : core_wire) : list Sent := sent (cw_wire s).
Notation csends := (sends core_log).
(** The request calls [method]. *)
Definition method_of (r : Sent) (method : string) : Prop := exists params, sn_payload r = rpc_payload method params.

Section calls.
Context `{CoreLib} (env : string -> option string) (self : HttpWalletRpcClient).

Lemma csends_try {A} lo hi P (m : CR A) : csends lo hi P m -> csends lo hi P (try m).
Proof. intros Hm s. specialize (Hm s). unfold try. by destruct (m s) as [s' r]. Qed.

Lemma csends_sleep P ms : csends 0 0 P (sleep ms).
Proof. by apply sends_none. Qed.

Lemma csends_post late url payload auth (P : Sent -> Prop) : P (MkSent url auth payload) -> csends 1 1 P (core_post late url payload auth).
Proof.
  intros Hr s. exists [MkSent url auth payload]. unfold core_post. destruct late; [destruct (core_stalls _ _)|];
    (split; [done|]; split; [simpl; lia|by apply Forall_singleton]).
Qed.

Lemma csends_post_digest late url payload uri c (P : Sent -> Prop) :
  (forall a, P (MkSent url (Some a) payload)) -> csends 0 1 P (core_post_digest self late url payload uri c).
Proof.
  intros Hp. unfold core_post_digest. apply (sends_bind 0 0 1).
  { apply sends_none. intros s. unfold on_wire, CoreRpc.next_digest_nc_for_nonce, CoreRpc.next_digest_nc, note_nonce, core_log.
    case_bool_decide; simpl; repeat case_match; by simplify_eq/=. }
  intros nc. apply (sends_bind 0 0 1); [by apply sends_none|]. intros rng.
  eapply sends_weaken; [by apply csends_post|lia..].
Qed.

Lemma csends_answer late url payload resp (P : Sent -> Prop) :
  (forall a, P (MkSent url (Some a) payload)) -> csends 0 2 P (core_answer self late url payload resp).
Proof.
  intros Hp. unfold core_answer. destruct (negb _); [eapply sends_weaken; [apply sends_ret|lia..]|].
  apply (sends_bind 0 0 2); [apply sends_lift|]. intros c1. apply (sends_bind 0 0 2); [apply sends_lift|]. intros uri.
  apply (sends_bind 0 1 1); [by apply csends_post_digest|]. intros r2.
  destruct (negb _); [eapply sends_weaken; [apply sends_ret|lia..]|].
  destruct (from_headers _ _); [|eapply sends_weaken; [apply sends_ret|lia..]].
  destruct (_ || _); [by apply csends_post_digest|eapply sends_weaken; [apply sends_ret|lia..]].
Qed.

(** The payload is the same in every request of a call. *)
Lemma csends_call_in {R} late (decode : Response -> result string (RpcResponse R)) method params :
  csends 1 3 (fun r => sn_payload r = rpc_payload method params) (core_call_in self late decode method params).
Proof.
  unfold core_call_in. cbv zeta. apply (sends_bind 1 1 2); [by apply csends_post|]. intros resp.
  apply (sends_bind 0 2 0); [by apply csends_answer|]. intros r. apply sends_lift.
Qed.

Lemma csends_method {R} late (decode : Response -> result string (RpcResponse R)) method params (P : Sent -> Prop) :
  (forall r, sn_payload r = rpc_payload method params -> P r) -> csends 0 3 P (core_call_in self late decode method params).
Proof. intros HP. eapply sends_weaken; [eapply sends_impl; [exact HP|apply csends_call_in]|lia..]. Qed.

(** ** Opening *)

Definition opening_method (create : bool) (m : string) : Prop :=
  m = "open_wallet"%string \/ m = "get_address"%string \/ m = "close_wallet"%string \/ (create = true /\ m = "create_wallet"%string).
(** A request that opening a wallet may send. *)
Definition opening (r : Sent) : Prop := exists m, method_of r m /\ opening_method (cc_create_if_missing (hc_cfg self)) m.

Ltac one_call := eapply sends_weaken; [apply (sends_bind 0 3 0); [apply csends_method; intros r Hr; eexists; split; [by eexists|]|intros ?; apply sends_ret]|lia..].

Lemma csends_open_some t : csends 1 3 opening (open_wallet_once self t).
Proof.
  apply (sends_bind 1 3 0); [|intros ?; apply sends_ret].
  eapply sends_impl; [|apply csends_call_in]. cbv beta. intros r Hr. exists "open_wallet"%string. split; [by eexists|]. by left.
Qed.
Lemma csends_open t : csends 0 3 opening (open_wallet_once self t).
Proof. eapply sends_weaken; [apply csends_open_some|lia..]. Qed.
Lemma csends_create t : cc_create_if_missing (hc_cfg self) = true -> csends 0 3 opening (create_wallet_once self t).
Proof. intros Hc. one_call. right. right. right. by rewrite Hc. Qed.
Lemma csends_close t : csends 0 3 opening (core_close_wallet self t).
Proof.
  unfold core_close_wallet. apply (sends_bind 0 3 0); [|intros ?; apply sends_ret]. apply csends_try.
  apply csends_method. intros r Hr. eexists. split; [by eexists|]. right. right. by left.
Qed.
Lemma csends_probe t : csends 0 3 opening (open_wallet_probe_once self t).
Proof.
  unfold open_wallet_probe_once. apply (sends_bind 0 3 0).
  - apply csends_method. intros r Hr. eexists. split; [by eexists|]. right. by left.
  - intros res. destruct (nonblank _); [apply sends_ret|]. destruct (match ga_addresses res with Some _ => _ | None => _ end); [apply sends_ret|apply sends_fail].
Qed.

Lemma csends_ensure_once t : csends 1 12 opening (ensure_once self t).
Proof.
  assert (forall t, csends 0 9 opening (try (open_wallet_probe_once self t))) as Hp
    by (intros; eapply sends_weaken; [apply csends_try, csends_probe|lia..]).
  unfold ensure_once. apply (sends_bind 1 3 9); [apply csends_try, csends_open_some|]. intros [[]|err]; [apply Hp|].
  destruct (is_wallet_not_found_error err); [|eapply sends_weaken; [apply sends_ret|lia..]].
  destruct (cc_create_if_missing (hc_cfg self)) eqn:Ec; simpl negb; cbv iota; [|eapply sends_weaken; [apply sends_fail|lia..]].
  apply (sends_bind 0 3 6); [by apply csends_try, csends_create|].
  intros [[]|ce]; [eapply sends_weaken; [apply csends_try, csends_probe|lia..]|].
  destruct (is_wallet_already_exists_error ce); [|eapply sends_weaken; [apply sends_fail|lia..]].
  apply (sends_bind 0 3 3); [apply csends_try, csends_open|].
  intros [[]|oe]; [apply csends_try, csends_probe|eapply sends_weaken; [apply sends_ret|lia..]].
Qed.

Lemma csends_attempts rc n a b last : csends (min 1 n) (15 * n) opening (open_attempts self rc n a b last).
Proof.
  revert a b last. induction n as [|n IH]; intros a b last; [apply sends_fail|].
  eapply (sends_weaken 1 _ (12 + (3 + 15 * n))); [|lia..]. cbn [open_attempts]. apply (sends_bind 1 12); [apply csends_ensure_once|].
  intros [[]|err]; [eapply sends_weaken; [apply sends_ret|lia..]|]. cbv zeta.
  destruct (negb _ || _); [eapply sends_weaken; [apply sends_fail|lia..]|].
  apply (sends_bind 0 3); [|intros b'; eapply sends_weaken; [apply IH|lia..]]. destruct (a <? rc_attempts rc); [|eapply sends_weaken; [apply sends_ret|lia..]].
  apply (sends_bind 0 3 0); [apply csends_close|]. intros _. apply (sends_bind 0 0 0); [apply csends_sleep|]. intros _. apply sends_ret.
Qed.

Lemma attempts_positive : 1 <= rc_attempts (wallet_open_retry_config_from_env env).
Proof.
  unfold wallet_open_retry_config_from_env. cbv zeta. simpl. unfold positive.
  destruct (env _ ≫= parse_u32) as [n|]; simpl; [|lia]. destruct (Z.ltb_spec 0 n); simpl; lia.
Qed.

Lemma csends_ensure : csends 1 (15 * Z.to_nat (rc_attempts (wallet_open_retry_config_from_env env))) opening (core_ensure_wallet_open env self).
Proof. pose proof attempts_positive. eapply sends_weaken; [apply csends_attempts|lia..]. Qed.

(** ** Pauses *)

Notation sleeps := (sends cw_slept).

Lemma sleeps_try {A} lo hi P (m : CR A) : sleeps lo hi P m -> sleeps lo hi P (try m).
Proof. intros Hm s. specialize (Hm s). unfold try. by destruct (m s) as [s' r]. Qed.
Lemma sleeps_post late url payload auth P : sleeps 0 0 P (core_post late url payload auth).
Proof. apply sends_none. intros s. unfold core_post. by destruct late; [destruct (core_stalls _ _)|]. Qed.
Lemma sleeps_post_digest late url payload uri c P : sleeps 0 0 P (core_post_digest self late url payload uri c).
Proof.
  unfold core_post_digest. apply (sends_bind 0 0 0).
  { apply sends_none. intros s. unfold on_wire. by destruct (next_digest_nc_for_nonce _ _). }
  intros nc. apply (sends_bind 0 0 0); [by apply sends_none|]. intros rng. apply sleeps_post.
Qed.
Lemma sleeps_call {R} late (decode : Response -> result string (RpcResponse R)) method params P :
  sleeps 0 0 P (core_call_in self late decode method params).
Proof.
  unfold core_call_in. cbv zeta. apply (sends_bind 0 0 0); [apply sleeps_post|]. intros resp.
  apply (sends_bind 0 0 0); [|intros r; apply sends_lift]. unfold core_answer.
  destruct (negb _); [apply sends_ret|].
  apply (sends_bind 0 0 0); [apply sends_lift|]. intros c1. apply (sends_bind 0 0 0); [apply sends_lift|]. intros uri.
  apply (sends_bind 0 0 0); [apply sleeps_post_digest|]. intros r2.
  destruct (negb _); [apply sends_ret|]. destruct (from_headers _ _); [|apply sends_ret].
  destruct (_ || _); [apply sleeps_post_digest|apply sends_ret].
Qed.
Lemma sleeps_then {A B} (m : CR A) (k : A -> CR B) P : sleeps 0 0 P m -> (forall a, sleeps 0 0 P (k a)) -> sleeps 0 0 P (sbind m k).
Proof. apply (sends_bind 0 0 0). Qed.
Lemma sleeps_ensure_once t P : sleeps 0 0 P (ensure_once self t).
Proof.
  assert (forall t, sleeps 0 0 P (try (open_wallet_once self t))) as Ho
    by (intros; apply sleeps_try, sleeps_then; [apply sleeps_call|intros; apply sends_ret]).
  assert (forall t, sleeps 0 0 P (try (open_wallet_probe_once self t))) as Hp.
  { intros. apply sleeps_try, sleeps_then; [apply sleeps_call|]. intros res.
    destruct (nonblank _); [apply sends_ret|]. destruct (match ga_addresses res with Some _ => _ | None => _ end); [apply sends_ret|apply sends_fail]. }
  unfold ensure_once. apply sleeps_then; [apply Ho|]. intros [[]|err]; [apply Hp|].
  destruct (is_wallet_not_found_error err); [|apply sends_ret]. destruct (negb _); [apply sends_fail|].
  apply sleeps_then; [apply sleeps_try, sleeps_then; [apply sleeps_call|intros; apply sends_ret]|].
  intros [[]|ce]; [apply Hp|]. destruct (is_wallet_already_exists_error ce); [|apply sends_fail].
  apply sleeps_then; [apply Ho|]. intros [[]|oe]; [apply Hp|apply sends_ret].
Qed.
Lemma sleeps_attempts rc n a b last top :
  a + Z.of_nat n = rc_attempts rc + 1 -> b <= top -> rc_backoff_max_ms rc <= top ->
  sleeps 0 (n - 1) (fun ms => ms <= top) (open_attempts self rc n a b last).
Proof.
  revert a b last. induction n as [|n IH]; intros a b last Ha Hb Hm; [apply sends_fail|]. cbn [open_attempts].
  apply (sends_bind 0 0 (S n - 1)); [apply sleeps_ensure_once|]. intros [[]|err]; [eapply sends_weaken; [apply sends_ret|lia..]|]. cbv zeta.
  destruct (Z.leb_spec (rc_attempts rc) a) as [Hl|Hl].
  - rewrite orb_true_r. eapply sends_weaken; [apply sends_fail|lia..].
  - destruct (negb _ || _); [eapply sends_weaken; [apply sends_fail|lia..]|].
    rewrite (proj2 (Z.ltb_lt a _)) by lia. replace (S n - 1)%nat with (1 + (n - 1))%nat by lia.
    intros s. set (m := sbind (core_close_wallet self (rc_timeout_s rc)) _).
    assert (sleeps 0 1 (fun ms => ms <= top) m) as Hs.
    { apply (sends_bind 0 0 1); [apply sleeps_then; [apply sleeps_try, sleeps_call|intros; apply sends_ret]|]. intros _.
      apply (sends_bind 0 1 0); [|intros _; apply sends_ret]. intros s1. exists [b]. by repeat constructor. }
    destruct (Hs s) as (l & Hl1 & Hn & Hf). unfold sbind at 1.
    destruct (m s) as [s1 [b'|e]] eqn:Em; simpl in Hl1.
    + assert (b' <= top) as Hb'.
      { subst m. apply sbind_ok in Em as (? & ? & ? & Em). apply sbind_ok in Em as (? & ? & ? & Em). injection Em as _ <-. lia. }
      destruct (IH (a + 1) b' (Some err)) with (w := s1) as (l' & Hl2 & Hn' & Hf'); [lia|done|done|].
      exists (l ++ l'). rewrite Hl2, Hl1, app_assoc, length_app. split; [done|]. split; [lia|]. by apply Forall_app.
    + exists l. split; [done|]. split; [lia|done].
Qed.

(** ** Answers *)

(** The last request carries [payload], and [resp] is the answer to it. *)
Definition core_answered (payload : json) (s : core_wire) (resp : Response) : Prop :=
  exists before req, core_log s = before ++ [req] /\ sn_payload req = payload /\ core_server before req = Ok resp.
(** The wallet returned [r] to the last request. *)
Definition returned {R} (decode : Response -> result string (RpcResponse R)) (payload : json) (s : core_wire) (r : R) : Prop :=
  exists resp, core_answered payload s resp /\ is_success (rp_status resp) = true /\ decode resp = Ok (MkRpcResponse (Some r) None).

Lemma core_post_answered late url payload auth s s' resp :
  core_post late url payload auth s = (s', Ok resp) -> core_answered payload s' resp.
Proof.
  unfold core_post. intros Hp. exists (core_log s), (MkSent url auth payload).
  assert (s'  = CoreWire (Wire (digest_nc (cw_wire s)) (digest_nonce (cw_wire s)) (sent (cw_wire s) ++ [MkSent url auth payload])) (cw_slept s)
    /\ map_err transport_err (core_server (sent (cw_wire s)) (MkSent url auth payload)) = Ok resp) as [-> Hm].
  { destruct late; [destruct (core_stalls _ _)|]; by injection Hp. }
  split; [done|]. split; [done|]. by apply map_err_ok in Hm.
Qed.

Lemma core_digest_answered late url payload uri c s s' resp :
  core_post_digest self late url payload uri c s = (s', Ok resp) -> core_answered payload s' resp.
Proof.
  unfold core_post_digest. intros (s1 & nc & _ & Hp)%sbind_ok. apply sbind_ok in Hp as (s2 & rng & _ & Hp).
  by apply core_post_answered in Hp.
Qed.

Lemma core_answer_answered late url payload resp s s' resp' :
  core_answered payload s resp -> core_answer self late url payload resp s = (s', Ok resp') -> core_answered payload s' resp'.
Proof.
  intros Ha. unfold core_answer. destruct (negb _); [by intros [= <- <-]|].
  intros (s1 & c1 & _ & Hp)%sbind_ok. apply sbind_ok in Hp as (s2 & uri & _ & Hp).
  apply sbind_ok in Hp as (s3 & r2 & H2 & Hp). apply core_digest_answered in H2.
  destruct (negb _); [by injection Hp as <- <-|]. destruct (from_headers _ _); [|by injection Hp as <- <-].
  destruct (_ || _); [by apply core_digest_answered in Hp|by injection Hp as <- <-].
Qed.

Lemma core_call_returned {R} late (decode : Response -> result string (RpcResponse R)) method params s s' r :
  core_call_in self late decode method params s = (s', Ok r) -> returned decode (rpc_payload method params) s' r.
Proof.
  unfold core_call_in. cbv zeta. intros (s1 & r1 & H1 & Hp)%sbind_ok. apply sbind_ok in Hp as (s2 & resp & H2 & Hp).
  unfold slift in Hp. injection Hp as <- Hr. exists resp.
  split; [by eapply core_answer_answered, H2; eapply core_post_answered, H1|]. unfold core_result in Hr.
  destruct (is_success (rp_status resp)); [|done]. split; [done|]. simpl in Hr.
  destruct (decode resp) as [[o e]|]; [|done]. simpl in Hr. destruct e; [done|]. by destruct o; simplify_eq/=.
Qed.

(** ** What a successful opening has seen *)

Definition open_payload : json := rpc_payload "open_wallet"
  (JObject [("filename", JString (cc_wallet_name (hc_cfg self))); ("password", JString (cc_wallet_password (hc_cfg self)))]%string).
Definition create_payload : json := rpc_payload "create_wallet"
  (JObject [("filename", JString (cc_wallet_name (hc_cfg self))); ("language", JString (cc_language (hc_cfg self)));
            ("password", JString (cc_wallet_password (hc_cfg self)))]%string).
Definition probe_payload : json := rpc_payload "get_address" (JObject []).
(** The wallet accepted to open (or create) this client's wallet and afterwards, asked for nothing else, named an address. *)
Definition opened_and_probed (s' : core_wire) : Prop := exists s1 v l r,
  (returned cj_value open_payload s1 v \/ (cc_create_if_missing (hc_cfg self) = true /\ returned cj_value create_payload s1 v))
  /\ core_log s' = core_log s1 ++ l /\ Forall (fun q => sn_payload q = probe_payload) l
  /\ returned cj_address probe_payload s' r /\ usable_address r <> None.

Lemma nonblank_keep (o : option string) : nonblank o = true -> (v ← o; if is_empty (trim v) then None else Some v) = o /\ o <> None.
Proof. destruct o as [v|]; simpl; [|done]. by destruct (is_empty (trim v)). Qed.

Lemma probe_usable r : nonblank (ga_address r) = true \/ match ga_addresses r with Some items => existsb nonblank items | None => false end = true ->
  usable_address r <> None.
Proof.
  unfold usable_address. cbv zeta. intros [Ha|Hl].
  - destruct (nonblank_keep _ Ha) as [E Hn]. rewrite E. by destruct (ga_address r).
  - destruct (v ← ga_address r; _) as [a|]; [done|]. destruct (ga_addresses r) as [items|]; [|done]. simpl.
    induction items as [|o items IH]; [done|]. simpl in *. destruct (nonblank o) eqn:Eo.
    + destruct (nonblank_keep _ Eo) as [E Hn]. rewrite E. by destruct o.
    + destruct (v ← o; _) as [a|]; [done|]. by apply IH.
Qed.

Lemma probe_ok t s1 s' u v :
  (returned cj_value open_payload s1 v \/ (cc_create_if_missing (hc_cfg self) = true /\ returned cj_value create_payload s1 v)) ->
  try (open_wallet_probe_once self t) s1 = (s', Ok (Ok u)) -> opened_and_probed s'.
Proof.
  intros Hv. unfold try. destruct (open_wallet_probe_once self t s1) as [s2 r] eqn:Hp. intros [= -> ->].
  unfold open_wallet_probe_once in Hp. apply sbind_ok in Hp as (s2 & res & Hc & Hp).
  destruct (csends_call_in (Some (protocol_err ("wallet-rpc " +:+ "get_address" +:+ " timed out after " +:+ dec t +:+ "s"))) cj_address "get_address" (JObject []) s1)
    as (l & Hl & _ & Hf). unfold call_with_timeout in Hc. rewrite Hc in Hl. apply core_call_returned in Hc.
  assert (s' = s2 /\ usable_address res <> None) as [-> Hu].
  { destruct (nonblank (ga_address res)) eqn:E1; [injection Hp as <- _; split; [done|apply probe_usable; by left]|].
    destruct (match ga_addresses res with Some _ => _ | None => _ end) eqn:E2; [|done]. injection Hp as <- _.
    split; [done|]. apply probe_usable. by right. }
  exists s1, v, l, res. done.
Qed.

Lemma open_returned t s s1 u : try (open_wallet_once self t) s = (s1, Ok (Ok u)) -> exists v, returned cj_value open_payload s1 v.
Proof.
  unfold try. destruct (open_wallet_once self t s) as [s2 r] eqn:Ho. intros [= -> ->]. unfold open_wallet_once in Ho.
  apply sbind_ok in Ho as (s2 & v & Hc & Ho). injection Ho as <- _. apply core_call_returned in Hc. by exists v.
Qed.
Lemma create_returned t s s1 u : try (create_wallet_once self t) s = (s1, Ok (Ok u)) -> exists v, returned cj_value create_payload s1 v.
Proof.
  unfold try. destruct (create_wallet_once self t s) as [s2 r] eqn:Ho. intros [= -> ->]. unfold create_wallet_once in Ho.
  apply sbind_ok in Ho as (s2 & v & Hc & Ho). injection Ho as <- _. apply core_call_returned in Hc. by exists v.
Qed.

Lemma ensure_once_ok t s s' u : ensure_once self t s = (s', Ok (Ok u)) -> opened_and_probed s'.
Proof.
  unfold ensure_once. intros (s1 & o & Ho & Hp)%sbind_ok. destruct o as [[]|err].
  { apply open_returned in Ho as [v Hv]. eapply probe_ok; [by left|exact Hp]. }
  destruct (is_wallet_not_found_error err); [|done].
  destruct (cc_create_if_missing (hc_cfg self)) eqn:Ec; [simpl in Hp|done].
  apply sbind_ok in Hp as (s2 & c & Hc & Hp). destruct c as [[]|ce].
  { apply create_returned in Hc as [v Hv]. eapply probe_ok; [by right|exact Hp]. }
  destruct (is_wallet_already_exists_error ce); [|done].
  apply sbind_ok in Hp as (s3 & o & Ho2 & Hp). destruct o as [[]|oe]; [|done].
  apply open_returned in Ho2 as [v Hv]. eapply probe_ok; [by left|exact Hp].
Qed.

Lemma attempts_ok rc n a b last s s' u : open_attempts self rc n a b last s = (s', Ok u) -> opened_and_probed s'.
Proof.
  revert a b last s. induction n as [|n IH]; intros a b last s; [done|]. cbn [open_attempts].
  intros (s1 & r & Hr & Hp)%sbind_ok. destruct r as [[]|err]; [injection Hp as <- _; by eapply ensure_once_ok|].
  cbv zeta in Hp. destruct (negb _ || _); [done|]. apply sbind_ok in Hp as (s2 & b' & _ & Hp). by eapply IH.
Qed.

(** C38. Opening a wallet always ends: whatever the wallet answers, it takes at most fifteen requests per configured attempt and a pause between attempts that is never longer than the larger of the two configured backoffs. Only opening, closing, the address probe and, where the configuration allows it, creating a wallet are ever asked for. *)
Theorem open_bounded s :
  let rc := wallet_open_retry_config_from_env env in
  let s' := (core_ensure_wallet_open env self s).1 in
  exists requests pauses,
    core_log s' = core_log s ++ requests /\ cw_slept s' = cw_slept s ++ pauses
    /\ Z.of_nat (length requests) <= 15 * rc_attempts rc /\ Forall opening requests
    /\ Z.of_nat (length pauses) <= rc_attempts rc - 1
    /\ Forall (fun ms => ms <= Z.max (rc_backoff_base_ms rc) (rc_backoff_max_ms rc)) pauses.
Proof.
  cbv zeta. pose proof attempts_positive as Hp. destruct (csends_ensure s) as (l & Hl & Hn & Hf).
  unfold core_ensure_wallet_open in *. cbv zeta in *. set (rc := wallet_open_retry_config_from_env env) in *.
  destruct (sleeps_attempts rc (Z.to_nat (rc_attempts rc)) 1 (rc_backoff_base_ms rc) None (Z.max (rc_backoff_base_ms rc) (rc_backoff_max_ms rc)))
    with (w := s) as (k & Hk & Hm & Hg); [lia..|]. exists l, k. splits; [exact Hl|exact Hk|lia|exact Hf|lia|exact Hg].
Qed.

(** When a wallet counts as open, it is this client's wallet that was opened or created: the wallet process accepted to open it under its name and password, or to create it where that is configured, and after that, asked for nothing else, named a usable address. *)
Theorem open_verified s s' u : core_ensure_wallet_open env self s = (s', Ok u) -> opened_and_probed s'.
Proof. apply attempts_ok. Qed.

(** ** The bootstrap of multisig *)

Definition experimental (r : Sent) : Prop := sn_payload r = rpc_payload "prepare_multisig" experimental_params.

Lemma payload_inj m p m' p' : rpc_payload m p = rpc_payload m' p' -> m = m' /\ p = p'.
Proof. unfold rpc_payload. by intros [= -> ->]. Qed.

Lemma opening_not_experimental r : opening r -> ~ experimental r.
Proof. intros (m & [p Hp] & Hm) He. rewrite He in Hp. apply payload_inj in Hp as [<- _]. by destruct Hm as [?|[?|[?|[_ ?]]]]. Qed.

Lemma plain_call {R} late (decode : Response -> result string (RpcResponse R)) method params :
  method <> "prepare_multisig"%string \/ params <> experimental_params ->
  csends 0 3 (fun r => ~ experimental r) (core_call_in self late decode method params).
Proof. intros Hne. apply csends_method. intros r Hr He. rewrite He in Hr. apply payload_inj in Hr as [E1 E2]. destruct Hne; congruence. Qed.

Lemma prepare_strict : hc_multisig_mode self = Strict -> csends 0 3 (fun r => ~ experimental r) (prepare_call self).
Proof.
  intros Hs. unfold prepare_call. rewrite Hs. apply (sends_bind 0 3 0).
  - apply csends_try, plain_call. by right.
  - intros [v|err]; [apply sends_ret|]. destruct (is_multisig_disabled_error err); apply sends_fail.
Qed.

(** In strict mode the client never asks the wallet for the experimental multisig bootstrap, whatever the wallet answers. *)
Theorem strict_never_experimental s : hc_multisig_mode self = Strict ->
  exists l, core_log (prepare_multisig_flow env self s).1 = core_log s ++ l /\ Forall (fun r => ~ experimental r) l.
Proof.
  intros Hs. assert (csends 0 (15 * Z.to_nat (rc_attempts (wallet_open_retry_config_from_env env)) + 9) (fun r => ~ experimental r)
    (prepare_multisig_flow env self)) as Hf.
  { unfold prepare_multisig_flow. apply (sends_bind 0 _ 9).
    - eapply sends_impl; [apply opening_not_experimental|eapply sends_weaken; [apply csends_ensure|lia..]].
    - intros _. apply (sends_bind 0 3 6); [by apply prepare_strict|]. intros [res used]. apply (sends_bind 0 0 6); [apply sends_lift|]. intros out.
      apply (sends_bind 0 3 3).
      + destruct used; [|eapply sends_weaken; [apply sends_ret|lia..]].
        apply (sends_bind 0 3 0); [apply plain_call; by left|intros _; apply sends_ret].
      + intros _. apply (sends_bind 0 3 0); [|intros _; apply sends_ret]. apply (sends_bind 0 3 0); [apply plain_call; by left|intros _; apply sends_ret]. }
  destruct (Hf s) as (l & Hl & _ & Hp). by exists l.
Qed.

(** ** Results are stored *)

Definition store_payload : json := rpc_payload "store" (JObject []).

Lemma store_returned s s' u : store_wallet self s = (s', Ok u) -> exists v, returned cj_value store_payload s' v.
Proof. unfold store_wallet. intros (s1 & v & Hc & Hp)%sbind_ok. injection Hp as <- _. apply core_call_returned in Hc. by exists v. Qed.

Lemma multisig_returned {R} (decode : Response -> result string (RpcResponse R)) method params s s' r :
  call_multisig self decode method params s = (s', Ok r) -> returned decode (rpc_payload method params) s' r.
Proof.
  unfold call_multisig. intros (s1 & o & Ho & Hp)%sbind_ok. unfold try, core_call in Ho.
  destruct (core_call_in self None decode method params s) as [s2 r2] eqn:Hc. injection Ho as <- <-.
  destruct r2 as [v|err]; [|by destruct (is_multisig_disabled_error err)]. injection Hp as <- <-. by eapply core_call_returned.
Qed.

Lemma hex_payload_ok value label m v : validate_hex_payload value label m = Ok v ->
  v = trim value /\ 0 < len v <= m /\ len v mod 2 = 0 /\ sall is_ascii_hexdigit v = true.
Proof.
  unfold validate_hex_payload. cbv zeta. intros Hv. destruct (is_empty (trim value)) eqn:E1; [done|].
  destruct (Z.ltb_spec m (len (trim value))); [done|]. simpl in Hv. destruct (Z.eqb_spec (len (trim value) mod 2) 0); [|done]. simpl in Hv.
  destruct (sall is_ascii_hexdigit (trim value)) eqn:E4; [|done]. simpl in Hv. injection Hv as <-. split; [done|]. split; [|done].
  split; [|done]. pose proof (len_nonneg (trim value)). destruct (Z.eq_dec (len (trim value)) 0) as [E|]; [|lia].
  apply len_zero in E. by rewrite E in E1.
Qed.

(** The steps behind a returned signature. *)
Lemma signature_stored_aux tx s s' r : sign_multisig_flow env self tx s = (s', Ok r) ->
  exists s1 s2 res v,
    opened_and_probed s1 /\ returned cj_sign (rpc_payload "sign_multisig" (tx_params (trim tx))) s2 res
    /\ returned cj_value store_payload s' v /\ sm_tx_data_hex res = Some (cs_tx_data_hex r)
    /\ core_log s1 `prefix_of` core_log s2 /\ core_log s2 `prefix_of` core_log s'
    /\ 0 < len (trim tx) <= tx_hex_max_len env /\ sall is_ascii_hexdigit (trim tx) = true.
Proof.
  unfold sign_multisig_flow. intros (s0 & t & Ht & Hp)%sbind_ok. injection Ht as <- Ht. apply hex_payload_ok in Ht as (-> & Hl & _ & Hx).
  apply sbind_ok in Hp as (s1 & [] & Ho & Hp). apply sbind_ok in Hp as (s2 & res & Hs & Hp).
  apply sbind_ok in Hp as (s3 & [] & Hst & Hp). apply sbind_ok in Hp as (s4 & h & Hh & Hp). injection Hh as <- Hh.
  injection Hp as <- <-. apply ok_or_ok in Hh.
  pose proof (attempts_ok _ _ _ _ _ _ _ _ Ho) as Hop.
  assert (core_log s1 `prefix_of` core_log s2) as P1.
  { assert (csends 0 3 (fun _ => True) (call_multisig self cj_sign "sign_multisig" (tx_params (trim tx)))) as Hc.
    { apply (sends_bind 0 3 0); [by apply csends_try, csends_method|]. intros [w|e]; [apply sends_ret|].
      destruct (is_multisig_disabled_error e); apply sends_fail. }
    destruct (Hc s1) as (l & Hl1 & _). rewrite Hs in Hl1. by exists l. }
  assert (core_log s2 `prefix_of` core_log s3) as P2.
  { assert (csends 0 3 (fun _ => True) (store_wallet self)) as Hc.
    { apply (sends_bind 0 3 0); [by apply csends_method|]. intros; apply sends_ret. }
    destruct (Hc s2) as (l & Hl1 & _). rewrite Hst in Hl1. by exists l. }
  apply multisig_returned in Hs. apply store_returned in Hst as [v Hv]. by exists s1, s2, res, v.
Qed.

(** A signature the flow returns comes from this client's wallet, for exactly the trimmed hex that was asked for, and the wallet was stored after signing: the wallet was opened and probed, then returned a signature for that hex, then acknowledged the store, in this order. *)
Theorem signature_stored tx s s' r : sign_multisig_flow env self tx s = (s', Ok r) ->
  exists s1 s2 res v,
    opened_and_probed s1 /\ returned cj_sign (rpc_payload "sign_multisig" (tx_params (trim tx))) s2 res
    /\ returned cj_value store_payload s' v /\ sm_tx_data_hex res = Some (cs_tx_data_hex r)
    /\ core_log s1 `prefix_of` core_log s2 /\ core_log s2 `prefix_of` core_log s'
    /\ 0 < len (trim tx) <= tx_hex_max_len env /\ sall is_ascii_hexdigit (trim tx) = true.
Proof. apply signature_stored_aux. Qed.

(** What the wallet says of a transfer is used only for the transaction asked about, with the parties it names. *)
Theorem transfer_of_txid txid s s' t : get_transfer_by_txid_flow env self txid s = (s', Ok t) ->
  tb_txid t = trim txid /\ len (tb_txid t) = 64 /\ Forall (fun d => is_empty (trim (td_address d)) = false) (tb_destinations t).
Proof.
  unfold get_transfer_by_txid_flow. intros (s0 & x & Hx & Hp)%sbind_ok. injection Hx as <- Hx.
  apply sbind_ok in Hp as (s1 & [] & _ & Hp). apply sbind_ok in Hp as (s2 & res & _ & Hp). injection Hp as <- Hr.
  unfold validate_txid in Hx. cbv zeta in Hx. destruct (Z.eqb_spec (len (trim txid)) 64) as [E|]; [|done].
  destruct (sall is_ascii_hexdigit (trim txid)); [|done]. injection Hx as <-.
  unfold transfer_of_response in Hr. destruct (match gt_transfer res with Some _ => _ | None => _ end) as [e|]; [|done].
  simpl in Hr. destruct (String.eqb_spec (default EmptyString (ti_txid e)) (trim txid)) as [Et|]; [|done]. simpl in Hr.
  injection Hr as <-. simpl. split; [done|]. split; [by rewrite Et|]. apply Forall_forall. intros d Hd.
  apply list_elem_of_omap in Hd as (raw & _ & Hraw). unfold entry_destination in Hraw.
  destruct (te_address raw) as [a|], (te_amount raw) as [n|]; try done. simpl in Hraw.
  destruct (is_empty (trim a)) eqn:Ea; [done|]. by injection Hraw as <-.
Qed.
End calls.

#[export] Hint Resolve sends_lift sends_ret sends_fail csends_sleep csends_try : csends.

(** ** An instance: a wallet that answers every request, after a challenge *)

Definition core_toy_server (_ : list Sent) (req : Sent) : result string Response :=
  match sn_auth req with
  | None => Ok (MkResponse 401 [Some (print_challenge (MkChallenge "monero-rpc" "n1" (Some "auth"%string) "MD5" None false))] EmptyString)
  | Some _ => Ok (MkResponse 200 [] EmptyString)
  end.
Definition core_toy_answer {A} (a : A) (_ : Response) : result string (RpcResponse A) := Ok (MkRpcResponse (Some a) None).
#[export] Instance core_toy : CoreLib := {|
  core_md5 := toy_md5; core_rng := fun _ => "rng"%string; core_url := fun _ => Ok ("/json_rpc"%string, None); core_server := core_toy_server;
  core_stalls := fun _ _ => false; core_text := fun r => Ok (rp_body r);
  cj_value := core_toy_answer (JObject []); cj_info := core_toy_answer (MkInfoResponse (Some "info"%string));
  cj_export := core_toy_answer (MkExportResponse None); cj_import := core_toy_answer (MkImportResponse None);
  cj_sign := core_toy_answer (MkSignResponse (Some "00bb"%string) None); cj_submit := core_toy_answer (MkSubmitResponse None);
  cj_balance := core_toy_answer (MkBalanceResponse None None); cj_finalize := core_toy_answer (MkAddressResponse None);
  cj_address := core_toy_answer (MkGetAddressResponse (Some "4A"%string) None);
  cj_transfer := core_toy_answer (MkGetTransfer None None); cj_version := core_toy_answer (MkVersion None);
  cj_multisig := core_toy_answer (MkIsMultisig None None None None) |}.
Definition no_env (_ : string) : option string := None.
Definition core_start : core_wire := CoreWire new_wire [].
Definition strict_client : HttpWalletRpcClient :=
  MkHttpClient (MkCoreConfig "http://127.0.0.1:18083" "arb_escrow_1" "pw" "user" "secret" "English" false) Strict.

Lemma open_verified_witness : opened_and_probed strict_client (core_ensure_wallet_open no_env strict_client core_start).1.
Proof. eapply (open_verified no_env strict_client core_start _ tt). vm_compute. reflexivity. Defined.

Lemma strict_never_experimental_witness :
  exists l, core_log (prepare_multisig_flow no_env strict_client core_start).1 = core_log core_start ++ l /\ Forall (fun r => ~ experimental r) l.
Proof. apply (strict_never_experimental no_env strict_client core_start). reflexivity. Defined.

Lemma signature_stored_witness :
  exists s2 res, returned cj_sign (rpc_payload "sign_multisig" (tx_params "00aa")) s2 res.
Proof.
  destruct (signature_stored no_env strict_client " 00aa" core_start (sign_multisig_flow no_env strict_client " 00aa" core_start).1 (MkCoreSigned "00bb" []))
    as (s1 & s2 & res & v & _ & Hs & _); [vm_compute; reflexivity|]. exists s2, res. exact Hs.
Defined.

(** Without an upper backoff of its own, a base above 2500 ms makes the first pause longer than the upper backoff. *)
Definition slow_env (name : string) : option string :=
  if (name =? "XMR_WALLET_RPC_OPEN_RETRY_BASE_MS")%string then Some "60000"%string else None.
Lemma base_above_max :
  let rc := wallet_open_retry_config_from_env slow_env in rc_backoff_max_ms rc < rc_backoff_base_ms rc.
Proof. reflexivity. Qed.

(** The client of the escrow service repeats no count when its counter wraps. *)
Lemma core_count_after_wrap nonce sent :
  let '(w1, n1) := CoreRpc.next_digest_nc (Wire (2 ^ 32 - 1) nonce sent) in n1 = "00000001"%string /\ (CoreRpc.next_digest_nc w1).2 = "00000002"%string.
Proof. done. Qed.
