(* ===== verification/CoreRuntime.v ===== *)
(** * Calls to the pool of wallet processes

    [crates/nxms-monero-core/src/rpc/wallet_runtime.rs]: the configuration of an
    escrow's wallet, the cache of clients, the circuit breaker per endpoint and
    [wallet_rpc_call]; [crypto/multisig.rs], the engine the calls go through; and
    the endpoints of [bridge.rs] that are one such call.  The state holds the
    process-wide tables, the cells of every client ever built, the log of
    requests to all wallets, and the requests sent by the time a task got the
    lock of an endpoint.  Poisoned mutexes are not modelled. *)

From S2P Require Import Prelude RustString Sql Json Escrow FeePolicy Bridge SignerConfig Digest WalletRpc CoreRpc.

(** ** The engine *)

Definition MAX_RPC_BLOB_ITEMS : Z := 16.
Definition MAX_RPC_BLOB_LEN : Z := 20000.
Fixpoint check_blobs (name : string) (idx : nat) (values : list string) : result MoneroError unit :=
  match values with
  | [] => Ok tt
  | item :: rest =>
      let trimmed := trim item in
      let? _ := fail_if (is_empty trimmed) (InvalidArgument (name +:+ "[" +:+ dec (Z.of_nat idx) +:+ "] cannot be empty")) in
      let? _ := fail_if (MAX_RPC_BLOB_LEN <? len trimmed) (InvalidArgument (name +:+ "[" +:+ dec (Z.of_nat idx) +:+ "] too long (max 20000)")) in
      check_blobs name (S idx) rest
  end.
Definition validate_blob_list (name : string) (values : list string) (expected_items : option Z) : result MoneroError unit :=
  let n := Z.of_nat (length values) in
  let? _ := fail_if (n =? 0) (MissingData (name +:+ " must not be empty")) in
  let? _ := fail_if (MAX_RPC_BLOB_ITEMS <? n) (InvalidArgument (name +:+ " has too many items (max 16)")) in
  let? _ := fail_if (match expected_items with Some e => negb (n =? e) | None => false end)
              (InvalidArgument (name +:+ " must contain exactly " +:+ dec (default 0 expected_items) +:+ " item(s)")) in
  check_blobs name 0 values.

Record MoneroMultisigEngine : Type := MkEngine { en_threshold : Z; en_total : Z; en_my_index : Z }.
Definition engine_new (threshold total my_index : Z) : result MoneroError MoneroMultisigEngine :=
  let? _ := fail_if ((threshold =? 0) || (total <? threshold)) (InvalidArgument "threshold must be in range 1..=total") in
  let? _ := fail_if (total <=? my_index) (InvalidArgument "my_index must be < total") in
  Ok (MkEngine threshold total my_index).
Definition XMR_MULTISIG_THRESHOLD : Z := 2.
Definition XMR_MULTISIG_TOTAL : Z := 3.
Definition XMR_MULTISIG_ARBITER_INDEX : Z := 0.

Section engine.
Context `{CoreLib} (env : string -> option string) (engine : MoneroMultisigEngine) (client : HttpWalletRpcClient).
(** [self.total.saturating_sub(1)] *)
Definition others : Z := Z.max 0 (en_total engine - 1).
Definition prepare_round1_via_wallet_rpc : CR string := prepare_multisig_flow env client.
Definition make_round2_via_wallet_rpc (other_r1 : list string) : CR string :=
  let* _ := slift (validate_blob_list "other_r1" other_r1 (Some others)) in make_multisig_flow env client other_r1 (en_threshold engine).
Definition exchange_round3_via_wallet_rpc (other_r2 : list string) : CR string :=
  let* _ := slift (validate_blob_list "other_r2" other_r2 (Some others)) in exchange_multisig_keys_flow env client other_r2.
Definition deposit_address_via_wallet_rpc : CR string := get_address_flow env client.
Definition balance_via_wallet_rpc : CR (Z * Z) := get_balance_flow env client.
Definition transfer_by_txid_via_wallet_rpc (txid : string) : CR TransferByTxid := get_transfer_by_txid_flow env client txid.
Definition finalize_multisig_via_wallet_rpc (multisig_info : list string) : CR string :=
  let* _ := slift (validate_blob_list "multisig_info" multisig_info (Some others)) in finalize_multisig_flow env client multisig_info.
Definition export_multisig_info_via_wallet_rpc : CR string := export_multisig_info_flow env client.
Definition import_multisig_info_via_wallet_rpc (info : list string) : CR Z :=
  let* _ := slift (validate_blob_list "info" info None) in import_multisig_info_flow env client info.
Definition sign_multisig_via_wallet_rpc (tx_data_hex : string) : CR SignedMultisigTx :=
  let* tx := slift (validate_hex_payload tx_data_hex "tx_data_hex" (tx_hex_max_len env)) in sign_multisig_flow env client tx.
Definition submit_multisig_via_wallet_rpc (tx_data_hex : string) : CR (list string) :=
  let* tx := slift (validate_hex_payload tx_data_hex "tx_data_hex" (tx_hex_max_len env)) in submit_multisig_flow env client tx.
End engine.

(** ** The configuration of an escrow's wallet *)

Section pool.
Context (env : string -> option string).

Definition env_true (name : string) : bool :=
  match env name with
  | Some v => let v := to_ascii_lowercase (trim v) in (v =? "1")%string || (v =? "true")%string || (v =? "yes")%string || (v =? "on")%string
  | None => false
  end.
Definition wallet_pool_required : bool :=
  env_true "XMR_WALLET_RPC_POOL_REQUIRED" || (env_true "NXMS_ESCROW_HTTP_PRODUCTION_HARDENING" && negb (env_true "ESCROW_ALLOW_INSECURE")).
Definition unique_port_count (ports : list Z) : Z := Z.of_nat (size (list_to_set ports : gset Z)).
Definition ensure_wallet_pool_has_minimum_isolation (ports : list Z) : result MoneroError unit :=
  fail_if (unique_port_count ports <? 3)
    (InvalidArgument ("XMR_WALLET_RPC_POOL_PORTS must contain at least 3 unique ports in production (got " +:+ dec (unique_port_count ports) +:+ ")")).
Definition parse_u16 (s : string) : option Z := n ← parse_u64 s; if n <=? 65535 then Some n else None.
Fixpoint parse_ports (l : list string) : result MoneroError (list Z) :=
  match l with
  | [] => Ok []
  | p :: l' =>
      let? n := ok_or (parse_u16 p) (InvalidArgument ("invalid port in XMR_WALLET_RPC_POOL_PORTS: " +:+ p)) in
      let? ns := parse_ports l' in
      Ok (n :: ns)
  end.
Definition pick_port (escrow_id : Z) : result MoneroError Z :=
  let pool := default EmptyString (env "XMR_WALLET_RPC_POOL_PORTS") in
  if negb (is_empty (trim pool)) then
    let? ports := parse_ports (List.filter (fun p => negb (is_empty p)) (map trim (split_char "," pool))) in
    let? _ := fail_if (match ports with [] => true | _ => false end) (InvalidArgument "XMR_WALLET_RPC_POOL_PORTS is empty") in
    let? _ := if wallet_pool_required then ensure_wallet_pool_has_minimum_isolation ports else Ok tt in
    Ok (nth (Z.to_nat (escrow_id mod Z.of_nat (length ports))) ports 0)
  else if wallet_pool_required then
    Err (InvalidArgument "XMR_WALLET_RPC_POOL_PORTS is required with at least 3 unique ports when production hardening is enabled")
  else
    let single := default "18083"%string (env "XMR_WALLET_RPC_PORT") in
    ok_or (parse_u16 single) (InvalidArgument ("invalid XMR_WALLET_RPC_PORT: " +:+ single)).

Definition required_env (name : string) : result MoneroError string :=
  ok_or (v ← env name; if is_empty (trim v) then None else Some v) (InvalidArgument (name +:+ " must be set for Rust wallet-rpc runtime")).
Definition wallet_rpc_config (escrow_id : Z) : result MoneroError WalletRpcConfig :=
  let host := default "127.0.0.1"%string (env "XMR_WALLET_RPC_HOST") in
  let? port := pick_port escrow_id in
  let host := trim_end_slashes (trim host) in
  let? _ := fail_if (is_empty host) (InvalidArgument "XMR_WALLET_RPC_HOST must not be empty") in
  let? _ := fail_if (contains "://" host) (InvalidArgument "XMR_WALLET_RPC_HOST must be host-only (without scheme)") in
  let? wallet_password := required_env "XMR_ARBITER_WALLET_PASS" in
  let? username := required_env "XMR_WALLET_RPC_USER" in
  let? password := required_env "XMR_WALLET_RPC_PASS" in
  Ok (MkCoreConfig ("http://" +:+ host +:+ ":" +:+ dec port) ("arb_escrow_" +:+ dec escrow_id) wallet_password username password "English" true).

Definition parse_i64 (s : string) : option Z :=
  match s with
  | String "-" s' => if match s' with String "+" _ => true | _ => false end then None else
      n ← parse_u64 s'; if n <=? - I64_MIN then Some (- n) else None
  | _ => n ← parse_u64 s; if n <=? I64_MAX then Some n else None
  end.
Record WalletClientCacheConfig : Type := MkCacheConfig { ca_max_entries : Z; ca_max_age_s : Z }.
Definition wallet_client_cache_config : WalletClientCacheConfig :=
  MkCacheConfig (Z.max 500 (default 20000 (env "XMR_WALLET_RPC_CLIENT_CACHE_MAX_ENTRIES" ≫= parse_u64)))
                (Z.max 60 (default (6 * 3600) (env "XMR_WALLET_RPC_CLIENT_CACHE_MAX_AGE_S" ≫= parse_i64))).
Record WalletCircuitConfig : Type := MkCircuitConfig { ci_fail_threshold : Z; ci_open_secs : Z }.
Definition wallet_circuit_config : WalletCircuitConfig :=
  MkCircuitConfig (default 3 (positive (env "XMR_WALLET_RPC_CB_FAIL_THRESHOLD" ≫= parse_u32)))
                  (default 20 (positive (env "XMR_WALLET_RPC_CB_OPEN_SECS" ≫= parse_i64))).
End pool.

(** ** The tables *)

(** A client: its configuration and the number of its cells. *)
Record client_ref : Type := ClientRef { cr_client : HttpWalletRpcClient; cr_cell : nat }.
Record CachedClient : Type := MkCachedClient { ch_client : client_ref; ch_last_used_ts : Z }.
Record WalletCircuitState : Type := MkCircuit { ws_consecutive_failures : Z; ws_open_until_ts : Z }.

Record runtime : Type := Runtime {
  rt_clients : gmap Z CachedClient;
  rt_circuits : gmap string WalletCircuitState;
  rt_cells : gmap nat (Z * option string);
  rt_made : nat;
  rt_requests : list Sent;
  rt_slept : list Z;
  rt_ticks : nat;
  (** endpoint and number of requests sent, for each time its lock was taken *)
  rt_locked : list (string * nat);
}.
Notation RT := (M runtime MoneroError).
Definition set_clients (c : gmap Z CachedClient) (s : runtime) : runtime :=
  Runtime c (rt_circuits s) (rt_cells s) (rt_made s) (rt_requests s) (rt_slept s) (rt_ticks s) (rt_locked s).
Definition set_circuits (c : gmap string WalletCircuitState) (s : runtime) : runtime :=
  Runtime (rt_clients s) c (rt_cells s) (rt_made s) (rt_requests s) (rt_slept s) (rt_ticks s) (rt_locked s).

(** The oldest first; entries of one age keep the order of the map. *)
Definition older (a b : Z * CachedClient) : bool := ch_last_used_ts a.2 <=? ch_last_used_ts b.2.
Definition prune_wallet_clients (max_entries : Z) (clients : list (Z * CachedClient)) : list Z :=
  let n := Z.of_nat (length clients) in
  if n <=? max_entries then [] else map fst (take (Z.to_nat (n - max_entries)) (order_by older clients)).

Section runtime.
Context `{CoreLib} (env : string -> option string) (clock : nat -> Z).

Definition now_ts : RT Z := fun s =>
  (Runtime (rt_clients s) (rt_circuits s) (rt_cells s) (rt_made s) (rt_requests s) (rt_slept s) (S (rt_ticks s)) (rt_locked s), Ok (clock (rt_ticks s))).

(** [BTreeMap] iterates in the order of its keys. *)
Definition key_le (a b : Z * CachedClient) : bool := a.1 <=? b.1.
Definition in_key_order (m : gmap Z CachedClient) : list (Z * CachedClient) := order_by key_le (map_to_list m).
Definition pruned (max_entries : Z) (m : gmap Z CachedClient) : gmap Z CachedClient :=
  foldl (fun m k => delete k m) m (prune_wallet_clients max_entries (in_key_order m)).

Definition new_ref (cfg : WalletRpcConfig) : RT client_ref := fun s =>
  let r := ClientRef (new_http_client env cfg) (rt_made s) in
  (Runtime (rt_clients s) (rt_circuits s) (<[rt_made s := (0, None)]> (rt_cells s)) (S (rt_made s)) (rt_requests s) (rt_slept s) (rt_ticks s) (rt_locked s), Ok r).

Definition wallet_client (escrow_id : Z) : RT client_ref :=
  let cfg := wallet_client_cache_config env in
  let* now := now_ts in
  let stale_before := now - ca_max_age_s cfg in
  let* _ := smodify (fun s => set_clients (filter (fun kv => kv.1 = escrow_id \/ stale_before <= ch_last_used_ts kv.2) (rt_clients s)) s) in
  let* cached := sget (fun s => ch_client <$> rt_clients s !! escrow_id) in
  let* _ := smodify (fun s => set_clients (pruned (ca_max_entries cfg)
              (match rt_clients s !! escrow_id with Some e => <[escrow_id := MkCachedClient (ch_client e) now]> (rt_clients s) | None => rt_clients s end)) s) in
  match cached with
  | Some client => sret client
  | None =>
      let* c := slift (wallet_rpc_config env escrow_id) in
      let* client := new_ref c in
      let* _ := smodify (fun s => set_clients (pruned (ca_max_entries cfg) (<[escrow_id := MkCachedClient client now]> (rt_clients s))) s) in
      let* existing := sget (fun s => ch_client <$> rt_clients s !! escrow_id) in
      sret (default client existing)
  end.
Definition invalidate_wallet_client (escrow_id : Z) : RT unit := smodify (fun s => set_clients (delete escrow_id (rt_clients s)) s).

(** A computation of a client, on its cells and the common log. *)
Definition with_client {A} (r : client_ref) (m : CR A) : RT A := fun s =>
  let '(nc, nonce) := default (0, None) (rt_cells s !! cr_cell r) in
  let '(c, res) := m (CoreWire (Wire nc nonce (rt_requests s)) (rt_slept s)) in
  (Runtime (rt_clients s) (rt_circuits s) (<[cr_cell r := (digest_nc (cw_wire c), digest_nonce (cw_wire c))]> (rt_cells s)) (rt_made s)
     (sent (cw_wire c)) (cw_slept c) (rt_ticks s) (rt_locked s), res).

(** *** The circuit breaker *)

Definition circuit_open (endpoint : string) (now : Z) (s : runtime) : option Z :=
  st ← rt_circuits s !! endpoint; if now <? ws_open_until_ts st then Some (ws_open_until_ts st - now) else None.
Definition wallet_circuit_before_call (endpoint op_name : string) : RT unit :=
  let* now := now_ts in
  let* open := sget (circuit_open endpoint now) in
  match open with
  | Some rem => sfail (protocol_err ("wallet-rpc circuit open for endpoint " +:+ endpoint +:+ "; retry in " +:+ dec rem +:+ "s (" +:+ op_name +:+ ")"))
  | None => sret tt
  end.
Definition wallet_circuit_record_success (endpoint : string) : RT unit := smodify (fun s => set_circuits (delete endpoint (rt_circuits s)) s).
Definition after_failure (cfg : WalletCircuitConfig) (now : Z) (st : WalletCircuitState) : WalletCircuitState :=
  let failures := sat_add_u32 (ws_consecutive_failures st) 1 in
  if ci_fail_threshold cfg <=? failures then MkCircuit 0 (now + ci_open_secs cfg) else MkCircuit failures (ws_open_until_ts st).
Definition wallet_circuit_record_failure (endpoint : string) : RT unit :=
  let* now := now_ts in
  smodify (fun s => set_circuits (<[endpoint := after_failure (wallet_circuit_config env) now (default (MkCircuit 0 0) (rt_circuits s !! endpoint))]> (rt_circuits s)) s).
Definition should_trip_circuit (err : MoneroError) : bool :=
  match err with
  | WalletRpc e => is_transient e || match e with Protocol msg => error_contains ["timed out"; "timeout"]%string (Protocol msg) | _ => false end
  | _ => false
  end.

(** *** One call *)

(** [endpoint_mutex(..).lock().await]: the task has the endpoint for itself from here on. *)
Definition lock_endpoint (endpoint : string) : RT unit := smodify (fun s =>
  Runtime (rt_clients s) (rt_circuits s) (rt_cells s) (rt_made s) (rt_requests s) (rt_slept s) (rt_ticks s) (rt_locked s ++ [(endpoint, length (rt_requests s))])).
Definition attempt {A} (m : RT A) : RT (result MoneroError A) := fun s => let '(s', r) := m s in (s', Ok r).

(** A call is one computation on the tables: nothing of another call comes between its steps. The service runs calls of different escrows concurrently; what the steps of two calls do to each other is stated where it matters, on explicit interleavings. *)
Definition wallet_rpc_call {T} (escrow_id : Z) (op_name : string) (op : MoneroMultisigEngine -> HttpWalletRpcClient -> CR T) : RT T :=
  let* client := wallet_client escrow_id in
  let* _ := with_client client (core_ensure_wallet_open env (cr_client client)) in
  let endpoint := endpoint_key (cr_client client) in
  let* _ := wallet_circuit_before_call endpoint op_name in
  let* _ := lock_endpoint endpoint in
  let* _ := wallet_circuit_before_call endpoint op_name in
  let* engine := slift (engine_new XMR_MULTISIG_THRESHOLD XMR_MULTISIG_TOTAL XMR_MULTISIG_ARBITER_INDEX) in
  let* r := attempt (with_client client (op engine (cr_client client))) in
  match r with
  | Ok v => let* _ := wallet_circuit_record_success endpoint in sret v
  | Err err =>
      let* _ := invalidate_wallet_client escrow_id in
      let* _ := if should_trip_circuit err then wallet_circuit_record_failure endpoint else sret tt in
      sfail err
  end.

(** ** Endpoints of the bridge that are one call *)

Definition prepare_r1 (escrow_id : Z) : RT string :=
  wallet_rpc_call escrow_id "prepare_multisig" (fun _ client => prepare_round1_via_wallet_rpc env client).
Definition finalize_multisig (escrow_id : Z) (multisig_info : list string) : RT string :=
  wallet_rpc_call escrow_id "finalize_multisig" (fun engine client => finalize_multisig_via_wallet_rpc env engine client multisig_info).
Definition export_multisig_info (escrow_id : Z) : RT string :=
  wallet_rpc_call escrow_id "export_multisig_info" (fun _ client => export_multisig_info_via_wallet_rpc env client).
Definition import_multisig_info (escrow_id : Z) (info : list string) : RT Z :=
  wallet_rpc_call escrow_id "import_multisig_info" (fun _ client => import_multisig_info_via_wallet_rpc env client info).
Definition bridge_sign_multisig (escrow_id : Z) (tx_data_hex : string) : RT SignedMultisigTx :=
  wallet_rpc_call escrow_id "sign_multisig" (fun _ client => sign_multisig_via_wallet_rpc env client tx_data_hex).
Definition bridge_submit_multisig (escrow_id : Z) (tx_data_hex : string) : RT (list string) :=
  wallet_rpc_call escrow_id "submit_multisig" (fun _ client => submit_multisig_via_wallet_rpc env client tx_data_hex).
End runtime.
