(* ===== verification/CoreRuntimeProps.v ===== *)
(** * Properties of the calls to the wallet pool

    A client found in the cache belongs to the escrow it is looked up for, the
    cache stays within its bound, the circuit breaker opens after the configured
    number of failures and then keeps operations from running, and a pool in
    production has three ports. *)

From S2P Require Import Prelude RustString Sql Json Escrow Bridge SignerConfig Digest WalletRpc CoreRpc CoreRpcProps CoreRuntime.

(** ** The cache *)

Section cache.
Context `{CoreLib} (env : string -> option string) (clock : nat -> Z).

(** The client of escrow [id]: built from the configuration of this escrow. *)
Definition client_of (id : Z) (r : client_ref) : Prop :=
  exists cfg, wallet_rpc_config env id = Ok cfg /\ cr_client r = new_http_client env cfg.
Definition cache_ok (s : runtime) : Prop := forall id e, rt_clients s !! id = Some e -> client_of id (ch_client e).

Lemma client_wallet id r : client_of id r -> cc_wallet_name (hc_cfg (cr_client r)) = ("arb_escrow_" +:+ dec id)%string.
Proof.
  intros (cfg & Hc & ->). simpl. unfold wallet_rpc_config in Hc. cbv zeta in Hc.
  do 6 (apply rbind_ok in Hc as (? & ? & Hc)). by injection Hc as <-.
Qed.

Lemma deletes_sub (l : list Z) (m : gmap Z CachedClient) k e : foldl (fun m k => delete k m) m l !! k = Some e -> m !! k = Some e.
Proof. revert m. induction l as [|x l IH]; intros m; [done|]. simpl. intros Hk%IH. by apply lookup_delete_Some in Hk as [_ Hk]. Qed.

Lemma pruned_sub n (m : gmap Z CachedClient) k e : pruned n m !! k = Some e -> m !! k = Some e.
Proof. apply deletes_sub. Qed.

Lemma cache_set s m : (forall id e, m !! id = Some e -> client_of id (ch_client e)) -> cache_ok (set_clients m s).
Proof. done. Qed.

Lemma preserves_with_client {A} r (m : CR A) : preserves cache_ok (with_client r m).
Proof. intros s Hs. unfold with_client. destruct (default _ _) as [nc nonce]. by destruct (m _) as [c res]. Qed.

Lemma preserves_attempt {A} (m : RT A) : preserves cache_ok m -> preserves cache_ok (attempt m).
Proof. intros Hm s Hs. specialize (Hm s Hs). unfold attempt. by destruct (m s). Qed.

Lemma preserves_now : preserves cache_ok (now_ts clock).
Proof. by intros s Hs. Qed.

Lemma preserves_before e n : preserves cache_ok (wallet_circuit_before_call clock e n).
Proof.
  apply preserves_bind; [apply preserves_now|]. intros now. apply preserves_bind; [by intros s Hs|]. intros [rem|]; by intros s Hs.
Qed.

Lemma deletes_size (l : list Z) (m : gmap Z CachedClient) :
  NoDup l -> (forall k, k ∈ l -> is_Some (m !! k)) -> size (foldl (fun m k => delete k m) m l) = (size m - length l)%nat.
Proof.
  revert m. induction l as [|k l IH]; intros m Hnd Hl; simpl; [lia|]. apply NoDup_cons in Hnd as [Hk Hnd].
  rewrite IH; [|done|].
  - rewrite map_size_delete_Some by (apply Hl; set_solver). lia.
  - intros j Hj. rewrite lookup_delete_ne by (intros ->; done). apply Hl. set_solver.
Qed.

Lemma in_key_order_perm (m : gmap Z CachedClient) : Permutation (in_key_order m) (map_to_list m).
Proof. apply order_by_perm. Qed.

Lemma pruned_size n (m : gmap Z CachedClient) : 0 <= n -> Z.of_nat (size (pruned n m)) <= n.
Proof.
  intros Hn. unfold pruned, prune_wallet_clients. set (l := in_key_order m). cbv zeta.
  assert (length l = size m) as El by (unfold l; rewrite in_key_order_perm; apply length_map_to_list).
  destruct (Z.leb_spec (Z.of_nat (length l)) n); [simpl; lia|].
  assert (Permutation (order_by older l) (map_to_list m)) as Hp by (rewrite order_by_perm; apply in_key_order_perm).
  rewrite deletes_size.
  - rewrite length_map, length_take, (Permutation_length Hp), length_map_to_list. lia.
  - rewrite <- firstn_map. eapply (NoDup_app _ (skipn _ _)). rewrite firstn_skipn.
    rewrite Hp. apply NoDup_fst_map_to_list.
  - intros k Hk. apply list_elem_of_fmap in Hk as ([k' e] & -> & Hk). apply elem_of_take in Hk as (j & Hj & _).
    apply list_elem_of_lookup_2 in Hj. rewrite Hp in Hj. apply elem_of_map_to_list in Hj. simpl. by rewrite Hj.
Qed.

Lemma cache_bound_positive : 0 <= ca_max_entries (wallet_client_cache_config env).
Proof. unfold wallet_client_cache_config. simpl. lia. Qed.

Lemma new_ref_spec cfg s : exists s', new_ref env cfg s = (s', Ok (ClientRef (new_http_client env cfg) (rt_made s))) /\ rt_clients s' = rt_clients s.
Proof. eexists. split; reflexivity. Qed.

(** The table after stale entries were dropped. *)
Definition fresh_clients (id now : Z) (s : runtime) : gmap Z CachedClient :=
  filter (fun kv => kv.1 = id \/ now - ca_max_age_s (wallet_client_cache_config env) <= ch_last_used_ts kv.2) (rt_clients s).

Lemma fresh_ok id now s : cache_ok s -> forall k e, fresh_clients id now s !! k = Some e -> client_of k (ch_client e).
Proof. intros Hs k e Hk. apply map_lookup_filter_Some in Hk as [Hk _]. by apply (Hs k). Qed.

Lemma wallet_client_spec id s : cache_ok s ->
  cache_ok (wallet_client env clock id s).1
  /\ Z.of_nat (size (rt_clients (wallet_client env clock id s).1)) <= ca_max_entries (wallet_client_cache_config env)
  /\ forall c, (wallet_client env clock id s).2 = Ok c -> client_of id c.
Proof.
  intros Hs. unfold wallet_client. cbv zeta. unfold sbind, smodify, sget, now_ts, set_clients. cbn [rt_clients].
  set (now := clock (rt_ticks s)). fold (fresh_clients id now s). pose proof (fresh_ok id now s Hs) as Hf.
  set (n := ca_max_entries (wallet_client_cache_config env)). pose proof cache_bound_positive as Hn. fold n in Hn.
  destruct (fresh_clients id now s !! id) as [e|] eqn:Ee; cbn [fmap option_fmap option_map].
  - unfold sret. simpl. split.
    + intros k e' Hk%pruned_sub. apply lookup_insert_Some in Hk as [[<- <-]|[_ Hk]]; [by apply (Hf id e)|by apply (Hf k)].
    + split; [by apply pruned_size|]. intros c [= <-]. by apply Hf.
  - destruct (wallet_rpc_config env id) as [cfg|err] eqn:Ec; unfold slift; simpl.
    + assert (client_of id (ClientRef (new_http_client env cfg) (rt_made s))) as Hc by (by exists cfg).
      match goal with |- context [pruned n (<[id:=?e]> ?m)] => set (m' := pruned n (<[id:=e]> m)) end.
      assert (forall k e, m' !! k = Some e -> client_of k (ch_client e)) as Hm.
      { intros k e' Hk%pruned_sub. apply lookup_insert_Some in Hk as [[<- <-]|[_ Hk]]; [done|]. apply pruned_sub in Hk. by apply (Hf k). }
      split; [exact Hm|]. split; [by apply pruned_size|]. intros c [= <-].
      destruct (m' !! id) as [e|] eqn:Em; simpl; [by apply (Hm id)|done].
    + split; [intros k e' Hk%pruned_sub; by apply (Hf k)|]. split; [by apply pruned_size|done].
Qed.

(** ** A call *)

(** Properties of the state a computation leaves alone, whatever its result. *)
Ltac frame := repeat first [apply preserves_bind; [|intros ?] | apply preserves_ret | apply preserves_fail | apply preserves_lift | apply preserves_get
  | (intros ? ?; assumption) | case_match].

Lemma before_frame (I : runtime -> Prop) e n :
  (forall s, I s -> I (now_ts clock s).1) -> preserves I (wallet_circuit_before_call clock e n).
Proof. intros Hn. unfold wallet_circuit_before_call. apply preserves_bind; [exact Hn|]. intros ?. frame. Qed.

Lemma wallet_client_frame id (I : runtime -> Prop) :
  (forall s s', rt_requests s' = rt_requests s -> rt_locked s' = rt_locked s -> rt_circuits s' = rt_circuits s -> I s -> I s') ->
  preserves I (wallet_client env clock id).
Proof.
  intros HI. assert (forall f : runtime -> gmap Z CachedClient, preserves I (smodify (fun s => set_clients (f s) s) : RT unit)) as Hset.
  { intros f s Hs. by eapply HI, Hs. }
  unfold wallet_client. cbv zeta. apply preserves_bind; [intros s Hs; by eapply HI, Hs|]. intros now.
  apply preserves_bind; [apply (Hset (fun s => filter _ (rt_clients s)))|]. intros _. apply preserves_bind; [apply preserves_get|]. intros cached.
  apply preserves_bind; [apply (Hset (fun s => pruned _ _))|]. intros _. destruct cached; [apply preserves_ret|].
  apply preserves_bind; [apply preserves_lift|]. intros c. apply preserves_bind; [intros s Hs; by eapply HI, Hs|]. intros client.
  apply preserves_bind; [apply (Hset (fun s => pruned _ _))|]. intros _. apply preserves_bind; [apply preserves_get|]. intros ex. apply preserves_ret.
Qed.

Lemma with_client_run {A} r (m : CR A) s s' a : with_client r m s = (s', Ok a) ->
  exists c0 c1, m c0 = (c1, Ok a) /\ core_log c0 = rt_requests s /\ core_log c1 = rt_requests s' /\ rt_locked s' = rt_locked s
  /\ rt_clients s' = rt_clients s.
Proof.
  unfold with_client. destruct (default _ _) as [nc nonce]. destruct (m _) as [c res] eqn:Em. intros [= <- <-].
  eexists _, c. split; [exact Em|done].
Qed.

Definition logs (R : list Sent) (L : list (string * nat)) (s : runtime) : Prop := rt_requests s = R /\ rt_locked s = L.

Lemma before_logs e n R L : preserves (logs R L) (wallet_circuit_before_call clock e n).
Proof. apply before_frame. by intros s Hs. Qed.

Lemma run_preserved {A} (I : runtime -> Prop) (m : RT A) s s' r : preserves I m -> m s = (s', r) -> I s -> I s'.
Proof. intros Hm E Hs. specialize (Hm s Hs). by rewrite E in Hm. Qed.

(** What a successful call did: open the escrow's wallet, take the lock of the endpoint, run the operation. *)
Lemma call_steps {T} id n (op : MoneroMultisigEngine -> HttpWalletRpcClient -> CR T) s s' v :
  cache_ok s -> wallet_rpc_call env clock id n op s = (s', Ok v) ->
  exists client o0 o1 c0 c1, client_of id client
  /\ core_ensure_wallet_open env (cr_client client) o0 = (o1, Ok tt) /\ core_log o0 = rt_requests s
  /\ op (MkEngine 2 3 0) (cr_client client) c0 = (c1, Ok v) /\ core_log c0 = core_log o1 /\ core_log c1 = rt_requests s'
  /\ rt_locked s' = rt_locked s ++ [(endpoint_key (cr_client client), length (core_log o1))].
Proof.
  intros Hs. unfold wallet_rpc_call. intros (s1 & client & Hw & Hp)%sbind_ok.
  pose proof (proj2 (proj2 (wallet_client_spec id s Hs)) client) as Hc. rewrite Hw in Hc. specialize (Hc eq_refl).
  pose proof (run_preserved (logs (rt_requests s) (rt_locked s)) _ _ _ _
    (wallet_client_frame id (logs (rt_requests s) (rt_locked s)) ltac:(intros a b E1 E2 _ [H1 H2]; split; congruence)) Hw (conj eq_refl eq_refl)) as [R1 L1].
  apply sbind_ok in Hp as (s2 & [] & Ho & Hp). apply with_client_run in Ho as (o0 & o1 & Ho & Ho0 & Ho1 & L2 & _).
  cbv zeta in Hp. apply sbind_ok in Hp as (s3 & [] & Hb & Hp).
  pose proof (run_preserved _ _ _ _ _ (before_logs _ _ (rt_requests s2) (rt_locked s2)) Hb (conj eq_refl eq_refl)) as [R3 L3].
  apply sbind_ok in Hp as (s4 & [] & Hl & Hp). unfold lock_endpoint, smodify in Hl. injection Hl as <-.
  apply sbind_ok in Hp as (s5 & [] & Hb2 & Hp).
  pose proof (run_preserved _ _ _ _ _ (before_logs _ _ (rt_requests s3) (rt_locked s3 ++ [(endpoint_key (cr_client client), length (rt_requests s3))])) Hb2 (conj eq_refl eq_refl)) as [R5 L5].
  apply sbind_ok in Hp as (s6 & engine & He & Hp). unfold slift in He. injection He as <- <-.
  apply sbind_ok in Hp as (s7 & r & Hr & Hp). unfold attempt in Hr. destruct (with_client client _ s5) as [s8 r8] eqn:Hop. injection Hr as <- <-.
  destruct r8 as [w|err]; [|apply sbind_ok in Hp as (? & ? & _ & Hp); apply sbind_ok in Hp as (? & ? & _ & Hp); done].
  apply with_client_run in Hop as (c0 & c1 & Hop & Hc0 & Hc1 & L8 & _).
  apply sbind_ok in Hp as (s9 & [] & Hx & Hp). unfold wallet_circuit_record_success, smodify in Hx. injection Hx as <-. injection Hp as <- <-.
  exists client, o0, o1, c0, c1. splits; [done|done|congruence|exact Hop|congruence|done|]. simpl. rewrite L8, L5, L3, L2, L1. do 4 f_equal. congruence.
Qed.

(** ** The tables at any time *)

Definition failures_ok (s : runtime) : Prop := forall e st, rt_circuits s !! e = Some st ->
  0 <= ws_consecutive_failures st < ci_fail_threshold (wallet_circuit_config env).
Record runtime_ok (s : runtime) : Prop := RuntimeOk {
  rk_owned : cache_ok s;
  rk_size : Z.of_nat (size (rt_clients s)) <= ca_max_entries (wallet_client_cache_config env);
  rk_failures : failures_ok s;
}.

Lemma threshold_positive : 0 < ci_fail_threshold (wallet_circuit_config env).
Proof.
  unfold wallet_circuit_config. simpl. unfold positive. destruct (env _ ≫= parse_u32) as [n|]; simpl; [|lia].
  destruct (Z.ltb_spec 0 n); simpl; lia.
Qed.
Lemma threshold_u32 : ci_fail_threshold (wallet_circuit_config env) <= U32_MAX.
Proof.
  unfold wallet_circuit_config. simpl. unfold positive. destruct (env _ ≫= parse_u32) as [n|] eqn:E; simpl; [|done].
  destruct (env _) as [v|]; [|done]. simpl in E. unfold parse_u32 in E. destruct (parse_u64 v) as [k|]; [|done]. simpl in E.
  destruct (Z.leb_spec k U32_MAX); [|done]. injection E as <-. destruct (Z.ltb_spec 0 k); simpl; [done|]. unfold U32_MAX. lia.
Qed.

(** Nothing but the client table, or the circuit table, is changed. *)
Lemma same_tables s s' : rt_clients s' = rt_clients s -> rt_circuits s' = rt_circuits s -> runtime_ok s -> runtime_ok s'.
Proof. intros E1 E2 [H1 H2 H3]. constructor; [unfold cache_ok|..|unfold failures_ok]; rewrite ?E1, ?E2; done. Qed.

Lemma wallet_client_ok id : preserves runtime_ok (wallet_client env clock id).
Proof.
  intros s [H1 H2 H3]. destruct (wallet_client_spec id s H1) as (Ho & Hz & _). constructor; [done|done|].
  assert (preserves failures_ok (wallet_client env clock id)) as Hf
    by (apply wallet_client_frame; intros a b _ _ E Hf; unfold failures_ok; by rewrite E). by apply Hf.
Qed.
Lemma with_client_ok {A} r (m : CR A) : preserves runtime_ok (with_client r m).
Proof. intros s Hs. unfold with_client. destruct (default _ _) as [nc nonce]. destruct (m _) as [c res]. by eapply same_tables, Hs. Qed.
Lemma before_ok e n : preserves runtime_ok (wallet_circuit_before_call clock e n).
Proof. apply before_frame. intros s Hs. by eapply same_tables, Hs. Qed.
Lemma success_ok e : preserves runtime_ok (wallet_circuit_record_success e).
Proof. intros s [H1 H2 H3]. constructor; [done|done|]. intros k st Hk. simpl in Hk. apply lookup_delete_Some in Hk as [_ Hk]. by apply (H3 k). Qed.
Lemma after_failure_ok now st :
  0 <= ws_consecutive_failures st < ci_fail_threshold (wallet_circuit_config env) ->
  0 <= ws_consecutive_failures (after_failure (wallet_circuit_config env) now st) < ci_fail_threshold (wallet_circuit_config env).
Proof.
  intros Hs. pose proof threshold_u32 as Ht. unfold after_failure, sat_add_u32. cbv zeta. unfold U32_MAX in *.
  destruct (Z.leb_spec (ci_fail_threshold (wallet_circuit_config env)) (Z.min 4294967295 (ws_consecutive_failures st + 1))); cbn [ws_consecutive_failures]; lia.
Qed.
Lemma failure_ok e : preserves runtime_ok (wallet_circuit_record_failure env clock e).
Proof.
  unfold wallet_circuit_record_failure. apply preserves_bind; [intros s Hs; by eapply same_tables, Hs|]. intros now s [H1 H2 H3].
  constructor; [done|done|]. intros k st Hk. simpl in Hk. apply lookup_insert_Some in Hk as [[<- <-]|[_ Hk]]; [|by apply (H3 k)].
  apply after_failure_ok. destruct (rt_circuits s !! e) as [st0|] eqn:E; [by apply (H3 e)|]. pose proof threshold_positive. cbn [default ws_consecutive_failures]. lia.
Qed.
Lemma invalidate_ok id : preserves runtime_ok (invalidate_wallet_client id).
Proof.
  intros s [H1 H2 H3]. constructor; [|change (Z.of_nat (size (delete id (rt_clients s))) <= ca_max_entries (wallet_client_cache_config env))|done].
  - intros k e Hk. simpl in Hk. apply lookup_delete_Some in Hk as [_ Hk]. by apply (H1 k).
  - destruct (rt_clients s !! id) eqn:E; [rewrite map_size_delete_Some by done; lia|by rewrite delete_id].
Qed.

Lemma call_ok {T} id n (op : MoneroMultisigEngine -> HttpWalletRpcClient -> CR T) : preserves runtime_ok (wallet_rpc_call env clock id n op).
Proof.
  unfold wallet_rpc_call. apply preserves_bind; [apply wallet_client_ok|]. intros client. apply preserves_bind; [apply with_client_ok|]. intros _.
  cbv zeta. apply preserves_bind; [apply before_ok|]. intros _.
  apply preserves_bind; [intros s Hs; by eapply same_tables, Hs|]. intros _. apply preserves_bind; [apply before_ok|]. intros _.
  apply preserves_bind; [apply preserves_lift|]. intros engine. apply preserves_bind.
  { intros s Hs. unfold attempt. pose proof (with_client_ok client (op engine (cr_client client)) s Hs) as Hw. by destruct (with_client _ _ s). }
  intros [v|err]; [apply preserves_bind; [apply success_ok|intros _; apply preserves_ret]|].
  apply preserves_bind; [apply invalidate_ok|]. intros _. apply preserves_bind; [|intros _; apply preserves_fail].
  destruct (should_trip_circuit err); [apply failure_ok|apply preserves_ret].
Qed.

(** The states the service can be in: any calls, in any order, with any operations and results. *)
Inductive rt_reach : runtime -> Prop :=
| RtStart : rt_reach (Runtime ∅ ∅ ∅ 0 [] [] 0 [])
| RtCall (T : Type) s id n (op : MoneroMultisigEngine -> HttpWalletRpcClient -> CR T) :
    rt_reach s -> rt_reach (wallet_rpc_call env clock id n op s).1.

Lemma rt_reach_ok s : rt_reach s -> runtime_ok s.
Proof.
  induction 1 as [|T s id n op _ IH]; [|by apply call_ok]. constructor; [by intros id e|simpl; rewrite map_size_empty; apply cache_bound_positive|by intros e st].
Qed.

(** *** The circuit of an endpoint, call by call *)

(** The entry [st'] that a failure counted at time [now] leaves for an endpoint whose entry was [st]: below the threshold the count goes up and the time is kept, at the threshold the circuit is open for the configured time and the count starts again. *)
Definition counted (now : Z) (st st' : WalletCircuitState) : Prop :=
  let cfg := wallet_circuit_config env in
  if decide (ws_consecutive_failures st + 1 < ci_fail_threshold cfg)
  then st' = MkCircuit (ws_consecutive_failures st + 1) (ws_open_until_ts st)
  else st' = MkCircuit 0 (now + ci_open_secs cfg).

(** What one call, with the operation [op], does to the circuits: the operation ran and the entry of the endpoint of the escrow's client is cleared, counted or left, or it did not run, the call would have ended alike with any other operation, and no entry is touched. *)
Inductive circuit_step {T} (id : Z) (n : string) (op : MoneroMultisigEngine -> HttpWalletRpcClient -> CR T) (s s' : runtime) : result MoneroError T -> Prop :=
| CircuitCleared client c0 c1 v : client_of id client -> op (MkEngine 2 3 0) (cr_client client) c0 = (c1, Ok v) ->
    rt_circuits s' = delete (endpoint_key (cr_client client)) (rt_circuits s) -> circuit_step id n op s s' (Ok v)
| CircuitCounted client c0 c1 err tick st' : client_of id client -> op (MkEngine 2 3 0) (cr_client client) c0 = (c1, Err err) ->
    should_trip_circuit err = true -> rt_ticks s' = S tick ->
    counted (clock tick) (default (MkCircuit 0 0) (rt_circuits s !! endpoint_key (cr_client client))) st' ->
    rt_circuits s' = <[endpoint_key (cr_client client) := st']> (rt_circuits s) -> circuit_step id n op s s' (Err err)
| CircuitLeft client c0 c1 err : client_of id client -> op (MkEngine 2 3 0) (cr_client client) c0 = (c1, Err err) ->
    should_trip_circuit err = false -> rt_circuits s' = rt_circuits s -> circuit_step id n op s s' (Err err)
| CircuitNotRun err : (forall op' : MoneroMultisigEngine -> HttpWalletRpcClient -> CR T, wallet_rpc_call env clock id n op' s = (s', Err err)) ->
    rt_circuits s' = rt_circuits s -> circuit_step id n op s s' (Err err).

Lemma after_failure_counted now st : 0 <= ws_consecutive_failures st < ci_fail_threshold (wallet_circuit_config env) ->
  counted now st (after_failure (wallet_circuit_config env) now st).
Proof.
  intros Hs. pose proof threshold_u32 as Ht. unfold counted, after_failure, sat_add_u32. cbv zeta.
  rewrite Z.min_r by lia. destruct (decide _), (Z.leb_spec (ci_fail_threshold (wallet_circuit_config env)) (ws_consecutive_failures st + 1)); done || lia.
Qed.

(** The parts of a call that come before its operation touch no circuit. *)
Lemma wallet_client_circuits id s s1 r : wallet_client env clock id s = (s1, r) -> rt_circuits s1 = rt_circuits s.
Proof.
  intros E. change s1 with (s1, r).1. rewrite <- E.
  apply (wallet_client_frame id (fun s' => rt_circuits s' = rt_circuits s)); [intros a b _ _ E' <-; done|done].
Qed.
Lemma with_client_circuits {A} c (m : CR A) s s1 r : with_client c m s = (s1, r) -> rt_circuits s1 = rt_circuits s.
Proof. unfold with_client. destruct (default _ _). destruct (m _). by intros [= <- _]. Qed.
Lemma before_circuits e n s s1 r : wallet_circuit_before_call clock e n s = (s1, r) -> rt_circuits s1 = rt_circuits s.
Proof. intros E. change s1 with (s1, r).1. rewrite <- E. apply (before_frame (fun s' => rt_circuits s' = rt_circuits s)); [by intros a Ha|done]. Qed.
Lemma with_client_ran {A} c (m : CR A) s s1 r : with_client c m s = (s1, r) -> exists c0 c1, m c0 = (c1, r).
Proof. unfold with_client. destruct (default _ _). destruct (m _) as [c1 res] eqn:E. intros [= _ <-]. eauto. Qed.

Lemma sbind_run_of {S E A B} (m : M S E A) (k : A -> M S E B) s s1 r : m s = (s1, r) ->
  sbind m k s = match r with Ok a => k a s1 | Err e => (s1, Err e) end.
Proof. intros Em. unfold sbind. rewrite Em. by destruct r. Qed.
Ltac run_call := unfold wallet_rpc_call; repeat (erewrite sbind_run_of by eassumption; cbv beta iota zeta); reflexivity.

(** Everything a call does after its operation returned. *)
Lemma settled {T} id n (op : MoneroMultisigEngine -> HttpWalletRpcClient -> CR T) s0 s client c0 c1 (r : result MoneroError T) s' res :
  failures_ok s -> rt_circuits s = rt_circuits s0 -> client_of id client -> op (MkEngine 2 3 0) (cr_client client) c0 = (c1, r) ->
  match r with
  | Ok v => let* _ := wallet_circuit_record_success (endpoint_key (cr_client client)) in sret v
  | Err err =>
      let* _ := invalidate_wallet_client id in
      let* _ := if should_trip_circuit err then wallet_circuit_record_failure env clock (endpoint_key (cr_client client)) else sret tt in
      sfail err
  end s = (s', res) -> circuit_step id n op s0 s' res.
Proof.
  intros Hf Hc Hcl Hop. destruct r as [v|err]; [intros [= <- <-]; eapply CircuitCleared; try eassumption; simpl; by rewrite Hc|].
  destruct (should_trip_circuit err) eqn:Et; [|intros [= <- <-]; by eapply CircuitLeft].
  intros [= <- <-]. eapply (CircuitCounted _ _ _ _ _ client c0 c1 err (rt_ticks s)
    (after_failure (wallet_circuit_config env) (clock (rt_ticks s)) (default (MkCircuit 0 0) (rt_circuits s0 !! endpoint_key (cr_client client)))));
    try eassumption; [reflexivity| |simpl; by rewrite Hc].
  apply after_failure_counted. destruct (rt_circuits s0 !! _) as [st|] eqn:E; cbn [default ws_consecutive_failures]; [eapply Hf; by rewrite Hc|].
  pose proof threshold_positive. cbn [ws_consecutive_failures]. lia.
Qed.

Lemma call_circuit {T} id n (op : MoneroMultisigEngine -> HttpWalletRpcClient -> CR T) s s' r :
  runtime_ok s -> wallet_rpc_call env clock id n op s = (s', r) -> circuit_step id n op s s' r.
Proof.
  intros [Hs _ Hf] Hp. unfold wallet_rpc_call in Hp. destruct (wallet_client env clock id s) as [s1 r1] eqn:E1.
  erewrite sbind_run_of in Hp by exact E1. pose proof (wallet_client_circuits _ _ _ _ E1) as C1.
  destruct r1 as [client|err]; [|injection Hp as <- <-; apply CircuitNotRun; [intros op'; run_call|done]].
  pose proof (proj2 (proj2 (wallet_client_spec id s Hs)) client) as Hcl. rewrite E1 in Hcl. specialize (Hcl eq_refl).
  destruct (with_client client (core_ensure_wallet_open env (cr_client client)) s1) as [s2 r2] eqn:E2.
  erewrite sbind_run_of in Hp by exact E2. apply with_client_circuits in E2 as C2.
  destruct r2 as [[]|err]; [|injection Hp as <- <-; apply CircuitNotRun; [intros op'; run_call|congruence]]. cbv zeta in Hp.
  destruct (wallet_circuit_before_call clock (endpoint_key (cr_client client)) n s2) as [s3 r3] eqn:E3.
  erewrite sbind_run_of in Hp by exact E3. apply before_circuits in E3 as C3.
  destruct r3 as [[]|err]; [|injection Hp as <- <-; apply CircuitNotRun; [intros op'; run_call|congruence]].
  destruct (lock_endpoint (endpoint_key (cr_client client)) s3) as [s4 r4] eqn:E4. unfold lock_endpoint, smodify in E4. injection E4 as E4 E4'.
  assert (lock_endpoint (endpoint_key (cr_client client)) s3 = (s4, Ok tt)) as E5 by (by rewrite <- E4).
  erewrite sbind_run_of in Hp by exact E5.
  assert (rt_circuits s4 = rt_circuits s3) as C4 by (by rewrite <- E4).
  destruct (wallet_circuit_before_call clock (endpoint_key (cr_client client)) n s4) as [s6 r6] eqn:E6.
  erewrite sbind_run_of in Hp by exact E6. apply before_circuits in E6 as C6.
  destruct r6 as [[]|err]; [|injection Hp as <- <-; apply CircuitNotRun; [intros op'; run_call|congruence]].
  rewrite (sbind_run_of _ _ s6 s6 (Ok (MkEngine 2 3 0)) eq_refl) in Hp. destruct (with_client client (op (MkEngine 2 3 0) (cr_client client)) s6) as [s7 r7] eqn:E7.
  erewrite sbind_run_of in Hp by (unfold attempt; rewrite E7; reflexivity).
  apply with_client_circuits in E7 as C7. apply with_client_ran in E7 as (c0 & c1 & Hop). cbv beta iota in Hp.
  assert (rt_circuits s7 = rt_circuits s) as C by congruence. apply (settled _ _ _ _ s7 client c0 c1 r7); try done. unfold failures_ok. by rewrite C.
Qed.



(** The wallet is opened before the lock of the endpoint is taken: a successful call has sent requests by then. *)
Theorem opened_outside_lock {T} id n (op : MoneroMultisigEngine -> HttpWalletRpcClient -> CR T) s s' v :
  rt_reach s -> wallet_rpc_call env clock id n op s = (s', Ok v) ->
  exists endpoint k, rt_locked s' = rt_locked s ++ [(endpoint, k)] /\ (length (rt_requests s) < k)%nat.
Proof.
  intros Hs Hc. apply rt_reach_ok in Hs as [Hs _ _]. apply call_steps in Hc as (client & o0 & o1 & c0 & c1 & _ & Ho & E0 & _ & _ & _ & Hl); [|done].
  eexists _, _. split; [exact Hl|]. destruct (csends_ensure env (cr_client client) o0) as (l & Hl1 & Hn & _). rewrite Ho in Hl1. simpl in Hl1.
  rewrite Hl1, E0, length_app. lia.
Qed.

(** ** The circuit breaker *)

Definition after_failures (st : WalletCircuitState) (times : list Z) : WalletCircuitState :=
  foldl (fun st now => after_failure (wallet_circuit_config env) now st) st times.

Lemma failures_counted st times :
  0 <= ws_consecutive_failures st -> ws_consecutive_failures st + Z.of_nat (length times) < ci_fail_threshold (wallet_circuit_config env) ->
  after_failures st times = MkCircuit (ws_consecutive_failures st + Z.of_nat (length times)) (ws_open_until_ts st).
Proof.
  revert st. induction times as [|t times IH]; intros st H0 Hl; [destruct st; simpl; by rewrite Z.add_0_r|].
  cbn [length] in Hl. unfold after_failures. cbn [foldl]. fold (after_failures (after_failure (wallet_circuit_config env) t st) times).
  pose proof threshold_u32 as Ht. assert (after_failure (wallet_circuit_config env) t st = MkCircuit (ws_consecutive_failures st + 1) (ws_open_until_ts st)) as ->.
  { unfold after_failure, sat_add_u32. cbv zeta. rewrite Z.min_r by lia.
    destruct (Z.leb_spec (ci_fail_threshold (wallet_circuit_config env)) (ws_consecutive_failures st + 1)); [lia|done]. }
  rewrite IH; cbn [ws_consecutive_failures ws_open_until_ts length]; [|lia..]. f_equal. lia.
Qed.

(** The threshold of failures in a row opens the circuit, and not one failure earlier. *)
Theorem circuit_trips st times now :
  0 <= ws_consecutive_failures st ->
  ws_consecutive_failures st + Z.of_nat (length times) + 1 = ci_fail_threshold (wallet_circuit_config env) ->
  ws_open_until_ts (after_failures st times) = ws_open_until_ts st
  /\ after_failures st (times ++ [now]) = MkCircuit 0 (now + ci_open_secs (wallet_circuit_config env)).
Proof.
  intros H0 Hl. pose proof threshold_u32 as Ht. rewrite failures_counted by lia. split; [done|].
  unfold after_failures. rewrite foldl_app. fold (after_failures st times). rewrite (failures_counted st times) by lia. cbn [foldl].
  unfold after_failure, sat_add_u32. cbv zeta. cbn [ws_consecutive_failures]. rewrite Z.min_r by lia.
  destruct (Z.leb_spec (ci_fail_threshold (wallet_circuit_config env)) (ws_consecutive_failures st + Z.of_nat (length times) + 1)); [done|lia].
Qed.

Lemma before_blocked endpoint n s st : rt_circuits s !! endpoint = Some st -> (forall t, clock t < ws_open_until_ts st) ->
  exists s' e, wallet_circuit_before_call clock endpoint n s = (s', Err e).
Proof.
  intros Hst Hc. unfold wallet_circuit_before_call, sbind, now_ts, sget, circuit_open. cbn [rt_circuits]. rewrite Hst. cbn [mbind option_bind].
  rewrite (proj2 (Z.ltb_lt _ _) (Hc _)). unfold sfail. eauto.
Qed.

Lemma blocked_bind {A B} (m : RT A) (k k' : A -> RT B) s :
  (forall s' a, m s = (s', Ok a) -> is_err (k a s').2 = true /\ k a s' = k' a s') -> is_err (sbind m k s).2 = true /\ sbind m k s = sbind m k' s.
Proof. intros Hk. unfold sbind. destruct (m s) as [s' [a|e]]; [by apply Hk|done]. Qed.

(** While the circuit of an escrow's endpoint is open, no operation runs on it: the call fails, and it does and answers the same whatever operation it was given. *)
Theorem open_circuit_blocks {T} id n (op op' : MoneroMultisigEngine -> HttpWalletRpcClient -> CR T) s :
  (forall c, (wallet_client env clock id s).2 = Ok c ->
     exists st, rt_circuits s !! endpoint_key (cr_client c) = Some st /\ forall t, clock t < ws_open_until_ts st) ->
  is_err (wallet_rpc_call env clock id n op s).2 = true /\ wallet_rpc_call env clock id n op s = wallet_rpc_call env clock id n op' s.
Proof.
  intros Hopen. unfold wallet_rpc_call.
  assert (rt_circuits (wallet_client env clock id s).1 = rt_circuits s) as Ec.
  { apply (wallet_client_frame id (fun s' => rt_circuits s' = rt_circuits s)); [intros a b _ _ E <-; done|done]. }
  apply blocked_bind. intros s1 c Hw. rewrite Hw in Hopen, Ec. destruct (Hopen c eq_refl) as (st & Hst & Hlt). simpl in Ec. rewrite <- Ec in Hst.
  apply blocked_bind. intros s2 [] Ho.
  assert (rt_circuits (with_client c (core_ensure_wallet_open env (cr_client c)) s1).1 = rt_circuits s1) as E2.
  { unfold with_client. destruct (default _ _). by destruct (core_ensure_wallet_open env (cr_client c) _). }
  rewrite Ho in E2. simpl in E2. rewrite <- E2 in Hst. cbv zeta.
  destruct (before_blocked _ n s2 st Hst Hlt) as (s3 & e & Hb). apply blocked_bind. intros s4 a. by rewrite Hb.
Qed.

(** ** The pool *)

Lemma parse_ports_ok l ports : parse_ports l = Ok ports -> Forall (fun p => 0 <= p <= 65535) ports.
Proof.
  revert ports. induction l as [|p l IH]; intros ports; simpl; [by intros [= <-]|]. intros Hp.
  apply rbind_ok in Hp as (n & Hn & Hp). apply rbind_ok in Hp as (ns & Hns & Hp). injection Hp as <-. constructor; [|by apply IH].
  apply ok_or_ok in Hn. unfold parse_u16 in Hn. destruct (parse_u64 p) as [k|] eqn:E; [|done]. simpl in Hn.
  apply parse_u64_range in E as [? _]. destruct (Z.leb_spec k 65535); [|done]. injection Hn as <-. lia.
Qed.

(** Where a pool is required, an escrow's port is taken from a pool of at least three different ports, always the same one. *)
Theorem pool_isolated id p : 0 <= id -> wallet_pool_required env = true -> pick_port env id = Ok p ->
  exists ports, 3 <= unique_port_count ports /\ ports !! Z.to_nat (id mod Z.of_nat (length ports)) = Some p /\ 0 <= p <= 65535.
Proof.
  intros Hid Hreq. unfold pick_port. cbv zeta. destruct (negb _); [|by rewrite Hreq]. intros Hp.
  apply rbind_ok in Hp as (ports & Hports & Hp). apply rbind_ok in Hp as (u & Hne & Hp). rewrite Hreq in Hp.
  apply rbind_ok in Hp as (u2 & Hmin & Hp). injection Hp as <-. exists ports.
  unfold ensure_wallet_pool_has_minimum_isolation in Hmin. apply fail_if_ok, Z.ltb_ge in Hmin. split; [done|].
  destruct ports as [|q ports]; [done|]. set (l := q :: ports) in *.
  assert (0 <= id mod Z.of_nat (length l) < Z.of_nat (length l)) as Hm by (apply Z.mod_pos_bound; simpl; lia).
  destruct (lookup_lt_is_Some_2 l (Z.to_nat (id mod Z.of_nat (length l)))) as [x Hx]; [lia|].
  assert (nth (Z.to_nat (id mod Z.of_nat (length l))) l 0 = x) as ->.
  { apply nth_lookup_Some with (d := 0) in Hx. done. }
  split; [done|]. apply parse_ports_ok in Hports. rewrite Forall_lookup in Hports. by eapply Hports.
Qed.
End cache.

(** ** Instances *)

Definition pool_env (name : string) : option string :=
  if (name =? "XMR_ARBITER_WALLET_PASS")%string then Some "pw"%string
  else if (name =? "XMR_WALLET_RPC_USER")%string then Some "user"%string
  else if (name =? "XMR_WALLET_RPC_PASS")%string then Some "secret"%string else None.
Definition noon (_ : nat) : Z := 1000.
Definition rt_start : runtime := Runtime ∅ ∅ ∅ 0 [] [] 0 [].
Definition signed_once : runtime := (bridge_sign_multisig pool_env noon 7 "00aa" rt_start).1.

Lemma signed_once_reached : rt_reach pool_env noon signed_once.
Proof. apply RtCall, RtStart. Qed.

(** Two operations in a row that could not reach the wallet process, on the default threshold of three. *)
Definition unreachable_op : MoneroMultisigEngine -> HttpWalletRpcClient -> CR string := fun _ _ => sfail (transport_err "connection refused").
Definition failed_call (s : runtime) : runtime := (wallet_rpc_call pool_env noon 7 "get_balance" unreachable_op s).1.
Definition failed_twice : runtime := failed_call (failed_call rt_start).

Lemma failed_twice_reached : rt_reach pool_env noon failed_twice.
Proof. apply RtCall, RtCall, RtStart. Qed.



(** The circuit of the endpoint is open until 2000. *)
Definition tripped : runtime := set_circuits {["http://127.0.0.1:18083"%string := MkCircuit 0 2000]} rt_start.
Lemma open_circuit_blocks_witness :
  is_err (bridge_sign_multisig pool_env noon 7 "00aa" tripped).2 = true.
Proof.
  destruct (open_circuit_blocks pool_env noon 7 "sign_multisig" (fun _ client => sign_multisig_via_wallet_rpc pool_env client "00aa")
              (fun _ _ => sfail InvalidTxid) tripped) as [He _].
  - intros c Hc. vm_compute in Hc. injection Hc as <-. exists (MkCircuit 0 2000). split; [vm_compute; reflexivity|]. intros t. reflexivity.
  - exact He.
Defined.

(** With the circuit open the call still opens the wallet first: it contacts the process the circuit is meant to spare. *)
Lemma open_circuit_still_contacts : rt_requests (bridge_sign_multisig pool_env noon 7 "00aa" tripped).1 <> [].
Proof. vm_compute. discriminate. Qed.

(** A wallet process that has one wallet open at a time, and signs with it. *)
Definition opened_name (r : Sent) : option string :=
  match sn_payload r with
  | JObject [_; _; (_, JString m); (_, JObject ((_, JString name) :: _))] => if (m =? "open_wallet")%string then Some name else None
  | _ => None
  end.
Definition current_wallet (log : list Sent) : string := default "none"%string (last (omap opened_name log)).
Definition single_wallet : CoreLib := {|
  core_md5 := toy_md5; core_rng := fun _ => "rng"%string; core_url := fun _ => Ok ("/json_rpc"%string, None);
  core_server := fun log _ => Ok (MkResponse 200 [] (current_wallet log));
  core_stalls := fun _ _ => false; core_text := fun r => Ok (rp_body r);
  cj_value := core_toy_answer (JObject []); cj_info := core_toy_answer (MkInfoResponse None);
  cj_export := core_toy_answer (MkExportResponse None); cj_import := core_toy_answer (MkImportResponse None);
  cj_sign := fun r => Ok (MkRpcResponse (Some (MkSignResponse (Some (rp_body r)) None)) None);
  cj_submit := core_toy_answer (MkSubmitResponse None);
  cj_balance := core_toy_answer (MkBalanceResponse None None); cj_finalize := core_toy_answer (MkAddressResponse None);
  cj_address := core_toy_answer (MkGetAddressResponse (Some "4A"%string) None);
  cj_transfer := core_toy_answer (MkGetTransfer None None); cj_version := core_toy_answer (MkVersion None);
  cj_multisig := core_toy_answer (MkIsMultisig None None None None) |}.

(** The signing of escrow 1 holds the lock of the endpoint when the call of escrow 4, which opens its wallet before it asks for the lock, comes in between. *)
Definition interleaved : RT string :=
  let* c1 := wallet_client pool_env noon 1 in
  let* c4 := wallet_client pool_env noon 4 in
  let* _ := lock_endpoint (endpoint_key (cr_client c1)) in
  let* _ := with_client c1 (@core_ensure_wallet_open single_wallet pool_env (cr_client c1)) in
  let* _ := with_client c4 (@core_ensure_wallet_open single_wallet pool_env (cr_client c4)) in
  let* r := with_client c1 (@call_multisig single_wallet (cr_client c1) _ (@cj_sign single_wallet) "sign_multisig" (tx_params "00aa")) in
  slift (ok_or (sm_tx_data_hex r) InvalidTxid).
Lemma signed_by_other_wallet : (interleaved rt_start).2 = Ok "arb_escrow_4"%string.
Proof. vm_compute. reflexivity. Qed.
