(* ===== verification/WorkerHttp.v ===== *)
(** * The worker API of the signer

    [crates/nxms-signer/src/worker_http.rs]: the HTTP server the orchestrator
    reaches a signer through.  [axum] is a parameter where it reads a request
    ([WorkerExt]: the JSON bodies and the query string, refused with a status and
    a text of the framework); the dispatch by method and path and the handlers
    are computations on the state of the agent.  [Err Panic] is a handler that
    panicked: the framework drops the connection.  The lock the handlers of the
    wallet operations hold makes each of them one step of the others. *)

From S2P Require Import Prelude RustString Sql Json Wire Admission Snapshot ActionToken TokenVerifier SignerConfig.
From S2P Require Import SignerDb SignerInv SignerProps SignerMetrics AgentSupport AgentState OrchBridge AgentFlows.
From S2P Require Import AgentMail AgentPending AgentProps AgentMailProps AgentPendingProps AgentRuns AgentAuth AgentDemo.

Definition SERVICE_AUTH_HEADER : string := "x-nxms-service-authorization".
Definition AUTHORIZATION : string := "authorization".

(** [headers.get(name)] and what [to_str] makes of it. *)
Notation HeaderMap := (string -> option (option string)).

(** [StatusCode] *)
Definition OK : Z := 200.
Definition BAD_REQUEST : Z := 400.
Definition UNAUTHORIZED : Z := 401.
Definition NOT_FOUND : Z := 404.
Definition METHOD_NOT_ALLOWED : Z := 405.
Definition CONFLICT : Z := 409.
Definition INTERNAL_SERVER_ERROR : Z := 500.
Definition BAD_GATEWAY : Z := 502.

(** ** Requests and answers *)

Record SignMultisigRequest : Type := MkSignRequest {
  sq_escrow_id_hex : string; sq_action : string; sq_tx_data_hex : string; sq_action_token : option string }.
Record SubmitMultisigRequest : Type := MkSubmitRequest {
  uq_escrow_id_hex : string; uq_action : string; uq_tx_data_hex : string; uq_action_token : option string }.
Record ProposeMultisigRequest : Type := MkProposeRequest {
  pq_escrow_id_hex : string; pq_action : string; pq_amount_override_atomic : option Z }.
Record AuthAuditEventRequest : Type := MkAuthEventRequest {
  aq_escrow_id_hex : string; aq_event_kind : string; aq_actor_id : option string; aq_detail : option string;
  aq_op : option string; aq_txset_hash_hex : option string;
  aq_proof_arbiter_jti : option string; aq_proof_arbiter_req_id : option string;
  aq_proof_seller_jti : option string; aq_proof_seller_req_id : option string }.
Record AuditAlertsQuery : Type := MkAlertsQuery {
  lq_window_secs : option Z; lq_token_reject_total : option Z; lq_replay_reject_total : option Z;
  lq_policy_reject_total : option Z; lq_rpc_fail_total : option Z; lq_shadow_allow_total : option Z }.

Inductive Body : Type :=
| HealthResponse (ok : bool)
| ErrorResponse (error : string)
| SignMultisigResponse (tx_data_hex : string) (tx_hash_list : list string)
| SubmitMultisigResponse (tx_hash_list : list string)
| ProposeMultisigResponse (tx_data_hex txset_hash_hex : string)
| DashboardBody (d : SecurityDashboard)
| AlertReportBody (r : SecurityAlertReport)
| FrameworkBody (text : string).
Record Response : Type := MkResponse { rs_status : Z; rs_body : Body }.
Definition error_response (e : Z * string) : Response := MkResponse e.1 (ErrorResponse e.2).

Record HttpRequest : Type := MkHttpRequest {
  hq_method : string; hq_path : string; hq_headers : HeaderMap; hq_query : option string; hq_body : string }.

(** The extractors of [axum], under [DefaultBodyLimit::max(8 * 1024 * 1024)]. *)
Class WorkerExt `{Jwt} : Type := {
  token_of : string -> Token;
  sign_request : HttpRequest -> result (Z * string) SignMultisigRequest;
  submit_request : HttpRequest -> result (Z * string) SubmitMultisigRequest;
  propose_request : HttpRequest -> result (Z * string) ProposeMultisigRequest;
  auth_event_request : HttpRequest -> result (Z * string) AuthAuditEventRequest;
  alerts_query : HttpRequest -> result (Z * string) AuditAlertsQuery;
}.

(** ** Where the server listens *)

(** [SocketAddr::from_str] *)
Definition read_port : reader Z := fun l =>
  match read_given_char ":" l with Some (_, r) => read_number 10 (length r) true 65535 r | None => None end.
Definition read_socket_addr_v4 : reader IpAddr := fun l =>
  match read_ipv4_addr l with
  | Some (ip, r) => match read_port r with Some (_, r) => Some (V4 ip, r) | None => None end
  | None => None
  end.
(** [%<number>] or nothing; what does not read is left alone. *)
Definition read_scope_id (l : list ascii) : list ascii :=
  match read_given_char "%" l with
  | Some (_, r) => match read_number 10 (length r) true U32_MAX r with Some (_, r) => r | None => l end
  | None => l
  end.
Definition read_socket_addr_v6 : reader IpAddr := fun l =>
  match read_given_char "[" l with
  | Some (_, r) =>
      match read_ipv6_addr r with
      | Some (ip, r) =>
          match read_given_char "]" (read_scope_id r) with
          | Some (_, r) => match read_port r with Some (_, r) => Some (V6 ip, r) | None => None end
          | None => None
          end
      | None => None
      end
  | None => None
  end.
(** The address of the socket, when the text is one. *)
Definition socket_ip (bind : string) : option IpAddr :=
  let l := bytes_of bind in
  match match read_socket_addr_v4 l with Some x => Some x | None => read_socket_addr_v6 l end with
  | Some (ip, []) => Some ip
  | _ => None
  end.

(** The reason of the address parser is left out of the text. *)
Definition bind_is_loopback (bind : string) : result string bool :=
  let? ip := ok_or (socket_ip bind) ("worker bind '" +:+ bind +:+ "' must be explicit socket address host:port: ") in
  Ok (is_loopback ip).
Definition enforce_bind_policy (bind : string) : result string unit :=
  let? local := bind_is_loopback bind in
  if (local : bool) then Ok tt else Err ("worker bind '" +:+ bind +:+ "' rejected: loopback-only bind is required").
(** [serve] up to the listener: the token the handlers compare with. *)
Definition serve (worker_service_token : option string) (bind : string) : result string string :=
  let? _ := enforce_bind_policy bind in
  ok_or worker_service_token "worker_service_token must be configured"%string.

(** ** Headers *)

Definition parse_action (raw : string) : result string EscrowAction :=
  let v := to_ascii_lowercase (trim raw) in
  if (v =? "release")%string then Ok Release
  else if (v =? "refund")%string then Ok Refund
  else Err "action must be one of: release|refund"%string.

(** What the two readers of a bearer token share; [name] and [kind] are how
    their messages call the header and the token. *)
Definition bearer_token (name kind : string) (value : option (option string)) : result (Z * string) (option string) :=
  match value with
  | None => Ok None
  | Some raw =>
      let? raw := ok_or raw (UNAUTHORIZED, "invalid " +:+ name +:+ " header") in
      let? parts := ok_or (split_once " " raw) (UNAUTHORIZED, "bad " +:+ name +:+ " header format") in
      let '(scheme, token) := parts in
      let? _ := fail_if (negb (eq_ignore_ascii_case scheme "bearer")) (UNAUTHORIZED, name +:+ " scheme must be Bearer") in
      let token := trim token in
      let? _ := fail_if (is_empty token) (UNAUTHORIZED, "empty " +:+ kind +:+ " token") in
      Ok (Some token)
  end.
Definition bearer_token_from_service_headers (headers : HeaderMap) : result (Z * string) (option string) :=
  bearer_token "service auth" "service bearer" (headers SERVICE_AUTH_HEADER).
Definition bearer_token_from_headers (headers : HeaderMap) : result (Z * string) (option string) :=
  bearer_token "Authorization" "bearer" (headers AUTHORIZATION).

Definition require_service_auth (headers : HeaderMap) (expected_token : string) : result Response unit :=
  match bearer_token_from_service_headers headers with
  | Ok (Some token) =>
      fail_if (negb (token =? expected_token)%string) (error_response (UNAUTHORIZED, "unauthorized service caller"%string))
  | Ok None => Err (error_response (UNAUTHORIZED, "missing service auth header"%string))
  | Err e => Err (error_response e)
  end.

Definition resolve_action_token (headers : HeaderMap) (body_token : option string)
    : result (Z * string) (option string) :=
  let? header_token := bearer_token_from_headers headers in
  match header_token, opt_non_blank body_token with
  | Some h, Some b =>
      if negb (h =? b)%string
      then Err (BAD_REQUEST, "action token mismatch between Authorization header and body"%string) else Ok (Some h)
  | Some h, None => Ok (Some h)
  | None, Some b => Ok (Some b)
  | None, None => Ok None
  end.

(** ** Errors *)

Definition any_of (needles : list string) (low : string) : bool := existsb (fun n => contains n low) needles.
Definition error_status (raw_text : string) : Z :=
  let low := to_ascii_lowercase raw_text in
  if any_of ["action token"; "invalid action token"; "issuer"; "audience"; "scope/op"; "replayed jti"; "submit denied"]%string low
  then UNAUTHORIZED
  else if any_of ["already in progress"; "duplicate req_id"]%string low then CONFLICT
  else if any_of ["wallet-rpc"]%string low then BAD_GATEWAY
  else if any_of ["must be"; "mismatch"; "no active snapshot"; "invalid"; "describe_transfer"; "policy"]%string low
  then BAD_REQUEST
  else INTERNAL_SERVER_ERROR.

(** [return resp] *)
Definition or_return {A} (r : result Response A) (k : A -> AG Response) : AG Response :=
  match r with Ok a => k a | Err resp => sret resp end.
Notation "'let^' x := m 'in' k" := (or_return m (fun x => k)) (at level 200, x name, m at level 100, k at level 200).

Create HintDb clean.
Create HintDb emits.

Section worker.
Context `{Jwt} `{SignerExt} `{AgentLib} `{AgentEnv} `{!WorkerExt}.
Context (self : SignerAgent) (service_token : string).

Definition map_error (raw_text : string) : AG Response :=
  let* text := or_panic (sanitize_runtime_detail raw_text) in
  sret (MkResponse (error_status raw_text) (ErrorResponse text)).
(** [match m.await { Ok(v) => (StatusCode::OK, Json(..)), Err(err) => map_error(err) }] *)
Definition respond {A} (m : AG A) (body : A -> Body) : AG Response :=
  let* r := attempt m in
  match r with Ok a => sret (MkResponse OK (body a)) | Err e => map_error e end.

(** ** Handlers *)

Definition healthz : AG Response := sret (MkResponse OK (HealthResponse true)).

Definition audit_metrics (headers : HeaderMap) : AG Response :=
  let^ _ := require_service_auth headers service_token in
  respond (read (audit_security_dashboard_sync None)) DashboardBody.

Definition alerts_window (q : AuditAlertsQuery) : Z := sat_mul_u64 (Z.max (default 300 (lq_window_secs q)) 1) 1000.
Definition alerts_thresholds (q : AuditAlertsQuery) : SecurityAlertThresholds :=
  MkSecurityThresholds (Z.max (default 5 (lq_token_reject_total q)) 1) (Z.max (default 3 (lq_replay_reject_total q)) 1)
    (Z.max (default 1 (lq_policy_reject_total q)) 1) (Z.max (default 2 (lq_rpc_fail_total q)) 1)
    (Z.max (default 1 (lq_shadow_allow_total q)) 1).
Definition audit_alerts (headers : HeaderMap) (q : AuditAlertsQuery) : AG Response :=
  let^ _ := require_service_auth headers service_token in
  respond (access (fun now now2 => audit_security_alert_report now now2 (alerts_window q) (alerts_thresholds q)))
    AlertReportBody.

Definition action_or_return (raw : string) : result Response EscrowAction :=
  map_err (fun e => error_response (BAD_REQUEST, e)) (parse_action raw).
Definition token_or_return (headers : HeaderMap) (body_token : option string) : result Response (option string) :=
  map_err error_response (resolve_action_token headers body_token).

Definition sign_multisig (headers : HeaderMap) (req : SignMultisigRequest) : AG Response :=
  let^ _ := require_service_auth headers service_token in
  let^ action := action_or_return (sq_action req) in
  let^ action_token := token_or_return headers (sq_action_token req) in
  respond (sign_multisig_flow self (sq_escrow_id_hex req) action (sq_tx_data_hex req) (token_of <$> action_token))
    (fun signed => SignMultisigResponse (sg_tx_data_hex signed) (sg_tx_hash_list signed)).

Definition propose_multisig (headers : HeaderMap) (req : ProposeMultisigRequest) : AG Response :=
  let^ _ := require_service_auth headers service_token in
  let^ action := action_or_return (pq_action req) in
  respond (propose_multisig_flow self (pq_escrow_id_hex req) action (pq_amount_override_atomic req))
    (fun v => ProposeMultisigResponse (pm_tx_data_hex v) (pm_txset_hash_hex v)).

Definition submit_multisig (headers : HeaderMap) (req : SubmitMultisigRequest) : AG Response :=
  let^ _ := require_service_auth headers service_token in
  let^ action := action_or_return (uq_action req) in
  let^ action_token := token_or_return headers (uq_action_token req) in
  respond (submit_multisig_flow self (uq_escrow_id_hex req) action (uq_tx_data_hex req) (token_of <$> action_token))
    SubmitMultisigResponse.

Definition has_context (c : AuthEventContext) : bool :=
  bool_decide (is_Some (cx_op c)) || bool_decide (is_Some (cx_txset_hash_hex c))
  || bool_decide (is_Some (cx_proof_arbiter_jti c)) || bool_decide (is_Some (cx_proof_arbiter_req_id c))
  || bool_decide (is_Some (cx_proof_seller_jti c)) || bool_decide (is_Some (cx_proof_seller_req_id c)).
Definition auth_event (headers : HeaderMap) (req : AuthAuditEventRequest) : AG Response :=
  let^ _ := require_service_auth headers service_token in
  let context := MkAuthContext (aq_op req) (aq_txset_hash_hex req) (aq_proof_arbiter_jti req)
    (aq_proof_arbiter_req_id req) (aq_proof_seller_jti req) (aq_proof_seller_req_id req) in
  respond (append_auth_event self (aq_escrow_id_hex req) (aq_event_kind req) (aq_actor_id req) (aq_detail req)
             (if has_context context then Some context else None))
    (fun _ => HealthResponse true).

(** ** Dispatch *)

(** The extractor runs before the handler, its refusal is the answer. *)
Definition extracted {A} (r : result (Z * string) A) : result Response A :=
  map_err (fun e => MkResponse e.1 (FrameworkBody e.2)) r.
Definition framework (status : Z) : AG Response := sret (MkResponse status (FrameworkBody "")).
(** A [get] route answers [HEAD] too, without the body. *)
Definition is_get (q : HttpRequest) : bool := (hq_method q =? "GET")%string || (hq_method q =? "HEAD")%string.
Definition is_post (q : HttpRequest) : bool := (hq_method q =? "POST")%string.

Inductive Route : Type := RHealthz | RMetrics | RAlerts | RPropose | RSign | RSubmit | RAuthEvent.
Definition route_of (path : string) : option Route :=
  if (path =? "/healthz")%string then Some RHealthz
  else if (path =? "/v1/audit/metrics")%string then Some RMetrics
  else if (path =? "/v1/audit/alerts")%string then Some RAlerts
  else if (path =? "/v1/propose_multisig")%string then Some RPropose
  else if (path =? "/v1/sign_multisig")%string then Some RSign
  else if (path =? "/v1/submit_multisig")%string then Some RSubmit
  else if (path =? "/v1/audit/auth_event")%string then Some RAuthEvent else None.
Definition route_method (r : Route) (q : HttpRequest) : bool :=
  match r with RHealthz | RMetrics | RAlerts => is_get q | _ => is_post q end.

Definition run_route (r : Route) (q : HttpRequest) : AG Response :=
  let headers := hq_headers q in
  match r with
  | RHealthz => healthz
  | RMetrics => audit_metrics headers
  | RAlerts => let^ query := extracted (alerts_query q) in audit_alerts headers query
  | RPropose => let^ req := extracted (propose_request q) in propose_multisig headers req
  | RSign => let^ req := extracted (sign_request q) in sign_multisig headers req
  | RSubmit => let^ req := extracted (submit_request q) in submit_multisig headers req
  | RAuthEvent => let^ req := extracted (auth_event_request q) in auth_event headers req
  end.
Definition app (q : HttpRequest) : AG Response :=
  match route_of (hq_path q) with
  | None => framework NOT_FOUND
  | Some r => if route_method r q then run_route r q else framework METHOD_NOT_ALLOWED
  end.

(** ** What a request can do *)

(** The token a request shows in the service header. *)
Definition presented (q : HttpRequest) : option string :=
  match bearer_token_from_service_headers (hq_headers q) with Ok t => t | Err _ => None end.

Lemma service_auth_ok q :
  require_service_auth (hq_headers q) service_token = Ok tt <-> presented q = Some service_token.
Proof.
  unfold require_service_auth, presented.
  destruct (bearer_token_from_service_headers _) as [[t|]|e]; [|done|done].
  rewrite fail_if_ok, negb_false_iff, String.eqb_eq. split; congruence.
Qed.

Lemma bearer_token_err name kind v e : bearer_token name kind v = Err e ->
  e.1 = UNAUTHORIZED /\ e.2 ∈ ["invalid " +:+ name +:+ " header"; "bad " +:+ name +:+ " header format";
    name +:+ " scheme must be Bearer"; "empty " +:+ kind +:+ " token"].
Proof.
  unfold bearer_token. destruct v as [[raw|]|]; simpl; [|intros [= <-]; set_solver|done].
  destruct (split_once " " raw) as [[scheme token]|]; simpl; [|intros [= <-]; set_solver].
  destruct (negb _); simpl; [intros [= <-]; set_solver|].
  destruct (is_empty _); simpl; [intros [= <-]; set_solver|done].
Qed.

(** The texts of the service check. *)
Definition SERVICE_REFUSALS : list string :=
  ["invalid service auth header"; "bad service auth header format"; "service auth scheme must be Bearer";
   "empty service bearer token"; "missing service auth header"; "unauthorized service caller"].

Lemma service_auth_err q resp :
  require_service_auth (hq_headers q) service_token = Err resp ->
  rs_status resp = UNAUTHORIZED /\ exists t, rs_body resp = ErrorResponse t /\ t ∈ SERVICE_REFUSALS.
Proof.
  unfold require_service_auth. destruct (bearer_token_from_service_headers _) as [[t|]|e] eqn:Eb.
  - destruct (negb _); [|done]. intros [= <-]. split; [done|]. eexists. split; [done|]. set_solver.
  - intros [= <-]. split; [done|]. eexists. split; [done|]. set_solver.
  - intros [= <-]. apply bearer_token_err in Eb as [He1 He2]. split; [done|]. exists e.2. split; [done|]. simpl in He2. set_solver.
Qed.

(** An answer given before the service check passed. *)
Definition outside_answer (q : HttpRequest) (r : Response) : Prop :=
  (hq_path q = "/healthz"%string /\ r = MkResponse OK (HealthResponse true)) \/
  (exists text, rs_body r = FrameworkBody text) \/
  (rs_status r = UNAUTHORIZED /\ exists t, rs_body r = ErrorResponse t /\ t ∈ SERVICE_REFUSALS).

Lemma route_of_path path r : route_of path = Some r -> r = RHealthz -> path = "/healthz"%string.
Proof.
  unfold route_of. destruct (String.eqb_spec path "/healthz"); [done|].
  repeat (match goal with |- context [if ?b then _ else _] => destruct b end; [intros [= <-]; done|]). done.
Qed.

Lemma unauthorized_inert_aux q s :
  presented q <> Some service_token ->
  exists r, app q s = (s, Ok r) /\ outside_answer q r.
Proof.
  intros Hp. unfold app. destruct (route_of (hq_path q)) as [r|] eqn:Er; [|eexists; split; [done|]; right; left; by eexists].
  destruct (route_method r q); [|eexists; split; [done|]; right; left; by eexists].
  assert (exists resp, require_service_auth (hq_headers q) service_token = Err resp) as [resp Hr].
  { destruct (require_service_auth _ _) as [[]|resp] eqn:E; [by apply service_auth_ok in E|by eexists]. }
  pose proof (service_auth_err q resp Hr) as Hresp.
  assert (forall (A : Type) (x : result (Z * string) A) k, (forall a, k a = sret resp) ->
    exists r', or_return (extracted x) k s = (s, Ok r') /\ outside_answer q r') as Hext.
  { intros A [a|[c t]] k Hk; simpl; [rewrite Hk; exists resp; split; [done|right; by right]|].
    eexists. split; [done|]. right. left. by eexists. }
  destruct r; simpl; [exists (MkResponse OK (HealthResponse true)); split; [done|left; split; [by eapply route_of_path|done]]| | | | | |].
  1: unfold audit_metrics; rewrite Hr; exists resp; split; [done|right; by right].
  all: apply Hext; intros a; unfold audit_alerts, propose_multisig, sign_multisig, submit_multisig, auth_event; by rewrite Hr.
Qed.

(** A request that does not show the exact service token changes nothing,
    neither the database nor the limiter nor anything outside, and learns
    nothing: whatever its path, method and body, the answer is the health check's,
    one of the framework's own (no such path or method, a body that does not
    read), or 401 with one of the six fixed texts of the service check. *)
Theorem unauthorized_inert q s :
  presented q <> Some service_token ->
  exists r, app q s = (s, Ok r) /\ outside_answer q r.
Proof. apply unauthorized_inert_aux. Qed.

(** The entry points of the agent behind the two routes that reach the wallet. *)
Inductive calls (q : HttpRequest) : AgentCall -> Prop :=
| calls_sign req act tok :
    hq_path q = "/v1/sign_multisig"%string -> sign_request q = Ok req -> parse_action (sq_action req) = Ok act ->
    resolve_action_token (hq_headers q) (sq_action_token req) = Ok tok ->
    calls q (CallSign (sq_escrow_id_hex req) act (sq_tx_data_hex req) (token_of <$> tok))
| calls_submit req act tok :
    hq_path q = "/v1/submit_multisig"%string -> submit_request q = Ok req -> parse_action (uq_action req) = Ok act ->
    resolve_action_token (hq_headers q) (uq_action_token req) = Ok tok ->
    calls q (CallSubmit (uq_escrow_id_hex req) act (uq_tx_data_hex req) (token_of <$> tok)).

Lemma respond_state {A} (m : AG A) body s : (respond m body s).1 = (m s).1.
Proof.
  unfold respond, sbind, attempt. destruct (m s) as [s1 [a|[e|]]]; [done| |done].
  unfold map_error, or_panic, sbind, slift. by destruct (sanitize_runtime_detail e).
Qed.

Lemma quiet_bundle e t aj ar sj sr b : quiet (verify_submit_quorum_proof_bundle e t aj ar sj sr b).
Proof.
  unfold verify_submit_quorum_proof_bundle, fetch_submit_multisig_proof_bundle. opening. cbv zeta.
  repeat first [apply quiet_orchestrator | quiet_step].
Qed.

Lemma quiet_auth_event e kind actor detail ctx : quiet (append_auth_event self e kind actor detail ctx).
Proof.
  unfold append_auth_event, check_token_issued. opening. cbv zeta. pose proof quiet_bundle. quieten.
  apply quiet_access. intros n1 n2 d. eapply reach_unit. apply (reach_op (OpAudit n1 _)).
Qed.

Lemma quiet_dashboard : quiet (read (audit_security_dashboard_sync None)).
Proof. apply quiet_access. intros n1 n2 d. done. Qed.
Lemma quiet_alerts window th : quiet (access (fun now now2 => audit_security_alert_report now now2 window th)).
Proof. apply quiet_access. intros n1 n2 d. destruct (security_report_exact n1 n2 window th d) as (r & -> & _). done. Qed.

Lemma went_respond {A} (m : AG A) body s : quiet m -> went [] s (respond m body s).1.
Proof. intros Hm. rewrite respond_state. apply Hm. Qed.

Lemma route_path path r : route_of path = Some r ->
  (r = RSign -> path = "/v1/sign_multisig"%string) /\ (r = RSubmit -> path = "/v1/submit_multisig"%string).
Proof.
  unfold route_of. repeat (match goal with |- context [(?a =? ?b)%string] => destruct (String.eqb_spec a b) end;
    [intros [= <-]; by split|]). done.
Qed.

(** A handler that passed the service check and, where it has one, the check
    of the action. *)
Lemma or_return_inv {A} (r : result Response A) (k : A -> AG Response) (P : agent -> Prop) s :
  P s -> (forall a, r = Ok a -> P (k a s).1) -> P (or_return r k s).1.
Proof. intros Hs Hk. destruct r as [a|resp]; [by apply Hk|done]. Qed.

Lemma extracted_ok {A} (x : result (Z * string) A) a : extracted x = Ok a <-> x = Ok a.
Proof. apply map_err_ok. Qed.

(** A request leaves the wallet closed, or is an authorised call of one of
    the agent's two flows. *)
Lemma app_call q s :
  went [] s (app q s).1 \/
  presented q = Some service_token /\ exists c, calls q c /\ (app q s).1 = run_call self c s.
Proof.
  set (P := fun s' => went [] s s' \/ presented q = Some service_token /\ exists c, calls q c /\ s' = run_call self c s).
  change (P (app q s).1). assert (P s) as Hs by (left; apply went_refl).
  unfold app. destruct (route_of (hq_path q)) as [r|] eqn:Er; [|done]. destruct (route_method r q); [|done].
  apply route_path in Er as [Hsign Hsubmit].
  destruct r; simpl; [done|unfold audit_metrics|..];
    try (apply or_return_inv; [done|intros req Hreq%extracted_ok]);
    unfold audit_alerts, propose_multisig, sign_multisig, submit_multisig, auth_event;
    (apply or_return_inv; [done|intros [] Hauth%service_auth_ok]).
  - left. apply went_respond, quiet_dashboard.
  - left. apply went_respond, quiet_alerts.
  - apply or_return_inv; [done|]. intros act _. left. apply went_respond, quiet_propose.
  - apply or_return_inv; [done|]. intros act Hact%map_err_ok. apply or_return_inv; [done|]. intros tok Htok%map_err_ok.
    right. split; [done|]. exists (CallSign (sq_escrow_id_hex req) act (sq_tx_data_hex req) (token_of <$> tok)).
    split; [by constructor; auto|]. by rewrite respond_state.
  - apply or_return_inv; [done|]. intros act Hact%map_err_ok. apply or_return_inv; [done|]. intros tok Htok%map_err_ok.
    right. split; [done|]. exists (CallSubmit (uq_escrow_id_hex req) act (uq_tx_data_hex req) (token_of <$> tok)).
    split; [by constructor; auto|]. by rewrite respond_state.
  - left. apply went_respond, quiet_auth_event.
Qed.

(** *** What a route may do outside the database *)

(** Everything [m] does to the outside is allowed by [P]. *)
Definition emits (P : Effect -> Prop) {A} (m : AG A) : Prop := forall s,
  exists new, ag_log (m s).1 = ag_log s ++ new /\ Forall P new.
Lemma emits_nothing P {A} (m : AG A) : (forall s, ag_log (m s).1 = ag_log s) -> emits P m.
Proof. intros Hm s. exists []. by rewrite app_nil_r. Qed.
Lemma emits_bind P {A B} (m : AG A) (k : A -> AG B) : emits P m -> (forall a, emits P (k a)) -> emits P (sbind m k).
Proof.
  intros Hm Hk s. unfold sbind. specialize (Hm s). destruct (m s) as [s1 [a|e]]; [|done].
  destruct Hm as (n1 & E1 & F1), (Hk a s1) as (n2 & E2 & F2). exists (n1 ++ n2).
  simpl in E1. rewrite E2, E1, app_assoc. split; [done|]. by apply Forall_app.
Qed.
Lemma emits_attempt P {A} (m : AG A) : emits P m -> emits P (attempt m).
Proof. intros Hm s. specialize (Hm s). unfold attempt. by destruct (m s) as [s1 [a|[]]]. Qed.
Lemma emits_access P {A} (m : Z -> Z -> M sdb string A) : emits P (access m).
Proof. apply emits_nothing. intros s. unfold access. by destruct (m _ _ _). Qed.
Lemma emits_call (P : Effect -> Prop) {A} e (f : list Effect -> result string A) : P e -> emits P (call e f).
Proof. intros He s. exists [e]. split; [done|]. by constructor. Qed.

Lemma emits_verify P op v tok p : emits P (verify_token op v tok p).
Proof. apply emits_nothing. intros s. unfold verify_token. by destruct (verify_op _ _ _ _ _ _ _ _). Qed.

Ltac head_of t := lazymatch t with ?f _ => head_of f | _ => t end.
Ltac emit_step :=
  lazymatch goal with
  | |- forall _, _ => intros ?
  | |- emits _ (sbind _ _) => apply emits_bind
  | |- emits _ (attempt _) => apply emits_attempt
  | |- emits _ (access _) => apply emits_access
  | |- emits _ (read _) => apply emits_access
  | |- emits _ (call _ _) => apply emits_call; exact I
  | |- emits _ (verify_token _ _ _ _) => apply emits_verify
  | |- emits _ (sret _) => by apply emits_nothing
  | |- emits _ (sfail _) => by apply emits_nothing
  | |- emits _ (slift _) => by apply emits_nothing
  | |- emits _ (match ?x with _ => _ end) => destruct x
  | |- emits _ (let '_ := ?x in _) => destruct x
  | |- emits _ ?m => let h := head_of m in unfold h; cbv beta zeta
  end.
Ltac emitting := repeat emit_step.

(** The effects a request on a route may have. Opening the wallet file, describing a set and building an unsigned one need the service token only. *)
Definition route_effect (r : option Route) (e : Effect) : Prop :=
  match r, e with
  | Some RPropose, (EOpen | ETransfer _ | EDescribe _) => True
  | Some RSign, (EOpen | EDescribe _ | ESign _ | EOrchestrator _) => True
  | Some RSubmit, (EOpen | EDescribe _ | ESubmit _ | EOrchestrator _) => True
  | Some RAuthEvent, EOrchestrator _ => True
  | _, _ => False
  end.
Lemma emits_propose e act amount : emits (route_effect (Some RPropose)) (propose_multisig_flow self e act amount).
Proof. emitting. Qed.
Lemma emits_sign e act tx tok : emits (route_effect (Some RSign)) (sign_multisig_flow self e act tx tok).
Proof. emitting. Qed.
Lemma emits_submit e act tx tok : emits (route_effect (Some RSubmit)) (submit_multisig_flow self e act tx tok).
Proof. emitting. Qed.
Lemma emits_auth_event e kind actor detail ctx : emits (route_effect (Some RAuthEvent)) (append_auth_event self e kind actor detail ctx).
Proof. emitting. Qed.

Lemma emits_respond P {A} (m : AG A) body : emits P m -> emits P (respond m body).
Proof. intros Hm s. rewrite respond_state. apply Hm. Qed.
Lemma emits_return P {A} (r : result Response A) (k : A -> AG Response) : (forall a, emits P (k a)) -> emits P (or_return r k).
Proof. intros Hk. destruct r; [apply Hk|by apply emits_nothing]. Qed.
Hint Resolve emits_propose emits_sign emits_submit emits_auth_event : emits.
Lemma emits_app q : emits (route_effect (route_of (hq_path q))) (app q).
Proof.
  unfold app. destruct (route_of (hq_path q)) as [rt|]; [|by apply emits_nothing]. destruct (route_method rt q); [|by apply emits_nothing].
  destruct rt; simpl; [by apply emits_nothing|..];
    unfold audit_metrics, audit_alerts, propose_multisig, sign_multisig, submit_multisig, auth_event;
    repeat (apply emits_return; intros ?); apply emits_respond; first [apply emits_access | auto with emits].
Qed.

(** What a call of a flow that reached the wallet had established. *)
Definition committed_for (c : AgentCall) (s s' : agent) : Prop :=
  match c with
  | CallSign e act tx tok => exists p snapshot,
      went [ESign (pr_tx_data_hex p)] s s' /\ cleared self e act tx s s' p snapshot /\
      (sa_verifier self <> None -> exists v, spent self SignMultisig tok p v s s')
  | CallSubmit e act tx tok => exists p snapshot,
      went [ESubmit (pr_tx_data_hex p)] s s' /\ cleared self e act tx s s' p snapshot /\
      (sa_verifier self <> None -> exists v, spent self SubmitMultisig tok p v s s' /\ quorum_checked self p v s s')
  | _ => False
  end.

(** C10. What a request to the worker API can have done to the outside.  Without
    the exact service token it changes nothing at all.  With it, what it does
    depends on the route: the audit and health routes do nothing outside the
    database, an audit event may run the orchestrator, a proposal opens the wallet
    file, builds an unrelayed transfer and has it described, and a sign or submit
    request opens the wallet file, has the set described, signs or submits and may
    run the orchestrator.  No action token is needed to open, describe or build:
    a sign or submit request does the first two before its action token is
    looked at.  The wallet is asked to sign or submit at most once per request, and
    only on the route of that name, for an action the request names and an action
    token that is the same in the header and the body; what the wallet is then
    asked for is the transaction of the request, which the snapshot in force
    allows and for which the token, unused before, was consumed (with the quorum's
    proofs for a submission). *)
Theorem request_gated q s :
  (presented q <> Some service_token -> (app q s).1 = s) /\
  (exists new, ag_log (app q s).1 = ag_log s ++ new /\ Forall (route_effect (route_of (hq_path q))) new) /\
  (went [] s (app q s).1 \/
   presented q = Some service_token /\ exists c, calls q c /\ committed_for c s (app q s).1).
Proof.
  split; [intros Hp; by destruct (unauthorized_inert_aux q s Hp) as (r & -> & _)|]. split; [apply emits_app|].
  destruct (app_call q s) as [Hw|(Hp & c & Hc & Heq)]; [by left|].
  destruct Hc as [req act tok Hpath Hreq Hact Htok|req act tok Hpath Hreq Hact Htok]; simpl in Heq.
  - destruct (sign_multisig_flow _ _ _ _ _ _) as [s' r] eqn:Ef. simpl in Heq. subst.
    apply sign_gated_aux in Ef as [Hw|Ho]; [by left|]. right. split; [done|].
    eexists. split; [by eapply calls_sign|exact Ho].
  - destruct (submit_multisig_flow _ _ _ _ _ _) as [s' r] eqn:Ef. simpl in Heq. subst.
    apply submit_gated_aux in Ef as [Hw|Ho]; [by left|]. right. split; [done|].
    eexists. split; [by eapply calls_submit|exact Ho].
Qed.

(** ** Texts *)

Definition clean_response (r : Response) : Prop := forall t, rs_body r = ErrorResponse t -> contains_probable_jwt t = false.
Definition clean (m : AG Response) : Prop := forall s s' r, m s = (s', Ok r) -> clean_response r.

Lemma map_error_clean raw : clean (map_error raw).
Proof.
  intros s s' r. unfold map_error, or_panic, sbind, slift. destruct (sanitize_runtime_detail raw) as [out|] eqn:Es; [|done].
  intros [= <- <-] t [= <-]. by eapply sanitized_has_no_jwt.
Qed.
Lemma respond_clean {A} (m : AG A) body : (forall a e, body a <> ErrorResponse e) -> clean (respond m body).
Proof.
  intros Hb s s' r. unfold respond. rewrite sbind_run.
  destruct (attempt m s) as [s1 [[a|e]|e]]; [|by apply map_error_clean|done]. intros [= <- <-] t Ht. by apply Hb in Ht.
Qed.
Lemma or_return_clean {A} (x : result Response A) (k : A -> AG Response) :
  (forall resp, x = Err resp -> clean_response resp) -> (forall a, clean (k a)) -> clean (or_return x k).
Proof. intros Hx Hk s s' r. destruct x as [a|resp]; [apply Hk|]. intros [= <- <-]. by apply Hx. Qed.

Lemma texts_clean (l : list string) t :
  forallb (fun t => negb (contains_probable_jwt t)) l = true -> t ∈ l -> contains_probable_jwt t = false.
Proof. rewrite forallb_forall. intros Hl Ht%list_elem_of_In. apply negb_true_iff. auto. Qed.

Lemma service_clean headers resp : require_service_auth headers service_token = Err resp -> clean_response resp.
Proof.
  intros Hr t Ht. destruct (service_auth_err (MkHttpRequest "" "" headers None "") resp Hr) as (_ & t' & Hb & Hin).
  rewrite Ht in Hb. injection Hb as <-. eapply texts_clean; [|exact Hin]. vm_compute. reflexivity.
Qed.
Lemma action_clean raw resp : action_or_return raw = Err resp -> clean_response resp.
Proof.
  unfold action_or_return, parse_action. cbv zeta. destruct (_ =? _)%string; [done|]. destruct (_ =? _)%string; [done|].
  intros [= <-] t [= <-]. vm_compute. reflexivity.
Qed.
Lemma token_clean headers b resp : token_or_return headers b = Err resp -> clean_response resp.
Proof.
  unfold token_or_return, resolve_action_token. destruct (bearer_token_from_headers headers) as [h|e] eqn:Eb; simpl.
  - destruct h as [h|], (opt_non_blank b) as [b'|]; try done. destruct (negb _); [|done].
    intros [= <-] t [= <-]. vm_compute. reflexivity.
  - intros [= <-] t [= <-]. apply bearer_token_err in Eb as [_ Hin]. eapply texts_clean; [|exact Hin]. vm_compute. reflexivity.
Qed.
Lemma extracted_clean {A} (x : result (Z * string) A) resp : extracted x = Err resp -> clean_response resp.
Proof. destruct x; [done|]. by intros [= <-]. Qed.
Hint Resolve service_clean action_clean token_clean extracted_clean respond_clean or_return_clean : clean.

Lemma app_clean q : clean (app q).
Proof.
  unfold app. destruct (route_of (hq_path q)) as [rt|]; [|by intros s s' r [= <- <-]].
  destruct (route_method rt q); [|by intros s s' r [= <- <-]].
  destruct rt; simpl; [by intros s s' r [= <- <-]|..];
    unfold audit_metrics, audit_alerts, propose_multisig, sign_multisig, submit_multisig, auth_event;
    repeat (apply or_return_clean; [eauto with clean|intros ?]); by apply respond_clean.
Qed.

(** No error the worker API answers contains a word that looks like a JWT:
    whatever the request, and whatever the wallet, the database or the
    orchestrator put into the error, an action token never comes back in it. *)
Theorem errors_without_token q s s' r t :
  app q s = (s', Ok r) -> rs_body r = ErrorResponse t -> contains_probable_jwt t = false.
Proof. intros Hrun. by apply (app_clean q s s' r Hrun). Qed.

(** ** Any number of requests *)

Definition serve_requests (qs : list HttpRequest) (s : agent) : agent := foldl (fun s q => (app q s).1) s qs.
Definition authorised (q : HttpRequest) : bool := bool_decide (presented q = Some service_token).

Lemma app_reach q s : reach (ag_db s) (ag_db (app q s).1).
Proof. destruct (app_call q s) as [[Hr _]|(_ & c & _ & ->)]; [done|apply call_reach]. Qed.

(** One request: at most one signature or submission, paid for by a token and an authorised caller. *)
Lemma app_spends q s : sa_verifier self <> None ->
  (length (committed (ag_log (app q s).1)) + length (consumed_action_jti (ag_db s))
   <= length (committed (ag_log s)) + length (consumed_action_jti (ag_db (app q s).1)))%nat /\
  (length (committed (ag_log (app q s).1)) <= length (committed (ag_log s)) + (if authorised q then 1 else 0))%nat.
Proof.
  intros Hv. split.
  - destruct (app_call q s) as [[Hr Hl]|(_ & c & _ & ->)]; [|by apply call_spends].
    rewrite Hl, app_nil_r. pose proof (prefix_length _ _ (consumed_prefix _ _ Hr)). lia.
  - destruct (app_call q s) as [[_ Hl]|(Hp & c & Hc & ->)]; [rewrite Hl, app_nil_r; lia|].
    unfold authorised. rewrite bool_decide_true by done. destruct Hc; simpl.
    + destruct (sign_multisig_flow _ _ _ _ _ _) as [s' r] eqn:Ef.
      apply sign_gated_aux in Ef as [[_ Hl]|(p & sn & [_ Hl] & _)]; simpl; rewrite Hl, length_app; simpl; lia.
    + destruct (submit_multisig_flow _ _ _ _ _ _) as [s' r] eqn:Ef.
      apply submit_gated_aux in Ef as [[_ Hl]|(p & sn & [_ Hl] & _)]; simpl; rewrite Hl, length_app; simpl; lia.
Qed.

(** Over any sequence of requests, authorised or not, the wallet is
    asked to sign or submit at most once per authorised request and at most once
    per consumed token id, and no id is consumed twice. *)
Theorem requests_spend_tokens qs limiter :
  sa_verifier self <> None ->
  let s := serve_requests qs (Agent empty_sdb limiter 0 []) in
  (length (committed (ag_log s)) <= length (consumed_action_jti (ag_db s)))%nat /\
  (length (committed (ag_log s)) <= length (List.filter authorised qs))%nat /\
  NoDup (map cj_jti (consumed_action_jti (ag_db s))).
Proof.
  intros Hv. set (start := Agent empty_sdb limiter 0 []). cbv zeta.
  assert (forall qs s, signer_ok (ag_db s) ->
    (length (committed (ag_log (serve_requests qs s))) + length (consumed_action_jti (ag_db s))
     <= length (committed (ag_log s)) + length (consumed_action_jti (ag_db (serve_requests qs s))))%nat /\
    (length (committed (ag_log (serve_requests qs s))) <= length (committed (ag_log s)) + length (List.filter authorised qs))%nat /\
    signer_ok (ag_db (serve_requests qs s))) as Hrun.
  { clear qs. induction qs as [|q qs IH]; intros s Hok; [simpl; split_and!; [lia|lia|done]|].
    destruct (app_spends q s Hv) as [Ht Ha]. destruct (IH (app q s).1) as (IHt & IHa & IHok); [eapply reach_ok; [apply app_reach|done]|].
    cbn [serve_requests foldl List.filter]. fold (serve_requests qs (app q s).1).
    split_and!; [lia|destruct (authorised q); simpl in *; lia|done]. }
  destruct (Hrun qs start) as (Ht & Ha & Hok); [apply empty_signer_ok|].
  simpl in Ht, Ha. split_and!; [lia|lia|]. by apply so_jti.
Qed.
End worker.

(** The token that goes to the flows is what every place that carries one says:
    header and body never disagree about it, and it is neither blank nor padded. *)
Theorem action_token_agrees headers body t :
  resolve_action_token headers body = Ok (Some t) ->
  trimmed t /\ (headers AUTHORIZATION = None \/ bearer_token_from_headers headers = Ok (Some t)) /\
  (opt_non_blank body = None \/ opt_non_blank body = Some t).
Proof.
  unfold resolve_action_token. intros Hr. apply rbind_ok in Hr as (h & Hh & Hr).
  assert (forall b, opt_non_blank body = Some b -> trimmed b) as Hbody
    by (intros b Hb; destruct body; [by eapply non_blank_trimmed|done]).
  assert (forall t, bearer_token_from_headers headers = Ok (Some t) -> trimmed t) as Hheader.
  { intros t'. unfold bearer_token_from_headers, bearer_token. destruct (headers AUTHORIZATION) as [[raw|]|]; simpl; try done.
    destruct (split_once " " raw) as [[scheme token]|]; simpl; [|done]. destruct (negb _); simpl; [done|].
    destruct (is_empty (trim token)) eqn:Ee; simpl; [done|]. intros [= <-]. by apply trim_trimmed. }
  destruct h as [h|], (opt_non_blank body) as [b|] eqn:Eb; try done.
  - destruct (String.eqb_spec h b) as [<-|]; [|done]. injection Hr as <-. auto.
  - injection Hr as <-. auto.
  - injection Hr as <-. split; [auto|]. split; [|auto]. left. revert Hh. unfold bearer_token_from_headers, bearer_token.
    destruct (headers AUTHORIZATION) as [[raw|]|]; simpl; [|done|done].
    destruct (split_once " " raw) as [[scheme token]|]; simpl; [|done]. destruct (negb _); simpl; [done|].
    by destruct (is_empty (trim token)).
Qed.

(** Whatever the query asks for, a window without security events raises no
    alert: a threshold of zero counts as one. *)
Theorem no_events_no_alerts q now window d :
  Forall (fun b => sb_total b = 0) [sd_token_reject d; sd_replay_reject d; sd_policy_reject d; sd_rpc_fail d; sd_shadow_allow d] ->
  sp_alerts (build_security_alert_report now window (alerts_thresholds q) d) = [].
Proof.
  rewrite !Forall_cons. intros (H1 & H2 & H3 & H4 & H5 & _). unfold build_security_alert_report, alert_if, alerts_thresholds.
  cbn [sp_alerts st_token_reject_total st_replay_reject_total st_policy_reject_total st_rpc_fail_total st_shadow_allow_total].
  rewrite H1, H2, H3, H4, H5, !(proj2 (Z.leb_gt _ _)) by lia. done.
Qed.

Example binds : map (fun b => is_ok (enforce_bind_policy b))
  ["127.0.0.1:28090"; "[::1]:28090"; "[::1%1]:00080"; "127.0.0.1"; "localhost:28090"; "0.0.0.0:28090"; "[::]:1";
   "[::ffff:127.0.0.1]:1"; "127.0.0.1:65536"; "127.0.0.1:"; "::1:80"; "127.0.0.1:80 "]%string
  = [true; true; true; false; false; false; false; false; false; false; false; false].
Proof. vm_compute. reflexivity. Qed.

(** ** On a concrete signer *)

#[local] Existing Instance plain_jwt.
#[local] Existing Instance plain_sql.
#[local] Existing Instance plain_lib.
Definition ready_var (_ : string) : option string := None.
#[local] Instance ready_env : AgentEnv := env_with ready_var.
(** The action token is the text of its id; the body of a request is that text. *)
#[local] Instance plain_worker : WorkerExt := {|
  token_of := plain_claims;
  sign_request := fun q => Ok (MkSignRequest plain_escrow " Release" requested_tx (Some (hq_body q)));
  submit_request := fun _ => Err (422, "body"%string); propose_request := fun _ => Err (422, "body"%string);
  auth_event_request := fun _ => Err (422, "body"%string); alerts_query := fun _ => Err (400, "query"%string) |}.

Definition worker_headers (service : string) : HeaderMap := fun name =>
  if (name =? SERVICE_AUTH_HEADER)%string then Some (Some service)
  else if (name =? AUTHORIZATION)%string then Some (Some "bearer j1"%string) else None.
Definition post (path service body : string) : HttpRequest := MkHttpRequest "POST" path (worker_headers service) None body.
Definition served (q : HttpRequest) : agent * result AgentError Response := app plain_agent "s3cret" q plain_start.

Example signed_once :
  let r := served (post "/v1/sign_multisig" "BEARER  s3cret " " j1 ") in
  r.2 = Ok (MkResponse OK (SignMultisigResponse "00bb" ["txhash"%string])) /\ committed (ag_log r.1) = [ESign requested_tx].
Proof. vm_compute. by split. Qed.
Example refused :
  map (fun q => (served q).2)
    [post "/v1/sign_multisig" "Bearer s3cret" "j2"; post "/v1/sign_multisig" "Bearer other" "j1";
     post "/v1/sign_multisig" "s3cret" "j1"; post "/v1/submit_multisig" "Bearer other" "j1"; post "/healthz" "" ""]
  = [Ok (MkResponse BAD_REQUEST (ErrorResponse "action token mismatch between Authorization header and body"));
     Ok (MkResponse UNAUTHORIZED (ErrorResponse "unauthorized service caller"));
     Ok (MkResponse UNAUTHORIZED (ErrorResponse "bad service auth header format"));
     Ok (MkResponse 422 (FrameworkBody "body")); Ok (MkResponse METHOD_NOT_ALLOWED (FrameworkBody ""))].
Proof. vm_compute. reflexivity. Qed.

Lemma unauthorized_inert_witness :
  exists r, served (post "/v1/sign_multisig" "Bearer other" "j1") = (plain_start, Ok r) /\
    outside_answer (post "/v1/sign_multisig" "Bearer other" "j1") r.
Proof. apply (unauthorized_inert plain_agent "s3cret"). vm_compute. discriminate. Defined.

Lemma errors_without_token_witness : contains_probable_jwt "unauthorized service caller" = false.
Proof.
  apply (errors_without_token plain_agent "s3cret" (post "/v1/sign_multisig" "Bearer other" "j1") plain_start plain_start
    (MkResponse UNAUTHORIZED (ErrorResponse "unauthorized service caller"))); vm_compute; reflexivity.
Defined.
