(* ===== verification/PeerTool.v ===== *)
(** * The peer tool and the client of the mailbox

    [crates/nxms-mailbox-client/src/lib.rs] and [crates/nxms-peer]: a peer asks a
    signer for a signature.  It loads its vault and peer book, takes the next
    sequence number from a file, seals and pushes the request and polls its inbox
    for the answer.  The state is the file system, the requests sent so far and
    the clock; the answers of the mailbox may depend on all requests before.
    Sealing and opening ([TransportCrypto]), [serde_json] and [reqwest] are
    parameters ([PeerLib]).  Errors name what failed and leave out the wording,
    except those of the mailbox client. *)

From S2P Require Import Prelude RustString Bytes Sql Json Wire Admission Packet TransportCrypto TransportCryptoProps Trust TrustFiles.
From S2P Require Import Vault VaultProps Bootstrap BootstrapProps AgentSupport.
From Stdlib Require Import Sorting.Sorted.

(** ** The mailbox client *)

Inductive RequestBody : Type :=
| PushRequest (envelope : NxmsEnvelope) (ttl_secs : option Z)
| PullRequest (to : string) (max wait_ms : option Z)
| AckRequest (receipt : string)
| NoRequestBody.
Record HttpCall : Type := MkHttpCall {
  hc_method : string; hc_url : string; hc_bearer : option string; hc_body : RequestBody }.

Record PushResponse : Type := MkPushResponse { pr_ok : bool; pr_dedup : bool }.
Record PulledMessage : Type := MkPulled { pm_receipt : string; pm_envelope : NxmsEnvelope }.
Record PullResponse : Type := MkPullResponse { pu_ok : bool; pu_messages : list PulledMessage }.
Record ErrorBody : Type := MkErrorBody { eb_detail : option string; eb_retry_after_secs : option Z }.
Record AdminInboxStats : Type := MkInboxStats {
  is_to : string; is_backlog_count : Z; is_oldest_age_secs : Z; is_bytes : Z }.
Record AdminStatsResponse : Type := MkAdminStats {
  as_ok : bool; as_total_rows : Z; as_db_bytes : Z; as_wal_bytes : Z; as_inboxes : list AdminInboxStats }.

Class MailHttp : Type := {
  Url : Type;
  url_parse : string -> option Url;
  url_join : Url -> string -> result string string;
  http_client : option Z -> option string -> result string unit;
  (** the status and, when it could be read, the text of the answer *)
  http_send : list HttpCall -> HttpCall -> result string (Z * option string);
  push_from : string -> result string PushResponse;
  pull_from : string -> result string PullResponse;
  ack_from : string -> result string bool;
  stats_from : string -> result string AdminStatsResponse;
  error_from : string -> option ErrorBody;
}.

Section client.
Context `{MailHttp}.
Notation MC := (M (list HttpCall) string).

Record MailboxClient : Type := MkMailboxClient {
  mc_base : Url; mc_push_token : option string; mc_pull_token : option string;
  mc_ack_token : option string; mc_admin_token : option string }.
Record MailboxClientBuilder : Type := MkMailboxBuilder {
  mb_base : Url; mb_tor_socks : option string; mb_push_token : option string; mb_pull_token : option string;
  mb_ack_token : option string; mb_admin_token : option string; mb_timeout : option Z }.

(** The timeout is in milliseconds. *)
Definition builder (base_url : string) : result string MailboxClientBuilder :=
  let? base := ok_or (url_parse base_url) "invalid base_url"%string in
  Ok (MkMailboxBuilder base None None None None None (Some 60000)).
Definition with_tor_socks (b : MailboxClientBuilder) (u : string) : MailboxClientBuilder :=
  MkMailboxBuilder (mb_base b) (Some u) (mb_push_token b) (mb_pull_token b) (mb_ack_token b) (mb_admin_token b) (mb_timeout b).
Definition with_push_token (b : MailboxClientBuilder) (t : string) : MailboxClientBuilder :=
  MkMailboxBuilder (mb_base b) (mb_tor_socks b) (Some t) (mb_pull_token b) (mb_ack_token b) (mb_admin_token b) (mb_timeout b).
Definition with_pull_token (b : MailboxClientBuilder) (t : string) : MailboxClientBuilder :=
  MkMailboxBuilder (mb_base b) (mb_tor_socks b) (mb_push_token b) (Some t) (mb_ack_token b) (mb_admin_token b) (mb_timeout b).
Definition with_ack_token (b : MailboxClientBuilder) (t : string) : MailboxClientBuilder :=
  MkMailboxBuilder (mb_base b) (mb_tor_socks b) (mb_push_token b) (mb_pull_token b) (Some t) (mb_admin_token b) (mb_timeout b).
Definition with_admin_token (b : MailboxClientBuilder) (t : string) : MailboxClientBuilder :=
  MkMailboxBuilder (mb_base b) (mb_tor_socks b) (mb_push_token b) (mb_pull_token b) (mb_ack_token b) (Some t) (mb_timeout b).
Definition with_timeout (b : MailboxClientBuilder) (ms : Z) : MailboxClientBuilder :=
  MkMailboxBuilder (mb_base b) (mb_tor_socks b) (mb_push_token b) (mb_pull_token b) (mb_ack_token b) (mb_admin_token b) (Some ms).
Definition build (b : MailboxClientBuilder) : result string MailboxClient :=
  let? _ := http_client (mb_timeout b) (mb_tor_socks b) in
  Ok (MkMailboxClient (mb_base b) (mb_push_token b) (mb_pull_token b) (mb_ack_token b) (mb_admin_token b)).

Definition http_error (status : Z) (body : option string) : string :=
  "mailbox http " +:+ dec status +:+
  match body with
  | Some b => let b := trim b in if is_empty b then EmptyString else ": " +:+ b
  | None => EmptyString
  end.
Definition error_detail (parsed : ErrorBody) : string :=
  let detail := default EmptyString (eb_detail parsed) in
  match eb_retry_after_secs parsed with
  | Some secs => (if is_empty detail then detail else detail +:+ " ") +:+ "retry_after=" +:+ dec secs +:+ "s"
  | None => detail
  end.
Definition read_error (status : Z) (text : option string) : string :=
  match text with
  | Some t =>
      match error_from t with
      | Some parsed =>
          let detail := error_detail parsed in
          if is_empty (trim detail) then http_error status text else http_error status (Some detail)
      | None => http_error status text
      end
  | None => http_error status text
  end.
Definition is_success (status : Z) : bool := (200 <=? status) && (status <=? 299).

Definition send (c : HttpCall) : MC (Z * option string) := fun log => (log ++ [c], http_send log c).
(** A request with its bearer token, and the answer read from JSON. *)
Definition exchange {A} (self : MailboxClient) (method path : string) (token : option string) (body : RequestBody)
    (from : string -> result string A) : MC A :=
  let* url := slift (url_join (mc_base self) path) in
  let* (status, text) := send (MkHttpCall method url token body) in
  if negb (is_success status) then sfail (read_error status text)
  else let* t := slift (ok_or text "error decoding response body"%string) in slift (from t).

Definition health (self : MailboxClient) : MC unit :=
  let* url := slift (url_join (mc_base self) "/health") in
  let* (status, text) := send (MkHttpCall "GET" url None NoRequestBody) in
  if negb (is_success status) then sfail (http_error status text) else sret tt.
Definition push (self : MailboxClient) (envelope : NxmsEnvelope) (ttl_secs : option Z) : MC PushResponse :=
  exchange self "POST" "/v1/push" (mc_push_token self) (PushRequest envelope ttl_secs) push_from.
Definition pull (self : MailboxClient) (to : string) (max wait_ms : option Z) : MC PullResponse :=
  exchange self "POST" "/v1/pull" (mc_pull_token self) (PullRequest to max wait_ms) pull_from.
Definition ack (self : MailboxClient) (receipt : string) : MC unit :=
  let* ok := exchange self "POST" "/v1/ack" (mc_ack_token self) (AckRequest receipt) ack_from in
  if (ok : bool) then sret tt else sfail "ack failed"%string.
Definition admin_stats (self : MailboxClient) : MC AdminStatsResponse :=
  exchange self "GET" "/v1/admin/stats" (mc_admin_token self) NoRequestBody stats_from.
End client.

(** ** The peer *)

Definition PEER_STATE_FILE_NAME : string := "peer_state.json".
Definition SNAPSHOT_HASH_HEX_LEN : Z := 64.
Definition PULL_MAX : Z := 10.

Record SignReqConfig : Type := MkSignReqConfig {
  sr_vault_dir : string; sr_passphrase : string; sr_peers_path : string; sr_mailbox_url : string;
  sr_push_token : string; sr_pull_token : string; sr_ack_token : string;
  sr_to : string; sr_escrow_id_hex : string; sr_action : EscrowAction; sr_multisig_txset_hex : string;
  sr_snapshot_hash_hex : string; sr_human_hint : option string;
  sr_escrow_admission_artifact : option EscrowAdmissionArtifact;
  sr_ttl_secs : Z; sr_wait_ms : Z; sr_timeout_secs : Z }.

Inductive SignReqStatus : Type := Approved | Rejected | StatusError.
Record SignReqOutcome : Type := MkOutcome {
  so_status : SignReqStatus; so_escrow_id_hex : string; so_signer_id : string; so_request_seq : Z;
  so_approved : bool; so_signed_tx_data_hex : option string; so_tx_hash_list : list string; so_reason : option string }.

Record SeqState : Type := MkSeqState { out_seq : gmap string Z }.

Inductive PeerError : Type :=
| PFile (path : string) | PVault (e : VaultError) | PBoot (e : BootError) | PBook (e : TrustError) | PCrypto (e : CryptoError)
| PPeerId (label : string) | PHex (label : string) | PTxset | PSameId | PArtifactEscrow | PUnknownSigner
| PEscrowId | PBase64 | PStateParse | PWire (e : WireError) | PJson | PMail (msg : string)
| PEscrowMismatch | PUnexpected (kind : string) | PTimeout | PPanic | PFuel
| PNotRegular (label : string) | PMode (label : string) | PNotText (label : string) | PEmpty (label : string).
#[export] Instance peer_io_error : IoError PeerError := PFile.

Class PeerLib : Type := {
  seq_from_slice : string -> option SeqState;
  seq_to_vec : SeqState -> string;
  peer_to_vec : BookPeer -> string;
  peer_body_to_str : EscrowBody -> string;
  peer_body_from_str : string -> option EscrowBody;
  peer_payload_to_vec : NxmsPayload -> string;
  peer_payload_from_slice : string -> option NxmsPayload;
  artifact_from_slice : string -> option EscrowAdmissionArtifact;
  (** [encrypt] and [decrypt] of [crypto.rs]; sealing is randomised *)
  peer_encrypt : nat -> PacketContext -> string -> string -> string -> result CryptoError SealedPacket;
  peer_decrypt : PacketContext -> SealedPacket -> string -> string -> result CryptoError string;
}.

(** The machine and what the process did so far; [w_ticks] counts the readings
    of the clock. *)
Record world : Type := World { w_fs : fs; w_sent : list HttpCall; w_ticks : nat }.
Notation P := (M world PeerError).

Definition on_fs {E A} (f : E -> PeerError) (m : M fs E A) : P A := fun w =>
  let '(g, r) := m (w_fs w) in (World g (w_sent w) (w_ticks w), map_err f r).
Definition on_mail {A} (m : M (list HttpCall) string A) : P A := fun w =>
  let '(l, r) := m (w_sent w) in (World (w_fs w) l (w_ticks w), map_err PMail r).

(** [vault_dir.join(name)] *)
Definition dir_join (dir name : string) : string :=
  match rev (bytes_of dir) with
  | [] => name
  | c :: _ => if byte_of c =? 47 then dir +:+ name else dir +:+ "/" +:+ name
  end.
Definition seq_state_path (vault_dir : string) : string := dir_join vault_dir PEER_STATE_FILE_NAME.

Definition validate_wire_peer_id (value label : string) : result PeerError unit :=
  map_err (fun _ => PPeerId label) (validate_peer_id value).
Definition decode_escrow_id (escrow_id_hex : string) : result PeerError string :=
  let? raw := ok_or (hex_decode escrow_id_hex) PEscrowId in
  let? _ := fail_if (negb (len raw =? 16)) PEscrowId in
  Ok raw.
Definition body_kind (body : EscrowBody) : string :=
  match body with
  | BContractPropose _ => "contract_propose"
  | BContractSig _ => "contract_sig"
  | BTxSignReq _ => "tx_sign_req"
  | BTxSignResp _ => "tx_sign_resp"
  | BErr _ => "err"
  end.

(** *** The sequence numbers *)

Section seqs.
Context `{PeerLib} (io : io_op -> string -> bool) (partial : string -> string) (umask pid : Z).

Definition read_seq_state (state_path : string) : M fs PeerError SeqState :=
  let* there := fs_exists state_path in
  if negb there then sret (MkSeqState ∅) else
  let* f := fs_read io state_path in
  slift (ok_or (seq_from_slice (f_bytes f)) PStateParse).
(** The text of [write_secret_file] of the transport. *)
Definition write_private_file (path data : string) : M fs PeerError unit :=
  smap_err PCrypto (write_secret_file io partial umask pid path data).
Definition write_seq_state (state_path : string) (state : SeqState) : M fs PeerError unit :=
  write_private_file state_path (seq_to_vec state).
Definition next_seq (state : SeqState) (escrow_id_hex : string) : Z :=
  Z.max (sat_add_u64 (default 0 (out_seq state !! escrow_id_hex)) 1) 1.
Definition next_out_seq (state_path escrow_id_hex : string) : M fs PeerError Z :=
  let* state := read_seq_state state_path in
  let next := next_seq state escrow_id_hex in
  let* _ := write_seq_state state_path (MkSeqState (<[escrow_id_hex := next]> (out_seq state))) in
  sret next.
End seqs.

Section peer.
Context `{BootLib} `{PeerLib} `{MailHttp}.
Context (io : io_op -> string -> bool) (partial : string -> string) (umask umask_mode pid : Z).
(** The clock, in milliseconds, by the number of its reading. *)
Context (now : nat -> Z).

Local Notation load_vault := (load_host_vault bl_sodium_init bl_opslimit bl_memlimit bl_pwhash bl_aead_decrypt io bl_b64_decode bl_host_from_slice).

Definition read_secret_text (path label : string) : M fs PeerError string :=
  let* f := fs_read io path in
  let* _ := slift (fail_if (negb (f_regular f)) (PNotRegular label)) in
  let* _ := slift (fail_if (group_or_other (f_mode f)) (PMode label)) in
  let* _ := slift (fail_if (negb (utf8_valid (f_bytes f))) (PNotText label)) in
  let out := trim (f_bytes f) in
  let* _ := slift (fail_if (is_empty out) (PEmpty label)) in
  sret out.

Definition init_vault (generated : result CryptoError Keys) (salt nonce vault_dir passphrase local_id : string) : M fs PeerError Keys :=
  let* _ := slift (validate_wire_peer_id local_id "local_id") in
  smap_err PBoot (generate_local_host_vault_with_passphrase io partial umask pid generated salt nonce local_id vault_dir passphrase).

Definition export_identity (vault_dir passphrase host : string) (port : Z) (out : string) : M fs PeerError BookPeer :=
  let* vault := smap_err PVault (load_vault vault_dir passphrase) in
  let* _ := slift (validate_wire_peer_id (hv_local_id vault) "vault local_id") in
  let peer := MkBookPeer (hv_local_id vault) (trim host) port (ky_kem_pk_b64 (hv_keys vault)) (ky_sig_pk_b64 (hv_keys vault)) in
  let* _ := fs_write io partial umask_mode out (peer_to_vec peer) in
  sret peer.

(** *** Opening an answer *)

Definition envelope_context (env : NxmsEnvelope) (escrow_id_raw : string) : PacketContext :=
  MkContext (ev_from env) (ev_to env) (msg_type_key (ev_msg_type env)) escrow_id_raw (ev_seq env).
Definition envelope_packet (env : NxmsEnvelope) : SealedPacket :=
  MkSealed (ev_kem_ct_b64 env) (ev_nonce_b64 env) (ev_ciphertext_b64 env) (ev_tag_b64 env) (ev_sig_b64 env).
Definition open_signer_body (keys : Keys) (signer : BookPeer) (env : NxmsEnvelope) : result PeerError EscrowBody :=
  let? _ := map_err PWire (validate_envelope env) in
  let? escrow_id_raw := decode_escrow_id (ev_escrow_id_hex env) in
  let? self_kem_sk := map_err PCrypto (kem_sk bl_b64_decode keys) in
  let? signer_sig_pk := ok_or (bl_b64_decode (bp_sig_pk_b64 signer)) PBase64 in
  let? plain := map_err PCrypto (peer_decrypt (envelope_context env escrow_id_raw) (envelope_packet env) self_kem_sk signer_sig_pk) in
  let? payload := ok_or (peer_payload_from_slice plain) PJson in
  let? _ := map_err PWire (validate_matches_envelope payload env) in
  ok_or (peer_body_from_str (pl_data payload)) PJson.

(** *** The round trip *)

(** Where a round trip waits: for whom, from whom, about what. *)
Record waiting : Type := MkWaiting {
  wt_client : MailboxClient; wt_keys : Keys; wt_signer : BookPeer; wt_local_id : string; wt_to : string;
  wt_escrow : string; wt_seq : Z; wt_wait_ms : Z }.

Definition foreign (x : waiting) (env : NxmsEnvelope) : bool :=
  negb (ev_to env =? wt_local_id x)%string || negb (ev_from env =? wt_to x)%string
  || negb (ev_escrow_id_hex env =? wt_escrow x)%string
  || negb (match ev_msg_type env with TxSignResp | MsgError => true | _ => false end).
(** The outcome a body stands for. *)
Definition outcome_of (x : waiting) (body : EscrowBody) : result PeerError SignReqOutcome :=
  match body with
  | BTxSignResp resp =>
      let? _ := fail_if (negb (tp_escrow_id_hex resp =? wt_escrow x)%string) PEscrowMismatch in
      Ok (MkOutcome (if tp_approved resp then Approved else Rejected) (wt_escrow x) (wt_to x) (wt_seq x)
            (tp_approved resp) (tp_signed_tx_data_hex resp) (tp_tx_hash_list resp) (tp_reason resp))
  | BErr err => Ok (MkOutcome StatusError (wt_escrow x) (wt_to x) (wt_seq x) false None []
                      (Some (ee_code err +:+ ": " +:+ ee_reason err)))
  | other => Err (PUnexpected (body_kind other))
  end.

Fixpoint handle_pulled (x : waiting) (msgs : list PulledMessage) : P (option SignReqOutcome) :=
  match msgs with
  | [] => sret None
  | msg :: rest =>
      if foreign x (pm_envelope msg) then handle_pulled x rest else
      let* body := slift (open_signer_body (wt_keys x) (wt_signer x) (pm_envelope msg)) in
      let* outcome := slift (outcome_of x body) in
      let* _ := on_mail (ack (wt_client x) (pm_receipt msg)) in
      sret (Some outcome)
  end.
Definition read_clock : P Z := fun w => (World (w_fs w) (w_sent w) (S (w_ticks w)), Ok (now (w_ticks w))).

Fixpoint poll (fuel : nat) (x : waiting) (deadline : Z) : P SignReqOutcome :=
  match fuel with
  | O => sfail PFuel
  | S n =>
      let* pulled := on_mail (pull (wt_client x) (wt_local_id x) (Some PULL_MAX) (Some (wt_wait_ms x))) in
      let* got := handle_pulled x (pu_messages pulled) in
      match got with
      | Some outcome => sret outcome
      | None =>
          let* t := read_clock in
          if deadline <=? t then sfail PTimeout else poll n x deadline
      end
  end.
(** [Instant::now() + Duration::from_secs(timeout)], which panics when the
    seconds do not fit. *)
Definition deadline_after (timeout_secs : Z) : P Z :=
  let* t := read_clock in
  if I64_MAX <? t / 1000 + timeout_secs then sfail PPanic else sret (t + timeout_secs * 1000).

Definition request_of (cfg : SignReqConfig) (escrow_id_hex txset snapshot : string) : EscrowBody :=
  BTxSignReq (MkTxSignReq escrow_id_hex (sr_action cfg) txset snapshot (sr_escrow_admission_artifact cfg) (sr_human_hint cfg)).
Definition lower (s : string) : string := to_ascii_lowercase (trim s).

(** The checks of the request, and its fields in canonical form. *)
Definition check_request (cfg : SignReqConfig) (local_id : string) : result PeerError (string * string * string) :=
  let? _ := validate_wire_peer_id local_id "vault local_id" in
  let? _ := validate_wire_peer_id (sr_to cfg) "to" in
  let escrow_id_hex := lower (sr_escrow_id_hex cfg) in
  let? _ := map_err (fun _ => PHex "escrow_id_hex") (validate_hex escrow_id_hex NXMS_ESCROW_ID_HEX_LEN) in
  let snapshot_hash_hex := lower (sr_snapshot_hash_hex cfg) in
  let? _ := map_err (fun _ => PHex "snapshot_hash_hex") (validate_hex snapshot_hash_hex SNAPSHOT_HASH_HEX_LEN) in
  let txset := lower (sr_multisig_txset_hex cfg) in
  let? _ := fail_if (is_empty txset || negb (len txset mod 2 =? 0) || negb (sall is_ascii_hexdigit txset)) PTxset in
  let? _ := fail_if (local_id =? sr_to cfg)%string PSameId in
  let? _ := fail_if (match sr_escrow_admission_artifact cfg with
                     | Some a => negb (lower (aa_escrow_id_hex a) =? escrow_id_hex)%string | None => false end) PArtifactEscrow in
  Ok (escrow_id_hex, snapshot_hash_hex, txset).

Definition sealed_request (cfg : SignReqConfig) (vault : HostVault) (signer : BookPeer)
    (escrow_id_hex snapshot_hash_hex txset escrow_id_raw : string) (seq : Z) : P NxmsEnvelope :=
  let local_id := hv_local_id vault in
  let payload := MkPayload ESCROW_APP_PROTO_V1 TxSignReq escrow_id_hex local_id (sr_to cfg) seq
    (peer_body_to_str (request_of cfg escrow_id_hex txset snapshot_hash_hex)) in
  let plain := peer_payload_to_vec payload in
  let* signer_kem_pk := slift (ok_or (bl_b64_decode (bp_kem_pk_b64 signer)) PBase64) in
  let* self_sig_sk := slift (map_err PCrypto (sig_sk bl_b64_decode (hv_keys vault))) in
  let* n := sget w_ticks in
  let* sealed := slift (map_err PCrypto (peer_encrypt n
    (MkContext local_id (sr_to cfg) (msg_type_key TxSignReq) escrow_id_raw seq) signer_kem_pk self_sig_sk plain)) in
  let env := MkEnvelope NXMS_PROTO_V1 NXMS_WIRE_KEM_ID_V1 NXMS_WIRE_SIG_ID_V1 TxSignReq escrow_id_hex local_id (sr_to cfg) seq
    (sp_kem_ct_b64 sealed) (sp_nonce_b64 sealed) (sp_ciphertext_b64 sealed) (sp_tag_b64 sealed) (sp_sig_b64 sealed) in
  let* _ := slift (map_err PWire (validate_envelope env)) in
  sret env.

Definition mailbox_of (cfg : SignReqConfig) : result PeerError MailboxClient :=
  let? b := map_err PMail (builder (sr_mailbox_url cfg)) in
  map_err PMail (build (with_ack_token (with_pull_token (with_push_token b (sr_push_token cfg)) (sr_pull_token cfg)) (sr_ack_token cfg))).

(** Up to the wait: the request is on its way. *)
Definition send_req (cfg : SignReqConfig) : P waiting :=
  let* vault := on_fs PVault (load_vault (sr_vault_dir cfg) (sr_passphrase cfg)) in
  let local_id := hv_local_id vault in
  let* (escrow_id_hex, snapshot_hash_hex, txset) := slift (check_request cfg local_id) in
  let* peers := on_fs PBook (peer_book_load io bl_peers_from_slice (sr_peers_path cfg)) in
  let* signer := slift (ok_or (peer_book_get peers (sr_to cfg)) PUnknownSigner) in
  let* escrow_id_raw := slift (decode_escrow_id escrow_id_hex) in
  let* seq := on_fs (fun e => e) (next_out_seq io partial umask pid (seq_state_path (sr_vault_dir cfg)) escrow_id_hex) in
  let* env := sealed_request cfg vault signer escrow_id_hex snapshot_hash_hex txset escrow_id_raw seq in
  let* client := slift (mailbox_of cfg) in
  let* _ := on_mail (push client env (Some (sr_ttl_secs cfg))) in
  sret (MkWaiting client (hv_keys vault) signer local_id (sr_to cfg) escrow_id_hex seq (sr_wait_ms cfg)).
Definition sign_req (fuel : nat) (cfg : SignReqConfig) : P SignReqOutcome :=
  let* x := send_req cfg in
  let* deadline := deadline_after (sr_timeout_secs cfg) in
  poll fuel x deadline.

(** *** The command line *)

(** [Command::Init], [Command::Identity]; the printed lines are left out. *)
Definition init_command (generated : result CryptoError Keys) (salt nonce vault_dir passphrase_file local_id : string) : M fs PeerError Keys :=
  let* passphrase := read_secret_text passphrase_file "passphrase_file" in
  init_vault generated salt nonce vault_dir passphrase local_id.
Definition identity_command (vault_dir passphrase_file host : string) (port : Z) (out : string) : M fs PeerError BookPeer :=
  let* passphrase := read_secret_text passphrase_file "passphrase_file" in
  export_identity vault_dir passphrase host port out.
(** [Command::SignReq]; paths as given. *)
Record SignReqArgs : Type := MkSignReqArgs {
  ra_vault_dir : string; ra_passphrase_file : string; ra_mailbox : string; ra_push_token_file : string;
  ra_pull_token_file : string; ra_ack_token_file : string; ra_to : string; ra_escrow_id : string; ra_action : EscrowAction;
  ra_txset_file : string; ra_snapshot_hash : string; ra_wait_ms : Z; ra_ttl_secs : Z; ra_timeout_secs : Z;
  ra_peers_file : option string; ra_human_hint : option string; ra_admission_file : option string }.
Definition config_of_args (args : SignReqArgs) : M fs PeerError SignReqConfig :=
  let* passphrase := read_secret_text (ra_passphrase_file args) "passphrase_file" in
  let* push_token := read_secret_text (ra_push_token_file args) "push_token_file" in
  let* pull_token := read_secret_text (ra_pull_token_file args) "pull_token_file" in
  let* ack_token := read_secret_text (ra_ack_token_file args) "ack_token_file" in
  let peers_path := default (dir_join (ra_vault_dir args) "peers.json") (ra_peers_file args) in
  let* txset := fs_read io (ra_txset_file args) in
  let* _ := slift (fail_if (negb (utf8_valid (f_bytes txset))) (PFile (ra_txset_file args))) in
  let* artifact := match ra_admission_file args with
    | Some path => let* f := fs_read io path in let* a := slift (ok_or (artifact_from_slice (f_bytes f)) PJson) in sret (Some a)
    | None => sret None
    end in
  sret (MkSignReqConfig (ra_vault_dir args) passphrase peers_path (ra_mailbox args) push_token pull_token ack_token
    (ra_to args) (ra_escrow_id args) (ra_action args) (f_bytes txset) (ra_snapshot_hash args) (ra_human_hint args) artifact
    (ra_ttl_secs args) (ra_wait_ms args) (ra_timeout_secs args)).
Definition sign_req_command (fuel : nat) (args : SignReqArgs) : P SignReqOutcome :=
  let* cfg := on_fs (fun e => e) (config_of_args args) in sign_req fuel cfg.
End peer.

(** ** The sequence numbers only grow *)

(** Where and when an allocation runs: every one may fail in its own way. *)
Record machine : Type := MkMachine { mi_io : io_op -> string -> bool; mi_partial : string -> string; mi_umask : Z; mi_pid : Z }.

Section seq_props.
Context `{PeerLib} (path : string).
Hypothesis seq_json : forall st, seq_from_slice (seq_to_vec st) = Some st.

(** The state the file stands for. *)
Definition stored (f : fs) (st : SeqState) : Prop :=
  match f !! path with None => st = MkSeqState ∅ | Some x => f_bytes x = seq_to_vec st end.
Definition bump (e : string) (st : SeqState) : SeqState := MkSeqState (<[e := next_seq st e]> (out_seq st)).

Definition allocate (m : machine) (e : string) : M fs PeerError Z :=
  next_out_seq (mi_io m) (mi_partial m) (mi_umask m) (mi_pid m) path e.
(** The numbers given out by attempts for one escrow after another. *)
Fixpoint allocations (l : list (machine * string)) (f : fs) : list (string * Z) :=
  match l with
  | [] => []
  | (m, e) :: l' =>
      let '(f', r) := allocate m e f in
      match r with Ok n => (e, n) :: allocations l' f' | Err _ => allocations l' f' end
  end.

Lemma allocate_run m e f f' r st :
  secret_temp_path (mi_pid m) path <> path -> stored f st -> allocate m e f = (f', r) ->
  (stored f' st \/ stored f' (bump e st)) /\ forall n, r = Ok n -> n = next_seq st e /\ stored f' (bump e st).
Proof.
  intros Htmp Hst. unfold allocate, next_out_seq, read_seq_state. rewrite !sbind_run. unfold fs_exists at 1, sget at 1.
  assert (forall f' r, sbind (write_seq_state (mi_io m) (mi_partial m) (mi_umask m) (mi_pid m) path (bump e st))
    (fun _ => sret (next_seq st e)) f = (f', r) ->
    (stored f' st \/ stored f' (bump e st)) /\ forall n, r = Ok n -> n = next_seq st e /\ stored f' (bump e st)) as Hw.
  { clear f' r. intros f' r. rewrite sbind_run. unfold write_seq_state, write_private_file, smap_err.
    destruct (write_secret_file _ _ _ _ path _ f) as [g rw] eqn:Ew.
    destruct (write_secret_run _ _ _ _ _ _ _ _ _ Htmp Ew) as [[Wp _ _] Hok].
    assert (stored g st \/ stored g (bump e st)) as Hg.
    { destruct Wp as [Wp|(mode & Wp & _)]; [left|right]; unfold stored; rewrite Wp; [exact Hst|done]. }
    destruct rw as [[]|err]; simpl; intros [= <- <-]; [|split; [done|intros n [=]]].
    split; [done|]. intros n [= <-]. split; [done|]. unfold stored. by rewrite Hok. }
  unfold stored in Hst. destruct (f !! path) as [x|] eqn:Ef; simpl.
  - rewrite sbind_run. unfold fs_read, must, sbind at 1 2, sget, slift at 1. rewrite Ef. unfold fail_if.
    destruct (mi_io m IoOpen path); simpl.
    + rewrite Hst, seq_json. simpl. apply Hw.
    + intros [= <- <-]. split; [left; unfold stored; by rewrite Ef|intros n [=]].
  - subst st. apply Hw.
Qed.

Definition cur (st : SeqState) (e : string) : Z := default 0 (out_seq st !! e).
Lemma next_seq_above st e : cur st e < next_seq st e < U64_MAX \/ next_seq st e = U64_MAX.
Proof. unfold next_seq, cur, sat_add_u64, U64_MAX. generalize (default 0 (out_seq st !! e)) as z. intros z. lia. Qed.
Lemma cur_bump_eq st e : cur (bump e st) e = next_seq st e.
Proof. unfold cur, bump. simpl. by rewrite lookup_insert_eq. Qed.
Lemma cur_bump_ne st e e' : e <> e' -> cur (bump e' st) e = cur st e.
Proof. intros Hne. unfold cur, bump. simpl. by rewrite lookup_insert_ne. Qed.
Lemma cur_bump st e e' : cur st e <= cur (bump e' st) e \/ cur (bump e' st) e = U64_MAX.
Proof.
  destruct (decide (e = e')) as [->|Hne]; [|left; rewrite cur_bump_ne by done; lia].
  rewrite cur_bump_eq. destruct (next_seq_above st e'); [left; lia|by right].
Qed.

(** [m] comes after [n], or the counter is full. *)
Definition after (n m : Z) : Prop := n < m < U64_MAX \/ m = U64_MAX.
Definition numbers (e : string) (l : list (string * Z)) : list Z := map snd (List.filter (fun p => p.1 =? e)%string l).

Lemma allocations_above l f st e :
  Forall (fun a => secret_temp_path (mi_pid a.1) path <> path) l -> stored f st ->
  Forall (after (cur st e)) (numbers e (allocations l f)) /\ StronglySorted after (numbers e (allocations l f)).
Proof.
  intros Hl. revert f st. induction Hl as [|[m e'] l Hm Hl IH]; intros f st Hst; [by split; constructor|].
  simpl. destruct (allocate m e' f) as [f' r] eqn:Ea. destruct (allocate_run m e' f f' r st Hm Hst Ea) as [Hs Hok].
  assert (forall k, after (cur (bump e' st) e) k -> after (cur st e) k) as Hmono
    by (intros k; unfold after; pose proof (cur_bump st e e'); lia).
  destruct r as [n|err].
  - destruct (Hok n eq_refl) as [-> Hs']. destruct (IH f' (bump e' st) Hs') as [IHa IHs].
    unfold numbers. simpl. destruct (String.eqb_spec e' e) as [->|Hne]; simpl.
    + rewrite cur_bump_eq in IHa, Hmono. split; [constructor; [apply next_seq_above|]|by constructor].
      eapply Forall_impl; [exact IHa|]. intros k. apply Hmono.
    + split; [|exact IHs]. eapply Forall_impl; [exact IHa|]. intros k. apply Hmono.
  - destruct Hs as [Hs|Hs]; destruct (IH f' _ Hs) as [IHa IHs]; (split; [|exact IHs]); [exact IHa|].
    eapply Forall_impl; [exact IHa|]. intros k. apply Hmono.
Qed.
End seq_props.

(** Whatever fails in whatever attempt, at any step of reading and
    replacing the state file, the numbers the peer gives out for an escrow
    increase strictly until the counter is full: none is given out twice, and
    the file is never left in a state from which an old number comes again. *)
Theorem seqs_never_reused `{PeerLib} path (seq_json : forall st, seq_from_slice (seq_to_vec st) = Some st) l e :
  Forall (fun a => secret_temp_path (mi_pid a.1) path <> path) l ->
  StronglySorted after (numbers e (allocations path l ∅)).
Proof.
  intros Hl. apply (allocations_above path seq_json l ∅ (MkSeqState ∅) e Hl). unfold stored. by rewrite lookup_empty.
Qed.

(** ** The round trip *)

Section round_trip.
Context `{BootLib} `{PeerLib} `{MailHttp}.
Context (io : io_op -> string -> bool) (partial : string -> string) (umask umask_mode pid : Z) (now : nat -> Z).
Local Notation sign_req := (sign_req io partial umask pid now).
Local Notation poll := (poll now).

(** Sending a request adds at most that one to the log. *)
Lemma exchange_sent {A} c method path token body (from : string -> result string A) log :
  exists k, (exchange c method path token body from log).1 = log ++ k /\ (length k <= 1)%nat.
Proof.
  unfold exchange. rewrite sbind_run. destruct (url_join _ _) as [url|e]; simpl; [|exists []; rewrite app_nil_r; simpl; split; [done|lia]].
  rewrite sbind_run. unfold send. destruct (http_send _ _) as [[status text]|e]; simpl; [|eexists; split; [done|simpl; lia]].
  eexists [_]. split; [|simpl; lia]. destruct (negb _); [done|]. rewrite sbind_run.
  destruct (ok_or text _) as [t|e]; simpl; [|done]. by destruct (from t).
Qed.

(** An accepted answer was given to the last thing asked. *)
Lemma exchange_ok {A} c method path token body (from : string -> result string A) log log' a :
  exchange c method path token body from log = (log', Ok a) ->
  exists call status text, hc_body call = body /\ hc_bearer call = token /\
    http_send log call = Ok (status, Some text) /\ from text = Ok a /\ log' = log ++ [call].
Proof.
  unfold exchange. rewrite sbind_run. destruct (url_join _ _) as [url|e]; simpl; [|done].
  rewrite sbind_run. unfold send. destruct (http_send _ _) as [[status text]|e] eqn:Es; simpl; [|done].
  destruct (negb _); [done|]. rewrite sbind_run. destruct text as [t|]; simpl; [|done]. unfold slift.
  destruct (from t) as [r|e] eqn:Ep; simpl; [|done]. intros [= <- <-].
  eexists _, _, _. split_and!; [| |exact Es|done|done]; done.
Qed.
Lemma on_mail_ok {A} (m : M (list HttpCall) string A) w w' a : on_mail m w = (w', Ok a) ->
  exists log, m (w_sent w) = (log, Ok a) /\ w' = World (w_fs w) log (w_ticks w).
Proof. unfold on_mail. destruct (m (w_sent w)) as [log [b|e]]; simpl; [|done]. intros [= <- <-]. by exists log. Qed.

Lemma pull_answer c to max wait w w' resp :
  on_mail (pull c to max wait) w = (w', Ok resp) ->
  exists call status text, hc_body call = PullRequest to max wait /\ hc_bearer call = mc_pull_token c /\
    http_send (w_sent w) call = Ok (status, Some text) /\ pull_from text = Ok resp /\
    w' = World (w_fs w) (w_sent w ++ [call]) (w_ticks w).
Proof. intros (log & (call & status & text & ? & ? & ? & ? & ->)%exchange_ok & ->)%on_mail_ok. eauto 10. Qed.

Lemma push_sent c env ttl w w' resp :
  on_mail (push c env ttl) w = (w', Ok resp) ->
  exists call, hc_body call = PushRequest env ttl /\ hc_bearer call = mc_push_token c /\
    w' = World (w_fs w) (w_sent w ++ [call]) (w_ticks w).
Proof. intros (log & (call & status & text & ? & ? & ? & ? & ->)%exchange_ok & ->)%on_mail_ok. eauto 10. Qed.

Lemma ack_sent c receipt w w' :
  on_mail (ack c receipt) w = (w', Ok tt) ->
  exists call, hc_body call = AckRequest receipt /\ hc_bearer call = mc_ack_token c /\
    w' = World (w_fs w) (w_sent w ++ [call]) (w_ticks w).
Proof.
  intros (log & Ha & ->)%on_mail_ok. unfold ack in Ha. apply sbind_ok in Ha as (log1 & ok & He & Ha).
  apply exchange_ok in He as (call & status & text & ? & ? & ? & ? & ->). destruct ok; [|done]. injection Ha as <-. eauto 10.
Qed.

(** The answer an outcome stands for. *)
Record answered (x : waiting) (msg : PulledMessage) (o : SignReqOutcome) : Prop := Answered {
  an_foreign : foreign x (pm_envelope msg) = false;
  an_opened : exists body, open_signer_body (wt_keys x) (wt_signer x) (pm_envelope msg) = Ok body /\ outcome_of x body = Ok o;
}.

Lemma handle_pulled_ok x msgs w w' o :
  handle_pulled x msgs w = (w', Ok (Some o)) ->
  exists msg, msg ∈ msgs /\ answered x msg o /\ exists call, hc_body call = AckRequest (pm_receipt msg) /\
    w' = World (w_fs w) (w_sent w ++ [call]) (w_ticks w).
Proof.
  induction msgs as [|msg rest IH]; [done|]. simpl. destruct (foreign x (pm_envelope msg)) eqn:Ef.
  { intros (m & Hm & Hr)%IH. exists m. split; [set_solver|done]. }
  intros Hh. apply sbind_ok in Hh as (w1 & body & [= <- Hbody] & Hh).
  apply sbind_ok in Hh as (w2 & out & [= <- Hout] & Hh). apply sbind_ok in Hh as (w3 & [] & Hack & [= <- <-]).
  exists msg. split; [set_solver|]. split; [split; [done|by exists body]|].
  apply ack_sent in Hack as (call & Hb & _ & ->). by exists call.
Qed.

Lemma handle_pulled_none x msgs w w' : handle_pulled x msgs w = (w', Ok None) -> w' = w.
Proof.
  induction msgs as [|msg rest IH]; simpl; [by intros [= ->]|]. destruct (foreign x (pm_envelope msg)); [done|]. intros Hh.
  apply sbind_ok in Hh as (w1 & body & _ & Hh). apply sbind_ok in Hh as (w2 & out & _ & Hh). by apply sbind_ok in Hh as (w3 & [] & _ & Hh).
Qed.

Lemma poll_ok fuel x deadline w w' o :
  poll fuel x deadline w = (w', Ok o) ->
  exists polls pull_call status text resp msg ack_call,
    http_send (w_sent w ++ polls) pull_call = Ok (status, Some text) /\ pull_from text = Ok resp /\
    hc_body pull_call = PullRequest (wt_local_id x) (Some PULL_MAX) (Some (wt_wait_ms x)) /\
    msg ∈ pu_messages resp /\ answered x msg o /\
    hc_body ack_call = AckRequest (pm_receipt msg) /\ w_sent w' = w_sent w ++ polls ++ [pull_call; ack_call].
Proof.
  revert w. induction fuel as [|n IH]; intros w; [done|]. simpl. intros Hp.
  apply sbind_ok in Hp as (w1 & resp & Hpull & Hp). apply pull_answer in Hpull as (call & status & text & Hb & _ & Hs & Hr & ->).
  apply sbind_ok in Hp as (w2 & got & Hh & Hp). destruct got as [out|].
  - injection Hp as <- <-. apply handle_pulled_ok in Hh as (msg & Hm & Ha & ac & Hac & ->).
    exists [], call, status, text, resp, msg, ac. simpl. rewrite app_nil_r, <- app_assoc. done.
  - apply handle_pulled_none in Hh as ->. apply sbind_ok in Hp as (w3 & t & Ht & Hp). injection Ht as <- <-. destruct (deadline <=? _); [done|].
    apply IH in Hp as (polls & pc & st & tx & rs & msg & ac & Hp). simpl in Hp. rewrite <- !app_assoc in Hp. exists (call :: polls), pc, st, tx, rs, msg, ac.
    exact Hp.
Qed.

(** What an answer was opened with. *)
Lemma open_signer_inv keys signer env body :
  open_signer_body keys signer env = Ok body ->
  exists raw sk pk plain payload, hex_decode (ev_escrow_id_hex env) = Some raw /\
    kem_sk bl_b64_decode keys = Ok sk /\ bl_b64_decode (bp_sig_pk_b64 signer) = Some pk /\
    peer_decrypt (envelope_context env raw) (envelope_packet env) sk pk = Ok plain /\
    peer_payload_from_slice plain = Some payload /\ validate_matches_envelope payload env = Ok tt /\
    peer_body_from_str (pl_data payload) = Some body.
Proof.
  unfold open_signer_body, decode_escrow_id. intros Ho. rok.
  repeat match goal with u : unit |- _ => destruct u end. eauto 15.
Qed.

Local Notation load_vault := (load_host_vault bl_sodium_init bl_opslimit bl_memlimit bl_pwhash bl_aead_decrypt io bl_b64_decode bl_host_from_slice).
Local Notation send_req := (send_req io partial umask pid).

(** Reading the vault leaves the files alone. *)
Lemma load_vault_reads dir pass f : (load_vault dir pass f).1 = f.
Proof.
  enough (preserves (fun g => g = f) (load_vault dir pass)) as Hp by (by apply Hp). unfold load_host_vault.
  repeat first [apply preserves_bind; [|intros ?] | apply preserves_lift | apply preserves_ret].
  intros g ->. unfold crypto_step, read_secret_file. rewrite sbind_run. destruct (fs_read_run (E := CryptoError) io (vault_bin_path dir) f) as [r ->].
  destruct r as [x|e]; simpl; [|done]. rewrite sbind_run. by destruct (slift _ f) as [? [[]|e]] eqn:E; injection E as <- _.
Qed.

(** What a peer that waits knows and did: its vault and the signer's entry of its
    book, both read from the files as they were, and the request it pushed. *)
Record prepared_wait (cfg : SignReqConfig) (w w1 : world) (vault : HostVault) (book : PeerBook) (request : NxmsEnvelope) (push_call : HttpCall)
    (x : waiting) : Prop := PreparedWait {
  pw_vault : (load_vault (sr_vault_dir cfg) (sr_passphrase cfg) (w_fs w)).2 = Ok vault;
  pw_book : (peer_book_load io bl_peers_from_slice (sr_peers_path cfg) (w_fs w)).2 = Ok book;
  pw_signer : peer_book_get book (sr_to cfg) = Some (wt_signer x);
  pw_keys : wt_keys x = hv_keys vault;
  pw_id : wt_local_id x = hv_local_id vault;
  pw_to : wt_to x = sr_to cfg;
  pw_escrow : wt_escrow x = lower (sr_escrow_id_hex cfg);
  pw_wait : wt_wait_ms x = sr_wait_ms cfg;
  pw_request : ev_msg_type request = TxSignReq /\ ev_escrow_id_hex request = lower (sr_escrow_id_hex cfg) /\
    ev_from request = hv_local_id vault /\ ev_to request = sr_to cfg /\ ev_seq request = wt_seq x;
  pw_pushed : hc_body push_call = PushRequest request (Some (sr_ttl_secs cfg)) /\ w_sent w1 = w_sent w ++ [push_call];
}.

Lemma on_fs_ok {E A} (f : E -> PeerError) (m : M fs E A) w w' a :
  on_fs f m w = (w', Ok a) -> (m (w_fs w)).2 = Ok a /\ w_sent w' = w_sent w /\ w_fs w' = (m (w_fs w)).1.
Proof. unfold on_fs. destruct (m (w_fs w)) as [g [b|e]]; simpl; [|done]. by intros [= <- <-]. Qed.

Lemma check_request_ok cfg id e h t : check_request cfg id = Ok (e, h, t) -> e = lower (sr_escrow_id_hex cfg).
Proof. unfold check_request. intros Hc. rok. done. Qed.

Lemma sealed_request_ok cfg vault signer e h t raw seq w w' env : sealed_request cfg vault signer e h t raw seq w = (w', Ok env) ->
  w_sent w' = w_sent w /\ ev_msg_type env = TxSignReq /\ ev_escrow_id_hex env = e /\ ev_from env = hv_local_id vault /\
  ev_to env = sr_to cfg /\ ev_seq env = seq.
Proof.
  unfold sealed_request. cbv zeta. intros Hs. apply sbind_ok in Hs as (w1 & pk & [= <- _] & Hs). apply sbind_ok in Hs as (w2 & sk & [= <- _] & Hs).
  apply sbind_ok in Hs as (w3 & n & [= <- _] & Hs). apply sbind_ok in Hs as (w4 & sealed & [= <- _] & Hs).
  apply sbind_ok in Hs as (w5 & [] & [= <- _] & [= <- <-]). done.
Qed.

Lemma send_req_ok cfg w w1 x : send_req cfg w = (w1, Ok x) ->
  exists vault book request push_call, prepared_wait cfg w w1 vault book request push_call x.
Proof.
  unfold PeerTool.send_req. intros Hs. apply sbind_ok in Hs as (wa & vault & (Hv & Sa & Fa)%on_fs_ok & Hs).
  rewrite load_vault_reads in Fa.
  apply sbind_ok in Hs as (wb & [[e h] t] & [= <- He%check_request_ok] & Hs).
  apply sbind_ok in Hs as (wc & book & (Hb & Sc & _)%on_fs_ok & Hs). rewrite Fa in Hb.
  apply sbind_ok in Hs as (wd & signer & [= <- Hsig%ok_or_ok] & Hs).
  apply sbind_ok in Hs as (we & raw & [= <- _] & Hs). apply sbind_ok in Hs as (wf & seq & (_ & Sf & _)%on_fs_ok & Hs).
  apply sbind_ok in Hs as (wg & env & (Sg & Henv)%sealed_request_ok & Hs). apply sbind_ok in Hs as (wh & client & [= <- _] & Hs).
  apply sbind_ok in Hs as (wi & resp & (call & Hcall & _ & ->)%push_sent & [= <- <-]). subst e.
  exists vault, book, env, call. split; simpl; try done. split; [done|]. congruence.
Qed.

Lemma deadline_sent n w w' d : deadline_after now n w = (w', Ok d) -> w_sent w' = w_sent w.
Proof. unfold deadline_after. intros Hd. apply sbind_ok in Hd as (w1 & t & [= <- _] & Hd). destruct (_ <? _); [done|]. by injection Hd as <- _. Qed.

(** An outcome and the body of the answer it reports: every field of the outcome
    that the body speaks about. *)
Definition reports (cfg : SignReqConfig) (body : EscrowBody) (o : SignReqOutcome) : Prop :=
  match body with
  | BTxSignResp r => tp_escrow_id_hex r = lower (sr_escrow_id_hex cfg) /\
      so_status o = (if tp_approved r then Approved else Rejected) /\ so_approved o = tp_approved r /\
      so_signed_tx_data_hex o = tp_signed_tx_data_hex r /\ so_tx_hash_list o = tp_tx_hash_list r /\ so_reason o = tp_reason r
  | BErr r => so_status o = StatusError /\ so_approved o = false /\ so_signed_tx_data_hex o = None /\ so_tx_hash_list o = [] /\
      so_reason o = Some (ee_code r +:+ ": " +:+ ee_reason r)
  | _ => False
  end.

Lemma outcome_of_reports cfg x body o : wt_escrow x = lower (sr_escrow_id_hex cfg) -> outcome_of x body = Ok o ->
  reports cfg body o /\ so_signer_id o = wt_to x /\ so_escrow_id_hex o = wt_escrow x /\ so_request_seq o = wt_seq x.
Proof.
  intros Hescrow Hout. unfold outcome_of in Hout. destruct body as [?|?|?|r|r]; try done.
  - apply rbind_ok in Hout as (u & Hu & [= <-]). rewrite fail_if_ok, negb_false_iff, String.eqb_eq, Hescrow in Hu. done.
  - injection Hout as <-. done.
Qed.

(** C40. An outcome the peer reports comes from the signer it asked. The peer read
    its vault and its peer book from its own files, pushed a tx_sign_req for the
    escrow to this signer, and then polled its inbox; an envelope that names this
    signer, this peer and this escrow was delivered by the last poll, its packet
    opened with the peer's own key and the Falcon key the book has for the signer,
    in the context the envelope states, and the payload repeats that context. The
    outcome says exactly what the body says, the reason of an error included, under
    the sequence number of the pushed request; the message was acknowledged, by the
    last request the peer sent. The sequence number is the request's own: nothing
    in the answer is compared with it ([stale_answer_taken]). *)
Theorem outcome_from_signer fuel cfg w w' o :
  sign_req fuel cfg w = (w', Ok o) ->
  exists vault book signer request push_call polls pull_call status text resp receipt env ack_call,
    (load_vault (sr_vault_dir cfg) (sr_passphrase cfg) (w_fs w)).2 = Ok vault /\
    (peer_book_load io bl_peers_from_slice (sr_peers_path cfg) (w_fs w)).2 = Ok book /\
    peer_book_get book (sr_to cfg) = Some signer /\
    hc_body push_call = PushRequest request (Some (sr_ttl_secs cfg)) /\ ev_msg_type request = TxSignReq /\
    ev_escrow_id_hex request = lower (sr_escrow_id_hex cfg) /\ ev_from request = hv_local_id vault /\ ev_to request = sr_to cfg /\
    hc_body pull_call = PullRequest (hv_local_id vault) (Some PULL_MAX) (Some (sr_wait_ms cfg)) /\
    http_send (w_sent w ++ push_call :: polls) pull_call = Ok (status, Some text) /\
    pull_from text = Ok resp /\ MkPulled receipt env ∈ pu_messages resp /\
    ev_from env = sr_to cfg /\ ev_to env = hv_local_id vault /\ ev_escrow_id_hex env = lower (sr_escrow_id_hex cfg) /\
    (exists raw sk pk plain payload body,
      hex_decode (ev_escrow_id_hex env) = Some raw /\
      kem_sk bl_b64_decode (hv_keys vault) = Ok sk /\ bl_b64_decode (bp_sig_pk_b64 signer) = Some pk /\
      peer_decrypt (envelope_context env raw) (envelope_packet env) sk pk = Ok plain /\
      peer_payload_from_slice plain = Some payload /\ validate_matches_envelope payload env = Ok tt /\
      peer_body_from_str (pl_data payload) = Some body /\ reports cfg body o) /\
    so_signer_id o = sr_to cfg /\ so_escrow_id_hex o = lower (sr_escrow_id_hex cfg) /\ so_request_seq o = ev_seq request /\
    hc_body ack_call = AckRequest receipt /\ w_sent w' = w_sent w ++ push_call :: polls ++ [pull_call; ack_call].
Proof.
  unfold PeerTool.sign_req. intros Hs. apply sbind_ok in Hs as (w1 & x & Hx & Hs).
  apply send_req_ok in Hx as (vault & book & request & push_call & [Hvault Hbook Hsigner Hkeys Hid Hto Hescrow Hwait (R1 & R2 & R3 & R4 & R5) [Hpush Hsent1]]).
  apply sbind_ok in Hs as (w2 & deadline & Hd & Hp). apply deadline_sent in Hd.
  apply poll_ok in Hp as (polls & pc & status & text & resp & [receipt env] & ac & Hsend & Hresp & Hpc & Hin & [Hf Ho] & Hac & Hsent).
  destruct Ho as (body & Hopen & Hout). simpl in *. rewrite Hd, Hsent1, <- app_assoc in Hsend, Hsent.
  apply open_signer_inv in Hopen as (raw & sk & pk & plain & payload & Hraw & Hsk & Hpk & Hdec & Hpay & Hm & Hbody).
  unfold foreign in Hf. rewrite !orb_false_iff, !negb_false_iff, !String.eqb_eq in Hf. destruct Hf as [[[F1 F2] F3] _].
  apply (outcome_of_reports cfg) in Hout as (Hrep & O1 & O2 & O3); [|done].
  exists vault, book, (wt_signer x), request, push_call, polls, pc, status, text, resp, receipt, env, ac.
  split_and!; try done; try congruence. exists raw, sk, pk, plain, payload, body. split_and!; done || congruence.
Qed.

(** *** Every round trip ends *)

(** Reads no clock, sends at most [k] requests and does not run out of fuel. *)
Definition frugal {A} (k : nat) (m : P A) : Prop := forall w,
  w_ticks (m w).1 = w_ticks w /\ (length (w_sent (m w).1) <= length (w_sent w) + k)%nat /\ (m w).2 <> Err PFuel.

Lemma frugal_lift {A} (r : result PeerError A) : r <> Err PFuel -> frugal 0 (slift r).
Proof. intros Hr w. simpl. split_and!; [done|lia|done]. Qed.
Lemma frugal_ret {A} (a : A) : frugal 0 (sret a).
Proof. by apply frugal_lift. Qed.
Lemma frugal_get {A} (f : world -> A) : frugal 0 (sget f).
Proof. intros w. simpl. split_and!; [done|lia|done]. Qed.
Lemma frugal_fs {E A} (f : E -> PeerError) (m : M fs E A) : (forall g e, (m g).2 = Err e -> f e <> PFuel) -> frugal 0 (on_fs f m).
Proof.
  intros Hm w. unfold on_fs. specialize (Hm (w_fs w)). destruct (m (w_fs w)) as [g [a|e]]; simpl; split_and!; try done; try lia.
  specialize (Hm e eq_refl). congruence.
Qed.
Lemma frugal_mail {A} (m : M (list HttpCall) string A) :
  (forall log, exists k, (m log).1 = log ++ k /\ (length k <= 1)%nat) -> frugal 1 (on_mail m).
Proof.
  intros Hm w. unfold on_mail. destruct (Hm (w_sent w)) as (k & Hk & Hl). destruct (m (w_sent w)) as [log [a|e]];
    simpl in *; subst; rewrite length_app; split_and!; try done; lia.
Qed.
Lemma frugal_bind {A B} j k (m : P A) (f : A -> P B) : frugal j m -> (forall a, frugal k (f a)) -> frugal (j + k) (sbind m f).
Proof.
  intros Hm Hf w. rewrite sbind_run. specialize (Hm w). destruct (m w) as [w1 [a|e]]; simpl in *.
  - specialize (Hf a w1). destruct Hm as (Ht1 & Hm & _), Hf as (Ht2 & Hf & Hr). split_and!; [congruence|lia|done].
  - destruct Hm as (Ht & Hm & Hr). split_and!; [done|lia|congruence].
Qed.
Lemma frugal_ack c receipt : frugal 1 (on_mail (ack c receipt)).
Proof.
  apply frugal_mail. intros log. unfold ack. rewrite sbind_run.
  destruct (exchange_sent c "POST" "/v1/ack" (mc_ack_token c) (AckRequest receipt) ack_from log) as (k & Hk & Hl).
  destruct (exchange _ _ _ _ _ _ log) as [l [[]|e]]; by exists k.
Qed.
Lemma frugal_pull c to max wait : frugal 1 (on_mail (pull c to max wait)).
Proof. apply frugal_mail. intros log. apply exchange_sent. Qed.

Lemma rbind_no_fuel {A B} (m : result PeerError A) (k : A -> result PeerError B) :
  m <> Err PFuel -> (forall a, k a <> Err PFuel) -> rbind m k <> Err PFuel.
Proof. intros Hm Hk. destruct m as [a|e]; simpl; [apply Hk|congruence]. Qed.
Lemma map_err_no_fuel {E A} (f : E -> PeerError) (m : result E A) : (forall e, f e <> PFuel) -> map_err f m <> Err PFuel.
Proof. intros Hf. destruct m; simpl; [done|]. intros [= He]. by apply Hf in He. Qed.
Ltac no_fuel :=
  repeat first
    [ apply rbind_no_fuel; [|intros ?]
    | apply map_err_no_fuel; by intros ?
    | progress (unfold ok_or, fail_if; case_match)
    | done ].

Lemma open_no_fuel keys signer env : open_signer_body keys signer env <> Err PFuel.
Proof. unfold open_signer_body, decode_escrow_id. no_fuel. Qed.
Lemma outcome_no_fuel x body : outcome_of x body <> Err PFuel.
Proof. destruct body; simpl; no_fuel. Qed.

Lemma frugal_handle x msgs : frugal 1 (handle_pulled x msgs).
Proof.
  induction msgs as [|msg rest IH]; simpl; [intros w; simpl; split_and!; [done|lia|done]|]. destruct (foreign _ _); [done|].
  apply (frugal_bind 0 1); [apply frugal_lift, open_no_fuel|intros body].
  apply (frugal_bind 0 1); [apply frugal_lift, outcome_no_fuel|intros out].
  apply (frugal_bind 1 0); [apply frugal_ack|intros []; apply frugal_ret].
Qed.
Lemma handle_none x msgs w w' : handle_pulled x msgs w = (w', Ok None) -> w' = w.
Proof.
  induction msgs as [|msg rest IH]; simpl; [by intros [= <-]|]. destruct (foreign _ _); [done|]. intros Hh.
  apply sbind_ok in Hh as (w1 & body & _ & Hh). apply sbind_ok in Hh as (w2 & out & _ & Hh).
  apply sbind_ok in Hh as (w3 & u & _ & [=]).
Qed.

Lemma poll_ends fuel n x deadline w :
  (n < fuel)%nat -> deadline <= now (w_ticks w + n) ->
  (poll fuel x deadline w).2 <> Err PFuel /\
  (length (w_sent (poll fuel x deadline w).1) <= length (w_sent w) + n + 2)%nat.
Proof.
  revert n w. induction fuel as [|f IH]; intros n w Hn Hd; [lia|]. simpl. rewrite sbind_run.
  pose proof (frugal_pull (wt_client x) (wt_local_id x) (Some PULL_MAX) (Some (wt_wait_ms x)) w) as Hp.
  destruct (on_mail _ w) as [w1 [resp|e]]; simpl in Hp |- *; destruct Hp as (Ht & Hl & Hr); [|split; [congruence|lia]].
  rewrite sbind_run. pose proof (frugal_handle x (pu_messages resp) w1) as Hh.
  destruct (handle_pulled _ _ w1) as [w2 [got|e]] eqn:Eh; simpl in Hh |- *; destruct Hh as (Ht2 & Hl2 & Hr2);
    [|split; [congruence|lia]].
  destruct got as [o|]; simpl; [split; [done|lia]|]. apply handle_none in Eh as ->.
  rewrite sbind_run. unfold read_clock at 1 2. simpl.
  destruct (Z.leb_spec deadline (now (w_ticks w1))) as [Hle|Hgt]; simpl; [split; [done|lia]|].
  destruct n as [|n]; [rewrite Nat.add_0_r in Hd; rewrite Ht in Hgt; lia|].
  destruct (IH n (World (w_fs w1) (w_sent w1) (S (w_ticks w1)))) as [IH1 IH2]; simpl; [lia| |].
  - rewrite Ht, plus_n_Sm. done.
  - simpl in IH2. split; [done|]. lia.
Qed.

Lemma next_out_seq_no_fuel path e g : (next_out_seq io partial umask pid path e g).2 <> Err PFuel.
Proof.
  unfold next_out_seq, read_seq_state. rewrite !sbind_run. unfold fs_exists, sget at 1.
  assert (forall st g, (sbind (write_seq_state io partial umask pid path (MkSeqState (<[e := next_seq st e]> (out_seq st))))
    (fun _ => sret (next_seq st e)) g).2 <> Err PFuel) as Hw.
  { intros st g'. rewrite sbind_run. unfold write_seq_state, write_private_file, smap_err.
    by destruct (write_secret_file _ _ _ _ _ _ g') as [g1 [[]|err]]. }
  destruct (negb (bool_decide (is_Some (g !! path)))); [exact (Hw (MkSeqState ∅) g)|]. rewrite sbind_run.
  unfold fs_read, must, sbind at 1 2, sget, slift at 1 2, fail_if. destruct (negb _); simpl; [done|].
  destruct (g !! path) as [x|]; simpl; [|done]. destruct (seq_from_slice _) as [st|]; simpl; [apply Hw|done].
Qed.

Lemma frugal_send cfg : frugal 1 (send_req cfg).
Proof.
  unfold PeerTool.send_req. cbv zeta.
  apply (frugal_bind 0 1); [by apply frugal_fs|intros vault].
  apply (frugal_bind 0 1).
  { apply frugal_lift. unfold check_request, validate_wire_peer_id. cbv zeta. no_fuel. }
  intros [[e h] t]. apply (frugal_bind 0 1); [by apply frugal_fs|intros book].
  apply (frugal_bind 0 1); [apply frugal_lift; no_fuel|intros signer].
  apply (frugal_bind 0 1); [apply frugal_lift; unfold decode_escrow_id; no_fuel|intros raw].
  apply (frugal_bind 0 1).
  { apply frugal_fs. intros g err Hg ->. by apply (next_out_seq_no_fuel _ _ g) in Hg. }
  intros seq. apply (frugal_bind 0 1).
  { unfold sealed_request. cbv zeta. repeat (apply (frugal_bind 0 0); [first [apply frugal_get|apply frugal_lift; no_fuel]|intros ?]).
    apply frugal_ret. }
  intros env. apply (frugal_bind 0 1); [apply frugal_lift; unfold mailbox_of; no_fuel|intros client].
  apply (frugal_bind 1 0); [|intros; apply frugal_ret]. apply frugal_mail. intros log. apply exchange_sent.
Qed.

(** A round trip ends when its clock passes the deadline, whatever the
    mailbox answers: if the clock shows the deadline at its [n]-th reading after
    the push, at most one request is pushed, [n + 1] pulls are sent and one
    message is acknowledged, and the fuel [n + 1] is enough. *)
Theorem round_trip_ends fuel n cfg w :
  (n < fuel)%nat -> now (w_ticks w) + sr_timeout_secs cfg * 1000 <= now (S (w_ticks w) + n) ->
  (sign_req fuel cfg w).2 <> Err PFuel /\
  (length (w_sent (sign_req fuel cfg w).1) <= length (w_sent w) + n + 3)%nat.
Proof.
  intros Hn Hd. unfold PeerTool.sign_req. rewrite sbind_run. pose proof (frugal_send cfg w) as Hs.
  destruct (send_req cfg w) as [w1 [x|e]]; simpl in Hs |- *; destruct Hs as (Ht & Hl & Hr); [|split; [congruence|lia]].
  unfold deadline_after. rewrite sbind_run, sbind_run. unfold read_clock. simpl.
  destruct (I64_MAX <? _); simpl; [split; [done|lia]|].
  destruct (poll_ends fuel n x (now (w_ticks w1) + sr_timeout_secs cfg * 1000) (World (w_fs w1) (w_sent w1) (S (w_ticks w1))))
    as [P1 P2]; [done|simpl; rewrite Ht; exact Hd|]. split; [exact P1|]. simpl in P2. lia.
Qed.

(** A message that names the signer, this peer and the escrow but does not
    open aborts the round trip before any later message is looked at, and is
    not acknowledged. *)
Theorem unopenable_message_aborts x msg rest w e :
  foreign x (pm_envelope msg) = false -> open_signer_body (wt_keys x) (wt_signer x) (pm_envelope msg) = Err e ->
  handle_pulled x (msg :: rest) w = (w, Err e).
Proof. intros Hf Ho. simpl. rewrite Hf, sbind_run, Ho. done. Qed.
End round_trip.

(** ** A concrete peer *)

(** Sequence states as texts of bits. *)
Fixpoint pos_bits (p : positive) : string :=
  match p with xH => EmptyString | xO p => String "0" (pos_bits p) | xI p => String "1" (pos_bits p) end.
Fixpoint bits_pos (s : string) : positive :=
  match s with EmptyString => xH | String c s => if (c =? "1")%char then xI (bits_pos s) else xO (bits_pos s) end.
Lemma bits_pos_bits p : bits_pos (pos_bits p) = p.
Proof. induction p as [p IH|p IH|]; simpl; [by rewrite IH..|done]. Qed.

Definition buyer_escrow : string := "00112233445566778899aabbccddeeff".
Definition old_answer : NxmsPayload :=
  MkPayload ESCROW_APP_PROTO_V1 TxSignResp buyer_escrow "arbiter-1" "buyer-1" 3 "signed".
Definition old_envelope : NxmsEnvelope :=
  MkEnvelope NXMS_PROTO_V1 NXMS_WIRE_KEM_ID_V1 NXMS_WIRE_SIG_ID_V1 TxSignResp buyer_escrow "arbiter-1" "buyer-1" 3 "k" "n" "answer" "t" "arbiter-1".
(** A signature is the name of who made it. *)
#[local] Instance buyer_lib : PeerLib := {|
  seq_from_slice := fun s => MkSeqState <$> decode (bits_pos s); seq_to_vec := fun st => pos_bits (encode (out_seq st));
  peer_to_vec := bp_id; peer_body_to_str := fun _ => "request"%string;
  peer_body_from_str := fun _ => Some (BTxSignResp (MkTxSignResp buyer_escrow true (Some "00cc"%string) ["txhash"%string] None));
  peer_payload_to_vec := fun p => pl_data p; peer_payload_from_slice := fun _ => Some old_answer; artifact_from_slice := fun _ => None;
  peer_encrypt := fun _ _ _ sk plain => Ok (TransportCrypto.MkSealed "k" "n" plain "t" sk);
  peer_decrypt := fun _ s _ pk => if (sp_sig_b64 s =? pk)%string then Ok (sp_ciphertext_b64 s) else Err CVerifyFailed |}.

Definition arbiter_entry : BookPeer := MkBookPeer "arbiter-1" "localhost" 80 (repeat_byte "p" 64) "arbiter-1".
#[local] Instance buyer_boot : BootLib :=
  let l := setup_lib in {|
  bl_sodium_init := bl_sodium_init; bl_opslimit := bl_opslimit; bl_memlimit := bl_memlimit; bl_pwhash := bl_pwhash;
  bl_aead_encrypt := bl_aead_encrypt; bl_aead_decrypt := bl_aead_decrypt; bl_b64_encode := bl_b64_encode; bl_b64_decode := bl_b64_decode;
  bl_host_to_vec := bl_host_to_vec; bl_host_from_slice := bl_host_from_slice; bl_issuer_to_vec := bl_issuer_to_vec;
  bl_issuer_from_slice := bl_issuer_from_slice; bl_identity_to_vec := bl_identity_to_vec; bl_identity_from_slice := bl_identity_from_slice;
  bl_issuer_bundle_to_vec := bl_issuer_bundle_to_vec; bl_issuer_bundle_from_slice := bl_issuer_bundle_from_slice;
  bl_bundle_to_vec := bl_bundle_to_vec; bl_bundle_from_slice := bl_bundle_from_slice; bl_peers_to_vec := bl_peers_to_vec;
  bl_peers_from_slice := fun _ => Some (MkPeerBook [arbiter_entry]); bl_sha256 := bl_sha256; bl_json_to_vec := bl_json_to_vec;
  bl_falcon_sign := bl_falcon_sign; bl_falcon_verify := bl_falcon_verify; bl_ed25519_public := bl_ed25519_public; bl_p256_public := bl_p256_public |}.

(** A mailbox whose inbox holds [inbox]. *)
Definition inbox_http (inbox : list PulledMessage) : MailHttp := {|
  Url := string; url_parse := Some; url_join := fun b p => Ok (b +:+ p); http_client := fun _ _ => Ok tt;
  http_send := fun _ _ => Ok (200, Some "json"%string);
  push_from := fun _ => Ok (MkPushResponse true false); pull_from := fun _ => Ok (MkPullResponse true inbox);
  ack_from := fun _ => Ok true; stats_from := fun _ => Err "no"%string; error_from := fun _ => None |}.

Definition buyer_fs : fs :=
  <["buyer/peers.json"%string := File true 420 "book"]>
  (init_vault good_io (fun s => s) 18 7 (Ok (setup_keys "buyer-1")) (repeat_byte "s" 16) (repeat_byte "n" 24) "buyer" pass_phrase "buyer-1" ∅).1.
Definition buyer_request (txset : string) : SignReqConfig :=
  MkSignReqConfig "buyer" pass_phrase "buyer/peers.json" "http://mailbox" "push" "pull" "ack" "arbiter-1" buyer_escrow Release txset
    (repeat_byte "a" 64) None None 60 1000 2.
Definition seconds (n : nat) : Z := 1000 * Z.of_nat n.
Definition buyer_asks (inbox : list PulledMessage) (txset : string) : world * result PeerError SignReqOutcome :=
  @sign_req buyer_boot buyer_lib (inbox_http inbox) good_io (fun s => s) 18 7 seconds 5 (buyer_request txset) (World buyer_fs [] 0).

(** The answer to an earlier request, still in the inbox, is taken for the
    answer to the next one: nothing ties a [tx_sign_resp] to the sequence number
    or the transaction set it answers, so requests for two different sets are
    both reported as approved, with the same signed transaction. *)
Theorem stale_answer_taken :
  let answer txset := (buyer_asks [MkPulled "r9" old_envelope] txset).2 in
  answer "00aa"%string = answer "00dd"%string /\
  exists o, answer "00aa"%string = Ok o /\ so_status o = Approved /\ so_signed_tx_data_hex o = Some "00cc"%string /\
    so_request_seq o <> ev_seq old_envelope.
Proof. vm_compute. split; [reflexivity|]. eexists. repeat split. discriminate. Qed.

(** Anyone who may push to the inbox can keep the peer from the answer: one
    envelope in the signer's name ends the round trip although the genuine
    answer is in the same batch, and it stays in the inbox. *)
Definition forged_envelope : NxmsEnvelope :=
  MkEnvelope NXMS_PROTO_V1 NXMS_WIRE_KEM_ID_V1 NXMS_WIRE_SIG_ID_V1 TxSignResp buyer_escrow "arbiter-1" "buyer-1" 9 "k" "n" "x" "t" "mallory".
Theorem forged_envelope_blocks :
  let r := buyer_asks [MkPulled "r1" forged_envelope; MkPulled "r9" old_envelope] "00aa" in
  r.2 = Err (PCrypto CVerifyFailed) /\ Forall (fun c => forall receipt, hc_body c <> AckRequest receipt) (w_sent r.1).
Proof. vm_compute. split; [reflexivity|]. repeat (constructor; [discriminate|]). constructor. Qed.

(** Two processes of one peer that read the state file before either
    replaces it send different requests under the same number. *)
Theorem racing_peers_share_seq :
  let read := read_seq_state (H := buyer_lib) good_io "buyer/peer_state.json" buyer_fs in
  let write pid st f := write_seq_state (H := buyer_lib) good_io (fun s => s) 18 pid "buyer/peer_state.json"
    (MkSeqState (<[buyer_escrow := next_seq st buyer_escrow]> (out_seq st))) f in
  exists st, read.2 = Ok st /\ (write 7 st buyer_fs).2 = Ok tt /\ (write 8 st (write 7 st buyer_fs).1).2 = Ok tt /\
    next_seq st buyer_escrow = 1.
Proof. exists (MkSeqState ∅). vm_compute. repeat split. Qed.

(** *** Witnesses *)

Lemma buyer_seq_json st : seq_from_slice (seq_to_vec st) = Some st.
Proof. destruct st as [m]. cbn [seq_from_slice seq_to_vec buyer_lib out_seq]. rewrite bits_pos_bits, decode_encode. done. Qed.
Definition no_sync (op : io_op) (_ : string) : bool := match op with IoSync => false | _ => true end.
(** The second allocation fails before its file is in place. *)
Definition three_tries : list (machine * string) :=
  [(MkMachine good_io (fun s => s) 18 7, buyer_escrow); (MkMachine no_sync (fun s => s) 18 8, buyer_escrow);
   (MkMachine good_io (fun s => s) 18 9, buyer_escrow)].
Example tried : numbers buyer_escrow (allocations "buyer/peer_state.json" three_tries ∅) = [1; 2].
Proof. vm_compute. reflexivity. Qed.
Lemma seqs_never_reused_witness :
  StronglySorted after (numbers buyer_escrow (allocations "buyer/peer_state.json" three_tries ∅)).
Proof.
  apply (seqs_never_reused "buyer/peer_state.json" buyer_seq_json).
  repeat (constructor; [vm_compute; discriminate|]). constructor.
Defined.

Lemma round_trip_ends_witness :
  (buyer_asks [] "00aa").2 <> Err PFuel /\ (length (w_sent (buyer_asks [] "00aa").1) <= 4)%nat.
Proof.
  apply (@round_trip_ends buyer_boot buyer_lib (inbox_http []) good_io (fun s => s) 18 7 seconds 5 1 (buyer_request "00aa") (World buyer_fs [] 0)).
  - lia.
  - vm_compute. discriminate.
Defined.

Lemma unopenable_message_aborts_witness :
  let x := @MkWaiting (inbox_http []) (@MkMailboxClient (inbox_http []) "u"%string None None None None) (setup_keys "buyer-1")
    arbiter_entry "buyer-1" "arbiter-1" buyer_escrow 1 0 in
  let w := World ∅ [] 0 in
  handle_pulled x [MkPulled "r1" forged_envelope] w = (w, Err (PCrypto CVerifyFailed)).
Proof.
  intros x w. apply (@unopenable_message_aborts buyer_boot buyer_lib (inbox_http []) x (MkPulled "r1" forged_envelope) [] w); vm_compute; reflexivity.
Defined.

Lemma outcome_from_signer_witness :
  exists book request push_call rest body,
    (peer_book_load good_io (@bl_peers_from_slice buyer_boot) "buyer/peers.json" buyer_fs).2 = Ok book /\
    peer_book_get book "arbiter-1" = Some arbiter_entry /\
    hc_body push_call = PushRequest request (Some 60) /\ ev_seq request = 1 /\
    w_sent (buyer_asks [MkPulled "r9" old_envelope] "00aa").1 = push_call :: rest /\
    reports (buyer_request "00aa") body (MkOutcome Approved buyer_escrow "arbiter-1" 1 true (Some "00cc"%string) ["txhash"%string] None).
Proof.
  destruct (@outcome_from_signer buyer_boot buyer_lib (inbox_http [MkPulled "r9" old_envelope]) good_io (fun s => s) 18 7 seconds 5 (buyer_request "00aa")
    (World buyer_fs [] 0) (buyer_asks [MkPulled "r9" old_envelope] "00aa").1
    (MkOutcome Approved buyer_escrow "arbiter-1" 1 true (Some "00cc"%string) ["txhash"%string] None))
    as (vault & book & signer & request & push_call & polls & pc & status & text & resp & receipt & env & ac & Hw).
  - vm_compute. reflexivity.
  - destruct Hw as (_ & Hbook & Hget & Hpush & _ & _ & _ & _ & _ & _ & _ & _ & _ & _ & _ & Hopen & _ & _ & Hseq & _ & Hsent).
    destruct Hopen as (raw & sk & pk & plain & payload & body & _ & _ & _ & _ & _ & _ & _ & Hrep).
    exists book, request, push_call, (polls ++ [pc; ac]), body. split; [exact Hbook|]. split.
    + vm_compute in Hbook. injection Hbook as <-. vm_compute. reflexivity.
    + split; [exact Hpush|]. split; [exact (eq_sym Hseq)|]. split; [exact Hsent|exact Hrep].
Defined.
